(* ===== verification/_CoqProject ===== *)
-Q . S2P
Prelude.v
Errors.v
GoLib.v
GoNet.v
Model.v
Platform.v
Exec.v
Schema.v
NetSafety.v
Crypto.v
GoEnc.v
GoFloat.v
Aes.v
Config.v
SessionSvc.v
OAuthRepo.v
Scopes.v
Policy.v
ActionToken.v
UserSvc.v
Argon2.v
MfaSvc.v
ReauthSvc.v
OAuth.v
Middleware.v
Token.v
Json.v
JsonFuel.v
Authorize.v
AuthSteps.v
Device.v
Introspect.v
AuthFacts.v
InitFacts.v
StepFacts.v
Rbac.v
Resource.v
JsonFlat.v
JsonTree.v
Profile.v
ProcMem.v
Outbox.v
EmailTpl.v
Settings.v
Password.v
Account.v
Passkey.v
Regform.v
Invitation.v
FedRepo.v
Federation.v
FedFlow.v
FedFacts.v
Cleanup.v
M2M.v
PolicyEngine.v
ClientSvc.v
Dcr.v
ClientFacts.v
ClientAuth.v
ClientFlow.v
Oidc.v
OidcFacts.v
OidcSample.v
RateLimit.v
Importer.v
Http.v
Startup.v
AuditTrail.v
PolicyAudit.v
Gin.v
Router.v
RouterFacts.v
AdminHandlers.v
SelfHandlers.v
ServiceHandlers.v
RouterSample.v
OAuthHandler.v
OAuthHandlerFacts.v
OAuthHandlerSample.v
