(* ===== verification/Prelude.v ===== *)
(** * Verification of the orion-auth backend

    orion-auth is an OAuth 2.0 and OpenID Connect provider written in Go: an
    HTTP layer (gin) over services, one per concern, over a PostgreSQL store
    (gorm).  This library is a shallow embedding of it: the statements on the
    database, the operations of the services, the handlers and the middlewares
    of every route, as functions of an environment and a database, and theorems
    about them.

    ** How an operation is modelled

    [Exec.v]: an operation of type [M A] reads an environment [Env] (the
    injected clock [env_now], the wall clock [env_wall], random bytes and
    UUIDs, and [env_fail], the schedule of faults), threads a [DB] (one finite
    map per table, keyed by its primary key) and a counter of effects, and
    returns a [result].  Every statement, random draw and call of a read-only
    collaborator is one effect; [env_fail n] makes the n-th one fail, so that a
    theorem without [no_faults] holds whatever statement fails.  [transaction]
    restores the database when its body fails, as gorm does.  [find_row] keeps
    gorm's habit of returning a zero row beside a driver error.  A Go pointer
    that may be nil is an [option].  The clocks stand still during one
    operation; operations do not interleave inside one another, so what
    concurrent calls may do between two statements is not modelled, except as
    histories ([history]): lists of whole calls, each with its own environment.

    [ProcMem.v]: an operation of type [PM S A] also threads a memory of the
    process (a cache, the compiled policies, the buckets of a limiter), which
    keeps what was written when the operation fails.  [Gin.v]: a request runs
    through a chain of handlers, each of which may run the rest inside itself
    ([c.Next()]) or keep it from running ([c.Abort()]); a handler of a service
    ends in a status and a body, or an error that [Http.v] turns into an answer.

    [run m env db] runs an operation from a database; [wp] is its weakest
    precondition, with one rule per construct ([wp_step] applies them), and
    [Preserves R m] says an operation relates the databases before and after by
    [R], again by structure ([solve_preserves]).  A theorem says what [run]
    returns, on every branch, the errors included.

    Loops of the source follow lists and strings, and so do the definitions.  A
    few that do not descend on a list take fuel: the JSON parser (each of its
    calls consumes a byte or ends; [parse_value_fuel] shows the fuel given is
    enough, whatever the text), the digits of a number (their count bounds the
    fuel), the search for the shortest decimal of a float (seventeen digits
    suffice) and the blocks of a digest (the length of the message).

    ** The parts

    Foundations.
    - [Prelude.v]: record update, tactics, lemmas on lists and tables.
    - [Errors.v]: src/pkg/errors.go.  [Http.v]: src/pkg/response.go,
      src/middleware/cors.go, security.go, requestid.go.
    - [GoLib.v], [GoNet.v], [GoEnc.v], [GoFloat.v], [Json.v], [JsonFlat.v],
      [JsonFuel.v], [JsonTree.v]: what the source uses of the standard library (integers of 64
      bits, time, strings, net/url, net/netip, hex and base64, SHA-256, float64
      and its printing, encoding/json).  [Platform.v]: third-party code the
      source calls everywhere (google/uuid, the type [any]), as a class.
    - [Model.v]: src/model, the rows and their methods; [Profile.v]: the
      metadata of an account, the claims about it and the operations that merge
      into it.  [Schema.v]: the foreign keys of src/migrations, as what a
      deletion takes along.
    - [Config.v]: the settings of src/config; [Startup.v]: their validation and
      what a boot checks and seeds (src/main.go).
    - [Exec.v], [ProcMem.v], [Gin.v]: the execution model.
    - [NetSafety.v]: src/pkg/netsafety.  [Crypto.v], [Argon2.v], [Aes.v]:
      src/crypto.  [ActionToken.v]: src/actiontoken.

    Accounts, each with its repository, its service and its theorems in Modules
    of these names: [UserSvc.v] (src/user), [SessionSvc.v] (src/session),
    [MfaSvc.v] (src/mfa), [ReauthSvc.v] (src/reauth), [Passkey.v] (src/passkey),
    [Password.v] (src/password), [Regform.v] (src/regform), [Invitation.v] and
    [Settings.v] (src/invitation), [Account.v] (src/account), [Rbac.v]
    (src/rbac), [Resource.v] (src/resource), [M2M.v] (src/m2m), [Importer.v]
    (src/importer), [AuditTrail.v] (src/audit), [Cleanup.v]
    (src/database/cleanup.go); [Outbox.v] and [EmailTpl.v] (src/email).

    OAuth: [OAuthRepo.v] (src/oauth/repository.go); [Scopes.v], [Policy.v] (the
    pure helpers of src/oauth/service.go, src/oauth/policy_modify.go and
    src/policy/inputs); [OAuth.v] (the service record and the interfaces of its
    collaborators); [Authorize.v], [AuthSteps.v], [Token.v], [Device.v],
    [Introspect.v] (the operations); [AuthFacts.v], [InitFacts.v],
    [StepFacts.v] (the theorems on the authorization endpoint and its steps);
    [OAuthHandler.v] with its facts and samples (src/oauth/handler.go and
    request_object.go).

    Clients: [ClientSvc.v], [Dcr.v], [ClientFacts.v] (src/client),
    [ClientAuth.v], [ClientFlow.v] (src/middleware/client_auth.go and
    jwt_client_auth.go).

    OpenID provider: [Oidc.v], [OidcFacts.v], [OidcSample.v] (src/oidc,
    src/crypto/keys.go).

    Federation: [FedRepo.v], [Federation.v], [FedFlow.v], [FedFacts.v]
    (src/federation).

    Policies: [PolicyEngine.v] (src/policy), [PolicyAudit.v] (the audit of
    denials, its replay and its statistics in src/policy/service.go).

    Routes: [Middleware.v] (src/middleware/auth.go, client_scope.go, reauth.go),
    [RateLimit.v] (src/middleware/ratelimit.go), [Router.v], [RouterFacts.v],
    [RouterSample.v] (setupRouter of src/main.go and the RegisterRoutes of the
    packages), and the handlers the routes name: [AdminHandlers.v],
    [SelfHandlers.v], [ServiceHandlers.v].

    A request to sign in runs through the parts like this: [InitAuthorize]
    (perhaps from a pushed request or a signed request object) stores an
    authorization request or answers at once; [AuthorizeLogin],
    [AuthorizeRegister], [AuthorizeMFA], [AuthorizeConsent] and the return steps
    move it along, calling the user, MFA, federation and consent parts;
    [completeAuthorize] opens a session, deletes the request and stores a code;
    the token endpoint exchanges the code, and later its refresh tokens; the
    middleware, introspection and revocation look tokens up.

    Collaborators are records of operations with their laws as classes
    ([EmailSenderLaws], [RoleAssignerLaws], [MFAValidatorLaws],
    [ResourceValidatorLaws], [JwtLaws], [TotpLaws] and others): clients are
    proved against the laws, and the services discharge theirs
    ([mfa_service_laws], [rbac_assigner_laws], [resource_validator_laws]).
    Libraries of others are records with the laws the theorems ask for, and each
    such theorem has a witness with a concrete library.

    ** What the theorems show

    - Authorization: what a success of [InitAuthorize] means
      ([InitAuthorize_spec]); a password does not stand for a second factor
      ([second_factor_required]); histories of steps keep requests well formed
      and their parameters fixed ([request_lifecycle]) and every code goes back
      to a request ([code_traceable]); pushed requests answer once
      ([par_single_use]); request objects are signed by the client's keys
      ([request_objects_signed]); a cookie set by a sign-in opens a live session
      ([sign_in_cookies_open_sessions]).
    - Tokens: the exchanges' specifications, under every schedule of faults,
      and single use of codes and refresh tokens ([code_single_use],
      [refresh_single_use]); the states of a device code ([device_lifecycle]);
      reported tokens are live ([Introspect_spec]).
    - OpenID: what an identity token says ([id_token_claims_spec]) and for how
      long its key is published ([id_token_survives_rotation],
      [jwks_round_trip]); where a logout goes ([EndSession_spec]).
    - Clients: who passes the authentication ([ClientAuth_spec]), that an issued
      secret does until it is rotated ([issued_secret_authenticates]), and what
      every stored client satisfies ([registered_clients_wf]).
    - Federation: what a callback establishes ([ProcessCallback_spec]), where it
      may send the browser ([callback_redirects_safely]), where links come from
      ([link_origin]).
    - Accounts: unique emails and keys over all histories
      ([users_wf_invariant]), hashes verify ([password_hash_roundtrip]), sign-up
      forms ([stored_form_refuses]), changes of address
      ([ConfirmEmailChange_spec]), challenges of passkeys
      ([challenge_answered_once]), invitations ([invitation_redeemed_once]),
      what an import may write ([import_adds_only]).
    - Administration: every route of it is closed to those without a permission
      of its group ([admin_api_closed]); protected roles stay with their holders
      ([protected_roles_held]); services act within their scopes
      ([m2m_authorized]); the compiled policies follow the table
      ([engine_follows_table]); the resource service narrows scopes to exactly
      those held ([resource_validator_spec]).
    - Background: the outbox drains ([outbox_drains], [outbox_invariant]), the
      sweep removes nothing a caller could have seen ([cleanup_transparent]),
      and a limiter lets its burst pass and no more ([burst_bounded]).
    - Examples next to the theorems run the model where the program does
      something else than it means to: a device code redeemed twice after a
      lost write, a TOTP code accepted in three steps, a lost lookup that skips
      the second factor, a silent sign-in of a deactivated user, a revoked JWT
      reported active, an account deleted against its policy, a reader of roles
      that takes one, a suspended user imported active, a window of statistics
      that wraps into the future.

    ** Bounds and approximations

    Go's [int] and durations are 64-bit and wrap ([int64_wrap], [dur_mul]);
    instants are nanoseconds as integers, unbounded.  [strings.ToLower],
    [strings.TrimSpace], the case folding of JSON keys and [%q] of identifiers
    are modelled on ASCII.  float64 is the Standard Library's specification of
    binary64; a processor that fuses multiplication and addition in the limiter
    rounds once where the model rounds twice.  A [jsonb] column keeps its text
    as written.  Widths of VARCHAR columns are modelled where a value comes
    unchecked from a client (user agents in the audit log), not elsewhere; the
    unique columns the services rely on and the foreign keys of deleted rows
    are.  The order of a Go map, where the source ranges over one, is the order
    of the document or of the keys.  The notifications a logout starts in
    goroutines run one after the other; a second evaluation that a policy
    evaluator makes only to log its result is left out.  The collation of the
    database is a parameter of the lists it orders.  The user service of the
    OAuth service is always wired, as in main.go.

    Parameters, with laws where a theorem needs them: OPA, html/template,
    zxcvbn, go-mail, go-webauthn, x/oauth2, go-oidc, golang-jwt, jwx, RSA, X.509
    and PEM, Argon2 and bcrypt, the HTTP client, the resolver, and gin with its
    binding of bodies.

    ** Not modelled

    Log lines and metrics; audit records of the OAuth, OpenID and federation
    sign-in handlers (those of the handlers in [AdminHandlers.v],
    [SelfHandlers.v] and [ServiceHandlers.v] are modelled); the JSON of answers,
    the cookies of a logout and the static page of check_session: output without
    a decision of the program.  The flags and printing of src/cmd_import.go, the
    loading of the configuration by viper, the connection to the database, the
    running of the migrations and src/testutil: I/O.  The construction of the
    services in main.go and their tickers: a sweep, a batch and a cleanup are
    operations, at any instant.  The descriptions of policy inputs shown to
    administrators (src/policy/inputs/schemas.go): constant texts. *)
From stdpp Require Export base numbers list strings sorting gmap fin_maps relations.
From Stdlib Require Export ZArith Lia.

(** ** Record update

    [r <| f := v |>] is the record [r] with field [f] set to [v].  A record
    type provides its eta expansion as an instance of [Eta]; the setter of a
    projection is then computed by abstracting the projection in it. *)

Class Eta (R : Type) := eta_of : R -> R.
Class Upd {R A : Type} (p : R -> A) := upd : (A -> A) -> R -> R.
Global Arguments upd {R A} p {_} _ _ : simpl never.

Ltac solve_upd :=
  lazymatch goal with
  | |- @Upd ?R ?A ?p =>
      let inst := constr:(_ : Eta R) in
      let e := eval hnf in inst in
      let abs := eval pattern p in e in
      lazymatch abs with
      | ?body _ =>
          let s := constr:(fun (g : A -> A) (r : R) => body (fun r' => g (p r')) r) in
          let s := eval cbv beta in s in
          exact s
      end
  end.

#[export] Hint Extern 0 (Upd _) => solve_upd : typeclass_instances.

Declare Scope go_scope.
Delimit Scope go_scope with go.
Notation "r <| f := v |>" := (upd f (fun _ => v) r)
  (at level 1, left associativity, f at level 9, v at level 200) : go_scope.
Notation "r <| f ::= g |>" := (upd f g r)
  (at level 1, left associativity, f at level 9, g at level 200) : go_scope.
Global Open Scope go_scope.


(** ** Tactics *)

(** Case analysis on the innermost scrutinee of a goal or hypothesis. *)
Ltac destruct_scrutinee t :=
  lazymatch t with
  | context [match ?x with _ => _ end] => destruct_scrutinee x
  | _ => destruct t eqn:?
  end.

Ltac destruct_match :=
  match goal with
  | |- context [match ?x with _ => _ end] => destruct_scrutinee x
  | H : context [match ?x with _ => _ end] |- _ => destruct_scrutinee x
  end.

Ltac bool_simpl :=
  repeat match goal with
  | H : _ && _ = true |- _ => apply andb_true_iff in H; destruct H
  | H : _ || _ = false |- _ => apply orb_false_iff in H; destruct H
  | H : negb _ = true |- _ => apply negb_true_iff in H
  | H : negb _ = false |- _ => apply negb_false_iff in H
  | H : String.eqb _ _ = true |- _ => apply String.eqb_eq in H
  | H : String.eqb _ _ = false |- _ => apply String.eqb_neq in H
  | H : N.eqb _ _ = true |- _ => apply N.eqb_eq in H
  | H : N.eqb _ _ = false |- _ => apply N.eqb_neq in H
  | H : Z.ltb _ _ = true |- _ => apply Z.ltb_lt in H
  | H : Z.ltb _ _ = false |- _ => apply Z.ltb_ge in H
  | H : Z.leb _ _ = true |- _ => apply Z.leb_le in H
  | H : Z.leb _ _ = false |- _ => apply Z.leb_gt in H
  end.

(** ** Lists of strings *)

Definition is_Some_b {A} (o : option A) : bool :=
  match o with Some _ => true | None => false end.

(** [for _, y := range l { if y == x { return true } }; return false] *)
Definition mem (x : string) (l : list string) : bool := existsb (String.eqb x) l.

(** Comparison of two pointers' targets as the code writes it. *)
Definition opt_str_eqb (o : option string) (s : string) : bool :=
  match o with Some s' => String.eqb s' s | None => false end.

(** [if input.X != nil { r.X = *input.X }] *)
Definition set_some {A R} (o : option A) (f : A -> R -> R) (r : R) : R :=
  match o with Some a => f a r | None => r end.

(** What every assignment keeps. *)
Lemma set_some_keeps {A R} (P : R -> Prop) (o : option A) (f : A -> R -> R) r :
  (forall a r, o = Some a -> P r -> P (f a r)) -> P r -> P (set_some o f r).
Proof. destruct o; simpl; auto. Qed.

Ltac set_some_chain :=
  repeat lazymatch goal with
  | |- ?P (set_some ?o ?f ?r) => apply (set_some_keeps P o f r); [by intros ? ? _ ?|]
  end.

(** ** First row of a table in key order *)

Section first_row.
  Context {K V : Type} `{Countable K} (kle : K -> K -> bool).

Fixpoint min_row (l : list (K * V)) : option (K * V) :=
  match l with
  | [] => None
  | kv :: l' =>
      match min_row l' with
      | Some kv' => if kle kv'.1 kv.1 then Some kv' else Some kv
      | None => Some kv
      end
  end.

Definition first_row (P : V -> bool) (m : gmap K V) : option V :=
  snd <$> min_row (List.filter (fun kv => P kv.2) (map_to_list m)).

Definition select_rows (P : V -> bool) (m : gmap K V) : list V :=
  (List.filter P (map_to_list m).*2).

Definition update_rows (P : V -> bool) (f : V -> V) (m : gmap K V) : gmap K V :=
  (fun v => if P v then f v else v) <$> m.

Definition count_rows (P : V -> bool) (m : gmap K V) : Z :=
  Z.of_nat (List.length (select_rows P m)).

Lemma min_row_elem l kv : min_row l = Some kv -> In kv l.
Proof.
  revert kv; induction l as [|kv0 l IH]; intros kv Hm; simpl in *; [done|].
  destruct (min_row l) as [kv'|] eqn:E.
  - destruct (kle _ _); simplify_eq; [right; by apply IH | by left].
  - simplify_eq. by left.
Qed.

Lemma min_row_None l : min_row l = None -> l = [].
Proof.
  destruct l as [|kv l]; [done|]; simpl.
  destruct (min_row l); [destruct (kle _ _)|]; done.
Qed.

Lemma first_row_Some P m v :
  first_row P m = Some v -> exists k, m !! k = Some v /\ P v = true.
Proof.
  unfold first_row. intros Hf.
  destruct (min_row _) as [[k v']|] eqn:E; simpl in Hf; simplify_eq.
  apply min_row_elem, filter_In in E as [E HP]. simpl in HP.
  exists k. split; [|done].
  by apply elem_of_map_to_list, list_elem_of_In.
Qed.

Lemma first_row_None P m :
  first_row P m = None <-> forall k v, m !! k = Some v -> P v = false.
Proof.
  unfold first_row. split.
  - intros Hf k v Hk. destruct (min_row _) eqn:E; [done|].
    apply min_row_None in E.
    destruct (P v) eqn:HP; [exfalso|done].
    assert (Hin : In (k, v) (List.filter (fun kv => P kv.2) (map_to_list m))).
    { apply filter_In. split; [|done].
      by apply list_elem_of_In, elem_of_map_to_list. }
    by rewrite E in Hin.
  - intros Hall. destruct (min_row _) as [[k v]|] eqn:E; [exfalso|done].
    apply min_row_elem, filter_In in E as [E HP]. simpl in HP.
    apply list_elem_of_In, elem_of_map_to_list in E. by rewrite (Hall _ _ E) in HP.
Qed.

Lemma first_row_unique P m k v :
  m !! k = Some v -> P v = true ->
  (forall k' v', m !! k' = Some v' -> P v' = true -> v' = v) ->
  first_row P m = Some v.
Proof.
  intros Hk HP Hu. destruct (first_row P m) as [v'|] eqn:E.
  - apply first_row_Some in E as (k' & Hk' & HP'). f_equal. eauto.
  - rewrite first_row_None in E. by rewrite (E _ _ Hk) in HP.
Qed.

Lemma lookup_update_rows P f m k :
  update_rows P f m !! k = (fun v => if P v then f v else v) <$> m !! k.
Proof. unfold update_rows. apply lookup_fmap. Qed.

Lemma update_rows_id P f m :
  (forall k v, m !! k = Some v -> P v = false) -> update_rows P f m = m.
Proof.
  intros Hall. apply map_eq; intros k. rewrite lookup_update_rows.
  destruct (m !! k) eqn:E; simpl; [|done]. by rewrite (Hall _ _ E).
Qed.

Lemma elem_of_select_rows P m v :
  v ∈ select_rows P m <-> exists k, m !! k = Some v /\ P v = true.
Proof.
  unfold select_rows. rewrite list_elem_of_In, filter_In, <-list_elem_of_In.
  rewrite list_elem_of_fmap. split.
  - intros [([k v'] & -> & Hin) HP]. exists k. split; [|done].
    by apply elem_of_map_to_list.
  - intros (k & Hk & HP). split; [|done]. exists (k, v). split; [done|].
    by apply elem_of_map_to_list.
Qed.

End first_row.

(** Updating a row that is there is inserting the updated row. *)
Lemma alter_present {K V} `{Countable K} (f : V -> V) (k : K) (v : V) (m : gmap K V) :
  m !! k = Some v -> alter f k m = <[k := f v]> m.
Proof.
  intros Hk. apply map_eq. intros i. destruct (decide (k = i)) as [->|Hne].
  - by rewrite lookup_alter_eq, lookup_insert_eq, Hk.
  - by rewrite lookup_alter_ne, lookup_insert_ne.
Qed.

Lemma mem_iff x l : mem x l = true <-> x ∈ l.
Proof.
  unfold mem. rewrite existsb_exists, list_elem_of_In. split.
  - intros (y & Hin & He). apply String.eqb_eq in He. by subst.
  - intros Hin. exists x. by rewrite String.eqb_refl.
Qed.

Lemma mem_false_iff x l : mem x l = false <-> x ∉ l.
Proof. rewrite <-mem_iff. by destruct (mem x l). Qed.

Lemma elem_of_List_filter {A} (P : A -> bool) l (x : A) :
  x ∈ List.filter P l <-> x ∈ l /\ P x = true.
Proof. by rewrite !list_elem_of_In, filter_In. Qed.

Create Rewrite HintDb orion.
#[export] Hint Rewrite mem_iff mem_false_iff @elem_of_List_filter : orion.
