(* ===== verification/Errors.v ===== *)
(** * pkg/errors.go: the error values of the service

    The two error structs of the source, every constructor, and the type
    [error] of the values a Go function returns as its error: one of the two
    structs, an error of the database driver, or another error value. *)
From S2P Require Import Prelude.
Local Open Scope Z_scope.

Module OAuthError.
Record t := mk { Code : string; Description : string; URI : string; StatusCode : Z }.
End OAuthError.

Module AppError.
Record t := mk { Message : string; Code : string; StatusCode : Z }.
End AppError.

Inductive error :=
| EOAuth (e : OAuthError.t)
| EApp (e : AppError.t)
| EDriver (msg : string)
| EOther (msg : string).

Definition OAuthError_Error (e : OAuthError.t) : string :=
  if negb (String.eqb e.(OAuthError.Description) "")
  then e.(OAuthError.Code) +:+ ": " +:+ e.(OAuthError.Description)
  else e.(OAuthError.Code).

Definition AppError_Error (e : AppError.t) : string := e.(AppError.Message).

(** The [Error()] method of an error value. *)
Definition error_string (e : error) : string :=
  match e with
  | EOAuth e => OAuthError_Error e
  | EApp e => AppError_Error e
  | EDriver m => m
  | EOther m => m
  end.

Definition ErrInvalidRequest (desc : string) : error :=
  EOAuth (OAuthError.mk "invalid_request" desc "" 400).
Definition ErrUnauthorizedClient (desc : string) : error :=
  EOAuth (OAuthError.mk "unauthorized_client" desc "" 403).
Definition ErrAccessDenied (desc : string) : error :=
  EOAuth (OAuthError.mk "access_denied" desc "" 403).
Definition ErrUnsupportedResponseType (desc : string) : error :=
  EOAuth (OAuthError.mk "unsupported_response_type" desc "" 400).
Definition ErrInvalidScope (desc : string) : error :=
  EOAuth (OAuthError.mk "invalid_scope" desc "" 400).
Definition ErrServerError (desc : string) : error :=
  EOAuth (OAuthError.mk "server_error" desc "" 500).
Definition ErrUnsupportedGrantType (desc : string) : error :=
  EOAuth (OAuthError.mk "unsupported_grant_type" desc "" 400).
Definition ErrInvalidGrant (desc : string) : error :=
  EOAuth (OAuthError.mk "invalid_grant" desc "" 400).
Definition ErrInvalidClient (desc : string) : error :=
  EOAuth (OAuthError.mk "invalid_client" desc "" 401).
Definition ErrAuthorizationPending : error :=
  EOAuth (OAuthError.mk "authorization_pending" "authorization request is still pending" "" 400).
Definition ErrSlowDown : error :=
  EOAuth (OAuthError.mk "slow_down" "polling too frequently" "" 400).
Definition ErrExpiredToken (desc : string) : error :=
  EOAuth (OAuthError.mk "expired_token" desc "" 400).
Definition ErrLoginRequired (desc : string) : error :=
  EOAuth (OAuthError.mk "login_required" desc "" 400).
Definition ErrConsentRequired (desc : string) : error :=
  EOAuth (OAuthError.mk "consent_required" desc "" 400).
Definition ErrInteractionRequired (desc : string) : error :=
  EOAuth (OAuthError.mk "interaction_required" desc "" 400).
Definition ErrAccountSelectionRequired (desc : string) : error :=
  EOAuth (OAuthError.mk "account_selection_required" desc "" 400).
Definition ErrBadRequest (msg : string) : error :=
  EApp (AppError.mk msg "bad_request" 400).
Definition ErrNotFound (msg : string) : error :=
  EApp (AppError.mk msg "not_found" 404).
Definition ErrUnauthorized (msg : string) : error :=
  EApp (AppError.mk msg "unauthorized" 401).
Definition ErrForbidden (msg : string) : error :=
  EApp (AppError.mk msg "forbidden" 403).
Definition ErrConflict (msg : string) : error :=
  EApp (AppError.mk msg "conflict" 409).
Definition ErrInternal (msg : string) : error :=
  EApp (AppError.mk msg "internal_error" 500).
Definition ErrTooManyRequests (msg : string) : error :=
  EApp (AppError.mk msg "too_many_requests" 429).
Definition ErrAccountLocked (msg : string) : error :=
  EApp (AppError.mk msg "account_locked" 403).
Definition ErrEmailNotVerified (msg : string) : error :=
  EApp (AppError.mk msg "email_not_verified" 403).

(** ** Results of Go functions: a value or an error *)
Inductive result (A : Type) :=
| Ok (a : A)
| Err (e : error).
Arguments Ok {A} _.
Arguments Err {A} _.

Definition is_ok {A} (r : result A) : bool :=
  match r with Ok _ => true | Err _ => false end.

(** The machine-readable code of an error, as the handlers serialise it. *)
Definition error_code (e : error) : string :=
  match e with
  | EOAuth e => e.(OAuthError.Code)
  | EApp e => e.(AppError.Code)
  | EDriver _ | EOther _ => ""
  end.
