(* ===== verification/GoLib.v ===== *)
(** * The parts of the Go standard library the source uses

    Machine integers and [time], [strings], [strconv.Atoi], [encoding/hex],
    [encoding/base64] (raw URL alphabet) and [crypto/sha256], on byte strings.
    [strings.ToLower] and [strings.TrimSpace] are modelled on ASCII. *)
From S2P Require Import Prelude.
From Stdlib Require Import Ascii.
Local Open Scope Z_scope.

(** ** int64 *)

Definition int64_wrap (x : Z) : Z := (x + 2 ^ 63) mod 2 ^ 64 - 2 ^ 63.
Definition int64_min : Z := - 2 ^ 63.
Definition int64_max : Z := 2 ^ 63 - 1.

(** ** Package time: instants in nanoseconds since the Unix epoch *)

Definition nanosecond : Z := 1.
Definition second : Z := 1000000000.
Definition minute : Z := 60 * second.
Definition hour : Z := 60 * minute.

(** [time.Duration(n) * unit] on int64. *)
Definition dur_mul (n unit : Z) : Z := int64_wrap (int64_wrap n * unit).

Definition time_add (t d : Z) : Z := t + d.
(** [t.Sub(u)] saturates at the bounds of int64. *)
Definition time_sub (t u : Z) : Z := Z.max int64_min (Z.min int64_max (t - u)).
Definition time_after (t u : Z) : bool := u <? t.
Definition time_before (t u : Z) : bool := t <? u.
(** [time.Time{}]: January 1, year 1, UTC. *)
Definition time_zero : Z := - 62135596800 * second.
Definition time_is_zero (t : Z) : bool := t =? time_zero.
Definition time_unix (t : Z) : Z := t / second.
(** [int(d.Seconds())]: truncation towards zero. *)
Definition dur_seconds (d : Z) : Z := Z.quot d second.

(** ** Package strings *)

Definition bytes_of (s : string) : list Z :=
  map (fun c => Z.of_nat (nat_of_ascii c)) (String.list_ascii_of_string s).
Definition string_of_bytes (l : list Z) : string :=
  String.string_of_list_ascii (map (fun b => ascii_of_nat (Z.to_nat b)) l).

Definition lower_ascii (c : ascii) : ascii :=
  let n := nat_of_ascii c in
  if (65 <=? n)%nat && (n <=? 90)%nat then ascii_of_nat (n + 32) else c.

Fixpoint to_lower (s : string) : string :=
  match s with
  | EmptyString => EmptyString
  | String c s' => String (lower_ascii c) (to_lower s')
  end.

(** '\t', '\n', '\v', '\f', '\r' and ' '. *)
Definition is_space_ascii (c : ascii) : bool :=
  let n := nat_of_ascii c in ((9 <=? n)%nat && (n <=? 13)%nat) || (n =? 32)%nat.

Fixpoint drop_spaces (l : list ascii) : list ascii :=
  match l with
  | c :: l' => if is_space_ascii c then drop_spaces l' else l
  | [] => []
  end.

Definition trim_space (s : string) : string :=
  String.string_of_list_ascii (rev (drop_spaces (rev (drop_spaces (String.list_ascii_of_string s))))).

(** [strings.Split(s, sep)] for a one-byte separator. *)
Fixpoint split_on (sep : ascii) (s : string) : list string :=
  match s with
  | EmptyString => [EmptyString]
  | String c s' =>
      if Ascii.eqb c sep then EmptyString :: split_on sep s'
      else match split_on sep s' with
           | p :: ps => String c p :: ps
           | [] => [String c EmptyString]
           end
  end.

(** [strings.Count(s, sep)] for a one-byte separator. *)
Fixpoint count_char (sep : ascii) (s : string) : nat :=
  match s with
  | EmptyString => 0
  | String c s' => (if Ascii.eqb c sep then 1 else 0) + count_char sep s'
  end.

Fixpoint has_prefix (p s : string) : bool :=
  match p, s with
  | EmptyString, _ => true
  | String a p', String b s' => Ascii.eqb a b && has_prefix p' s'
  | _, _ => false
  end.

(** ** Package net/url: [QueryEscape] and [Values.Encode] *)

Definition upper_hex (x : Z) : ascii :=
  ascii_of_nat (Z.to_nat (if x <? 10 then 48 + x else 55 + x)).

Definition unreserved (c : ascii) : bool :=
  let n := nat_of_ascii c in
  ((97 <=? n) && (n <=? 122) || (65 <=? n) && (n <=? 90) || (48 <=? n) && (n <=? 57))%nat
  || existsb (Ascii.eqb c) ["-"; "_"; "."; "~"]%char.

Fixpoint query_escape (s : string) : string :=
  match s with
  | EmptyString => EmptyString
  | String c s' =>
      if Ascii.eqb c " " then String "+" (query_escape s')
      else if unreserved c then String c (query_escape s')
      else
        let n := Z.of_nat (nat_of_ascii c) in
        String "%" (String (upper_hex (n / 16)) (String (upper_hex (n mod 16)) (query_escape s')))
  end.

(** One value per key; the keys are sorted. *)
Definition values_encode (params : list (string * string)) : string :=
  String.concat "&"
    (map (fun kv => query_escape kv.1 +:+ "=" +:+ query_escape kv.2)
       (merge_sort (fun a b => String.le a.1 b.1) params)).

(** ** Package strconv: [Atoi], decimal, with an optional sign and a range check *)

Definition digit_val (c : ascii) : option Z :=
  let n := nat_of_ascii c in
  if (48 <=? n)%nat && (n <=? 57)%nat then Some (Z.of_nat n - 48) else None.

Fixpoint digits_val (acc : Z) (s : string) : option Z :=
  match s with
  | EmptyString => Some acc
  | String c s' => match digit_val c with
                   | Some d => digits_val (10 * acc + d) s'
                   | None => None
                   end
  end.

Definition unsigned_val (s : string) : option Z :=
  match s with EmptyString => None | _ => digits_val 0 s end.

Definition atoi (s : string) : option Z :=
  let v := match s with
           | String "-" s' => Z.opp <$> unsigned_val s'
           | String "+" s' => unsigned_val s'
           | _ => unsigned_val s
           end in
  match v with
  | Some n => if (int64_min <=? n) && (n <=? int64_max) then Some n else None
  | None => None
  end.

(** ** Package encoding/hex: lower-case encoding *)

Definition hex_digit (x : Z) : ascii :=
  ascii_of_nat (Z.to_nat (if x <? 10 then 48 + x else 87 + x)).

Definition hex_encode (l : list Z) : string :=
  String.string_of_list_ascii
    (flat_map (fun b => [hex_digit (Z.shiftr b 4); hex_digit (Z.land b 15)]) l).

(** ** Package encoding/base64: RawURLEncoding *)

Definition b64_char (x : Z) : ascii :=
  ascii_of_nat (Z.to_nat
    (if x <? 26 then 65 + x
     else if x <? 52 then 71 + x
     else if x <? 62 then x - 4
     else if x =? 62 then 45 else 95)).

Fixpoint b64_encode (l : list Z) : list ascii :=
  match l with
  | a :: b :: c :: l' =>
      b64_char (Z.shiftr a 2)
      :: b64_char (Z.lor (Z.shiftl (Z.land a 3) 4) (Z.shiftr b 4))
      :: b64_char (Z.lor (Z.shiftl (Z.land b 15) 2) (Z.shiftr c 6))
      :: b64_char (Z.land c 63)
      :: b64_encode l'
  | [a; b] =>
      [b64_char (Z.shiftr a 2);
       b64_char (Z.lor (Z.shiftl (Z.land a 3) 4) (Z.shiftr b 4));
       b64_char (Z.shiftl (Z.land b 15) 2)]
  | [a] => [b64_char (Z.shiftr a 2); b64_char (Z.shiftl (Z.land a 3) 4)]
  | [] => []
  end.

Definition base64_raw_url (l : list Z) : string := String.string_of_list_ascii (b64_encode l).

(** ** Package crypto/sha256 (FIPS 180-4) *)

Definition w32 (x : Z) : Z := Z.land x 4294967295.
Definition add32 (x y : Z) : Z := w32 (x + y).
Definition rotr32 (x n : Z) : Z := Z.lor (Z.shiftr x n) (w32 (Z.shiftl x (32 - n))).
Definition small_sigma0 (x : Z) : Z := Z.lxor (Z.lxor (rotr32 x 7) (rotr32 x 18)) (Z.shiftr x 3).
Definition small_sigma1 (x : Z) : Z := Z.lxor (Z.lxor (rotr32 x 17) (rotr32 x 19)) (Z.shiftr x 10).
Definition big_sigma0 (x : Z) : Z := Z.lxor (Z.lxor (rotr32 x 2) (rotr32 x 13)) (rotr32 x 22).
Definition big_sigma1 (x : Z) : Z := Z.lxor (Z.lxor (rotr32 x 6) (rotr32 x 11)) (rotr32 x 25).
Definition sha_ch (x y z : Z) : Z := Z.lxor (Z.land x y) (Z.land (Z.lxor x 4294967295) z).
Definition sha_maj (x y z : Z) : Z := Z.lxor (Z.lxor (Z.land x y) (Z.land x z)) (Z.land y z).

(** The constants of FIPS 180-4, from their definition: the first 32 bits of
    the fractional parts of the cube roots of the first 64 primes, and of the
    square roots of the first 8. *)
Fixpoint bits_root (e : Z) (bits : nat) (acc n : Z) : Z :=
  match bits with
  | O => acc
  | S b =>
      let r := acc + Z.shiftl 1 (Z.of_nat b) in
      bits_root e b (if r ^ e <=? n then r else acc) n
  end.

Definition is_prime_b (n : Z) : bool :=
  forallb (fun d => negb (n mod Z.of_nat d =? 0)) (seq 2 (Z.to_nat (Z.sqrt n) - 1)).

Definition sha_primes : list Z :=
  Eval vm_compute in firstn 64 (List.filter is_prime_b (map Z.of_nat (seq 2 400))).

Definition frac_root (e p : Z) : Z := w32 (bits_root e 40 0 (p * 2 ^ (32 * e))).

Definition sha_K : list Z := Eval vm_compute in map (frac_root 3) sha_primes.
Definition sha_H0 : list Z := Eval vm_compute in map (frac_root 2) (firstn 8 sha_primes).

Fixpoint be_words (bs : list Z) : list Z :=
  match bs with
  | a :: b :: c :: d :: r => (a * 16777216 + b * 65536 + c * 256 + d) :: be_words r
  | _ => []
  end.

(** The message schedule, latest word first. *)
Fixpoint sha_schedule (n : nat) (rev_w : list Z) : list Z :=
  match n with
  | O => rev rev_w
  | S n' =>
      let w i := nth i rev_w 0 in
      sha_schedule n'
        (w32 (small_sigma1 (w 1%nat) + w 6%nat + small_sigma0 (w 14%nat) + w 15%nat) :: rev_w)
  end.

Definition sha_round (st : list Z) (kw : Z * Z) : list Z :=
  match st with
  | [a; b; c; d; e; f; g; h] =>
      let t1 := w32 (h + big_sigma1 e + sha_ch e f g + fst kw + snd kw) in
      let t2 := add32 (big_sigma0 a) (sha_maj a b c) in
      [add32 t1 t2; a; b; c; add32 d t1; e; f; g]
  | _ => st
  end.

Definition sha_compress (h block : list Z) : list Z :=
  map (fun '(x, y) => add32 x y)
    (combine h (fold_left sha_round
                  (combine sha_K (sha_schedule 48 (rev (be_words block)))) h)).

Definition sha_pad (bs : list Z) : list Z :=
  let l := Z.of_nat (List.length bs) in
  bs ++ 128 :: repeat 0 (Z.to_nat ((55 - l) mod 64))
     ++ map (fun i => Z.land (Z.shiftr (8 * l) (8 * Z.of_nat i)) 255) (rev (seq 0 8)).

(** The fuel is the length of the padded message: each step drops 64 bytes. *)
Fixpoint sha_blocks (fuel : nat) (bs h : list Z) : list Z :=
  match fuel with
  | O => h
  | S n => match bs with
           | [] => h
           | _ => sha_blocks n (skipn 64 bs) (sha_compress h (firstn 64 bs))
           end
  end.

Definition sha256 (bs : list Z) : list Z :=
  let p := sha_pad bs in
  flat_map (fun x => map (fun s => Z.land (Z.shiftr x s) 255) [24; 16; 8; 0])
    (sha_blocks (List.length p) p sha_H0).

Example sha256_abc :
  hex_encode (sha256 (bytes_of "abc"))
  = "ba7816bf8f01cfea414140de5dae2223b00361a396177a9cb410ff61f20015ad".
Proof. vm_compute. reflexivity. Qed.

Example sha256_empty :
  hex_encode (sha256 [])
  = "e3b0c44298fc1c149afbf4c8996fb92427ae41e4649b934ca495991b7852b855".
Proof. vm_compute. reflexivity. Qed.
