(* ===== verification/GoNet.v ===== *)
(** * The parts of net/url and net/netip the source uses

    [url.Parse], [URL.String], [URL.Hostname] and [net.ParseIP], as in the Go
    release of go.mod (1.25): schemes, opaque parts, user information,
    bracketed addresses with zones, ports, percent-encoding by section, and the
    raw forms of paths and fragments.  The text of a parse error is not
    modelled ([None]); Platform.v leaves it open. *)
From S2P Require Import Prelude.
From S2P Require Import GoLib.
From Stdlib Require Import Ascii.
Local Open Scope Z_scope.

(** ** Package strings: cutting at a byte *)

Definition str_len (s : string) : nat := String.length s.

(** [strings.Cut(s, sep)] for a one-byte separator. *)
Fixpoint cut (sep : ascii) (s : string) : option (string * string) :=
  match s with
  | EmptyString => None
  | String c s' =>
      if Ascii.eqb c sep then Some (EmptyString, s')
      else match cut sep s' with
           | Some (a, b) => Some (String c a, b)
           | None => None
           end
  end.

(** At the last occurrence of the separator. *)
Fixpoint cut_last (sep : ascii) (s : string) : option (string * string) :=
  match s with
  | EmptyString => None
  | String c s' =>
      match cut_last sep s' with
      | Some (a, b) => Some (String c a, b)
      | None => if Ascii.eqb c sep then Some (EmptyString, s') else None
      end
  end.

(** [strings.Contains(s, c)] *)
Definition has_char (c : ascii) (s : string) : bool := is_Some_b (cut c s).

Fixpoint str_drop (n : nat) (s : string) : string :=
  match n, s with
  | S n', String _ s' => str_drop n' s'
  | _, _ => s
  end.

(** The first occurrence of [p]: what precedes it, and the rest from it on. *)
Fixpoint split_at_prefix (p s : string) : option (string * string) :=
  if has_prefix p s then Some (EmptyString, s)
  else match s with
       | EmptyString => None
       | String c s' =>
           match split_at_prefix p s' with
           | Some (a, b) => Some (String c a, b)
           | None => None
           end
       end.

Fixpoint last_char (s : string) : option ascii :=
  match s with
  | EmptyString => None
  | String c EmptyString => Some c
  | String _ s' => last_char s'
  end.

Fixpoint drop_last (s : string) : string :=
  match s with
  | EmptyString | String _ EmptyString => EmptyString
  | String c s' => String c (drop_last s')
  end.

(** [strings.EqualFold] on ASCII. *)
Definition equal_fold (a b : string) : bool := String.eqb (to_lower a) (to_lower b).

Fixpoint all_chars (P : ascii -> bool) (s : string) : bool :=
  match s with
  | EmptyString => true
  | String c s' => P c && all_chars P s'
  end.

(** ** Percent-encoding *)

Inductive encoding :=
| encodePath | encodeHost | encodeZone | encodeUserPassword | encodeQueryComponent | encodeFragment.

#[export] Instance encoding_eq_dec : EqDecision encoding.
Proof. solve_decision. Defined.

Definition code (c : ascii) : Z := Z.of_nat (nat_of_ascii c).
Definition in_range (lo hi x : Z) : bool := (lo <=? x) && (x <=? hi).
Definition one_of (l : string) (c : ascii) : bool := has_char c l.

Definition is_digit (c : ascii) : bool := in_range 48 57 (code c).
Definition is_alpha (c : ascii) : bool := in_range 97 122 (code c) || in_range 65 90 (code c).
Definition is_alnum (c : ascii) : bool := is_alpha c || is_digit c.

Definition dquote : ascii := ascii_of_nat 34.

Definition shouldEscape (c : ascii) (mode : encoding) : bool :=
  if is_alnum c then false
  else if (bool_decide (mode = encodeHost) || bool_decide (mode = encodeZone))
          && (one_of "!$&'()*+,;=:[]<>" c || Ascii.eqb c dquote) then false
  else if one_of "-_.~" c then false
  else if one_of "$&+,/:;=?@" c && negb (bool_decide (mode = encodeHost))
          && negb (bool_decide (mode = encodeZone)) then
    match mode with
    | encodePath => Ascii.eqb c "?"
    | encodeUserPassword => one_of "@/?:" c
    | encodeFragment => false
    | _ => true
    end
  else if bool_decide (mode = encodeFragment) && one_of "!()*" c then false
  else true.

Definition percent (c : ascii) (rest : string) : string :=
  String "%" (String (upper_hex (code c / 16)) (String (upper_hex (code c mod 16)) rest)).

Fixpoint escape (mode : encoding) (s : string) : string :=
  match s with
  | EmptyString => EmptyString
  | String c s' =>
      if shouldEscape c mode then
        if Ascii.eqb c " " && bool_decide (mode = encodeQueryComponent)
        then String "+" (escape mode s')
        else percent c (escape mode s')
      else String c (escape mode s')
  end.

Definition unhex (c : ascii) : option Z :=
  let n := code c in
  if in_range 48 57 n then Some (n - 48)
  else if in_range 97 102 n then Some (n - 87)
  else if in_range 65 70 n then Some (n - 55)
  else None.

(** Whether the escape of the byte [v] is accepted in the section. *)
Definition escape_ok (mode : encoding) (hi v : Z) : bool :=
  match mode with
  | encodeHost => negb ((hi <? 8) && negb (v =? 37))
  | encodeZone =>
      let c := ascii_of_nat (Z.to_nat v) in
      negb (negb (v =? 37) && negb (v =? 32) && shouldEscape c encodeHost)
  | _ => true
  end.

Fixpoint unescape (mode : encoding) (s : string) : option string :=
  match s with
  | EmptyString => Some EmptyString
  | String c s' =>
      if Ascii.eqb c "%" then
        match s' with
        | String a (String b r) =>
            match unhex a, unhex b with
            | Some x, Some y =>
                let v := 16 * x + y in
                if escape_ok mode x v
                then String (ascii_of_nat (Z.to_nat v)) <$> unescape mode r
                else None
            | _, _ => None
            end
        | _ => None
        end
      else if Ascii.eqb c "+" && bool_decide (mode = encodeQueryComponent) then
        String " " <$> unescape mode s'
      else if (bool_decide (mode = encodeHost) || bool_decide (mode = encodeZone))
              && (code c <? 128) && shouldEscape c mode then None
      else String c <$> unescape mode s'
  end.

(** ** net/netip: addresses as lists of 4 or 16 bytes *)

Fixpoint ipv4_fields (s : string) (first : bool) (prev_dot : bool) (val : Z) (digits : nat)
    (fields : list Z) : option (list Z) :=
  match s with
  | EmptyString =>
      if (List.length fields =? 3)%nat then Some (rev (val :: fields)) else None
  | String c s' =>
      if is_digit c then
        if (digits =? 1)%nat && (val =? 0) then None
        else
          let val := 10 * val + (code c - 48) in
          if 255 <? val then None
          else ipv4_fields s' false false val (S digits) fields
      else if Ascii.eqb c "." then
        if first || String.eqb s' "" || prev_dot then None
        else if (List.length fields =? 3)%nat then None
        else ipv4_fields s' false true 0 0 (val :: fields)
      else None
  end.

Definition parseIPv4 (s : string) : option (list Z) := ipv4_fields s true false 0 0 [].

(** The hexadecimal digits at the head of [s]: their number, value and the rest. *)
Fixpoint take_hex (s : string) (n : nat) (acc : Z) : option (nat * Z * string) :=
  match s with
  | String c s' =>
      match unhex c with
      | Some d =>
          let acc := 16 * acc + d in
          if (3 <? n)%nat || (65535 <? acc) then None else take_hex s' (S n) acc
      | None => Some (n, acc, s)
      end
  | EmptyString => Some (n, acc, s)
  end.

(** The loop over the groups of an IPv6 address; [groups] are the bytes read so
    far, [ellipsis] the number of bytes before "::".  Each turn reads two bytes
    or stops, so 8 turns suffice. *)
Fixpoint ipv6_loop (fuel : nat) (s : string) (bytes : list Z) (ellipsis : option nat)
    : option (string * list Z * option nat) :=
  match fuel with
  | O => Some (s, bytes, ellipsis)
  | S fuel' =>
      match take_hex s 0 0 with
      | None => None
      | Some (O, _, _) => None
      | Some (_, acc, rest) =>
          let i := List.length bytes in
          match rest with
          | String "." _ =>
              if negb (is_Some_b ellipsis) && negb (i =? 12)%nat then None
              else if (12 <? i)%nat then None
              else match parseIPv4 s with
                   | Some v4 => Some (EmptyString, bytes ++ v4, ellipsis)
                   | None => None
                   end
          | _ =>
              let bytes := bytes ++ [acc / 256; acc mod 256] in
              match rest with
              | EmptyString => Some (EmptyString, bytes, ellipsis)
              | String ":" EmptyString => None
              | String ":" (String ":" r) =>
                  if is_Some_b ellipsis then None
                  else
                    let e := Some (List.length bytes) in
                    if String.eqb r "" then Some (EmptyString, bytes, e)
                    else ipv6_loop fuel' r bytes e
              | String ":" r => ipv6_loop fuel' r bytes ellipsis
              | _ => None
              end
          end
      end
  end.

(** The bytes of an address and its zone. *)
Definition parseIPv6 (inp : string) : option (list Z * string) :=
  match (match cut "%" inp with
         | Some (s, zone) => if String.eqb zone "" then None else Some (s, zone)
         | None => Some (inp, "")
         end) with
  | None => None
  | Some (s, zone) =>
      let '(s, e) := if has_prefix "::" s then (str_drop 2 s, Some 0%nat) else (s, None) in
      if is_Some_b e && String.eqb s "" then Some (repeat 0 16, zone)
      else
        match ipv6_loop 8 s [] e with
        | None => None
        | Some (rest, bytes, e) =>
            let n := List.length bytes in
            if negb (String.eqb rest "") then None
            else if (n <? 16)%nat then
              match e with
              | None => None
              | Some k => Some (firstn k bytes ++ repeat 0 (16 - n) ++ skipn k bytes, zone)
              end
            else if is_Some_b e then None
            else Some (bytes, zone)
        end
  end.

Fixpoint parseAddr_from (inp s : string) : option (list Z * string) :=
  match s with
  | EmptyString => None
  | String c s' =>
      if Ascii.eqb c "." then (fun v => (v, "")) <$> parseIPv4 inp
      else if Ascii.eqb c ":" then parseIPv6 inp
      else if Ascii.eqb c "%" then None
      else parseAddr_from inp s'
  end.

Definition ParseAddr (s : string) : option (list Z * string) := parseAddr_from s s.

(** [net.ParseIP]: no zone. *)
Definition ParseIP (s : string) : option (list Z) :=
  match ParseAddr s with
  | Some (b, zone) => if String.eqb zone "" then Some b else None
  | None => None
  end.

(** [ip.To4()]: also the IPv4-mapped form of an IPv6 address. *)
Definition To4 (ip : list Z) : option (list Z) :=
  if (List.length ip =? 4)%nat then Some ip
  else if (List.length ip =? 16)%nat && forallb (Z.eqb 0) (firstn 10 ip)
          && (nth 10 ip 0 =? 255) && (nth 11 ip 0 =? 255)
       then Some (skipn 12 ip)
       else None.

Definition byte_at (ip : list Z) (i : nat) : Z := nth i ip 0.

Definition IsLoopback (ip : list Z) : bool :=
  match To4 ip with
  | Some v4 => byte_at v4 0 =? 127
  | None => bool_decide (ip = repeat 0 15 ++ [1])
  end.

Definition IsMulticast (ip : list Z) : bool :=
  match To4 ip with
  | Some v4 => Z.land (byte_at v4 0) 240 =? 224
  | None => (List.length ip =? 16)%nat && (byte_at ip 0 =? 255)
  end.

Definition IsUnspecified (ip : list Z) : bool :=
  match To4 ip with
  | Some v4 => bool_decide (v4 = [0; 0; 0; 0])
  | None => bool_decide (ip = repeat 0 16)
  end.

Definition IsLinkLocalUnicast (ip : list Z) : bool :=
  match To4 ip with
  | Some v4 => (byte_at v4 0 =? 169) && (byte_at v4 1 =? 254)
  | None => (List.length ip =? 16)%nat && (byte_at ip 0 =? 254) && (Z.land (byte_at ip 1) 192 =? 128)
  end.

Definition IsLinkLocalMulticast (ip : list Z) : bool :=
  match To4 ip with
  | Some v4 => (byte_at v4 0 =? 224) && (byte_at v4 1 =? 0) && (byte_at v4 2 =? 0)
  | None => (List.length ip =? 16)%nat && (byte_at ip 0 =? 255) && (Z.land (byte_at ip 1) 15 =? 2)
  end.

Definition IsPrivate (ip : list Z) : bool :=
  match To4 ip with
  | Some v4 =>
      (byte_at v4 0 =? 10)
      || ((byte_at v4 0 =? 172) && (Z.land (byte_at v4 1) 240 =? 16))
      || ((byte_at v4 0 =? 192) && (byte_at v4 1 =? 168))
  | None => (List.length ip =? 16)%nat && (Z.land (byte_at ip 0) 254 =? 252)
  end.

(** ** net/url *)

Record URL := mkURL {
  Scheme : string;
  OpaquePart : string;
  Userinfo : option (string * option string);
  Host : string;
  Path : string;
  RawPath : string;
  OmitHost : bool;
  ForceQuery : bool;
  RawQuery : string;
  Fragment : string;
  RawFragment : string
}.

#[global] Instance eta_URL : Eta URL := fun u =>
  mkURL (u.(Scheme)) (u.(OpaquePart)) (u.(Userinfo)) (u.(Host)) (u.(Path)) (u.(RawPath))
        (u.(OmitHost)) (u.(ForceQuery)) (u.(RawQuery)) (u.(Fragment)) (u.(RawFragment)).

Definition url_zero : URL := mkURL "" "" None "" "" "" false false "" "" "".

(** [None] for a missing scheme before a colon. *)
Fixpoint getScheme_from (start : bool) (whole s : string) : option (string * string) :=
  match s with
  | EmptyString => Some ("", whole)
  | String c s' =>
      if is_alpha c then
        match getScheme_from false whole s' with
        | Some (sch, r) => if String.eqb sch "" then Some ("", whole) else Some (String c sch, r)
        | None => None
        end
      else if is_digit c || one_of "+-." c then
        if start then Some ("", whole)
        else match getScheme_from false whole s' with
             | Some (sch, r) => if String.eqb sch "" then Some ("", whole) else Some (String c sch, r)
             | None => None
             end
      else if Ascii.eqb c ":" then
        if start then None else Some (":", s')
      else Some ("", whole)
  end.

(** The inner function ends the scheme with its colon. *)
Definition getScheme (s : string) : option (string * string) :=
  (fun p => (drop_last p.1, p.2)) <$> getScheme_from true s s.

Definition validOptionalPort (port : string) : bool :=
  match port with
  | EmptyString => true
  | String c r => Ascii.eqb c ":" && all_chars is_digit r
  end.

Definition validUserinfo (s : string) : bool :=
  all_chars (fun c => is_alnum c || one_of "-._:~!$&'()*+,;=%@" c) s.

(** An address in brackets, then a port. *)
Definition parseBracketed (hostname colonPort : string) : option string :=
  if negb (validOptionalPort colonPort) then None
  else
    match unescape encodeHost colonPort with
    | None => None
    | Some port =>
        match (match split_at_prefix "%25" hostname with
               | Some (h, z) =>
                   match unescape encodeHost h, unescape encodeZone z with
                   | Some h, Some z => Some (h +:+ z)
                   | _, _ => None
                   end
               | None => unescape encodeHost hostname
               end) with
        | None => None
        | Some name =>
            match ParseAddr name with
            | Some (b, _) => if (List.length b =? 4)%nat then None
                             else Some ("[" +:+ name +:+ "]" +:+ port)
            | None => None
            end
        end
    end.

(** The positions are those of the last brackets; after a closing bracket that
    comes before the opening one the port is not valid. *)
Definition parseHost (host : string) : option string :=
  match cut_last "[" host with
  | Some (_, after) =>
      match cut_last "]" after with
      | Some (hostname, colonPort) => parseBracketed hostname colonPort
      | None => None
      end
  | None =>
      match cut_last ":" host with
      | Some (_, port) =>
          if validOptionalPort (String ":" port) then unescape encodeHost host else None
      | None => unescape encodeHost host
      end
  end.

Definition parseAuthority (authority : string)
    : option (option (string * option string) * string) :=
  match cut_last "@" authority with
  | None => (fun h => (None, h)) <$> parseHost authority
  | Some (userinfo, h) =>
      match parseHost h with
      | None => None
      | Some host =>
          if negb (validUserinfo userinfo) then None
          else match cut ":" userinfo with
               | None => (fun u => (Some (u, None), host)) <$> unescape encodeUserPassword userinfo
               | Some (u, p) =>
                   match unescape encodeUserPassword u, unescape encodeUserPassword p with
                   | Some u, Some p => Some (Some (u, Some p), host)
                   | _, _ => None
                   end
               end
      end
  end.

Definition setPath (p : string) (u : URL) : option URL :=
  (fun path => u <| Path := path |>
                 <| RawPath := if String.eqb p (escape encodePath path) then "" else p |>)
  <$> unescape encodePath p.

Definition setFragment (f : string) (u : URL) : option URL :=
  (fun frag => u <| Fragment := frag |>
                 <| RawFragment := if String.eqb f (escape encodeFragment frag) then "" else f |>)
  <$> unescape encodeFragment f.

Definition is_ctl (c : ascii) : bool := (code c <? 32) || (code c =? 127).

(** [rest] after the scheme and the query: the authority and the path. *)
Definition parseRest (u : URL) (rest : string) : option URL :=
  let rooted := has_prefix "/" rest in
  if negb rooted && negb (String.eqb u.(Scheme) "") then Some (u <| OpaquePart := rest |>)
  else if negb rooted && has_char ":" (match cut "/" rest with Some (a, _) => a | None => rest end)
  then None
  else if (negb (String.eqb u.(Scheme) "") || negb (has_prefix "///" rest)) && has_prefix "//" rest then
    let authority := str_drop 2 rest in
    let '(authority, rest) := match cut "/" authority with
                              | Some (a, r) => (a, String "/" r)
                              | None => (authority, "")
                              end in
    match parseAuthority authority with
    | None => None
    | Some (user, host) => setPath rest (u <| Userinfo := user |> <| Host := host |>)
    end
  else setPath rest (if negb (String.eqb u.(Scheme) "") && rooted then u <| OmitHost := true |> else u).

Definition parse (rawURL : string) : option URL :=
  if negb (all_chars (fun c => negb (is_ctl c)) rawURL) then None
  else if String.eqb rawURL "*" then Some (url_zero <| Path := "*" |>)
  else
    match getScheme rawURL with
    | None => None
    | Some (scheme, rest) =>
        let u := url_zero <| Scheme := to_lower scheme |> in
        let '(u, rest) :=
          if match last_char rest with Some c => Ascii.eqb c "?" | None => false end
             && (count_char "?" rest =? 1)%nat
          then (u <| ForceQuery := true |>, drop_last rest)
          else match cut "?" rest with
               | Some (a, q) => (u <| RawQuery := q |>, a)
               | None => (u, rest)
               end in
        parseRest u rest
    end.

Definition url_Parse (rawURL : string) : option URL :=
  let '(s, frag) := match cut "#" rawURL with Some p => p | None => (rawURL, "") end in
  match parse s with
  | None => None
  | Some u => if String.eqb frag "" then Some u else setFragment frag u
  end.

Definition validEncoded (s : string) (mode : encoding) : bool :=
  all_chars (fun c => one_of "!$&'()*+,;=:@[]%" c || negb (shouldEscape c mode)) s.

Definition EscapedPath (u : URL) : string :=
  if negb (String.eqb u.(RawPath) "") && validEncoded u.(RawPath) encodePath
     && bool_decide (unescape encodePath u.(RawPath) = Some u.(Path))
  then u.(RawPath)
  else if String.eqb u.(Path) "*" then "*"
  else escape encodePath u.(Path).

Definition EscapedFragment (u : URL) : string :=
  if negb (String.eqb u.(RawFragment) "") && validEncoded u.(RawFragment) encodeFragment
     && bool_decide (unescape encodeFragment u.(RawFragment) = Some u.(Fragment))
  then u.(RawFragment)
  else escape encodeFragment u.(Fragment).

Definition userinfo_string (ui : string * option string) : string :=
  match ui with
  | (u, Some p) => escape encodeUserPassword u +:+ ":" +:+ escape encodeUserPassword p
  | (u, None) => if String.eqb u "" then "" else escape encodeUserPassword u
  end.

(** [u.String()] *)
Definition url_to_string (u : URL) : string :=
  let scheme := if String.eqb u.(Scheme) "" then "" else u.(Scheme) +:+ ":" in
  let body :=
    if negb (String.eqb u.(OpaquePart) "") then u.(OpaquePart)
    else
      let has_host := negb (String.eqb u.(Host) "") in
      let has_user := is_Some_b u.(Userinfo) in
      let authority :=
        if (negb (String.eqb u.(Scheme) "") || has_host || has_user)
           && negb (u.(OmitHost) && negb has_host && negb has_user)
        then (if has_host || negb (String.eqb u.(Path) "") || has_user then "//" else "")
             +:+ (match u.(Userinfo) with Some ui => userinfo_string ui +:+ "@" | None => "" end)
             +:+ (if has_host then escape encodeHost u.(Host) else "")
        else "" in
      let path := EscapedPath u in
      let slash := if negb (String.eqb path "") && negb (has_prefix "/" path) && has_host
                   then "/" else "" in
      let before := scheme +:+ authority +:+ slash in
      let dot := if String.eqb before ""
                    && has_char ":" (match cut "/" path with Some (a, _) => a | None => path end)
                 then "./" else "" in
      authority +:+ slash +:+ dot +:+ path in
  scheme +:+ body
  +:+ (if u.(ForceQuery) || negb (String.eqb u.(RawQuery) "") then "?" +:+ u.(RawQuery) else "")
  +:+ (if String.eqb u.(Fragment) "" then "" else "#" +:+ EscapedFragment u).

(** [u.Hostname()]: the host without its port and brackets. *)
Definition Hostname (u : URL) : string :=
  let h := match cut_last ":" u.(Host) with
           | Some (h, port) => if validOptionalPort (String ":" port) then h else u.(Host)
           | None => u.(Host)
           end in
  match h with
  | String "[" r => match last_char h with
                    | Some c => if Ascii.eqb c "]" then drop_last r else h
                    | None => h
                    end
  | _ => h
  end.

(** ** Examples *)

Definition reprint (s : string) : option string := url_to_string <$> url_Parse s.

Example url_reprints :
  map reprint ["https://a.example/cb?x=1#f%20g"; "http://u:p@[::1]:80/a%2fb"; "mailto:x@y"; "/p?";
               "com.example.app:/cb"; ":x"; "http://[fe80::1%25en0]/"; "https://a b/"; "a:b:c"]
  = [Some "https://a.example/cb?x=1#f%20g"; Some "http://u:p@[::1]:80/a%2fb"; Some "mailto:x@y";
     Some "/p?"; Some "com.example.app:/cb"; None; Some "http://[fe80::1%25en0]/"; None;
     Some "a:b:c"].
Proof. vm_compute. reflexivity. Qed.

Example hostnames :
  map (fun s => Hostname <$> url_Parse s)
    ["https://Example.com:8443/x"; "http://[::1]:8080/"; "http://127.0.0.1"; "x:y"]
  = [Some "Example.com"; Some "::1"; Some "127.0.0.1"; Some ""].
Proof. vm_compute. reflexivity. Qed.

Example addresses :
  map ParseIP ["10.0.0.1"; "010.0.0.1"; "1.2.3"; "::1"; "fe80::1%en0"; "::ffff:10.0.0.1"; "1::2::3"; "256.1.1.1"]
  = [Some [10; 0; 0; 1]; None; None; Some (repeat 0 15 ++ [1]); None;
     Some (repeat 0 10 ++ [255; 255; 10; 0; 0; 1]); None; None].
Proof. vm_compute. reflexivity. Qed.
