(* ===== verification/Model.v ===== *)
(** * model/*.go: the rows of the database and their methods

    One Module per struct: the record of its columns under their Go names
    (the embedded [BaseModel] is flattened), its zero value, and its methods.
    A method that reads [time.Now()] takes that instant as [wall]. *)
From S2P Require Import Prelude.
From S2P Require Import GoLib.
Local Open Scope Z_scope.

(** [uuid.UUID] is a 128-bit value; [uuid.Nil] is 0. *)
Abbreviation UUID := N.
Abbreviation uuid_nil := 0%N.

Module OAuthClient.
(** The columns of the row. *)
Record t := mk {
  ID : UUID;
  CreatedAt : Z;
  UpdatedAt : Z;
  SecretHash : option string;
  Name : string;
  Description : option string;
  RedirectURIs : list string;
  GrantTypes : list string;
  ResponseTypes : list string;
  Scopes : list string;
  TokenAuthMethod : string;
  IsPublic : bool;
  IsFirstParty : bool;
  RequirePKCE : bool;
  JWKSUri : option string;
  RequestURIs : list string;
  AccessTokenTTL : Z;
  RefreshTokenTTL : Z;
  IDTokenTTL : Z;
  PostLogoutRedirectURIs : list string;
  BackchannelLogoutURI : option string;
  BackchannelLogoutSessionReq : bool;
  FrontchannelLogoutURI : option string;
  FrontchannelLogoutSessionReq : bool;
  SubjectType : string;
  SectorIdentifierURI : option string;
  UserinfoSignedResponseAlg : option string;
  IDTokenEncryptedResponseAlg : option string;
  IDTokenEncryptedResponseEnc : option string;
  UserinfoEncryptedResponseAlg : option string;
  UserinfoEncryptedResponseEnc : option string;
  SecretHMACKey : list Z;
  RegistrationAccessTokenHash : option string;
  RegistrationAccessTokenExpiresAt : option Z;
  Active : bool
}.

#[global] Instance eta_t : Eta t := fun r => mk
  (r.(ID)) (r.(CreatedAt)) (r.(UpdatedAt)) (r.(SecretHash)) (r.(Name))
  (r.(Description)) (r.(RedirectURIs)) (r.(GrantTypes)) (r.(ResponseTypes))
  (r.(Scopes)) (r.(TokenAuthMethod)) (r.(IsPublic)) (r.(IsFirstParty))
  (r.(RequirePKCE)) (r.(JWKSUri)) (r.(RequestURIs)) (r.(AccessTokenTTL))
  (r.(RefreshTokenTTL)) (r.(IDTokenTTL)) (r.(PostLogoutRedirectURIs))
  (r.(BackchannelLogoutURI)) (r.(BackchannelLogoutSessionReq))
  (r.(FrontchannelLogoutURI)) (r.(FrontchannelLogoutSessionReq)) (r.(SubjectType))
  (r.(SectorIdentifierURI)) (r.(UserinfoSignedResponseAlg))
  (r.(IDTokenEncryptedResponseAlg)) (r.(IDTokenEncryptedResponseEnc))
  (r.(UserinfoEncryptedResponseAlg)) (r.(UserinfoEncryptedResponseEnc))
  (r.(SecretHMACKey)) (r.(RegistrationAccessTokenHash))
  (r.(RegistrationAccessTokenExpiresAt)) (r.(Active)).

Definition zero : t := mk
  0%N time_zero time_zero None "" None [] [] [] [] "" false false false None [] 0 0 0
  [] None false None false "" None None None None None None [] None None false.

Definition HasGrantType (c : t) (grantType : string) : bool :=
  mem grantType c.(GrantTypes).

Definition HasScope (c : t) (scope : string) : bool := mem scope c.(Scopes).

Definition HasRedirectURI (c : t) (uri : string) : bool := mem uri c.(RedirectURIs).

Definition HasPostLogoutRedirectURI (c : t) (uri : string) : bool :=
  mem uri c.(PostLogoutRedirectURIs).

Definition HasRequestURI (c : t) (uri : string) : bool := mem uri c.(RequestURIs).

Definition ValidateScopes (c : t) (requested : list string) : list string :=
  match requested with
  | [] => c.(Scopes)
  | _ => List.filter (HasScope c) requested
  end.
End OAuthClient.

Module User.
(** The columns of the row. *)
Record t := mk {
  ID : UUID;
  CreatedAt : Z;
  UpdatedAt : Z;
  Email : string;
  EmailVerified : bool;
  EmailVerifyToken : option string;
  EmailVerifyExpiresAt : option Z;
  PasswordHash : option string;
  MustSetPassword : bool;
  PasswordResetToken : option string;
  PasswordResetExpiresAt : option Z;
  DisplayName : option string;
  AvatarURL : option string;
  Phone : option string;
  LockedUntil : option Z;
  FailedLoginAttempts : Z;
  Active : bool;
  Metadata : string;
  DeletedAt : option Z;
  DeletionToken : option string;
  DeletionPurgeAfter : option Z;
  EmailChangeNew : option string;
  EmailChangeToken : option string;
  EmailChangeExpiresAt : option Z
}.

#[global] Instance eta_t : Eta t := fun r => mk
  (r.(ID)) (r.(CreatedAt)) (r.(UpdatedAt)) (r.(Email)) (r.(EmailVerified))
  (r.(EmailVerifyToken)) (r.(EmailVerifyExpiresAt)) (r.(PasswordHash))
  (r.(MustSetPassword)) (r.(PasswordResetToken)) (r.(PasswordResetExpiresAt))
  (r.(DisplayName)) (r.(AvatarURL)) (r.(Phone)) (r.(LockedUntil))
  (r.(FailedLoginAttempts)) (r.(Active)) (r.(Metadata)) (r.(DeletedAt))
  (r.(DeletionToken)) (r.(DeletionPurgeAfter)) (r.(EmailChangeNew))
  (r.(EmailChangeToken)) (r.(EmailChangeExpiresAt)).

Definition zero : t := mk
  0%N time_zero time_zero "" false None None None false None None None None None None 0
  false "" None None None None None None.

Definition IsPendingDeletion (wall : Z) (u : t) : bool :=
  match u.(DeletedAt), u.(DeletionPurgeAfter) with
  | Some _, Some p => time_after p wall
  | _, _ => false
  end.

Definition IsLocked (wall : Z) (u : t) : bool :=
  match u.(LockedUntil) with
  | Some l => time_after l wall
  | None => false
  end.
End User.

Module Session.
(** The columns of the row. *)
Record t := mk {
  ID : UUID;
  UserID : UUID;
  IPAddress : option string;
  UserAgent : option string;
  DeviceInfo : option string;
  LastActiveAt : Z;
  AuthenticatedAt : Z;
  Revoked : bool;
  RevokedAt : option Z;
  ExpiresAt : Z;
  CreatedAt : Z;
  Extended : bool;
  CookieTokenHash : string;
  CookieToken : string
}.

#[global] Instance eta_t : Eta t := fun r => mk
  (r.(ID)) (r.(UserID)) (r.(IPAddress)) (r.(UserAgent)) (r.(DeviceInfo))
  (r.(LastActiveAt)) (r.(AuthenticatedAt)) (r.(Revoked)) (r.(RevokedAt))
  (r.(ExpiresAt)) (r.(CreatedAt)) (r.(Extended)) (r.(CookieTokenHash))
  (r.(CookieToken)).

Definition zero : t := mk
  0%N 0%N None None None time_zero time_zero false None time_zero time_zero false "" "".

Definition IsActive (wall : Z) (s : t) : bool :=
  negb s.(Revoked) && time_after s.(ExpiresAt) wall.

Definition Revoke (wall : Z) (s : t) : t :=
  s <| Revoked := true |> <| RevokedAt := Some wall |>.
End Session.

Module AuthorizationRequest.
(** The columns of the row. *)
Record t := mk {
  ID : UUID;
  CreatedAt : Z;
  UpdatedAt : Z;
  ClientID : UUID;
  RedirectURI : string;
  ResponseType : string;
  Scopes : list string;
  State : option string;
  Nonce : option string;
  CodeChallenge : option string;
  CodeChallengeMethod : option string;
  UserID : option UUID;
  Authenticated : bool;
  ConsentGiven : bool;
  Audience : option string;
  Prompt : option string;
  MaxAge : option Z;
  Display : option string;
  UILocales : option string;
  ClaimsLocales : option string;
  ACRValues : option string;
  LoginHint : option string;
  ClaimsParam : option string;
  IDTokenHint : option string;
  AuthTime : option Z;
  ResponseMode : option string;
  AuthMethods : list string;
  RememberMe : bool;
  ExpiresAt : Z
}.

#[global] Instance eta_t : Eta t := fun r => mk
  (r.(ID)) (r.(CreatedAt)) (r.(UpdatedAt)) (r.(ClientID)) (r.(RedirectURI))
  (r.(ResponseType)) (r.(Scopes)) (r.(State)) (r.(Nonce)) (r.(CodeChallenge))
  (r.(CodeChallengeMethod)) (r.(UserID)) (r.(Authenticated)) (r.(ConsentGiven))
  (r.(Audience)) (r.(Prompt)) (r.(MaxAge)) (r.(Display)) (r.(UILocales))
  (r.(ClaimsLocales)) (r.(ACRValues)) (r.(LoginHint)) (r.(ClaimsParam))
  (r.(IDTokenHint)) (r.(AuthTime)) (r.(ResponseMode)) (r.(AuthMethods))
  (r.(RememberMe)) (r.(ExpiresAt)).

Definition zero : t := mk
  0%N time_zero time_zero 0%N "" "" [] None None None None None false false None None
  None None None None None None None None None None [] false time_zero.

Definition IsExpired (wall : Z) (r : t) : bool := time_before r.(ExpiresAt) wall.

Definition IsReady (wall : Z) (r : t) : bool :=
  r.(Authenticated) && r.(ConsentGiven) && negb (IsExpired wall r).
End AuthorizationRequest.

Module AuthorizationCode.
(** The columns of the row. *)
Record t := mk {
  CodeHash : string;
  ClientID : UUID;
  UserID : UUID;
  RedirectURI : string;
  Scopes : list string;
  CodeChallenge : option string;
  CodeChallengeMethod : option string;
  Nonce : option string;
  SessionID : option UUID;
  Audience : option string;
  ClaimsParam : option string;
  AuthTime : option Z;
  AuthMethods : list string;
  ExpiresAt : Z;
  Used : bool;
  CreatedAt : Z
}.

#[global] Instance eta_t : Eta t := fun r => mk
  (r.(CodeHash)) (r.(ClientID)) (r.(UserID)) (r.(RedirectURI)) (r.(Scopes))
  (r.(CodeChallenge)) (r.(CodeChallengeMethod)) (r.(Nonce)) (r.(SessionID))
  (r.(Audience)) (r.(ClaimsParam)) (r.(AuthTime)) (r.(AuthMethods)) (r.(ExpiresAt))
  (r.(Used)) (r.(CreatedAt)).

Definition zero : t := mk
  "" 0%N 0%N "" [] None None None None None None None [] time_zero false time_zero.

Definition IsValid (wall : Z) (c : t) : bool :=
  negb c.(Used) && time_after c.(ExpiresAt) wall.

Definition HasPKCE (c : t) : bool :=
  match c.(CodeChallenge) with
  | Some ch => negb (String.eqb ch "")
  | None => false
  end.
End AuthorizationCode.

Module AccessToken.
(** The columns of the row. *)
Record t := mk {
  ID : string;
  ClientID : UUID;
  UserID : option UUID;
  SessionID : option UUID;
  RefreshTokenID : option string;
  Scopes : list string;
  Audience : option string;
  JTI : option string;
  ExpiresAt : Z;
  Revoked : bool;
  CreatedAt : Z
}.

#[global] Instance eta_t : Eta t := fun r => mk
  (r.(ID)) (r.(ClientID)) (r.(UserID)) (r.(SessionID)) (r.(RefreshTokenID))
  (r.(Scopes)) (r.(Audience)) (r.(JTI)) (r.(ExpiresAt)) (r.(Revoked)) (r.(CreatedAt)).

Definition zero : t := mk
  "" 0%N None None None [] None None time_zero false time_zero.

Definition IsValid (wall : Z) (a : t) : bool :=
  negb a.(Revoked) && time_after a.(ExpiresAt) wall.
End AccessToken.

Module RefreshToken.
(** The columns of the row. *)
Record t := mk {
  ID : string;
  ClientID : UUID;
  UserID : UUID;
  SessionID : UUID;
  Scopes : list string;
  Audience : option string;
  FamilyID : UUID;
  ParentID : option string;
  ExpiresAt : Z;
  Revoked : bool;
  RotatedAt : option Z;
  CreatedAt : Z
}.

#[global] Instance eta_t : Eta t := fun r => mk
  (r.(ID)) (r.(ClientID)) (r.(UserID)) (r.(SessionID)) (r.(Scopes)) (r.(Audience))
  (r.(FamilyID)) (r.(ParentID)) (r.(ExpiresAt)) (r.(Revoked)) (r.(RotatedAt))
  (r.(CreatedAt)).

Definition zero : t := mk
  "" 0%N 0%N 0%N [] None 0%N None time_zero false None time_zero.

Definition IsValid (wall : Z) (r : t) : bool :=
  negb r.(Revoked) && negb (is_Some_b r.(RotatedAt)) && time_after r.(ExpiresAt) wall.

Definition WasRotated (r : t) : bool := is_Some_b r.(RotatedAt).
End RefreshToken.

Module DeviceCode.
(** The columns of the row. *)
Record t := mk {
  DeviceCodeHash : string;
  UserCode : string;
  ClientID : UUID;
  Scopes : list string;
  UserID : option UUID;
  SessionID : option UUID;
  Audience : option string;
  Status : string;
  IntervalSecs : Z;
  ExpiresAt : Z;
  LastPolledAt : option Z;
  CreatedAt : Z
}.

#[global] Instance eta_t : Eta t := fun r => mk
  (r.(DeviceCodeHash)) (r.(UserCode)) (r.(ClientID)) (r.(Scopes)) (r.(UserID))
  (r.(SessionID)) (r.(Audience)) (r.(Status)) (r.(IntervalSecs)) (r.(ExpiresAt))
  (r.(LastPolledAt)) (r.(CreatedAt)).

Definition zero : t := mk
  "" "" 0%N [] None None None "" 0 time_zero None time_zero.

Definition IsExpired (wall : Z) (d : t) : bool := time_before d.(ExpiresAt) wall.

Definition IsPending (d : t) : bool := String.eqb d.(Status) "pending".
End DeviceCode.

Module Consent.
(** The columns of the row. *)
Record t := mk {
  ID : UUID;
  CreatedAt : Z;
  UpdatedAt : Z;
  UserID : UUID;
  ClientID : UUID;
  ResourceID : option UUID;
  Scopes : list string;
  GrantedAt : Z;
  RevokedAt : option Z
}.

#[global] Instance eta_t : Eta t := fun r => mk
  (r.(ID)) (r.(CreatedAt)) (r.(UpdatedAt)) (r.(UserID)) (r.(ClientID)) (r.(ResourceID))
  (r.(Scopes)) (r.(GrantedAt)) (r.(RevokedAt)).

Definition zero : t := mk
  0%N time_zero time_zero 0%N 0%N None [] time_zero None.

Definition IsActive (c : t) : bool := negb (is_Some_b c.(RevokedAt)).

Definition CoversScopes (c : t) (requested : list string) : bool :=
  forallb (fun r => mem r c.(Scopes)) requested.
End Consent.

Module PushedAuthorizationRequest.
(** The columns of the row. *)
Record t := mk {
  RequestURI : string;
  ClientID : UUID;
  Params : string;
  ExpiresAt : Z;
  CreatedAt : Z
}.

#[global] Instance eta_t : Eta t := fun r => mk
  (r.(RequestURI)) (r.(ClientID)) (r.(Params)) (r.(ExpiresAt)) (r.(CreatedAt)).

Definition zero : t := mk
  "" 0%N "" time_zero time_zero.

Definition IsExpired (wall : Z) (p : t) : bool := time_before p.(ExpiresAt) wall.
End PushedAuthorizationRequest.

Module RevokedJTI.
(** The columns of the row. *)
Record t := mk {
  JTI : string;
  ExpiresAt : Z;
  CreatedAt : Z
}.

#[global] Instance eta_t : Eta t := fun r => mk
  (r.(JTI)) (r.(ExpiresAt)) (r.(CreatedAt)).

Definition zero : t := mk
  "" time_zero time_zero.
End RevokedJTI.

Module ResourcePermission.
(** The columns of the row. *)
Record t := mk {
  ID : UUID;
  ResourceID : UUID;
  Name : string;
  Description : option string;
  CreatedAt : Z
}.

#[global] Instance eta_t : Eta t := fun r => mk
  (r.(ID)) (r.(ResourceID)) (r.(Name)) (r.(Description)) (r.(CreatedAt)).

Definition zero : t := mk
  0%N 0%N "" None time_zero.
End ResourcePermission.

Module APIResource.
(** The columns of the row. *)
Record t := mk {
  ID : UUID;
  CreatedAt : Z;
  UpdatedAt : Z;
  Name : string;
  Identifier : string;
  Description : option string;
  SigningAlg : string;
  TokenFormat : string;
  AccessTokenTTL : Z;
  Active : bool;
  Permissions : list ResourcePermission.t
}.

#[global] Instance eta_t : Eta t := fun r => mk
  (r.(ID)) (r.(CreatedAt)) (r.(UpdatedAt)) (r.(Name)) (r.(Identifier))
  (r.(Description)) (r.(SigningAlg)) (r.(TokenFormat)) (r.(AccessTokenTTL))
  (r.(Active)) (r.(Permissions)).

Definition zero : t := mk
  0%N time_zero time_zero "" "" None "" "" 0 false [].

Definition EmitsJWTAccessTokens (r : t) : bool := String.eqb r.(TokenFormat) "jwt".
End APIResource.

Module Permission.
(** The columns of the row. *)
Record t := mk {
  ID : UUID;
  CreatedAt : Z;
  UpdatedAt : Z;
  Name : string;
  Description : option string
}.

#[global] Instance eta_t : Eta t := fun r => mk
  (r.(ID)) (r.(CreatedAt)) (r.(UpdatedAt)) (r.(Name)) (r.(Description)).

Definition zero : t := mk 0%N time_zero time_zero "" None.
End Permission.

Module Role.
(** The columns of the row, and the permissions a preload fills in. *)
Record t := mk {
  ID : UUID;
  CreatedAt : Z;
  UpdatedAt : Z;
  Name : string;
  Description : option string;
  Permissions : list Permission.t
}.

#[global] Instance eta_t : Eta t := fun r => mk
  (r.(ID)) (r.(CreatedAt)) (r.(UpdatedAt)) (r.(Name)) (r.(Description)) (r.(Permissions)).

Definition zero : t := mk 0%N time_zero time_zero "" None [].
End Role.

Module MFAMethod.
(** The columns of the row. *)
Record t := mk {
  ID : UUID;
  CreatedAt : Z;
  UpdatedAt : Z;
  UserID : UUID;
  Type_ : string;
  Secret : string;
  Verified : bool;
  BackupCodes : list string;
  LastUsedTOTPStep : Z
}.

#[global] Instance eta_t : Eta t := fun r => mk
  (r.(ID)) (r.(CreatedAt)) (r.(UpdatedAt)) (r.(UserID)) (r.(Type_)) (r.(Secret))
  (r.(Verified)) (r.(BackupCodes)) (r.(LastUsedTOTPStep)).

Definition zero : t := mk
  0%N time_zero time_zero 0%N "" "" false [] 0.
End MFAMethod.

Module ReauthToken.
(** The columns of the row. *)
Record t := mk {
  ID : string;
  UserID : UUID;
  SessionID : UUID;
  Method : string;
  ExpiresAt : Z;
  Used : bool;
  UsedAt : option Z;
  ConsumedBy : option string;
  CreatedAt : Z
}.

#[global] Instance eta_t : Eta t := fun r => mk
  (r.(ID)) (r.(UserID)) (r.(SessionID)) (r.(Method)) (r.(ExpiresAt)) (r.(Used))
  (r.(UsedAt)) (r.(ConsumedBy)) (r.(CreatedAt)).

Definition zero : t := mk
  "" 0%N 0%N "" time_zero false None None time_zero.

Definition IsValid (wall : Z) (r : t) : bool :=
  negb r.(Used) && time_after r.(ExpiresAt) wall.
End ReauthToken.

Module OutboundEmail.
(** The columns of the row. *)
Record t := mk {
  ID : UUID;
  Recipient : string;
  Subject : string;
  BodyHTML : string;
  Status : string;
  Attempts : Z;
  MaxAttempts : Z;
  NextRetryAt : Z;
  LastError : option string;
  CreatedAt : Z;
  SentAt : option Z
}.

#[global] Instance eta_t : Eta t := fun r => mk
  (r.(ID)) (r.(Recipient)) (r.(Subject)) (r.(BodyHTML)) (r.(Status)) (r.(Attempts))
  (r.(MaxAttempts)) (r.(NextRetryAt)) (r.(LastError)) (r.(CreatedAt)) (r.(SentAt)).

Definition zero : t := mk
  0%N "" "" "" "" 0 0 time_zero None time_zero None.
End OutboundEmail.

Module RegistrationField.
(** The columns of the row. *)
Record t := mk {
  ID : UUID;
  CreatedAt : Z;
  UpdatedAt : Z;
  FieldKey : string;
  Label : string;
  Description : option string;
  Placeholder : option string;
  Kind : string;
  StandardTarget : option string;
  Type_ : string;
  Required : bool;
  Enabled : bool;
  DisplayOrder : Z;
  Options : string;
  Validation : string;
  AppliesTo : list string
}.

#[global] Instance eta_t : Eta t := fun r => mk
  (r.(ID)) (r.(CreatedAt)) (r.(UpdatedAt)) (r.(FieldKey)) (r.(Label)) (r.(Description))
  (r.(Placeholder)) (r.(Kind)) (r.(StandardTarget)) (r.(Type_)) (r.(Required))
  (r.(Enabled)) (r.(DisplayOrder)) (r.(Options)) (r.(Validation)) (r.(AppliesTo)).

Definition zero : t := mk
  0%N time_zero time_zero "" "" None None "" None "" false false 0 "" "" [].
End RegistrationField.

Module Invitation.
(** The columns of the row. *)
Record t := mk {
  ID : UUID;
  CreatedAt : Z;
  UpdatedAt : Z;
  Email : string;
  Token : string;
  RoleIDs : list string;
  InvitedBy : UUID;
  Used : bool;
  UsedAt : option Z;
  ExpiresAt : Z
}.

#[global] Instance eta_t : Eta t := fun r => mk
  (r.(ID)) (r.(CreatedAt)) (r.(UpdatedAt)) (r.(Email)) (r.(Token)) (r.(RoleIDs))
  (r.(InvitedBy)) (r.(Used)) (r.(UsedAt)) (r.(ExpiresAt)).

Definition zero : t := mk
  0%N time_zero time_zero "" "" [] 0%N false None time_zero.

Definition IsExpired (wall : Z) (i : t) : bool := time_before i.(ExpiresAt) wall.
End Invitation.

Module FederationProvider.
(** The columns of the row. *)
Record t := mk {
  ID : UUID;
  CreatedAt : Z;
  UpdatedAt : Z;
  Name : string;
  DisplayName : option string;
  Type_ : string;
  ClientID : string;
  ClientSecret : option string;
  ClientSecretEncrypted : list Z;
  IssuerURL : option string;
  AuthorizationURL : option string;
  TokenURL : option string;
  UserinfoURL : option string;
  JWKSUri : option string;
  Scopes : list string;
  AttributeMapper : string;
  SyncOnLogin : bool;
  AllowLinkConfirmation : bool;
  Active : bool
}.

#[global] Instance eta_t : Eta t := fun r => mk
  (r.(ID)) (r.(CreatedAt)) (r.(UpdatedAt)) (r.(Name)) (r.(DisplayName)) (r.(Type_))
  (r.(ClientID)) (r.(ClientSecret)) (r.(ClientSecretEncrypted)) (r.(IssuerURL))
  (r.(AuthorizationURL)) (r.(TokenURL)) (r.(UserinfoURL)) (r.(JWKSUri)) (r.(Scopes))
  (r.(AttributeMapper)) (r.(SyncOnLogin)) (r.(AllowLinkConfirmation)) (r.(Active)).

Definition zero : t := mk
  0%N time_zero time_zero "" None "" "" None [] None None None None None [] "" false
  false false.
End FederationProvider.

Module FederationLink.
(** The columns of the row. *)
Record t := mk {
  ID : UUID;
  CreatedAt : Z;
  UpdatedAt : Z;
  UserID : UUID;
  ProviderID : UUID;
  ExternalID : string;
  Email : option string;
  Metadata : string
}.

#[global] Instance eta_t : Eta t := fun r => mk
  (r.(ID)) (r.(CreatedAt)) (r.(UpdatedAt)) (r.(UserID)) (r.(ProviderID))
  (r.(ExternalID)) (r.(Email)) (r.(Metadata)).

Definition zero : t := mk
  0%N time_zero time_zero 0%N 0%N "" None "".
End FederationLink.

Module FederationAuthRequest.
(** The columns of the row. *)
Record t := mk {
  State : string;
  ProviderID : UUID;
  CodeVerifier : string;
  Nonce : string;
  ReturnTo : option string;
  OAuthRequestID : option UUID;
  InvitationToken : option string;
  LinkUserID : option UUID;
  IPAddress : option string;
  UserAgent : option string;
  CreatedAt : Z;
  ExpiresAt : Z
}.

#[global] Instance eta_t : Eta t := fun r => mk
  (r.(State)) (r.(ProviderID)) (r.(CodeVerifier)) (r.(Nonce)) (r.(ReturnTo))
  (r.(OAuthRequestID)) (r.(InvitationToken)) (r.(LinkUserID)) (r.(IPAddress))
  (r.(UserAgent)) (r.(CreatedAt)) (r.(ExpiresAt)).

Definition zero : t := mk
  "" 0%N "" "" None None None None None None time_zero time_zero.
End FederationAuthRequest.

Module FederationPendingLink.
(** The columns of the row. *)
Record t := mk {
  TokenHash : string;
  UserID : UUID;
  ProviderID : UUID;
  ExternalID : string;
  Email : option string;
  RawClaims : string;
  OAuthRequestID : option UUID;
  ReturnTo : option string;
  IPAddress : option string;
  UserAgent : option string;
  CreatedAt : Z;
  ExpiresAt : Z
}.

#[global] Instance eta_t : Eta t := fun r => mk
  (r.(TokenHash)) (r.(UserID)) (r.(ProviderID)) (r.(ExternalID)) (r.(Email))
  (r.(RawClaims)) (r.(OAuthRequestID)) (r.(ReturnTo)) (r.(IPAddress)) (r.(UserAgent))
  (r.(CreatedAt)) (r.(ExpiresAt)).

Definition zero : t := mk
  "" 0%N 0%N "" None "" None None None None time_zero time_zero.
End FederationPendingLink.

Module FederationPendingSignup.
(** The columns of the row. *)
Record t := mk {
  TokenHash : string;
  ProviderID : UUID;
  ExternalID : string;
  Email : string;
  EmailVerified : bool;
  DisplayName : option string;
  AvatarURL : option string;
  RawClaims : string;
  OAuthRequestID : option UUID;
  ReturnTo : option string;
  InvitationToken : option string;
  IPAddress : option string;
  UserAgent : option string;
  CreatedAt : Z;
  ExpiresAt : Z
}.

#[global] Instance eta_t : Eta t := fun r => mk
  (r.(TokenHash)) (r.(ProviderID)) (r.(ExternalID)) (r.(Email)) (r.(EmailVerified))
  (r.(DisplayName)) (r.(AvatarURL)) (r.(RawClaims)) (r.(OAuthRequestID)) (r.(ReturnTo))
  (r.(InvitationToken)) (r.(IPAddress)) (r.(UserAgent)) (r.(CreatedAt)) (r.(ExpiresAt)).

Definition zero : t := mk
  "" 0%N "" "" false None None "" None None None None None time_zero time_zero.
End FederationPendingSignup.

Module Passkey.
(** The columns of the row. *)
Record t := mk {
  ID : UUID;
  CreatedAt : Z;
  UpdatedAt : Z;
  UserID : UUID;
  CredentialID : list Z;
  PublicKey : list Z;
  AttestationType : string;
  AAGUID : list Z;
  SignCount : Z;
  Transports : list string;
  Flags : Z;
  CloneWarning : bool;
  Name : string;
  LastUsedAt : option Z
}.

#[global] Instance eta_t : Eta t := fun r => mk
  (r.(ID)) (r.(CreatedAt)) (r.(UpdatedAt)) (r.(UserID)) (r.(CredentialID))
  (r.(PublicKey)) (r.(AttestationType)) (r.(AAGUID)) (r.(SignCount)) (r.(Transports))
  (r.(Flags)) (r.(CloneWarning)) (r.(Name)) (r.(LastUsedAt)).

Definition zero : t := mk
  0%N time_zero time_zero 0%N [] [] "" [] 0 [] 0 false "" None.
End Passkey.

Module PasskeyChallenge.
(** The columns of the row. *)
Record t := mk {
  ID : UUID;
  UserID : option UUID;
  Purpose : string;
  SessionData : list Z;
  ExpiresAt : Z;
  CreatedAt : Z
}.

#[global] Instance eta_t : Eta t := fun r => mk
  (r.(ID)) (r.(UserID)) (r.(Purpose)) (r.(SessionData)) (r.(ExpiresAt)) (r.(CreatedAt)).

Definition zero : t := mk
  0%N None "" [] time_zero time_zero.

Definition IsExpired (wall : Z) (c : t) : bool := time_before c.(ExpiresAt) wall.
End PasskeyChallenge.

Module Policy.
(** The columns of the row. *)
Record t := mk {
  ID : UUID;
  CreatedAt : Z;
  UpdatedAt : Z;
  Name : string;
  Description : option string;
  Type_ : string;
  Rego : string;
  Version : Z;
  Active : bool;
  Priority : Z
}.

#[global] Instance eta_t : Eta t := fun r => mk
  (r.(ID)) (r.(CreatedAt)) (r.(UpdatedAt)) (r.(Name)) (r.(Description)) (r.(Type_))
  (r.(Rego)) (r.(Version)) (r.(Active)) (r.(Priority)).

Definition zero : t := mk
  0%N time_zero time_zero "" None "" "" 0 false 0.
End Policy.

Module Setting.
(** The columns of the row. *)
Record t := mk {
  Key : string;
  Value : string
}.

#[global] Instance eta_t : Eta t := fun r => mk
  (r.(Key)) (r.(Value)).

Definition zero : t := mk
  "" "".
End Setting.

Module SigningKey.
(** The columns of the row. *)
Record t := mk {
  ID : UUID;
  PrivateKeyPEM : string;
  PublicKeyPEM : string;
  Algorithm : string;
  Active : bool;
  ExpiresAt : option Z;
  CreatedAt : Z
}.

#[global] Instance eta_t : Eta t := fun r => mk
  (r.(ID)) (r.(PrivateKeyPEM)) (r.(PublicKeyPEM)) (r.(Algorithm)) (r.(Active))
  (r.(ExpiresAt)) (r.(CreatedAt)).

Definition zero : t := mk
  0%N "" "" "" false None time_zero.
End SigningKey.

Module EmailTemplate.
(** The columns of the row. *)
Record t := mk {
  Name : string;
  Subject : string;
  BodyHTML : string;
  UpdatedAt : Z;
  UpdatedBy : option UUID
}.

#[global] Instance eta_t : Eta t := fun r => mk
  (r.(Name)) (r.(Subject)) (r.(BodyHTML)) (r.(UpdatedAt)) (r.(UpdatedBy)).

Definition zero : t := mk
  "" "" "" time_zero None.
End EmailTemplate.

Module AuditLog.
(** The columns of the row. *)
Record t := mk {
  ID : UUID;
  UserID : option UUID;
  ClientID : option UUID;
  Action : string;
  IPAddress : option string;
  UserAgent : option string;
  Metadata : string;
  CreatedAt : Z
}.

#[global] Instance eta_t : Eta t := fun r => mk
  (r.(ID)) (r.(UserID)) (r.(ClientID)) (r.(Action)) (r.(IPAddress)) (r.(UserAgent))
  (r.(Metadata)) (r.(CreatedAt)).

Definition zero : t := mk
  0%N None None "" None None "" time_zero.
End AuditLog.
