(* ===== verification/Platform.v ===== *)
(** * Parameters: the third-party code the program relies on

    [google/uuid]'s printer and parser, the texts of some errors, and the dynamic type [any] of the
    values a JSON document or a policy holds.  A concrete platform, with which
    the theorems are instantiated, closes the file. *)
From S2P Require Import Prelude.
From S2P Require Import Errors.
From S2P Require Import GoLib.
From S2P Require Import GoNet.
From S2P Require Import Model.
From Stdlib Require Import Ascii.
Local Open Scope Z_scope.

(** ** [any] *)

(** A Go value of type [any], as the code inspects it: [json.Number] keeps the
    digits, a [float64] of integral value is [AFloat] of that value. *)
#[warnings="-automation"]
Inductive any :=
| ANil
| ABool (b : bool)
| ANumber (digits : string)
| AFloat (f : Z)
| AInt (i : Z)
| AString (s : string)
| AStrings (l : list string)
| AList (l : list any)
| AMap (m : list (string * any)).

(** [m[k]] on a [map[string]any]; a nil map reads as an empty one. *)
Fixpoint map_get (m : list (string * any)) (k : string) : option any :=
  match m with
  | [] => None
  | (k', v) :: m' => if String.eqb k' k then Some v else map_get m' k
  end.

(** [m[k] = v] *)
Fixpoint map_set (m : list (string * any)) (k : string) (v : any) : list (string * any) :=
  match m with
  | [] => [(k, v)]
  | (k', v') :: m => if String.eqb k' k then (k, v) :: m else (k', v') :: map_set m k v
  end.

Lemma map_get_set m k v k' : map_get (map_set m k v) k' = if String.eqb k k' then Some v else map_get m k'.
Proof.
  induction m as [|[k0 v0] m IH]; simpl; [done|].
  destruct (String.eqb_spec k0 k) as [->|Hne]; simpl.
  - by destruct (String.eqb k k').
  - destruct (String.eqb_spec k0 k') as [->|Hne'].
    + by rewrite (proj2 (String.eqb_neq k k')).
    + exact IH.
Qed.

Lemma map_get_app m m' k : map_get (m ++ m') k = match map_get m k with Some v => Some v | None => map_get m' k end.
Proof. induction m as [|[k0 v0] m IH]; simpl; [done|]. by destruct (String.eqb k0 k). Qed.

(** [v, _ := m[k].(string)] *)
Definition get_string (m : list (string * any)) (k : string) : string :=
  match map_get m k with Some (AString s) => s | _ => "" end.

(** ** [google/uuid], the texts of [net/url]'s errors, the local time zone *)

(** [url_error s] is the text of the error [url.Parse(s)] returns, and
    [local_offset t] the number of seconds the local zone is east of UTC at the
    instant [t]. *)
Class Platform := {
  uuid_string : UUID -> string;
  uuid_parse : string -> option UUID;
  url_error : string -> string;
  local_offset : Z -> Z
}.

(** [url.Parse(s)]: the text of its error, or the URL. *)
Definition url_parse `{Platform} (s : string) : string + URL :=
  match url_Parse s with Some u => inr u | None => inl (url_error s) end.

Class PlatformLaws `{Platform} : Prop :=
  uuid_parse_string : forall u, uuid_parse (uuid_string u) = Some u.

Lemma uuid_string_inj `{PlatformLaws} u v : uuid_string u = uuid_string v -> u = v.
Proof.
  intros He. pose proof (uuid_parse_string u) as Hu. rewrite He, uuid_parse_string in Hu.
  by injection Hu.
Qed.

(** ** A concrete platform: a UUID printed as its binary digits *)

Fixpoint pos_string (p : positive) : string :=
  match p with
  | xH => EmptyString
  | xO p' => String "0" (pos_string p')
  | xI p' => String "1" (pos_string p')
  end.

Fixpoint pos_parse (s : string) : positive :=
  match s with
  | EmptyString => xH
  | String c s' => if Ascii.eqb c "0" then xO (pos_parse s') else xI (pos_parse s')
  end.

Definition sample_platform : Platform := {|
  uuid_string u := pos_string (N.succ_pos u);
  uuid_parse s := Some (Pos.pred_N (pos_parse s));
  url_error s := "parse " +:+ s;
  local_offset _ := 0
|}.

Lemma sample_platform_laws : @PlatformLaws sample_platform.
Proof.
  intros u. simpl. f_equal.
  assert (Hp : forall p, pos_parse (pos_string p) = p).
  { induction p as [p IH|p IH|]; simpl; by rewrite ?IH. }
  rewrite Hp. apply N.pos_pred_succ.
Qed.
