(* ===== verification/Exec.v ===== *)
(** * Execution model: the database, the environment and the operations' monad

    A Go operation is a function of type [M A]: it reads the environment of
    the call (the service clock, the wall clock, the random sources, and which
    of its effects fail), threads the database and a counter of effects, and
    returns a value or an error.  [stmt] is one SQL statement, [transaction]
    one gorm transaction, [ask] one call of a read-only collaborator.  The
    clocks are constant during one operation.  [wp] is the weakest
    precondition of an operation, with its rules. *)
From S2P Require Import Prelude.
From S2P Require Import Errors.
From S2P Require Import GoLib.
From S2P Require Import Model.
Local Open Scope Z_scope.

(** ** The database: one finite map per table, keyed by its primary key *)

Record DB := mkDB {
  oauth_clients : gmap UUID OAuthClient.t;
  users : gmap UUID User.t;
  sessions : gmap UUID Session.t;
  authorization_requests : gmap UUID AuthorizationRequest.t;
  authorization_codes : gmap string AuthorizationCode.t;
  access_tokens : gmap string AccessToken.t;
  refresh_tokens : gmap string RefreshToken.t;
  device_codes : gmap string DeviceCode.t;
  consents : gmap UUID Consent.t;
  pushed_authorization_requests : gmap string PushedAuthorizationRequest.t;
  revoked_jtis : gmap string RevokedJTI.t;
  api_resources : gmap UUID APIResource.t;
  resource_permissions : gmap UUID ResourcePermission.t;
  mfa_methods : gmap UUID MFAMethod.t;
  reauth_tokens : gmap string ReauthToken.t;
  outbound_emails : gmap UUID OutboundEmail.t;
  client_resource_permissions : gset (UUID * UUID);
  role_resource_permissions : gset (UUID * UUID);
  user_roles : gset (UUID * UUID);
  roles : gmap UUID Role.t;
  permissions : gmap UUID Permission.t;
  role_permissions : gset (UUID * UUID);
  registration_fields : gmap UUID RegistrationField.t;
  invitations : gmap UUID Invitation.t;
  federation_providers : gmap UUID FederationProvider.t;
  federation_links : gmap UUID FederationLink.t;
  federation_auth_requests : gmap string FederationAuthRequest.t;
  federation_pending_links : gmap string FederationPendingLink.t;
  federation_pending_signups : gmap string FederationPendingSignup.t;
  passkeys : gmap UUID Passkey.t;
  passkey_challenges : gmap UUID PasskeyChallenge.t;
  policies : gmap UUID Policy.t;
  settings : gmap string Setting.t;
  signing_keys : gmap UUID SigningKey.t;
  email_templates : gmap string EmailTemplate.t;
  audit_logs : gmap UUID AuditLog.t
}.

#[export] Instance eta_DB : Eta DB := fun d => mkDB
  (d.(oauth_clients)) (d.(users)) (d.(sessions)) (d.(authorization_requests))
  (d.(authorization_codes)) (d.(access_tokens)) (d.(refresh_tokens)) (d.(device_codes))
  (d.(consents)) (d.(pushed_authorization_requests)) (d.(revoked_jtis))
  (d.(api_resources)) (d.(resource_permissions)) (d.(mfa_methods)) (d.(reauth_tokens))
  (d.(outbound_emails)) (d.(client_resource_permissions))
  (d.(role_resource_permissions)) (d.(user_roles)) (d.(roles)) (d.(permissions))
  (d.(role_permissions))
  (d.(registration_fields)) (d.(invitations))
  (d.(federation_providers)) (d.(federation_links))
  (d.(federation_auth_requests)) (d.(federation_pending_links))
  (d.(federation_pending_signups)) (d.(passkeys))
  (d.(passkey_challenges)) (d.(policies))
  (d.(settings)) (d.(signing_keys))
  (d.(email_templates)) (d.(audit_logs)).

Definition empty_db : DB := mkDB ∅ ∅ ∅ ∅ ∅ ∅ ∅ ∅ ∅ ∅ ∅ ∅ ∅ ∅ ∅ ∅ ∅ ∅ ∅ ∅ ∅ ∅
  ∅ ∅ ∅ ∅ ∅ ∅ ∅ ∅ ∅ ∅ ∅ ∅ ∅ ∅.

(** ** Environment and state *)

(** [env_now] is [s.clock.Now()], [env_wall] is [time.Now()] and SQL's
    [NOW()].  Effect number [n] fails when [env_fail n]; the [i]-th byte of a
    read of the random source at effect [n] is [env_rand n i], and a
    [uuid.NewV7()] at effect [n] yields [env_uuid n]. *)
Record Env := mkEnv {
  env_now : Z;
  env_wall : Z;
  env_fail : nat -> bool;
  env_rand : nat -> nat -> Z;
  env_uuid : nat -> UUID
}.

Record State := mkState { st_db : DB; st_step : nat }.

#[export] Instance eta_State : Eta State := fun s => mkState (s.(st_db)) (s.(st_step)).

Definition bump (st : State) : State := mkState st.(st_db) (S st.(st_step)).

(** ** The monad *)

Definition M (A : Type) : Type := Env -> State -> result A * State.

Definition ret {A} (a : A) : M A := fun _ st => (Ok a, st).

Definition throw {A} (e : error) : M A := fun _ st => (Err e, st).

Definition bind {A B} (m : M A) (k : A -> M B) : M B :=
  fun env st =>
    match m env st with
    | (Ok a, st') => k a env st'
    | (Err e, st') => (Err e, st')
    end.

Notation "x <- m ;; k" := (bind m (fun x => k))
  (at level 60, m at next level, k at level 200, right associativity) : go_scope.
Notation "'let!' p := m ;; k" := (bind m (fun x => match x with p => k end))
  (at level 60, p pattern, m at next level, k at level 200, right associativity) : go_scope.
Notation "m ;;; k" := (bind m (fun _ => k))
  (at level 60, k at level 200, right associativity) : go_scope.

(** [if b { return nil, e }] *)
Definition guard (ok : bool) (e : error) : M unit := if ok then ret tt else throw e.

(** [v, err := m; if err != nil { return nil, e }] *)
Definition or_fail {A} (m : M A) (e : error) : M A :=
  fun env st =>
    match m env st with
    | (Ok a, st') => (Ok a, st')
    | (Err _, st') => (Err e, st')
    end.

(** As [or_fail], with an error computed from the one returned. *)
Definition map_err {A} (m : M A) (f : error -> error) : M A :=
  fun env st =>
    match m env st with
    | (Ok a, st') => (Ok a, st')
    | (Err e, st') => (Err (f e), st')
    end.

(** [v, err := m], the error kept as a value. *)
Definition attempt {A} (m : M A) : M (result A) :=
  fun env st => let '(r, st') := m env st in (Ok r, st').

(** [v, _ := m] for a function that returns nil with an error. *)
Definition opt {A} (m : M A) : M (option A) :=
  r <- attempt m ;; ret (match r with Ok a => Some a | Err _ => None end).

(** [_ = m] *)
Definition ignore {A} (m : M A) : M unit := attempt m ;;; ret tt.

Definition of_result {A} (r : result A) : M A :=
  fun _ st => (r, st).

Fixpoint for_each {A} (l : list A) (f : A -> M unit) : M unit :=
  match l with
  | [] => ret tt
  | x :: l' => f x ;;; for_each l' f
  end.

(** ** Effects *)

Definition clock_now : M Z := fun env st => (Ok env.(env_now), st).
Definition wall_now : M Z := fun env st => (Ok env.(env_wall), st).
Definition get_db : M DB := fun _ st => (Ok st.(st_db), st).

Definition driver_error : error := EDriver "database error".

(** One SQL statement: it fails, or runs [f], which may refuse (a constraint). *)
Definition stmt (f : Env -> DB -> result DB) : M unit :=
  fun env st =>
    if env.(env_fail) st.(st_step) then (Err driver_error, bump st)
    else match f env st.(st_db) with
         | Ok db' => (Ok tt, mkState db' (S st.(st_step)))
         | Err e => (Err e, bump st)
         end.

(** [err := db.Where(..).First(&v).Error]: the pointer and the error of a
    repository lookup.  gorm's not-found error is mapped to (nil, nil) by every
    lookup; any other error comes with a pointer to the zero row. *)
Definition find_row {A} (zero : A) (f : Env -> DB -> option A) : M (option A * option error) :=
  fun env st =>
    if env.(env_fail) st.(st_step) then (Ok (Some zero, Some driver_error), bump st)
    else (Ok (f env st.(st_db), None), bump st).

(** A query that returns rows or a count. *)
Definition query {A} (f : Env -> DB -> A) : M A :=
  fun env st =>
    if env.(env_fail) st.(st_step) then (Err driver_error, bump st)
    else (Ok (f env st.(st_db)), bump st).

(** A read-only collaborator: a function of the environment, the effect number
    and the database. *)
Definition Reader (A : Type) : Type := Env -> nat -> DB -> result A.

Definition ask {A} (f : Reader A) : M A :=
  fun env st => (f env st.(st_step) st.(st_db), bump st).

(** A read-only operation as a collaborator: the call is one effect, and when it
    fails so does each of its statements. *)
Definition reader_of {A} (m : Env -> State -> result A * State) : Reader A :=
  fun env n db =>
    fst (m (mkEnv env.(env_now) env.(env_wall) (fun _ => env.(env_fail) n) env.(env_rand) env.(env_uuid))
           (mkState db 0)).

(** [rand.Read(b)] on a buffer of [n] bytes. *)
Definition rand_read (n : nat) : M (list Z) :=
  fun env st =>
    if env.(env_fail) st.(st_step) then (Err (EOther "rand: read failed"), bump st)
    else (Ok (map (fun i => env.(env_rand) st.(st_step) i mod 256) (seq 0 n)), bump st).

(** [rand.Int(rand.Reader, max)] for [max > 0]: a value below [max]. *)
Definition rand_int (max : Z) : M Z :=
  fun env st =>
    if env.(env_fail) st.(st_step) then (Err (EOther "rand: read failed"), bump st)
    else (Ok (env.(env_rand) st.(st_step) 0%nat mod max), bump st).

Definition uuid_newV7 : M UUID :=
  fun env st =>
    if env.(env_fail) st.(st_step) then (Err (EOther "uuid: read failed"), bump st)
    else (Ok (env.(env_uuid) st.(st_step)), bump st).

(** [db.Transaction(func(tx) error { .. })]: BEGIN, the body, then COMMIT when
    the body returns nil and ROLLBACK when it returns an error. *)
Definition transaction {A} (m : M A) : M A :=
  fun env st =>
    if env.(env_fail) st.(st_step) then (Err driver_error, bump st)
    else
      match m env (bump st) with
      | (Ok a, st') =>
          if env.(env_fail) st'.(st_step)
          then (Err driver_error, mkState st.(st_db) (S st'.(st_step)))
          else (Ok a, bump st')
      | (Err e, st') => (Err e, mkState st.(st_db) (S st'.(st_step)))
      end.

(** ** Table statements *)

(** gorm's [autoCreateTime] and [autoUpdateTime]: the column is set when zero. *)
Definition auto_time (wall t : Z) : Z := if time_is_zero t then wall else t.

(** model/base.go: the hook that assigns a fresh UUIDv7 before an INSERT. *)
Definition BeforeCreate (id : UUID) : M UUID :=
  if N.eqb id uuid_nil then uuid_newV7 else ret id.

(** gorm's [Create] of a row with primary key [k] in the table [t]. *)
Definition create_in {K V} `{Countable K} (t : DB -> gmap K V)
    (set : (gmap K V -> gmap K V) -> DB -> DB) (k : K) (v : V) : M unit :=
  stmt (fun _ db =>
    match t db !! k with
    | Some _ => Err (EDriver "duplicate key value violates unique constraint")
    | None => Ok (set (insert k v) db)
    end).

(** An UPDATE, a DELETE or an upsert of the table. *)
Definition update_table {K V} `{Countable K}
    (set : (gmap K V -> gmap K V) -> DB -> DB) (f : Env -> gmap K V -> gmap K V) : M unit :=
  stmt (fun env db => Ok (set (f env) db)).

(** A row of a join table: its two columns are its primary key, and [refs] holds
    when both rows they reference exist. *)
Definition pairs : Type := gset (UUID * UUID).

Definition create_pair (t : DB -> pairs) (set : (pairs -> pairs) -> DB -> DB)
    (refs : DB -> bool) (p : UUID * UUID) : M unit :=
  stmt (fun _ db =>
    if bool_decide (p ∈ t db)
    then Err (EDriver "duplicate key value violates unique constraint")
    else if refs db then Ok (set (fun s => {[p]} ∪ s) db)
    else Err (EDriver "violates foreign key constraint")).

Definition delete_pairs (set : (pairs -> pairs) -> DB -> DB) (P : UUID * UUID -> bool) : M unit :=
  stmt (fun _ db => Ok (set (filter (fun p => P p = false)) db)).

(** ** Weakest preconditions *)

Definition wp {A} (m : M A) (Q : result A -> State -> Prop) (env : Env) (st : State) : Prop :=
  Q (fst (m env st)) (snd (m env st)).

(** [run m env st] is the pair of [m]'s outcome and the state after it. *)
Definition run {A} (m : M A) (env : Env) (db : DB) : result A * DB :=
  let '(r, st) := m env (mkState db 0) in (r, st.(st_db)).

Lemma run_ok {A} (m : M A) env db :
  is_ok (run m env db).1 = true -> exists a, run m env db = (Ok a, (run m env db).2).
Proof. destruct (run m env db) as [[a|e] db']; [by exists a | done]. Qed.

(** A statement on [run] from one on [wp]. *)
Lemma run_wp {A} (m : M A) (Q : result A -> DB -> Prop) env db :
  wp m (fun r st' => Q r st'.(st_db)) env (mkState db 0) ->
  let '(r, db') := run m env db in Q r db'.
Proof. unfold wp, run. by destruct (m env _) as [r st']. Qed.

Definition no_faults (env : Env) : Prop := forall n, env.(env_fail) n = false.

Section wp_rules.
  Context {A B : Type} (env : Env) (st : State).

Lemma wp_run (m : M A) (Q : result A -> State -> Prop) db :
  wp m Q env (mkState db 0) ->
  forall r db', run m env db = (r, db') -> exists n, Q r (mkState db' n).
Proof.
  unfold wp, run. intros Hwp r db' Hr.
  destruct (m env _) as [r0 [db0 n0]] eqn:E; simpl in *. simplify_eq. eauto.
Qed.

Lemma wp_mono (m : M A) (Q Q' : result A -> State -> Prop) :
  (forall r st', Q r st' -> Q' r st') -> wp m Q env st -> wp m Q' env st.
Proof. unfold wp. auto. Qed.

Lemma wp_conj (m : M A) (Q Q' : result A -> State -> Prop) :
  wp m Q env st -> wp m Q' env st -> wp m (fun r st' => Q r st' /\ Q' r st') env st.
Proof. unfold wp. auto. Qed.

Lemma wp_ret (a : A) (Q : result A -> State -> Prop) :
  Q (Ok a) st -> wp (ret a) Q env st.
Proof. done. Qed.

Lemma wp_throw (e : error) (Q : result A -> State -> Prop) :
  Q (Err e) st -> wp (throw e) Q env st.
Proof. done. Qed.

Lemma wp_bind (m : M A) (k : A -> M B) (Q : result B -> State -> Prop) :
  wp m (fun r st' => match r with
                     | Ok a => wp (k a) Q env st'
                     | Err e => Q (Err e) st'
                     end) env st ->
  wp (bind m k) Q env st.
Proof. unfold wp, bind. by destruct (m env st) as [[a|e] st']. Qed.

Lemma wp_guard (b : bool) (e : error) (Q : result unit -> State -> Prop) :
  (b = true -> Q (Ok tt) st) -> (b = false -> Q (Err e) st) -> wp (guard b e) Q env st.
Proof. unfold guard. destruct b; unfold wp; simpl; auto. Qed.

Lemma wp_or_fail (m : M A) (e : error) (Q : result A -> State -> Prop) :
  wp m (fun r st' => match r with Ok a => Q (Ok a) st' | Err _ => Q (Err e) st' end) env st ->
  wp (or_fail m e) Q env st.
Proof. unfold wp, or_fail. by destruct (m env st) as [[a|e'] st']. Qed.

Lemma wp_map_err (m : M A) (f : error -> error) (Q : result A -> State -> Prop) :
  wp m (fun r st' => match r with Ok a => Q (Ok a) st' | Err e => Q (Err (f e)) st' end) env st ->
  wp (map_err m f) Q env st.
Proof. unfold wp, map_err. by destruct (m env st) as [[a|e'] st']. Qed.

Lemma wp_attempt (m : M A) (Q : result (result A) -> State -> Prop) :
  wp m (fun r st' => Q (Ok r) st') env st -> wp (attempt m) Q env st.
Proof. unfold wp, attempt. by destruct (m env st) as [[a|e'] st']. Qed.

Lemma wp_opt (m : M A) (Q : result (option A) -> State -> Prop) :
  wp m (fun r st' => match r with Ok a => Q (Ok (Some a)) st' | Err _ => Q (Ok None) st' end) env st ->
  wp (opt m) Q env st.
Proof. unfold wp, opt, bind, attempt. by destruct (m env st) as [[a|e'] st']. Qed.

Lemma wp_ignore (m : M A) (Q : result unit -> State -> Prop) :
  wp m (fun _ st' => Q (Ok tt) st') env st -> wp (ignore m) Q env st.
Proof. unfold wp, ignore, bind, attempt. by destruct (m env st) as [[a|e'] st']. Qed.

Lemma wp_of_result (r : result A) (Q : result A -> State -> Prop) :
  Q r st -> wp (of_result r) Q env st.
Proof. done. Qed.

Lemma wp_clock_now (Q : result Z -> State -> Prop) :
  Q (Ok env.(env_now)) st -> wp clock_now Q env st.
Proof. done. Qed.

Lemma wp_wall_now (Q : result Z -> State -> Prop) :
  Q (Ok env.(env_wall)) st -> wp wall_now Q env st.
Proof. done. Qed.

Lemma wp_get_db (Q : result DB -> State -> Prop) : Q (Ok st.(st_db)) st -> wp get_db Q env st.
Proof. done. Qed.

Lemma wp_stmt (f : Env -> DB -> result DB) (Q : result unit -> State -> Prop) :
  (forall e, env.(env_fail) st.(st_step) = true \/ f env st.(st_db) = Err e -> Q (Err e) (bump st)) ->
  (forall db', env.(env_fail) st.(st_step) = false -> f env st.(st_db) = Ok db' ->
     Q (Ok tt) (mkState db' (S st.(st_step)))) ->
  wp (stmt f) Q env st.
Proof.
  unfold wp, stmt. intros Hf Hok.
  destruct (env_fail _ _) eqn:E; simpl; [by apply Hf; left|].
  destruct (f env _) eqn:E'; simpl; [by apply Hok | by apply Hf; right].
Qed.

Lemma wp_create_in {K V} `{Countable K} (t : DB -> gmap K V)
    (set : (gmap K V -> gmap K V) -> DB -> DB) k v (Q : result unit -> State -> Prop) :
  (forall e, env.(env_fail) st.(st_step) = true \/ is_Some (t st.(st_db) !! k) -> Q (Err e) (bump st)) ->
  (env.(env_fail) st.(st_step) = false -> t st.(st_db) !! k = None ->
     Q (Ok tt) (mkState (set (insert k v) st.(st_db)) (S st.(st_step)))) ->
  wp (create_in t set k v) Q env st.
Proof.
  intros He Hok. apply wp_stmt.
  - intros e [Hf | Hf]; apply He; [by left|]. right. by destruct (t _ !! k).
  - intros db' Hf. destruct (t _ !! k) eqn:E; [done|]. intros [= <-]. by apply Hok.
Qed.

Lemma wp_update_table {K V} `{Countable K}
    (set : (gmap K V -> gmap K V) -> DB -> DB) (f : Env -> gmap K V -> gmap K V)
    (Q : result unit -> State -> Prop) :
  (forall e, env.(env_fail) st.(st_step) = true -> Q (Err e) (bump st)) ->
  (env.(env_fail) st.(st_step) = false ->
     Q (Ok tt) (mkState (set (f env) st.(st_db)) (S st.(st_step)))) ->
  wp (update_table set f) Q env st.
Proof.
  intros He Hok. apply wp_stmt; [intros e [Hf|[=]]; by apply He|].
  intros db' Hf [= <-]. by apply Hok.
Qed.

Lemma wp_create_pair (t : DB -> pairs) (set : (pairs -> pairs) -> DB -> DB) refs p
    (Q : result unit -> State -> Prop) :
  (forall e, Q (Err e) (bump st)) ->
  (env.(env_fail) st.(st_step) = false -> p ∉ t st.(st_db) -> refs st.(st_db) = true ->
     Q (Ok tt) (mkState (set (fun s => {[p]} ∪ s) st.(st_db)) (S st.(st_step)))) ->
  wp (create_pair t set refs p) Q env st.
Proof.
  intros He Hok. apply wp_stmt; [by intros; apply He|]. intros db' Hf.
  destruct (bool_decide_reflect (p ∈ t st.(st_db))); [done|].
  destruct (refs _) eqn:Hr; [|done]. intros [= <-]. by apply Hok.
Qed.

Lemma wp_delete_pairs (set : (pairs -> pairs) -> DB -> DB) P (Q : result unit -> State -> Prop) :
  (forall e, env.(env_fail) st.(st_step) = true -> Q (Err e) (bump st)) ->
  (env.(env_fail) st.(st_step) = false ->
     Q (Ok tt) (mkState (set (filter (fun p => P p = false)) st.(st_db)) (S st.(st_step)))) ->
  wp (delete_pairs set P) Q env st.
Proof.
  intros He Hok. apply wp_stmt; [intros e [Hf|[=]]; by apply He|].
  intros db' Hf [= <-]. by apply Hok.
Qed.

Lemma wp_BeforeCreate id (Q : result UUID -> State -> Prop) :
  (forall e, Q (Err e) (bump st)) ->
  (forall id' n, (id <> uuid_nil -> id' = id) -> Q (Ok id') (mkState st.(st_db) n)) ->
  wp (BeforeCreate id) Q env st.
Proof.
  intros He Hok. unfold BeforeCreate. destruct (N.eqb id uuid_nil) eqn:E.
  - apply N.eqb_eq in E. unfold wp, uuid_newV7.
    destruct (env_fail _ _); simpl; [apply He | by apply Hok].
  - unfold wp. simpl. destruct st as [db n]. by apply (Hok id n).
Qed.

Lemma wp_find_row (zero : A) f (Q : result (option A * option error) -> State -> Prop) :
  (env.(env_fail) st.(st_step) = true -> Q (Ok (Some zero, Some driver_error)) (bump st)) ->
  (env.(env_fail) st.(st_step) = false -> Q (Ok (f env st.(st_db), None)) (bump st)) ->
  wp (find_row zero f) Q env st.
Proof. unfold wp, find_row. destruct (env_fail _ _); simpl; auto. Qed.

Lemma wp_query (f : Env -> DB -> A) (Q : result A -> State -> Prop) :
  (env.(env_fail) st.(st_step) = true -> Q (Err driver_error) (bump st)) ->
  (env.(env_fail) st.(st_step) = false -> Q (Ok (f env st.(st_db))) (bump st)) ->
  wp (query f) Q env st.
Proof. unfold wp, query. destruct (env_fail _ _); simpl; auto. Qed.

Lemma wp_ask (f : Reader A) (Q : result A -> State -> Prop) :
  Q (f env st.(st_step) st.(st_db)) (bump st) -> wp (ask f) Q env st.
Proof. done. Qed.

Lemma wp_rand_read n (Q : result (list Z) -> State -> Prop) :
  (forall e, env.(env_fail) st.(st_step) = true -> Q (Err e) (bump st)) ->
  (env.(env_fail) st.(st_step) = false ->
     Q (Ok (map (fun i => env.(env_rand) st.(st_step) i mod 256) (seq 0 n))) (bump st)) ->
  wp (rand_read n) Q env st.
Proof. unfold wp, rand_read. destruct (env_fail _ _); simpl; auto. Qed.

Lemma wp_rand_int max (Q : result Z -> State -> Prop) :
  (forall e, env.(env_fail) st.(st_step) = true -> Q (Err e) (bump st)) ->
  (env.(env_fail) st.(st_step) = false ->
     Q (Ok (env.(env_rand) st.(st_step) 0%nat mod max)) (bump st)) ->
  wp (rand_int max) Q env st.
Proof. unfold wp, rand_int. destruct (env_fail _ _); simpl; auto. Qed.

Lemma wp_uuid_newV7 (Q : result UUID -> State -> Prop) :
  (forall e, env.(env_fail) st.(st_step) = true -> Q (Err e) (bump st)) ->
  (env.(env_fail) st.(st_step) = false -> Q (Ok (env.(env_uuid) st.(st_step))) (bump st)) ->
  wp uuid_newV7 Q env st.
Proof. unfold wp, uuid_newV7. destruct (env_fail _ _); simpl; auto. Qed.

(** A transaction that returns an error leaves the database as it was. *)
Lemma wp_transaction (m : M A) (Q : result A -> State -> Prop) :
  (forall e n, Q (Err e) (mkState st.(st_db) n)) ->
  wp m (fun r st' => match r with
                     | Ok a => env.(env_fail) st'.(st_step) = false -> Q (Ok a) (bump st')
                     | Err _ => True
                     end) env (bump st) ->
  wp (transaction m) Q env st.
Proof.
  unfold wp, transaction. intros He Hok.
  destruct (env_fail _ (st_step st)); simpl; [apply He|].
  destruct (m env (bump st)) as [[a|e] st']; simpl in *; [|apply He].
  destruct (env_fail _ _) eqn:E; simpl; [apply He | by apply Hok].
Qed.

(** As [wp_transaction], keeping what the body establishes before a rollback. *)
Lemma wp_transaction_err (m : M A) (Q : result A -> State -> Prop) :
  no_faults env ->
  wp m (fun r st' => match r with
                     | Ok a => Q (Ok a) (bump st')
                     | Err e => Q (Err e) (mkState st.(st_db) (S st'.(st_step)))
                     end) env (bump st) ->
  wp (transaction m) Q env st.
Proof.
  unfold wp, transaction. intros Hnf Hok. rewrite Hnf.
  destruct (m env (bump st)) as [[a|e] st']; simpl in *; [|done]. by rewrite Hnf.
Qed.

End wp_rules.

(** The outcome of an operation as a triple on the database: [P] before, and
    for every environment the outcome satisfies [Q]. *)
Definition spec {A} (P : DB -> Prop) (m : M A) (Q : Env -> DB -> result A -> DB -> Prop) : Prop :=
  forall env st, P st.(st_db) -> wp m (fun r st' => Q env st.(st_db) r st'.(st_db)) env st.

(** Fault-free rules. *)
Section wp_no_fault.
  Context {A : Type} (env : Env) (st : State) (Hnf : no_faults env).

Lemma wp_stmt_nf f (Q : result unit -> State -> Prop) :
  match f env st.(st_db) with
  | Ok db' => Q (Ok tt) (mkState db' (S st.(st_step)))
  | Err e => Q (Err e) (bump st)
  end -> wp (stmt f) Q env st.
Proof. unfold wp, stmt. rewrite Hnf. by destruct (f env _). Qed.

Lemma wp_find_row_nf (zero : A) f (Q : result (option A * option error) -> State -> Prop) :
  Q (Ok (f env st.(st_db), None)) (bump st) -> wp (find_row zero f) Q env st.
Proof. unfold wp, find_row. by rewrite Hnf. Qed.

Lemma wp_query_nf (f : Env -> DB -> A) (Q : result A -> State -> Prop) :
  Q (Ok (f env st.(st_db))) (bump st) -> wp (query f) Q env st.
Proof. unfold wp, query. by rewrite Hnf. Qed.

Lemma wp_rand_read_nf n (Q : result (list Z) -> State -> Prop) :
  Q (Ok (map (fun i => env.(env_rand) st.(st_step) i mod 256) (seq 0 n))) (bump st) ->
  wp (rand_read n) Q env st.
Proof. unfold wp, rand_read. by rewrite Hnf. Qed.

Lemma wp_uuid_newV7_nf (Q : result UUID -> State -> Prop) :
  Q (Ok (env.(env_uuid) st.(st_step))) (bump st) -> wp uuid_newV7 Q env st.
Proof. unfold wp, uuid_newV7. by rewrite Hnf. Qed.

End wp_no_fault.

(** ** Preservation of a relation between databases *)

Section preserves.
  Context (R : relation DB) `{!PreOrder R}.

(** Whatever the environment and the outcome, the database after is related to
    the one before. *)
Class Preserves {A} (m : M A) : Prop :=
  preserves : forall env st, R st.(st_db) (snd (m env st)).(st_db).

#[export] Instance preserves_ret {A} (a : A) : Preserves (ret a).
Proof. by intros env st. Qed.

#[export] Instance preserves_throw {A} (e : error) : Preserves (@throw A e).
Proof. by intros env st. Qed.

#[export] Instance preserves_guard b e : Preserves (guard b e).
Proof. intros env st. by destruct b. Qed.

Lemma preserves_bind {A B} (m : M A) (k : A -> M B) :
  Preserves m -> (forall a, Preserves (k a)) -> Preserves (bind m k).
Proof.
  intros Hm Hk env st. unfold bind. pose proof (Hm env st) as Hm'.
  destruct (m env st) as [[a|e] st']; simpl in *; [|done].
  etrans; [exact Hm' | apply Hk].
Qed.

Lemma preserves_or_fail {A} (m : M A) e : Preserves m -> Preserves (or_fail m e).
Proof.
  intros Hm env st. pose proof (Hm env st). unfold or_fail.
  by destruct (m env st) as [[a|e'] st'].
Qed.

Lemma preserves_map_err {A} (m : M A) f : Preserves m -> Preserves (map_err m f).
Proof.
  intros Hm env st. pose proof (Hm env st). unfold map_err.
  by destruct (m env st) as [[a|e'] st'].
Qed.

Lemma preserves_attempt {A} (m : M A) : Preserves m -> Preserves (attempt m).
Proof.
  intros Hm env st. pose proof (Hm env st). unfold attempt.
  by destruct (m env st) as [[a|e'] st'].
Qed.

Lemma preserves_opt {A} (m : M A) : Preserves m -> Preserves (opt m).
Proof.
  intros Hm. apply preserves_bind; [by apply preserves_attempt|]. intros r. apply _.
Qed.

Lemma preserves_ignore {A} (m : M A) : Preserves m -> Preserves (ignore m).
Proof.
  intros Hm. apply preserves_bind; [by apply preserves_attempt|]. intros r. apply _.
Qed.

#[export] Instance preserves_of_result {A} (r : result A) : Preserves (of_result r).
Proof. by intros env st. Qed.

#[export] Instance preserves_clock_now : Preserves clock_now.
Proof. by intros env st. Qed.

#[export] Instance preserves_wall_now : Preserves wall_now.
Proof. by intros env st. Qed.

#[export] Instance preserves_get_db : Preserves get_db.
Proof. by intros env st. Qed.

#[export] Instance preserves_find_row {A} (z : A) f : Preserves (find_row z f).
Proof. intros env st. unfold find_row. by destruct (env_fail _ _). Qed.

#[export] Instance preserves_query {A} (f : Env -> DB -> A) : Preserves (query f).
Proof. intros env st. unfold query. by destruct (env_fail _ _). Qed.

#[export] Instance preserves_ask {A} (f : Reader A) : Preserves (ask f).
Proof. by intros env st. Qed.

#[export] Instance preserves_rand_read n : Preserves (rand_read n).
Proof. intros env st. unfold rand_read. by destruct (env_fail _ _). Qed.

#[export] Instance preserves_rand_int max : Preserves (rand_int max).
Proof. intros env st. unfold rand_int. by destruct (env_fail _ _). Qed.

#[export] Instance preserves_uuid : Preserves uuid_newV7.
Proof. intros env st. unfold uuid_newV7. by destruct (env_fail _ _). Qed.

Lemma preserves_stmt f :
  (forall env db db', f env db = Ok db' -> R db db') -> Preserves (stmt f).
Proof.
  intros Hf env st. unfold stmt. destruct (env_fail _ _); [done|].
  destruct (f env _) eqn:E; simpl; [by eapply Hf | done].
Qed.

Lemma preserves_create_in {K V} `{Countable K} (t : DB -> gmap K V)
    (set : (gmap K V -> gmap K V) -> DB -> DB) k v :
  (forall db, t db !! k = None -> R db (set (insert k v) db)) -> Preserves (create_in t set k v).
Proof.
  intros Hc. apply preserves_stmt. intros env db db'.
  destruct (t db !! k) eqn:E; [done|]. intros [= <-]. by apply Hc.
Qed.

Lemma preserves_update_table {K V} `{Countable K}
    (set : (gmap K V -> gmap K V) -> DB -> DB) (f : Env -> gmap K V -> gmap K V) :
  (forall env db, R db (set (f env) db)) -> Preserves (update_table set f).
Proof. intros Hu. apply preserves_stmt. intros env db db' [= <-]. apply Hu. Qed.

#[export] Instance preserves_BeforeCreate id : Preserves (BeforeCreate id).
Proof. unfold BeforeCreate. destruct (N.eqb _ _); apply _. Qed.

Lemma preserves_transaction {A} (m : M A) : Preserves m -> Preserves (transaction m).
Proof.
  intros Hm env st. unfold transaction.
  destruct (env_fail _ (st_step st)); [done|].
  pose proof (Hm env (bump st)) as Hm'.
  destruct (m env (bump st)) as [[a|e] st']; simpl in *; [|done].
  by destruct (env_fail _ _).
Qed.

Lemma preserves_for_each {A} (l : list A) f :
  (forall x, Preserves (f x)) -> Preserves (for_each l f).
Proof.
  intros Hf. induction l as [|x l IH]; [apply _|]. by apply preserves_bind.
Qed.

(** The outcome of an operation that preserves [R]. *)
Lemma wp_preserves {A} (m : M A) (Q : result A -> State -> Prop) env st :
  Preserves m ->
  (forall r st', R st.(st_db) st'.(st_db) -> Q r st') ->
  wp m Q env st.
Proof. intros Hm HQ. unfold wp. apply HQ, Hm. Qed.

Lemma run_preserves {A} (m : M A) env db r db' :
  Preserves m -> run m env db = (r, db') -> R db db'.
Proof.
  intros Hm. unfold run. pose proof (Hm env (mkState db 0)) as Hm'.
  destruct (m env _) as [r0 st0]. simpl in *. by intros [= <- <-].
Qed.

End preserves.

(** Read-only operations preserve equality. *)
Abbreviation ReadOnly := (Preserves eq).

Lemma wp_read_only {A} (m : M A) (Q : result A -> State -> Prop) env st :
  ReadOnly m -> (forall r n, Q r (mkState st.(st_db) n)) -> wp m Q env st.
Proof.
  intros Hm HQ. apply (wp_preserves eq m); [done|].
  intros r [db' n] Hdb. simpl in *. by subst.
Qed.

(** A read-only operation preserves every preorder. *)
Lemma preserves_read_only (R : relation DB) `{!Reflexive R} {A} (m : M A) :
  ReadOnly m -> Preserves R m.
Proof. intros Hm env st. rewrite (Hm env st) at 1. done. Qed.

(** The database keeps [t]: one table, or any view of it. *)
Definition same {A} (t : DB -> A) : relation DB := fun d d' => t d' = t d.

#[export] Instance same_preorder {A} (t : DB -> A) : PreOrder (same t).
Proof. split; [done|]. intros d d' d'' H1 H2. unfold same in *. congruence. Qed.

(** The database keeps the invariant [I]. *)
Definition keeps (I : DB -> Prop) : relation DB := fun d d' => I d -> I d'.

#[export] Instance keeps_preorder (I : DB -> Prop) : PreOrder (keeps I).
Proof. split; unfold keeps; [by intros ? | intros ? ? ?; auto]. Qed.

Lemma preserves_mono (R R' : relation DB) {A} (m : M A) :
  (forall d d', R d d' -> R' d d') -> Preserves R m -> Preserves R' m.
Proof. intros HR Hm env st. apply HR, Hm. Qed.

(** ** Histories: calls one after the other, each in its own environment *)

Definition drop {A} (m : M A) : M unit := m ;;; ret tt.

Section history.
  Context {C : Type} (perform : C -> M unit).

Fixpoint history (l : list (Env * C)) (db : DB) : DB :=
  match l with
  | [] => db
  | (env, c) :: l' => history l' (snd (run (perform c) env db))
  end.

Lemma history_preserves (R : relation DB) `{!PreOrder R} l db :
  (forall c, Preserves R (perform c)) -> R db (history l db).
Proof.
  intros Hc. revert db. induction l as [|[env c] l IH]; intros db; simpl; [done|].
  destruct (run (perform c) env db) as [r db'] eqn:E.
  etrans; [exact (run_preserves R _ env db r db' (Hc c) E) | apply IH].
Qed.
End history.

(** ** Symbolic execution *)

(** Specifications of named operations are tried here before unfolding; the
    files of the components extend it. *)
Ltac wp_hook := fail.

Ltac wp_simpl := cbv beta iota; cbn [bump st_db st_step fst snd].

Ltac head_of t := lazymatch t with ?f _ => head_of f | _ => t end.

Ltac wp_unfold :=
  lazymatch goal with
  | |- wp ?m _ _ _ => let h := head_of m in unfold h; cbv beta
  end.

Ltac wp_step :=
  wp_simpl;
  lazymatch goal with
  | |- wp (bind _ _) _ _ _ => apply wp_bind
  | |- wp (ret _) _ _ _ => apply wp_ret
  | |- wp (throw _) _ _ _ => apply wp_throw
  | |- wp (guard _ _) _ _ _ => apply wp_guard; intros ?
  | |- wp (or_fail _ _) _ _ _ => apply wp_or_fail
  | |- wp (map_err _ _) _ _ _ => apply wp_map_err
  | |- wp (attempt _) _ _ _ => apply wp_attempt
  | |- wp (opt _) _ _ _ => apply wp_opt
  | |- wp (ignore _) _ _ _ => apply wp_ignore
  | |- wp (of_result _) _ _ _ => apply wp_of_result
  | |- wp clock_now _ _ _ => apply wp_clock_now
  | |- wp wall_now _ _ _ => apply wp_wall_now
  | |- wp get_db _ _ _ => apply wp_get_db
  | |- wp (stmt _) _ _ _ => apply wp_stmt; [intros ? _ | intros ? _ ?]
  | |- wp (create_in _ _ _ _) _ _ _ => apply wp_create_in; [intros ? _ | intros ? ?]
  | |- wp (update_table _ _) _ _ _ => apply wp_update_table; [intros ? ? | intros ?]
  | |- wp (create_pair _ _ _ _) _ _ _ => apply wp_create_pair; [intros ? | intros ? ? ?]
  | |- wp (delete_pairs _ _) _ _ _ => apply wp_delete_pairs; [intros ? ? | intros ?]
  | |- wp (BeforeCreate _) _ _ _ => apply wp_BeforeCreate; [intros ? | intros ? ? ?]
  | |- wp (find_row _ _) _ _ _ => apply wp_find_row; intros ?
  | |- wp (query _) _ _ _ => apply wp_query; intros ?
  | |- wp (ask _) _ _ _ => apply wp_ask
  | |- wp (rand_read _) _ _ _ => apply wp_rand_read; intros
  | |- wp (rand_int _) _ _ _ => apply wp_rand_int; intros
  | |- wp uuid_newV7 _ _ _ => apply wp_uuid_newV7; intros
  | |- wp (match ?x with _ => _ end) _ _ _ => destruct_scrutinee x
  | |- match ?x with _ => _ end => destruct_scrutinee x
  | |- wp (let x := ?v in @?k x) ?Q ?e ?s => change (wp (k v) Q e s)
  | |- wp _ _ _ _ => first [wp_hook | wp_unfold]
  end.

Ltac wp_steps := repeat wp_step; wp_simpl.

(** Preservation of a relation by the structure of the operation; [tac] solves
    the statements and the named operations. *)
Ltac side := try lazymatch goal with |- PreOrder _ => apply _ | |- Reflexive _ => apply _ end.

Ltac preserve_step tac :=
  lazymatch goal with
  | |- Preserves _ (bind _ _) => apply preserves_bind; side; [| intros ?]
  | |- Preserves _ (or_fail _ _) => apply preserves_or_fail; side
  | |- Preserves _ (map_err _ _) => apply preserves_map_err; side
  | |- Preserves _ (attempt _) => apply preserves_attempt; side
  | |- Preserves _ (opt _) => apply preserves_opt; side
  | |- Preserves _ (ignore _) => apply preserves_ignore; side
  | |- Preserves _ (transaction _) => apply preserves_transaction; side
  | |- Preserves _ (for_each _ _) => apply preserves_for_each; side; intros ?
  | |- Preserves _ (match ?x with _ => _ end) => destruct_scrutinee x
  | |- Preserves _ (let x := ?v in @?k x) => cbv zeta
  | |- Preserves _ _ => first [by apply _ | by tac]
  | |- PreOrder _ => by apply _
  | |- Reflexive _ => by apply _
  end.

Ltac solve_preserves tac := repeat (preserve_step tac).
