(* ===== verification/Schema.v ===== *)
(** * migrations/: the foreign keys of the rows that are deleted

    What a DELETE of users, sessions or refresh tokens does to the rows that
    refer to them: [ON DELETE CASCADE] and [ON DELETE SET NULL] of the
    migrations, as functions of the database. *)
From S2P Require Import Prelude.
From S2P Require Import GoLib.
From S2P Require Import Model.
From S2P Require Import Exec.
Local Open Scope Z_scope.

(** The row of key [k] is among those a DELETE selects. *)
Definition doomed {K V} `{Countable K} (t : gmap K V) (P : K -> V -> bool) (k : K) : bool :=
  match t !! k with Some v => P k v | None => false end.

Definition doomed_opt {K V} `{Countable K} (t : gmap K V) (P : K -> V -> bool) (k : option K) : bool :=
  match k with Some k => doomed t P k | None => false end.

(** The rows that [P] does not select. *)
Definition rows_without {K V} `{Countable K} (P : K -> V -> bool) (t : gmap K V) : gmap K V :=
  filter (fun kv => P kv.1 kv.2 = false) t.

(** An access token outlives the refresh token it came with (migrations/005). *)
Definition drop_link (gone : string -> bool) (a : AccessToken.t) : AccessToken.t :=
  match a.(AccessToken.RefreshTokenID) with
  | Some h => if gone h then a <| AccessToken.RefreshTokenID := None |> else a
  | None => a
  end.

(** [DELETE FROM refresh_tokens WHERE ..] *)
Definition delete_refresh_tokens (P : string -> RefreshToken.t -> bool) (db : DB) : DB :=
  db <| access_tokens ::= fmap (drop_link (doomed db.(refresh_tokens) P)) |>
     <| refresh_tokens ::= rows_without P |>.

(** [DELETE FROM sessions WHERE ..] (migrations/004-006, 013, 029) *)
Definition delete_sessions (P : UUID -> Session.t -> bool) (db : DB) : DB :=
  let gone := doomed db.(sessions) P in
  let gone_opt := doomed_opt db.(sessions) P in
  delete_refresh_tokens (fun _ r => gone r.(RefreshToken.SessionID))
    (db <| sessions ::= rows_without P |>
        <| access_tokens ::= rows_without (fun _ a => gone_opt a.(AccessToken.SessionID)) |>
        <| authorization_codes ::= rows_without (fun _ c => gone_opt c.(AuthorizationCode.SessionID)) |>
        <| device_codes ::= rows_without (fun _ d => gone_opt d.(DeviceCode.SessionID)) |>
        <| reauth_tokens ::= rows_without (fun _ r => gone r.(ReauthToken.SessionID)) |>).

(** [DELETE FROM users WHERE ..] (migrations/003-008, 010, 011, 013-015, 029,
    030, 040, 046, 051) *)
Definition delete_users (P : UUID -> User.t -> bool) (db : DB) : DB :=
  let gone := doomed db.(users) P in
  let gone_opt := doomed_opt db.(users) P in
  delete_refresh_tokens (fun _ r => gone r.(RefreshToken.UserID))
    (delete_sessions (fun _ s => gone s.(Session.UserID))
      (db <| users ::= rows_without P |>
          <| user_roles ::= filter (fun p => gone p.1 = false) |>
          <| consents ::= rows_without (fun _ c => gone c.(Consent.UserID)) |>
          <| mfa_methods ::= rows_without (fun _ m => gone m.(MFAMethod.UserID)) |>
          <| access_tokens ::= rows_without (fun _ a => gone_opt a.(AccessToken.UserID)) |>
          <| authorization_requests ::= rows_without (fun _ r => gone_opt r.(AuthorizationRequest.UserID)) |>
          <| authorization_codes ::= rows_without (fun _ c => gone c.(AuthorizationCode.UserID)) |>
          <| device_codes ::= rows_without (fun _ d => gone_opt d.(DeviceCode.UserID)) |>
          <| reauth_tokens ::= rows_without (fun _ r => gone r.(ReauthToken.UserID)) |>
          <| invitations ::= rows_without (fun _ i => gone i.(Invitation.InvitedBy)) |>
          <| federation_links ::= rows_without (fun _ l => gone l.(FederationLink.UserID)) |>
          <| federation_auth_requests ::= rows_without (fun _ r => gone_opt r.(FederationAuthRequest.LinkUserID)) |>
          <| federation_pending_links ::= rows_without (fun _ l => gone l.(FederationPendingLink.UserID)) |>
          <| passkeys ::= rows_without (fun _ k => gone k.(Passkey.UserID)) |>
          <| passkey_challenges ::= rows_without (fun _ c => gone_opt c.(PasskeyChallenge.UserID)) |>
          <| email_templates ::= fmap (fun t =>
               if gone_opt t.(EmailTemplate.UpdatedBy) then t <| EmailTemplate.UpdatedBy := None |> else t) |>)).

(** ** What stays *)

Section rows.
Context {K V : Type} `{Countable K}.
Implicit Types (t : gmap K V) (P : K -> V -> bool).

Lemma rows_without_lookup P t k v :
  rows_without P t !! k = Some v <-> t !! k = Some v /\ P k v = false.
Proof. unfold rows_without. by rewrite map_lookup_filter_Some. Qed.

Lemma rows_without_None P t k : t !! k = None -> rows_without P t !! k = None.
Proof. intros Hk. apply map_lookup_filter_None. by left. Qed.

Lemma doomed_spared P t k v : t !! k = Some v -> P k v = false -> doomed t P k = false.
Proof. unfold doomed. by intros -> ->. Qed.

Lemma rows_without_doomed P t k : doomed t P k = false -> rows_without P t !! k = t !! k.
Proof.
  unfold doomed. intros Hd. destruct (t !! k) as [v|] eqn:Hk.
  - by apply rows_without_lookup.
  - by apply rows_without_None.
Qed.
End rows.
