(* ===== verification/NetSafety.v ===== *)
(** * pkg/netsafety/url.go and pkg/originallow.go: which URLs are trusted

    [ValidatePublicHTTPSURL] guards every fetch of a URL a caller supplied,
    [ValidateRedirectURIScheme] the registration of redirect URIs, and
    [IsOriginAllowed] the targets of browser redirects.  The DNS resolver is a
    parameter, and so are the texts [strconv.Quote] and [net.IP.String] put in
    the messages. *)
From S2P Require Import Prelude.
From S2P Require Import Errors.
From S2P Require Import GoLib.
From S2P Require Import GoNet.
From S2P Require Import Model.
From S2P Require Import Platform.
From S2P Require Import Exec.
From Stdlib Require Import Ascii.
Local Open Scope Z_scope.

(** [LookupIP host]: the addresses [net.LookupIP] answers. *)
Class NetLib := {
  LookupIP : string -> Reader (list (list Z));
  quote : string -> string;
  ip_text : list Z -> string
}.

(** A resolver that knows one public address. *)
Definition sample_netlib : NetLib := {|
  LookupIP _ _ _ _ := Ok [[93; 184; 216; 34]];
  quote s := s;
  ip_text _ := "address"
|}.

Definition ErrPrivateAddress : string := "URL resolves to a non-public address".
Definition ErrInvalidScheme : string := "URL scheme is not allowed".
Definition ErrMalformedURL : string := "URL is malformed".

(** [fmt.Errorf("%w: ...", sentinel, ...)] *)
Definition wrapf (sentinel detail : string) : error := EOther (sentinel +:+ ": " +:+ detail).

Definition isPublicIP (ip : list Z) : bool :=
  if IsLoopback ip || IsMulticast ip || IsUnspecified ip then false
  else if IsLinkLocalUnicast ip || IsLinkLocalMulticast ip then false
  else if IsPrivate ip then false
  else match To4 ip with
       | Some v4 =>
           if (byte_at v4 0 =? 100) && (Z.land (byte_at v4 1) 192 =? 64) then false
           else if byte_at v4 0 =? 0 then false
           else if bool_decide (v4 = [255; 255; 255; 255]) then false
           else true
       | None => true
       end.

Section netsafety.
Context `{Platform} `{NetLib}.

(** The loop over the answers: the first one that is not public is refused. *)
Fixpoint all_public (host : string) (ips : list (list Z)) : M unit :=
  match ips with
  | [] => ret tt
  | ip :: rest =>
      guard (isPublicIP ip) (wrapf ErrPrivateAddress (host +:+ " resolves to " +:+ ip_text ip)) ;;;
      all_public host rest
  end.

Definition ValidatePublicHTTPSURL (raw : string) : M unit :=
  match url_parse raw with
  | inl err => throw (wrapf ErrMalformedURL err)
  | inr u =>
      guard (equal_fold u.(Scheme) "https")
        (wrapf ErrInvalidScheme ("scheme must be https, got " +:+ quote u.(Scheme))) ;;;
      let host := Hostname u in
      guard (negb (String.eqb host "")) (wrapf ErrMalformedURL "missing host") ;;;
      match ParseIP host with
      | Some ip => guard (isPublicIP ip) (wrapf ErrPrivateAddress (ip_text ip))
      | None =>
          guard (negb (equal_fold host "localhost")) (wrapf ErrPrivateAddress "localhost") ;;;
          ips <- map_err (ask (LookupIP host)) (fun e =>
                   EOther ("dns lookup for " +:+ quote host +:+ " failed: " +:+ error_string e)) ;;
          guard (negb (Nat.eqb (List.length ips) 0))
            (EOther ("dns lookup for " +:+ quote host +:+ " returned no addresses")) ;;;
          all_public host ips
      end
  end.

Definition never_allowed : list string :=
  ["javascript"; "data"; "vbscript"; "file"; "ftp"; "ws"; "wss"; "mailto"; "tel"; "sms"].

Definition ValidateRedirectURIScheme (raw : string) : result unit :=
  match url_parse raw with
  | inl err => Err (wrapf ErrMalformedURL err)
  | inr u =>
      let scheme := to_lower u.(Scheme) in
      if String.eqb scheme "" then Err (wrapf ErrMalformedURL "missing scheme")
      else if String.eqb scheme "https" then
        if String.eqb u.(Host) "" then Err (wrapf ErrMalformedURL "https URL missing host") else Ok tt
      else if String.eqb scheme "http" then
        let host := Hostname u in
        if String.eqb host "127.0.0.1" || String.eqb host "::1" || equal_fold host "localhost"
        then Ok tt
        else Err (wrapf ErrInvalidScheme
                    ("http allowed only on loopback (127.0.0.1/localhost), got host " +:+ quote host))
      else if mem scheme never_allowed then
        Err (wrapf ErrInvalidScheme
               ("scheme " +:+ quote scheme +:+ " is never allowed as a redirect_uri"))
      else if has_char "." scheme then Ok tt
      else Err (wrapf ErrInvalidScheme
                  ("scheme " +:+ quote scheme +:+ " is not an allowed redirect_uri scheme"))
  end.

(** pkg/originallow.go *)
Definition IsOriginAllowed (target : string) (allowedBases : list string) : bool :=
  if String.eqb target "" then false
  else match url_parse target with
       | inl _ => false
       | inr t =>
           existsb (fun raw =>
             if String.eqb raw "" then false
             else match url_parse raw with
                  | inl _ => false
                  | inr base => equal_fold t.(Scheme) base.(Scheme) && equal_fold t.(Host) base.(Host)
                  end) allowedBases
       end.
End netsafety.

(** ** Facts *)
Module NetFacts.

(** The IPv4 blocks no fetch may reach, as intervals of 32-bit addresses:
    0/8, 10/8, 100.64/10, 127/8, 169.254/16, 172.16/12, 192.168/16, 224/4 and
    the broadcast address. *)
Definition ipv4 (a b c d : Z) : Z := ((a * 256 + b) * 256 + c) * 256 + d.

Definition reserved_v4 : list (Z * Z) :=
  [(ipv4 0 0 0 0, ipv4 0 255 255 255); (ipv4 10 0 0 0, ipv4 10 255 255 255);
   (ipv4 100 64 0 0, ipv4 100 127 255 255); (ipv4 127 0 0 0, ipv4 127 255 255 255);
   (ipv4 169 254 0 0, ipv4 169 254 255 255); (ipv4 172 16 0 0, ipv4 172 31 255 255);
   (ipv4 192 168 0 0, ipv4 192 168 255 255); (ipv4 224 0 0 0, ipv4 239 255 255 255);
   (ipv4 255 255 255 255, ipv4 255 255 255 255)].

Definition reserved (x : Z) : Prop := exists lo hi, (lo, hi) ∈ reserved_v4 /\ lo <= x <= hi.

Lemma forall_byte (P : Z -> bool) :
  forallb P (map Z.of_nat (seq 0 256)) = true -> forall x, 0 <= x < 256 -> P x = true.
Proof.
  intros Hall x Hx. rewrite forallb_forall in Hall. apply Hall, in_map_iff.
  exists (Z.to_nat x). split; [lia|]. apply in_seq. lia.
Qed.

(** The masks the code tests, as intervals. *)
Lemma mask_range (m v lo hi : Z) :
  forallb (fun x => Bool.eqb (Z.land x m =? v) ((lo <=? x) && (x <=? hi))) (map Z.of_nat (seq 0 256)) = true ->
  forall x, 0 <= x < 256 -> Z.land x m = v <-> lo <= x <= hi.
Proof.
  intros Hall x Hx. pose proof (forall_byte _ Hall x Hx) as Hb. simpl in Hb.
  apply eqb_prop in Hb. rewrite <-Z.eqb_eq, Hb, andb_true_iff, !Z.leb_le. done.
Qed.

Lemma mask_cgnat x : 0 <= x < 256 -> Z.land x 192 = 64 <-> 64 <= x <= 127.
Proof. apply mask_range. vm_compute. reflexivity. Qed.
Lemma mask_private x : 0 <= x < 256 -> Z.land x 240 = 16 <-> 16 <= x <= 31.
Proof. apply mask_range. vm_compute. reflexivity. Qed.
Lemma mask_multicast x : 0 <= x < 256 -> Z.land x 240 = 224 <-> 224 <= x <= 239.
Proof. apply mask_range. vm_compute. reflexivity. Qed.

Lemma reserved_iff x :
  reserved x <-> Exists (fun r => r.1 <= x <= r.2) reserved_v4.
Proof.
  unfold reserved. rewrite Exists_exists. split.
  - intros (lo & hi & Hin & Hx). by exists (lo, hi).
  - intros ([lo hi] & Hin & Hx). by exists lo, hi.
Qed.

(** The refusals of [isPublicIP] on four bytes, in one disjunction. *)
Definition refused_v4 (a b c d : Z) : bool :=
  (a =? 127) || (Z.land a 240 =? 224) || ((a =? 0) && (b =? 0) && (c =? 0) && (d =? 0))
  || ((a =? 169) && (b =? 254)) || ((a =? 224) && (b =? 0) && (c =? 0))
  || ((a =? 10) || ((a =? 172) && (Z.land b 240 =? 16)) || ((a =? 192) && (b =? 168)))
  || ((a =? 100) && (Z.land b 192 =? 64)) || (a =? 0)
  || ((a =? 255) && (b =? 255) && (c =? 255) && (d =? 255)).

Lemma list4_eqb (a b c d a' b' c' d' : Z) :
  bool_decide ([a; b; c; d] = [a'; b'; c'; d']) = (a =? a') && (b =? b') && (c =? c') && (d =? d').
Proof.
  apply eq_iff_eq_true. rewrite bool_decide_eq_true, !andb_true_iff, !Z.eqb_eq.
  split; [intros [= -> -> -> ->]; done | by intros [[[-> ->] ->] ->]].
Qed.

Lemma isPublicIP_refused a b c d : isPublicIP [a; b; c; d] = negb (refused_v4 a b c d).
Proof.
  unfold isPublicIP, IsLoopback, IsMulticast, IsUnspecified, IsLinkLocalUnicast,
    IsLinkLocalMulticast, IsPrivate, To4, byte_at, refused_v4. cbn [nth List.length Nat.eqb].
  rewrite !list4_eqb.
  generalize (a =? 0) (a =? 127) (Z.land a 240 =? 224)
    ((a =? 10) || ((a =? 172) && (Z.land b 240 =? 16)) || ((a =? 192) && (b =? 168)))
    ((a =? 100) && (Z.land b 192 =? 64)) ((a =? 169) && (b =? 254))
    ((a =? 224) && (b =? 0) && (c =? 0)) ((a =? 0) && (b =? 0) && (c =? 0) && (d =? 0))
    ((a =? 255) && (b =? 255) && (c =? 255) && (d =? 255)).
  by intros [] [] [] [] [] [] [] [] [].
Qed.

(** An IPv4 address is fetched from exactly when it lies outside the reserved
    blocks. *)
Lemma isPublicIP_v4 a b c d :
  0 <= a < 256 -> 0 <= b < 256 -> 0 <= c < 256 -> 0 <= d < 256 ->
  isPublicIP [a; b; c; d] = true <-> ~ reserved (ipv4 a b c d).
Proof.
  intros Ha Hb Hc Hd. rewrite reserved_iff, isPublicIP_refused. unfold reserved_v4, refused_v4.
  pose proof (mask_cgnat b Hb) as Hm1. pose proof (mask_private b Hb) as Hm2.
  pose proof (mask_multicast a Ha) as Hm3.
  repeat rewrite Exists_cons. rewrite Exists_nil. unfold ipv4. cbn [fst snd].
  rewrite negb_true_iff, <-not_true_iff_false.
  rewrite !orb_true_iff, !andb_true_iff, !Z.eqb_eq, Hm1, Hm2, Hm3. clear Hm1 Hm2 Hm3.
  set (x := ((a * 256 + b) * 256 + c) * 256 + d).
  assert (x = ((a * 256 + b) * 256 + c) * 256 + d) as Hx by done. clearbody x.
  assert (E0 : 0 <= x <= 16777215 <-> a = 0) by (clear - Hx Ha Hb Hc Hd; lia).
  assert (E1 : 167772160 <= x <= 184549375 <-> a = 10) by (clear - Hx Ha Hb Hc Hd; lia).
  assert (E2 : 1681915904 <= x <= 1686110207 <-> a = 100 /\ 64 <= b <= 127) by (clear - Hx Ha Hb Hc Hd; lia).
  assert (E3 : 2130706432 <= x <= 2147483647 <-> a = 127) by (clear - Hx Ha Hb Hc Hd; lia).
  assert (E4 : 2851995648 <= x <= 2852061183 <-> a = 169 /\ b = 254) by (clear - Hx Ha Hb Hc Hd; lia).
  assert (E5 : 2886729728 <= x <= 2887778303 <-> a = 172 /\ 16 <= b <= 31) by (clear - Hx Ha Hb Hc Hd; lia).
  assert (E6 : 3232235520 <= x <= 3232301055 <-> a = 192 /\ b = 168) by (clear - Hx Ha Hb Hc Hd; lia).
  assert (E7 : 3758096384 <= x <= 4026531839 <-> 224 <= a <= 239) by (clear - Hx Ha Hb Hc Hd; lia).
  assert (E8 : 4294967295 <= x <= 4294967295 <-> a = 255 /\ b = 255 /\ c = 255 /\ d = 255).
  { clear - Hx Ha Hb Hc Hd. split; [|lia]. intros ?. assert (a = 255) by lia. assert (b = 255) by lia.
    assert (c = 255) by lia. lia. }
  assert (E9 : a = 224 -> 224 <= a <= 239) by (clear - Hx Ha Hb Hc Hd; lia). clear Hx Ha Hb Hc Hd.
  cbn in *. tauto.
Qed.

Section urls.
Context `{Platform} `{NetLib}.

#[export] Instance all_public_read_only host ips : ReadOnly (all_public host ips).
Proof. induction ips; simpl; solve_preserves ltac:(eassumption). Qed.

#[export] Instance ValidatePublicHTTPSURL_read_only raw : ReadOnly (ValidatePublicHTTPSURL raw).
Proof. unfold ValidatePublicHTTPSURL. solve_preserves ltac:(apply _). Qed.

Lemma forallb_Forall_true {A} (P : A -> bool) l :
  forallb P l = true <-> Forall (fun x => P x = true) l.
Proof. by rewrite forallb_forall, Forall_forall; setoid_rewrite list_elem_of_In. Qed.

Lemma wp_all_public host ips env st :
  wp (all_public host ips) (fun r st' => is_ok r = forallb isPublicIP ips /\ st' = st) env st.
Proof.
  induction ips as [|ip ips IH]; simpl; [by wp_steps|]. wp_step. apply wp_guard; intros ->.
  - exact IH.
  - done.
Qed.

(** What is checked of the host of an https URL. *)
Definition host_public (host : string) (env : Env) (db : DB) : Prop :=
  match ParseIP host with
  | Some ip => isPublicIP ip = true
  | None => equal_fold host "localhost" = false /\
      exists ips, LookupIP host env 0%nat db = Ok ips /\ ips <> [] /\
        Forall (fun ip => isPublicIP ip = true) ips
  end.

(** A URL is fetched exactly when it is an https URL with a host that is a
    public address, or a name other than localhost all of whose addresses, at
    least one, are public ([host_public]; for IPv4, [isPublicIP_v4]).  The check changes nothing. *)
Theorem fetched_urls (raw : string) (env : Env) (db : DB) :
  let '(r, db') := run (ValidatePublicHTTPSURL raw) env db in
  db' = db /\
  (r = Ok tt <-> exists u, url_Parse raw = Some u /\ equal_fold u.(Scheme) "https" = true /\
     Hostname u <> "" /\ host_public (Hostname u) env db).
Proof.
  destruct (run _ _ _) as [r db'] eqn:Hr. split.
  { symmetry. eapply (run_preserves eq); [|exact Hr]. apply _. }
  assert (Hwp : wp (ValidatePublicHTTPSURL raw)
    (fun r _ => is_ok r = true <-> exists u, url_Parse raw = Some u /\
       equal_fold u.(Scheme) "https" = true /\ Hostname u <> "" /\ host_public (Hostname u) env db)
    env (mkState db 0)).
  { unfold ValidatePublicHTTPSURL, url_parse. destruct (url_Parse raw) as [u|]; [|wp_steps; naive_solver].
    do 2 wp_step; [|wp_simpl; split; [done|]; intros (u' & [= <-] & ? & _); congruence].
    wp_simpl. do 2 wp_step; bool_simpl; [|wp_simpl; split; [done|]; intros (u' & [= <-] & ? & ? & _); done].
    wp_simpl.
    assert (Hgoal : forall r' : result unit, (is_ok r' = true <-> host_public (Hostname u) env db) ->
      is_ok r' = true <-> exists u0, Some u = Some u0 /\ equal_fold u0.(Scheme) "https" = true /\
        Hostname u0 <> "" /\ host_public (Hostname u0) env db) by naive_solver.
    unfold host_public in *. destruct (ParseIP (Hostname u)) as [ip|].
    - apply wp_guard; intros Hp; refine (Hgoal _ _); by rewrite Hp.
    - wp_step. apply wp_guard; intros Hl; bool_simpl.
      2: { refine (Hgoal (Err (EOther "")) _). simpl. split; [done|]. intros [Hl' _]. congruence. }
      wp_simpl. do 2 wp_step. apply wp_ask. simpl.
      destruct (LookupIP _ env 0%nat db) as [ips|e]; wp_simpl.
      2: { refine (Hgoal (Err (EOther "")) _). split; [done|]. by intros (_ & ips & [=] & _). }
      wp_step. destruct ips as [|ip ips].
      + apply wp_guard; [done|]. intros _. refine (Hgoal (Err (EOther "")) _). split; [done|].
        by intros (_ & ips & [= <-] & [] & _).
      + apply wp_guard; [|done]. intros _. eapply wp_mono; [|apply wp_all_public].
        intros r' _ [Hr' _]. refine (Hgoal _ _). rewrite Hr', forallb_Forall_true. split.
        * intros Hall. split; [done|]. by exists (ip :: ips).
        * by intros (_ & ips' & [= <-] & _ & Hall). }
  destruct (wp_run _ _ _ _ Hwp _ _ Hr) as [_ Hok]. rewrite <-Hok. by destruct r as [[]|].
Qed.

(** What a redirect URI may be: an https URL with a host, an http URL of the
    loopback, or a scheme in reverse-DNS form. *)
Definition loopback_name (host : string) : Prop :=
  host = "127.0.0.1" \/ host = "::1" \/ equal_fold host "localhost" = true.

Definition redirect_allowed (u : URL) : Prop :=
  let scheme := to_lower u.(Scheme) in
  (scheme = "https" /\ u.(Host) <> "") \/ (scheme = "http" /\ loopback_name (Hostname u)) \/
  has_char "." scheme = true.

Lemma redirect_scheme_iff raw :
  ValidateRedirectURIScheme raw = Ok tt <-> exists u, url_Parse raw = Some u /\ redirect_allowed u.
Proof.
  unfold ValidateRedirectURIScheme, url_parse, redirect_allowed, loopback_name. cbv zeta.
  destruct (url_Parse raw) as [u|]; [|naive_solver].
  transitivity ((to_lower (Scheme u) = "https" /\ Host u <> "") \/
     (to_lower (Scheme u) = "http" /\ (Hostname u = "127.0.0.1" \/ Hostname u = "::1" \/
       equal_fold (Hostname u) "localhost" = true)) \/ has_char "." (to_lower (Scheme u)) = true);
    [|naive_solver].
  generalize (to_lower (Scheme u)) as sch. intros sch.
  destruct (String.eqb_spec sch ""); [subst; naive_solver|].
  destruct (String.eqb_spec sch "https"); [subst|].
  { destruct (String.eqb_spec (Host u) ""); naive_solver. }
  destruct (String.eqb_spec sch "http"); [subst|].
  { rewrite <-!String.eqb_eq. destruct (String.eqb (Hostname u) "127.0.0.1"),
      (String.eqb (Hostname u) "::1"), (equal_fold (Hostname u) "localhost"); naive_solver. }
  destruct (mem sch never_allowed) eqn:Hm.
  { assert (has_char "." sch = false) as ->; [|naive_solver].
    apply mem_iff in Hm. unfold never_allowed in Hm. rewrite !elem_of_cons, elem_of_nil in Hm.
    by destruct_or! Hm; subst. }
  destruct (has_char "." sch); naive_solver.
Qed.

(** A redirect URI is registered exactly when it is one of these; scripts, data
    and files never are. *)
Theorem redirect_schemes (raw : string) :
  (ValidateRedirectURIScheme raw = Ok tt <-> exists u, url_Parse raw = Some u /\ redirect_allowed u) /\
  (forall u, url_Parse raw = Some u -> to_lower u.(Scheme) ∈ never_allowed ->
     ValidateRedirectURIScheme raw <> Ok tt).
Proof.
  split; [apply redirect_scheme_iff|]. intros u Hu Hn. rewrite redirect_scheme_iff.
  intros (u' & Hu' & Ha). simplify_eq. unfold redirect_allowed in Ha. cbv zeta in Ha.
  unfold never_allowed in Hn. revert Hn Ha. generalize (to_lower (Scheme u)). intros sch.
  rewrite !elem_of_cons, elem_of_nil. intros Hs Ha. by destruct_or! Hs; subst; destruct_or! Ha; destruct_and? Ha.
Qed.
End urls.
End NetFacts.
