(* ===== verification/Crypto.v ===== *)
(** * crypto/token.go: opaque tokens and their hashes

    [GenerateOpaqueToken], [HashToken] and [GenerateRandomString], with the
    facts the token services rely on: the raw token determines the random
    bytes, and what is stored is the digest of what is handed out. *)
From S2P Require Import Prelude.
From S2P Require Import Errors.
From S2P Require Import GoLib.
From S2P Require Import Model.
From S2P Require Import Exec.
From Stdlib Require Import Ascii.
Local Open Scope Z_scope.

Definition defaultTokenBytes : nat := 32.

Definition HashToken (token : string) : string := hex_encode (sha256 (bytes_of token)).

(** [fmt.Errorf("...: %w", err)] *)
Definition wrap_error (prefix : string) (e : error) : error :=
  EOther (prefix +:+ error_string e).

Definition GenerateOpaqueToken : M (string * string) :=
  b <- map_err (rand_read defaultTokenBytes) (wrap_error "failed to generate token: ") ;;
  let raw := base64_raw_url b in
  let hash := HashToken raw in
  ret (raw, hash).

Definition GenerateRandomString (byteLen : nat) : M string :=
  b <- map_err (rand_read byteLen) (wrap_error "failed to generate random string: ") ;;
  ret (base64_raw_url b).

(** ** Decoding, to state that the encoding loses nothing *)

Definition b64_val (c : ascii) : option Z :=
  let n := Z.of_nat (nat_of_ascii c) in
  if (65 <=? n) && (n <=? 90) then Some (n - 65)
  else if (97 <=? n) && (n <=? 122) then Some (n - 71)
  else if (48 <=? n) && (n <=? 57) then Some (n + 4)
  else if n =? 45 then Some 62
  else if n =? 95 then Some 63
  else None.

Fixpoint b64_decode (l : list ascii) : option (list Z) :=
  match l with
  | w :: x :: y :: z :: l' =>
      match b64_val w, b64_val x, b64_val y, b64_val z, b64_decode l' with
      | Some w, Some x, Some y, Some z, Some bs =>
          Some ((4 * w + x / 16) :: (16 * (x mod 16) + y / 4) :: (64 * (y mod 4) + z) :: bs)
      | _, _, _, _, _ => None
      end
  | [w; x; y] =>
      match b64_val w, b64_val x, b64_val y with
      | Some w, Some x, Some y => Some [4 * w + x / 16; 16 * (x mod 16) + y / 4]
      | _, _, _ => None
      end
  | [w; x] =>
      match b64_val w, b64_val x with
      | Some w, Some x => Some [4 * w + x / 16]
      | _, _ => None
      end
  | [] => Some []
  | _ => None
  end.

Definition base64_raw_url_decode (s : string) : option (list Z) :=
  b64_decode (String.list_ascii_of_string s).

Definition is_byte (b : Z) : Prop := 0 <= b < 256.

(** ** Lemmas *)

(** A property of the integers below a bound, checked by evaluation. *)
Lemma forall_below (n : nat) (P : Z -> bool) :
  forallb P (map Z.of_nat (seq 0 n)) = true ->
  forall x, 0 <= x < Z.of_nat n -> P x = true.
Proof.
  intros Hall x Hx. rewrite forallb_forall in Hall. apply Hall, in_map_iff.
  exists (Z.to_nat x). split; [lia|]. apply in_seq. lia.
Qed.

Lemma b64_val_char x : 0 <= x < 64 -> b64_val (b64_char x) = Some x.
Proof.
  intros Hx.
  assert (Hb : (match b64_val (b64_char x) with Some y => y =? x | None => false end) = true).
  { revert x Hx. apply (forall_below 64). vm_compute. reflexivity. }
  destruct (b64_val _); [|done]. apply Z.eqb_eq in Hb. by subst.
Qed.

Lemma shiftr_land_split (k x : Z) : 0 <= k -> 0 <= x -> x = 2 ^ k * Z.shiftr x k + Z.land x (Z.ones k).
Proof.
  intros Hk Hx. rewrite Z.shiftr_div_pow2, Z.land_ones by lia.
  apply Z.div_mod. lia.
Qed.

Lemma land_ones_bounds (x k : Z) : 0 <= k -> 0 <= Z.land x (Z.ones k) < 2 ^ k.
Proof. intros Hk. rewrite Z.land_ones by lia. apply Z.mod_pos_bound. lia. Qed.

(** The bit fields of three bytes, with their ranges. *)
Lemma byte_fields a b c :
  is_byte a -> is_byte b -> is_byte c ->
  (a = 4 * Z.shiftr a 2 + Z.land a 3 /\ 0 <= Z.shiftr a 2 < 64 /\ 0 <= Z.land a 3 < 4) /\
  (b = 16 * Z.shiftr b 4 + Z.land b 15 /\ 0 <= Z.shiftr b 4 < 16 /\ 0 <= Z.land b 15 < 16) /\
  (c = 64 * Z.shiftr c 6 + Z.land c 63 /\ 0 <= Z.shiftr c 6 < 4 /\ 0 <= Z.land c 63 < 64).
Proof.
  intros Ha Hb Hc. unfold is_byte in *.
  pose proof (shiftr_land_split 2 a ltac:(lia) ltac:(lia)).
  pose proof (shiftr_land_split 4 b ltac:(lia) ltac:(lia)).
  pose proof (shiftr_land_split 6 c ltac:(lia) ltac:(lia)).
  pose proof (land_ones_bounds a 2 ltac:(lia)).
  pose proof (land_ones_bounds b 4 ltac:(lia)).
  pose proof (land_ones_bounds c 6 ltac:(lia)).
  change (Z.ones 2) with 3 in *. change (Z.ones 4) with 15 in *.
  change (Z.ones 6) with 63 in *. lia.
Qed.

(** The second and third characters of a group pack two bit fields. *)
Lemma pack_second a b :
  is_byte a -> is_byte b ->
  Z.lor (Z.shiftl (Z.land a 3) 4) (Z.shiftr b 4) = 16 * Z.land a 3 + Z.shiftr b 4.
Proof.
  intros Ha Hb. pose proof (byte_fields a b 0 Ha Hb ltac:(done)) as ((_ & _ & Hu) & (_ & Hv & _) & _).
  revert Hu Hv. generalize (Z.land a 3) (Z.shiftr b 4). intros u v Hu Hv.
  assert (Hc : forallb (fun u => forallb (fun v => Z.lor (Z.shiftl u 4) v =? 16 * u + v)
                 (map Z.of_nat (seq 0 16))) (map Z.of_nat (seq 0 4)) = true) by (vm_compute; reflexivity).
  pose proof (forall_below 4 _ Hc u ltac:(lia)) as Hc'. cbv beta in Hc'.
  pose proof (forall_below 16 _ Hc' v ltac:(lia)) as He. by apply Z.eqb_eq in He.
Qed.

Lemma pack_third b c :
  is_byte b -> is_byte c ->
  Z.lor (Z.shiftl (Z.land b 15) 2) (Z.shiftr c 6) = 4 * Z.land b 15 + Z.shiftr c 6.
Proof.
  intros Hb Hc. pose proof (byte_fields 0 b c ltac:(done) Hb Hc) as (_ & (_ & _ & Hu) & (_ & Hv & _)).
  revert Hu Hv. generalize (Z.land b 15) (Z.shiftr c 6). intros u v Hu Hv.
  assert (Hk : forallb (fun u => forallb (fun v => Z.lor (Z.shiftl u 2) v =? 4 * u + v)
                 (map Z.of_nat (seq 0 4))) (map Z.of_nat (seq 0 16)) = true) by (vm_compute; reflexivity).
  pose proof (forall_below 16 _ Hk u ltac:(lia)) as Hk'. cbv beta in Hk'.
  pose proof (forall_below 4 _ Hk' v ltac:(lia)) as He. by apply Z.eqb_eq in He.
Qed.

(** The values a group of three bytes is decoded to. *)
Lemma group_values u v w x y z :
  0 <= v < 4 -> 0 <= w < 16 -> 0 <= x < 16 -> 0 <= y < 4 ->
  4 * u + (16 * v + w) / 16 = 4 * u + v /\
  16 * ((16 * v + w) mod 16) + (4 * x + y) / 4 = 16 * w + x /\
  64 * ((4 * x + y) mod 4) + z = 64 * y + z.
Proof.
  intros Hv Hw Hx Hy.
  rewrite (Z.mul_comm 16 v), (Z.mul_comm 4 x), !Z.div_add_l by lia.
  rewrite !(Z.add_comm (_ * _) w), !(Z.add_comm (_ * _) y), !Z.mod_add, !Z.mod_small by lia.
  rewrite !Z.div_small by lia. lia.
Qed.

Lemma b64_decode_encode l : Forall is_byte l -> b64_decode (b64_encode l) = Some l.
Proof.
  assert (Hlen : forall n l, (List.length l <= n)%nat -> Forall is_byte l ->
            b64_decode (b64_encode l) = Some l); [|intros; by eapply Hlen].
  intros n. induction n as [|n IH]; intros [|a [|b [|c l']]] Hn HF; cbn [List.length] in *; try lia; try done;
    decompose_Forall_hyps.
  - pose proof (byte_fields a 0 0 ltac:(done) ltac:(done) ltac:(done)) as ((Ha & ? & ?) & _).
    cbn [b64_encode b64_decode].
    rewrite (Z.shiftl_mul_pow2 (Z.land a 3)) by lia. change (2 ^ 4) with 16.
    rewrite !b64_val_char by lia. rewrite Z.div_mul by lia. do 2 f_equal. by symmetry.
  - pose proof (byte_fields a b 0 ltac:(done) ltac:(done) ltac:(done)) as ((Ha & ? & ?) & (Hb & ? & ?) & _).
    pose proof (group_values (Z.shiftr a 2) (Z.land a 3) (Z.shiftr b 4) (Z.land b 15) 0 0) as (G1 & G2 & G3); [lia..|].
    cbn [b64_encode b64_decode]. rewrite pack_second by done.
    rewrite (Z.shiftl_mul_pow2 (Z.land b 15)) by lia. change (2 ^ 2) with 4.
    rewrite !b64_val_char by lia.
    rewrite (Z.mul_comm (Z.land b 15) 4), <-(Z.add_0_r (4 * Z.land b 15)).
    rewrite G1, G2. by rewrite <-Ha, <-Hb.
  - pose proof (byte_fields a b c ltac:(done) ltac:(done) ltac:(done))
      as ((Ha & ? & ?) & (Hb & ? & ?) & (Hc & ? & ?)).
    pose proof (group_values (Z.shiftr a 2) (Z.land a 3) (Z.shiftr b 4) (Z.land b 15)
                  (Z.shiftr c 6) (Z.land c 63)) as (G1 & G2 & G3); [lia..|].
    cbn [b64_encode b64_decode]. rewrite pack_second, pack_third by done.
    rewrite !b64_val_char, IH by (try done; lia).
    rewrite G1, G2, G3. by rewrite <-Ha, <-Hb, <-Hc.
Qed.

Lemma base64_raw_url_roundtrip l :
  Forall is_byte l -> base64_raw_url_decode (base64_raw_url l) = Some l.
Proof.
  intros Hl. unfold base64_raw_url_decode, base64_raw_url.
  rewrite String.list_ascii_of_string_of_list_ascii. by apply b64_decode_encode.
Qed.

Lemma base64_raw_url_inj l l' :
  Forall is_byte l -> Forall is_byte l' -> base64_raw_url l = base64_raw_url l' -> l = l'.
Proof.
  intros Hl Hl' He. apply base64_raw_url_roundtrip in Hl, Hl'. congruence.
Qed.

Lemma rand_bytes_are_bytes (f : nat -> Z) n :
  Forall is_byte (map (fun i => f i mod 256) (seq 0 n)).
Proof.
  apply Forall_forall. intros x Hx. apply list_elem_of_In, in_map_iff in Hx.
  destruct Hx as (i & <- & _). apply Z.mod_pos_bound. lia.
Qed.

(** [GenerateOpaqueToken] returns a token and the digest of that token, and
    leaves the database alone. *)
Lemma wp_GenerateOpaqueToken env st (Q : result (string * string) -> State -> Prop) :
  (forall e, Q (Err e) (bump st)) ->
  (forall raw, env.(env_fail) st.(st_step) = false ->
     raw = base64_raw_url (map (fun i => env.(env_rand) st.(st_step) i mod 256) (seq 0 32)) ->
     Q (Ok (raw, HashToken raw)) (bump st)) ->
  wp GenerateOpaqueToken Q env st.
Proof.
  intros He Hok. unfold GenerateOpaqueToken. apply wp_bind, wp_map_err, wp_rand_read.
  - intros e _. apply He.
  - intros Hf. apply wp_ret. by apply Hok.
Qed.

Lemma wp_GenerateRandomString env st n (Q : result string -> State -> Prop) :
  (forall e, Q (Err e) (bump st)) ->
  (forall raw, env.(env_fail) st.(st_step) = false -> Q (Ok raw) (bump st)) ->
  wp (GenerateRandomString n) Q env st.
Proof.
  intros He Hok. unfold GenerateRandomString. apply wp_bind, wp_map_err, wp_rand_read.
  - intros e _. apply He.
  - intros Hf. apply wp_ret. by apply Hok.
Qed.

Lemma base64_raw_url_nonempty f n :
  base64_raw_url (map (fun i => f i mod 256) (seq 0 (S n))) <> "".
Proof.
  intros He. pose proof (base64_raw_url_roundtrip _ (rand_bytes_are_bytes f (S n))) as Hr.
  rewrite He in Hr. discriminate Hr.
Qed.

(** A random string is never empty. *)
Lemma wp_GenerateRandomString_nonempty env st n (Q : result string -> State -> Prop) :
  (forall e, Q (Err e) (bump st)) ->
  (forall raw, raw <> "" -> Q (Ok raw) (bump st)) ->
  wp (GenerateRandomString (S n)) Q env st.
Proof.
  intros He Hok. unfold GenerateRandomString. apply wp_bind, wp_map_err, wp_rand_read.
  - intros e _. apply He.
  - intros Hf. apply wp_ret. apply Hok, base64_raw_url_nonempty.
Qed.

(** Digests are not computed by proof search. *)
#[global] Opaque HashToken base64_raw_url.
