(* ===== verification/GoEnc.v ===== *)
(** * The encodings and digests of the standard library the source uses

    [encoding/base64] in its four alphabets, [encoding/hex] decoding,
    [crypto/md5], [crypto/sha1], the padding-free round trips, and the decimal
    printer and scanner of package fmt. *)
From S2P Require Import Prelude.
From S2P Require Import Errors.
From S2P Require Import GoLib.
From S2P Require Import GoNet.
From S2P Require Import Model.
From S2P Require Import Exec.
From S2P Require Import Crypto.
From Stdlib Require Import Ascii.
Local Open Scope Z_scope.

(** ** encoding/base64 *)

(** The two alphabets differ in the characters of 62 and 63. *)
Definition std_of_url (c : ascii) : ascii :=
  if Ascii.eqb c "-" then "+"%char else if Ascii.eqb c "_" then "/"%char else c.

Definition url_of_std (c : ascii) : option ascii :=
  if Ascii.eqb c "+" then Some "-"%char
  else if Ascii.eqb c "/" then Some "_"%char
  else if Ascii.eqb c "-" || Ascii.eqb c "_" then None
  else Some c.

Definition base64_raw_std (l : list Z) : string :=
  String.string_of_list_ascii (map std_of_url (b64_encode l)).

Record b64 := mkB64 { b64_std : bool; b64_padded : bool }.

Definition StdEncoding : b64 := mkB64 true true.
Definition RawStdEncoding : b64 := mkB64 true false.
Definition URLEncoding : b64 := mkB64 false true.
Definition RawURLEncoding : b64 := mkB64 false false.

Definition is_newline (c : ascii) : bool := (code c =? 10) || (code c =? 13).

(** Up to two padding characters end a text whose length is a multiple of 4. *)
Definition strip_padding (l : list ascii) : option (list ascii) :=
  if negb (Nat.eqb (List.length l mod 4) 0) then None
  else Some match rev l with
       | "="%char :: "="%char :: r => rev r
       | "="%char :: r => rev r
       | _ => l
       end.

(** [enc.DecodeString(s)]: carriage returns and newlines are skipped. *)
Definition DecodeString (enc : b64) (s : string) : option (list Z) :=
  let l := List.filter (fun c => negb (is_newline c)) (String.list_ascii_of_string s) in
  l ← (if enc.(b64_padded) then strip_padding l else Some l);
  l ← (if enc.(b64_std) then mapM url_of_std l else Some l);
  b64_decode l.

Lemma url_of_std_of_url x : 0 <= x < 64 -> url_of_std (std_of_url (b64_char x)) = Some (b64_char x).
Proof.
  intros Hx.
  assert (Hb : match url_of_std (std_of_url (b64_char x)) with
               | Some c => Ascii.eqb c (b64_char x) | None => false end = true).
  { revert x Hx. apply (forall_below 64). vm_compute. reflexivity. }
  destruct (url_of_std _); [|done]. apply Ascii.eqb_eq in Hb. by subst.
Qed.

(** The characters of an encoding are those of values below 64. *)
Lemma b64_encode_chars l :
  Forall is_byte l -> Forall (fun c => exists x, 0 <= x < 64 /\ c = b64_char x) (b64_encode l).
Proof.
  assert (Hlen : forall n l, (List.length l <= n)%nat -> Forall is_byte l ->
            Forall (fun c => exists x, 0 <= x < 64 /\ c = b64_char x) (b64_encode l));
    [|intros; by eapply Hlen].
  intros n. induction n as [|n IH]; intros [|a [|b [|c l']]] Hn HF; cbn [List.length] in *; try lia; try done;
    decompose_Forall_hyps; cbn [b64_encode].
  - pose proof (byte_fields a 0 0 ltac:(done) ltac:(done) ltac:(done)) as ((_ & ? & ?) & _).
    repeat constructor; eexists; (split; [|reflexivity]); [lia|]. rewrite Z.shiftl_mul_pow2 by lia. lia.
  - pose proof (byte_fields a b 0 ltac:(done) ltac:(done) ltac:(done)) as ((_ & ? & ?) & (_ & ? & ?) & _).
    rewrite pack_second by done. repeat constructor; eexists; (split; [|reflexivity]); try lia.
    rewrite Z.shiftl_mul_pow2 by lia. lia.
  - pose proof (byte_fields a b c ltac:(done) ltac:(done) ltac:(done))
      as ((_ & ? & ?) & (_ & ? & ?) & (_ & ? & ?)).
    rewrite pack_second, pack_third by done.
    do 4 (constructor; [eexists; split; [|reflexivity]; lia|]). apply IH; [lia | done].
Qed.

Lemma mapM_url_of_std l :
  Forall (fun c => exists x, 0 <= x < 64 /\ c = b64_char x) l ->
  mapM url_of_std (map std_of_url l) = Some l.
Proof.
  induction 1 as [|c l (x & Hx & ->) Hl IH]; [done|]. simpl. rewrite url_of_std_of_url by done.
  simpl. by rewrite IH.
Qed.

Lemma no_newline_std x : 0 <= x < 64 -> is_newline (std_of_url (b64_char x)) = false.
Proof.
  intros Hx. apply negb_true_iff. revert x Hx. apply (forall_below 64). vm_compute. reflexivity.
Qed.

Lemma filter_id {A} (P : A -> bool) l : Forall (fun x => P x = true) l -> List.filter P l = l.
Proof. induction 1 as [|x l Hx Hl IH]; simpl; [done|]. by rewrite Hx, IH. Qed.

Lemma raw_std_roundtrip l :
  Forall is_byte l -> DecodeString RawStdEncoding (base64_raw_std l) = Some l.
Proof.
  intros Hl. unfold DecodeString, base64_raw_std. simpl.
  rewrite String.list_ascii_of_string_of_list_ascii.
  pose proof (b64_encode_chars l Hl) as Hc. rewrite filter_id.
  - simpl. rewrite mapM_url_of_std by done. simpl. by apply b64_decode_encode.
  - apply Forall_map. eapply Forall_impl; [exact Hc|]. intros c (x & Hx & ->).
    by rewrite no_newline_std.
Qed.

Example base64_samples :
  DecodeString StdEncoding "YTpi" = Some (bytes_of "a:b") /\
  DecodeString StdEncoding "YTo=" = Some (bytes_of "a:") /\
  DecodeString StdEncoding "YTo" = None /\ DecodeString RawURLEncoding "YTo" = Some (bytes_of "a:") /\
  DecodeString StdEncoding "+/+/" = DecodeString URLEncoding "-_-_" /\
  DecodeString StdEncoding "Y===" = None.
Proof. repeat split; vm_compute; reflexivity. Qed.

(** ** encoding/hex *)

Fixpoint hex_decode (s : string) : option (list Z) :=
  match s with
  | EmptyString => Some []
  | String a (String b r) =>
      match unhex a, unhex b with
      | Some x, Some y => cons (16 * x + y) <$> hex_decode r
      | _, _ => None
      end
  | _ => None
  end.

(** ** Decimal integers of package fmt *)

Fixpoint digits_of (fuel : nat) (n : Z) (acc : string) : string :=
  match fuel with
  | O => acc
  | S f =>
      let acc := String (ascii_of_nat (Z.to_nat (48 + n mod 10))) acc in
      if n <? 10 then acc else digits_of f (n / 10) acc
  end.

(** [%d] of a non-negative integer; its binary length bounds its digits. *)
Definition dec (n : Z) : string := digits_of (S (Z.to_nat (Z.log2 n))) n "".

(** The digits at the head of a text, and the rest. *)
Fixpoint take_dec (s : string) : string * string :=
  match s with
  | String c r => if is_digit c then let '(d, r') := take_dec r in (String c d, r') else ("", s)
  | EmptyString => ("", "")
  end.

Fixpoint skip_blank (s : string) : string :=
  match s with
  | String c r => if Ascii.eqb c " " || (code c =? 9) then skip_blank r else s
  | EmptyString => ""
  end.

(** [%d] into an unsigned integer of [bits] bits: the value and the rest. *)
Definition scan_uint (bits : Z) (s : string) : option (Z * string) :=
  let '(d, r) := take_dec (skip_blank s) in
  match unsigned_val d with
  | Some n => if n <? 2 ^ bits then Some (n, r) else None
  | None => None
  end.

(** [%d] into an [int]. *)
Definition scan_int (s : string) : option (Z * string) :=
  let '(neg, s') := match skip_blank s with
                    | String c r => if Ascii.eqb c "-" then (true, r)
                                    else if Ascii.eqb c "+" then (false, r) else (false, skip_blank s)
                    | EmptyString => (false, "")
                    end in
  let '(d, r) := take_dec s' in
  match unsigned_val d with
  | Some n =>
      let v := if neg then - n else n in
      if (int64_min <=? v) && (v <=? int64_max) then Some (v, r) else None
  | None => None
  end.

(** A literal of the format. *)
Definition scan_lit (p s : string) : option string :=
  if has_prefix p s then Some (str_drop (str_len p) s) else None.

(** ** Lemmas on decimals *)

Lemma digit_char d : 0 <= d < 10 ->
  digit_val (ascii_of_nat (Z.to_nat (48 + d))) = Some d /\
  is_digit (ascii_of_nat (Z.to_nat (48 + d))) = true.
Proof.
  intros Hd. unfold digit_val, is_digit, in_range, code.
  rewrite Ascii.nat_ascii_embedding by lia.
  destruct (_ && _) eqn:E; [|apply andb_false_iff in E as [E|E]; apply Nat.leb_gt in E; lia].
  split; [f_equal; lia|]. apply andb_true_iff. rewrite !Z.leb_le. lia.
Qed.

Definition ends (s : string) : Prop :=
  match s with EmptyString => True | String c _ => is_digit c = false end.

Lemma str_app_cons c (a b : string) : String c a +:+ b = String c (a +:+ b).
Proof. done. Qed.

Lemma has_prefix_drop p s : has_prefix p s = true -> s = p +:+ str_drop (str_len p) s.
Proof.
  revert s. induction p as [|a p IH]; intros s; [done|]. destruct s as [|b s]; simpl; [done|].
  intros [->%Ascii.eqb_eq Hp]%andb_true_iff. rewrite str_app_cons. f_equal. by apply IH.
Qed.

Lemma scan_lit_iff p s r : scan_lit p s = Some r -> s = p +:+ r.
Proof. unfold scan_lit. destruct (has_prefix p s) eqn:Hp; [|done]. intros [= <-]. by apply has_prefix_drop. Qed.
Lemma str_app_nil (b : string) : "" +:+ b = b.
Proof. done. Qed.
#[export] Hint Rewrite str_app_cons str_app_nil : orion.

Ltac str_simpl := simpl; autorewrite with orion; simpl.

Lemma take_dec_app d s :
  all_chars is_digit d = true -> ends s -> take_dec (d +:+ s) = (d, s).
Proof.
  induction d as [|c d IH]; str_simpl; intros Hd Hs.
  - destruct s as [|c s]; [done|]. simpl in *. by rewrite Hs.
  - apply andb_true_iff in Hd as [-> Hd]. by rewrite IH.
Qed.


Lemma string_app_assoc (a b c : string) : (a +:+ b) +:+ c = a +:+ (b +:+ c).
Proof. induction a as [|x a IH]; [done|]. rewrite !str_app_cons. by rewrite IH. Qed.

Lemma digits_of_append fuel n acc : digits_of fuel n acc = digits_of fuel n "" +:+ acc.
Proof.
  revert n acc. induction fuel as [|f IH]; intros n acc; simpl; [done|].
  destruct (n <? 10); [done|]. rewrite IH, (IH _ (String _ "")). by rewrite string_app_assoc.
Qed.

Lemma digits_val_app d s k : digits_val k (d +:+ s) = digits_val k d ≫= fun k' => digits_val k' s.
Proof.
  revert k. induction d as [|c d IH]; intros k; str_simpl; [done|].
  destruct (digit_val c); simpl; [apply IH | done].
Qed.

Lemma all_chars_app P d s : all_chars P (d +:+ s) = all_chars P d && all_chars P s.
Proof. induction d as [|c d IH]; str_simpl; [done|]. by rewrite IH, andb_assoc. Qed.

Lemma digits_of_value fuel n :
  0 <= n < 10 ^ Z.of_nat fuel -> (0 < fuel)%nat ->
  digits_val 0 (digits_of fuel n "") = Some n /\ all_chars is_digit (digits_of fuel n "") = true /\
  digits_of fuel n "" <> "".
Proof.
  revert n. induction fuel as [|f IH]; intros n Hn Hf; [lia|]. simpl.
  pose proof (Z.mod_pos_bound n 10 ltac:(lia)) as Hm.
  destruct (digit_char (n mod 10) Hm) as [Hv Hd].
  destruct (n <? 10) eqn:E; bool_simpl.
  - rewrite (Z.mod_small n 10) in * by lia. simpl. rewrite Hv, Hd. by repeat split.
  - rewrite digits_of_append, digits_val_app, all_chars_app.
    destruct f as [|f]; [simpl in Hn; lia|].
    assert (Hq : 0 <= n / 10 < 10 ^ Z.of_nat (S f)).
    { split; [apply Z.div_pos; lia|]. apply Z.div_lt_upper_bound; [lia|].
      rewrite <-Z.pow_succ_r, <-Nat2Z.inj_succ by lia. lia. }
    destruct (IH (n / 10) Hq ltac:(lia)) as (-> & -> & Hne). revert Hne. generalize (digits_of (S f) (n / 10) ""). intros d Hne.
    simpl. rewrite Hv, Hd. split; [f_equal; pose proof (Z.div_mod n 10 ltac:(lia)); lia|]. split; [done|].
    by destruct d.
Qed.

Lemma dec_value n : 0 <= n -> digits_val 0 (dec n) = Some n /\ all_chars is_digit (dec n) = true /\ dec n <> "".
Proof.
  intros Hn. unfold dec. apply digits_of_value; [|lia]. split; [done|].
  destruct (Z.eq_dec n 0) as [->|Hnz]; [apply Z.pow_pos_nonneg; lia|].
  pose proof (Z.log2_spec n ltac:(lia)) as [_ Hlt]. pose proof (Z.log2_nonneg n).
  rewrite Nat2Z.inj_succ, Z2Nat.id by lia.
  eapply Z.lt_le_trans; [exact Hlt|]. apply Z.pow_le_mono_l. lia.
Qed.

Lemma skip_blank_dec n s : 0 <= n -> skip_blank (dec n +:+ s) = dec n +:+ s.
Proof.
  intros Hn. destruct (dec_value n Hn) as (_ & Hd & Hne). destruct (dec n) as [|c d]; [done|].
  simpl in *. apply andb_true_iff in Hd as [Hd _]. unfold is_digit, in_range in Hd. bool_simpl.
  destruct (Ascii.eqb_spec c " "); [subst; done|]. simpl. by destruct (Z.eqb_spec (code c) 9); [lia|].
Qed.

Lemma scan_uint_dec bits n s :
  0 <= n < 2 ^ bits -> ends s -> scan_uint bits (dec n +:+ s) = Some (n, s).
Proof.
  intros Hn Hs. unfold scan_uint. rewrite skip_blank_dec by lia.
  destruct (dec_value n ltac:(lia)) as (Hv & Hd & Hne). rewrite take_dec_app by done.
  unfold unsigned_val. destruct (dec n); [done|]. rewrite Hv.
  by replace (n <? 2 ^ bits) with true by (symmetry; apply Z.ltb_lt; lia).
Qed.

(** ** crypto/sha1 (FIPS 180-4) and crypto/md5 (RFC 1321) *)

Definition rotl32 (x n : Z) : Z := Z.lor (w32 (Z.shiftl x n)) (Z.shiftr x (32 - n)).
Definition not32 (x : Z) : Z := Z.lxor x 4294967295.

Fixpoint sha1_schedule (n : nat) (rev_w : list Z) : list Z :=
  match n with
  | O => rev rev_w
  | S n' =>
      let w i := nth i rev_w 0 in
      sha1_schedule n'
        (rotl32 (Z.lxor (Z.lxor (w 2%nat) (w 7%nat)) (Z.lxor (w 13%nat) (w 15%nat))) 1 :: rev_w)
  end.

Definition sha1_fk (t : nat) (b c d : Z) : Z * Z :=
  if (t <? 20)%nat then (Z.lor (Z.land b c) (Z.land (not32 b) d), 1518500249)
  else if (t <? 40)%nat then (Z.lxor (Z.lxor b c) d, 1859775393)
  else if (t <? 60)%nat then (sha_maj b c d, 2400959708)
  else (Z.lxor (Z.lxor b c) d, 3395469782).

Definition sha1_round (st : list Z) (tw : nat * Z) : list Z :=
  match st with
  | [a; b; c; d; e] =>
      let '(f, k) := sha1_fk tw.1 b c d in
      [w32 (rotl32 a 5 + f + e + k + tw.2); a; rotl32 b 30; c; d]
  | _ => st
  end.

Definition sha1_compress (h block : list Z) : list Z :=
  map (fun '(x, y) => add32 x y)
    (combine h (fold_left sha1_round
                  (combine (seq 0 80) (sha1_schedule 64 (rev (be_words block)))) h)).

(** The padded message in blocks of 64 bytes; its length is enough fuel. *)
Fixpoint hash_blocks (compress : list Z -> list Z -> list Z) (fuel : nat) (bs h : list Z) : list Z :=
  match fuel with
  | O => h
  | S n => match bs with
           | [] => h
           | _ => hash_blocks compress n (skipn 64 bs) (compress h (firstn 64 bs))
           end
  end.

Definition sha1 (bs : list Z) : list Z :=
  let p := sha_pad bs in
  flat_map (fun x => map (fun s => Z.land (Z.shiftr x s) 255) [24; 16; 8; 0])
    (hash_blocks sha1_compress (List.length p) p [1732584193; 4023233417; 2562383102; 271733878; 3285377520]).

Fixpoint le_words (bs : list Z) : list Z :=
  match bs with
  | a :: b :: c :: d :: r => (d * 16777216 + c * 65536 + b * 256 + a) :: le_words r
  | _ => []
  end.

Definition md5_shifts : list Z :=
  flat_map (fun l => l ++ l ++ l ++ l)
    [[7; 12; 17; 22]; [5; 9; 14; 20]; [4; 11; 16; 23]; [6; 10; 15; 21]].

(** The constants: floor(2^32 * |sin(i + 1)|). *)
Definition md5_K : list Z :=
  [3614090360; 3905402710; 606105819; 3250441966; 4118548399; 1200080426; 2821735955; 4249261313;
   1770035416; 2336552879; 4294925233; 2304563134; 1804603682; 4254626195; 2792965006; 1236535329;
   4129170786; 3225465664; 643717713; 3921069994; 3593408605; 38016083; 3634488961; 3889429448;
   568446438; 3275163606; 4107603335; 1163531501; 2850285829; 4243563512; 1735328473; 2368359562;
   4294588738; 2272392833; 1839030562; 4259657740; 2763975236; 1272893353; 4139469664; 3200236656;
   681279174; 3936430074; 3572445317; 76029189; 3654602809; 3873151461; 530742520; 3299628645;
   4096336452; 1126891415; 2878612391; 4237533241; 1700485571; 2399980690; 4293915773; 2240044497;
   1873313359; 4264355552; 2734768916; 1309151649; 4149444226; 3174756917; 718787259; 3951481745].

Definition md5_round (m : list Z) (st : list Z) (i : nat) : list Z :=
  match st with
  | [a; b; c; d] =>
      let '(f, g) :=
        if (i <? 16)%nat then (Z.lor (Z.land b c) (Z.land (not32 b) d), i)
        else if (i <? 32)%nat then (Z.lor (Z.land d b) (Z.land (not32 d) c), (5 * i + 1) mod 16)%nat
        else if (i <? 48)%nat then (Z.lxor (Z.lxor b c) d, (3 * i + 5) mod 16)%nat
        else (Z.lxor c (Z.lor b (not32 d)), (7 * i) mod 16)%nat in
      let f := w32 (f + a + nth i md5_K 0 + nth g m 0) in
      [d; add32 b (rotl32 f (nth i md5_shifts 0)); b; c]
  | _ => st
  end.

Definition md5_compress (h block : list Z) : list Z :=
  map (fun '(x, y) => add32 x y)
    (combine h (fold_left (md5_round (le_words block)) (seq 0 64) h)).

Definition md5_pad (bs : list Z) : list Z :=
  let l := Z.of_nat (List.length bs) in
  bs ++ 128 :: repeat 0 (Z.to_nat ((55 - l) mod 64))
     ++ map (fun i => Z.land (Z.shiftr (8 * l) (8 * Z.of_nat i)) 255) (seq 0 8).

Definition md5 (bs : list Z) : list Z :=
  let p := md5_pad bs in
  flat_map (fun x => map (fun s => Z.land (Z.shiftr x s) 255) [0; 8; 16; 24])
    (hash_blocks md5_compress (List.length p) p [1732584193; 4023233417; 2562383102; 271733878]).

Example sha1_abc : hex_encode (sha1 (bytes_of "abc")) = "a9993e364706816aba3e25717850c26c9cd0d89d".
Proof. vm_compute. reflexivity. Qed.

Example md5_abc : hex_encode (md5 (bytes_of "abc")) = "900150983cd24fb0d6963f7d28e17f72".
Proof. vm_compute. reflexivity. Qed.
