(* ===== verification/GoFloat.v ===== *)
(** * strconv: floating-point numbers

    [strconv.ParseFloat] into a [float64], correctly rounded, and the text
    encoding/json prints for one.  Both run on the Standard Library's
    specification of binary64. *)
From S2P Require Import Prelude.
From S2P Require Import GoLib.
From S2P Require Import GoNet.
From S2P Require Import GoEnc.
From Stdlib Require Import Ascii SpecFloat.
Local Open Scope Z_scope.

Definition b64_prec : Z := 53.
Definition b64_emax : Z := 1024.

(** ** Parsing *)

Definition lower_code (c : ascii) : Z := code (lower_ascii c).

Fixpoint lower_prefix (p s : string) : bool :=
  match p, s with
  | EmptyString, _ => true
  | String a p, String b s => Ascii.eqb a (lower_ascii b) && lower_prefix p s
  | _, _ => false
  end.

Definition same_lower (p s : string) : bool :=
  Nat.eqb (String.length p) (String.length s) && lower_prefix p s.

(** [infinity], [inf] with a sign, [nan] without. *)
Definition special (signed neg : bool) (s : string) : option spec_float :=
  if same_lower "inf" s || same_lower "infinity" s then Some (S754_infinity neg)
  else if negb signed && same_lower "nan" s then Some S754_nan
  else None.

(** Underscores stand between digits, or after a base prefix.  [last] is the
    class of the character before: a digit, an underscore, another. *)
Inductive last_seen := LDigit | LUnderscore | LOther.

Fixpoint underscores_ok (hex : bool) (last : last_seen) (s : string) : bool :=
  match s with
  | EmptyString => match last with LUnderscore => false | _ => true end
  | String c s =>
      let b := lower_code c in
      if ((48 <=? b) && (b <=? 57)) || (hex && (97 <=? b) && (b <=? 102)) then underscores_ok hex LDigit s
      else if code c =? 95
      then match last with LDigit => underscores_ok hex LUnderscore s | _ => false end
      else match last with LUnderscore => false | _ => underscores_ok hex LOther s end
  end.

Definition digit_of (hex : bool) (c : ascii) : option Z :=
  let b := lower_code c in
  if (48 <=? b) && (b <=? 57) then Some (b - 48)
  else if hex && (97 <=? b) && (b <=? 102) then Some (b - 87)
  else None.

(** What the digits of a literal say: their value, how many stand after the
    point, whether there was a point and a digit; and the rest of the text. *)
Record mantissa := mkMantissa { m_value : Z; m_frac : Z; m_dot : bool; m_digits : bool }.

Fixpoint read_mantissa (hex : bool) (m : mantissa) (s : string) : mantissa * string :=
  match s with
  | EmptyString => (m, s)
  | String c s' =>
      if code c =? 95 then read_mantissa hex m s'
      else if code c =? 46 then
        if m.(m_dot) then (m, s)
        else read_mantissa hex (mkMantissa m.(m_value) m.(m_frac) true m.(m_digits)) s'
      else
        match digit_of hex c with
        | Some d =>
            read_mantissa hex (mkMantissa (m.(m_value) * (if hex then 16 else 10) + d)
              (if m.(m_dot) then m.(m_frac) + 1 else m.(m_frac)) m.(m_dot) true) s'
        | None => (m, s)
        end
  end.

(** The digits of an exponent; beyond 10000 they no longer count. *)
Fixpoint read_exponent (e : Z) (s : string) : option Z :=
  match s with
  | EmptyString => Some e
  | String c s =>
      if code c =? 95 then read_exponent e s
      else match digit_of false c with
           | Some d => read_exponent (if e <? 10000 then e * 10 + d else e) s
           | None => None
           end
  end.

Definition starts_digit (s : string) : bool :=
  match s with String c _ => is_Some_b (digit_of false c) | EmptyString => false end.

(** [e+12] and the like; a hexadecimal literal has one, a decimal may. *)
Definition exponent_of (hex : bool) (s : string) : option Z :=
  match s with
  | EmptyString => if hex then None else Some 0
  | String c s =>
      if lower_code c =? (if hex then 112 else 101) then
        match s with
        | String "-" s => if starts_digit s then Z.opp <$> read_exponent 0 s else None
        | String "+" s => if starts_digit s then read_exponent 0 s else None
        | _ => if starts_digit s then read_exponent 0 s else None
        end
      else None
  end.

(** The double nearest to [m * 10^e], ties to even. *)
Definition round_decimal (neg : bool) (m e : Z) : spec_float :=
  match m with
  | Zpos p =>
      if 0 <=? e then
        match m * 10 ^ e with
        | Zpos q => binary_round b64_prec b64_emax neg q 0
        | _ => S754_zero neg
        end
      else
        let '(q, ex, l) := SFdiv_core_binary b64_prec b64_emax m 0 (10 ^ (- e)) 0 in
        binary_round_aux b64_prec b64_emax neg q ex l
  | _ => S754_zero neg
  end.

(** The double nearest to [m * 2^e]. *)
Definition round_binary (neg : bool) (m e : Z) : spec_float :=
  match m with
  | Zpos p => binary_round b64_prec b64_emax neg p e
  | _ => S754_zero neg
  end.

Definition has_underscore (s : string) : bool :=
  existsb (fun b => b =? 95) (bytes_of s).

(** A literal too large for a double is an error. *)
Definition parse_literal (neg : bool) (s : string) : option spec_float :=
  let hex := match s with
             | String c0 (String c1 (String _ _)) => (code c0 =? 48) && (lower_code c1 =? 120)
             | _ => false
             end in
  let body := if hex then match s with String _ (String _ r) => r | _ => s end else s in
  let '(m, rest) := read_mantissa hex (mkMantissa 0 0 false false) body in
  if negb m.(m_digits) then None
  else if has_underscore s && negb (underscores_ok hex (if hex then LDigit else LOther) body) then None
  else
    match exponent_of hex rest with
    | None => None
    | Some e =>
        let f := if hex then round_binary neg m.(m_value) (e - 4 * m.(m_frac))
                 else round_decimal neg m.(m_value) (e - m.(m_frac)) in
        match f with S754_infinity _ => None | _ => Some f end
    end.

(** [strconv.ParseFloat(s, 64)] *)
Definition ParseFloat (s : string) : option spec_float :=
  let '(signed, neg, body) :=
    match s with
    | String "-" r => (true, true, r)
    | String "+" r => (true, false, r)
    | _ => (false, false, s)
    end in
  match special signed neg body with
  | Some f => Some f
  | None => parse_literal neg body
  end.

(** ** Printing *)

Definition sf_eqb (x y : spec_float) : bool :=
  match x, y with
  | S754_finite s m e, S754_finite s' m' e' => Bool.eqb s s' && Pos.eqb m m' && (e =? e')
  | _, _ => false
  end.

(** The numbers of [n] digits next to [num / den], times a power of ten, that
    read back as the double [x]: the closest first. *)
Definition digits_at (x : spec_float) (num den dp n : Z) : option Z :=
  let k := n - dp in
  let num := if 0 <=? k then num * 10 ^ k else num in
  let den := if 0 <=? k then den else den * 10 ^ (- k) in
  let q := num / den in
  let closest := if 2 * (num mod den) <=? den then [q; q + 1] else [q + 1; q] in
  find (fun d => sf_eqb (round_decimal false d (dp - n)) x) closest.

Fixpoint shortest_from (fuel : nat) (x : spec_float) (num den dp n : Z) : Z * Z :=
  match digits_at x num den dp n, fuel with
  | Some d, _ => (d, dp - n)
  | None, S fuel => shortest_from fuel x num den dp (n + 1)
  | None, O => (num, 0)
  end.

(** The [dp] with [10^(dp-1) <= num/den < 10^dp]. *)
Definition point_of (num den : Z) : Z :=
  let d0 := (Z.log2 num - Z.log2 den) * 30103 / 100000 in
  let lt d := if 0 <=? d then num <? den * 10 ^ d else num * 10 ^ (- d) <? den in
  default (d0 + 2) (find lt [d0 - 1; d0; d0 + 1]).

(** The shortest decimal [d * 10^e] that reads back as the double [m * 2^e2];
    seventeen digits always do. *)
Definition shortest (m : positive) (e2 : Z) : Z * Z :=
  let num := if 0 <=? e2 then Zpos m * 2 ^ e2 else Zpos m in
  let den := if 0 <=? e2 then 1 else 2 ^ (- e2) in
  shortest_from 16 (S754_finite false m e2) num den (point_of num den) 1.

Fixpoint strip_zeros (fuel : nat) (d e : Z) : Z * Z :=
  match fuel with
  | O => (d, e)
  | S fuel => if (d mod 10 =? 0) && negb (d =? 0) then strip_zeros fuel (d / 10) (e + 1) else (d, e)
  end.

Fixpoint zeros (n : nat) : string := match n with O => "" | S n => "0" +:+ zeros n end.

(** The format ['f'] below 1e21 and from 1e-6 on, ['e'] elsewhere. *)
Definition format_decimal (d e : Z) : string :=
  let digits := dec d in
  let n := Z.of_nat (String.length digits) in
  let point := n + e in
  if (-6 <? point) && (point <=? 21) then
    if 0 <=? e then digits +:+ zeros (Z.to_nat e)
    else if 0 <? point
    then String.substring 0 (Z.to_nat point) digits +:+ "."
         +:+ String.substring (Z.to_nat point) (Z.to_nat (- e)) digits
    else "0." +:+ zeros (Z.to_nat (- point)) +:+ digits
  else
    let frac := String.substring 1 (String.length digits - 1) digits in
    String.substring 0 1 digits +:+ (if String.eqb frac "" then "" else "." +:+ frac)
    +:+ "e" +:+ (if 0 <? point then "+" else "-") +:+ dec (Z.abs (point - 1)).

(** The text of a double in JSON; a value that is not finite has none. *)
Definition json_float (x : spec_float) : option string :=
  match x with
  | S754_nan | S754_infinity _ => None
  | S754_zero neg => Some (if neg then "-0" else "0")
  | S754_finite neg m e2 =>
      let '(d, e) := shortest m e2 in
      let '(d, e) := strip_zeros 20 d e in
      Some ((if neg then "-" else "") +:+ format_decimal d e)
  end.

Definition reprint (s : string) : option string :=
  match ParseFloat s with Some x => json_float x | None => None end.

Example numbers_reprinted :
  reprint "0.1" = Some "0.1" /\ reprint "1e3" = Some "1000" /\ reprint "1E21" = Some "1e+21" /\
  reprint "123456789012345678901" = Some "123456789012345680000" /\ reprint "-0.50" = Some "-0.5" /\
  reprint "1e-7" = Some "1e-7" /\ reprint "0.000001" = Some "0.000001" /\
  reprint "5e-324" = Some "5e-324" /\ reprint "2e-324" = Some "0" /\
  reprint "1.7976931348623157e308" = Some "1.7976931348623157e+308" /\ reprint "1e309" = None /\
  reprint "0x1.8p1" = Some "3" /\ reprint "1_000" = Some "1000" /\ reprint "1__0" = None /\
  reprint "" = None /\ reprint "." = None /\ reprint " 1" = None /\ reprint "1e" = None /\
  reprint "9007199254740993" = Some "9007199254740992" /\ reprint ".5" = Some "0.5" /\
  reprint "3.14159265358979323846" = Some "3.141592653589793" /\
  ParseFloat "NaN" = Some S754_nan /\ ParseFloat "-Inf" = Some (S754_infinity true) /\
  reprint "+infinity" = None /\ ParseFloat "+nan" = None.
Proof. vm_compute. by split_and!. Qed.

(** ** A printed number starts with a digit or a sign *)

Definition headed (s : string) : Prop :=
  match s with String c _ => 48 <= code c <= 57 | EmptyString => False end.

Lemma digits_of_headed fuel n acc : headed acc -> headed (digits_of fuel n acc).
Proof.
  revert n acc. induction fuel as [|fuel IH]; intros n acc Ha; [done|]. cbn [digits_of].
  assert (Hs : headed (String (ascii_of_nat (Z.to_nat (48 + n mod 10))) acc)).
  { pose proof (Z.mod_pos_bound n 10 ltac:(lia)). simpl. unfold code. rewrite nat_ascii_embedding by lia. lia. }
  destruct (n <? 10); [exact Hs | by apply IH].
Qed.

Lemma dec_headed n : headed (dec n).
Proof.
  unfold dec. cbn [digits_of].
  assert (Hs : headed (String (ascii_of_nat (Z.to_nat (48 + n mod 10))) "")).
  { pose proof (Z.mod_pos_bound n 10 ltac:(lia)). simpl. unfold code. rewrite nat_ascii_embedding by lia. lia. }
  destruct (n <? 10); [exact Hs | by apply digits_of_headed].
Qed.

Lemma format_headed d e : headed (format_decimal d e).
Proof.
  unfold format_decimal. cbv zeta. pose proof (dec_headed d) as Hd.
  destruct (dec d) as [|c s]; [done|].
  assert (Hsub : forall m t, headed (String.substring 0 (S m) (String c s) +:+ t)) by done.
  repeat case_match; try done.
  - destruct (Z.to_nat (Z.of_nat _ + e)) eqn:E; [|by apply Hsub]. apply Z.ltb_lt in H1. lia.
Qed.

Lemma json_float_not_nan x : json_float x <> Some "NaN".
Proof.
  unfold json_float. destruct x as [[]|s| |neg m e]; [discriminate..|].
  destruct (shortest m e) as [d e0]. destruct (strip_zeros 20 d e0) as [d1 e1]. intros H.
  pose proof (format_headed d1 e1) as Hf. injection H as H. revert H Hf. generalize (format_decimal d1 e1).
  intros t. destruct neg; [discriminate|]. intros H Hf. change (t = "NaN") in H. rewrite H in Hf. destruct Hf as [_ Hf]. by apply Hf.
Qed.
