(* ===== verification/Aes.v ===== *)
(** * crypto/hmac_secret.go: client HMAC keys sealed with AES-256-GCM

    [crypto/aes] and [crypto/cipher]'s GCM (FIPS 197, SP 800-38D) for 32-byte
    keys and 12-byte nonces, the sealing and opening of the HMAC keys of
    [client_secret_jwt], and the round trip between them. *)
From S2P Require Import Prelude.
From S2P Require Import Errors.
From S2P Require Import GoLib.
From S2P Require Import GoNet.
From S2P Require Import Model.
From S2P Require Import Exec.
From S2P Require Import Crypto.
From S2P Require Import GoEnc.
Local Open Scope Z_scope.

(** ** AES-256 *)

Definition xtime (x : Z) : Z := if 127 <? x then Z.lxor (2 * x) 283 else 2 * x.

Fixpoint gf_mul (bits : nat) (a b : Z) : Z :=
  match bits with
  | O => 0
  | S n => Z.lxor (if Z.odd b then a else 0) (gf_mul n (xtime a) (Z.shiftr b 1))
  end.

Definition gmul : Z -> Z -> Z := gf_mul 8.

Definition gf_inv (x : Z) : Z :=
  default 0 (List.find (fun y => gmul x y =? 1) (map Z.of_nat (seq 0 256))).

Definition rotl8 (x n : Z) : Z := Z.land (Z.lor (Z.shiftl x n) (Z.shiftr x (8 - n))) 255.

Definition sbox_of (x : Z) : Z :=
  let b := gf_inv x in
  Z.lxor (Z.lxor (Z.lxor b (rotl8 b 1)) (Z.lxor (rotl8 b 2) (rotl8 b 3))) (Z.lxor (rotl8 b 4) 99).

Definition sbox : list Z := Eval vm_compute in map sbox_of (map Z.of_nat (seq 0 256)).

Definition sub_byte (x : Z) : Z := nth (Z.to_nat x) sbox 0.

Definition xor_bytes (a b : list Z) : list Z := zip_with Z.lxor a b.

Fixpoint chunks (n fuel : nat) (l : list Z) : list (list Z) :=
  match fuel, l with
  | S f, _ :: _ => firstn n l :: chunks n f (skipn n l)
  | _, _ => []
  end.

(** The words of the key schedule, latest first. *)
Fixpoint expand_key (n : nat) (i : nat) (rcon : Z) (rev_w : list (list Z)) : list (list Z) :=
  match n with
  | O => rev rev_w
  | S n' =>
      let prev := nth 0 rev_w [] in
      let t :=
        if Nat.eqb (i mod 8) 0 then
          match map sub_byte prev with
          | a :: r => xor_bytes (r ++ [a]) [rcon; 0; 0; 0]
          | [] => []
          end
        else if Nat.eqb (i mod 8) 4 then map sub_byte prev
        else prev in
      let rcon := if Nat.eqb (i mod 8) 0 then xtime rcon else rcon in
      expand_key n' (S i) rcon (xor_bytes t (nth 7 rev_w []) :: rev_w)
  end.

(** The 15 round keys of 16 bytes. *)
Definition round_keys (key : list Z) : list (list Z) :=
  chunks 16 15 (List.concat (expand_key 52 8 1 (rev (chunks 4 8 key)))).

(** The state is the 16 bytes of the block, column by column. *)
Definition shift_rows (s : list Z) : list Z :=
  map (fun i => nth ((i + 4 * (i mod 4)) mod 16)%nat s 0) (seq 0 16).

Definition mix_column (col : list Z) : list Z :=
  match col with
  | [a; b; c; d] =>
      let m2 := xtime in let m3 x := Z.lxor (xtime x) x in
      [Z.lxor (Z.lxor (m2 a) (m3 b)) (Z.lxor c d); Z.lxor (Z.lxor a (m2 b)) (Z.lxor (m3 c) d);
       Z.lxor (Z.lxor a b) (Z.lxor (m2 c) (m3 d)); Z.lxor (Z.lxor (m3 a) b) (Z.lxor c (m2 d))]
  | _ => col
  end.

Definition mix_columns (s : list Z) : list Z := List.concat (map mix_column (chunks 4 4 s)).

Fixpoint aes_rounds (keys : list (list Z)) (s : list Z) : list Z :=
  match keys with
  | [] => s
  | [k] => xor_bytes (shift_rows (map sub_byte s)) k
  | k :: ks => aes_rounds ks (xor_bytes (mix_columns (shift_rows (map sub_byte s))) k)
  end.

Definition aes_encrypt (keys : list (list Z)) (block : list Z) : list Z :=
  match keys with
  | k0 :: ks => aes_rounds ks (xor_bytes block k0)
  | [] => block
  end.

(** ** GCM *)

Definition be_value (l : list Z) : Z := fold_left (fun acc b => 256 * acc + b) l 0.

Fixpoint be_bytes (n : nat) (x : Z) : list Z :=
  match n with
  | O => []
  | S n' => Z.land (Z.shiftr x (8 * Z.of_nat n')) 255 :: be_bytes n' x
  end.

Definition gcm_R : Z := Z.shiftl 225 120.

(** Multiplication in GF(2^128), bits numbered from the left. *)
Fixpoint gcm_mul (bits : nat) (x v acc : Z) : Z :=
  match bits with
  | O => acc
  | S n =>
      let acc := if Z.testbit x (Z.of_nat n) then Z.lxor acc v else acc in
      let v := if Z.odd v then Z.lxor (Z.shiftr v 1) gcm_R else Z.shiftr v 1 in
      gcm_mul n x v acc
  end.

Definition pad16 (l : list Z) : list Z := l ++ repeat 0 ((16 - List.length l mod 16) mod 16)%nat.

(** The hash of the ciphertext; there is no additional data. *)
Definition ghash (h : Z) (c : list Z) : Z :=
  let blocks := chunks 16 (S (List.length c)) (pad16 c) in
  let step acc b := gcm_mul 128 (Z.lxor acc (be_value b)) h 0 in
  step (fold_left step blocks 0) (be_bytes 16 (8 * Z.of_nat (List.length c))).

Definition counter_block (nonce : list Z) (n : Z) : list Z := nonce ++ be_bytes 4 (n mod 2 ^ 32).

(** The keystream of the counters from 2 on. *)
Definition keystream (keys : list (list Z)) (nonce : list Z) (len : nat) : list Z :=
  firstn len (List.concat
    (map (fun i => aes_encrypt keys (counter_block nonce (Z.of_nat i)))
       (seq 2 (S (len / 16))))).

(** The bytes beyond the keystream are kept; there are none. *)
Definition ctr (keys : list (list Z)) (nonce text : list Z) : list Z :=
  let ks := keystream keys nonce (List.length text) in
  zip_with Z.lxor text (ks ++ repeat 0 (List.length text - List.length ks)%nat).

Definition gcm_tag (keys : list (list Z)) (nonce c : list Z) : list Z :=
  let h := be_value (aes_encrypt keys (repeat 0 16)) in
  let e := be_value (aes_encrypt keys (counter_block nonce 1)) in
  be_bytes 16 (Z.lxor (ghash h c) e).

(** [gcm.Seal(nil, nonce, plaintext, nil)] and [gcm.Open(nil, nonce, sealed, nil)]. *)
Definition gcm_seal (key nonce plaintext : list Z) : list Z :=
  let keys := round_keys key in
  let c := ctr keys nonce plaintext in
  c ++ gcm_tag keys nonce c.

Definition gcm_open (key nonce sealed : list Z) : option (list Z) :=
  let keys := round_keys key in
  let n := (List.length sealed - 16)%nat in
  let c := firstn n sealed in
  if bool_decide (gcm_tag keys nonce c = skipn n sealed) then Some (ctr keys nonce c) else None.

(** The test vectors 13 and 14 of the GCM submission. *)
Example gcm_test_13 :
  hex_encode (gcm_seal (repeat 0 32) (repeat 0 12) []) = "530f8afbc74536b9a963b4f1c4cb738b".
Proof. vm_compute. reflexivity. Qed.

Example gcm_test_14 :
  hex_encode (gcm_seal (repeat 0 32) (repeat 0 12) (repeat 0 16))
  = "cea7403d4d606b6e074ec5d3baf39d18d0d1c8a799996bf0265b98b5d48ab919".
Proof. vm_compute. reflexivity. Qed.

(** ** crypto/hmac_secret.go *)

Definition HMACSecretBytes : nat := 32.

Definition GenerateHMACSecret : M (list Z * string) :=
  raw <- map_err (rand_read HMACSecretBytes) (wrap_error "failed to generate hmac secret: ") ;;
  ret (raw, base64_raw_url raw).

Definition nonceSize : nat := 12.
Definition overhead : nat := 16.

(** Cipher and mode accept every key of 32 bytes. *)
Definition EncryptHMACSecret (plaintext encryptionKey : list Z) : M (list Z) :=
  guard (Nat.eqb (List.length encryptionKey) 32)
    (EOther "encryption key must be 32 bytes (AES-256)") ;;;
  nonce <- map_err (rand_read nonceSize) (wrap_error "nonce: ") ;;
  ret (nonce ++ gcm_seal encryptionKey nonce plaintext).

Definition DecryptHMACSecret (ciphered encryptionKey : list Z) : result (list Z) :=
  if negb (Nat.eqb (List.length encryptionKey) 32)
  then Err (EOther "encryption key must be 32 bytes (AES-256)")
  else if (List.length ciphered <? nonceSize + overhead)%nat
  then Err (EOther "ciphertext too short")
  else
    let nonce := firstn nonceSize ciphered in
    let body := skipn nonceSize ciphered in
    match gcm_open encryptionKey nonce body with
    | Some raw => Ok raw
    | None => Err (EOther "cipher: message authentication failed")
    end.

(** The first of the four encodings that accepts the text decides. *)
Fixpoint decode_first (encs : list b64) (encoded : string) : result (list Z) :=
  match encs with
  | [] => Err (EOther "hmac encryption key is not valid base64")
  | enc :: rest =>
      match DecodeString enc encoded with
      | Some key =>
          if Nat.eqb (List.length key) 32 then Ok key
          else Err (EOther ("hmac encryption key must decode to 32 bytes, got "
                            +:+ dec (Z.of_nat (List.length key))))
      | None => decode_first rest encoded
      end
  end.

Definition DecodeHMACEncryptionKey (encoded : string) : result (list Z) :=
  decode_first [StdEncoding; RawStdEncoding; URLEncoding; RawURLEncoding] encoded.

(** ** Facts *)
Module HmacFacts.

Lemma xor_twice l k :
  (List.length l <= List.length k)%nat -> zip_with Z.lxor (zip_with Z.lxor l k) k = l.
Proof.
  revert k. induction l as [|x l IH]; intros [|y k] Hlen; simpl in *; try done; [lia|].
  rewrite Z.lxor_assoc, Z.lxor_nilpotent, Z.lxor_0_r, IH by lia. done.
Qed.

Lemma ctr_length keys nonce text : List.length (ctr keys nonce text) = List.length text.
Proof.
  unfold ctr. rewrite length_zip_with, length_app, repeat_length.
  assert (List.length (keystream keys nonce (List.length text)) <= List.length text)%nat.
  { unfold keystream. rewrite length_firstn. lia. }
  lia.
Qed.

(** The keystream depends on the text by its length alone. *)
Lemma ctr_ctr keys nonce text : ctr keys nonce (ctr keys nonce text) = text.
Proof.
  unfold ctr at 1. rewrite ctr_length. unfold ctr. apply xor_twice.
  rewrite length_app, repeat_length. lia.
Qed.

Lemma be_bytes_length n x : List.length (be_bytes n x) = n.
Proof. induction n; simpl; auto. Qed.

Lemma gcm_tag_length keys nonce c : List.length (gcm_tag keys nonce c) = 16%nat.
Proof. apply be_bytes_length. Qed.

Lemma gcm_open_seal key nonce text : gcm_open key nonce (gcm_seal key nonce text) = Some text.
Proof.
  unfold gcm_open, gcm_seal. cbv zeta.
  rewrite length_app, gcm_tag_length, Nat.add_sub.
  rewrite take_app_length, drop_app_length.
  rewrite bool_decide_eq_true_2 by done. by rewrite ctr_ctr.
Qed.

Lemma DecryptHMACSecret_app key nonce text :
  List.length key = 32%nat -> List.length nonce = nonceSize ->
  DecryptHMACSecret (nonce ++ gcm_seal key nonce text) key = Ok text.
Proof.
  intros Hk Hn. unfold DecryptHMACSecret. rewrite Hk.
  change (negb (Nat.eqb 32 32)) with false. cbv iota zeta.
  assert (Hlen : (overhead <= List.length (gcm_seal key nonce text))%nat).
  { unfold gcm_seal, overhead. cbv zeta. rewrite length_app, gcm_tag_length. lia. }
  destruct (Nat.ltb_spec (List.length (nonce ++ gcm_seal key nonce text)) (nonceSize + overhead)) as [Hl|_].
  { rewrite length_app in Hl. lia. }
  rewrite <-Hn, take_app_length, drop_app_length. by rewrite gcm_open_seal.
Qed.

Lemma wp_EncryptHMACSecret text key env st (Q : result (list Z) -> State -> Prop) :
  (forall e n, Q (Err e) (mkState st.(st_db) n)) ->
  (forall sealed n, DecryptHMACSecret sealed key = Ok text -> Q (Ok sealed) (mkState st.(st_db) n)) ->
  wp (EncryptHMACSecret text key) Q env st.
Proof.
  intros He Hok. unfold EncryptHMACSecret. destruct st as [db n0]. simpl in He, Hok.
  wp_step. apply wp_guard; [|intros _; apply He].
  intros Hk%Nat.eqb_eq. wp_simpl. do 3 wp_step; [apply He|]. wp_simpl. wp_step. apply Hok.
  apply DecryptHMACSecret_app; [done|]. by rewrite length_map, length_seq.
Qed.

(** A sealed HMAC key opens to the key that was sealed, for every nonce the
    random source gives; sealing changes nothing in the database, and it fails
    only without randomness or with a key of the wrong size. *)
Theorem hmac_seal_roundtrip (text key : list Z) (env : Env) (db : DB) :
  let '(r, db') := run (EncryptHMACSecret text key) env db in
  db' = db /\
  match r with
  | Ok sealed => List.length key = 32%nat /\ DecryptHMACSecret sealed key = Ok text
  | Err _ => List.length key <> 32%nat \/ env.(env_fail) 0%nat = true
  end.
Proof.
  unfold run, EncryptHMACSecret, guard. destruct (Nat.eqb_spec (List.length key) 32) as [Hk|Hk]; simpl.
  - unfold bind, ret, map_err, rand_read. simpl. destruct (env_fail env 0) eqn:Hf; simpl; [by split; [|right]|].
    split; [done|]. split; [done|].
    apply (DecryptHMACSecret_app key (map (fun i => env.(env_rand) 0%nat i mod 256) (seq 0 nonceSize)));
      [done|]. by rewrite length_map, length_seq.
  - split; [done|]. by left.
Qed.
End HmacFacts.
