(* ===== verification/Config.v ===== *)
(** * config/config.go: the settings the services read *)
From S2P Require Import Prelude.
Local Open Scope Z_scope.

(** Durations are nanoseconds. *)
Module AuthConfig.
Record t := mk {
  AccessTokenTTL : Z;
  RefreshTokenTTL : Z;
  SessionTTL : Z;
  SessionExtendedTTL : Z;
  AuthCodeTTL : Z;
  DeviceCodeTTL : Z;
  PasswordMinLen : Z;
  MaxFailAttempts : Z;
  LockoutDuration : Z;
  HMACSecretEncryptionKey : string;
  ActionTokenSigningKey : string;
  DCRInitialAccessToken : string;
  M2MProtectedRoleIDs : list string
}.
End AuthConfig.
