(* ===== verification/SessionSvc.v ===== *)
(** * session/: browser sessions

    The repository's statements on the [sessions] table (session/repository.go)
    and the service over them (session/service.go). *)
From S2P Require Import Prelude.
From S2P Require Import Errors.
From S2P Require Import GoLib.
From S2P Require Import Model.
From S2P Require Import Config.
From S2P Require Import Exec.
From S2P Require Import Crypto.
Local Open Scope Z_scope.

(** ** session/repository.go *)
Module SessionRepo.

(** The column [CookieToken] is not persisted ([gorm:"-"]). *)
Definition Create (session : Session.t) : M Session.t :=
  id <- (if N.eqb session.(Session.ID) uuid_nil then uuid_newV7 else ret session.(Session.ID)) ;;
  wall <- wall_now ;;
  let row := session <| Session.ID := id |>
                     <| Session.CreatedAt ::= auto_time wall |> in
  create_in sessions (upd sessions) id (row <| Session.CookieToken := "" |>) ;;;
  ret row.

Definition FindByID (id : UUID) : M (option Session.t * option error) :=
  find_row Session.zero (fun _ db => db.(sessions) !! id).

Definition FindActiveByCookieHash (hash : string) : M (option Session.t * option error) :=
  find_row Session.zero (fun env db =>
    first_row N.leb (fun s => String.eqb s.(Session.CookieTokenHash) hash
                              && negb s.(Session.Revoked)
                              && time_after s.(Session.ExpiresAt) env.(env_wall))
      db.(sessions)).

Definition later_active (a b : Session.t) : Prop :=
  b.(Session.LastActiveAt) <= a.(Session.LastActiveAt).
#[export] Instance later_active_dec : RelDecision later_active.
Proof. intros a b. unfold later_active. apply _. Defined.

Definition FindActiveByUser (userID : UUID) : M (list Session.t) :=
  query (fun env db =>
    merge_sort later_active
      (select_rows (fun s => N.eqb s.(Session.UserID) userID
                             && negb s.(Session.Revoked)
                             && time_after s.(Session.ExpiresAt) env.(env_wall))
        db.(sessions))).

Definition Revoke (id : UUID) : M unit :=
  update_table (upd sessions) (fun env =>
    update_rows (fun s => N.eqb s.(Session.ID) id) (Session.Revoke env.(env_wall))).

(** The rows [RevokeAllForUser] updates. *)
Definition revocable (userID : UUID) (exceptID : option UUID) (s : Session.t) : bool :=
  N.eqb s.(Session.UserID) userID && negb s.(Session.Revoked)
  && match exceptID with Some e => negb (N.eqb s.(Session.ID) e) | None => true end.

(** [UPDATE ..] with [RowsAffected]. *)
Definition RevokeAllForUser (userID : UUID) (exceptID : option UUID) : M Z :=
  db <- get_db ;;
  update_table (upd sessions) (fun env =>
    update_rows (revocable userID exceptID) (Session.Revoke env.(env_wall))) ;;;
  ret (count_rows (revocable userID exceptID) db.(sessions)).

Definition UpdateLastActive (id : UUID) : M unit :=
  update_table (upd sessions) (fun env =>
    update_rows (fun s => N.eqb s.(Session.ID) id)
      (fun s => s <| Session.LastActiveAt := env.(env_wall) |>)).

End SessionRepo.

(** ** session/service.go *)
Module SessionSvc.

(** [ttlResolver]: nil, or the admin-overridable [SessionTTL(extended)]. *)
Record Service := mkService {
  cfg : AuthConfig.t;
  ttlResolver : option (bool -> Z)
}.

Definition resolveTTL (s : Service) (extended : bool) : Z :=
  match s.(ttlResolver) with
  | Some r => r extended
  | None => if extended then s.(cfg).(AuthConfig.SessionExtendedTTL)
            else s.(cfg).(AuthConfig.SessionTTL)
  end.

Record CreateInput := mkCreateInput {
  UserID : UUID;
  IPAddress : string;
  UserAgent : string;
  Extended : bool
}.

(** The session row [Create] builds, with the raw cookie token left out. *)
Definition new_session (s : Service) (input : CreateInput) (id : UUID) (now : Z)
    (cookieHash : string) : Session.t :=
  let ipAddr := if String.eqb input.(IPAddress) "" then None else Some input.(IPAddress) in
  let ua := if String.eqb input.(UserAgent) "" then None else Some input.(UserAgent) in
  Session.zero
    <| Session.ID := id |>
    <| Session.UserID := input.(UserID) |>
    <| Session.IPAddress := ipAddr |>
    <| Session.UserAgent := ua |>
    <| Session.LastActiveAt := now |>
    <| Session.AuthenticatedAt := now |>
    <| Session.ExpiresAt := time_add now (resolveTTL s input.(Extended)) |>
    <| Session.Extended := input.(Extended) |>
    <| Session.CookieTokenHash := cookieHash |>.

Definition Create (s : Service) (input : CreateInput) : M Session.t :=
  id <- or_fail uuid_newV7 (ErrInternal "failed to generate session ID") ;;
  now <- clock_now ;;
  let! (rawCookie, cookieHash) :=
    or_fail GenerateOpaqueToken (ErrInternal "failed to generate session cookie token") ;;
  session <- or_fail (SessionRepo.Create (new_session s input id now cookieHash))
               (ErrInternal "failed to create session") ;;
  ret (session <| Session.CookieToken := rawCookie |>).

Definition FindByCookieToken (raw : string) : M (option Session.t) :=
  if String.eqb raw "" then ret None
  else
    let! (sess, err) := SessionRepo.FindActiveByCookieHash (HashToken raw) ;;
    match err with
    | Some _ => throw (ErrInternal "failed to look up session")
    | None => ret sess
    end.

Definition IsActive (id : UUID) : M bool :=
  let! (sess, err) := SessionRepo.FindByID id ;;
  match err, sess with
  | Some e, _ => throw e
  | None, None => ret false
  | None, Some sess =>
      now <- clock_now ;;
      ret (negb sess.(Session.Revoked) && time_after sess.(Session.ExpiresAt) now)
  end.

Definition ListActive (userID : UUID) : M (list Session.t) :=
  or_fail (SessionRepo.FindActiveByUser userID) (ErrInternal "failed to list sessions").

Definition Revoke (sessionID userID : UUID) : M unit :=
  let! (session, err) := SessionRepo.FindByID sessionID ;;
  match err, session with
  | Some _, _ => throw (ErrInternal "failed to find session")
  | None, None => throw (ErrNotFound "session not found")
  | None, Some session =>
      guard (N.eqb session.(Session.UserID) userID)
        (ErrForbidden "session does not belong to user") ;;;
      if session.(Session.Revoked) then ret tt
      else or_fail (SessionRepo.Revoke sessionID) (ErrInternal "failed to revoke session")
  end.

Definition RevokeAll (userID : UUID) (currentSessionID : option UUID) : M Z :=
  or_fail (SessionRepo.RevokeAllForUser userID currentSessionID)
    (ErrInternal "failed to revoke sessions").

(** [tx]: whether the caller passes its transaction, whose statement it then is. *)
Definition RevokeAllInTx (tx : bool) (userID : UUID) (currentSessionID : option UUID) : M Z :=
  if negb tx then RevokeAll userID currentSessionID
  else or_fail (SessionRepo.RevokeAllForUser userID currentSessionID)
         (ErrInternal "failed to revoke sessions").

End SessionSvc.

(** ** Lemmas on the repository *)
Module SessionFacts.
Import SessionSvc.

(** [Create] stores the row without its cookie token and returns it. *)
Lemma wp_repo_Create (session : Session.t) (Q : result Session.t -> State -> Prop) env st :
  session.(Session.ID) <> uuid_nil ->
  (forall e n, Q (Err e) (mkState st.(st_db) n)) ->
  (forall n, let row := session <| Session.CreatedAt ::= auto_time env.(env_wall) |> in
     st.(st_db).(sessions) !! session.(Session.ID) = None ->
     Q (Ok row)
       (mkState (st.(st_db) <| sessions ::= insert session.(Session.ID)
                                 (row <| Session.CookieToken := "" |>) |>) n)) ->
  wp (SessionRepo.Create session) Q env st.
Proof.
  intros Hid Herr Hok. unfold SessionRepo.Create.
  apply N.eqb_neq in Hid. rewrite Hid.
  assert (Hrow : session <| Session.ID := session.(Session.ID) |> = session) by by destruct session.
  wp_steps; [apply Herr|]. rewrite Hrow in *. by apply Hok.
Qed.

#[export] Instance FindByID_read_only id : ReadOnly (SessionRepo.FindByID id).
Proof. apply _. Qed.

#[export] Instance FindByCookieToken_read_only raw : ReadOnly (FindByCookieToken raw).
Proof. unfold FindByCookieToken. solve_preserves idtac. Qed.

#[export] Instance IsActive_read_only id : ReadOnly (IsActive id).
Proof. unfold IsActive. solve_preserves idtac. Qed.

(** A live session: not revoked, not expired at the instant [wall]. *)
Definition live (wall : Z) (s : Session.t) : Prop :=
  s.(Session.Revoked) = false /\ wall < s.(Session.ExpiresAt).

Definition session_table_wf (t : gmap UUID Session.t) : Prop :=
  forall id s, t !! id = Some s -> s.(Session.ID) = id.

(** [Create] either stores exactly one new row, for the user of the input,
    holding the digest of the cookie token it returns and not the token
    itself, live until the configured TTL, or fails and stores nothing. *)
Theorem Create_spec (s : Service) (input : CreateInput) (env : Env) (st : State) :
  (forall n, env.(env_uuid) n <> uuid_nil) ->
  wp (Create s input)
    (fun r st' =>
       match r with
       | Err _ => st'.(st_db) = st.(st_db)
       | Ok session =>
           exists row,
             st'.(st_db) = st.(st_db) <| sessions ::= insert session.(Session.ID) row |> /\
             st.(st_db).(sessions) !! session.(Session.ID) = None /\
             row.(Session.UserID) = input.(UserID) /\
             row.(Session.CookieToken) = "" /\
             row.(Session.CookieTokenHash) = HashToken session.(Session.CookieToken) /\
             row.(Session.Revoked) = false /\
             row.(Session.ExpiresAt) = env.(env_now) + resolveTTL s input.(Extended) /\
             row.(Session.AuthenticatedAt) = env.(env_now)
       end) env st.
Proof.
  intros Huuid. unfold Create.
  do 3 wp_step; [done|]. do 3 wp_step.
  apply wp_or_fail, wp_GenerateOpaqueToken; [done|]. intros raw _ _. do 2 wp_step.
  apply wp_repo_Create; [apply Huuid | done |].
  intros n' row Hnone. wp_step. simpl. eexists. split; [reflexivity|]. by repeat split.
Qed.
Lemma Create_spec_witness :
  let env := mkEnv 5 7 (fun _ => false) (fun _ i => Z.of_nat i) (fun n => N.of_nat (S n)) in
  let s := mkService (AuthConfig.mk 1 1 10 100 1 1 8 5 1 "" "" "" []) None in
  let st := mkState empty_db 0 in
  (forall n, env.(env_uuid) n <> uuid_nil) /\
  wp (Create s (mkCreateInput 3 "" "" true))
    (fun r st' =>
       match r with
       | Err _ => st'.(st_db) = empty_db
       | Ok session =>
           exists row,
             st'.(st_db) = empty_db <| sessions ::= insert session.(Session.ID) row |> /\
             empty_db.(sessions) !! session.(Session.ID) = None /\
             row.(Session.UserID) = 3%N /\
             row.(Session.CookieToken) = "" /\
             row.(Session.CookieTokenHash) = HashToken session.(Session.CookieToken) /\
             row.(Session.Revoked) = false /\
             row.(Session.ExpiresAt) = env.(env_now) + 100 /\
             row.(Session.AuthenticatedAt) = env.(env_now)
       end) env st.
Proof.
  intros env s st. assert (Hu : forall n, env.(env_uuid) n <> uuid_nil) by (intros n; simpl; lia).
  split; [exact Hu|]. exact (Create_spec s (mkCreateInput 3 "" "" true) env st Hu).
Defined.

(** [FindByCookieToken] returns only a live session whose stored digest is that
    of the presented token, and without a fault it finds the session of the
    token when there is exactly one. *)
Theorem FindByCookieToken_spec (raw : string) (env : Env) (st : State) :
  wp (FindByCookieToken raw)
    (fun r st' =>
       st'.(st_db) = st.(st_db) /\
       match r with
       | Ok (Some s) =>
           raw <> "" /\ live env.(env_wall) s /\
           s.(Session.CookieTokenHash) = HashToken raw /\
           exists id, st.(st_db).(sessions) !! id = Some s
       | Ok None =>
           raw = "" \/
           forall id s, st.(st_db).(sessions) !! id = Some s ->
             s.(Session.CookieTokenHash) = HashToken raw -> ~ live env.(env_wall) s
       | Err e => env.(env_fail) st.(st_step) = true
       end) env st.
Proof.
  unfold FindByCookieToken, SessionRepo.FindActiveByCookieHash, live.
  wp_steps; (split; [done|]); try done.
  - left. by apply String.eqb_eq.
  - destruct (first_row _ _ _) as [s|] eqn:E.
    + apply first_row_Some in E as (id & Hid & HP). unfold time_after in HP.
      bool_simpl. naive_solver.
    + right. intros id s Hs Hh [Hr He]. rewrite first_row_None in E.
      specialize (E _ _ Hs). simpl in E. rewrite Hh, String.eqb_refl, Hr in E.
      unfold time_after in E. simpl in E. apply Z.ltb_ge in E. lia.
Qed.

(** Only the owner of a session revokes it, and revoking it changes that row
    alone: every other row, and every other table, is as before. *)
Theorem session_revoke_spec (sessionID userID : UUID) (env : Env) (st : State) :
  session_table_wf st.(st_db).(sessions) ->
  wp (Revoke sessionID userID)
    (fun r st' =>
       match r with
       | Ok _ =>
           exists s t', st.(st_db).(sessions) !! sessionID = Some s /\
             s.(Session.UserID) = userID /\
             st'.(st_db) = st.(st_db) <| sessions := t' |> /\
             (exists s', t' !! sessionID = Some s' /\ s'.(Session.Revoked) = true) /\
             (forall id, id <> sessionID -> t' !! id = st.(st_db).(sessions) !! id)
       | Err _ => st'.(st_db) = st.(st_db)
       end) env st.
Proof.
  intros Hwf. unfold Revoke, SessionRepo.FindByID, SessionRepo.Revoke.
  wp_steps; try done.
  - bool_simpl. eexists _, st.(st_db).(sessions). split_and!; [done | done | | eauto | done].
    by destruct (st_db st).
  - simplify_eq. bool_simpl. eexists _, _. split_and!; [done | done | reflexivity | |].
    + rewrite lookup_update_rows, Heqo. simpl.
      rewrite (Hwf _ _ Heqo), N.eqb_refl. by eexists.
    + intros id Hid. rewrite lookup_update_rows.
      destruct (sessions (st_db st) !! id) as [s|] eqn:E; [|done]. simpl.
      rewrite (Hwf _ _ E). by apply N.eqb_neq in Hid as ->.
Qed.

Lemma session_revoke_spec_witness :
  let env := mkEnv 5 7 (fun _ => false) (fun _ _ => 0) N.of_nat in
  let row := Session.zero <| Session.ID := 9%N |> <| Session.UserID := 3%N |> in
  let st := mkState (empty_db <| sessions := {[ 9%N := row ]} |>) 0 in
  session_table_wf st.(st_db).(sessions) /\
  wp (Revoke 9 3)
    (fun r st' =>
       match r with
       | Ok _ =>
           exists s t', st.(st_db).(sessions) !! 9%N = Some s /\
             s.(Session.UserID) = 3%N /\
             st'.(st_db) = st.(st_db) <| sessions := t' |> /\
             (exists s', t' !! 9%N = Some s' /\ s'.(Session.Revoked) = true) /\
             (forall id, id <> 9%N -> t' !! id = st.(st_db).(sessions) !! id)
       | Err _ => st'.(st_db) = st.(st_db)
       end) env st.
Proof.
  intros env row st.
  assert (Hwf : session_table_wf st.(st_db).(sessions)).
  { intros id s. change (sessions st.(st_db)) with ({[9%N := row]} : gmap UUID Session.t).
    by intros [<- <-]%lookup_singleton_Some. }
  split; [exact Hwf|]. exact (session_revoke_spec 9 3 env st Hwf).
Defined.

(** [RevokeAll] with a current session leaves no other session of the user
    unrevoked and touches neither that session nor another user's; the count
    it returns is the number of rows revoked. *)
Theorem RevokeAll_spec (userID : UUID) (current : option UUID) (env : Env) (st : State) :
  wp (RevokeAll userID current)
    (fun r st' =>
       match r with
       | Ok n =>
           exists t', st'.(st_db) = st.(st_db) <| sessions := t' |> /\
             n = count_rows (SessionRepo.revocable userID current) st.(st_db).(sessions) /\
             (forall id s', t' !! id = Some s' -> s'.(Session.UserID) = userID ->
                current <> Some s'.(Session.ID) -> s'.(Session.Revoked) = true) /\
             (forall id s, st.(st_db).(sessions) !! id = Some s ->
                s.(Session.UserID) <> userID \/ current = Some s.(Session.ID) ->
                t' !! id = Some s)
       | Err _ => st'.(st_db) = st.(st_db)
       end) env st.
Proof.
  unfold RevokeAll, SessionRepo.RevokeAllForUser. wp_steps; try done. simplify_eq.
  eexists. split_and!; [reflexivity | done | |].
  - intros id s'. rewrite lookup_update_rows.
    destruct (sessions (st_db st) !! id) as [s|]; [|done]. simpl.
    destruct (SessionRepo.revocable userID current s) eqn:E; intros [= <-]; [done|].
    unfold SessionRepo.revocable in E. intros Hu Hc. subst.
    rewrite N.eqb_refl in E. destruct (Session.Revoked s) eqn:Er; [done|]. simpl in E.
    destruct current as [c|]; [|done].
    apply negb_false_iff, N.eqb_eq in E. by subst.
  - intros id s Hs Hk. rewrite lookup_update_rows, Hs. simpl.
    replace (SessionRepo.revocable userID current s) with false; [done|].
    unfold SessionRepo.revocable. destruct Hk as [Hu | ->].
    + by apply N.eqb_neq in Hu as ->.
    + rewrite N.eqb_refl. by rewrite andb_false_r.
Qed.

End SessionFacts.
