(* ===== verification/OAuthRepo.v ===== *)
(** * oauth/repository.go: the statements of the OAuth service

    One definition per method of [Repository].  A [Save] is an upsert by
    primary key, a [Create] refuses an existing key. *)
From S2P Require Import Prelude.
From S2P Require Import Errors.
From S2P Require Import GoLib.
From S2P Require Import Model.
From S2P Require Import Platform.
From S2P Require Import Exec.
Local Open Scope Z_scope.

Definition string_le (a b : string) : bool := bool_decide (String.le a b).

Section repository.
Context `{Platform}.

(** ** Client lookup *)

Definition findClient (clientIDStr : string) : M OAuthClient.t :=
  match uuid_parse clientIDStr with
  | None => throw (ErrInvalidRequest "invalid client_id")
  | Some id =>
      let! (client, err) := find_row OAuthClient.zero (fun _ db =>
        db.(oauth_clients) !! id ≫= fun c =>
      if c.(OAuthClient.Active) then Some c else None) ;;
      match err, client with
      | None, Some client => ret client
      | _, _ => throw (ErrInvalidClient "unknown client")
      end
  end.
End repository.

(** ** Authorization requests *)

(** The row as stored, with the identifier the hook assigned. *)
Definition CreateAuthRequest (req : AuthorizationRequest.t) : M AuthorizationRequest.t :=
  id <- BeforeCreate req.(AuthorizationRequest.ID) ;;
  wall <- wall_now ;;
  let row := req <| AuthorizationRequest.ID := id |>
                 <| AuthorizationRequest.CreatedAt ::= auto_time wall |>
                 <| AuthorizationRequest.UpdatedAt ::= auto_time wall |> in
  create_in authorization_requests (upd authorization_requests) id row ;;;
  ret row.

Definition FindAuthRequest (id : UUID) : M (option AuthorizationRequest.t * option error) :=
  find_row AuthorizationRequest.zero (fun env db =>
    db.(authorization_requests) !! id ≫= fun r =>
      if time_after r.(AuthorizationRequest.ExpiresAt) env.(env_wall) then Some r else None).

Definition UpdateAuthRequest (req : AuthorizationRequest.t) : M AuthorizationRequest.t :=
  wall <- wall_now ;;
  let row := req <| AuthorizationRequest.UpdatedAt := wall |> in
  update_table (upd authorization_requests)
    (fun _ => insert req.(AuthorizationRequest.ID) row) ;;;
  ret row.

Definition DeleteAuthRequest (id : UUID) : M unit :=
  update_table (upd authorization_requests) (fun _ => delete id).

(** ** Authorization codes *)

Definition CreateAuthCode (code : AuthorizationCode.t) : M unit :=
  wall <- wall_now ;;
  create_in authorization_codes (upd authorization_codes) code.(AuthorizationCode.CodeHash)
    (code <| AuthorizationCode.CreatedAt ::= auto_time wall |>).

Definition FindAuthCode (codeHash : string) : M (option AuthorizationCode.t * option error) :=
  find_row AuthorizationCode.zero (fun _ db => db.(authorization_codes) !! codeHash).

Definition MarkAuthCodeUsed (codeHash : string) : M unit :=
  update_table (upd authorization_codes)
    (fun _ => alter (fun c => c <| AuthorizationCode.Used := true |>) codeHash).

(** ** Access tokens *)

Definition CreateAccessToken (token : AccessToken.t) : M unit :=
  wall <- wall_now ;;
  create_in access_tokens (upd access_tokens) token.(AccessToken.ID)
    (token <| AccessToken.CreatedAt ::= auto_time wall |>).

Definition FindAccessToken (id : string) : M (option AccessToken.t * option error) :=
  find_row AccessToken.zero (fun _ db => db.(access_tokens) !! id).

Definition revoke_at (t : AccessToken.t) : AccessToken.t := t <| AccessToken.Revoked := true |>.

Definition RevokeAccessToken (id : string) : M unit :=
  update_table (upd access_tokens) (fun _ => alter revoke_at id).

Definition RevokeAccessTokensByRefreshToken (refreshTokenID : string) : M unit :=
  update_table (upd access_tokens) (fun _ =>
    update_rows (fun t => opt_str_eqb t.(AccessToken.RefreshTokenID) refreshTokenID
                          && negb t.(AccessToken.Revoked)) revoke_at).

Definition opt_uuid_eqb (o : option UUID) (u : UUID) : bool :=
  match o with Some u' => N.eqb u' u | None => false end.

Definition RevokeAccessTokensBySession (sessionID : UUID) : M unit :=
  update_table (upd access_tokens) (fun _ =>
    update_rows (fun t => opt_uuid_eqb t.(AccessToken.SessionID) sessionID
                          && negb t.(AccessToken.Revoked)) revoke_at).

(** ** Refresh tokens *)

Definition CreateRefreshToken (token : RefreshToken.t) : M unit :=
  wall <- wall_now ;;
  create_in refresh_tokens (upd refresh_tokens) token.(RefreshToken.ID)
    (token <| RefreshToken.CreatedAt ::= auto_time wall |>).

Definition FindRefreshToken (id : string) : M (option RefreshToken.t * option error) :=
  find_row RefreshToken.zero (fun _ db => db.(refresh_tokens) !! id).

Definition RotateRefreshToken (id : string) : M unit :=
  update_table (upd refresh_tokens) (fun env =>
    alter (fun t => t <| RefreshToken.RotatedAt := Some env.(env_wall) |>) id).

Definition revoke_rt (t : RefreshToken.t) : RefreshToken.t := t <| RefreshToken.Revoked := true |>.

Definition RevokeRefreshTokenFamily (familyID : UUID) : M unit :=
  update_table (upd refresh_tokens) (fun _ =>
    update_rows (fun t => N.eqb t.(RefreshToken.FamilyID) familyID
                          && negb t.(RefreshToken.Revoked)) revoke_rt).

Definition RevokeRefreshTokensBySession (sessionID : UUID) : M unit :=
  update_table (upd refresh_tokens) (fun _ =>
    update_rows (fun t => N.eqb t.(RefreshToken.SessionID) sessionID
                          && negb t.(RefreshToken.Revoked)) revoke_rt).

(** ** Consents *)

Definition FindActiveConsent (userID clientID : UUID) : M (option Consent.t * option error) :=
  find_row Consent.zero (fun _ db =>
    first_row N.leb (fun c => N.eqb c.(Consent.UserID) userID
                              && N.eqb c.(Consent.ClientID) clientID
                              && negb (is_Some_b c.(Consent.RevokedAt))) db.(consents)).

Definition CreateConsent (consent : Consent.t) : M unit :=
  id <- BeforeCreate consent.(Consent.ID) ;;
  wall <- wall_now ;;
  create_in consents (upd consents) id
    (consent <| Consent.ID := id |>
             <| Consent.CreatedAt ::= auto_time wall |>
             <| Consent.UpdatedAt ::= auto_time wall |>).

(** [Save] of a row without an identifier is a [Create]. *)
Definition UpdateConsent (consent : Consent.t) : M unit :=
  if N.eqb consent.(Consent.ID) uuid_nil then CreateConsent consent
  else
    wall <- wall_now ;;
    update_table (upd consents) (fun _ =>
      insert consent.(Consent.ID) (consent <| Consent.UpdatedAt := wall |>)).

(** ** Device codes *)

(** [user_code] has a unique index. *)
Definition CreateDeviceCode (dc : DeviceCode.t) : M unit :=
  wall <- wall_now ;;
  stmt (fun _ db =>
    let taken := first_row string_le
                   (fun d => String.eqb d.(DeviceCode.UserCode) dc.(DeviceCode.UserCode))
                   db.(device_codes) in
    match db.(device_codes) !! dc.(DeviceCode.DeviceCodeHash), taken with
    | None, None =>
        Ok (db <| device_codes ::= insert dc.(DeviceCode.DeviceCodeHash)
                    (dc <| DeviceCode.CreatedAt ::= auto_time wall |>) |>)
    | _, _ => Err (EDriver "duplicate key value violates unique constraint")
    end).

Definition FindDeviceCode (codeHash : string) : M (option DeviceCode.t * option error) :=
  find_row DeviceCode.zero (fun _ db => db.(device_codes) !! codeHash).

Definition FindDeviceCodeByUserCode (userCode : string) : M (option DeviceCode.t * option error) :=
  find_row DeviceCode.zero (fun _ db =>
    first_row string_le (fun d => String.eqb d.(DeviceCode.UserCode) userCode) db.(device_codes)).

Definition UpdateDeviceCode (dc : DeviceCode.t) : M unit :=
  update_table (upd device_codes) (fun _ => insert dc.(DeviceCode.DeviceCodeHash) dc).

(** ** Pushed authorization requests *)

Definition CreatePAR (par : PushedAuthorizationRequest.t) : M unit :=
  wall <- wall_now ;;
  create_in pushed_authorization_requests (upd pushed_authorization_requests)
    par.(PushedAuthorizationRequest.RequestURI)
    (par <| PushedAuthorizationRequest.CreatedAt ::= auto_time wall |>).

Definition FindPAR (requestURI : string) :
    M (option PushedAuthorizationRequest.t * option error) :=
  find_row PushedAuthorizationRequest.zero (fun env db =>
    db.(pushed_authorization_requests) !! requestURI ≫= fun p =>
      if time_after p.(PushedAuthorizationRequest.ExpiresAt) env.(env_wall) then Some p else None).

Definition DeletePAR (requestURI : string) : M unit :=
  update_table (upd pushed_authorization_requests) (fun _ => delete requestURI).

(** ** Revoked JTIs (RFC 9068) *)

Definition IsJTIRevoked (jti : string) : M bool :=
  if String.eqb jti "" then ret false
  else query (fun env db =>
    match db.(revoked_jtis) !! jti with
    | Some r => time_after r.(RevokedJTI.ExpiresAt) env.(env_wall)
    | None => false
    end).

Definition RevokeJTI (jti : string) (expiresAt : Z) : M unit :=
  if String.eqb jti "" then ret tt
  else
    update_table (upd revoked_jtis) (fun env t =>
      match t !! jti with
      | Some _ => t
      | None => <[jti := RevokedJTI.mk jti expiresAt env.(env_wall)]> t
      end).

Definition PurgeExpiredRevokedJTIs : M Z :=
  db <- get_db ;;
  wall <- wall_now ;;
  update_table (upd revoked_jtis) (fun env =>
    filter (fun kr => env.(env_wall) <= kr.2.(RevokedJTI.ExpiresAt))) ;;;
  ret (count_rows (fun r => time_before r.(RevokedJTI.ExpiresAt) wall) db.(revoked_jtis)).
