(* ===== verification/Scopes.v ===== *)
(** * oauth/service.go, helpers: scopes, PKCE, response types, hashes

    The pure functions of the OAuth service, in the order of the source. *)
From S2P Require Import Prelude.
From S2P Require Import Errors.
From S2P Require Import GoLib.
From S2P Require Import GoNet.
From S2P Require Import Model.
From S2P Require Import Platform.
From S2P Require Import Exec.
From S2P Require Import Crypto.
From Stdlib Require Import Ascii.
Local Open Scope Z_scope.

Definition containsScope (scopes : list string) (target : string) : bool := mem target scopes.

Definition sha256_sum (s : string) : list Z := sha256 (bytes_of s).

Definition computeATHash (accessToken : string) : string :=
  base64_raw_url (firstn 16 (sha256_sum accessToken)).

Definition verifyPKCE (codeVerifier codeChallenge : string) : bool :=
  String.eqb (base64_raw_url (sha256_sum codeVerifier)) codeChallenge.

Definition isValidResponseType (rt : string) : bool :=
  mem rt ["code"; "code id_token"; "code token"; "code id_token token"].

Definition isHybridResponseType (rt : string) : bool :=
  negb (String.eqb rt "code") && isValidResponseType rt.

Definition responseTypeIncludes (rt part : string) : bool := mem part (split_on " " rt).

Definition computeACR (authMethods : list string) : string * list string :=
  match authMethods with
  | [] => ("", [])
  | _ =>
      let hasOTP := mem "otp" authMethods in
      (if hasOTP then "urn:orionauth:acr:mfa" else "urn:orionauth:acr:pwd", authMethods)
  end.

Section origin.
Context `{Platform}.

Definition extractOrigin (uri : string) : string :=
  match url_parse uri with
  | inl _ => uri
  | inr u => u.(Scheme) +:+ "://" +:+ u.(Host)
  end.

(** A failure of the random source leaves the salt empty. *)
Definition computeSessionState (clientID redirectURI sessionID : string) : M string :=
  let origin := extractOrigin redirectURI in
  salt <- opt (GenerateRandomString 16) ;;
  let salt := default "" salt in
  let data := clientID +:+ " " +:+ origin +:+ " " +:+ sessionID +:+ " " +:+ salt in
  ret (hex_encode (sha256_sum data) +:+ "." +:+ salt).
End origin.

(** [acc] holds the characters of [s[start:i]], last first. *)
Fixpoint splitBySpace_from (acc : list ascii) (s : string) : list string :=
  let segment := String.string_of_list_ascii (rev acc) in
  match s with
  | EmptyString => match acc with [] => [] | _ => [segment] end
  | String c s' =>
      if Ascii.eqb c " " then
        match acc with
        | [] => splitBySpace_from [] s'
        | _ => segment :: splitBySpace_from [] s'
        end
      else splitBySpace_from (c :: acc) s'
  end.

Definition splitBySpace (s : string) : list string := splitBySpace_from [] s.

Definition parseSpaceDelimited (s : string) : list string :=
  if String.eqb s "" then []
  else List.filter (fun part => negb (String.eqb part "")) (splitBySpace s).

Definition joinScopes (scopes : list string) : string := String.concat " " scopes.

Definition filterScopes (requested allowed : list string) : list string :=
  List.filter (fun r => mem r allowed) requested.

Definition splitResourceScopes (scopes : list string) (perms : list ResourcePermission.t)
    : list string * list string :=
  match perms with
  | [] => ([], scopes)
  | _ =>
      let names := map ResourcePermission.Name perms in
      (List.filter (fun s => mem s names) scopes,
       List.filter (fun s => negb (mem s names)) scopes)
  end.

(** The loop body of [unionScopes], over one of the two slices. *)
Fixpoint add_unseen (seen : list string) (l : list string) : list string :=
  match l with
  | [] => seen
  | s :: l' => add_unseen (if mem s seen then seen else seen ++ [s]) l'
  end.

Definition unionScopes (a b : list string) : list string := add_unseen (add_unseen [] a) b.

Definition looksLikeJWT (token : string) : bool := (count_char "." token =? 2)%nat.

(** ** Lemmas *)

Lemma mem_filterScopes s requested allowed :
  s ∈ filterScopes requested allowed <-> s ∈ requested /\ s ∈ allowed.
Proof. unfold filterScopes. by autorewrite with orion. Qed.

Lemma add_unseen_elem s seen l : s ∈ add_unseen seen l <-> s ∈ seen \/ s ∈ l.
Proof.
  revert seen. induction l as [|x l IH]; intros seen; simpl.
  - set_solver.
  - rewrite IH. destruct (mem x seen) eqn:E; [apply mem_iff in E|]; set_solver.
Qed.

Lemma add_unseen_NoDup seen l : NoDup seen -> NoDup (add_unseen seen l).
Proof.
  revert seen. induction l as [|x l IH]; intros seen Hs; simpl; [done|].
  apply IH. destruct (mem x seen) eqn:E; [done|]. apply mem_false_iff in E.
  apply NoDup_app. split_and!; [done | set_solver | apply NoDup_singleton].
Qed.

Lemma add_unseen_prefix seen l : exists k, add_unseen seen l = seen ++ k.
Proof.
  revert seen. induction l as [|x l IH]; intros seen; simpl.
  - exists []. by rewrite app_nil_r.
  - destruct (IH (if mem x seen then seen else seen ++ [x])) as [k ->].
    destruct (mem x seen); [by eexists|]. rewrite <-app_assoc. by eexists.
Qed.

Lemma elem_of_unionScopes s a b : s ∈ unionScopes a b <-> s ∈ a \/ s ∈ b.
Proof. unfold unionScopes. rewrite !add_unseen_elem. set_solver. Qed.

(** A scope as RFC 6749 has it here: not empty, without a space. *)
Definition scope_token (s : string) : Prop :=
  s <> "" /\ ~ In " "%char (String.list_ascii_of_string s).

Lemma splitBySpace_from_app acc s rest :
  ~ In " "%char (String.list_ascii_of_string s) ->
  splitBySpace_from acc (s +:+ rest)
  = splitBySpace_from (rev (String.list_ascii_of_string s) ++ acc) rest.
Proof.
  revert acc. induction s as [|c s IH]; intros acc Hs; simpl in *; [done|].
  destruct (Ascii.eqb_spec c " "); [subst; exfalso; apply Hs; by left|].
  rewrite IH by (intros ?; apply Hs; by right). by rewrite <-app_assoc.
Qed.

Lemma string_app_nil s : s +:+ "" = s.
Proof. induction s as [|c s IH]; [done|]. change (String c (s +:+ "") = String c s). by rewrite IH. Qed.

Lemma list_of_string_nonempty s : s <> "" -> String.list_ascii_of_string s <> [].
Proof. by destruct s. Qed.

Lemma splitBySpace_from_nil acc :
  acc <> [] -> splitBySpace_from acc "" = [String.string_of_list_ascii (rev acc)].
Proof. by destruct acc. Qed.

Lemma splitBySpace_from_space acc s :
  acc <> [] ->
  splitBySpace_from acc (String " " s)
  = String.string_of_list_ascii (rev acc) :: splitBySpace_from [] s.
Proof. by destruct acc. Qed.

Lemma splitBySpace_join l :
  Forall scope_token l -> splitBySpace (joinScopes l) = l.
Proof.
  unfold splitBySpace, joinScopes. induction 1 as [|s l [Hne Hsp] Hl IH]; [done|].
  pose proof (list_of_string_nonempty s Hne) as Hn.
  assert (Hacc : rev (String.list_ascii_of_string s) <> []).
  { intros Hr. by rewrite <-(rev_involutive (String.list_ascii_of_string s)), Hr in Hn. }
  destruct l as [|s' l'].
  - change (String.concat " " [s]) with s. rewrite <-(string_app_nil s).
    rewrite splitBySpace_from_app by done. rewrite app_nil_r, splitBySpace_from_nil by done.
    by rewrite rev_involutive, String.string_of_list_ascii_of_string, string_app_nil.
  - change (String.concat " " (s :: s' :: l'))
      with (s +:+ String " " (String.concat " " (s' :: l'))).
    rewrite splitBySpace_from_app by done.
    rewrite app_nil_r, splitBySpace_from_space by done.
    by rewrite rev_involutive, String.string_of_list_ascii_of_string, IH.
Qed.

(** Parsing the printed form of a list of scopes gives the list back, and
    [parseSpaceDelimited] returns no empty scope on any input. *)
Theorem parse_join_scopes (l : list string) :
  Forall scope_token l -> parseSpaceDelimited (joinScopes l) = l.
Proof.
  intros Hl. unfold parseSpaceDelimited.
  destruct (String.eqb_spec (joinScopes l) "") as [He|He].
  - rewrite <-(splitBySpace_join l Hl), He. done.
  - rewrite splitBySpace_join by done. clear He. induction Hl as [|s l [Hs _] _ IH]; simpl; [done|].
    destruct (String.eqb_spec s ""); [done|]. simpl. by rewrite IH.
Qed.

Lemma parse_join_scopes_witness :
  Forall scope_token ["openid"; "offline_access"] /\
  parseSpaceDelimited (joinScopes ["openid"; "offline_access"]) = ["openid"; "offline_access"].
Proof.
  assert (Hf : Forall scope_token ["openid"; "offline_access"]).
  { repeat constructor; try done; simpl; intros Hin;
      repeat destruct Hin as [Hin|Hin]; done. }
  split; [exact Hf|]. exact (parse_join_scopes _ Hf).
Defined.

(** [unionScopes] keeps the first list's order without repetition, adds the
    second's new scopes after it, and holds exactly the scopes of the two;
    [splitResourceScopes] divides a list without losing or moving a scope. *)
Theorem scope_sets (a b : list string) (perms : list ResourcePermission.t) :
  NoDup (unionScopes a b) /\
  (forall s, s ∈ unionScopes a b <-> s ∈ a \/ s ∈ b) /\
  (exists k, unionScopes a b = unionScopes a [] ++ k) /\
  (let '(res, other) := splitResourceScopes a perms in
   Permutation (res ++ other) a /\
   forall s, s ∈ res <-> s ∈ a /\ s ∈ map ResourcePermission.Name perms).
Proof.
  split_and!.
  - unfold unionScopes. do 2 apply add_unseen_NoDup. constructor.
  - intros s. apply elem_of_unionScopes.
  - apply (add_unseen_prefix (add_unseen [] a) b).
  - unfold splitResourceScopes. destruct perms as [|p perms].
    + split; [done|]. intros s. simpl.
      split; [by intros ?%not_elem_of_nil | by intros [_ ?%not_elem_of_nil]].
    + generalize (map ResourcePermission.Name (p :: perms)). intros names. split.
      * induction a as [|x a IH]; simpl; [done|].
        destruct (mem x names); simpl; [by constructor|].
        rewrite <-Permutation_middle. by constructor.
      * intros s. by autorewrite with orion.
Qed.

(** The verifier of RFC 7636, appendix B, and only a verifier with that digest. *)
Example verifyPKCE_rfc7636 :
  verifyPKCE "dBjftJeZ4CVP-mB92K27uhbUJU1p1r_wW1gFWFOEjXk" "E9Melhoa2OwvFrEMTJguCHaoeK1t8URWbuGJSstw-cM" = true.
Proof. vm_compute. reflexivity. Qed.
