(* ===== verification/Policy.v ===== *)
(** * policy/inputs/inputs.go and oauth/policy_modify.go

    The input documents handed to the policy engine, the readers of the
    [modify] documents it returns, and its interface. *)
From S2P Require Import Prelude.
From S2P Require Import Errors.
From S2P Require Import GoLib.
From S2P Require Import Model.
From S2P Require Import Platform.
From S2P Require Import Exec.
Local Open Scope Z_scope.

(** ** policy/inputs/inputs.go *)
Module Inputs.
Abbreviation doc := (list (string * any)).

Definition weekday_names : list string :=
  ["Sunday"; "Monday"; "Tuesday"; "Wednesday"; "Thursday"; "Friday"; "Saturday"].

Section inputs.
Context `{Platform}.

(** January 1, 1970 was a Thursday. *)
Definition timeFields (wall : Z) : doc :=
  let local := time_unix wall + local_offset wall in
  let weekday := (local / 86400 + 4) mod 7 in
  [("hour", AInt (local / 3600 mod 24));
   ("weekday", AString (nth (Z.to_nat weekday) weekday_names ""));
   ("weekday_n", AInt weekday);
   ("unix", AInt (time_unix wall))].

Definition userFields (u : User.t) : doc :=
  [("id", AString (uuid_string u.(User.ID)));
   ("email", AString u.(User.Email));
   ("email_verified", ABool u.(User.EmailVerified));
   ("active", ABool u.(User.Active))].

Definition userFieldsWithRoles (u : User.t) (roles permissions : list string) : doc :=
  userFields u ++ [("roles", AStrings roles); ("permissions", AStrings permissions)].

Definition clientFields (c : OAuthClient.t) : doc :=
  [("id", AString (uuid_string c.(OAuthClient.ID)));
   ("name", AString c.(OAuthClient.Name));
   ("is_public", ABool c.(OAuthClient.IsPublic));
   ("is_first_party", ABool c.(OAuthClient.IsFirstParty))].

(** [if c != nil { input["client"] = clientFields(c) }] *)
Definition client_entry (c : option OAuthClient.t) : doc :=
  match c with Some c => [("client", AMap (clientFields c))] | None => [] end.

Definition user_entry (u : option User.t) (roles permissions : list string) : doc :=
  match u with Some u => [("user", AMap (userFieldsWithRoles u roles permissions))] | None => [] end.

Definition BuildLoginInput (wall : Z) (u : User.t) (c : option OAuthClient.t)
    (roles permissions : list string) (ipAddress userAgent : string) : doc :=
  [("user", AMap (userFieldsWithRoles u roles permissions));
   ("ip_address", AString ipAddress);
   ("user_agent", AString userAgent);
   ("time", AMap (timeFields wall))] ++ client_entry c.

Definition BuildTokenIssuanceInput (wall : Z) (c : OAuthClient.t) (u : option User.t)
    (roles permissions scopes : list string) (ipAddress : string) : doc :=
  [("client", AMap (clientFields c));
   ("scopes", AStrings scopes);
   ("ip_address", AString ipAddress);
   ("time", AMap (timeFields wall))] ++ user_entry u roles permissions.

Definition BuildRefreshInput (wall : Z) (u : option User.t) (c : OAuthClient.t)
    (roles permissions requestedScopes grantedScopes : list string)
    (sessionID ipAddress : string) : doc :=
  [("client", AMap (clientFields c));
   ("scopes_requested", AStrings requestedScopes);
   ("scopes_granted", AStrings grantedScopes);
   ("session_id", AString sessionID);
   ("ip_address", AString ipAddress);
   ("time", AMap (timeFields wall))] ++ user_entry u roles permissions.

Definition BuildConsentInput (wall : Z) (u : User.t) (c : OAuthClient.t)
    (roles permissions requestedScopes grantedScopes : list string)
    (ipAddress userAgent : string) : doc :=
  [("user", AMap (userFieldsWithRoles u roles permissions));
   ("client", AMap (clientFields c));
   ("scopes_requested", AStrings requestedScopes);
   ("scopes_granted", AStrings grantedScopes);
   ("ip_address", AString ipAddress);
   ("user_agent", AString userAgent);
   ("time", AMap (timeFields wall))].

Definition BuildMFAInput (wall : Z) (u : User.t) (c : option OAuthClient.t)
    (roles permissions scopes : list string) (hasMFA : bool)
    (ipAddress userAgent : string) : doc :=
  [("user", AMap (userFieldsWithRoles u roles permissions));
   ("scopes", AStrings scopes);
   ("has_mfa", ABool hasMFA);
   ("ip_address", AString ipAddress);
   ("user_agent", AString userAgent);
   ("time", AMap (timeFields wall))] ++ client_entry c.

Definition BuildDeviceApprovalInput (wall : Z) (u : User.t) (c : option OAuthClient.t)
    (roles permissions scopes : list string) (userCode ipAddress userAgent : string) : doc :=
  [("user", AMap (userFieldsWithRoles u roles permissions));
   ("scopes", AStrings scopes);
   ("user_code", AString userCode);
   ("ip_address", AString ipAddress);
   ("user_agent", AString userAgent);
   ("time", AMap (timeFields wall))] ++ client_entry c.

Definition BuildIntrospectInput (wall : Z) (tokenType tokenClientID tokenUserID : string)
    (scopes : list string) (audience : option string)
    (requestingClientID ipAddress : string) : doc :=
  let token :=
    [("type", AString tokenType);
     ("client_id", AString tokenClientID);
     ("scopes", AStrings scopes)]
    ++ (if String.eqb tokenUserID "" then [] else [("user_id", AString tokenUserID)])
    ++ match audience with Some a => [("audience", AString a)] | None => [] end in
  [("token", AMap token);
   ("requesting_client", AMap [("id", AString requestingClientID)]);
   ("ip_address", AString ipAddress);
   ("time", AMap (timeFields wall))].

Definition BuildClientAuthInput (wall : Z) (c : OAuthClient.t)
    (authMethod method path ipAddress userAgent : string) : doc :=
  [("client", AMap (clientFields c));
   ("auth_method", AString authMethod);
   ("request", AMap [("method", AString method); ("path", AString path)]);
   ("ip_address", AString ipAddress);
   ("user_agent", AString userAgent);
   ("time", AMap (timeFields wall))].

Definition BuildAccountActionInput (wall : Z) (u : User.t) (roles permissions : list string)
    (action : string) (hasMFA hasPasskey : bool) (accountAgeDays : Z)
    (ipAddress userAgent : string) : doc :=
  [("user", AMap (userFieldsWithRoles u roles permissions));
   ("action", AString action);
   ("has_mfa", ABool hasMFA);
   ("has_passkey", ABool hasPasskey);
   ("account_age_days", AInt accountAgeDays);
   ("ip_address", AString ipAddress);
   ("user_agent", AString userAgent);
   ("time", AMap (timeFields wall))].

Definition BuildAdminAPIInput (wall : Z) (userID : UUID) (permissions : list string)
    (method path ipAddress : string) : doc :=
  [("user", AMap [("id", AString (uuid_string userID)); ("permissions", AStrings permissions)]);
   ("request", AMap [("method", AString method); ("path", AString path)]);
   ("ip_address", AString ipAddress);
   ("time", AMap (timeFields wall))].

End inputs.
End Inputs.

(** ** oauth/policy_modify.go *)
Module PolicyModify.
Abbreviation doc := (list (string * any)).

(** A nil map is [None]. *)
Definition readModifyBool (modify : option doc) (key : string) : option bool :=
  match modify with
  | None => None
  | Some m => match map_get m key with Some (ABool v) => Some v | _ => None end
  end.

(** [json.Number.Int64] is [strconv.ParseInt(s, 10, 64)]. *)
Definition readModifyInt (modify : doc) (key : string) : option Z :=
  match map_get modify key with
  | Some (ANumber s) => atoi s
  | Some (AFloat f) => Some f
  | Some (AInt i) => Some i
  | _ => None
  end.

Definition string_elems (arr : list any) : list string :=
  omap (fun v => match v with AString s => Some s | _ => None end) arr.

(** The set is a list of its members. *)
Definition stringSetFromAny (raw : any) : option (list string) :=
  match raw with
  | AList arr => Some (string_elems arr)
  | _ => None
  end.

Definition readModifyScopes (modify : doc) (requested : list string) : option (list string) :=
  match map_get modify "scopes" with
  | None => None
  | Some raw =>
      match stringSetFromAny raw with
      | None => None
      | Some allowed => Some (List.filter (fun s => mem s allowed) requested)
      end
  end.

(** [extra, ok := modify[key].(map[string]any)] *)
Definition readModifyMap (modify : doc) (key : string) : option doc :=
  match map_get modify key with Some (AMap m) => Some m | _ => None end.

(** A policy narrows the scopes it is given and never adds one. *)
Lemma readModifyScopes_subset modify requested narrowed :
  readModifyScopes modify requested = Some narrowed ->
  forall s, s ∈ narrowed -> s ∈ requested.
Proof.
  unfold readModifyScopes. intros Hr s Hs.
  destruct (map_get _ _); [|done]. destruct (stringSetFromAny _); [|done].
  injection Hr as <-. autorewrite with orion in Hs. tauto.
Qed.
End PolicyModify.

(** ** The policy engine's interface (oauth/service.go) *)

Module PolicyResult.
Record t := mk {
  Allow : bool;
  Deny : bool;
  DenyReason : string;
  Modify : option (list (string * any))
}.
End PolicyResult.

(** [Evaluate(ctx, policyType, input)]; the result may be nil. *)
Definition PolicyEvaluator : Type := string -> list (string * any) -> Reader (option PolicyResult.t).
