(* ===== verification/ActionToken.v ===== *)
(** * actiontoken/token.go: signed action tokens

    [Sign] and [Parse] over the JWT library, which is a parameter: it signs a
    record of claims with a key, and parses back what was signed with that key
    as long as it has not expired. *)
From S2P Require Import Prelude.
From S2P Require Import Errors.
From S2P Require Import GoLib.
From S2P Require Import Model.
From S2P Require Import Platform.
From S2P Require Import Exec.
Local Open Scope Z_scope.

Definition ActionVerifyEmail : string := "verify_email".

Module Claims.
Record t := mk {
  Subject : UUID;
  Action : string;
  JTI : string;
  RequestID : option UUID;
  IssuedAt : Z;
  ExpiresAt : Z
}.
End Claims.

(** The wire shape; the instants are whole seconds, and the registered claims
    are optional. *)
Module jwtClaims.
Record t := mk {
  Subject : string;
  ID : string;
  IssuedAt : option Z;
  ExpiresAt : option Z;
  Action : string;
  RequestID : option string
}.
End jwtClaims.

Class JwtLib := {
  jwt_sign : jwtClaims.t -> string -> result string;
  (** [ParseWithClaims] restricted to HS256, with a required expiry. *)
  jwt_parse : Z -> string -> string -> result jwtClaims.t
}.

Class JwtLaws `{JwtLib} : Prop := {
  jwt_parse_sign : forall wall c key raw e,
    jwt_sign c key = Ok raw -> c.(jwtClaims.ExpiresAt) = Some e -> wall < e * second ->
    jwt_parse wall raw key = Ok c;
  jwt_parse_live : forall wall c key raw,
    jwt_parse wall raw key = Ok c ->
    exists e, c.(jwtClaims.ExpiresAt) = Some e /\ wall < e * second;
  jwt_parse_claims : forall wall wall' c c' key raw,
    jwt_parse wall raw key = Ok c -> jwt_parse wall' raw key = Ok c' -> c = c'
}.

Section tokens.
Context `{Platform} `{JwtLib}.

Definition ErrInvalidToken : error := EOther "actiontoken: invalid or expired token".

Definition Sign (c : Claims.t) (key : string) : result string :=
  if N.eqb c.(Claims.Subject) uuid_nil then Err (EOther "actiontoken: subject is required")
  else if String.eqb c.(Claims.Action) "" then Err (EOther "actiontoken: action is required")
  else if String.eqb c.(Claims.JTI) "" then Err (EOther "actiontoken: jti is required")
  else if time_is_zero c.(Claims.ExpiresAt)
  then Err (EOther "actiontoken: expires_at is required")
  else
    jwt_sign
      (jwtClaims.mk (uuid_string c.(Claims.Subject)) c.(Claims.JTI)
         (Some (time_unix c.(Claims.IssuedAt))) (Some (time_unix c.(Claims.ExpiresAt)))
         c.(Claims.Action) (uuid_string <$> c.(Claims.RequestID))) key.

(** A token without [iat] or [exp] makes the code dereference a nil pointer. *)
Definition nil_dereference : error := EOther "runtime error: nil pointer dereference".

Definition Parse (wall : Z) (raw key : string) : result Claims.t :=
  match jwt_parse wall raw key with
  | Err _ => Err ErrInvalidToken
  | Ok jc =>
      match uuid_parse jc.(jwtClaims.Subject) with
      | None => Err ErrInvalidToken
      | Some subj =>
          if String.eqb jc.(jwtClaims.Action) "" || String.eqb jc.(jwtClaims.ID) ""
          then Err ErrInvalidToken
          else
            match jc.(jwtClaims.IssuedAt), jc.(jwtClaims.ExpiresAt) with
            | Some iat, Some exp =>
                let out rid := Claims.mk subj jc.(jwtClaims.Action) jc.(jwtClaims.ID) rid
                                 (iat * second) (exp * second) in
                match jc.(jwtClaims.RequestID) with
                | None => Ok (out None)
                | Some r =>
                    match uuid_parse r with
                    | None => Err ErrInvalidToken
                    | Some rid => Ok (out (Some rid))
                    end
                end
            | _, _ => Err nil_dereference
            end
      end
  end.

(** What is signed is parsed back, its instants cut to whole seconds, until it
    expires. *)
Lemma Parse_Sign `{!PlatformLaws} `{!JwtLaws} wall c key raw :
  Sign c key = Ok raw -> wall < time_unix c.(Claims.ExpiresAt) * second ->
  Parse wall raw key
  = Ok (Claims.mk c.(Claims.Subject) c.(Claims.Action) c.(Claims.JTI) c.(Claims.RequestID)
          (time_unix c.(Claims.IssuedAt) * second) (time_unix c.(Claims.ExpiresAt) * second)).
Proof.
  unfold Sign, Parse. intros Hs Hw.
  destruct (N.eqb _ _); [done|]. destruct (String.eqb (Claims.Action c) "") eqn:Ea; [done|].
  destruct (String.eqb (Claims.JTI c) "") eqn:Ej; [done|].
  destruct (time_is_zero _); [done|].
  rewrite (jwt_parse_sign wall _ _ _ _ Hs eq_refl Hw). simpl.
  rewrite uuid_parse_string, Ea, Ej. simpl.
  destruct (Claims.RequestID c); simpl; [|done]. by rewrite uuid_parse_string.
Qed.

(** The claims of a token do not depend on when it is parsed. *)
Lemma Parse_claims `{!JwtLaws} wall wall' c c' key raw :
  Parse wall raw key = Ok c -> Parse wall' raw key = Ok c' -> c = c'.
Proof.
  unfold Parse. destruct (jwt_parse wall raw key) as [j|] eqn:E; [|done].
  destruct (jwt_parse wall' raw key) as [j'|] eqn:E'; [|done].
  rewrite (jwt_parse_claims _ _ _ _ _ _ E E'). congruence.
Qed.
End tokens.

(** ** A concrete library, whose only token is that of one claims set *)

#[export] Instance jwtClaims_eq_dec : EqDecision jwtClaims.t.
Proof. solve_decision. Defined.

Definition sample_jwt (c : jwtClaims.t) (exp : Z) : JwtLib := {|
  jwt_sign c' _ := if decide (c' = c) then Ok "token" else Err (EOther "unsupported claims");
  jwt_parse wall raw _ :=
    if String.eqb raw "token" && (wall <? exp * second) then Ok c else Err (EOther "invalid token")
|}.

Lemma sample_jwt_laws c exp :
  c.(jwtClaims.ExpiresAt) = Some exp -> @JwtLaws (sample_jwt c exp).
Proof.
  intros He. split; simpl.
  - intros wall c' key raw e Hs Hc Hw. destruct (decide (c' = c)) as [->|]; [|done].
    injection Hs as <-. rewrite He in Hc. injection Hc as ->. simpl.
    apply Z.ltb_lt in Hw as ->. done.
  - intros wall c' key raw. destruct (_ && _) eqn:E; [|done]. intros [= <-]. bool_simpl. eauto.
  - intros wall wall' c' c'' key raw. repeat destruct (_ && _); congruence.
Qed.
