(* ===== verification/UserSvc.v ===== *)
(** * user/: accounts and passwords

    The statements on the [users] table (user/repository.go) and the service
    over them (user/service.go), written against the interfaces the service is
    given: the password hasher and validator, the email sender, the role
    assigner and the registration form. *)
From S2P Require Import Prelude.
From S2P Require Import Errors.
From S2P Require Import GoLib.
From S2P Require Import Model.
From S2P Require Import Platform.
From S2P Require Import Config.
From S2P Require Import Exec.
From S2P Require Import Schema.
From S2P Require Import Crypto.
From S2P Require Import ActionToken.
Local Open Scope Z_scope.

(** ** user/repository.go *)
Module UserRepo.

Definition email_taken (email : string) (except : UUID) (t : gmap UUID User.t) : bool :=
  is_Some_b (first_row N.leb (fun u => String.eqb u.(User.Email) email
                                       && negb (N.eqb u.(User.ID) except)) t).

Definition duplicate_email : error :=
  EDriver "duplicate key value violates unique constraint idx_users_email".

Definition Create (user : User.t) : M User.t :=
  id <- BeforeCreate user.(User.ID) ;;
  wall <- wall_now ;;
  let row := user <| User.ID := id |>
                  <| User.CreatedAt ::= auto_time wall |>
                  <| User.UpdatedAt ::= auto_time wall |>
                  <| User.Metadata ::= fun m => if String.eqb m "" then "{}" else m |> in
  stmt (fun _ db =>
    if email_taken row.(User.Email) id db.(users) then Err duplicate_email
    else match db.(users) !! id with
         | Some _ => Err (EDriver "duplicate key value violates unique constraint")
         | None => Ok (db <| users ::= insert id row |>)
         end) ;;;
  ret row.

Definition FindByID (id : UUID) : M (option User.t * option error) :=
  find_row User.zero (fun _ db => db.(users) !! id).

Definition find_user (P : Env -> User.t -> bool) : M (option User.t * option error) :=
  find_row User.zero (fun env db => first_row N.leb (P env) db.(users)).

Definition FindByEmail (email : string) : M (option User.t * option error) :=
  find_user (fun _ u => String.eqb u.(User.Email) email).

Definition Update (user : User.t) : M User.t :=
  wall <- wall_now ;;
  let row := user <| User.UpdatedAt := wall |> in
  stmt (fun _ db =>
    if email_taken row.(User.Email) row.(User.ID) db.(users) then Err duplicate_email
    else Ok (db <| users ::= insert row.(User.ID) row |>)) ;;;
  ret row.

(** [fields] is the assignment of the given columns. *)
Definition UpdateFields (id : UUID) (fields : User.t -> User.t) : M unit :=
  update_table (upd users) (fun env =>
    alter (fun u => (fields u) <| User.UpdatedAt := env.(env_wall) |>) id).

(** The rows that refer to the user go with it. *)
Definition Delete (id : UUID) : M unit :=
  stmt (fun _ db => Ok (delete_users (fun k _ => N.eqb k id) db)).

(** [token = ? AND expires_at > NOW()]; NULL satisfies neither. *)
Definition live_token (wall : Z) (token : option string) (expires : option Z)
    (hash : string) : bool :=
  opt_str_eqb token hash && match expires with Some e => time_after e wall | None => false end.

Definition FindByResetToken (tokenHash : string) : M (option User.t * option error) :=
  find_user (fun env u =>
    live_token env.(env_wall) u.(User.PasswordResetToken) u.(User.PasswordResetExpiresAt) tokenHash).

Definition FindByVerifyToken (tokenHash : string) : M (option User.t * option error) :=
  find_user (fun env u =>
    live_token env.(env_wall) u.(User.EmailVerifyToken) u.(User.EmailVerifyExpiresAt) tokenHash).

Definition FindByEmailChangeToken (tokenHash : string) : M (option User.t * option error) :=
  find_user (fun env u =>
    live_token env.(env_wall) u.(User.EmailChangeToken) u.(User.EmailChangeExpiresAt) tokenHash).

Definition FindByDeletionToken (tokenHash : string) : M (option User.t * option error) :=
  find_user (fun env u =>
    live_token env.(env_wall) u.(User.DeletionToken) u.(User.DeletionPurgeAfter) tokenHash).

End UserRepo.

(** ** The interfaces of the service *)

(** [crypto.Argon2Hasher]: [VerifyIdentify] returns the match and whether the
    stored hash is of a foreign scheme. *)
Record Hasher := mkHasher {
  VerifyIdentify : string -> string -> result (bool * bool);
  Hash : string -> Reader string
}.

(** [email.Sender], with the [InTx] variants of an [email.TxSender]. *)
Record EmailSender := mkEmailSender {
  sender_Verification : string -> string -> M unit;
  sender_PasswordReset : string -> string -> M unit;
  tx_Verification : option (string -> string -> M unit);
  tx_PasswordReset : option (string -> string -> M unit)
}.

(** What a sender may change: the outbox. *)
Definition same_but_outbox (d d' : DB) : Prop := exists t, d' = d <| outbound_emails := t |>.

#[export] Instance same_but_outbox_preorder : PreOrder same_but_outbox.
Proof.
  split.
  - intros d. exists d.(outbound_emails). by destruct d.
  - intros d d' d'' [t ->] [t' ->]. by exists t'.
Qed.

Class EmailSenderLaws (e : EmailSender) : Prop := {
  Verification_frame : forall to tok, Preserves same_but_outbox (e.(sender_Verification) to tok);
  PasswordReset_frame : forall to tok, Preserves same_but_outbox (e.(sender_PasswordReset) to tok);
  tx_Verification_frame : forall f to tok,
    e.(tx_Verification) = Some f -> Preserves same_but_outbox (f to tok);
  tx_PasswordReset_frame : forall f to tok,
    e.(tx_PasswordReset) = Some f -> Preserves same_but_outbox (f to tok)
}.

(** [RoleAssigner.AssignRoleInTx(tx, userID, roleID)] *)
Definition RoleAssigner : Type := UUID -> UUID -> M unit.

Definition same_but_roles (d d' : DB) : Prop := exists t, d' = d <| user_roles := t |>.

#[export] Instance same_but_roles_preorder : PreOrder same_but_roles.
Proof.
  split.
  - intros d. exists d.(user_roles). by destruct d.
  - intros d d' d'' [t ->] [t' ->]. by exists t'.
Qed.

Class RoleAssignerLaws (assign : RoleAssigner) : Prop :=
  assign_frame : forall u r, Preserves same_but_roles (assign u r).

Record RegFormProvider := mkRegForm {
  Schema : Type;
  ListForContext : string -> Reader Schema;
  Apply : User.t -> list (string * any) -> Schema -> string -> Reader User.t
}.

(** ** user/service.go *)
Module UserSvc.

(** [withDB] tells whether a [*gorm.DB] is wired; [regForm], [emailSender],
    [roleAssigner] and [emailVerifyGate] may be nil. *)
Record Service := mkService {
  hasher : Hasher;
  cfg : AuthConfig.t;
  emailSender : option EmailSender;
  roleAssigner : option RoleAssigner;
  defaultRoleID : UUID;
  regForm : option RegFormProvider;
  passwordValidator : string -> list string -> Reader unit;
  actionTokenSigningKey : string;
  emailVerifyGate : option (Env -> nat -> DB -> bool);
  withDB : bool
}.

Record RegisterInput := mkRegisterInput {
  Email : string;
  Password : string;
  DisplayName : option string;
  ExtraFields : list (string * any);
  SkipVerificationEmail : bool
}.

Record LoginInput := mkLoginInput { login_Email : string; login_Password : string }.

Section service.
Context `{Platform} `{JwtLib} (s : Service).

Definition withTx {A} (fn : bool -> M A) : M A :=
  if s.(withDB) then transaction (fn true) else fn false.

Definition requiresEmailVerification : M bool :=
  match s.(emailVerifyGate) with
  | None => ret true
  | Some g => ask (fun env n db => Ok (g env n db))
  end.

Definition validatePassword (pwd : string) (hints : list string) : M unit :=
  ask (s.(passwordValidator) pwd hints).

Definition derefStr (p : option string) : string := default "" p.

Definition userHintsForID (id : UUID) : M (list string) :=
  let! (u, err) := UserRepo.FindByID id ;;
  match err, u with
  | None, Some u =>
      ret (u.(User.Email) ::
           match u.(User.DisplayName) with
           | Some d => if String.eqb d "" then [] else [d]
           | None => []
           end)
  | _, _ => ret []
  end.

Definition applyRegFormExtras (u : User.t) (extras : list (string * any)) (context : string) : M User.t :=
  match s.(regForm) with
  | None => ret u
  | Some f =>
      schema <- ask (f.(ListForContext) context) ;;
      ask (f.(Apply) u extras schema context)
  end.

(** [tx != nil] selects the [InTx] variant when the sender has one. *)
Definition enqueueVerifyEmailInTx (tx : bool) (u : User.t) (authRequestID : option UUID) : M unit :=
  if String.eqb s.(actionTokenSigningKey) "" then ret tt
  else
    jti <- or_fail uuid_newV7 (ErrInternal "failed to generate verification jti") ;;
    now <- clock_now ;;
    let expiresAt := time_add now (24 * hour) in
    tokenStr <- or_fail (of_result (Sign
        (Claims.mk u.(User.ID) ActionVerifyEmail (uuid_string jti) authRequestID now expiresAt)
        s.(actionTokenSigningKey)))
      (ErrInternal "failed to sign verification token") ;;
    or_fail (UserRepo.UpdateFields u.(User.ID) (fun u =>
        u <| User.EmailVerifyToken := Some (uuid_string jti) |>
          <| User.EmailVerifyExpiresAt := Some expiresAt |>))
      (ErrInternal "failed to store verification jti") ;;;
    match s.(emailSender) with
    | None => ret tt
    | Some e =>
        match (if tx then e.(tx_Verification) else None) with
        | Some f => f u.(User.Email) tokenStr
        | None => e.(sender_Verification) u.(User.Email) tokenStr
        end
    end.

(** The checks the three ways of creating an account share: the password
    policy, then the unused email, then the hash. *)
Definition check_new_account (email password : string) (hints : list string) : M string :=
  validatePassword password hints ;;;
  let! (existing, err) := UserRepo.FindByEmail email ;;
  match err, existing with
  | Some _, _ => throw (ErrInternal "failed to check existing user")
  | None, Some _ => throw (ErrConflict "email already registered")
  | None, None => or_fail (ask (s.(hasher).(Hash) password)) (ErrInternal "failed to hash password")
  end.

Definition assign_role (u role : UUID) (prefix : string) (assign : RoleAssigner) : M unit :=
  map_err (assign u role) (fun e => ErrInternal (prefix +:+ error_string e)).

Definition Register (input : RegisterInput) : M User.t :=
  let email := to_lower (trim_space input.(Email)) in
  hash <- check_new_account email input.(Password) [email; derefStr input.(DisplayName)] ;;
  user <- applyRegFormExtras
            (User.zero <| User.Email := email |>
                       <| User.PasswordHash := Some hash |>
                       <| User.DisplayName := input.(DisplayName) |>
                       <| User.Active := true |>)
            input.(ExtraFields) "register" ;;
  withTx (fun tx =>
    user <- or_fail (UserRepo.Create user) (ErrInternal "failed to create user") ;;
    match s.(roleAssigner) with
    | Some assign =>
        if N.eqb s.(defaultRoleID) uuid_nil then ret tt
        else assign_role user.(User.ID) s.(defaultRoleID) "failed to assign default role: " assign
    | None => ret tt
    end ;;;
    (if input.(SkipVerificationEmail) then ret tt
     else enqueueVerifyEmailInTx tx user None) ;;;
    ret user).

Definition assign_roles (u : UUID) (roleIDs : list UUID) : M unit :=
  match s.(roleAssigner) with
  | None => ret tt
  | Some assign =>
      for_each roleIDs (fun rid =>
        assign_role u rid ("failed to assign role " +:+ uuid_string rid +:+ ": ") assign)
  end.

Definition RegisterAdmin (input : RegisterInput) (roleIDs : list UUID) : M User.t :=
  let email := to_lower (trim_space input.(Email)) in
  hash <- check_new_account email input.(Password) [email; derefStr input.(DisplayName)] ;;
  let u := User.zero <| User.Email := email |>
                     <| User.PasswordHash := Some hash |>
                     <| User.DisplayName := input.(DisplayName) |>
                     <| User.Active := true |> in
  withTx (fun _ =>
    u <- or_fail (UserRepo.Create u) (ErrInternal "failed to create user") ;;
    assign_roles u.(User.ID) roleIDs ;;;
    ret u).

Record FederationProvisionInput := mkFederationProvisionInput {
  fed_Email : string;
  fed_EmailVerified : bool;
  fed_DisplayName : string;
  fed_AvatarURL : string;
  fed_Password : string;
  fed_ExtraFields : list (string * any)
}.

Definition non_empty (x : string) : option string := if String.eqb x "" then None else Some x.

Definition CreateFromFederation (input : FederationProvisionInput) (roleIDs : list UUID) : M User.t :=
  let email := to_lower (trim_space input.(fed_Email)) in
  guard (negb (String.eqb email "")) (ErrBadRequest "federation provider returned no email") ;;;
  hash <- check_new_account email input.(fed_Password) [email; input.(fed_DisplayName)] ;;
  u <- applyRegFormExtras
         (User.zero <| User.Email := email |>
                    <| User.EmailVerified := input.(fed_EmailVerified) |>
                    <| User.PasswordHash := Some hash |>
                    <| User.MustSetPassword := false |>
                    <| User.Active := true |>
                    <| User.DisplayName := non_empty input.(fed_DisplayName) |>
                    <| User.AvatarURL := non_empty input.(fed_AvatarURL) |>)
         input.(fed_ExtraFields) "federation" ;;
  withTx (fun _ =>
    u <- or_fail (UserRepo.Create u) (ErrInternal "failed to create user") ;;
    let assignRoles :=
      match roleIDs with
      | [] => if N.eqb s.(defaultRoleID) uuid_nil then [] else [s.(defaultRoleID)]
      | _ => roleIDs
      end in
    assign_roles u.(User.ID) assignRoles ;;;
    ret u).

(** ** Sign-in *)

Definition incrementFailedAttempts (user : User.t) : M unit :=
  let attempts := int64_wrap (user.(User.FailedLoginAttempts) + 1) in
  now <- clock_now ;;
  let lock u :=
    if s.(cfg).(AuthConfig.MaxFailAttempts) <=? attempts
    then u <| User.LockedUntil := Some (time_add now s.(cfg).(AuthConfig.LockoutDuration)) |>
    else u in
  ignore (UserRepo.UpdateFields user.(User.ID) (fun u =>
    lock (u <| User.FailedLoginAttempts := attempts |>))).

(** The user the caller holds is updated too when the new hash is stored. *)
Definition maybeRehash (u : User.t) (plaintext : string) (needsRehash : bool) : M User.t :=
  if negb needsRehash then ret u
  else
    hash <- opt (ask (s.(hasher).(Hash) plaintext)) ;;
    match hash with
    | None => ret u
    | Some hash =>
        stored <- attempt (UserRepo.UpdateFields u.(User.ID)
                             (fun u => u <| User.PasswordHash := Some hash |>)) ;;
        match stored with
        | Err _ => ret u
        | Ok _ => ret (u <| User.PasswordHash := Some hash |>)
        end
    end.

Definition reset_attempts (u : User.t) : User.t :=
  u <| User.FailedLoginAttempts := 0 |> <| User.LockedUntil := None |>.

Definition Authenticate (input : LoginInput) : M User.t :=
  let email := to_lower (trim_space input.(login_Email)) in
  let! (user, err) := UserRepo.FindByEmail email ;;
  match err, user with
  | Some _, _ => throw (ErrInternal "failed to find user")
  | None, None => throw (ErrUnauthorized "invalid email or password")
  | None, Some user =>
      guard user.(User.Active) (ErrForbidden "account is deactivated") ;;;
      now <- clock_now ;;
      guard (negb (match user.(User.LockedUntil) with Some l => time_after l now | None => false end))
        (ErrAccountLocked "account is temporarily locked due to too many failed login attempts") ;;;
      match user.(User.PasswordHash) with
      | None => throw (ErrUnauthorized "invalid email or password")
      | Some hash =>
          match s.(hasher).(VerifyIdentify) input.(login_Password) hash with
          | Ok (true, needsRehash) =>
              user <- maybeRehash user input.(login_Password) needsRehash ;;
              (if user.(User.EmailVerified) then ret tt
               else
                 required <- requiresEmailVerification ;;
                 guard (negb required) (ErrEmailNotVerified "verify your email to sign in")) ;;;
              (if 0 <? user.(User.FailedLoginAttempts)
               then ignore (UserRepo.UpdateFields user.(User.ID) reset_attempts)
               else ret tt) ;;;
              ret user
          | _ =>
              incrementFailedAttempts user ;;;
              throw (ErrUnauthorized "invalid email or password")
          end
      end
  end.

(** ** Administration *)

Definition GetByID (id : UUID) : M User.t :=
  let! (user, err) := UserRepo.FindByID id ;;
  match err, user with
  | Some _, _ => throw (ErrInternal "failed to find user")
  | None, None => throw (ErrNotFound "user not found")
  | None, Some user => ret user
  end.

Definition Unlock (id : UUID) : M unit := UserRepo.UpdateFields id reset_attempts.

Record AdminUpdateInput := mkAdminUpdateInput {
  adm_Email : option string;
  adm_DisplayName : option string;
  adm_Active : option bool;
  adm_EmailVerified : option bool
}.

Definition AdminUpdate (id : UUID) (input : AdminUpdateInput) : M User.t :=
  user <- GetByID id ;;
  user <- match input.(adm_Email) with
          | None => ret user
          | Some e =>
              let email := to_lower (trim_space e) in
              let! (existing, err) := UserRepo.FindByEmail email ;;
              match err, existing with
              | Some _, _ => throw (ErrInternal "failed to check email")
              | None, existing =>
                  guard (match existing with Some x => N.eqb x.(User.ID) id | None => true end)
                    (ErrConflict "email already in use") ;;;
                  ret (user <| User.Email := email |>)
              end
          end ;;
  let user := match input.(adm_DisplayName) with
              | Some d => user <| User.DisplayName := Some d |> | None => user end in
  let user := match input.(adm_Active) with
              | Some a => user <| User.Active := a |> | None => user end in
  let user := match input.(adm_EmailVerified) with
              | Some v => user <| User.EmailVerified := v |> | None => user end in
  or_fail (UserRepo.Update user) (ErrInternal "failed to update user").

Definition Delete (id : UUID) : M unit :=
  GetByID id ;;;
  or_fail (UserRepo.Delete id) (ErrInternal "failed to delete user").

(** ** Passwords *)

Definition set_password (hash : string) (u : User.t) : User.t :=
  u <| User.PasswordHash := Some hash |> <| User.MustSetPassword := false |>.

Definition SetPassword (id : UUID) (newPassword : string) : M unit :=
  hints <- userHintsForID id ;;
  validatePassword newPassword hints ;;;
  hash <- or_fail (ask (s.(hasher).(Hash) newPassword)) (ErrInternal "failed to hash password") ;;
  UserRepo.UpdateFields id (set_password hash).

Definition SetInitialPassword (id : UUID) (newPassword : string) : M unit :=
  hints <- userHintsForID id ;;
  validatePassword newPassword hints ;;;
  u <- GetByID id ;;
  guard (negb (is_Some_b u.(User.PasswordHash) && negb u.(User.MustSetPassword)))
    (ErrBadRequest "password already set; use the change-password endpoint instead") ;;;
  hash <- or_fail (ask (s.(hasher).(Hash) newPassword)) (ErrInternal "failed to hash password") ;;
  UserRepo.UpdateFields id (set_password hash).

Definition VerifyPassword (id : UUID) (password : string) : M bool :=
  let! (user, err) := UserRepo.FindByID id ;;
  match err, user with
  | Some e, _ => throw e
  | None, None => ret false
  | None, Some user =>
      match user.(User.PasswordHash) with
      | None => ret false
      | Some hash =>
          let! (m, needsRehash) := of_result (s.(hasher).(VerifyIdentify) password hash) ;;
          (if m then maybeRehash user password needsRehash ;;; ret tt else ret tt) ;;;
          ret m
      end
  end.

Definition ChangePassword (id : UUID) (currentPassword newPassword : string) : M unit :=
  hints <- userHintsForID id ;;
  validatePassword newPassword hints ;;;
  user <- GetByID id ;;
  match user.(User.PasswordHash) with
  | None => throw (ErrBadRequest
      "account has no password set yet; use the set-password endpoint instead")
  | Some hash =>
      guard (match s.(hasher).(VerifyIdentify) currentPassword hash with
             | Ok (true, _) => true | _ => false end)
        (ErrUnauthorized "current password is incorrect") ;;;
      hash <- or_fail (ask (s.(hasher).(Hash) newPassword)) (ErrInternal "failed to hash password") ;;
      UserRepo.UpdateFields id (fun u => u <| User.PasswordHash := Some hash |>)
  end.

(** ** Email verification *)

Definition SendVerificationEmail (userID : UUID) (authRequestID : option UUID) : M unit :=
  u <- GetByID userID ;;
  guard (negb u.(User.EmailVerified)) (ErrBadRequest "email already verified") ;;;
  guard (negb (String.eqb s.(actionTokenSigningKey) ""))
    (ErrInternal "action token signing key not configured") ;;;
  withTx (fun tx => enqueueVerifyEmailInTx tx u authRequestID).

Definition ResendVerificationEmail (email : string) (authRequestID : option UUID) : M unit :=
  let! (u, err) := UserRepo.FindByEmail (to_lower (trim_space email)) ;;
  match err, u with
  | Some _, _ => throw (ErrInternal "failed to look up user")
  | None, None => ret tt
  | None, Some u =>
      if u.(User.EmailVerified) then ret tt
      else SendVerificationEmail u.(User.ID) authRequestID
  end.

Definition ConsumeVerificationToken (raw : string) : M (User.t * option UUID) :=
  guard (negb (String.eqb s.(actionTokenSigningKey) ""))
    (ErrInternal "action token signing key not configured") ;;;
  wall <- wall_now ;;
  claims <- or_fail (of_result (Parse wall raw s.(actionTokenSigningKey)))
              (ErrBadRequest "invalid or expired verification token") ;;
  guard (String.eqb claims.(Claims.Action) ActionVerifyEmail)
    (ErrBadRequest "invalid token action") ;;;
  let! (u, err) := UserRepo.FindByVerifyToken claims.(Claims.JTI) ;;
  match err, u with
  | Some _, _ => throw (ErrInternal "failed to verify email")
  | None, None => throw (ErrBadRequest "invalid or expired verification token")
  | None, Some u =>
      guard (N.eqb u.(User.ID) claims.(Claims.Subject))
        (ErrBadRequest "invalid or expired verification token") ;;;
      or_fail (UserRepo.UpdateFields u.(User.ID) (fun u =>
          u <| User.EmailVerified := true |>
            <| User.EmailVerifyToken := None |>
            <| User.EmailVerifyExpiresAt := None |>))
        (ErrInternal "failed to mark email verified") ;;;
      ret (u, claims.(Claims.RequestID))
  end.

Definition VerifyEmail (token : string) : M unit :=
  ConsumeVerificationToken token ;;; ret tt.

(** ** Password reset *)

Definition issuePasswordResetInTx (u : User.t) : M unit :=
  token <- or_fail (GenerateRandomString 32) (ErrInternal "failed to generate reset token") ;;
  let tokenHash := HashToken token in
  now <- clock_now ;;
  let expiresAt := time_add now (1 * hour) in
  withTx (fun tx =>
    or_fail (UserRepo.UpdateFields u.(User.ID) (fun u =>
        u <| User.PasswordResetToken := Some tokenHash |>
          <| User.PasswordResetExpiresAt := Some expiresAt |>))
      (ErrInternal "failed to store reset token") ;;;
    match s.(emailSender) with
    | None => ret tt
    | Some e =>
        match (if tx then e.(tx_PasswordReset) else None) with
        | Some f => f u.(User.Email) token
        | None => e.(sender_PasswordReset) u.(User.Email) token
        end
    end).

Definition ForgotPassword (email : string) : M unit :=
  let! (u, err) := UserRepo.FindByEmail (to_lower (trim_space email)) ;;
  match err, u with
  | None, Some u => issuePasswordResetInTx u
  | _, _ => ret tt
  end.

Definition AdminTriggerPasswordReset (userID : UUID) : M unit :=
  let! (u, err) := UserRepo.FindByID userID ;;
  match err, u with
  | Some _, _ => throw (ErrInternal "failed to find user")
  | None, None => throw (ErrNotFound "user not found")
  | None, Some u => issuePasswordResetInTx u
  end.

Definition ResetPassword (token newPassword : string) : M unit :=
  validatePassword newPassword [] ;;;
  let! (u, err) := UserRepo.FindByResetToken (HashToken token) ;;
  match err, u with
  | Some _, _ => throw (ErrInternal "failed to verify reset token")
  | None, None => throw (ErrBadRequest "invalid or expired reset token")
  | None, Some u =>
      hash <- or_fail (ask (s.(hasher).(Hash) newPassword)) (ErrInternal "failed to hash password") ;;
      UserRepo.UpdateFields u.(User.ID) (fun u =>
        reset_attempts
          (u <| User.PasswordHash := Some hash |>
             <| User.PasswordResetToken := None |>
             <| User.PasswordResetExpiresAt := None |>))
  end.

End service.
End UserSvc.

(** ** The table's invariant *)
Module UserFacts.
Import UserSvc.

(** Rows sit under their identifier and no two have the same email. *)
Definition users_wf (t : gmap UUID User.t) : Prop :=
  forall id u, t !! id = Some u ->
    u.(User.ID) = id /\
    forall id' u', t !! id' = Some u' -> u'.(User.Email) = u.(User.Email) -> id' = id.

Definition keeps_wf (d d' : DB) : Prop := users_wf d.(users) -> users_wf d'.(users).

#[export] Instance keeps_wf_preorder : PreOrder keeps_wf.
Proof. split; [intros d Hwf; exact Hwf | intros d d' d'' H1 H2 Hwf; apply H2, H1, Hwf]. Qed.

Lemma email_taken_false email except t :
  UserRepo.email_taken email except t = false ->
  forall id u, t !! id = Some u -> u.(User.ID) <> except -> u.(User.Email) <> email.
Proof.
  unfold UserRepo.email_taken. intros Hf id u Hu Hne Heq.
  destruct (first_row _ _ _) eqn:E; [done|]. rewrite first_row_None in E.
  specialize (E _ _ Hu). simpl in E. apply String.eqb_eq in Heq. apply N.eqb_neq in Hne.
  by rewrite Heq, Hne in E.
Qed.

Lemma insert_wf t row :
  users_wf t -> UserRepo.email_taken row.(User.Email) row.(User.ID) t = false ->
  users_wf (<[row.(User.ID) := row]> t).
Proof.
  intros Hwf Hfree id u Hu. apply lookup_insert_Some in Hu as [[<- <-] | [Hne Hu]].
  - split; [done|]. intros id' u' [[<- <-] | [Hne' Hu']]%lookup_insert_Some He; [done|].
    exfalso. destruct (Hwf _ _ Hu') as [Hid _].
    eapply email_taken_false; [exact Hfree | exact Hu' | congruence | done].
  - destruct (Hwf _ _ Hu) as [Hid Hun]. split; [done|].
    intros id' u' [[<- <-] | [Hne' Hu']]%lookup_insert_Some He; [|by eapply Hun].
    exfalso. eapply email_taken_false; [exact Hfree | exact Hu | congruence | done].
Qed.

Lemma alter_wf t f id :
  (forall u, (f u).(User.ID) = u.(User.ID) /\ (f u).(User.Email) = u.(User.Email)) ->
  users_wf t -> users_wf (alter f id t).
Proof.
  intros Hf Hwf.
  assert (Hl : forall i u, alter f id t !! i = Some u ->
            exists u0, t !! i = Some u0 /\ u.(User.ID) = u0.(User.ID) /\ u.(User.Email) = u0.(User.Email)).
  { intros i u. destruct (decide (id = i)) as [->|Hne].
    - rewrite lookup_alter_eq. destruct (t !! i) as [u0|]; [|done]. intros [= <-].
      exists u0. split; [done|]. apply Hf.
    - rewrite lookup_alter_ne by done. eauto. }
  intros i u (u0 & Hu0 & Hid & He)%Hl. destruct (Hwf _ _ Hu0) as [Hid0 Hun].
  split; [congruence|]. intros i' u' (u1 & Hu1 & _ & He1)%Hl He'. eapply Hun; [done | congruence].
Qed.

Lemma rows_without_wf t P : users_wf t -> users_wf (rows_without P t).
Proof.
  intros Hwf i u [Hu _]%rows_without_lookup. destruct (Hwf _ _ Hu) as [Hid Hun].
  split; [done|]. intros i' u' [Hu' _]%rows_without_lookup. by apply Hun.
Qed.

#[export] Instance Create_keeps_wf u : Preserves keeps_wf (UserRepo.Create u).
Proof.
  unfold UserRepo.Create. solve_preserves ltac:(idtac).
  apply (preserves_stmt keeps_wf). intros env db db' Hok Hwf.
  destruct (UserRepo.email_taken _ _ _) eqn:Et; [done|].
  destruct (users db !! _); [done|]. simplify_eq. simpl.
  eapply (insert_wf _ (_ <| User.Metadata ::= _ |>) Hwf Et).
Qed.

#[export] Instance Update_keeps_wf u : Preserves keeps_wf (UserRepo.Update u).
Proof.
  unfold UserRepo.Update. solve_preserves ltac:(idtac).
  apply (preserves_stmt keeps_wf). intros env db db' Hok Hwf.
  destruct (UserRepo.email_taken _ _ _) eqn:Et; [done|]. simplify_eq. simpl.
  exact (insert_wf _ (u <| User.UpdatedAt := a |>) Hwf Et).
Qed.

(** The row an insertion leaves. *)
Lemma wp_user_Create u env st :
  wp (UserRepo.Create u) (fun r st' =>
    match r with
    | Err _ => True
    | Ok row => row.(User.Email) = u.(User.Email) /\ st.(st_db).(users) !! row.(User.ID) = None /\
        st'.(st_db) = st.(st_db) <| users ::= insert row.(User.ID) row |>
    end) env st.
Proof.
  unfold UserRepo.Create. apply wp_bind, wp_BeforeCreate; [done|]. intros id n _.
  apply wp_bind, wp_wall_now. cbv zeta. apply wp_bind, wp_stmt; [done|].
  intros db' _. destruct (UserRepo.email_taken _ _ _); [done|].
  cbn [st_db]. destruct (users _ !! id) eqn:E; [done|]. intros [= <-]. by apply wp_ret.
Qed.

Lemma UpdateFields_keeps_wf id f :
  (forall u, (f u).(User.ID) = u.(User.ID) /\ (f u).(User.Email) = u.(User.Email)) ->
  Preserves keeps_wf (UserRepo.UpdateFields id f).
Proof.
  intros Hf. apply (preserves_update_table keeps_wf). intros env db Hwf. simpl.
  apply alter_wf; [|done]. intros u. apply (Hf u).
Qed.

#[export] Instance Delete_keeps_wf id : Preserves keeps_wf (UserRepo.Delete id).
Proof. apply (preserves_stmt keeps_wf). intros env db db' [= <-] Hwf. by apply rows_without_wf. Qed.

Lemma keeps_wf_mono (R : relation DB) {A} (m : M A) :
  (forall d d', R d d' -> d'.(users) = d.(users)) -> Preserves R m -> Preserves keeps_wf m.
Proof. intros HR Hm env st Hwf. by rewrite (HR _ _ (Hm env st)). Qed.

Lemma outbox_keeps_wf {A} (m : M A) : Preserves same_but_outbox m -> Preserves keeps_wf m.
Proof. apply keeps_wf_mono. by intros d d' [t ->]. Qed.

Lemma roles_keep_wf {A} (m : M A) : Preserves same_but_roles m -> Preserves keeps_wf m.
Proof. apply keeps_wf_mono. by intros d d' [t ->]. Qed.

(** ** Every operation keeps the invariant *)

Section operations.
Context `{Platform} `{JwtLib} (s : Service).
Context (Hsender : forall e, s.(emailSender) = Some e -> EmailSenderLaws e).
Context (Hassign : forall a, s.(roleAssigner) = Some a -> RoleAssignerLaws a).

Ltac keep_fields := apply UpdateFields_keeps_wf; intros ?; repeat case_match; done.

Ltac sender_frame :=
  pose proof (Hsender _ eq_refl); apply outbox_keeps_wf;
  first [by eapply tx_Verification_frame | by apply Verification_frame
        | by eapply tx_PasswordReset_frame | by apply PasswordReset_frame].

#[local] Instance check_new_account_keeps e p h : Preserves keeps_wf (check_new_account s e p h).
Proof. unfold check_new_account, validatePassword. solve_preserves ltac:(apply _).
Qed.

#[local] Instance applyRegFormExtras_keeps u x c : Preserves keeps_wf (applyRegFormExtras s u x c).
Proof. unfold applyRegFormExtras. solve_preserves ltac:(apply _). Qed.

#[local] Instance enqueue_keeps tx u rid : Preserves keeps_wf (enqueueVerifyEmailInTx s tx u rid).
Proof.
  unfold enqueueVerifyEmailInTx. solve_preserves keep_fields.
  all: sender_frame.
Qed.

Lemma assign_role_keeps u r p a `{RoleAssignerLaws a} : Preserves keeps_wf (assign_role u r p a).
Proof.
  unfold assign_role. solve_preserves ltac:(idtac).
  apply roles_keep_wf, assign_frame.
Qed.

#[local] Instance assign_roles_keeps u l : Preserves keeps_wf (assign_roles s u l).
Proof. unfold assign_roles. solve_preserves ltac:(by apply assign_role_keeps, Hassign). Qed.

#[local] Instance maybeRehash_keeps u p n : Preserves keeps_wf (maybeRehash s u p n).
Proof. unfold maybeRehash. solve_preserves keep_fields. Qed.

#[local] Instance incrementFailedAttempts_keeps u : Preserves keeps_wf (incrementFailedAttempts s u).
Proof. unfold incrementFailedAttempts. solve_preserves keep_fields. Qed.

#[local] Instance userHintsForID_keeps id : Preserves keeps_wf (userHintsForID id).
Proof. unfold userHintsForID. solve_preserves ltac:(apply _). Qed.

#[local] Instance GetByID_keeps id : Preserves keeps_wf (GetByID id).
Proof. unfold GetByID. solve_preserves ltac:(apply _). Qed.

#[local] Instance issuePasswordReset_keeps u : Preserves keeps_wf (issuePasswordResetInTx s u).
Proof.
  unfold issuePasswordResetInTx, withTx, GenerateRandomString. solve_preserves keep_fields.
  all: sender_frame.
Qed.

#[local] Instance SendVerificationEmail_keeps id rid :
  Preserves keeps_wf (SendVerificationEmail s id rid).
Proof. unfold SendVerificationEmail, withTx. solve_preserves ltac:(apply _). Qed.

#[local] Instance ConsumeVerificationToken_keeps raw :
  Preserves keeps_wf (ConsumeVerificationToken s raw).
Proof. unfold ConsumeVerificationToken. solve_preserves keep_fields. Qed.

(** A call of an operation of the service. *)
Inductive call :=
| CRegister (i : RegisterInput)
| CRegisterAdmin (i : RegisterInput) (roles : list UUID)
| CCreateFromFederation (i : FederationProvisionInput) (roles : list UUID)
| CAuthenticate (i : LoginInput)
| CUnlock (id : UUID)
| CAdminUpdate (id : UUID) (i : AdminUpdateInput)
| CDelete (id : UUID)
| CSetPassword (id : UUID) (pwd : string)
| CSetInitialPassword (id : UUID) (pwd : string)
| CVerifyPassword (id : UUID) (pwd : string)
| CChangePassword (id : UUID) (old new : string)
| CSendVerificationEmail (id : UUID) (rid : option UUID)
| CResendVerificationEmail (email : string) (rid : option UUID)
| CVerifyEmail (token : string)
| CForgotPassword (email : string)
| CAdminTriggerPasswordReset (id : UUID)
| CResetPassword (token pwd : string).

Definition perform (c : call) : M unit :=
  match c with
  | CRegister i => drop (Register s i)
  | CRegisterAdmin i r => drop (RegisterAdmin s i r)
  | CCreateFromFederation i r => drop (CreateFromFederation s i r)
  | CAuthenticate i => drop (Authenticate s i)
  | CUnlock id => Unlock id
  | CAdminUpdate id i => drop (AdminUpdate id i)
  | CDelete id => Delete id
  | CSetPassword id p => SetPassword s id p
  | CSetInitialPassword id p => SetInitialPassword s id p
  | CVerifyPassword id p => drop (VerifyPassword s id p)
  | CChangePassword id o n => ChangePassword s id o n
  | CSendVerificationEmail id r => SendVerificationEmail s id r
  | CResendVerificationEmail e r => ResendVerificationEmail s e r
  | CVerifyEmail t => VerifyEmail s t
  | CForgotPassword e => ForgotPassword s e
  | CAdminTriggerPasswordReset id => AdminTriggerPasswordReset s id
  | CResetPassword t p => ResetPassword s t p
  end.

Lemma perform_keeps c : Preserves keeps_wf (perform c).
Proof.
  destruct c; simpl; unfold drop, Register, RegisterAdmin, CreateFromFederation, Authenticate,
    Unlock, AdminUpdate, Delete, SetPassword, SetInitialPassword, VerifyPassword, ChangePassword,
    ResendVerificationEmail, VerifyEmail, ForgotPassword, AdminTriggerPasswordReset, ResetPassword,
    withTx, validatePassword, requiresEmailVerification;
  solve_preserves ltac:(first [keep_fields | by apply assign_role_keeps, Hassign]).
Qed.

End operations.

(** ** Sample services and tables *)

Definition sample_hasher : Hasher :=
  mkHasher (fun password hash => Ok (String.eqb password hash, false)) (fun p _ _ _ => Ok p).

Definition sample_cfg : AuthConfig.t :=
  AuthConfig.mk 3600 86400 (hour) (24 * hour) (10 * minute) (15 * minute) 8 2 (15 * minute)
    "" "signing-key" "" [].

(** A sender whose outbox holds its last message. *)
Definition sample_sender : EmailSender :=
  let put to _ := update_table (upd outbound_emails) (fun _ => insert 1%N OutboundEmail.zero) in
  mkEmailSender put put (Some put) (Some put).

Lemma sample_sender_laws : EmailSenderLaws sample_sender.
Proof.
  split; simpl; [intros | intros | intros ? ? ? [= <-] | intros ? ? ? [= <-]];
    apply (preserves_update_table same_but_outbox); intros env db; by eexists.
Qed.

Definition sample_service : Service :=
  mkService sample_hasher sample_cfg (Some sample_sender) None 0%N None
    (fun _ _ _ _ _ => Ok tt) "signing-key" None true.

Definition sample_user : User.t :=
  User.zero <| User.ID := 5%N |> <| User.Email := "a@b" |> <| User.PasswordHash := Some "secret" |>
    <| User.Active := true |> <| User.EmailVerifyToken := Some "jti" |>
    <| User.EmailVerifyExpiresAt := Some (1000 * second) |>.

Definition sample_users : DB := empty_db <| users := {[ 5%N := sample_user ]} |>.

Definition sample_env : Env :=
  mkEnv (10 * second) (10 * second) (fun _ => false) (fun n i => Z.of_nat (n + i)) (fun n => N.of_nat (S n)).

Lemma sample_users_wf : users_wf sample_users.(users).
Proof.
  intros id u. change (users sample_users) with ({[5%N := sample_user]} : gmap UUID User.t).
  intros [<- <-]%lookup_singleton_Some. split; [done|].
  by intros id' u' [<- <-]%lookup_singleton_Some.
Qed.

Definition sample_claims : jwtClaims.t :=
  jwtClaims.mk (@uuid_string sample_platform 5%N) "jti" (Some 1) (Some 1000) ActionVerifyEmail None.


(** ** Sign-in *)

Section sign_in.
Context `{Platform} `{JwtLib} (s : Service).

Definition locked (now : Z) (u : User.t) : Prop :=
  exists l, u.(User.LockedUntil) = Some l /\ now < l.

(** The row after a failed attempt at instant [now]. *)
Definition after_failure (now wall : Z) (u : User.t) : User.t :=
  let attempts := int64_wrap (u.(User.FailedLoginAttempts) + 1) in
  let u := u <| User.FailedLoginAttempts := attempts |> in
  (if s.(cfg).(AuthConfig.MaxFailAttempts) <=? attempts
   then u <| User.LockedUntil := Some (time_add now s.(cfg).(AuthConfig.LockoutDuration)) |>
   else u) <| User.UpdatedAt := wall |>.

Lemma wp_FindByEmail email env st (Q : result (option User.t * option error) -> State -> Prop) :
  Q (Ok (Some User.zero, Some driver_error)) (bump st) ->
  (forall id u, st.(st_db).(users) !! id = Some u -> u.(User.Email) = email ->
     Q (Ok (Some u, None)) (bump st)) ->
  ((forall id u, st.(st_db).(users) !! id = Some u -> u.(User.Email) <> email) ->
     Q (Ok (None, None)) (bump st)) ->
  wp (UserRepo.FindByEmail email) Q env st.
Proof.
  intros Hf Hs Hn. apply wp_find_row; intros _; [done|].
  destruct (first_row _ _ _) as [u|] eqn:E.
  - apply first_row_Some in E as (id & Hid & He). apply String.eqb_eq in He. by eapply Hs.
  - apply Hn. intros id u Hu. rewrite first_row_None in E.
    by apply String.eqb_neq, (E _ _ Hu).
Qed.

Lemma wp_maybeRehash u pwd rehash env st (Q : result User.t -> State -> Prop) :
  (forall u' st', u'.(User.ID) = u.(User.ID) -> u'.(User.EmailVerified) = u.(User.EmailVerified) ->
     u'.(User.FailedLoginAttempts) = u.(User.FailedLoginAttempts) -> Q (Ok u') st') ->
  wp (maybeRehash s u pwd rehash) Q env st.
Proof. intros HQ. unfold maybeRehash, UserRepo.UpdateFields. wp_steps; by apply HQ. Qed.

Ltac wp_hook ::=
  lazymatch goal with
  | |- wp (UserRepo.FindByEmail _) _ _ _ => apply wp_FindByEmail; [| intros ? ? ? ? | intros ?]
  | |- wp (maybeRehash _ _ _ _) _ _ _ => apply wp_maybeRehash; intros ? ? ? ? ?
  end.

(** The row a sign-in was accepted for. *)
Definition signed_in (input : LoginInput) (env : Env) (db : DB) (u : User.t) : Prop :=
  exists id row hash rehash,
    db.(users) !! id = Some row /\
    row.(User.Email) = to_lower (trim_space input.(login_Email)) /\
    u.(User.ID) = row.(User.ID) /\
    row.(User.Active) = true /\
    ~ locked env.(env_now) row /\
    row.(User.PasswordHash) = Some hash /\
    s.(hasher).(VerifyIdentify) input.(login_Password) hash = Ok (true, rehash) /\
    (row.(User.EmailVerified) = true \/
     exists gate n db, s.(emailVerifyGate) = Some gate /\ gate env n db = false).

Lemma wp_Authenticate input env st :
  wp (Authenticate s input)
    (fun r _ => match r with Err _ => True | Ok u => signed_in input env st.(st_db) u end) env st.
Proof.
  unfold Authenticate, signed_in, locked. wp_steps; try done. bool_simpl.
  all: do 4 eexists; split_and!; try done; try congruence.
  all: try (intros (l & Hl & Hlt); simplify_option_eq; unfold time_after in *; bool_simpl; lia).
  all: first [by left | right; do 3 eexists; split; [done | by apply negb_true_iff]].
Qed.

(** Under every fault schedule, a sign-in succeeds only for an active account
    with that email, that is not locked, whose stored hash the password
    matches, and whose email is verified unless the gate is open. *)
Theorem Authenticate_sound (input : LoginInput) (env : Env) (db : DB) :
  match (run (Authenticate s input) env db).1 with
  | Err _ => True
  | Ok u => signed_in input env db u
  end.
Proof.
  destruct (run _ _ _) as [r db'] eqn:Hr.
  by destruct (wp_run _ _ _ _ (wp_Authenticate input env (mkState db 0)) _ _ Hr).
Qed.

(** A wrong password counts one failed attempt on that account, locks it when
    the count reaches the configured bound, and changes nothing else. *)
Theorem Authenticate_failure (input : LoginInput) (id : UUID) (row : User.t) (hash : string)
    (env : Env) (db : DB) :
  no_faults env ->
  users_wf db.(users) ->
  db.(users) !! id = Some row ->
  row.(User.Email) = to_lower (trim_space input.(login_Email)) ->
  row.(User.Active) = true ->
  ~ locked env.(env_now) row ->
  row.(User.PasswordHash) = Some hash ->
  (forall rehash, s.(hasher).(VerifyIdentify) input.(login_Password) hash <> Ok (true, rehash)) ->
  run (Authenticate s input) env db
  = (Err (ErrUnauthorized "invalid email or password"),
     db <| users ::= insert id (after_failure env.(env_now) env.(env_wall) row) |>).
Proof.
  intros Hnf Hwf Hrow He Ha Hl Hh Hv.
  assert (Hfind : first_row N.leb
            (fun u => String.eqb u.(User.Email) (to_lower (trim_space input.(login_Email)))) db.(users)
          = Some row).
  { apply (first_row_unique _ _ _ id); [done | by apply String.eqb_eq |].
    intros id' u' Hu' Hu%String.eqb_eq. destruct (Hwf _ _ Hrow) as [_ Hun].
    assert (id' = id) as -> by (apply (Hun _ _ Hu'); congruence). congruence. }
  assert (Hlk : match row.(User.LockedUntil) with Some l => time_after l env.(env_now)
                | None => false end = false).
  { destruct (User.LockedUntil row) as [l|] eqn:El; [|done]. apply Z.ltb_ge.
    destruct (Z.lt_ge_cases env.(env_now) l); [|lia]. exfalso. apply Hl. by exists l. }
  destruct (Hwf _ _ Hrow) as [Hid _].
  unfold run, Authenticate, UserRepo.FindByEmail, UserRepo.find_user, find_row, bind. simpl.
  rewrite Hnf, Hfind. unfold guard. rewrite Ha. simpl. rewrite Hlk. simpl. rewrite Hh.
  assert (Hinc : incrementFailedAttempts s row env (mkState db 1)
            = (Ok tt, mkState (db <| users ::= insert id (after_failure env.(env_now) env.(env_wall) row) |>) 2)).
  { unfold incrementFailedAttempts, ignore, attempt, UserRepo.UpdateFields, update_table, stmt, bind.
    simpl. rewrite Hnf, Hid. simpl. do 2 f_equal. unfold upd at 1 3. simpl. f_equal.
    by rewrite (alter_present _ _ _ _ Hrow). }
  destruct (VerifyIdentify _ _ _) as [[[] rehash]|e]; [by edestruct Hv | |];
    unfold bump, bind; simpl; by rewrite Hinc.
Qed.
End sign_in.

Lemma Authenticate_failure_witness :
  run (Authenticate sample_service (mkLoginInput " A@B " "wrong")) sample_env sample_users
  = (Err (ErrUnauthorized "invalid email or password"),
     sample_users <| users ::= insert 5%N
       (after_failure sample_service (10 * second) (10 * second) sample_user) |>).
Proof.
  apply (Authenticate_failure sample_service (mkLoginInput " A@B " "wrong") 5%N sample_user "secret"
           sample_env sample_users); try (vm_compute; reflexivity).
  - exact sample_users_wf.
  - by intros (l & Hl & _).
  - by intros rehash.
Defined.

(** ** Single-use links *)

Section links.
Context `{Platform} `{JwtLib} (s : Service).

(** The row a link is for, and what following it does to the table. *)
Definition verified (wall : Z) (u : User.t) : User.t :=
  (u <| User.EmailVerified := true |>
     <| User.EmailVerifyToken := None |>
     <| User.EmailVerifyExpiresAt := None |>) <| User.UpdatedAt := wall |>.

Lemma wp_ConsumeVerificationToken raw env st :
  users_wf st.(st_db).(users) ->
  wp (ConsumeVerificationToken s raw)
    (fun r st' =>
       match r with
       | Err _ => True
       | Ok (u, rid) =>
           exists claims id,
             Parse env.(env_wall) raw s.(actionTokenSigningKey) = Ok claims /\
             claims.(Claims.Action) = ActionVerifyEmail /\
             claims.(Claims.Subject) = id /\ claims.(Claims.RequestID) = rid /\
             st.(st_db).(users) !! id = Some u /\
             u.(User.EmailVerifyToken) = Some claims.(Claims.JTI) /\
             st'.(st_db) = st.(st_db) <| users ::= insert id (verified env.(env_wall) u) |>
       end) env st.
Proof.
  intros Hwf. unfold ConsumeVerificationToken, UserRepo.FindByVerifyToken, UserRepo.find_user,
    UserRepo.UpdateFields. wp_steps; try done. bool_simpl.
  apply first_row_Some in Heqo as (id & Hid & Hl). unfold UserRepo.live_token, opt_str_eqb in Hl.
  bool_simpl. destruct (Hwf _ _ Hid) as [Hkey _]. subst.
  exists a, (User.ID t). split_and!; try done.
  - by destruct (User.EmailVerifyToken t) as [x|]; bool_simpl; subst.
  - unfold upd at 1 3. simpl. f_equal. by rewrite (alter_present _ _ _ _ Hid).
Qed.

(** A verification link verifies the account it names, once: following it again
    fails, whenever and under whatever faults. *)
Theorem verification_link_once `{!JwtLaws} (raw : string) (u : User.t) (rid : option UUID)
    (env env' : Env) (db db1 db2 : DB) (r : result (User.t * option UUID)) :
  users_wf db.(users) ->
  run (ConsumeVerificationToken s raw) env db = (Ok (u, rid), db1) ->
  run (ConsumeVerificationToken s raw) env' db1 = (r, db2) ->
  (exists row, db1.(users) !! u.(User.ID) = Some row /\ row.(User.EmailVerified) = true) /\
  exists e, r = Err e.
Proof.
  intros Hwf Hr1 Hr2.
  destruct (wp_run env _ _ _ (wp_ConsumeVerificationToken raw env (mkState db 0) Hwf) _ _ Hr1)
    as (n & c & id & Hp & Ha & Hs & Hr & Hu & Ht & Hdb). simpl in *.
  assert (Hus : db1.(users) = <[id := verified env.(env_wall) u]> db.(users)) by by rewrite Hdb.
  assert (Hwf1 : users_wf db1.(users)).
  { rewrite Hus, <-(alter_present (verified env.(env_wall)) _ _ _ Hu). by apply alter_wf. }
  destruct (Hwf _ _ Hu) as [Hkey _]. split.
  { rewrite Hkey, Hus. eexists. split; [apply lookup_insert_eq | done]. }
  destruct r as [[u' rid']|e]; [|by eexists]. exfalso.
  destruct (wp_run env' _ _ _ (wp_ConsumeVerificationToken raw env' (mkState db1 0) Hwf1) _ _ Hr2)
    as (n' & c' & id' & Hp' & _ & Hs' & _ & Hu' & Ht' & _). simpl in *.
  assert (id' = id) as -> by (pose proof (Parse_claims _ _ _ _ _ _ Hp Hp'); congruence).
  rewrite Hus, lookup_insert_eq in Hu'. by simplify_eq.
Qed.
End links.

Lemma verification_link_once_witness :
  let H := sample_platform in
  let H0 := sample_jwt sample_claims 1000 in
  let db1 := (run (ConsumeVerificationToken sample_service "token") sample_env sample_users).2 in
  let r := (run (ConsumeVerificationToken sample_service "token") sample_env db1).1 in
  exists e, r = Err e.
Proof.
  intros H H0 db1 r.
  assert (Hlaws : @JwtLaws H0) by (apply sample_jwt_laws; reflexivity).
  refine (proj2 (verification_link_once sample_service "token" sample_user None sample_env sample_env
           sample_users db1 (run (ConsumeVerificationToken sample_service "token") sample_env db1).2 r
           sample_users_wf _ _)); [vm_compute; reflexivity | vm_compute; reflexivity].
Defined.
End UserFacts.
