(* ===== verification/Argon2.v ===== *)
(** * crypto/argon2.go and crypto/multi.go: password hashes

    The printed form of an Argon2id hash and its parser, the verification of a
    password against it, and the hashes taken over from other systems.  The
    key derivation ([golang.org/x/crypto/argon2]) and bcrypt are parameters. *)
From S2P Require Import Prelude.
From S2P Require Import Errors.
From S2P Require Import GoLib.
From S2P Require Import GoNet.
From S2P Require Import Model.
From S2P Require Import Platform.
From S2P Require Import Config.
From S2P Require Import Exec.
From S2P Require Import Crypto.
From S2P Require Import GoEnc.
From S2P Require Import UserSvc.
From Stdlib Require Import Ascii.
Local Open Scope Z_scope.

Inductive bcrypt_result := BcryptMatch | BcryptMismatch | BcryptError (e : error).

(** [IDKey(password, salt, time, memory, threads, keyLen)], [Key] likewise, and
    [bcrypt.CompareHashAndPassword(hash, password)]. *)
Class Argon2Lib := {
  IDKey : list Z -> list Z -> Z -> Z -> Z -> Z -> list Z;
  Key : list Z -> list Z -> Z -> Z -> Z -> Z -> list Z;
  bcrypt_compare : string -> string -> bcrypt_result
}.

(** The key has the length asked for, in bytes. *)
Class Argon2Laws `{Argon2Lib} : Prop := {
  IDKey_length : forall p s t m th n, 0 <= n -> Z.of_nat (List.length (IDKey p s t m th n)) = n;
  IDKey_bytes : forall p s t m th n, Forall is_byte (IDKey p s t m th n)
}.

Definition argon2_Version : Z := 19.
Definition ErrInvalidHash : error := EOther "invalid argon2id hash format".
Definition ErrIncompatibleVersion : error := EOther "incompatible argon2id version".
Definition ErrUnsupportedScheme : error := EOther "unsupported password hash scheme".

Module Argon2Hasher.
Record t := mk {
  memory : Z;
  iterations : Z;
  parallelism : Z;
  saltLength : Z;
  keyLength : Z
}.

(** The widths of the fields. *)
Definition wf (h : t) : Prop :=
  0 <= h.(memory) < 2 ^ 32 /\ 0 <= h.(iterations) < 2 ^ 32 /\ 0 <= h.(parallelism) < 2 ^ 8 /\
  0 <= h.(saltLength) < 2 ^ 32 /\ 0 <= h.(keyLength) < 2 ^ 32.
End Argon2Hasher.

Record argon2Params := mkParams { p_memory : Z; p_iterations : Z; p_parallelism : Z }.

(** [fmt.Sprintf("$argon2id$v=%d$m=%d,t=%d,p=%d$%s$%s", ...)] *)
Definition encodeHash (p : argon2Params) (salt hash : list Z) : string :=
  "$argon2id$v=" +:+ dec argon2_Version +:+ "$m=" +:+ dec p.(p_memory)
  +:+ ",t=" +:+ dec p.(p_iterations) +:+ ",p=" +:+ dec p.(p_parallelism)
  +:+ "$" +:+ base64_raw_std salt +:+ "$" +:+ base64_raw_std hash.

(** [fmt.Sscanf(s, "m=%d,t=%d,p=%d", ...)]; what follows is not read. *)
Definition scan_params (s : string) : option argon2Params :=
  s ← scan_lit "m=" s; '(m, s) ← scan_uint 32 s;
  s ← scan_lit ",t=" s; '(t, s) ← scan_uint 32 s;
  s ← scan_lit ",p=" s; '(p, _) ← scan_uint 8 s;
  Some (mkParams m t p).

Definition scan_version (s : string) : option Z :=
  s ← scan_lit "v=" s; fst <$> scan_int s.

Definition decodeHash (encoded : string) : result (list Z * list Z * argon2Params) :=
  match split_on "$" encoded with
  | [_; _; version; params; salt; hash] =>
      match scan_version version with
      | None => Err ErrInvalidHash
      | Some v =>
          if negb (v =? argon2_Version) then Err ErrIncompatibleVersion
          else
            match scan_params params, DecodeString RawStdEncoding salt, DecodeString RawStdEncoding hash with
            | Some p, Some salt, Some hash => Ok (salt, hash, p)
            | _, _, _ => Err ErrInvalidHash
            end
      end
  | _ => Err ErrInvalidHash
  end.

Section argon2.
Context `{Argon2Lib}.

Definition Hash (h : Argon2Hasher.t) (password : string) : M string :=
  salt <- map_err (rand_read (Z.to_nat h.(Argon2Hasher.saltLength)))
            (wrap_error "failed to generate salt: ") ;;
  let p := mkParams h.(Argon2Hasher.memory) h.(Argon2Hasher.iterations) h.(Argon2Hasher.parallelism) in
  let hash := IDKey (bytes_of password) salt p.(p_iterations) p.(p_memory) p.(p_parallelism)
                h.(Argon2Hasher.keyLength) in
  ret (encodeHash p salt hash).

(** [uint32(len(hash))] *)
Definition rederive (kdf : list Z -> list Z -> Z -> Z -> Z -> Z -> list Z)
    (password encoded : string) : result bool :=
  match decodeHash encoded with
  | Err e => Err e
  | Ok (salt, hash, p) =>
      Ok (bool_decide (hash = kdf (bytes_of password) salt p.(p_iterations) p.(p_memory)
                                p.(p_parallelism) (Z.of_nat (List.length hash) mod 2 ^ 32)))
  end.

Definition Verify (password encodedHash : string) : result bool := rederive IDKey password encodedHash.

(** ** crypto/multi.go *)

Definition importedPrefix : string := "$imported$".

Definition verifyArgon2i (password stored : string) : result bool := rederive Key password stored.

(** The digest of a method name. *)
Definition digest_of (method : string) : option (list Z -> list Z) :=
  if String.eqb method "sha256" then Some sha256
  else if String.eqb method "sha1" then Some sha1
  else if String.eqb method "md5" then Some md5
  else None.

Definition verifyImportedDigest (password stored : string) : result bool :=
  match split_on "$" stored with
  | [_; _; method; want] =>
      match digest_of method with
      | Some digest => Ok (String.eqb (hex_encode (digest (bytes_of password))) (to_lower want))
      | None => Err ErrUnsupportedScheme
      end
  | _ => Err ErrInvalidHash
  end.

(** [ok, needsRehash, err]: an error comes with [needsRehash] as well, which no
    caller reads. *)
Definition rehash_with (needsRehash : bool) (r : result bool) : result (bool * bool) :=
  match r with Ok ok => Ok (ok, needsRehash) | Err e => Err e end.

Definition VerifyIdentify (password stored : string) : result (bool * bool) :=
  if has_prefix "$argon2id$" stored then rehash_with false (Verify password stored)
  else if has_prefix "$argon2i$" stored then rehash_with true (verifyArgon2i password stored)
  else if has_prefix "$2a$" stored || has_prefix "$2b$" stored || has_prefix "$2y$" stored then
    match bcrypt_compare stored password with
    | BcryptMatch => Ok (true, true)
    | BcryptMismatch => Ok (false, true)
    | BcryptError e => Err e
    end
  else if has_prefix importedPrefix stored then rehash_with true (verifyImportedDigest password stored)
  else Err ErrUnsupportedScheme.

Definition EncodeForeignHash (method hexDigest : string) : result string :=
  let method := to_lower method in
  match digest_of method with
  | None => Err ErrUnsupportedScheme
  | Some _ =>
      match hex_decode hexDigest with
      | None => Err ErrInvalidHash
      | Some _ => Ok (importedPrefix +:+ method +:+ "$" +:+ to_lower hexDigest)
      end
  end.

(** The hasher the services are given. *)
Definition argon2_hasher (h : Argon2Hasher.t) : Hasher :=
  mkHasher VerifyIdentify (fun password => reader_of (Hash h password)).
End argon2.

(** ** Facts *)
Module Argon2Facts.

(** Splitting at a separator. *)
Lemma split_on_none sep s : all_chars (fun c => negb (Ascii.eqb c sep)) s = true -> split_on sep s = [s].
Proof.
  induction s as [|c s IH]; simpl; [done|]. intros [Hc Hs]%andb_true_iff. apply negb_true_iff in Hc.
  by rewrite Hc, IH.
Qed.

Lemma split_on_app sep a b :
  all_chars (fun c => negb (Ascii.eqb c sep)) a = true ->
  split_on sep (a +:+ String sep b) = a :: split_on sep b.
Proof.
  induction a as [|c a IH]; str_simpl.
  - intros _. by rewrite Ascii.eqb_refl.
  - intros [Hc Ha]%andb_true_iff. apply negb_true_iff in Hc. by rewrite Hc, IH.
Qed.

Lemma all_chars_impl (P Q : ascii -> bool) s :
  (forall c, P c = true -> Q c = true) -> all_chars P s = true -> all_chars Q s = true.
Proof.
  intros HPQ. induction s as [|c s IH]; simpl; [done|]. intros [Hc Hs]%andb_true_iff.
  by rewrite HPQ, IH.
Qed.

Lemma digit_no_dollar c : is_digit c = true -> negb (Ascii.eqb c "$") = true.
Proof. by destruct (Ascii.eqb_spec c "$") as [->|]. Qed.

Lemma dec_no_dollar n : 0 <= n -> all_chars (fun c => negb (Ascii.eqb c "$")) (dec n) = true.
Proof. intros Hn. eapply all_chars_impl; [exact digit_no_dollar|]. by apply dec_value. Qed.

Lemma all_chars_of_list P l :
  Forall (fun c => P c = true) l -> all_chars P (String.string_of_list_ascii l) = true.
Proof. induction 1 as [|c l Hc Hl IH]; simpl; [done|]. by rewrite Hc, IH. Qed.

Lemma base64_no_dollar l :
  Forall is_byte l -> all_chars (fun c => negb (Ascii.eqb c "$")) (base64_raw_std l) = true.
Proof.
  intros Hl. unfold base64_raw_std. apply all_chars_of_list, Forall_map.
  eapply Forall_impl; [by apply b64_encode_chars|]. intros c (x & Hx & ->). simpl. revert x Hx.
  apply (forall_below 64). vm_compute. reflexivity.
Qed.

Lemma scan_params_print p rest :
  0 <= p.(p_memory) < 2 ^ 32 -> 0 <= p.(p_iterations) < 2 ^ 32 -> 0 <= p.(p_parallelism) < 2 ^ 8 ->
  ends rest ->
  scan_params ("m=" +:+ dec p.(p_memory) +:+ ",t=" +:+ dec p.(p_iterations) +:+ ",p="
               +:+ dec p.(p_parallelism) +:+ rest) = Some p.
Proof.
  intros Hm Ht Hp Hr. unfold scan_params, scan_lit. str_simpl.
  rewrite scan_uint_dec by done. str_simpl. rewrite scan_uint_dec by done. str_simpl.
  rewrite scan_uint_dec by done. by destruct p.
Qed.

Lemma string_app_nil_r (s : string) : s +:+ "" = s.
Proof. induction s as [|c s IH]; [done|]. by rewrite str_app_cons, IH. Qed.

Lemma decodeHash_encodeHash p salt hash :
  0 <= p.(p_memory) < 2 ^ 32 -> 0 <= p.(p_iterations) < 2 ^ 32 -> 0 <= p.(p_parallelism) < 2 ^ 8 ->
  Forall is_byte salt -> Forall is_byte hash ->
  decodeHash (encodeHash p salt hash) = Ok (salt, hash, p).
Proof.
  intros Hm Ht Hp Hs Hh. unfold decodeHash, encodeHash.
  set (ps := "m=" +:+ dec p.(p_memory) +:+ ",t=" +:+ dec p.(p_iterations) +:+ ",p="
             +:+ dec p.(p_parallelism)).
  assert (Hps : all_chars (fun c => negb (Ascii.eqb c "$")) ps = true).
  { unfold ps. rewrite !all_chars_app, !dec_no_dollar by lia. done. }
  assert (Hscan : scan_params ps = Some p).
  { pose proof (scan_params_print p "" Hm Ht Hp I) as Hsp. by rewrite string_app_nil_r in Hsp. }
  replace ("$argon2id$v=" +:+ dec argon2_Version +:+ "$m=" +:+ dec (p_memory p) +:+
           ",t=" +:+ dec (p_iterations p) +:+ ",p=" +:+ dec (p_parallelism p) +:+ "$" +:+
           base64_raw_std salt +:+ "$" +:+ base64_raw_std hash)
    with ("" +:+ String "$" ("argon2id" +:+ String "$" ("v=19" +:+ String "$" (ps +:+ String "$"
           (base64_raw_std salt +:+ String "$" (base64_raw_std hash))))))
    by (unfold ps; rewrite !string_app_assoc; reflexivity).
  rewrite !split_on_app by (done || by apply base64_no_dollar).
  rewrite split_on_none by by apply base64_no_dollar.
  change (scan_version "v=19") with (Some 19). simpl.
  by rewrite Hscan, !raw_std_roundtrip.
Qed.

(** ** Hexadecimal digests *)

Lemma forall_byte_b (P : Z -> bool) :
  forallb P (map Z.of_nat (seq 0 256)) = true -> forall b, is_byte b -> P b = true.
Proof. intros HP b Hb. by apply (forall_below 256). Qed.

Definition hex_ok (b : Z) : bool :=
  let c := hex_digit (Z.shiftr b 4) in let d := hex_digit (Z.land b 15) in
  match unhex c, unhex d with
  | Some x, Some y => (16 * x + y =? b)
  | _, _ => false
  end && Ascii.eqb (lower_ascii c) c && Ascii.eqb (lower_ascii d) d
  && negb (Ascii.eqb c "$") && negb (Ascii.eqb d "$").

Lemma hex_encode_cons b l :
  hex_encode (b :: l) = String (hex_digit (Z.shiftr b 4)) (String (hex_digit (Z.land b 15)) (hex_encode l)).
Proof. done. Qed.

Lemma hex_encode_facts l :
  Forall is_byte l ->
  hex_decode (hex_encode l) = Some l /\ to_lower (hex_encode l) = hex_encode l /\
  all_chars (fun c => negb (Ascii.eqb c "$")) (hex_encode l) = true.
Proof.
  induction 1 as [|b l Hb Hl (IH1 & IH2 & IH3)]; [done|]. rewrite hex_encode_cons.
  assert (Hok : hex_ok b = true) by (revert b Hb; apply forall_byte_b; vm_compute; reflexivity).
  unfold hex_ok in Hok. simpl. rewrite IH1, IH2, IH3.
  destruct (unhex (hex_digit (Z.shiftr b 4))) as [x|]; [|done].
  destruct (unhex (hex_digit (Z.land b 15))) as [y|]; [|done]. cbv zeta in Hok. bool_simpl.
  repeat match goal with H : Ascii.eqb _ _ = true |- _ => apply Ascii.eqb_eq in H; rewrite H
         | H : Ascii.eqb _ _ = false |- _ => rewrite H end.
  repeat split. simpl. do 2 f_equal. lia.
Qed.

Lemma hex_encode_inj l l' :
  Forall is_byte l -> Forall is_byte l' -> hex_encode l = hex_encode l' -> l = l'.
Proof.
  intros Hl Hl' He. destruct (hex_encode_facts l Hl) as [H1 _], (hex_encode_facts l' Hl') as [H2 _].
  congruence.
Qed.

Lemma land_255_byte x : is_byte (Z.land x 255).
Proof. unfold is_byte. change 255 with (Z.ones 8). rewrite Z.land_ones by lia. by apply Z.mod_pos_bound. Qed.

Lemma flat_bytes (ks : list Z) ws :
  Forall is_byte (flat_map (fun x => map (fun s => Z.land (Z.shiftr x s) 255) ks) ws).
Proof.
  induction ws as [|w ws IH]; simpl; [done|]. apply Forall_app. split; [|done].
  apply Forall_map, Forall_forall. intros k _. apply land_255_byte.
Qed.

Lemma digest_bytes method digest x : digest_of method = Some digest -> Forall is_byte (digest x).
Proof.
  unfold digest_of, sha256, sha1, md5.
  repeat case_match; intros [= <-];
    [apply (flat_bytes [24; 16; 8; 0]) | apply (flat_bytes [24; 16; 8; 0]) | apply (flat_bytes [0; 8; 16; 24])].
Qed.

Lemma digest_method method digest :
  digest_of method = Some digest -> method ∈ ["sha256"; "sha1"; "md5"].
Proof.
  unfold digest_of. repeat case_match; intros [=]; bool_simpl; subst; set_solver.
Qed.

Section facts.
Context `{Argon2Laws}.

(** The printed form of a derived key tests whether a password has that key. *)
Lemma Verify_encodeHash h password salt q :
  Argon2Hasher.wf h -> Forall is_byte salt ->
  let key p := IDKey (bytes_of p) salt h.(Argon2Hasher.iterations) h.(Argon2Hasher.memory)
                 h.(Argon2Hasher.parallelism) h.(Argon2Hasher.keyLength) in
  Verify q (encodeHash (mkParams h.(Argon2Hasher.memory) h.(Argon2Hasher.iterations)
                          h.(Argon2Hasher.parallelism)) salt (key password))
  = Ok (bool_decide (key password = key q)).
Proof.
  intros (Hm & Ht & Hp & Hs & Hk) Hsalt key. unfold Verify, rederive.
  rewrite decodeHash_encodeHash; try done; [|apply IDKey_bytes]. simpl.
  unfold key. by rewrite IDKey_length, Z.mod_small by lia.
Qed.

Lemma Hash_verifies h password env st stored :
  Argon2Hasher.wf h -> fst (Hash h password env st) = Ok stored -> Verify password stored = Ok true.
Proof.
  intros Hwf. unfold Hash, bind, ret, map_err, rand_read. destruct (env_fail _ _); [done|]. simpl.
  intros [= <-]. rewrite (Verify_encodeHash h) by (done || apply rand_bytes_are_bytes).
  by rewrite bool_decide_eq_true_2.
Qed.

(** C14: What a stored hash was made from, and the test it stands for. *)
Theorem password_hash_roundtrip (h : Argon2Hasher.t) (password : string) (env : Env) (db : DB)
    (Hwf : Argon2Hasher.wf h) :
  let '(r, db') := run (Hash h password) env db in
  db' = db /\
  match r with
  | Err _ => env.(env_fail) 0%nat = true
  | Ok stored =>
      VerifyIdentify password stored = Ok (true, false) /\
      exists salt, forall q,
        let key p := IDKey (bytes_of p) salt h.(Argon2Hasher.iterations) h.(Argon2Hasher.memory)
                       h.(Argon2Hasher.parallelism) h.(Argon2Hasher.keyLength) in
        VerifyIdentify q stored = Ok (bool_decide (key password = key q), false)
  end.
Proof.
  unfold run, Hash, bind, ret, map_err, rand_read. cbn [st_step].
  destruct (env_fail env 0) eqn:Hf; [done|]. cbn [bump st_step st_db]. split; [done|].
  set (salt := map _ (seq 0 _)). set (stored := encodeHash _ salt _).
  assert (Hv : forall q, VerifyIdentify q stored = rehash_with false (Verify q stored)) by done.
  assert (Hsalt : Forall is_byte salt) by apply rand_bytes_are_bytes.
  split; [|exists salt; intros q]; rewrite Hv; unfold stored; rewrite (Verify_encodeHash h) by done; [|done].
  by rewrite bool_decide_eq_true_2.
Qed.

(** A digest taken over from another system accepts exactly the passwords with
    that digest, and asks for a new hash; methods and digests of another form
    are refused. *)
Theorem foreign_digest_roundtrip (method password : string) :
  match digest_of (to_lower method) with
  | None => EncodeForeignHash method (hex_encode (sha256 (bytes_of password))) = Err ErrUnsupportedScheme
  | Some digest =>
      exists stored,
        EncodeForeignHash method (hex_encode (digest (bytes_of password))) = Ok stored /\
        forall q, VerifyIdentify q stored
                  = Ok (bool_decide (digest (bytes_of q) = digest (bytes_of password)), true)
  end.
Proof.
  unfold EncodeForeignHash. destruct (digest_of (to_lower method)) as [digest|] eqn:Hd; [|done].
  pose proof (digest_bytes _ _ (bytes_of password) Hd) as Hb.
  destruct (hex_encode_facts _ Hb) as (-> & Hlow & Hno). eexists. split; [done|]. intros q.
  set (m := to_lower method) in *. rewrite Hlow. set (x := hex_encode _) in *.
  pose proof (digest_method _ _ Hd) as Hm.
  assert (Hsplit : split_on "$" (importedPrefix +:+ m +:+ "$" +:+ x) = [""; "imported"; m; x]).
  { change (importedPrefix +:+ m +:+ "$" +:+ x) with
      ("" +:+ String "$" ("imported" +:+ String "$" (m +:+ String "$" x))).
    rewrite !split_on_app; [by rewrite split_on_none | | done | done].
    rewrite !elem_of_cons, elem_of_nil in Hm. by destruct_or! Hm; rewrite Hm. }
  assert (HV : VerifyIdentify q (importedPrefix +:+ m +:+ "$" +:+ x)
    = rehash_with true (verifyImportedDigest q (importedPrefix +:+ m +:+ "$" +:+ x))) by done.
  rewrite HV. unfold verifyImportedDigest. rewrite Hsplit, Hd.
  rewrite Hlow. unfold x. simpl. do 2 f_equal. apply eq_iff_eq_true.
  rewrite String.eqb_eq, bool_decide_eq_true. split; [|by intros ->].
  apply hex_encode_inj; [by eapply digest_bytes | done].
Qed.
End facts.

(** ** A sample key derivation: the password and the salt, padded *)

Definition sample_key (p s : list Z) (_ _ _ n : Z) : list Z :=
  map (fun i => nth i (map (fun b => b mod 256) (p ++ s)) 0) (seq 0 (Z.to_nat n)).

#[local] Instance sample_argon2 : Argon2Lib := {|
  IDKey := sample_key;
  Key := sample_key;
  bcrypt_compare _ _ := BcryptMismatch
|}.

#[local] Instance sample_argon2_laws : Argon2Laws.
Proof.
  split; intros; simpl; unfold sample_key.
  - rewrite length_map, length_seq. lia.
  - apply Forall_map, Forall_forall. intros i _. destruct (nth_in_or_default i (map (fun b => b mod 256) (p ++ s)) 0) as [Hin| ->].
    + apply in_map_iff in Hin as (b & <- & _). unfold is_byte. apply Z.mod_pos_bound. lia.
    + done.
Qed.

Definition sample_params : Argon2Hasher.t := Argon2Hasher.mk 64 3 2 4 8.

Lemma sample_params_wf : Argon2Hasher.wf sample_params.
Proof. unfold Argon2Hasher.wf. simpl. lia. Qed.

Lemma password_hash_roundtrip_witness :
  Argon2Hasher.wf sample_params /\
  let env := mkEnv 0 0 (fun _ => false) (fun _ i => Z.of_nat i) (fun _ => 0%N) in
  fst (run (Hash sample_params "pw") env empty_db)
    = Ok "$argon2id$v=19$m=64,t=3,p=2$AAECAw$cHcAAQIDAAA" /\
  let '(r, db') := run (Hash sample_params "pw") env empty_db in
  db' = empty_db /\
  match r with
  | Err _ => env.(env_fail) 0%nat = true
  | Ok stored =>
      VerifyIdentify "pw" stored = Ok (true, false) /\
      exists salt, forall q,
        let key p := IDKey (bytes_of p) salt 3 64 2 8 in
        VerifyIdentify q stored = Ok (bool_decide (key "pw" = key q), false)
  end.
Proof.
  split; [exact sample_params_wf|]. intros env. split; [vm_compute; reflexivity|].
  exact (password_hash_roundtrip sample_params "pw" env empty_db sample_params_wf).
Defined.
End Argon2Facts.
