(* ===== verification/MfaSvc.v ===== *)
(** * mfa/: TOTP enrolment, verification, replay protection, backup codes

    The statements on [mfa_methods] (mfa/repository.go) and the service
    (mfa/service.go).  The TOTP library is a parameter. *)
From S2P Require Import Prelude.
From S2P Require Import Errors.
From S2P Require Import GoLib.
From S2P Require Import Model.
From S2P Require Import Platform.
From S2P Require Import Exec.
From S2P Require Import Crypto.
Local Open Scope Z_scope.

(** [totp_validate code secret t] is [totp.Validate] at the instant [t];
    [totp_generate] returns the secret and the [otpauth] URL of a fresh key. *)
Class TotpLib := {
  totp_validate : string -> string -> Z -> bool;
  totp_generate : string -> string -> Reader (string * string)
}.

Definition totpPeriodSeconds : Z := 30.
Definition totpIssuer : string := "orion-auth-backend".
Definition backupCodeCount : nat := 10.

(** [time.Now().Unix() / totpPeriodSeconds] *)
Definition totp_step (wall : Z) : Z := Z.quot (time_unix wall) totpPeriodSeconds.

(** The library's documentation: a code is accepted during its own step, the
    one before and the one after. *)
Class TotpLaws `{TotpLib} (totp_code : string -> Z -> string) : Prop :=
  totp_window : forall code secret t,
    totp_validate code secret t = true <->
    exists d, -1 <= d <= 1 /\ code = totp_code secret (totp_step t + d).

(** ** mfa/repository.go *)
Module MfaRepo.

Definition Create (m : MFAMethod.t) : M MFAMethod.t :=
  id <- BeforeCreate m.(MFAMethod.ID) ;;
  wall <- wall_now ;;
  let row := m <| MFAMethod.ID := id |>
               <| MFAMethod.CreatedAt ::= auto_time wall |>
               <| MFAMethod.UpdatedAt ::= auto_time wall |> in
  create_in mfa_methods (upd mfa_methods) id row ;;;
  ret row.

Definition find (P : MFAMethod.t -> bool) : M (option MFAMethod.t * option error) :=
  find_row MFAMethod.zero (fun _ db => first_row N.leb P db.(mfa_methods)).

Definition FindByUserAndType (userID : UUID) (mfaType : string) :
    M (option MFAMethod.t * option error) :=
  find (fun m => N.eqb m.(MFAMethod.UserID) userID && String.eqb m.(MFAMethod.Type_) mfaType).

Definition verified_of (userID : UUID) (m : MFAMethod.t) : bool :=
  N.eqb m.(MFAMethod.UserID) userID && m.(MFAMethod.Verified).

Definition FindVerifiedByUser (userID : UUID) : M (option MFAMethod.t * option error) :=
  find (verified_of userID).

Definition Update (m : MFAMethod.t) : M unit :=
  wall <- wall_now ;;
  update_table (upd mfa_methods)
    (fun _ => insert m.(MFAMethod.ID) (m <| MFAMethod.UpdatedAt := wall |>)).

Definition Delete (id : UUID) : M unit := update_table (upd mfa_methods) (fun _ => delete id).

End MfaRepo.

(** ** mfa/service.go *)
Module MfaSvc.

Record EnrollResponse := mkEnrollResponse {
  Secret : string;
  URL : string;
  Method : MFAMethod.t
}.

Section service.
Context `{TotpLib}.

Definition Enroll (userID : UUID) (email : string) : M EnrollResponse :=
  let! (existing, err) := MfaRepo.FindByUserAndType userID "totp" ;;
  match err with
  | Some _ => throw (ErrInternal "failed to check existing MFA")
  | None =>
      guard (negb (match existing with Some m => m.(MFAMethod.Verified) | None => false end))
        (ErrConflict "TOTP already enrolled and verified") ;;;
      match existing with
      | Some m => ignore (MfaRepo.Delete m.(MFAMethod.ID))
      | None => ret tt
      end ;;;
      let! (secret, url) := or_fail (ask (totp_generate totpIssuer email))
                              (ErrInternal "failed to generate TOTP key") ;;
      m <- or_fail (MfaRepo.Create
             (MFAMethod.zero <| MFAMethod.UserID := userID |>
                             <| MFAMethod.Type_ := "totp" |>
                             <| MFAMethod.Secret := secret |>
                             <| MFAMethod.Verified := false |>))
             (ErrInternal "failed to save MFA method") ;;
      ret (mkEnrollResponse secret url m)
  end.

Fixpoint generateCodes (n : nat) : M (list string * list string) :=
  match n with
  | O => ret ([], [])
  | S n' =>
      code <- GenerateRandomString 6 ;;
      let! (raw, hashed) := generateCodes n' ;;
      ret (code :: raw, HashToken code :: hashed)
  end.

Definition generateBackupCodes : M (list string * list string) := generateCodes backupCodeCount.

Definition Verify (userID : UUID) (code : string) : M (list string) :=
  let! (m, err) := MfaRepo.FindByUserAndType userID "totp" ;;
  match err, m with
  | None, Some m =>
      guard (negb m.(MFAMethod.Verified)) (ErrBadRequest "TOTP already verified") ;;;
      wall <- wall_now ;;
      guard (totp_validate code m.(MFAMethod.Secret) wall) (ErrBadRequest "invalid TOTP code") ;;;
      let! (backupCodes, hashedCodes) := or_fail generateBackupCodes
                                           (ErrInternal "failed to generate backup codes") ;;
      or_fail (MfaRepo.Update (m <| MFAMethod.Verified := true |>
                                 <| MFAMethod.BackupCodes := hashedCodes |>))
        (ErrInternal "failed to activate TOTP") ;;;
      ret backupCodes
  | _, _ => throw (ErrNotFound "no TOTP enrollment found")
  end.

(** The slice without its first occurrence of [x], if it holds one. *)
Fixpoint remove_code (x : string) (l : list string) : option (list string) :=
  match l with
  | [] => None
  | y :: l' => if String.eqb y x then Some l' else cons y <$> remove_code x l'
  end.

Definition ValidateCode (userID : UUID) (code : string) : M bool :=
  let! (m, err) := MfaRepo.FindVerifiedByUser userID ;;
  match err, m with
  | None, Some m =>
      wall <- wall_now ;;
      if totp_validate code m.(MFAMethod.Secret) wall then
        let currentStep := totp_step wall in
        guard (m.(MFAMethod.LastUsedTOTPStep) <? currentStep)
          (ErrUnauthorized "TOTP code already used; wait for the next code") ;;;
        or_fail (MfaRepo.Update (m <| MFAMethod.LastUsedTOTPStep := currentStep |>))
          (ErrInternal "authentication failed; please retry") ;;;
        ret true
      else
        match remove_code (HashToken code) m.(MFAMethod.BackupCodes) with
        | Some rest =>
            or_fail (MfaRepo.Update (m <| MFAMethod.BackupCodes := rest |>))
              (ErrInternal "authentication failed; please retry") ;;;
            ret true
        | None => ret false
        end
  | _, _ => ret false
  end.

Definition HasMFA (userID : UUID) : M bool :=
  let! (m, err) := MfaRepo.FindVerifiedByUser userID ;;
  match err with
  | Some e => throw e
  | None => ret (is_Some_b m)
  end.

Definition ForceDisable (userID : UUID) : M unit :=
  let! (m, err) := MfaRepo.FindVerifiedByUser userID ;;
  match err, m with
  | Some _, _ => throw (ErrInternal "failed to look up MFA")
  | None, None => ret tt
  | None, Some m => or_fail (MfaRepo.Delete m.(MFAMethod.ID)) (ErrInternal "failed to disable MFA")
  end.

Definition Disable (userID : UUID) (code : string) : M unit :=
  let! (m, err) := MfaRepo.FindVerifiedByUser userID ;;
  match err, m with
  | None, Some m =>
      wall <- wall_now ;;
      guard (totp_validate code m.(MFAMethod.Secret) wall) (ErrBadRequest "invalid TOTP code") ;;;
      or_fail (MfaRepo.Delete m.(MFAMethod.ID)) (ErrInternal "failed to disable MFA")
  | _, _ => throw (ErrNotFound "no verified MFA method found")
  end.

Definition RegenerateBackupCodes (userID : UUID) (code : string) : M (list string) :=
  let! (m, err) := MfaRepo.FindVerifiedByUser userID ;;
  match err, m with
  | None, Some m =>
      wall <- wall_now ;;
      guard (totp_validate code m.(MFAMethod.Secret) wall) (ErrBadRequest "invalid TOTP code") ;;;
      let! (backupCodes, hashedCodes) := or_fail generateBackupCodes
                                           (ErrInternal "failed to generate backup codes") ;;
      or_fail (MfaRepo.Update (m <| MFAMethod.BackupCodes := hashedCodes |>))
        (ErrInternal "failed to save backup codes") ;;;
      ret backupCodes
  | _, _ => throw (ErrNotFound "no verified MFA method found")
  end.

End service.
End MfaSvc.

(** ** The interface the OAuth and reauthentication services use *)

Record MFAValidator := mkMFAValidator {
  v_HasMFA : UUID -> M bool;
  v_ValidateCode : UUID -> string -> M bool
}.

Definition same_but_mfa (d d' : DB) : Prop := exists t, d' = d <| mfa_methods := t |>.

#[export] Instance same_but_mfa_preorder : PreOrder same_but_mfa.
Proof.
  split.
  - intros d. exists d.(mfa_methods). by destruct d.
  - intros d d' d'' [t ->] [t' ->]. by exists t'.
Qed.

Class MFAValidatorLaws (v : MFAValidator) : Prop := {
  HasMFA_frame : forall u, ReadOnly (v.(v_HasMFA) u);
  ValidateCode_frame : forall u c, Preserves same_but_mfa (v.(v_ValidateCode) u c)
}.

(** [mfa.Service] as an [MFAValidator]. *)
Definition mfa_service `{TotpLib} : MFAValidator :=
  mkMFAValidator MfaSvc.HasMFA MfaSvc.ValidateCode.

#[export] Instance mfa_service_laws `{TotpLib} : MFAValidatorLaws mfa_service.
Proof.
  split; simpl.
  - intros u. unfold MfaSvc.HasMFA. solve_preserves ltac:(apply _).
  - intros u c. unfold MfaSvc.ValidateCode, MfaRepo.Update.
    solve_preserves ltac:(apply preserves_update_table; side; intros env db; by eexists).
Qed.

(** ** Facts *)
Module MfaFacts.
Import MfaSvc.

(** Rows sit under their identifier and a user has one verified method. *)
Definition mfa_wf (t : gmap UUID MFAMethod.t) : Prop :=
  forall id m, t !! id = Some m -> m.(MFAMethod.ID) = id /\
    (m.(MFAMethod.Verified) = true -> forall id' m', t !! id' = Some m' ->
       m'.(MFAMethod.Verified) = true -> m'.(MFAMethod.UserID) = m.(MFAMethod.UserID) -> id' = id).

Lemma remove_code_spec x l :
  match remove_code x l with
  | Some rest => Permutation (x :: rest) l
  | None => x ∉ l
  end.
Proof.
  induction l as [|y l IH]; simpl; [set_solver|].
  destruct (String.eqb_spec y x) as [->|Hne]; [done|].
  destruct (remove_code x l); simpl; [|set_solver].
  etrans; [apply perm_swap | by constructor].
Qed.

Section validate.
Context `{TotpLib}.

(** What a successful check leaves of the method's row. *)
Inductive used_up (wall : Z) (code : string) (m m' : MFAMethod.t) : Prop :=
| UsedTotp :
    totp_validate code m.(MFAMethod.Secret) wall = true ->
    m.(MFAMethod.LastUsedTOTPStep) < totp_step wall ->
    m' = m <| MFAMethod.LastUsedTOTPStep := totp_step wall |> <| MFAMethod.UpdatedAt := wall |> ->
    used_up wall code m m'
| UsedBackup rest :
    totp_validate code m.(MFAMethod.Secret) wall = false ->
    Permutation (HashToken code :: rest) m.(MFAMethod.BackupCodes) ->
    m' = m <| MFAMethod.BackupCodes := rest |> <| MFAMethod.UpdatedAt := wall |> ->
    used_up wall code m m'.

(** The row a code was accepted for, and the store after it. *)
Definition accepted (userID : UUID) (code : string) (env : Env) (db db' : DB) : Prop :=
  exists id m m', db.(mfa_methods) !! id = Some m /\
    m.(MFAMethod.UserID) = userID /\ m.(MFAMethod.Verified) = true /\
    used_up env.(env_wall) code m m' /\
    db' = db <| mfa_methods ::= insert m.(MFAMethod.ID) m' |>.

Lemma wp_ValidateCode userID code env st :
  wp (ValidateCode userID code)
    (fun r st' => match r with
                  | Ok true => accepted userID code env st.(st_db) st'.(st_db)
                  | _ => st'.(st_db) = st.(st_db)
                  end) env st.
Proof.
  unfold ValidateCode, MfaRepo.FindVerifiedByUser, MfaRepo.find, MfaRepo.Update.
  wp_steps; try done.
  - apply first_row_Some in Heqo as (id & Hid & Hm). unfold MfaRepo.verified_of in Hm. bool_simpl.
    do 3 eexists. split_and!; [exact Hid | done | done | | reflexivity].
    by apply UsedTotp.
  - apply first_row_Some in Heqo as (id & Hid & Hm). unfold MfaRepo.verified_of in Hm. bool_simpl.
    do 3 eexists. split_and!; [exact Hid | done | done | | reflexivity].
    match goal with Hr : remove_code ?x ?l = Some _ |- _ =>
      pose proof (remove_code_spec x l) as Hs; rewrite Hr in Hs end.
    by eapply UsedBackup.
Qed.

(** A code is accepted only for a verified method of the user, and only after
    the store records it as used: the step of a TOTP code, strictly later than
    the last one, or the removal of one backup code.  A code that is refused
    changes nothing, whatever the faults. *)
Theorem ValidateCode_spec (userID : UUID) (code : string) (env : Env) (db : DB) :
  let '(r, db') := run (ValidateCode userID code) env db in
  match r with
  | Ok true => accepted userID code env db db'
  | _ => db' = db
  end.
Proof.
  destruct (run _ _ _) as [r db'] eqn:Hr.
  by destruct (wp_run _ _ _ _ (wp_ValidateCode userID code env (mkState db 0)) _ _ Hr).
Qed.

(** After a code was accepted, no TOTP code of that user is accepted again
    before the next step begins. *)
Theorem no_replay_in_step (userID : UUID) (code code' : string) (env env' : Env)
    (db db1 db2 : DB) (m : MFAMethod.t) (r : result bool) :
  mfa_wf db.(mfa_methods) ->
  db.(mfa_methods) !! m.(MFAMethod.ID) = Some m ->
  m.(MFAMethod.UserID) = userID -> m.(MFAMethod.Verified) = true ->
  totp_validate code m.(MFAMethod.Secret) env.(env_wall) = true ->
  run (ValidateCode userID code) env db = (Ok true, db1) ->
  run (ValidateCode userID code') env' db1 = (r, db2) ->
  totp_step env'.(env_wall) <= totp_step env.(env_wall) ->
  totp_validate code' m.(MFAMethod.Secret) env'.(env_wall) = true ->
  r <> Ok true.
Proof.
  intros Hwf Hm Hu Hver Hcode Hr1 Hr2 Hstep Hcode' ->.
  destruct (wp_run env _ _ _ (wp_ValidateCode userID code env (mkState db 0)) _ _ Hr1)
    as (n & id & m0 & m1 & Hm0 & Hu0 & Hv0 & Hused & Hdb). simpl in *.
  destruct (Hwf _ _ Hm) as [_ Hone]. destruct (Hwf _ _ Hm0) as [Hid0 _].
  assert (m0 = m) as ->.
  { assert (id = m.(MFAMethod.ID)) as -> by (eapply Hone; [done | exact Hm0 | done | congruence]).
    congruence. }
  destruct Hused as [_ _ Hm1|]; [|congruence].
  destruct (wp_run env' _ _ _ (wp_ValidateCode userID code' env' (mkState db1 0)) _ _ Hr2)
    as (n' & id' & m0' & m1' & Hm0' & Hu0' & Hv0' & Hused' & _). simpl in *.
  assert (Htab : db1.(mfa_methods) = <[m.(MFAMethod.ID) := m1]> db.(mfa_methods)) by by rewrite Hdb.
  rewrite Htab in Hm0'. apply lookup_insert_Some in Hm0' as [[<- <-] | [Hne Hm0']].
  - destruct Hused' as [_ Hlt _|? Hf]; subst m1; simpl in *; [lia|].
    unfold upd in Hf; simpl in Hf. congruence.
  - apply Hne. symmetry. eapply Hone; [done | exact Hm0' | done | congruence].
Qed.
End validate.

(** ** A sample TOTP library: the code of a step is its binary digits *)

Definition sample_code (secret : string) (step : Z) : string :=
  secret +:+ pos_string (Z.to_pos (step + 1)).

Definition sample_totp : TotpLib := {|
  totp_validate code secret t :=
    existsb (fun d => String.eqb code (sample_code secret (totp_step t + d))) [-1; 0; 1];
  totp_generate _ _ _ _ _ := Ok ("secret", "url")
|}.

Lemma sample_totp_laws : @TotpLaws sample_totp sample_code.
Proof.
  intros code secret t. unfold totp_validate, sample_totp. rewrite existsb_exists. split.
  - intros (d & Hd & He%String.eqb_eq). exists d. split; [|done]. simpl in Hd. lia.
  - intros (d & Hd & ->). exists d. split; [simpl; lia | apply String.eqb_refl].
Qed.

Definition sample_method : MFAMethod.t :=
  MFAMethod.zero <| MFAMethod.ID := 7%N |> <| MFAMethod.UserID := 3%N |>
    <| MFAMethod.Type_ := "totp" |> <| MFAMethod.Secret := "k" |> <| MFAMethod.Verified := true |>
    <| MFAMethod.BackupCodes := [HashToken "backup"] |>.

Definition sample_db : DB := empty_db <| mfa_methods := {[ 7%N := sample_method ]} |>.

Definition env_at (wall : Z) : Env := mkEnv wall wall (fun _ => false) (fun _ _ => 0) N.of_nat.

Lemma no_replay_in_step_witness :
  let code := sample_code "k" 100 in
  let db1 := (run (@ValidateCode sample_totp 3 code) (env_at (3000 * second)) sample_db).2 in
  let r := (run (@ValidateCode sample_totp 3 code) (env_at (3029 * second)) db1).1 in
  r <> Ok true.
Proof.
  intros code db1 r.
  apply (@no_replay_in_step sample_totp 3 code code (env_at (3000 * second)) (env_at (3029 * second))
           sample_db db1 (run (@ValidateCode sample_totp 3 code) (env_at (3029 * second)) db1).2
           sample_method r); try (vm_compute; reflexivity).
  - intros id m. change (mfa_methods sample_db) with ({[7%N := sample_method]} : gmap UUID MFAMethod.t).
    intros [<- <-]%lookup_singleton_Some. split; [done|].
    intros _ id' m' [<- <-]%lookup_singleton_Some. done.
  - by vm_compute.
Defined.

(** The code of a step is accepted in each of the three steps around it: what
    [ValidateCode] records is the step of the clock, not the step of the code. *)
Example code_accepted_three_times :
  let code := sample_code "k" 100 in
  let try_at wall db := run (@ValidateCode sample_totp 3 code) (env_at wall) db in
  let r1 := try_at (2970 * second) sample_db in
  let r2 := try_at (3000 * second) r1.2 in
  let r3 := try_at (3030 * second) r2.2 in
  (r1.1, r2.1, r3.1) = (Ok true, Ok true, Ok true).
Proof. vm_compute. reflexivity. Qed.
End MfaFacts.
