(* ===== verification/ReauthSvc.v ===== *)
(** * reauth/: step-up reauthentication tokens

    The statements on [reauth_tokens] (reauth/repository.go) and the service
    (reauth/service.go), over the password, MFA and passkey checks it is given. *)
From S2P Require Import Prelude.
From S2P Require Import Errors.
From S2P Require Import GoLib.
From S2P Require Import Model.
From S2P Require Import Exec.
From S2P Require Import Crypto.
From S2P Require Import MfaSvc.
Local Open Scope Z_scope.

(** ** reauth/repository.go *)
Module ReauthRepo.

Definition Create (t : ReauthToken.t) : M unit :=
  wall <- wall_now ;;
  create_in reauth_tokens (upd reauth_tokens) t.(ReauthToken.ID)
    (t <| ReauthToken.CreatedAt ::= auto_time wall |>).

Definition FindByHash (hash : string) : M (option ReauthToken.t * option error) :=
  find_row ReauthToken.zero (fun _ db => db.(reauth_tokens) !! hash).

Definition used_now (wall : Z) (consumedBy : string) (t : ReauthToken.t) : ReauthToken.t :=
  if t.(ReauthToken.Used) then t
  else t <| ReauthToken.Used := true |>
         <| ReauthToken.UsedAt := Some wall |>
         <| ReauthToken.ConsumedBy := Some consumedBy |>.

Definition MarkUsed (hash consumedBy : string) : M unit :=
  update_table (upd reauth_tokens) (fun env => alter (used_now env.(env_wall) consumedBy) hash).

Definition DeleteExpired : M Z :=
  db <- get_db ;;
  wall <- wall_now ;;
  update_table (upd reauth_tokens) (fun env =>
    filter (fun kt => env.(env_wall) <= kt.2.(ReauthToken.ExpiresAt))) ;;;
  ret (count_rows (fun t => time_before t.(ReauthToken.ExpiresAt) wall) db.(reauth_tokens)).

Definition DeleteForSession (sessionID : UUID) : M unit :=
  update_table (upd reauth_tokens) (fun _ =>
    filter (fun kt => kt.2.(ReauthToken.SessionID) <> sessionID)).

End ReauthRepo.

(** ** reauth/service.go *)
Module ReauthSvc.

Record Service := mkService {
  passwordVer : UUID -> string -> M bool;
  mfaValidator : option MFAValidator;
  passkeyVer : option (UUID -> UUID -> string -> M bool);
  tokenTTL : Z
}.

Record IssueRequest := mkIssueRequest {
  Method : string;
  Password : string;
  Code : string;
  PasskeyChallengeID : UUID;
  PasskeyResponse : string
}.

Record IssueResponse := mkIssueResponse {
  Token : string;
  ExpiresAt : Z;
  resp_Method : string
}.

Section service.
Context (s : Service).

Definition verifyPasswordMethod (userID : UUID) (req : IssueRequest) : M unit :=
  guard (negb (String.eqb req.(Password) "")) (ErrBadRequest "password is required") ;;;
  ok <- or_fail (s.(passwordVer) userID req.(Password)) (ErrInternal "failed to verify password") ;;
  guard ok (ErrUnauthorized "invalid password").

Definition verifyCodeMethod (userID : UUID) (req : IssueRequest) : M unit :=
  match s.(mfaValidator) with
  | None => throw (ErrInternal "mfa validator not configured")
  | Some v =>
      guard (negb (String.eqb req.(Code) "")) (ErrBadRequest "code is required") ;;;
      hasMFA <- or_fail (v.(v_HasMFA) userID) (ErrInternal "failed to check mfa") ;;
      guard hasMFA (ErrBadRequest "mfa is not enrolled") ;;;
      ok <- or_fail (v.(v_ValidateCode) userID req.(Code)) (ErrInternal "failed to validate mfa code") ;;
      guard ok (ErrUnauthorized "invalid mfa code")
  end.

Definition verifyPasskeyMethod (userID : UUID) (req : IssueRequest) : M unit :=
  match s.(passkeyVer) with
  | None => throw (ErrInternal "passkey validator not configured")
  | Some v =>
      guard (negb (N.eqb req.(PasskeyChallengeID) uuid_nil || String.eqb req.(PasskeyResponse) ""))
        (ErrBadRequest "passkey_challenge_id and passkey_response are required") ;;;
      ok <- or_fail (v userID req.(PasskeyChallengeID) req.(PasskeyResponse))
              (ErrInternal "failed to validate passkey assertion") ;;
      guard ok (ErrUnauthorized "invalid passkey assertion")
  end.

Definition verifyMethod (userID : UUID) (req : IssueRequest) : M unit :=
  if String.eqb req.(Method) "password" then verifyPasswordMethod userID req
  else if String.eqb req.(Method) "totp" || String.eqb req.(Method) "backup_code"
  then verifyCodeMethod userID req
  else if String.eqb req.(Method) "passkey" then verifyPasskeyMethod userID req
  else throw (ErrBadRequest ("unsupported reauth method: " +:+ req.(Method))).

Definition Issue (userID sessionID : UUID) (req : IssueRequest) : M IssueResponse :=
  verifyMethod userID req ;;;
  let! (raw, hash) := or_fail GenerateOpaqueToken (ErrInternal "failed to generate reauth token") ;;
  wall <- wall_now ;;
  let expiresAt := time_add wall s.(tokenTTL) in
  or_fail (ReauthRepo.Create
      (ReauthToken.zero <| ReauthToken.ID := hash |>
                        <| ReauthToken.UserID := userID |>
                        <| ReauthToken.SessionID := sessionID |>
                        <| ReauthToken.Method := req.(Method) |>
                        <| ReauthToken.ExpiresAt := expiresAt |>))
    (ErrInternal "failed to issue reauth token") ;;;
  ret (mkIssueResponse raw expiresAt req.(Method)).

Definition Verify (rawToken : string) (userID sessionID : UUID) : M (option ReauthToken.t) :=
  if String.eqb rawToken "" then ret None
  else
    let! (t, err) := ReauthRepo.FindByHash (HashToken rawToken) ;;
    match err, t with
    | Some e, _ => throw e
    | None, None => ret None
    | None, Some t =>
        wall <- wall_now ;;
        if negb (ReauthToken.IsValid wall t) then ret None
        else if negb (N.eqb t.(ReauthToken.UserID) userID)
                || negb (N.eqb t.(ReauthToken.SessionID) sessionID) then ret None
        else ret (Some t)
    end.

Definition Consume (hash consumedBy : string) : M unit :=
  or_fail (ReauthRepo.MarkUsed hash consumedBy) (ErrInternal "failed to consume reauth token").

Definition RevokeForSession (sessionID : UUID) : M unit := ReauthRepo.DeleteForSession sessionID.

Definition CleanupExpired : M Z := ReauthRepo.DeleteExpired.

End service.
End ReauthSvc.

(** ** Facts *)
Module ReauthFacts.
Import ReauthSvc.

Section facts.
Context (s : Service).

(** The token is live and bound to the user and the session. *)
Definition usable (wall : Z) (userID sessionID : UUID) (t : ReauthToken.t) : Prop :=
  t.(ReauthToken.Used) = false /\ wall < t.(ReauthToken.ExpiresAt) /\
  t.(ReauthToken.UserID) = userID /\ t.(ReauthToken.SessionID) = sessionID.

Lemma wp_Verify raw userID sessionID env st :
  wp (Verify raw userID sessionID)
    (fun r st' =>
       st'.(st_db) = st.(st_db) /\
       match r with
       | Ok (Some t) =>
           raw <> "" /\ st.(st_db).(reauth_tokens) !! HashToken raw = Some t /\
           usable env.(env_wall) userID sessionID t
       | Ok None =>
           raw = "" \/
           forall t, st.(st_db).(reauth_tokens) !! HashToken raw = Some t ->
             ~ usable env.(env_wall) userID sessionID t
       | Err _ => env.(env_fail) st.(st_step) = true
       end) env st.
Proof.
  unfold Verify, ReauthRepo.FindByHash, ReauthToken.IsValid, time_after, usable.
  wp_steps; (split; [done|]); bool_simpl; try done.
  - by left.
  - right. intros t' [= <-] (? & ? & _).
    match goal with H : _ && _ = false |- _ => apply andb_false_iff in H as [H|H] end;
      bool_simpl; first [congruence | lia].
  - right. intros t' [= <-] (_ & _ & ? & ?).
    match goal with H : _ || _ = true |- _ => apply orb_true_iff in H as [H|H] end;
      bool_simpl; congruence.
  - right. intros t' Ht. congruence.
Qed.

(** [Verify] accepts a token exactly when its row is unused, unexpired and
    bound to that user and that session; it changes nothing. *)
Theorem Verify_spec (raw : string) (userID sessionID : UUID) (env : Env) (db : DB) :
  let '(r, db') := run (Verify raw userID sessionID) env db in
  db' = db /\
  match r with
  | Ok (Some t) =>
      raw <> "" /\ db.(reauth_tokens) !! HashToken raw = Some t /\
      usable env.(env_wall) userID sessionID t
  | Ok None =>
      raw = "" \/
      forall t, db.(reauth_tokens) !! HashToken raw = Some t -> ~ usable env.(env_wall) userID sessionID t
  | Err _ => env.(env_fail) 0%nat = true
  end.
Proof.
  destruct (run _ _ _) as [r db'] eqn:Hr.
  by destruct (wp_run _ _ _ _ (wp_Verify raw userID sessionID env (mkState db 0)) _ _ Hr).
Qed.

(** Once a token was consumed, no later call accepts it. *)
Theorem consumed_is_dead (raw action : string) (u se : UUID) (env env' : Env) (db db1 db2 : DB)
    (r : result (option ReauthToken.t)) :
  run (Consume (HashToken raw) action) env db = (Ok tt, db1) ->
  run (Verify raw u se) env' db1 = (r, db2) ->
  forall t, r <> Ok (Some t).
Proof.
  intros Hc Hv t ->.
  assert (Hdb1 : db1 = db <| reauth_tokens ::= alter (ReauthRepo.used_now env.(env_wall) action) (HashToken raw) |>).
  { revert Hc. unfold run, Consume, ReauthRepo.MarkUsed, or_fail, update_table, stmt. simpl.
    destruct (env_fail env 0); simpl; congruence. }
  destruct (wp_run env' _ _ _ (wp_Verify raw u se env' (mkState db1 0)) _ _ Hv)
    as (n & _ & _ & Ht & Hused & _). simpl in Ht. rewrite Hdb1 in Ht.
  change (alter (ReauthRepo.used_now env.(env_wall) action) (HashToken raw) db.(reauth_tokens)
            !! HashToken raw = Some t) in Ht.
  rewrite lookup_alter_eq in Ht. destruct (reauth_tokens db !! _) as [t0|]; [|done].
  injection Ht as <-. unfold ReauthRepo.used_now in Hused. destruct (ReauthToken.Used t0) eqn:E; [congruence|].
  unfold upd in Hused. by simpl in Hused.
Qed.
End facts.

Lemma consumed_is_dead_witness :
  let env := MfaFacts.env_at (10 * second) in
  let token := ReauthToken.zero <| ReauthToken.ID := HashToken "raw" |>
                 <| ReauthToken.UserID := 1%N |> <| ReauthToken.SessionID := 2%N |>
                 <| ReauthToken.ExpiresAt := 100 * second |> in
  let db := empty_db <| reauth_tokens := {[ HashToken "raw" := token ]} |> in
  let db1 := (run (Consume (HashToken "raw") "delete") env db).2 in
  (run (Verify "raw" 1 2) env db).1 = Ok (Some token) /\
  forall t, (run (Verify "raw" 1 2) env db1).1 <> Ok (Some t).
Proof.
  intros env token db db1. split; [vm_compute; reflexivity|].
  apply (consumed_is_dead "raw" "delete" 1 2 env env db db1 (run (Verify "raw" 1 2) env db1).2);
    vm_compute; reflexivity.
Defined.
End ReauthFacts.
