(* ===== verification/OAuth.v ===== *)
(** * oauth/service.go: the service record, its collaborators, token lookup

    The interfaces the OAuth service is written against are records of
    operations; a collaborator that may be nil is an [option].  The ones that
    only read (roles, resources, policies, signers) are [Reader]s. *)
From S2P Require Import Prelude.
From S2P Require Import Errors.
From S2P Require Import GoLib.
From S2P Require Import Model.
From S2P Require Import Platform.
From S2P Require Import Config.
From S2P Require Import Exec.
From S2P Require Import Crypto.
From S2P Require Import SessionSvc.
From S2P Require Import OAuthRepo.
From S2P Require Import Policy.
From S2P Require Import UserSvc.
From S2P Require Import MfaSvc.
Local Open Scope Z_scope.

(** ** Claims and interfaces *)

Module IDTokenClaims.
Record t := mk {
  UserID : UUID;
  ClientID : UUID;
  Scopes : list string;
  Nonce : string;
  AuthTime : Z;
  ATHash : string;
  CHash : string;
  SHash : string;
  TTL : Z;
  RequestedClaims : string;
  ACR : string;
  AMR : list string;
  SubjectType : string;
  SectorIdentifier : string;
  ExtraClaims : option (list (string * any));
  EncryptionJWKSURI : string;
  EncryptionAlg : string;
  EncryptionEnc : string
}.

#[global] Instance eta_t : Eta t := fun r => mk
  (r.(UserID)) (r.(ClientID)) (r.(Scopes)) (r.(Nonce)) (r.(AuthTime)) (r.(ATHash))
  (r.(CHash)) (r.(SHash)) (r.(TTL)) (r.(RequestedClaims)) (r.(ACR)) (r.(AMR))
  (r.(SubjectType)) (r.(SectorIdentifier)) (r.(ExtraClaims)) (r.(EncryptionJWKSURI))
  (r.(EncryptionAlg)) (r.(EncryptionEnc)).
End IDTokenClaims.

Module AccessTokenJWTClaims.
Record t := mk {
  UserID : option UUID;
  ClientID : UUID;
  Scopes : list string;
  Audience : string;
  TTL : Z;
  ExtraClaims : option (list (string * any))
}.
End AccessTokenJWTClaims.

(** [GenerateIDToken(claims) (string, error)] *)
Definition IDTokenGenerator : Type := IDTokenClaims.t -> Reader string.

(** [GenerateAccessTokenJWT] returns the token and its [jti]. *)
Record AccessTokenJWTSigner := mkSigner {
  GenerateAccessTokenJWT : AccessTokenJWTClaims.t -> string -> Reader (string * string);
  ValidateAccessTokenJWT : string -> Reader (list (string * any))
}.

(** [ValidateAudience] returns no nil resource without an error. *)
Record ResourceValidator := mkResourceValidator {
  ValidateAudience : string -> Reader APIResource.t;
  ValidateClientScopes : UUID -> UUID -> list string -> Reader (list string);
  ValidateUserScopes : UUID -> UUID -> list string -> Reader (list string)
}.

(** [ValidateIDToken(tokenString) (uuid.UUID, error)] *)
Definition IDTokenValidator : Type := string -> Reader UUID.

Record RoleProvider := mkRoleProvider {
  GetUserRoleNames : UUID -> Reader (list string);
  GetUserPermissions : UUID -> Reader (list string)
}.

(** ** The service *)

Record Service := mkService {
  userService : UserSvc.Service;
  sessionService : SessionSvc.Service;
  cfg : AuthConfig.t;
  issuer : string;
  idTokenGen : option IDTokenGenerator;
  jwtSigner : option AccessTokenJWTSigner;
  mfaValidator : option MFAValidator;
  policyEvaluator : option PolicyEvaluator;
  resourceValidator : option ResourceValidator;
  idTokenValidator : option IDTokenValidator;
  roleProvider : option RoleProvider
}.

Section service.
Context (s : Service).

(** Errors of the provider are swallowed. *)
Definition loadRoles (userID : UUID) : M (list string * list string) :=
  match s.(roleProvider) with
  | None => ret ([], [])
  | Some p =>
      r <- opt (ask (p.(GetUserRoleNames) userID)) ;;
      q <- opt (ask (p.(GetUserPermissions) userID)) ;;
      ret (default [] r, default [] q)
  end.

(** One evaluation of a policy: nil evaluator, a failed evaluation (logged and
    ignored) and a nil result all read as [None]. *)
Definition evaluate (policyType : string) (input : list (string * any)) : M (option PolicyResult.t) :=
  match s.(policyEvaluator) with
  | None => ret None
  | Some e =>
      r <- opt (ask (e policyType input)) ;;
      ret (match r with Some res => res | None => None end)
  end.

(** [if result.Deny { return pkg.ErrAccessDenied(result.DenyReason) }] *)
Definition not_denied (result : option PolicyResult.t) : M unit :=
  match result with
  | Some res => guard (negb res.(PolicyResult.Deny)) (ErrAccessDenied res.(PolicyResult.DenyReason))
  | None => ret tt
  end.

(** [result.Modify], nil without a result. *)
Definition modify_of (result : option PolicyResult.t) : option (list (string * any)) :=
  result ≫= PolicyResult.Modify.

Definition LookupActiveAccessToken (raw : string) : M (option AccessToken.t) :=
  if String.eqb raw "" then ret None
  else
    let! (token, err) := FindAccessToken (HashToken raw) ;;
    match err, token with
    | Some e, _ => throw e
    | None, None => ret None
    | None, Some token =>
        wall <- wall_now ;;
        if negb (AccessToken.IsValid wall token) then ret None else ret (Some token)
    end.

End service.

Module TokenResponse.
Record t := mk {
  AccessToken : string;
  TokenType : string;
  ExpiresIn : Z;
  RefreshToken : string;
  IDToken : string;
  Scope : string
}.

#[global] Instance eta_t : Eta t := fun r => mk
  (r.(AccessToken)) (r.(TokenType)) (r.(ExpiresIn)) (r.(RefreshToken)) (r.(IDToken)) (r.(Scope)).
End TokenResponse.

(** ** Lemmas *)

#[export] Instance loadRoles_read_only s u : ReadOnly (loadRoles s u).
Proof. unfold loadRoles. solve_preserves ltac:(apply _). Qed.

#[export] Instance evaluate_read_only s p i : ReadOnly (evaluate s p i).
Proof. unfold evaluate. solve_preserves ltac:(apply _). Qed.

#[export] Instance not_denied_read_only r : ReadOnly (not_denied r).
Proof. unfold not_denied. solve_preserves ltac:(apply _). Qed.

#[export] Instance GetByID_read_only id : ReadOnly (UserSvc.GetByID id).
Proof. unfold UserSvc.GetByID. solve_preserves ltac:(apply _). Qed.

#[export] Instance LookupActiveAccessToken_read_only raw : ReadOnly (LookupActiveAccessToken raw).
Proof. unfold LookupActiveAccessToken. solve_preserves ltac:(apply _). Qed.

#[export] Instance findClient_read_only `{Platform} id : ReadOnly (findClient id).
Proof. unfold findClient. solve_preserves ltac:(apply _). Qed.

#[export] Instance FindActiveConsent_read_only u c : ReadOnly (FindActiveConsent u c).
Proof. apply _. Qed.

(** [LookupActiveAccessToken] yields exactly the live row stored under the
    digest of the presented token. *)
Lemma wp_LookupActiveAccessToken raw env st (Q : result (option AccessToken.t) -> State -> Prop) :
  (forall e n, Q (Err e) (mkState st.(st_db) n)) ->
  (forall t n, raw <> "" -> st.(st_db).(access_tokens) !! HashToken raw = Some t ->
     t.(AccessToken.Revoked) = false -> env.(env_wall) < t.(AccessToken.ExpiresAt) ->
     Q (Ok (Some t)) (mkState st.(st_db) n)) ->
  (forall n, (raw = "" \/ forall t, st.(st_db).(access_tokens) !! HashToken raw = Some t ->
        t.(AccessToken.Revoked) = true \/ t.(AccessToken.ExpiresAt) <= env.(env_wall)) ->
     Q (Ok None) (mkState st.(st_db) n)) ->
  wp (LookupActiveAccessToken raw) Q env st.
Proof.
  intros He Hs Hn. unfold LookupActiveAccessToken, FindAccessToken, AccessToken.IsValid, time_after.
  wp_steps; bool_simpl.
  - destruct st. apply Hn. by left.
  - apply He.
  - apply Hn. right. intros t' [= <-].
    match goal with H : _ && _ = false |- _ => apply andb_false_iff in H as [H|H] end; bool_simpl; tauto.
  - by apply Hs.
  - apply Hn. right. intros t' Ht. congruence.
Qed.

(** ** A sample service, client and user *)
Module Sample.

Definition api : APIResource.t :=
  APIResource.zero <| APIResource.ID := 44%N |> <| APIResource.Identifier := "https://api" |>
    <| APIResource.Active := true |>
    <| APIResource.Permissions := [ResourcePermission.zero <| ResourcePermission.Name := "write" |>;
                                   ResourcePermission.zero <| ResourcePermission.Name := "read" |>] |>.

(** Users may read, clients may do what they ask for. *)
Definition validator : ResourceValidator :=
  mkResourceValidator
    (fun a _ _ _ => if String.eqb a "https://api" then Ok api else Err (ErrInvalidRequest "unknown audience"))
    (fun _ _ req _ _ _ => Ok req)
    (fun _ _ req _ _ _ => Ok (List.filter (String.eqb "read") req)).

Definition service : Service := {|
  userService := UserFacts.sample_service;
  sessionService := SessionSvc.mkService UserFacts.sample_cfg None;
  cfg := UserFacts.sample_cfg;
  issuer := "https://op";
  idTokenGen := Some (fun claims _ _ _ => Ok ("id:" +:+ claims.(IDTokenClaims.ATHash)));
  jwtSigner := None;
  mfaValidator := None;
  policyEvaluator := None;
  resourceValidator := Some validator;
  idTokenValidator := None;
  roleProvider := None
|}.

Definition client : OAuthClient.t :=
  OAuthClient.zero
    <| OAuthClient.ID := 77%N |> <| OAuthClient.Name := "app" |> <| OAuthClient.Active := true |>
    <| OAuthClient.RedirectURIs := ["https://app/cb"] |>
    <| OAuthClient.GrantTypes := ["authorization_code"; "refresh_token"; "client_credentials";
                                  "urn:ietf:params:oauth:grant-type:device_code"] |>
    <| OAuthClient.Scopes := ["openid"; "read"] |>
    <| OAuthClient.AccessTokenTTL := 3600 |> <| OAuthClient.RefreshTokenTTL := 86400 |>
    <| OAuthClient.IDTokenTTL := 3600 |>.

(** Distinct bytes at distinct effects and instants, and identifiers that are not nil. *)
Definition env_at (now : Z) (fail : nat -> bool) : Env :=
  mkEnv now now fail (fun n i => now / second + Z.of_nat (n + i)) (fun n => N.of_nat (1000 + n)).

Definition no_fail (n : nat) : bool := false.

Definition env (now : Z) : Env := env_at (now * second) no_fail.

Definition db : DB :=
  empty_db <| oauth_clients := {[ 77%N := client ]} |>
           <| users := {[ 5%N := UserFacts.sample_user ]} |>.

End Sample.
