(* ===== verification/Middleware.v ===== *)
(** * middleware/: bearer tokens, M2M scopes, step-up tokens

    A gin handler is an operation that either aborts with an error or returns
    the values it sets on the request context.  [BearerAuth] and
    [RequireClientScope] (middleware/auth.go, client_scope.go) are written
    against the token lookup and session interfaces; [RequireReauth] and
    [ConsumeReauth] (middleware/reauth.go) against the reauthentication
    service. *)
From S2P Require Import Prelude.
From S2P Require Import Errors.
From S2P Require Import GoLib.
From S2P Require Import Model.
From S2P Require Import Platform.
From S2P Require Import Exec.
From S2P Require Import Crypto.
From S2P Require Import SessionSvc.
From S2P Require Import ReauthSvc.
From S2P Require Import OAuth.
From Stdlib Require Import Ascii.
Local Open Scope Z_scope.

(** [strings.SplitN(s, " ", 2)] when [s] holds a space. *)
Fixpoint cut_space (s : string) : option (string * string) :=
  match s with
  | EmptyString => None
  | String c s' =>
      if Ascii.eqb c " " then Some (EmptyString, s')
      else match cut_space s' with
           | Some (a, b) => Some (String c a, b)
           | None => None
           end
  end.

Definition ParseBearer (authHeader : string) : string :=
  match cut_space authHeader with
  | Some (scheme, raw) => if String.eqb (to_lower scheme) "bearer" then raw else ""
  | None => ""
  end.

(** ** The interfaces (middleware/interfaces.go) *)

Class TokenLookup := LookupToken : string -> M (option AccessToken.t).
Class SessionValidator := SessionIsActive : UUID -> M bool.

#[export] Instance oauth_token_lookup : TokenLookup := LookupActiveAccessToken.
#[export] Instance session_validator : SessionValidator := SessionSvc.IsActive.

Record Context := mkContext {
  ContextTokenID : string;
  ContextClientID : UUID;
  ContextUserID : option UUID;
  ContextSessionID : option UUID;
  ContextScopes : list string
}.

Section bearer.
Context `{TokenLookup} `{SessionValidator}.

Definition BearerAuth (authHeader : string) : M Context :=
  let raw := ParseBearer authHeader in
  guard (negb (String.eqb raw "")) (ErrUnauthorized "missing or invalid authorization header") ;;;
  token <- or_fail (LookupToken raw) (ErrUnauthorized "invalid or expired token") ;;
  match token with
  | None => throw (ErrUnauthorized "invalid or expired token")
  | Some token =>
      match token.(AccessToken.SessionID) with
      | Some sid =>
          active <- or_fail (SessionIsActive sid) (ErrUnauthorized "session expired or revoked") ;;
          guard active (ErrUnauthorized "session expired or revoked")
      | None => ret tt
      end ;;;
      ret (mkContext token.(AccessToken.ID) token.(AccessToken.ClientID)
             token.(AccessToken.UserID) token.(AccessToken.SessionID) token.(AccessToken.Scopes))
  end.

Definition abortForbidden (code message : string) : error :=
  EApp (AppError.mk message code 403).

(** [fmt.Sprintf("%q")] on the identifiers the code passes. *)
Definition quoted (s : string) : string :=
  let q := String (ascii_of_nat 34) EmptyString in q +:+ s +:+ q.

Definition RequireClientScope (requiredScope audience authHeader : string) : M Context :=
  let raw := ParseBearer authHeader in
  guard (negb (String.eqb raw "")) (ErrUnauthorized "missing or invalid authorization header") ;;;
  token <- or_fail (LookupToken raw) (ErrUnauthorized "invalid or expired token") ;;
  match token with
  | None => throw (ErrUnauthorized "invalid or expired token")
  | Some token =>
      guard (negb (is_Some_b token.(AccessToken.UserID)))
        (abortForbidden "m2m_only"
           "this endpoint requires a client_credentials token (no user binding)") ;;;
      guard (opt_str_eqb token.(AccessToken.Audience) audience)
        (abortForbidden "wrong_audience" ("token audience does not match " +:+ quoted audience)) ;;;
      guard (mem requiredScope token.(AccessToken.Scopes))
        (abortForbidden "insufficient_scope"
           ("token is missing required scope " +:+ quoted requiredScope)) ;;;
      ret (mkContext token.(AccessToken.ID) token.(AccessToken.ClientID) None None
             token.(AccessToken.Scopes))
  end.

End bearer.

(** ** Step-up tokens *)

Definition RequireReauth (c : Context) (header : string) : M ReauthToken.t :=
  guard (negb (String.eqb header ""))
    (EApp (AppError.mk "step-up reauthentication required" "reauth_required" 403)) ;;;
  match c.(ContextUserID) with
  | None => throw (ErrUnauthorized "not authenticated")
  | Some userID =>
      match c.(ContextSessionID) with
      | None => throw (ErrUnauthorized "reauth requires a session-bound token")
      | Some sessionID =>
          t <- or_fail (ReauthSvc.Verify header userID sessionID)
                 (ErrInternal "failed to verify reauth token") ;;
          match t with
          | None => throw (EApp (AppError.mk "invalid or expired reauth token" "reauth_invalid" 403))
          | Some t => ret t
          end
      end
  end.

(** The outcome of [Consume] is dropped. *)
Definition ConsumeReauth (t : option ReauthToken.t) (action : string) : M bool :=
  match t with
  | None => ret false
  | Some t => ignore (ReauthSvc.Consume t.(ReauthToken.ID) action) ;;; ret true
  end.

(** ** Facts *)
Module MiddlewareFacts.

(** A header is read as a bearer token when it is the scheme, in any case, one
    space, and the token. *)
Lemma cut_space_app a b :
  ~ In " "%char (String.list_ascii_of_string a) -> cut_space (a +:+ String " " b) = Some (a, b).
Proof.
  induction a as [|c a IH]; intros Ha; [done|].
  change (cut_space (String c (a +:+ String " " b)) = Some (String c a, b)). simpl.
  destruct (Ascii.eqb_spec c " ") as [->|_]; [exfalso; apply Ha; by left|].
  rewrite IH; [done|]. intros Hin. apply Ha. by right.
Qed.

Lemma SessionIsActive_spec sid env st (Q : result bool -> State -> Prop) :
  (forall e n, Q (Err e) (mkState st.(st_db) n)) ->
  (forall n b, (b = true <-> exists s, st.(st_db).(sessions) !! sid = Some s /\
                  s.(Session.Revoked) = false /\ env.(env_now) < s.(Session.ExpiresAt)) ->
     Q (Ok b) (mkState st.(st_db) n)) ->
  wp (SessionSvc.IsActive sid) Q env st.
Proof.
  intros He Hok. unfold SessionSvc.IsActive, SessionRepo.FindByID.
  wp_steps; [apply He | apply Hok | apply Hok].
  - unfold time_after. rewrite andb_true_iff, negb_true_iff, Z.ltb_lt. naive_solver.
  - naive_solver.
Qed.

(** A request passes [BearerAuth] only with a live access token, and, when the
    token is bound to a session, only while that session is live: revoking the
    session rejects every token it vouches for.  The context it sets is the
    token's, and the database is not touched. *)
Theorem BearerAuth_spec (header : string) (env : Env) (st : State) :
  wp (BearerAuth header)
    (fun r st' =>
       st'.(st_db) = st.(st_db) /\
       match r with
       | Ok c =>
           exists t, st.(st_db).(access_tokens) !! HashToken (ParseBearer header) = Some t /\
             t.(AccessToken.Revoked) = false /\ env.(env_wall) < t.(AccessToken.ExpiresAt) /\
             (forall sid, t.(AccessToken.SessionID) = Some sid ->
                exists s, st.(st_db).(sessions) !! sid = Some s /\
                  s.(Session.Revoked) = false /\ env.(env_now) < s.(Session.ExpiresAt)) /\
             c = mkContext t.(AccessToken.ID) t.(AccessToken.ClientID)
                   t.(AccessToken.UserID) t.(AccessToken.SessionID) t.(AccessToken.Scopes)
       | Err e => error_code e = "unauthorized"
       end) env st.
Proof.
  unfold BearerAuth, LookupToken, oauth_token_lookup, SessionIsActive, session_validator.
  do 2 wp_step; [|done]. do 2 wp_step.
  apply wp_LookupActiveAccessToken; [done | | done]. intros t n Hraw Ht Hr He.
  wp_step. wp_step. wp_step.
  2:{ wp_steps. split; [done|]. exists t. split_and!; try done. all: congruence. }
  do 2 wp_step. apply SessionIsActive_spec; [done|]. intros n' b Hb. wp_steps; [|done].
  split; [done|]. exists t. split_and!; try done; [|congruence].
  intros sid Hsid. rewrite Heqo in Hsid. injection Hsid as <-. by apply Hb.
Qed.

(** The M2M guard lets a request through only with a live token that is bound
    to no user, has the audience and holds the scope; its errors tell which of
    these is missing. *)
Theorem RequireClientScope_spec (scope audience header : string) (env : Env) (st : State) :
  wp (RequireClientScope scope audience header)
    (fun r st' =>
       st'.(st_db) = st.(st_db) /\
       match r with
       | Ok c =>
           exists t, st.(st_db).(access_tokens) !! HashToken (ParseBearer header) = Some t /\
             t.(AccessToken.Revoked) = false /\ env.(env_wall) < t.(AccessToken.ExpiresAt) /\
             t.(AccessToken.UserID) = None /\ t.(AccessToken.Audience) = Some audience /\
             scope ∈ t.(AccessToken.Scopes) /\
             c = mkContext t.(AccessToken.ID) t.(AccessToken.ClientID) None None
                   t.(AccessToken.Scopes)
       | Err e => error_code e ∈ ["unauthorized"; "m2m_only"; "wrong_audience"; "insufficient_scope"]
       end) env st.
Proof.
  unfold RequireClientScope, LookupToken, oauth_token_lookup.
  do 2 wp_step; [|split; [done|]; simpl; set_solver]. do 2 wp_step.
  apply wp_LookupActiveAccessToken; [intros; split; [done|]; simpl; set_solver | |
    intros; split; [done|]; simpl; set_solver]. intros t n Hraw Ht Hr He.
  wp_steps; (split; [done|]); try (simpl; set_solver). exists t.
  destruct (AccessToken.UserID t); [done|]. unfold opt_str_eqb in *.
  destruct (AccessToken.Audience t) as [a|]; [|done]. bool_simpl. subst.
  by rewrite <-mem_iff.
Qed.

(** [RequireReauth] and [ConsumeReauth] together: the token that let a request
    through is dead after it was consumed. *)
Lemma RequireReauth_ok c header env st :
  wp (RequireReauth c header)
    (fun r st' =>
       st'.(st_db) = st.(st_db) /\
       match r with
       | Ok t => c.(ContextUserID) = Some t.(ReauthToken.UserID) /\
                 c.(ContextSessionID) = Some t.(ReauthToken.SessionID) /\
                 t.(ReauthToken.Used) = false /\ env.(env_wall) < t.(ReauthToken.ExpiresAt)
       | Err _ => True
       end) env st.
Proof.
  unfold RequireReauth. do 2 wp_step; [|done].
  destruct (ContextUserID c) as [u|]; [|by wp_steps].
  destruct (ContextSessionID c) as [sid|]; [|by wp_steps].
  do 2 wp_step. pose proof (ReauthFacts.wp_Verify header u sid env st) as Hv.
  revert Hv. apply wp_mono. intros [[t|]|e] st' [Hdb Ht]; wp_simpl.
  - wp_step. unfold ReauthFacts.usable in Ht. naive_solver.
  - by wp_step.
  - done.
Qed.

End MiddlewareFacts.
