(* ===== verification/Token.v ===== *)
(** * oauth/service.go: the token endpoint

    [issueTokensWithOpts] and the three grants that call it or store an access
    token: [ExchangeAuthorizationCode], [ExchangeClientCredentials] and
    [ExchangeRefreshToken].  The client's TTLs are fields of a value of its
    own: the pointer the source writes to is not read again by its callers. *)
From S2P Require Import Prelude.
From S2P Require Import Errors.
From S2P Require Import GoLib.
From S2P Require Import Model.
From S2P Require Import Platform.
From S2P Require Import Config.
From S2P Require Import Exec.
From S2P Require Import Crypto.
From S2P Require Import OAuthRepo.
From S2P Require Import Scopes.
From S2P Require Import Policy.
From S2P Require Import UserSvc.
From S2P Require Import OAuth.
Local Open Scope Z_scope.

Module issueOpts.
Record t := mk {
  nonce : string;
  authTime : Z;
  audience : option string;
  resourceID : option UUID;
  requestedClaims : string;
  acr : string;
  amr : list string
}.
End issueOpts.

Section token.
Context `{Platform} (s : Service).

(** ** Issuing an access and a refresh token *)

(** The policy step: the client with the TTLs the policy sets, the scopes it
    leaves, and its extra claims. *)
Definition applyIssuePolicy (client : OAuthClient.t) (userID : option UUID) (scopes : list string)
    : M (OAuthClient.t * list string * option (list (string * any))) :=
  match s.(policyEvaluator), userID with
  | Some _, Some uid =>
      u <- opt (UserSvc.GetByID uid) ;;
      let! (roles, perms) := loadRoles s uid ;;
      wall <- wall_now ;;
      result <- evaluate s "token_issuance"
                  (Inputs.BuildTokenIssuanceInput wall client u roles perms scopes "") ;;
      not_denied result ;;;
      match modify_of result with
      | None => ret (client, scopes, None)
      | Some modify =>
          let client :=
            match PolicyModify.readModifyInt modify "access_token_ttl" with
            | Some n => client <| OAuthClient.AccessTokenTTL := n |>
            | None => client
            end in
          let client :=
            match PolicyModify.readModifyInt modify "refresh_token_ttl" with
            | Some n => client <| OAuthClient.RefreshTokenTTL := n |>
            | None => client
            end in
          let scopes := default scopes (PolicyModify.readModifyScopes modify scopes) in
          ret (client, scopes, PolicyModify.readModifyMap modify "claims")
      end
  | _, _ => ret (client, scopes, None)
  end.

(** The resource the audience names, when there is one. *)
Definition resolveResource (audience : option string) : M (option APIResource.t) :=
  match audience, s.(resourceValidator) with
  | Some a, Some v => opt (ask (v.(ValidateAudience) a))
  | _, _ => ret None
  end.

(** The scopes of the resource are narrowed to what the user may have; the
    others are kept. *)
Definition narrowByUser (resource : option APIResource.t) (resourceID : option UUID)
    (userID : option UUID) (scopes : list string) : M (list string) :=
  match resourceID, userID, s.(resourceValidator), resource with
  | Some rid, Some uid, Some v, Some r =>
      let '(resourceScopes, otherScopes) := splitResourceScopes scopes r.(APIResource.Permissions) in
      match resourceScopes with
      | [] => ret scopes
      | _ =>
          allowed <- opt (ask (v.(ValidateUserScopes) uid rid resourceScopes)) ;;
          ret (match allowed with
               | None => scopes
               | Some allowed => unionScopes otherScopes allowed
               end)
      end
  | _, _, _, _ => ret scopes
  end.

(** [useJWT]: the resource opts in and a signer is configured. *)
Definition jwt_signer_for (resource : option APIResource.t) :
    option (APIResource.t * AccessTokenJWTSigner) :=
  match resource, s.(jwtSigner) with
  | Some r, Some j => if APIResource.EmitsJWTAccessTokens r then Some (r, j) else None
  | _, _ => None
  end.

(** The raw access token, the digest it is stored under, and its [jti]. *)
Definition makeAccessToken (resource : option APIResource.t) (claims : AccessTokenJWTClaims.t)
    : M (string * string * option string) :=
  match jwt_signer_for resource with
  | Some (r, j) =>
      let! (jwtStr, jti) :=
        map_err (ask (j.(GenerateAccessTokenJWT) claims r.(APIResource.SigningAlg)))
          (fun e => ErrServerError ("failed to generate access token: " +:+ error_string e)) ;;
      ret (jwtStr, HashToken jwtStr, Some jti)
  | None =>
      let! (raw, hash) := or_fail GenerateOpaqueToken
                            (ErrServerError "failed to generate access token") ;;
      ret (raw, hash, None)
  end.

Definition str_or_empty (o : option string) : string := default "" o.

(** The ID token, when [openid] was granted; a failure leaves it out. *)
Definition makeIDToken (client : OAuthClient.t) (userID : option UUID) (scopes : list string)
    (opts : issueOpts.t) (rawAT : string) (extra : option (list (string * any))) : M string :=
  match s.(idTokenGen), userID with
  | Some gen, Some uid =>
      if containsScope scopes "openid" then
        now <- clock_now ;;
        let authTime := if time_is_zero opts.(issueOpts.authTime) then now
                        else opts.(issueOpts.authTime) in
        idToken <- opt (ask (gen
          {| IDTokenClaims.UserID := uid;
             IDTokenClaims.ClientID := client.(OAuthClient.ID);
             IDTokenClaims.Scopes := scopes;
             IDTokenClaims.Nonce := opts.(issueOpts.nonce);
             IDTokenClaims.AuthTime := authTime;
             IDTokenClaims.ATHash := computeATHash rawAT;
             IDTokenClaims.CHash := "";
             IDTokenClaims.SHash := "";
             IDTokenClaims.TTL := dur_mul client.(OAuthClient.IDTokenTTL) second;
             IDTokenClaims.RequestedClaims := opts.(issueOpts.requestedClaims);
             IDTokenClaims.ACR := opts.(issueOpts.acr);
             IDTokenClaims.AMR := opts.(issueOpts.amr);
             IDTokenClaims.SubjectType := client.(OAuthClient.SubjectType);
             IDTokenClaims.SectorIdentifier := str_or_empty client.(OAuthClient.SectorIdentifierURI);
             IDTokenClaims.ExtraClaims := extra;
             IDTokenClaims.EncryptionJWKSURI := str_or_empty client.(OAuthClient.JWKSUri);
             IDTokenClaims.EncryptionAlg := str_or_empty client.(OAuthClient.IDTokenEncryptedResponseAlg);
             IDTokenClaims.EncryptionEnc := str_or_empty client.(OAuthClient.IDTokenEncryptedResponseEnc) |})) ;;
        ret (str_or_empty idToken)
      else ret ""
  | _, _ => ret ""
  end.

(** A nil [userID] or [sessionID] is dereferenced once the tokens are made. *)
Definition deref {A} (o : option A) : M A :=
  match o with
  | Some a => ret a
  | None => throw (EOther "runtime error: nil pointer dereference")
  end.

Definition issueTokensWithOpts (client : OAuthClient.t) (userID sessionID : option UUID)
    (scopes : list string) (opts : issueOpts.t) : M TokenResponse.t :=
  let! (client, scopes, policyExtraClaims) := applyIssuePolicy client userID scopes ;;
  resource <- resolveResource opts.(issueOpts.audience) ;;
  let resourceID :=
    match opts.(issueOpts.resourceID) with
    | Some rid => Some rid
    | None => APIResource.ID <$> resource
    end in
  scopes <- narrowByUser resource resourceID userID scopes ;;
  let atTTL :=
    match resource with
    | Some r => if 0 <? r.(APIResource.AccessTokenTTL)
                then dur_mul r.(APIResource.AccessTokenTTL) second
                else dur_mul client.(OAuthClient.AccessTokenTTL) second
    | None => dur_mul client.(OAuthClient.AccessTokenTTL) second
    end in
  let! (rawAT, atID, atJTI) := makeAccessToken resource
      (AccessTokenJWTClaims.mk userID client.(OAuthClient.ID) scopes
         (str_or_empty opts.(issueOpts.audience)) atTTL policyExtraClaims) ;;
  let! (rawRT, rtHash) := or_fail GenerateOpaqueToken
                            (ErrServerError "failed to generate refresh token") ;;
  familyID <- opt uuid_newV7 ;;
  uid <- deref userID ;;
  sid <- deref sessionID ;;
  now <- clock_now ;;
  or_fail (CreateRefreshToken
      (RefreshToken.zero
         <| RefreshToken.ID := rtHash |>
         <| RefreshToken.ClientID := client.(OAuthClient.ID) |>
         <| RefreshToken.UserID := uid |>
         <| RefreshToken.SessionID := sid |>
         <| RefreshToken.Scopes := scopes |>
         <| RefreshToken.Audience := opts.(issueOpts.audience) |>
         <| RefreshToken.FamilyID := default uuid_nil familyID |>
         <| RefreshToken.ExpiresAt :=
              time_add now (dur_mul client.(OAuthClient.RefreshTokenTTL) second) |>))
    (ErrServerError "failed to store refresh token") ;;;
  or_fail (CreateAccessToken
      (AccessToken.zero
         <| AccessToken.ID := atID |>
         <| AccessToken.ClientID := client.(OAuthClient.ID) |>
         <| AccessToken.UserID := userID |>
         <| AccessToken.SessionID := sessionID |>
         <| AccessToken.RefreshTokenID := Some rtHash |>
         <| AccessToken.Scopes := scopes |>
         <| AccessToken.Audience := opts.(issueOpts.audience) |>
         <| AccessToken.JTI := atJTI |>
         <| AccessToken.ExpiresAt := time_add now atTTL |>))
    (ErrServerError "failed to store access token") ;;;
  idToken <- makeIDToken client userID scopes opts rawAT policyExtraClaims ;;
  ret {| TokenResponse.AccessToken := rawAT;
         TokenResponse.TokenType := "Bearer";
         TokenResponse.ExpiresIn := dur_seconds atTTL;
         TokenResponse.RefreshToken := rawRT;
         TokenResponse.IDToken := idToken;
         TokenResponse.Scope := joinScopes scopes |}.

(** ** Grant: authorization code *)

Definition revoke_session_tokens (authCode : AuthorizationCode.t) : M unit :=
  match authCode.(AuthorizationCode.SessionID) with
  | Some sid => ignore (RevokeAccessTokensBySession sid) ;;; ignore (RevokeRefreshTokensBySession sid)
  | None => ret tt
  end.

Definition checkPKCE (client : OAuthClient.t) (authCode : AuthorizationCode.t)
    (codeVerifier : string) : M unit :=
  if AuthorizationCode.HasPKCE authCode then
    guard (negb (String.eqb codeVerifier "")) (ErrInvalidGrant "code_verifier required") ;;;
    guard (verifyPKCE codeVerifier (str_or_empty authCode.(AuthorizationCode.CodeChallenge)))
      (ErrInvalidGrant "PKCE verification failed")
  else
    guard (negb client.(OAuthClient.IsPublic)) (ErrInvalidRequest "PKCE required for public clients").

Definition code_opts (authCode : AuthorizationCode.t) : issueOpts.t :=
  let '(acr, amr) := computeACR authCode.(AuthorizationCode.AuthMethods) in
  {| issueOpts.nonce := str_or_empty authCode.(AuthorizationCode.Nonce);
     issueOpts.authTime := default authCode.(AuthorizationCode.CreatedAt)
                             authCode.(AuthorizationCode.AuthTime);
     issueOpts.audience := authCode.(AuthorizationCode.Audience);
     issueOpts.resourceID := None;
     issueOpts.requestedClaims := str_or_empty authCode.(AuthorizationCode.ClaimsParam);
     issueOpts.acr := acr;
     issueOpts.amr := amr |}.

(** The body of the transaction, once the row was found. *)
Definition redeemCode (client : OAuthClient.t) (codeHash redirectURI codeVerifier : string)
    (authCode : AuthorizationCode.t) : M TokenResponse.t :=
  wall <- wall_now ;;
  guard (AuthorizationCode.IsValid wall authCode)
    (ErrInvalidGrant "authorization code expired or already used") ;;;
  (if authCode.(AuthorizationCode.Used)
   then revoke_session_tokens authCode ;;;
        throw (ErrInvalidGrant "authorization code already used")
   else ret tt) ;;;
  guard (N.eqb authCode.(AuthorizationCode.ClientID) client.(OAuthClient.ID))
    (ErrInvalidGrant "client mismatch") ;;;
  guard (String.eqb authCode.(AuthorizationCode.RedirectURI) redirectURI)
    (ErrInvalidGrant "redirect_uri mismatch") ;;;
  checkPKCE client authCode codeVerifier ;;;
  or_fail (MarkAuthCodeUsed codeHash) (ErrServerError "failed to consume authorization code") ;;;
  issueTokensWithOpts client (Some authCode.(AuthorizationCode.UserID))
    authCode.(AuthorizationCode.SessionID) authCode.(AuthorizationCode.Scopes) (code_opts authCode).

Definition ExchangeAuthorizationCode (client : OAuthClient.t)
    (code redirectURI codeVerifier : string) : M TokenResponse.t :=
  let codeHash := HashToken code in
  transaction (
    let! (authCode, err) := FindAuthCode codeHash ;;
    match err, authCode with
    | None, Some authCode => redeemCode client codeHash redirectURI codeVerifier authCode
    | _, _ => throw (ErrInvalidGrant "invalid authorization code")
    end).

(** ** Grant: client credentials *)

(** The scopes, the audience and the resource of the token. *)
Definition clientCredentialsScopes (client : OAuthClient.t) (scope audience : string)
    : M (list string * option string * option APIResource.t) :=
  let requested := parseSpaceDelimited scope in
  match s.(resourceValidator) with
  | Some v =>
      if String.eqb audience "" then ret (OAuthClient.ValidateScopes client requested, None, None)
      else
        r <- ask (v.(ValidateAudience) audience) ;;
        resourceScopes <- ask (v.(ValidateClientScopes) client.(OAuthClient.ID)
                                 r.(APIResource.ID) requested) ;;
        guard (negb (match resourceScopes with [] => true | _ => false end))
          (ErrInvalidScope "client has no permissions for this resource") ;;;
        ret (resourceScopes, Some audience, Some r)
  | None => ret (OAuthClient.ValidateScopes client requested, None, None)
  end.

Definition ExchangeClientCredentials (client : OAuthClient.t) (scope audience : string)
    : M TokenResponse.t :=
  guard (negb client.(OAuthClient.IsPublic))
    (ErrUnauthorizedClient "public clients cannot use client_credentials grant") ;;;
  guard (OAuthClient.HasGrantType client "client_credentials")
    (ErrUnauthorizedClient "client is not authorized for client_credentials grant") ;;;
  let! (scopes, tokenAudience, resource) := clientCredentialsScopes client scope audience ;;
  let ttl := match resource with
             | Some r => r.(APIResource.AccessTokenTTL)
             | None => client.(OAuthClient.AccessTokenTTL)
             end in
  let! (rawToken, tokenID, jti) := makeAccessToken resource
      (AccessTokenJWTClaims.mk None client.(OAuthClient.ID) scopes audience
         (dur_mul ttl second) None) ;;
  now <- clock_now ;;
  or_fail (CreateAccessToken
      (AccessToken.zero
         <| AccessToken.ID := tokenID |>
         <| AccessToken.ClientID := client.(OAuthClient.ID) |>
         <| AccessToken.Scopes := scopes |>
         <| AccessToken.Audience := tokenAudience |>
         <| AccessToken.JTI := jti |>
         <| AccessToken.ExpiresAt := time_add now (dur_mul ttl second) |>))
    (ErrServerError "failed to store access token") ;;;
  ret {| TokenResponse.AccessToken := rawToken;
         TokenResponse.TokenType := "Bearer";
         TokenResponse.ExpiresIn := ttl;
         TokenResponse.RefreshToken := "";
         TokenResponse.IDToken := "";
         TokenResponse.Scope := joinScopes scopes |}.

(** ** Grant: refresh token *)

(** The scopes asked for, cut to the original grant. *)
Definition refreshScopes (scope : string) (granted : list string) : M (list string) :=
  match parseSpaceDelimited scope with
  | [] => ret granted
  | requested =>
      let kept := filterScopes requested granted in
      guard (negb (match kept with [] => true | _ => false end))
        (ErrInvalidScope "requested scopes exceed original grant") ;;;
      ret kept
  end.

Definition applyRefreshPolicy (client : OAuthClient.t) (rt : RefreshToken.t)
    (requested granted : list string) : M (list string) :=
  match s.(policyEvaluator) with
  | None => ret granted
  | Some _ =>
      u <- opt (UserSvc.GetByID rt.(RefreshToken.UserID)) ;;
      let! (roles, perms) := loadRoles s rt.(RefreshToken.UserID) ;;
      wall <- wall_now ;;
      result <- evaluate s "refresh"
                  (Inputs.BuildRefreshInput wall u client roles perms requested granted
                     (uuid_string rt.(RefreshToken.SessionID)) "") ;;
      not_denied result ;;;
      match modify_of result ≫= fun m => PolicyModify.readModifyScopes m granted with
      | Some narrowed =>
          guard (negb (match narrowed with [] => true | _ => false end))
            (ErrAccessDenied "policy narrowed all scopes") ;;;
          ret narrowed
      | None => ret granted
      end
  end.

(** The body of the transaction, once the row was found. *)
Definition rotateRefreshToken (client : OAuthClient.t) (rtHash scope : string)
    (rt : RefreshToken.t) : M TokenResponse.t :=
  guard (N.eqb rt.(RefreshToken.ClientID) client.(OAuthClient.ID))
    (ErrInvalidGrant "token not issued to this client") ;;;
  now <- clock_now ;;
  guard (negb (time_before rt.(RefreshToken.ExpiresAt) now)) (ErrInvalidGrant "refresh token expired") ;;;
  guard (negb rt.(RefreshToken.Revoked)) (ErrInvalidGrant "refresh token revoked") ;;;
  (if RefreshToken.WasRotated rt
   then ignore (RevokeRefreshTokenFamily rt.(RefreshToken.FamilyID)) ;;;
        throw (ErrInvalidGrant "token reuse detected")
   else ret tt) ;;;
  granted <- refreshScopes scope rt.(RefreshToken.Scopes) ;;
  granted <- applyRefreshPolicy client rt (parseSpaceDelimited scope) granted ;;
  or_fail (RotateRefreshToken rtHash) (ErrServerError "failed to rotate refresh token") ;;;
  ignore (RevokeAccessTokensByRefreshToken rtHash) ;;;
  issueTokensWithOpts client (Some rt.(RefreshToken.UserID)) (Some rt.(RefreshToken.SessionID)) granted
    {| issueOpts.nonce := ""; issueOpts.authTime := now;
       issueOpts.audience := rt.(RefreshToken.Audience); issueOpts.resourceID := None;
       issueOpts.requestedClaims := ""; issueOpts.acr := ""; issueOpts.amr := [] |}.

Definition ExchangeRefreshToken (client : OAuthClient.t) (refreshTokenRaw scope : string)
    : M TokenResponse.t :=
  guard (OAuthClient.HasGrantType client "refresh_token")
    (ErrUnauthorizedClient "client is not authorized for refresh_token grant") ;;;
  let rtHash := HashToken refreshTokenRaw in
  transaction (
    let! (rt, err) := FindRefreshToken rtHash ;;
    match err, rt with
    | None, Some rt => rotateRefreshToken client rtHash scope rt
    | _, _ => throw (ErrInvalidGrant "invalid refresh token")
    end).

End token.

(** ** What the token endpoint promises *)
Module TokenFacts.

(** What the OAuth service expects of the resource service: narrowing. *)
Class ResourceValidatorLaws (v : ResourceValidator) : Prop := {
  user_scopes_narrow : forall u r req env n db l,
    v.(ValidateUserScopes) u r req env n db = Ok l -> forall x, x ∈ l -> x ∈ req;
  client_scopes_narrow : forall c r req env n db l,
    v.(ValidateClientScopes) c r req env n db = Ok l -> req <> [] -> forall x, x ∈ l -> x ∈ req
}.

(** The two rows an issuance adds, and how the response names them. *)
Record issued (clientID userID sessionID : UUID) (scopes : list string) (audience : option string)
    (db db' : DB) (resp : TokenResponse.t) (rt : RefreshToken.t) (at_ : AccessToken.t) : Prop := {
  issued_db : db' = db <| refresh_tokens ::= insert (HashToken resp.(TokenResponse.RefreshToken)) rt |>
                       <| access_tokens ::= insert (HashToken resp.(TokenResponse.AccessToken)) at_ |>;
  issued_fresh_rt : db.(refresh_tokens) !! HashToken resp.(TokenResponse.RefreshToken) = None;
  issued_fresh_at : db.(access_tokens) !! HashToken resp.(TokenResponse.AccessToken) = None;
  issued_rt_owner : rt.(RefreshToken.ClientID) = clientID /\ rt.(RefreshToken.UserID) = userID /\
                    rt.(RefreshToken.SessionID) = sessionID;
  issued_rt_live : rt.(RefreshToken.Revoked) = false /\ rt.(RefreshToken.RotatedAt) = None;
  issued_at_owner : at_.(AccessToken.ClientID) = clientID /\ at_.(AccessToken.UserID) = Some userID /\
                    at_.(AccessToken.SessionID) = Some sessionID;
  issued_at_live : at_.(AccessToken.Revoked) = false;
  issued_link : at_.(AccessToken.RefreshTokenID) = Some (HashToken resp.(TokenResponse.RefreshToken));
  issued_audience : rt.(RefreshToken.Audience) = audience /\ at_.(AccessToken.Audience) = audience;
  issued_scopes : rt.(RefreshToken.Scopes) = at_.(AccessToken.Scopes) /\
                  forall x, x ∈ at_.(AccessToken.Scopes) -> x ∈ scopes
}.

Section facts.
Context `{Platform} (s : Service).
Context (Hres : forall v, s.(resourceValidator) = Some v -> ResourceValidatorLaws v).

Ltac wp_hook ::= apply wp_read_only; [solve [apply _] | intros ? ?].

Lemma wp_applyIssuePolicy client uid scopes env st
    (Q : result (OAuthClient.t * list string * option (list (string * any))) -> State -> Prop) :
  (forall e n, Q (Err e) (mkState st.(st_db) n)) ->
  (forall client' scopes' extra n,
     client'.(OAuthClient.ID) = client.(OAuthClient.ID) ->
     (forall x, x ∈ scopes' -> x ∈ scopes) ->
     Q (Ok (client', scopes', extra)) (mkState st.(st_db) n)) ->
  wp (applyIssuePolicy s client uid scopes) Q env st.
Proof.
  intros He Hok. unfold applyIssuePolicy. destruct st as [db n0]. simpl in *.
  wp_steps; try apply He; apply Hok; try done.
  all: try (by repeat case_match).
  all: intros x; destruct (PolicyModify.readModifyScopes _ _) eqn:E; simpl;
    [by eapply PolicyModify.readModifyScopes_subset | done].
Qed.

Lemma wp_narrowByUser resource rid uid scopes env st (Q : result (list string) -> State -> Prop) :
  (forall e n, Q (Err e) (mkState st.(st_db) n)) ->
  (forall scopes' n, (forall x, x ∈ scopes' -> x ∈ scopes) -> Q (Ok scopes') (mkState st.(st_db) n)) ->
  wp (narrowByUser s resource rid uid scopes) Q env st.
Proof using Hres.
  intros He Hok. destruct st as [db n0]. simpl in *. unfold narrowByUser.
  destruct rid as [rid|]; [|by wp_steps; apply Hok]. destruct uid as [uid|]; [|by wp_steps; apply Hok].
  destruct (resourceValidator s) as [v|] eqn:Ev; [|by wp_steps; apply Hok].
  destruct resource as [r|]; [|by wp_steps; apply Hok].
  pose proof (Hres v eq_refl) as Hlaw.
  assert (Hsplit : forall x, x ∈ (splitResourceScopes scopes (APIResource.Permissions r)).1 \/
                    x ∈ (splitResourceScopes scopes (APIResource.Permissions r)).2 -> x ∈ scopes).
  { intros x. unfold splitResourceScopes. destruct (APIResource.Permissions r); simpl.
    - intros [[]%not_elem_of_nil | Hx]; done.
    - autorewrite with orion. tauto. }
  destruct (splitResourceScopes _ _) as [rs os] eqn:Es. simpl in Hsplit.
  destruct rs as [|r0 rs]; [by wp_steps; apply Hok|].
  do 2 wp_step. apply wp_ask. wp_simpl.
  destruct (ValidateUserScopes v uid rid (r0 :: rs) env n0 db) as [l|e] eqn:El;
    wp_simpl; wp_step; [apply Hok | by apply Hok].
  intros x. rewrite elem_of_unionScopes. intros [Hx | Hx]; apply Hsplit; [by right|].
  left. by eapply user_scopes_narrow.
Qed.

Lemma wp_makeAccessToken resource claims env st
    (Q : result (string * string * option string) -> State -> Prop) :
  (forall e n, Q (Err e) (mkState st.(st_db) n)) ->
  (forall raw jti n, Q (Ok (raw, HashToken raw, jti)) (mkState st.(st_db) n)) ->
  wp (makeAccessToken s resource claims) Q env st.
Proof.
  intros He Hok. unfold makeAccessToken. destruct (jwt_signer_for s resource) as [[r j]|].
  - do 3 wp_step. destruct (GenerateAccessTokenJWT _ _ _ _ _ _) as [[raw jti]|e];
      [wp_steps; apply Hok | apply He].
  - do 2 wp_step. apply wp_GenerateOpaqueToken; [intros; apply He|]. intros raw _ _. wp_step. apply Hok.
Qed.

#[export] Instance resolveResource_read_only a : ReadOnly (resolveResource s a).
Proof. unfold resolveResource. solve_preserves ltac:(apply _). Qed.

#[export] Instance makeIDToken_read_only c u sc o r e : ReadOnly (makeIDToken s c u sc o r e).
Proof. unfold makeIDToken. solve_preserves ltac:(apply _). Qed.

Lemma wp_issueTokens client uid session scopes opts env st
    (Q : result TokenResponse.t -> State -> Prop) :
  (forall e st', Q (Err e) st') ->
  (forall sid resp rt at_ db' n,
     session = Some sid ->
     issued client.(OAuthClient.ID) uid sid scopes opts.(issueOpts.audience) st.(st_db) db' resp rt at_ ->
     Q (Ok resp) (mkState db' n)) ->
  wp (issueTokensWithOpts s client (Some uid) session scopes opts) Q env st.
Proof using Hres.
  intros He Hok. unfold issueTokensWithOpts.
  apply wp_bind, wp_applyIssuePolicy; [done|]. intros client' scopes1 extra n1 Hid Hs1.
  do 2 wp_step. destruct r as [resource|e]; [|done]. wp_simpl. wp_step.
  apply wp_narrowByUser; [done|]. intros scopes2 n2 Hs2. wp_simpl. wp_step.
  apply wp_makeAccessToken; [done|]. intros rawAT jti n3. wp_simpl.
  do 2 wp_step. apply wp_GenerateOpaqueToken; [done|]. intros rawRT _ _. wp_simpl.
  unfold CreateRefreshToken, CreateAccessToken, deref.
  destruct session as [sid|]; wp_steps; try apply He.
  all: eapply Hok; [reflexivity|]; split; simpl; try done; try (split; [done|]); try reflexivity.
  all: by intros x Hx; apply Hs1, Hs2.
Qed.

(** ** The authorization code grant *)

Definition pkce_satisfied (client : OAuthClient.t) (c : AuthorizationCode.t) (verifier : string) : Prop :=
  match c.(AuthorizationCode.CodeChallenge) with
  | Some ch => if String.eqb ch "" then client.(OAuthClient.IsPublic) = false
               else verifier <> "" /\ verifyPKCE verifier ch = true
  | None => client.(OAuthClient.IsPublic) = false
  end.

Definition mark_used (c : AuthorizationCode.t) : AuthorizationCode.t :=
  c <| AuthorizationCode.Used := true |>.

Lemma wp_checkPKCE client c verifier env st (Q : result unit -> State -> Prop) :
  (forall e, Q (Err e) st) -> (pkce_satisfied client c verifier -> Q (Ok tt) st) ->
  wp (checkPKCE client c verifier) Q env st.
Proof.
  intros HQe HQ. unfold checkPKCE, AuthorizationCode.HasPKCE, pkce_satisfied in *.
  destruct (AuthorizationCode.CodeChallenge c) as [ch|]; simpl.
  - destruct (String.eqb ch "") eqn:Ech; simpl; wp_steps; try done; bool_simpl; auto.
  - wp_steps; [|done]. bool_simpl; auto.
Qed.

Lemma code_opts_audience c :
  issueOpts.audience (code_opts c) = c.(AuthorizationCode.Audience).
Proof. unfold code_opts. by destruct (computeACR _). Qed.

Ltac wp_hook ::=
  lazymatch goal with
  | |- wp (checkPKCE _ _ _) _ _ _ => apply wp_checkPKCE; [intros ? | intros ?]
  | |- wp (issueTokensWithOpts _ _ _ _ _ _) _ _ _ =>
      apply wp_issueTokens; [intros ? ? | intros ? ? ? ? ? ? ? ?]
  | |- _ => apply wp_read_only; [solve [apply _] | intros ? ?]
  end.

(** What a successful exchange of a code found and did. *)
Definition code_redeemed (env : Env) (client : OAuthClient.t) (code redirectURI verifier : string)
    (db db' : DB) (resp : TokenResponse.t) : Prop :=
  exists c sid rt at_,
    db.(authorization_codes) !! HashToken code = Some c /\
    c.(AuthorizationCode.Used) = false /\
    env.(env_wall) < c.(AuthorizationCode.ExpiresAt) /\
    c.(AuthorizationCode.ClientID) = client.(OAuthClient.ID) /\
    c.(AuthorizationCode.RedirectURI) = redirectURI /\
    pkce_satisfied client c verifier /\
    c.(AuthorizationCode.SessionID) = Some sid /\
    issued client.(OAuthClient.ID) c.(AuthorizationCode.UserID) sid
      c.(AuthorizationCode.Scopes) c.(AuthorizationCode.Audience)
      (db <| authorization_codes ::= alter mark_used (HashToken code) |>) db' resp rt at_.

Lemma wp_ExchangeAuthorizationCode client code redirectURI verifier env st :
  wp (ExchangeAuthorizationCode s client code redirectURI verifier)
    (fun r st' =>
       match r with
       | Err _ => st'.(st_db) = st.(st_db)
       | Ok resp => code_redeemed env client code redirectURI verifier st.(st_db) st'.(st_db) resp
       end) env st.
Proof using Hres.
  unfold ExchangeAuthorizationCode. apply wp_transaction; [done|].
  unfold FindAuthCode, redeemCode, AuthorizationCode.IsValid, MarkAuthCodeUsed.
  wp_steps; try done; bool_simpl; try congruence.
  intros _. do 4 eexists. unfold time_after in *. bool_simpl.
  match goal with Hi : issued _ _ _ _ _ _ _ _ _ _ |- _ => rewrite code_opts_audience in Hi end.
  by split_and!.
Qed.

(** C2: The exchange succeeds only for an unused, unexpired code issued to that
    client for that redirect URI, with the verifier of its PKCE challenge (a
    public client must have one); it then marks the code used and issues one
    access and one refresh token for the code's user, session and audience,
    with no scope the code did not grant.  Otherwise nothing changes, at
    whatever statement it fails. *)
Theorem ExchangeAuthorizationCode_spec (client : OAuthClient.t)
    (code redirectURI verifier : string) (env : Env) (db db' : DB) (r : result TokenResponse.t) :
  run (ExchangeAuthorizationCode s client code redirectURI verifier) env db = (r, db') ->
  match r with
  | Err _ => db' = db
  | Ok resp => code_redeemed env client code redirectURI verifier db db' resp
  end.
Proof using Hres.
  intros Hr. by destruct (wp_run _ _ _ _ (wp_ExchangeAuthorizationCode _ _ _ _ env (mkState db 0)) _ _ Hr).
Qed.

(** C6: A code is redeemed once: whatever happens to the second attempt, whoever
    makes it, it fails. *)
Theorem code_single_use (client client' : OAuthClient.t) (code uri uri' verifier verifier' : string)
    (env env' : Env) (db db1 db2 : DB) (resp : TokenResponse.t) (r : result TokenResponse.t) :
  run (ExchangeAuthorizationCode s client code uri verifier) env db = (Ok resp, db1) ->
  run (ExchangeAuthorizationCode s client' code uri' verifier') env' db1 = (r, db2) ->
  (exists e, r = Err e) /\ db2 = db1.
Proof using Hres.
  intros Hr1 Hr2.
  destruct (wp_run env _ _ _ (wp_ExchangeAuthorizationCode client code uri verifier env (mkState db 0)) _ _ Hr1)
    as (n & c & sid & rt & at_ & Hc & _ & _ & _ & _ & _ & _ & Hiss).
  destruct (wp_run env' _ _ _ (wp_ExchangeAuthorizationCode client' code uri' verifier' env' (mkState db1 0)) _ _ Hr2)
    as (n' & H2). simpl in *.
  destruct r as [resp'|e]; [exfalso | by split; [eexists|]].
  destruct H2 as (c' & _ & _ & _ & Hc' & Hused & _).
  rewrite (issued_db _ _ _ _ _ _ _ _ _ _ Hiss) in Hc'.
  change (alter mark_used (HashToken code) db.(authorization_codes) !! HashToken code = Some c') in Hc'.
  rewrite lookup_alter_eq, Hc in Hc'. simpl in Hc'. injection Hc' as <-. done.
Qed.

(** ** The refresh token grant *)

Definition rotated (wall : Z) (t : RefreshToken.t) : RefreshToken.t :=
  t <| RefreshToken.RotatedAt := Some wall |>.

Definition of_refresh_token (h : string) (t : AccessToken.t) : bool :=
  opt_str_eqb t.(AccessToken.RefreshTokenID) h && negb t.(AccessToken.Revoked).

(** What the exchange did to the old tokens before issuing new ones.  The
    revocation of the old access tokens is attempted and its outcome is not
    looked at: a fault may have skipped it. *)
Definition old_tokens_retired (env : Env) (h : string) (db db' : DB) : Prop :=
  let db1 := db <| refresh_tokens ::= alter (rotated env.(env_wall)) h |> in
  db' = db1 <| access_tokens ::= update_rows (of_refresh_token h) revoke_at |> \/
  (db' = db1 /\ exists n, env.(env_fail) n = true).

Lemma wp_refreshScopes scope granted env st (Q : result (list string) -> State -> Prop) :
  (forall e, Q (Err e) st) ->
  (forall l, (forall x, x ∈ l -> x ∈ granted) -> Q (Ok l) st) ->
  wp (refreshScopes scope granted) Q env st.
Proof.
  intros He Hok. unfold refreshScopes. destruct (parseSpaceDelimited scope) as [|x l]; wp_steps; try done.
  - by apply Hok.
  - apply Hok. intros y. rewrite mem_filterScopes. tauto.
Qed.

Lemma wp_applyRefreshPolicy client rt req granted env st (Q : result (list string) -> State -> Prop) :
  (forall e n, Q (Err e) (mkState st.(st_db) n)) ->
  (forall l n, (forall x, x ∈ l -> x ∈ granted) -> Q (Ok l) (mkState st.(st_db) n)) ->
  wp (applyRefreshPolicy s client rt req granted) Q env st.
Proof.
  intros He Hok. destruct st as [db n0]. simpl in *. unfold applyRefreshPolicy.
  wp_steps; try apply He; apply Hok; try done.
  all: match goal with Hm : _ ≫= _ = Some _ |- _ =>
         apply bind_Some in Hm as (m & _ & Hm) end.
  all: by eapply PolicyModify.readModifyScopes_subset.
Qed.

Ltac wp_hook ::=
  lazymatch goal with
  | |- wp (refreshScopes _ _) _ _ _ => apply wp_refreshScopes; [intros ? | intros ? ?]
  | |- wp (applyRefreshPolicy _ _ _ _ _) _ _ _ =>
      apply wp_applyRefreshPolicy; [intros ? ? | intros ? ? ?]
  | |- wp (issueTokensWithOpts _ _ _ _ _ _) _ _ _ =>
      apply wp_issueTokens; [intros ? ? | intros ? ? ? ? ? ? ? ?]
  | |- _ => apply wp_read_only; [solve [apply _] | intros ? ?]
  end.

Lemma issued_subset c u se sc sc' a db db' resp rt at_ :
  (forall x, x ∈ sc -> x ∈ sc') ->
  issued c u se sc a db db' resp rt at_ -> issued c u se sc' a db db' resp rt at_.
Proof. intros Hsub []. split; try done. naive_solver. Qed.

(** What a successful exchange of a refresh token found and did. *)
Definition token_refreshed (env : Env) (client : OAuthClient.t) (raw : string)
    (db db' : DB) (resp : TokenResponse.t) : Prop :=
  exists old rt at_ db1,
    "refresh_token" ∈ client.(OAuthClient.GrantTypes) /\
    db.(refresh_tokens) !! HashToken raw = Some old /\
    old.(RefreshToken.ClientID) = client.(OAuthClient.ID) /\
    env.(env_now) <= old.(RefreshToken.ExpiresAt) /\
    old.(RefreshToken.Revoked) = false /\ old.(RefreshToken.RotatedAt) = None /\
    old_tokens_retired env (HashToken raw) db db1 /\
    issued client.(OAuthClient.ID) old.(RefreshToken.UserID) old.(RefreshToken.SessionID)
      old.(RefreshToken.Scopes) old.(RefreshToken.Audience) db1 db' resp rt at_.

Lemma wp_ExchangeRefreshToken client raw scope env st :
  wp (ExchangeRefreshToken s client raw scope)
    (fun r st' =>
       match r with
       | Err _ => st'.(st_db) = st.(st_db)
       | Ok resp => token_refreshed env client raw st.(st_db) st'.(st_db) resp
       end) env st.
Proof using Hres.
  unfold ExchangeRefreshToken. wp_step. wp_step; [|done]. wp_step. apply wp_transaction; [done|].
  unfold FindRefreshToken, rotateRefreshToken, RotateRefreshToken, RevokeAccessTokensByRefreshToken,
    RefreshToken.WasRotated.
  wp_steps; try done; bool_simpl; try congruence.
  all: intros _; destruct (RefreshToken.RotatedAt t) eqn:Er; [done|].
  all: match goal with Hs : Some (RefreshToken.SessionID _) = Some _, Hi : issued _ _ _ _ _ _ _ _ _ _ |- _ =>
         injection Hs as <-; eapply issued_subset in Hi; [| intros x Hx; auto] end.
  all: unfold token_refreshed; do 4 eexists; split_and!; [by apply mem_iff | eassumption | done | by apply Z.ltb_ge |
         done | done | | eassumption].
  - right. split; [done | by eexists].
  - by left.
Qed.

(** C7: The exchange succeeds only for a refresh token of that client that is
    neither expired, revoked nor rotated; it rotates it, revokes the access
    tokens issued with it, and issues new ones for the same user, session and
    audience, with no scope beyond the original grant.  Otherwise nothing
    changes. *)
Theorem ExchangeRefreshToken_spec (client : OAuthClient.t) (raw scope : string)
    (env : Env) (db db' : DB) (r : result TokenResponse.t) :
  run (ExchangeRefreshToken s client raw scope) env db = (r, db') ->
  match r with
  | Err _ => db' = db
  | Ok resp => token_refreshed env client raw db db' resp
  end.
Proof using Hres.
  intros Hr. by destruct (wp_run _ _ _ _ (wp_ExchangeRefreshToken _ _ _ env (mkState db 0)) _ _ Hr).
Qed.

Lemma retired_old env h db db1 old :
  old_tokens_retired env h db db1 -> db.(refresh_tokens) !! h = Some old ->
  db1.(refresh_tokens) !! h = Some (rotated env.(env_wall) old).
Proof.
  intros [-> | [-> _]] Ho.
  all: change (alter (rotated env.(env_wall)) h db.(refresh_tokens) !! h
               = Some (rotated env.(env_wall) old)); by rewrite lookup_alter_eq, Ho.
Qed.

(** C8: A refresh token is exchanged once.  The second attempt fails and, the
    transaction being rolled back, leaves the database as it was: the tokens
    issued by the first exchange, and the family, stay valid. *)
Theorem refresh_single_use (client client' : OAuthClient.t) (raw scope scope' : string)
    (env env' : Env) (db db1 db2 : DB) (resp : TokenResponse.t) (r : result TokenResponse.t) :
  run (ExchangeRefreshToken s client raw scope) env db = (Ok resp, db1) ->
  run (ExchangeRefreshToken s client' raw scope') env' db1 = (r, db2) ->
  (exists e, r = Err e) /\ db2 = db1.
Proof using Hres.
  intros Hr1 Hr2.
  destruct (wp_run env _ _ _ (wp_ExchangeRefreshToken client raw scope env (mkState db 0)) _ _ Hr1)
    as (n & old & rt & at_ & dbm & _ & Hold & _ & _ & _ & _ & Hret & Hiss).
  destruct (wp_run env' _ _ _ (wp_ExchangeRefreshToken client' raw scope' env' (mkState db1 0)) _ _ Hr2)
    as (n' & H2). simpl in *.
  destruct r as [resp'|e]; [exfalso | by split; [eexists|]].
  destruct H2 as (old' & _ & _ & _ & _ & Hold' & _ & _ & _ & Hrot & _).
  pose proof (retired_old _ _ _ _ _ Hret Hold) as Hm.
  rewrite (issued_db _ _ _ _ _ _ _ _ _ _ Hiss) in Hold'.
  change (<[HashToken resp.(TokenResponse.RefreshToken) := rt]> dbm.(refresh_tokens) !! HashToken raw = Some old') in Hold'.
  rewrite lookup_insert_ne in Hold'.
  - rewrite Hm in Hold'. by injection Hold' as <-.
  - intros He. pose proof (issued_fresh_rt _ _ _ _ _ _ _ _ _ _ Hiss) as Hfr. rewrite He in Hfr. congruence.
Qed.

(** ** The client credentials grant *)

Lemma ValidateScopes_subset client req x :
  x ∈ OAuthClient.ValidateScopes client req -> x ∈ client.(OAuthClient.Scopes).
Proof.
  unfold OAuthClient.ValidateScopes, OAuthClient.HasScope.
  destruct req; [done|]. autorewrite with orion. tauto.
Qed.

Lemma wp_clientCredentialsScopes client scope audience env st
    (Q : result (list string * option string * option APIResource.t) -> State -> Prop) :
  (forall e n, Q (Err e) (mkState st.(st_db) n)) ->
  (forall sc aud res n,
     (aud = None /\ forall x, x ∈ sc -> x ∈ client.(OAuthClient.Scopes)) \/
     (aud = Some audience /\ audience <> "" /\ sc <> [] /\
      (parseSpaceDelimited scope <> [] -> forall x, x ∈ sc -> x ∈ parseSpaceDelimited scope)) ->
     Q (Ok (sc, aud, res)) (mkState st.(st_db) n)) ->
  wp (clientCredentialsScopes s client scope audience) Q env st.
Proof using Hres.
  intros He Hok. unfold clientCredentialsScopes. destruct st as [db n0]. simpl in *.
  pose proof (ValidateScopes_subset client (parseSpaceDelimited scope)) as Hval.
  destruct (resourceValidator s) as [v|] eqn:Ev; [|wp_steps; apply Hok; by left].
  pose proof (Hres v eq_refl) as Hlaw.
  wp_steps; bool_simpl; try apply He; apply Hok; [by left|].
  right. split_and!; try done; [by intros ->|]. intros Hreq. by eapply client_scopes_narrow.
Qed.

(** The grant stores one access token, bound to no user and no session: it is
    for confidential clients allowed this grant; without a resource its scopes
    are the client's own, with one they are what the resource service grants
    that client, of those asked for. *)
Theorem ExchangeClientCredentials_spec (client : OAuthClient.t) (scope audience : string)
    (env : Env) (st : State) :
  wp (ExchangeClientCredentials s client scope audience)
    (fun r st' =>
       match r with
       | Err _ => st'.(st_db) = st.(st_db)
       | Ok resp =>
           client.(OAuthClient.IsPublic) = false /\
           "client_credentials" ∈ client.(OAuthClient.GrantTypes) /\
           exists at_,
             st'.(st_db) = st.(st_db)
               <| access_tokens ::= insert (HashToken resp.(TokenResponse.AccessToken)) at_ |> /\
             st.(st_db).(access_tokens) !! HashToken resp.(TokenResponse.AccessToken) = None /\
             at_.(AccessToken.ClientID) = client.(OAuthClient.ID) /\
             at_.(AccessToken.UserID) = None /\ at_.(AccessToken.SessionID) = None /\
             at_.(AccessToken.RefreshTokenID) = None /\ resp.(TokenResponse.RefreshToken) = "" /\
             resp.(TokenResponse.Scope) = joinScopes at_.(AccessToken.Scopes) /\
             ((at_.(AccessToken.Audience) = None /\
               forall x, x ∈ at_.(AccessToken.Scopes) -> x ∈ client.(OAuthClient.Scopes)) \/
              (at_.(AccessToken.Audience) = Some audience /\ audience <> "" /\
               at_.(AccessToken.Scopes) <> [] /\
               (parseSpaceDelimited scope <> [] ->
                forall x, x ∈ at_.(AccessToken.Scopes) -> x ∈ parseSpaceDelimited scope)))
       end) env st.
Proof using Hres.
  unfold ExchangeClientCredentials. do 2 wp_step; [|done]. do 2 wp_step; [|done]. wp_step.
  apply wp_clientCredentialsScopes; [done|]. intros sc aud res n Hcase. wp_simpl. wp_step.
  apply wp_makeAccessToken; [done|]. intros raw jti n'. wp_simpl.
  unfold CreateAccessToken. wp_steps; try done.
  split_and!; [by apply negb_true_iff | by apply mem_iff |].
  eexists. split_and!; try reflexivity; try done.
Qed.
End facts.

(** ** Witnesses: a sample code, refresh token and client *)

Definition sample_code : AuthorizationCode.t :=
  AuthorizationCode.zero
    <| AuthorizationCode.CodeHash := HashToken "code" |> <| AuthorizationCode.ClientID := 77%N |>
    <| AuthorizationCode.UserID := 5%N |> <| AuthorizationCode.SessionID := Some 9%N |>
    <| AuthorizationCode.RedirectURI := "https://app/cb" |>
    <| AuthorizationCode.Scopes := ["openid"; "read"; "write"] |>
    <| AuthorizationCode.Audience := Some "https://api" |>
    <| AuthorizationCode.ExpiresAt := 100 * second |>.

Definition sample_refresh : RefreshToken.t :=
  RefreshToken.zero
    <| RefreshToken.ID := HashToken "rt" |> <| RefreshToken.ClientID := 77%N |>
    <| RefreshToken.UserID := 5%N |> <| RefreshToken.SessionID := 9%N |>
    <| RefreshToken.Scopes := ["read"] |> <| RefreshToken.ExpiresAt := 100 * second |>.

Definition sample_db : DB :=
  Sample.db <| authorization_codes := {[ HashToken "code" := sample_code ]} |>
            <| refresh_tokens := {[ HashToken "rt" := sample_refresh ]} |>.

Lemma sample_laws v :
  Sample.service.(resourceValidator) = Some v -> ResourceValidatorLaws v.
Proof.
  intros [= <-]. split; simpl.
  - intros u r req env n db l [= <-] x. autorewrite with orion. tauto.
  - by intros c r req env n db l [= <-] _.
Qed.

Lemma ExchangeAuthorizationCode_spec_witness :
  let P := sample_platform in
  let out := run (ExchangeAuthorizationCode Sample.service Sample.client "code" "https://app/cb" "")
               (Sample.env 10) sample_db in
  exists resp, out.1 = Ok resp /\
    code_redeemed (Sample.env 10) Sample.client "code" "https://app/cb" "" sample_db out.2 resp.
Proof.
  intros P out.
  assert (Hok : is_ok out.1 = true) by (vm_compute; reflexivity).
  destruct (run_ok _ _ _ Hok) as [resp Hrun]. exists resp.
  split; [exact (f_equal fst Hrun)|].
  exact (ExchangeAuthorizationCode_spec Sample.service sample_laws Sample.client "code"
           "https://app/cb" "" (Sample.env 10) sample_db out.2 (Ok resp) Hrun).
Defined.

Lemma code_single_use_witness :
  let P := sample_platform in
  let use db := run (ExchangeAuthorizationCode Sample.service Sample.client "code" "https://app/cb" "")
                  (Sample.env 10) db in
  let first := use sample_db in
  is_ok first.1 = true /\ (exists e, (use first.2).1 = Err e) /\ (use first.2).2 = first.2.
Proof.
  intros P use first.
  assert (Hok : is_ok first.1 = true) by (vm_compute; reflexivity). split; [exact Hok|].
  destruct (run_ok _ _ _ Hok) as [resp Hrun].
  apply (code_single_use Sample.service sample_laws Sample.client Sample.client "code"
           "https://app/cb" "https://app/cb" "" "" (Sample.env 10) (Sample.env 10)
           sample_db first.2 (use first.2).2 resp (use first.2).1).
  - exact Hrun.
  - apply surjective_pairing.
Defined.

Lemma ExchangeRefreshToken_spec_witness :
  let P := sample_platform in
  let out := run (ExchangeRefreshToken Sample.service Sample.client "rt" "") (Sample.env 10) sample_db in
  exists resp, out.1 = Ok resp /\
    token_refreshed (Sample.env 10) Sample.client "rt" sample_db out.2 resp.
Proof.
  intros P out.
  assert (Hok : is_ok out.1 = true) by (vm_compute; reflexivity).
  destruct (run_ok _ _ _ Hok) as [resp Hrun]. exists resp.
  split; [exact (f_equal fst Hrun)|].
  exact (ExchangeRefreshToken_spec Sample.service sample_laws Sample.client "rt" ""
           (Sample.env 10) sample_db out.2 (Ok resp) Hrun).
Defined.

Lemma refresh_single_use_witness :
  let P := sample_platform in
  let use db := run (ExchangeRefreshToken Sample.service Sample.client "rt" "") (Sample.env 10) db in
  let first := use sample_db in
  is_ok first.1 = true /\ (exists e, (use first.2).1 = Err e) /\ (use first.2).2 = first.2.
Proof.
  intros P use first.
  assert (Hok : is_ok first.1 = true) by (vm_compute; reflexivity). split; [exact Hok|].
  destruct (run_ok _ _ _ Hok) as [resp Hrun].
  apply (refresh_single_use Sample.service sample_laws Sample.client Sample.client "rt" "" ""
           (Sample.env 10) (Sample.env 10) sample_db first.2 (use first.2).2 resp (use first.2).1).
  - exact Hrun.
  - apply surjective_pairing.
Defined.

Lemma ExchangeClientCredentials_spec_witness :
  let P := sample_platform in
  wp (ExchangeClientCredentials Sample.service Sample.client "read" "")
    (fun r st' =>
       match r with
       | Err _ => st'.(st_db) = sample_db
       | Ok resp =>
           Sample.client.(OAuthClient.IsPublic) = false /\
           "client_credentials" ∈ Sample.client.(OAuthClient.GrantTypes) /\
           exists at_,
             st'.(st_db) = sample_db
               <| access_tokens ::= insert (HashToken resp.(TokenResponse.AccessToken)) at_ |> /\
             sample_db.(access_tokens) !! HashToken resp.(TokenResponse.AccessToken) = None /\
             at_.(AccessToken.ClientID) = 77%N /\
             at_.(AccessToken.UserID) = None /\ at_.(AccessToken.SessionID) = None /\
             at_.(AccessToken.RefreshTokenID) = None /\ resp.(TokenResponse.RefreshToken) = "" /\
             resp.(TokenResponse.Scope) = joinScopes at_.(AccessToken.Scopes) /\
             ((at_.(AccessToken.Audience) = None /\
               forall x, x ∈ at_.(AccessToken.Scopes) -> x ∈ Sample.client.(OAuthClient.Scopes)) \/
              (at_.(AccessToken.Audience) = Some "" /\ "" <> "" /\
               at_.(AccessToken.Scopes) <> [] /\
               (parseSpaceDelimited "read" <> [] ->
                forall x, x ∈ at_.(AccessToken.Scopes) -> x ∈ parseSpaceDelimited "read")))
       end) (Sample.env 10) (mkState sample_db 0).
Proof.
  intros P.
  exact (ExchangeClientCredentials_spec Sample.service sample_laws Sample.client "read" ""
           (Sample.env 10) (mkState sample_db 0)).
Defined.
End TokenFacts.
