(* ===== verification/Json.v ===== *)
(** * The parts of encoding/json the source uses

    The encoder of strings (with its HTML escapes), the parser of documents
    into [any], and the validity test [json.Unmarshal] into a [RawMessage]
    amounts to.  Texts are lists of bytes; invalid UTF-8 is replaced by U+FFFD
    in both directions, as in Go. *)
From S2P Require Import Prelude.
From S2P Require Import Errors.
From S2P Require Import GoLib.
From S2P Require Import Model.
From S2P Require Import Platform.
Local Open Scope Z_scope.

Definition between (lo hi b : Z) : bool := (lo <=? b) && (b <=? hi).

(** The length of the well-formed multi-byte sequence at the head of a text. *)
Definition utf8_len (s : list Z) : option nat :=
  let tail := between 128 191 in
  match s with
  | b :: c :: r =>
      if between 194 223 b then (if tail c then Some 2%nat else None)
      else
        let second3 := if b =? 224 then between 160 191 c
                       else if b =? 237 then between 128 159 c
                       else between 225 239 b && tail c in
        let second4 := if b =? 240 then between 144 191 c
                       else if b =? 244 then between 128 143 c
                       else between 241 243 b && tail c in
        match r with
        | d :: r' =>
            if second3 && tail d then Some 3%nat
            else match r' with
                 | e :: _ => if second4 && tail d && tail e then Some 4%nat else None
                 | [] => None
                 end
        | [] => None
        end
  | _ => None
  end.

(** ** Encoding *)

Definition ascii_bytes (s : string) : list Z := bytes_of s.

Definition hex_byte (x : Z) : Z := if x <? 10 then 48 + x else 87 + x.

(** Bytes that are written as they are: not a control, a quote, a backslash or
    one of [<], [>] and [&]. *)
Definition html_safe (b : Z) : bool :=
  between 32 127 b && negb (existsb (Z.eqb b) [34; 92; 60; 62; 38]).

Definition escape_ascii (b : Z) : list Z :=
  if html_safe b then [b]
  else if (b =? 92) || (b =? 34) then [92; b]
  else if b =? 8 then [92; 98]
  else if b =? 12 then [92; 102]
  else if b =? 10 then [92; 110]
  else if b =? 13 then [92; 114]
  else if b =? 9 then [92; 116]
  else [92; 117; 48; 48; hex_byte (b / 16); hex_byte (b mod 16)].

(** [copy] continuation bytes are still to be copied. *)
Fixpoint encode_bytes (copy : nat) (s : list Z) : list Z :=
  match s with
  | [] => []
  | b :: r =>
      match copy with
      | S c => b :: encode_bytes c r
      | O =>
          if b <? 128 then escape_ascii b ++ encode_bytes 0 r
          else match utf8_len s with
               | None => ascii_bytes "\ufffd" ++ encode_bytes 0 r
               | Some n => b :: encode_bytes (n - 1) r
               end
      end
  end.

(** U+2028 and U+2029 (E2 80 A8 and E2 80 A9) are escaped. *)
Fixpoint escape_separators (s : list Z) : list Z :=
  match s with
  | 226 :: ((128 :: (d :: r) as t2) as t1) =>
      if (d =? 168) then ascii_bytes "\u2028" ++ escape_separators r
      else if (d =? 169) then ascii_bytes "\u2029" ++ escape_separators r
      else 226 :: escape_separators t1
  | b :: r => b :: escape_separators r
  | [] => []
  end.

Definition encode_string (s : string) : list Z :=
  34 :: escape_separators (encode_bytes 0 (bytes_of s)) ++ [34].

(** A struct of strings: [{"K":"v",...}]. *)
Fixpoint encode_members (l : list (string * string)) : list Z :=
  match l with
  | [] => []
  | [(k, v)] => encode_string k ++ 58 :: encode_string v
  | (k, v) :: l' => encode_string k ++ 58 :: encode_string v ++ 44 :: encode_members l'
  end.

Definition encode_object (l : list (string * string)) : string :=
  string_of_bytes (123 :: encode_members l ++ [125]).

(** ** Decoding *)

Definition hex_value (b : Z) : option Z :=
  if between 48 57 b then Some (b - 48)
  else if between 97 102 b then Some (b - 87)
  else if between 65 70 b then Some (b - 55)
  else None.

Definition hex4 (a b c d : Z) : option Z :=
  match hex_value a, hex_value b, hex_value c, hex_value d with
  | Some a, Some b, Some c, Some d => Some (4096 * a + 256 * b + 16 * c + d)
  | _, _, _, _ => None
  end.

Definition is_surrogate (r : Z) : bool := between 55296 57343 r.

(** The UTF-8 form of a code point; surrogates become U+FFFD. *)
Definition encode_rune (r : Z) : list Z :=
  if r <? 128 then [r]
  else if r <? 2048 then [192 + r / 64; 128 + r mod 64]
  else if is_surrogate r then [239; 191; 189]
  else if r <? 65536 then [224 + r / 4096; 128 + r / 64 mod 64; 128 + r mod 64]
  else [240 + r / 262144; 128 + r / 4096 mod 64; 128 + r / 64 mod 64; 128 + r mod 64].

Definition simple_escape (b : Z) : option Z :=
  if b =? 34 then Some 34 else if b =? 92 then Some 92 else if b =? 47 then Some 47
  else if b =? 98 then Some 8 else if b =? 102 then Some 12 else if b =? 110 then Some 10
  else if b =? 114 then Some 13 else if b =? 116 then Some 9 else None.

(** The rest of a string literal: its value, and the text after the quote. *)
Fixpoint parse_chars (copy : nat) (s : list Z) : option (list Z * list Z) :=
  let emit l o := match o with Some (v, rest) => Some (l ++ v, rest) | None => None end in
  match s with
  | [] => None
  | b :: r =>
      match copy with
      | S c => emit [b] (parse_chars c r)
      | O =>
          if b =? 34 then Some ([], r)
          else if b =? 92 then
            match r with
            | e :: r' =>
                if e =? 117 then
                  match r' with
                  | a :: x :: y :: z :: rest =>
                      match hex4 a x y z with
                      | None => None
                      | Some u =>
                          if between 55296 56319 u then
                            match rest with
                            | p :: q :: a' :: x' :: y' :: z' :: rest' =>
                                match hex4 a' x' y' z' with
                                | Some l =>
                                    if (p =? 92) && (q =? 117) && between 56320 57343 l
                                    then emit (encode_rune (65536 + (u - 55296) * 1024 + (l - 56320)))
                                           (parse_chars 0 rest')
                                    else emit [239; 191; 189] (parse_chars 0 rest)
                                | None => emit [239; 191; 189] (parse_chars 0 rest)
                                end
                            | _ => emit [239; 191; 189] (parse_chars 0 rest)
                            end
                          else emit (encode_rune u) (parse_chars 0 rest)
                      end
                  | _ => None
                  end
                else match simple_escape e with
                     | Some c => emit [c] (parse_chars 0 r')
                     | None => None
                     end
            | [] => None
            end
          else if b <? 32 then None
          else if b <? 128 then emit [b] (parse_chars 0 r)
          else match utf8_len s with
               | None => emit [239; 191; 189] (parse_chars 0 r)
               | Some n => emit [b] (parse_chars (n - 1) r)
               end
      end
  end.

Fixpoint skip_ws (s : list Z) : list Z :=
  match s with
  | b :: r => if existsb (Z.eqb b) [32; 9; 13; 10] then skip_ws r else s
  | [] => []
  end.

Fixpoint take_digits (s : list Z) : list Z * list Z :=
  match s with
  | b :: r => if between 48 57 b then let '(d, r') := take_digits r in (b :: d, r') else ([], s)
  | [] => ([], [])
  end.

(** The fraction and the exponent are optional. *)
Definition parse_exponent (s : list Z) : option (list Z * list Z) :=
  match s with
  | e :: r =>
      if (e =? 101) || (e =? 69) then
        let '(sign, r) := match r with
                          | c :: r' => if (c =? 43) || (c =? 45) then ([c], r') else ([], r)
                          | [] => ([], r)
                          end in
        let '(d, r) := take_digits r in
        match d with [] => None | _ => Some (e :: sign ++ d, r) end
      else Some ([], s)
  | [] => Some ([], s)
  end.

Definition parse_fraction (s : list Z) : option (list Z * list Z) :=
  match s with
  | 46 :: r =>
      let '(d, r) := take_digits r in
      match d with [] => None | _ => Some (46 :: d, r) end
  | _ => Some ([], s)
  end.

Definition parse_number (s : list Z) : option (any * list Z) :=
  let '(sign, s) := match s with 45 :: r => ([45], r) | _ => ([], s) end in
  let '(int, s) := match s with 48 :: r => ([48], r) | _ => take_digits s end in
  match int with
  | [] => None
  | _ =>
      match parse_fraction s with
      | None => None
      | Some (frac, s) =>
          match parse_exponent s with
          | None => None
          | Some (ex, s) => Some (ANumber (string_of_bytes (sign ++ int ++ frac ++ ex)), s)
          end
      end
  end.

Fixpoint strip (p s : list Z) : option (list Z) :=
  match p, s with
  | [], _ => Some s
  | a :: p', b :: s' => if a =? b then strip p' s' else None
  | _, [] => None
  end.

Definition maxNestingDepth : Z := 10000.

(** [depth] is the number of open arrays and objects.  Each call either
    consumes a byte or passes to one that does, so twice the length of the
    text is fuel enough. *)
Fixpoint parse_value (fuel : nat) (depth : Z) (s : list Z) : option (any * list Z) :=
  match fuel with
  | O => None
  | S n =>
      match skip_ws s with
      | [] => None
      | b :: r =>
          if b =? 34 then
            match parse_chars 0 r with
            | Some (v, r) => Some (AString (string_of_bytes v), r)
            | None => None
            end
          else if b =? 123 then
            if maxNestingDepth <=? depth then None
            else match skip_ws r with
                 | 125 :: r => Some (AMap [], r)
                 | _ => match parse_members n (depth + 1) r with
                        | Some (m, r) => Some (AMap m, r)
                        | None => None
                        end
                 end
          else if b =? 91 then
            if maxNestingDepth <=? depth then None
            else match skip_ws r with
                 | 93 :: r => Some (AList [], r)
                 | _ => match parse_elements n (depth + 1) r with
                        | Some (l, r) => Some (AList l, r)
                        | None => None
                        end
                 end
          else if b =? 116 then (fun r => (ABool true, r)) <$> strip (ascii_bytes "rue") r
          else if b =? 102 then (fun r => (ABool false, r)) <$> strip (ascii_bytes "alse") r
          else if b =? 110 then (fun r => (ANil, r)) <$> strip (ascii_bytes "ull") r
          else parse_number (b :: r)
      end
  end
with parse_elements (fuel : nat) (depth : Z) (s : list Z) : option (list any * list Z) :=
  match fuel with
  | O => None
  | S n =>
      match parse_value n depth s with
      | None => None
      | Some (v, r) =>
          match skip_ws r with
          | 93 :: r => Some ([v], r)
          | 44 :: r => match parse_elements n depth r with
                       | Some (l, r) => Some (v :: l, r)
                       | None => None
                       end
          | _ => None
          end
      end
  end
with parse_members (fuel : nat) (depth : Z) (s : list Z) : option (list (string * any) * list Z) :=
  match fuel with
  | O => None
  | S n =>
      match skip_ws s with
      | 34 :: r =>
          match parse_chars 0 r with
          | None => None
          | Some (k, r) =>
              match skip_ws r with
              | 58 :: r =>
                  match parse_value n depth r with
                  | None => None
                  | Some (v, r) =>
                      let kv := (string_of_bytes k, v) in
                      match skip_ws r with
                      | 125 :: r => Some ([kv], r)
                      | 44 :: r => match parse_members n depth r with
                                   | Some (m, r) => Some (kv :: m, r)
                                   | None => None
                                   end
                      | _ => None
                      end
                  end
              | _ => None
              end
          end
      | _ => None
      end
  end.

(** A whole document: one value, then nothing but white space. *)
Definition parse_document (s : string) : option any :=
  let b := bytes_of s in
  match parse_value (2 * List.length b + 2) 0 b with
  | Some (v, r) => match skip_ws r with [] => Some v | _ => None end
  | None => None
  end.

Definition json_valid (s : string) : bool := is_Some_b (parse_document s).

(** [json.Unmarshal] into a struct whose fields are strings: [set] is the
    assignment of the field a key names, [None] for an unknown key.  A null
    leaves the field, a value of another type is an error reported once the
    document was read. *)
Fixpoint unmarshal_members {R} (set : string -> option (string -> R -> R))
    (m : list (string * any)) (r : R) : R * bool :=
  match m with
  | [] => (r, true)
  | (k, v) :: m' =>
      match set k with
      | None => unmarshal_members set m' r
      | Some f =>
          match v with
          | AString s => unmarshal_members set m' (f s r)
          | ANil => unmarshal_members set m' r
          | _ => let '(r, _) := unmarshal_members set m' r in (r, false)
          end
      end
  end.

Definition unmarshal_struct {R} (set : string -> option (string -> R -> R)) (s : string) (r : R)
    : result R :=
  match parse_document s with
  | None => Err (EOther "json: syntax error")
  | Some ANil => Ok r
  | Some (AMap m) =>
      let '(r, ok) := unmarshal_members set m r in
      if ok then Ok r else Err (EOther "json: cannot unmarshal into a field of type string")
  | Some _ => Err (EOther "json: cannot unmarshal into a struct")
  end.

Example encode_sample :
  encode_object [("State", "a<b" +:+ String (Ascii.ascii_of_nat 34) "c"); ("Scope", "openid")]
  = let q := String (Ascii.ascii_of_nat 34) EmptyString in
    "{" +:+ q +:+ "State" +:+ q +:+ ":" +:+ q +:+ "a\u003cb\" +:+ q +:+ "c" +:+ q
    +:+ "," +:+ q +:+ "Scope" +:+ q +:+ ":" +:+ q +:+ "openid" +:+ q +:+ "}".
Proof. vm_compute. reflexivity. Qed.

Example parse_sample :
  parse_document " {}" = Some (AMap []) /\ json_valid "[1.5e3, true, {}]" = true /\
  json_valid "[1,]" = false /\ json_valid "01" = false /\ json_valid "" = false.
Proof. vm_compute. repeat split. Qed.
