(* ===== verification/JsonFuel.v ===== *)
(** * encoding/json: the fuel of the parser is enough

    What each parser leaves of its text is shorter than the text, so the fuel
    [parse_document] gives is enough: more of it changes nothing, whatever the
    text. *)
From S2P Require Import Prelude.
From S2P Require Import GoLib.
From S2P Require Import Platform.
From S2P Require Import Json.
Local Open Scope nat_scope.

Lemma skip_ws_shrinks s : length (skip_ws s) <= length s.
Proof. induction s as [|b s IH]; simpl; [done|]. case_match; simpl; lia. Qed.

Lemma take_digits_shrinks s : length (take_digits s).2 <= length s.
Proof. induction s as [|b s IH]; simpl; [done|]. case_match; simpl; [|lia]. destruct (take_digits s). simpl in *. lia. Qed.

Lemma strip_shrinks p s r : strip p s = Some r -> length r <= length s.
Proof.
  revert s. induction p as [|a p IH]; intros [|b s]; simpl; try naive_solver lia.
  case_match; [|done]. intros ?%IH. lia.
Qed.

Lemma parse_chars_shrinks n : forall copy s v r,
  length s <= n -> parse_chars copy s = Some (v, r) -> length r < length s.
Proof.
  induction n as [|n IH]; intros copy [|b s] v r Hn H; try done; simpl in Hn; [lia|].
  assert (Hr : forall c t w, length t <= length s -> parse_chars c t = Some (w, r) -> length r < S (length s))
    by (intros c t w Ht E; apply IH in E; lia).
  cbn [parse_chars] in H.
  repeat (case_match; try discriminate H);
    injection H as <- <-; subst; simpl length in *; try lia; eapply Hr; try eassumption; simpl; lia.
Qed.

Lemma parse_fraction_shrinks s d r : parse_fraction s = Some (d, r) -> length r <= length s.
Proof.
  unfold parse_fraction. intros H. repeat (case_match; try discriminate H); injection H as <- <-; subst; try done.
  all: match goal with E : take_digits ?l = (_, ?r) |- _ =>
    pose proof (take_digits_shrinks l) as Hl; rewrite E in Hl; simpl in *; lia end.
Qed.

Lemma parse_exponent_shrinks s d r : parse_exponent s = Some (d, r) -> length r <= length s.
Proof.
  unfold parse_exponent. destruct s as [|e s]; intros H; [by simplify_eq|].
  case_match; [|by simplify_eq]. destruct (match s with [] => _ | _ => _ end) as [sg t] eqn:E.
  assert (length t <= length s) by (repeat (case_match; try discriminate E); simplify_eq; simpl; lia).
  pose proof (take_digits_shrinks t) as Ht. destruct (take_digits t) as [ds t'].
  destruct ds; [discriminate|]. injection H as <- <-. simpl in *. lia.
Qed.

Lemma parse_number_shrinks s v r : parse_number s = Some (v, r) -> length r < length s.
Proof.
  unfold parse_number. intros H.
  destruct (match s with 45%Z :: r => _ | _ => _ end) as [sg t] eqn:E.
  assert (length t <= length s) by (repeat (case_match; try discriminate E); simplify_eq; simpl; lia).
  destruct (match t with 48%Z :: r => _ | _ => _ end) as [int t'] eqn:E'.
  destruct int as [|i int]; [discriminate|].
  assert (length t' < length t).
  { destruct t as [|b t]; [done|]. assert (Hi : (i :: int, t') = ([48%Z], t) \/ (i :: int, t') = take_digits (b :: t)).
    { repeat (case_match; try discriminate E'); simplify_eq; auto. }
    destruct Hi as [[= -> -> ->]|E2]; [simpl; lia|]. simpl in E2. case_match; [|done].
    pose proof (take_digits_shrinks t) as Ht. destruct (take_digits t). simplify_eq/=. lia. }
  case_match; [|discriminate]. case_match. case_match; [|discriminate]. case_match. injection H as <- <-. subst.
  match goal with E : parse_fraction _ = _ |- _ => apply parse_fraction_shrinks in E end.
  match goal with E : parse_exponent _ = _ |- _ => apply parse_exponent_shrinks in E end. lia.
Qed.

(** What a parser of the three leaves, at any fuel. *)
Definition shrinks {A} (parse : Z -> list Z -> option (A * list Z)) : Prop :=
  forall d s v r, parse d s = Some (v, r) -> length r < length s.

Lemma skip_ws_cons s b t : skip_ws s = b :: t -> length t < length s.
Proof. intros E. pose proof (skip_ws_shrinks s) as Hs. rewrite E in Hs. simpl in Hs. lia. Qed.

(** Turns what the parsers of a branch returned into lengths. *)
Ltac shrink := repeat match goal with
  | E : parse_value _ _ _ = Some _, H : shrinks (parse_value _) |- _ => apply H in E
  | E : parse_elements _ _ _ = Some _, H : shrinks (parse_elements _) |- _ => apply H in E
  | E : parse_members _ _ _ = Some _, H : shrinks (parse_members _) |- _ => apply H in E
  | E : parse_chars _ _ = Some _ |- _ => apply (parse_chars_shrinks _ _ _ _ _ (le_n _)) in E
  | E : strip _ _ = Some _ |- _ => apply strip_shrinks in E
  | E : parse_number _ = Some _ |- _ => apply parse_number_shrinks in E
  | E : skip_ws _ = _ :: _ |- _ => apply skip_ws_cons in E
  end; simpl length in *; lia.

Lemma parsers_shrink n : shrinks (parse_value n) /\ shrinks (parse_elements n) /\ shrinks (parse_members n).
Proof.
  induction n as [|n (IHv & IHe & IHm)]; [by repeat split|].
  repeat split; intros d s v r H; cbn [parse_value parse_elements parse_members] in H.
  all: repeat (case_match; try discriminate H); try (injection H as <- <-; subst); try shrink.
  all: apply fmap_Some in H as (t & E & [= -> ->]); shrink.
Qed.

(** The fuel a parser needs is twice the length of its text, and one or two. *)
Lemma parsers_agree n : forall m d s,
  (2 * length s + 1 <= n -> 2 * length s + 1 <= m -> parse_value n d s = parse_value m d s) /\
  (2 * length s + 2 <= n -> 2 * length s + 2 <= m -> parse_elements n d s = parse_elements m d s) /\
  (2 * length s + 1 <= n -> 2 * length s + 1 <= m -> parse_members n d s = parse_members m d s).
Proof.
  induction n as [|n IH]; intros [|m] d s; (split_and!; intros Hn Hm; [try lia..]).
  all: destruct (parsers_shrink m) as (Sv & Se & Sm).
  all: assert (Hv : forall d t, 2 * length t + 1 <= n -> 2 * length t + 1 <= m -> parse_value n d t = parse_value m d t)
    by (intros; by apply IH).
  all: assert (He : forall d t, 2 * length t + 2 <= n -> 2 * length t + 2 <= m -> parse_elements n d t = parse_elements m d t)
    by (intros; by apply IH).
  all: assert (Hms : forall d t, 2 * length t + 1 <= n -> 2 * length t + 1 <= m -> parse_members n d t = parse_members m d t)
    by (intros; by apply IH).
  all: clear IH; cbn [parse_value parse_elements parse_members].
  - repeat first [reflexivity | rewrite He by shrink | rewrite Hms by shrink | case_match].
  - rewrite Hv by lia. repeat first [reflexivity | rewrite He by shrink | case_match].
  - repeat first [reflexivity | rewrite Hv by shrink | rewrite Hms by shrink | case_match].
Qed.

(** The parser's answer at the fuel [parse_document] gives is its answer at any
    fuel beyond: no text is refused for want of fuel. *)
Theorem parse_value_fuel (s : list Z) (more : nat) (d : Z) :
  parse_value (2 * length s + 2 + more) d s = parse_value (2 * length s + 2) d s.
Proof. apply parsers_agree; lia. Qed.
