(* ===== verification/Authorize.v ===== *)
(** * oauth/service.go: the authorization endpoint

    Pushed requests, [InitAuthorize] with its validation, its scopes, silent
    sign-in and the interactive branch, and [completeAuthorize], which opens
    the session and issues the code. *)
From S2P Require Import Prelude.
From S2P Require Import Errors.
From S2P Require Import GoLib.
From S2P Require Import GoNet.
From S2P Require Import Model.
From S2P Require Import Platform.
From S2P Require Import Config.
From S2P Require Import Exec.
From S2P Require Import Crypto.
From S2P Require Import SessionSvc.
From S2P Require Import OAuthRepo.
From S2P Require Import Scopes.
From S2P Require Import Policy.
From S2P Require Import ActionToken.
From S2P Require Import UserSvc.
From S2P Require Import MfaSvc.
From S2P Require Import OAuth.
From S2P Require Import Token.
From S2P Require Import Json.
Local Open Scope Z_scope.

(** ** Parameters and responses *)

Module InitAuthorizeParams.
Record t := mk {
  RedirectURI : string;
  ResponseType : string;
  Scope : string;
  State : string;
  Nonce : string;
  CodeChallenge : string;
  CodeChallengeMethod : string;
  Audience : string;
  Prompt : string;
  MaxAge : string;
  Display : string;
  UILocales : string;
  ClaimsLocales : string;
  ACRValues : string;
  LoginHint : string;
  Claims : string;
  IDTokenHint : string;
  ResponseMode : string;
  SessionCookie : string
}.

#[global] Instance eta_t : Eta t := fun r => mk
  (r.(RedirectURI)) (r.(ResponseType)) (r.(Scope)) (r.(State)) (r.(Nonce))
  (r.(CodeChallenge)) (r.(CodeChallengeMethod)) (r.(Audience)) (r.(Prompt)) (r.(MaxAge))
  (r.(Display)) (r.(UILocales)) (r.(ClaimsLocales)) (r.(ACRValues)) (r.(LoginHint))
  (r.(Claims)) (r.(IDTokenHint)) (r.(ResponseMode)) (r.(SessionCookie)).

Definition zero : t := mk "" "" "" "" "" "" "" "" "" "" "" "" "" "" "" "" "" "" "".

(** [json.Marshal]: the fields in the order of the struct. *)
Definition marshal (p : t) : string :=
  encode_object
    [("RedirectURI", p.(RedirectURI)); ("ResponseType", p.(ResponseType)); ("Scope", p.(Scope));
     ("State", p.(State)); ("Nonce", p.(Nonce)); ("CodeChallenge", p.(CodeChallenge));
     ("CodeChallengeMethod", p.(CodeChallengeMethod)); ("Audience", p.(Audience));
     ("Prompt", p.(Prompt)); ("MaxAge", p.(MaxAge)); ("Display", p.(Display));
     ("UILocales", p.(UILocales)); ("ClaimsLocales", p.(ClaimsLocales));
     ("ACRValues", p.(ACRValues)); ("LoginHint", p.(LoginHint)); ("Claims", p.(Claims));
     ("IDTokenHint", p.(IDTokenHint)); ("ResponseMode", p.(ResponseMode));
     ("SessionCookie", p.(SessionCookie))].

(** Keys are matched without regard to case. *)
Definition set_field (k : string) : option (string -> t -> t) :=
  let named n := String.eqb (to_lower k) n in
  if named "redirecturi" then Some (fun s r => r <| RedirectURI := s |>)
  else if named "responsetype" then Some (fun s r => r <| ResponseType := s |>)
  else if named "scope" then Some (fun s r => r <| Scope := s |>)
  else if named "state" then Some (fun s r => r <| State := s |>)
  else if named "nonce" then Some (fun s r => r <| Nonce := s |>)
  else if named "codechallenge" then Some (fun s r => r <| CodeChallenge := s |>)
  else if named "codechallengemethod" then Some (fun s r => r <| CodeChallengeMethod := s |>)
  else if named "audience" then Some (fun s r => r <| Audience := s |>)
  else if named "prompt" then Some (fun s r => r <| Prompt := s |>)
  else if named "maxage" then Some (fun s r => r <| MaxAge := s |>)
  else if named "display" then Some (fun s r => r <| Display := s |>)
  else if named "uilocales" then Some (fun s r => r <| UILocales := s |>)
  else if named "claimslocales" then Some (fun s r => r <| ClaimsLocales := s |>)
  else if named "acrvalues" then Some (fun s r => r <| ACRValues := s |>)
  else if named "loginhint" then Some (fun s r => r <| LoginHint := s |>)
  else if named "claims" then Some (fun s r => r <| Claims := s |>)
  else if named "idtokenhint" then Some (fun s r => r <| IDTokenHint := s |>)
  else if named "responsemode" then Some (fun s r => r <| ResponseMode := s |>)
  else if named "sessioncookie" then Some (fun s r => r <| SessionCookie := s |>)
  else None.

Definition unmarshal (s : string) : result t := unmarshal_struct set_field s zero.
End InitAuthorizeParams.

Record ResourceInfo := mkResourceInfo {
  res_Name : string;
  res_Identifier : string;
  res_Permissions : list (string * option string)
}.

Module AuthorizeConsentResponse.
Record t := mk {
  RedirectURI : string;
  Code : string;
  State : string;
  Issuer : string;
  SessionState : string;
  ResponseMode : string;
  AccessToken : string;
  TokenType : string;
  ExpiresIn : Z;
  IDToken : string;
  SessionCookie : string;
  CookieExtended : bool;
  CookieMaxAge : Z
}.

#[global] Instance eta_t : Eta t := fun r => mk
  (r.(RedirectURI)) (r.(Code)) (r.(State)) (r.(Issuer)) (r.(SessionState)) (r.(ResponseMode))
  (r.(AccessToken)) (r.(TokenType)) (r.(ExpiresIn)) (r.(IDToken)) (r.(SessionCookie))
  (r.(CookieExtended)) (r.(CookieMaxAge)).
End AuthorizeConsentResponse.

Module InitAuthorizeResponse.
Record t := mk {
  RequestID : UUID;
  ClientName : string;
  ClientID : UUID;
  ScopesRequested : list string;
  RequiresLogin : bool;
  RequiresConsent : bool;
  Resource : option ResourceInfo;
  LoginHint : string;
  Display : string;
  Prompt : string;
  ResponseMode : string;
  Redirect : option AuthorizeConsentResponse.t
}.
End InitAuthorizeResponse.

Record PARResponse := mkPARResponse { par_RequestURI : string; par_ExpiresIn : Z }.

Record AuthorizeLoginResponse := mkAuthorizeLoginResponse {
  login_RequestID : UUID;
  login_Authenticated : bool;
  login_RequiresConsent : bool;
  login_RequiresMFA : bool;
  login_Scopes : list string
}.

Record AuthorizeLoginInput := mkAuthorizeLoginInput {
  in_RequestID : UUID;
  in_Email : string;
  in_Password : string;
  in_RememberMe : bool
}.

Record AuthorizeRegisterInput := mkAuthorizeRegisterInput {
  reg_RequestID : UUID;
  reg_Email : string;
  reg_Password : string;
  reg_DisplayName : option string;
  reg_ExtraFields : list (string * any)
}.

Record AuthorizeRegisterResponse := mkAuthorizeRegisterResponse {
  reg_out_RequestID : UUID;
  reg_out_UserID : UUID;
  reg_out_RequiresEmailVerification : bool
}.

(** [if v != "" { req.X = &v }] *)
Definition ptr (v : string) : option string := if String.eqb v "" then None else Some v.

Section authorize.
Context `{Platform} `{JwtLib} (s : Service).

(** ** Completing a request: session, code, hybrid tokens *)

Definition generateHybridIDToken (gen : IDTokenGenerator) (claims : IDTokenClaims.t)
    (code accessToken state : string) : Reader string :=
  let claims := claims <| IDTokenClaims.CHash := computeATHash code |> in
  let claims := if String.eqb accessToken "" then claims
                else claims <| IDTokenClaims.ATHash := computeATHash accessToken |> in
  let claims := if String.eqb state "" then claims
                else claims <| IDTokenClaims.SHash := computeATHash state |> in
  gen claims.

(** The access token of a response type that includes [token]. *)
Definition hybridAccessToken (req : AuthorizationRequest.t) (sess : Session.t)
    (resp : AuthorizeConsentResponse.t) : M AuthorizeConsentResponse.t :=
  if responseTypeIncludes req.(AuthorizationRequest.ResponseType) "token" then
    client <- or_fail (findClient (uuid_string req.(AuthorizationRequest.ClientID)))
                (ErrServerError "failed to look up client") ;;
    let! (rawAT, atHash) := or_fail GenerateOpaqueToken
                              (ErrServerError "failed to generate access token") ;;
    now <- clock_now ;;
    or_fail (CreateAccessToken
        (AccessToken.zero
           <| AccessToken.ID := atHash |>
           <| AccessToken.ClientID := client.(OAuthClient.ID) |>
           <| AccessToken.UserID := req.(AuthorizationRequest.UserID) |>
           <| AccessToken.SessionID := Some sess.(Session.ID) |>
           <| AccessToken.Scopes := req.(AuthorizationRequest.Scopes) |>
           <| AccessToken.Audience := req.(AuthorizationRequest.Audience) |>
           <| AccessToken.ExpiresAt :=
                time_add now (dur_mul client.(OAuthClient.AccessTokenTTL) second) |>))
      (ErrServerError "failed to store access token") ;;;
    ret (resp <| AuthorizeConsentResponse.AccessToken := rawAT |>
              <| AuthorizeConsentResponse.TokenType := "Bearer" |>
              <| AuthorizeConsentResponse.ExpiresIn := client.(OAuthClient.AccessTokenTTL) |>)
  else ret resp.

(** The ID token of a response type that includes [id_token]. *)
Definition hybridIDToken (req : AuthorizationRequest.t) (uid : UUID) (rawCode : string)
    (resp : AuthorizeConsentResponse.t) : M AuthorizeConsentResponse.t :=
  match s.(idTokenGen) with
  | Some gen =>
      if responseTypeIncludes req.(AuthorizationRequest.ResponseType) "id_token" then
        client <- or_fail (findClient (uuid_string req.(AuthorizationRequest.ClientID)))
                    (ErrServerError "failed to look up client") ;;
        now <- clock_now ;;
        let '(acr, amr) := computeACR req.(AuthorizationRequest.AuthMethods) in
        let claims :=
          {| IDTokenClaims.UserID := uid;
             IDTokenClaims.ClientID := req.(AuthorizationRequest.ClientID);
             IDTokenClaims.Scopes := req.(AuthorizationRequest.Scopes);
             IDTokenClaims.Nonce := str_or_empty req.(AuthorizationRequest.Nonce);
             IDTokenClaims.AuthTime := default now req.(AuthorizationRequest.AuthTime);
             IDTokenClaims.ATHash := ""; IDTokenClaims.CHash := ""; IDTokenClaims.SHash := "";
             IDTokenClaims.TTL := dur_mul client.(OAuthClient.IDTokenTTL) second;
             IDTokenClaims.RequestedClaims := "";
             IDTokenClaims.ACR := acr; IDTokenClaims.AMR := amr;
             IDTokenClaims.SubjectType := client.(OAuthClient.SubjectType);
             IDTokenClaims.SectorIdentifier := str_or_empty client.(OAuthClient.SectorIdentifierURI);
             IDTokenClaims.ExtraClaims := None; IDTokenClaims.EncryptionJWKSURI := "";
             IDTokenClaims.EncryptionAlg := ""; IDTokenClaims.EncryptionEnc := "" |} in
        idToken <- opt (ask (generateHybridIDToken gen claims rawCode
                               resp.(AuthorizeConsentResponse.AccessToken)
                               resp.(AuthorizeConsentResponse.State))) ;;
        ret (match idToken with
             | Some t => resp <| AuthorizeConsentResponse.IDToken := t |>
             | None => resp
             end)
      else ret resp
  | None => ret resp
  end.

(** The row of the code issued for a request. *)
Definition new_auth_code (req : AuthorizationRequest.t) (uid : UUID) (sess : Session.t)
    (codeHash : string) (now : Z) : AuthorizationCode.t :=
  AuthorizationCode.zero
    <| AuthorizationCode.CodeHash := codeHash |>
    <| AuthorizationCode.ClientID := req.(AuthorizationRequest.ClientID) |>
    <| AuthorizationCode.UserID := uid |>
    <| AuthorizationCode.RedirectURI := req.(AuthorizationRequest.RedirectURI) |>
    <| AuthorizationCode.Scopes := req.(AuthorizationRequest.Scopes) |>
    <| AuthorizationCode.Audience := req.(AuthorizationRequest.Audience) |>
    <| AuthorizationCode.SessionID := Some sess.(Session.ID) |>
    <| AuthorizationCode.ExpiresAt := time_add now s.(cfg).(AuthConfig.AuthCodeTTL) |>
    <| AuthorizationCode.CodeChallenge := req.(AuthorizationRequest.CodeChallenge) |>
    <| AuthorizationCode.CodeChallengeMethod :=
         match req.(AuthorizationRequest.CodeChallenge) with
         | Some _ => req.(AuthorizationRequest.CodeChallengeMethod)
         | None => None
         end |>
    <| AuthorizationCode.Nonce := req.(AuthorizationRequest.Nonce) |>
    <| AuthorizationCode.AuthTime := req.(AuthorizationRequest.AuthTime) |>
    <| AuthorizationCode.ClaimsParam := req.(AuthorizationRequest.ClaimsParam) |>
    <| AuthorizationCode.AuthMethods := req.(AuthorizationRequest.AuthMethods) |>.

Definition completeAuthorize (req : AuthorizationRequest.t) (ipAddress userAgent : string)
    : M AuthorizeConsentResponse.t :=
  uid <- deref req.(AuthorizationRequest.UserID) ;;
  sess <- or_fail (SessionSvc.Create s.(sessionService)
                     (SessionSvc.mkCreateInput uid ipAddress userAgent
                        req.(AuthorizationRequest.RememberMe)))
            (ErrServerError "failed to create session") ;;
  ignore (DeleteAuthRequest req.(AuthorizationRequest.ID)) ;;;
  let! (rawCode, codeHash) := or_fail GenerateOpaqueToken
                                (ErrServerError "failed to generate authorization code") ;;
  now <- clock_now ;;
  or_fail (CreateAuthCode (new_auth_code req uid sess codeHash now))
    (ErrServerError "failed to create authorization code") ;;;
  sessionState <- computeSessionState (uuid_string req.(AuthorizationRequest.ClientID))
                    req.(AuthorizationRequest.RedirectURI) (uuid_string sess.(Session.ID)) ;;
  let resp :=
    {| AuthorizeConsentResponse.RedirectURI := req.(AuthorizationRequest.RedirectURI);
       AuthorizeConsentResponse.Code := rawCode;
       AuthorizeConsentResponse.State := str_or_empty req.(AuthorizationRequest.State);
       AuthorizeConsentResponse.Issuer := s.(issuer);
       AuthorizeConsentResponse.SessionState := sessionState;
       AuthorizeConsentResponse.ResponseMode := str_or_empty req.(AuthorizationRequest.ResponseMode);
       AuthorizeConsentResponse.AccessToken := "";
       AuthorizeConsentResponse.TokenType := "";
       AuthorizeConsentResponse.ExpiresIn := 0;
       AuthorizeConsentResponse.IDToken := "";
       AuthorizeConsentResponse.SessionCookie := sess.(Session.CookieToken);
       AuthorizeConsentResponse.CookieExtended := sess.(Session.Extended);
       AuthorizeConsentResponse.CookieMaxAge :=
         dur_seconds (time_sub sess.(Session.ExpiresAt) now) |} in
  if isHybridResponseType req.(AuthorizationRequest.ResponseType) then
    let resp := if String.eqb resp.(AuthorizeConsentResponse.ResponseMode) ""
                then resp <| AuthorizeConsentResponse.ResponseMode := "fragment" |> else resp in
    resp <- hybridAccessToken req sess resp ;;
    hybridIDToken req uid rawCode resp
  else ret resp.

(** [resp] is not nil where the code calls this. *)
Definition BuildAuthorizeRedirectURL (resp : AuthorizeConsentResponse.t) : result string :=
  let r := resp in
  if String.eqb r.(AuthorizeConsentResponse.RedirectURI) ""
  then Err (ErrServerError "missing redirect_uri in authorize response")
  else
    match url_parse r.(AuthorizeConsentResponse.RedirectURI) with
    | inl e => Err (ErrServerError ("invalid redirect_uri: " +:+ e))
    | inr u =>
        let set k v := if String.eqb v "" then [] else [(k, v)] in
        let params :=
          set "code" r.(AuthorizeConsentResponse.Code)
          ++ set "state" r.(AuthorizeConsentResponse.State)
          ++ set "iss" r.(AuthorizeConsentResponse.Issuer)
          ++ (if String.eqb r.(AuthorizeConsentResponse.AccessToken) "" then []
              else [("access_token", r.(AuthorizeConsentResponse.AccessToken));
                    ("token_type", r.(AuthorizeConsentResponse.TokenType))])
          ++ set "id_token" r.(AuthorizeConsentResponse.IDToken) in
        let u :=
          if String.eqb r.(AuthorizeConsentResponse.ResponseMode) "fragment"
          then u <| Fragment := values_encode params |>
          else if String.eqb u.(RawQuery) "" then u <| RawQuery := values_encode params |>
          else u <| RawQuery ::= fun q => q +:+ "&" +:+ values_encode params |> in
        Ok (url_to_string u)
    end.

(** ** Pushed authorization requests (RFC 9126) *)

(** A failure of [uuid.NewV7] makes [uuid.Must] panic. *)
Definition CreatePAR (client : OAuthClient.t) (params : InitAuthorizeParams.t) : M PARResponse :=
  guard (isValidResponseType params.(InitAuthorizeParams.ResponseType))
    (ErrUnsupportedResponseType "invalid response_type") ;;;
  guard (OAuthClient.HasRedirectURI client params.(InitAuthorizeParams.RedirectURI))
    (ErrInvalidRequest "invalid redirect_uri") ;;;
  let paramsJSON := InitAuthorizeParams.marshal params in
  id <- uuid_newV7 ;;
  let requestURI := "urn:ietf:params:oauth:request_uri:" +:+ uuid_string id in
  now <- clock_now ;;
  or_fail (OAuthRepo.CreatePAR
      (PushedAuthorizationRequest.zero
         <| PushedAuthorizationRequest.RequestURI := requestURI |>
         <| PushedAuthorizationRequest.ClientID := client.(OAuthClient.ID) |>
         <| PushedAuthorizationRequest.Params := paramsJSON |>
         <| PushedAuthorizationRequest.ExpiresAt := time_add now (dur_mul 60 second) |>))
    (ErrServerError "failed to store PAR") ;;;
  ret (mkPARResponse requestURI 60).

(** ** Starting a request *)

(** A parameter that may be absent has one of the listed values. *)
Definition one_of (v : string) (allowed : list string) : bool :=
  String.eqb v "" || mem v allowed.

Definition parseMaxAge (v : string) : M (option Z) :=
  if String.eqb v "" then ret None
  else
    match atoi v with
    | Some n => guard (negb (n <? 0)) (ErrInvalidRequest "max_age must be a non-negative integer") ;;;
                ret (Some n)
    | None => throw (ErrInvalidRequest "max_age must be a non-negative integer")
    end.

(** The checks of [InitAuthorize] on the parameters: the parameters with the
    default PKCE method, and the parsed [max_age]. *)
Definition checkParams (client : OAuthClient.t) (params : InitAuthorizeParams.t)
    : M (InitAuthorizeParams.t * option Z) :=
  let p := params in
  guard (isValidResponseType p.(InitAuthorizeParams.ResponseType))
    (ErrUnsupportedResponseType
       "supported response_types: code, code id_token, code token, code id_token token") ;;;
  guard (OAuthClient.HasRedirectURI client p.(InitAuthorizeParams.RedirectURI))
    (ErrInvalidRequest "invalid redirect_uri") ;;;
  guard (OAuthClient.HasGrantType client "authorization_code")
    (ErrUnauthorizedClient "client is not authorized for authorization_code grant") ;;;
  let noChallenge := String.eqb p.(InitAuthorizeParams.CodeChallenge) "" in
  guard (negb ((client.(OAuthClient.IsPublic) || client.(OAuthClient.RequirePKCE)) && noChallenge))
    (ErrInvalidRequest "PKCE (code_challenge) is required") ;;;
  let method := p.(InitAuthorizeParams.CodeChallengeMethod) in
  guard (negb (negb noChallenge && negb (String.eqb method "S256") && negb (String.eqb method "")))
    (ErrInvalidRequest "only S256 code_challenge_method is supported") ;;;
  let p := if negb noChallenge && String.eqb method ""
           then p <| InitAuthorizeParams.CodeChallengeMethod := "S256" |> else p in
  guard (one_of p.(InitAuthorizeParams.Prompt) ["none"; "login"; "consent"; "select_account"])
    (ErrInvalidRequest "invalid prompt value") ;;;
  guard (one_of p.(InitAuthorizeParams.Display) ["page"; "popup"; "touch"; "wap"])
    (ErrInvalidRequest "invalid display value") ;;;
  guard (one_of p.(InitAuthorizeParams.ResponseMode) ["query"; "fragment"; "form_post"])
    (ErrInvalidRequest "invalid response_mode value") ;;;
  maxAge <- parseMaxAge p.(InitAuthorizeParams.MaxAge) ;;
  guard (String.eqb p.(InitAuthorizeParams.Claims) "" || json_valid p.(InitAuthorizeParams.Claims))
    (ErrInvalidRequest "invalid claims parameter: must be valid JSON") ;;;
  guard (negb (String.eqb p.(InitAuthorizeParams.Prompt) "select_account"))
    (ErrAccountSelectionRequired "account selection is not supported") ;;;
  ret (p, maxAge).

Definition nil_or_empty {A} (l : list A) : bool := match l with [] => true | _ => false end.

Definition resource_info (r : APIResource.t) : ResourceInfo :=
  mkResourceInfo r.(APIResource.Name) r.(APIResource.Identifier)
    (map (fun p => (p.(ResourcePermission.Name), p.(ResourcePermission.Description)))
       r.(APIResource.Permissions)).

(** The client's own scopes, and the permissions it has on the resource of the
    requested audience. *)
Definition clientScopesOnly (clientScopes : list string)
    : M (list string * option string * option ResourceInfo) :=
  guard (negb (nil_or_empty clientScopes)) (ErrInvalidScope "no valid scopes requested") ;;;
  ret (clientScopes, None, None).

Definition authorizeScopes (client : OAuthClient.t) (params : InitAuthorizeParams.t)
    : M (list string * option string * option ResourceInfo) :=
  let requestedScopes := parseSpaceDelimited params.(InitAuthorizeParams.Scope) in
  let clientScopes := OAuthClient.ValidateScopes client requestedScopes in
  match s.(resourceValidator) with
  | Some v =>
      if String.eqb params.(InitAuthorizeParams.Audience) "" then clientScopesOnly clientScopes
      else
        resource <- ask (v.(ValidateAudience) params.(InitAuthorizeParams.Audience)) ;;
        resourceScopes <- ask (v.(ValidateClientScopes) client.(OAuthClient.ID)
                                 resource.(APIResource.ID) requestedScopes) ;;
        guard (negb (nil_or_empty resourceScopes))
          (ErrInvalidScope "client has no permissions for this resource") ;;;
        ret (unionScopes clientScopes resourceScopes,
             Some params.(InitAuthorizeParams.Audience), Some (resource_info resource))
  | None => clientScopesOnly clientScopes
  end.

(** The columns every authorization request takes from the parameters. *)
Definition base_request (client : OAuthClient.t) (params : InitAuthorizeParams.t)
    (scopes : list string) (audience : option string) (expiresAt : Z) : AuthorizationRequest.t :=
  let challenge := ptr params.(InitAuthorizeParams.CodeChallenge) in
  AuthorizationRequest.zero
    <| AuthorizationRequest.ClientID := client.(OAuthClient.ID) |>
    <| AuthorizationRequest.RedirectURI := params.(InitAuthorizeParams.RedirectURI) |>
    <| AuthorizationRequest.ResponseType := params.(InitAuthorizeParams.ResponseType) |>
    <| AuthorizationRequest.Scopes := scopes |>
    <| AuthorizationRequest.Audience := audience |>
    <| AuthorizationRequest.ExpiresAt := expiresAt |>
    <| AuthorizationRequest.State := ptr params.(InitAuthorizeParams.State) |>
    <| AuthorizationRequest.Nonce := ptr params.(InitAuthorizeParams.Nonce) |>
    <| AuthorizationRequest.CodeChallenge := challenge |>
    <| AuthorizationRequest.CodeChallengeMethod :=
         if is_Some_b challenge then Some params.(InitAuthorizeParams.CodeChallengeMethod) else None |>
    <| AuthorizationRequest.ClaimsParam := ptr params.(InitAuthorizeParams.Claims) |>.

(** [consent, _ := s.repo.FindActiveConsent(..)]: whether a consent was
    returned and covers the scopes. *)
Definition consentCovers (userID clientID : UUID) (scopes : list string) : M bool :=
  let! (consent, err) := FindActiveConsent userID clientID ;;
  ret (match consent with Some c => Consent.CoversScopes c scopes | None => false end).

Definition completed (client : OAuthClient.t) (reqID : UUID) (scopes : list string)
    (redirect : AuthorizeConsentResponse.t) : InitAuthorizeResponse.t :=
  {| InitAuthorizeResponse.RequestID := reqID;
     InitAuthorizeResponse.ClientName := client.(OAuthClient.Name);
     InitAuthorizeResponse.ClientID := client.(OAuthClient.ID);
     InitAuthorizeResponse.ScopesRequested := scopes;
     InitAuthorizeResponse.RequiresLogin := false;
     InitAuthorizeResponse.RequiresConsent := false;
     InitAuthorizeResponse.Resource := None;
     InitAuthorizeResponse.LoginHint := "";
     InitAuthorizeResponse.Display := "";
     InitAuthorizeResponse.Prompt := "";
     InitAuthorizeResponse.ResponseMode := "";
     InitAuthorizeResponse.Redirect := Some redirect |}.

Definition handlePromptNone (client : OAuthClient.t) (params : InitAuthorizeParams.t)
    (scopes : list string) (audience : option string) (resource : option ResourceInfo)
    : M InitAuthorizeResponse.t :=
  match s.(idTokenValidator) with
  | Some validate =>
      guard (negb (String.eqb params.(InitAuthorizeParams.IDTokenHint) ""))
        (ErrLoginRequired "prompt=none requires id_token_hint") ;;;
      userID <- or_fail (ask (validate params.(InitAuthorizeParams.IDTokenHint)))
                  (ErrLoginRequired "invalid id_token_hint") ;;
      covered <- consentCovers userID client.(OAuthClient.ID) scopes ;;
      guard (covered || client.(OAuthClient.IsFirstParty))
        (ErrConsentRequired "user has not consented to the requested scopes") ;;;
      now <- clock_now ;;
      req <- or_fail (CreateAuthRequest
          ((base_request client params scopes audience (time_add now (dur_mul 1 minute)))
             <| AuthorizationRequest.UserID := Some userID |>
             <| AuthorizationRequest.Authenticated := true |>
             <| AuthorizationRequest.ConsentGiven := true |>
             <| AuthorizationRequest.AuthTime := Some now |>))
        (ErrServerError "failed to create authorization request") ;;
      redirect <- completeAuthorize req "" "" ;;
      ret (completed client req.(AuthorizationRequest.ID) scopes redirect)
  | None => throw (ErrLoginRequired "prompt=none requires id_token_hint")
  end.

(** A [return nil] of the source is an error here; the message is not read. *)
Definition no_sso : error := EOther "no silent sign-in".

Definition silentSSO (client : OAuthClient.t) (params : InitAuthorizeParams.t)
    (scopes : list string) (audience : option string) (resource : option ResourceInfo)
    (maxAge : option Z) : M InitAuthorizeResponse.t :=
  found <- SessionSvc.FindByCookieToken params.(InitAuthorizeParams.SessionCookie) ;;
  match found with
  | None => throw no_sso
  | Some sess =>
      now <- clock_now ;;
      guard (match maxAge with
             | Some n => negb (dur_mul n second <? time_sub now sess.(Session.AuthenticatedAt))
             | None => true
             end) no_sso ;;;
      covered <- consentCovers sess.(Session.UserID) client.(OAuthClient.ID) scopes ;;
      let needsConsent :=
        if String.eqb params.(InitAuthorizeParams.Prompt) "consent" then true
        else if covered then false else negb client.(OAuthClient.IsFirstParty) in
      req <- CreateAuthRequest
          ((base_request client params scopes audience (time_add now (dur_mul 10 minute)))
             <| AuthorizationRequest.UserID := Some sess.(Session.UserID) |>
             <| AuthorizationRequest.RememberMe := sess.(Session.Extended) |>
             <| AuthorizationRequest.Authenticated := true |>
             <| AuthorizationRequest.ConsentGiven := negb needsConsent |>
             <| AuthorizationRequest.AuthTime := Some sess.(Session.AuthenticatedAt) |>
             <| AuthorizationRequest.ResponseMode := ptr params.(InitAuthorizeParams.ResponseMode) |>) ;;
      if needsConsent then
        ret {| InitAuthorizeResponse.RequestID := req.(AuthorizationRequest.ID);
               InitAuthorizeResponse.ClientName := client.(OAuthClient.Name);
               InitAuthorizeResponse.ClientID := client.(OAuthClient.ID);
               InitAuthorizeResponse.ScopesRequested := scopes;
               InitAuthorizeResponse.RequiresLogin := false;
               InitAuthorizeResponse.RequiresConsent := true;
               InitAuthorizeResponse.Resource := resource;
               InitAuthorizeResponse.LoginHint := "";
               InitAuthorizeResponse.Display := "";
               InitAuthorizeResponse.Prompt := "";
               InitAuthorizeResponse.ResponseMode := params.(InitAuthorizeParams.ResponseMode);
               InitAuthorizeResponse.Redirect := None |}
      else
        redirect <- completeAuthorize req "" "" ;;
        ret (completed client req.(AuthorizationRequest.ID) scopes redirect)
  end.

Definition trySilentSSO (client : OAuthClient.t) (params : InitAuthorizeParams.t)
    (scopes : list string) (audience : option string) (resource : option ResourceInfo)
    (maxAge : option Z) : M (option InitAuthorizeResponse.t) :=
  opt (silentSSO client params scopes audience resource maxAge).

(** The interactive request: every parameter is kept on the row. *)
Definition interactive_request (client : OAuthClient.t) (params : InitAuthorizeParams.t)
    (scopes : list string) (audience : option string) (maxAge : option Z) (now : Z)
    : AuthorizationRequest.t :=
  (base_request client params scopes audience (time_add now (dur_mul 10 minute)))
    <| AuthorizationRequest.Prompt := ptr params.(InitAuthorizeParams.Prompt) |>
    <| AuthorizationRequest.MaxAge := maxAge |>
    <| AuthorizationRequest.Display := ptr params.(InitAuthorizeParams.Display) |>
    <| AuthorizationRequest.UILocales := ptr params.(InitAuthorizeParams.UILocales) |>
    <| AuthorizationRequest.ClaimsLocales := ptr params.(InitAuthorizeParams.ClaimsLocales) |>
    <| AuthorizationRequest.ACRValues := ptr params.(InitAuthorizeParams.ACRValues) |>
    <| AuthorizationRequest.LoginHint := ptr params.(InitAuthorizeParams.LoginHint) |>
    <| AuthorizationRequest.IDTokenHint := ptr params.(InitAuthorizeParams.IDTokenHint) |>
    <| AuthorizationRequest.ResponseMode := ptr params.(InitAuthorizeParams.ResponseMode) |>.

Definition startInteractive (client : OAuthClient.t) (params : InitAuthorizeParams.t)
    (scopes : list string) (audience : option string) (resource : option ResourceInfo)
    (maxAge : option Z) : M InitAuthorizeResponse.t :=
  now <- clock_now ;;
  req <- or_fail (CreateAuthRequest (interactive_request client params scopes audience maxAge now))
           (ErrServerError "failed to create authorization request") ;;
  ret {| InitAuthorizeResponse.RequestID := req.(AuthorizationRequest.ID);
         InitAuthorizeResponse.ClientName := client.(OAuthClient.Name);
         InitAuthorizeResponse.ClientID := client.(OAuthClient.ID);
         InitAuthorizeResponse.ScopesRequested := scopes;
         InitAuthorizeResponse.RequiresLogin := true;
         InitAuthorizeResponse.RequiresConsent :=
           if String.eqb params.(InitAuthorizeParams.Prompt) "consent" then true
           else negb client.(OAuthClient.IsFirstParty);
         InitAuthorizeResponse.Resource := resource;
         InitAuthorizeResponse.LoginHint := params.(InitAuthorizeParams.LoginHint);
         InitAuthorizeResponse.Display := params.(InitAuthorizeParams.Display);
         InitAuthorizeResponse.Prompt := params.(InitAuthorizeParams.Prompt);
         InitAuthorizeResponse.ResponseMode := params.(InitAuthorizeParams.ResponseMode);
         InitAuthorizeResponse.Redirect := None |}.

Definition InitAuthorize (client : OAuthClient.t) (params : InitAuthorizeParams.t)
    : M InitAuthorizeResponse.t :=
  let! (params, maxAge) := checkParams client params ;;
  let! (scopes, audience, resource) := authorizeScopes client params ;;
  if String.eqb params.(InitAuthorizeParams.Prompt) "none"
  then handlePromptNone client params scopes audience resource
  else
    sso <- (if negb (String.eqb params.(InitAuthorizeParams.SessionCookie) "")
               && negb (String.eqb params.(InitAuthorizeParams.Prompt) "login")
            then trySilentSSO client params scopes audience resource maxAge
            else ret None) ;;
    match sso with
    | Some resp => ret resp
    | None => startInteractive client params scopes audience resource maxAge
    end.

Definition InitAuthorizeFromPAR (requestURI clientIDStr sessionCookie : string)
    : M InitAuthorizeResponse.t :=
  let! (found, err) := FindPAR requestURI ;;
  match err, found with
  | None, Some par =>
      guard (String.eqb (uuid_string par.(PushedAuthorizationRequest.ClientID)) clientIDStr)
        (ErrInvalidRequest "client_id mismatch") ;;;
      ignore (DeletePAR requestURI) ;;;
      match InitAuthorizeParams.unmarshal par.(PushedAuthorizationRequest.Params) with
      | Err _ => throw (ErrServerError "failed to parse PAR params")
      | Ok params =>
          let params := params <| InitAuthorizeParams.SessionCookie := sessionCookie |> in
          client <- findClient clientIDStr ;;
          InitAuthorize client params
      end
  | _, _ => throw (ErrInvalidRequest "invalid or expired request_uri")
  end.

End authorize.
