(* ===== verification/AuthSteps.v ===== *)
(** * oauth/service.go: the steps of an authorization request

    Login, registration, the MFA and consent steps, the return from an
    external provider or from the verification link, and the completion of a
    request that needs no consent.  Each finds the live request, checks the
    state it must be in, and saves the state after the step. *)
From S2P Require Import Prelude.
From S2P Require Import Errors.
From S2P Require Import GoLib.
From S2P Require Import Model.
From S2P Require Import Platform.
From S2P Require Import Config.
From S2P Require Import Exec.
From S2P Require Import Crypto.
From S2P Require Import SessionSvc.
From S2P Require Import OAuthRepo.
From S2P Require Import Scopes.
From S2P Require Import Policy.
From S2P Require Import ActionToken.
From S2P Require Import UserSvc.
From S2P Require Import MfaSvc.
From S2P Require Import OAuth.
From S2P Require Import Token.
From S2P Require Import Authorize.
Local Open Scope Z_scope.

Section steps.
Context `{Platform} `{JwtLib} (s : Service).

(** The lookup every step starts with; [notFound] is the step's message. *)
Definition liveRequest (id : UUID) (notFound : string) : M AuthorizationRequest.t :=
  let! (found, err) := FindAuthRequest id ;;
  match err, found with
  | None, Some req =>
      wall <- wall_now ;;
      guard (negb (AuthorizationRequest.IsExpired wall req))
        (ErrInvalidRequest "authorization request expired") ;;;
      ret req
  | _, _ => throw (ErrInvalidRequest notFound)
  end.

Definition saveRequest (req : AuthorizationRequest.t) : M AuthorizationRequest.t :=
  or_fail (UpdateAuthRequest req) (ErrServerError "failed to update authorization request").

(** [req.Prompt != nil && *req.Prompt == "consent"] *)
Definition forcesConsent (req : AuthorizationRequest.t) : bool :=
  opt_str_eqb req.(AuthorizationRequest.Prompt) "consent".

(** [hasMFA, _ = s.mfaValidator.HasMFA(id)], false without a validator. *)
Definition userHasMFA (userID : UUID) : M bool :=
  match s.(mfaValidator) with
  | None => ret false
  | Some v => r <- opt (v.(v_HasMFA) userID) ;; ret (default false r)
  end.

(** ** Login *)

Definition loginPolicy (u : User.t) (client : OAuthClient.t) (ipAddress userAgent : string) : M unit :=
  match s.(policyEvaluator) with
  | None => ret tt
  | Some _ =>
      let! (roles, perms) := loadRoles s u.(User.ID) ;;
      wall <- wall_now ;;
      result <- evaluate s "login"
                  (Inputs.BuildLoginInput wall u (Some client) roles perms ipAddress userAgent) ;;
      not_denied result
  end.

(** Whether MFA is needed, from the user's enrolment and the MFA policy. *)
Definition mfaPolicy (u : User.t) (client : OAuthClient.t) (scopes : list string) (hasMFA : bool)
    (ipAddress userAgent : string) : M bool :=
  match s.(policyEvaluator) with
  | None => ret hasMFA
  | Some _ =>
      let! (roles, perms) := loadRoles s u.(User.ID) ;;
      wall <- wall_now ;;
      result <- evaluate s "mfa"
                  (Inputs.BuildMFAInput wall u (Some client) roles perms scopes hasMFA
                     ipAddress userAgent) ;;
      not_denied result ;;;
      match PolicyModify.readModifyBool (modify_of result) "require_mfa" with
      | Some v =>
          guard (negb (v && negb hasMFA))
            (ErrAccessDenied "multi-factor authentication required but not enrolled") ;;;
          ret v
      | None => ret hasMFA
      end
  end.

(** The request after the first factor [method]: authenticated unless a second
    factor is needed, and with its consent when none is to be asked. *)
Definition after_first_factor (req : AuthorizationRequest.t) (userID : UUID) (method : string)
    (needsMFA needsConsent : bool) (now : Z) : AuthorizationRequest.t :=
  let req := req <| AuthorizationRequest.UserID := Some userID |>
                 <| AuthorizationRequest.AuthMethods ::= fun l => l ++ [method] |> in
  let req := if needsMFA then req
             else req <| AuthorizationRequest.Authenticated := true |>
                      <| AuthorizationRequest.AuthTime := Some now |> in
  if negb needsConsent && req.(AuthorizationRequest.Authenticated)
  then req <| AuthorizationRequest.ConsentGiven := true |> else req.

Definition AuthorizeLogin (input : AuthorizeLoginInput) (ipAddress userAgent : string)
    : M AuthorizeLoginResponse :=
  req <- liveRequest input.(in_RequestID) "invalid or expired authorization request" ;;
  guard (negb req.(AuthorizationRequest.Authenticated))
    (ErrInvalidRequest "already authenticated") ;;;
  u <- UserSvc.Authenticate s.(userService)
         (UserSvc.mkLoginInput input.(in_Email) input.(in_Password)) ;;
  client <- or_fail (findClient (uuid_string req.(AuthorizationRequest.ClientID)))
              (ErrServerError "failed to look up client") ;;
  loginPolicy u client ipAddress userAgent ;;;
  covered <- consentCovers u.(User.ID) req.(AuthorizationRequest.ClientID)
               req.(AuthorizationRequest.Scopes) ;;
  let needsConsent := if covered then false else negb client.(OAuthClient.IsFirstParty) in
  hasMFA <- userHasMFA u.(User.ID) ;;
  needsMFA <- mfaPolicy u client req.(AuthorizationRequest.Scopes) hasMFA ipAddress userAgent ;;
  now <- clock_now ;;
  let needsConsent := if forcesConsent req then true else needsConsent in
  let req := req <| AuthorizationRequest.RememberMe := input.(in_RememberMe) |> in
  req <- saveRequest (after_first_factor req u.(User.ID) "pwd" needsMFA needsConsent now) ;;
  ret {| login_RequestID := req.(AuthorizationRequest.ID);
         login_Authenticated := negb needsMFA;
         login_RequiresConsent := needsConsent;
         login_RequiresMFA := needsMFA;
         login_Scopes := req.(AuthorizationRequest.Scopes) |}.

(** ** Registration inside the flow *)

Definition AuthorizeRegister (input : AuthorizeRegisterInput) (ipAddress userAgent : string)
    : M AuthorizeRegisterResponse :=
  req <- liveRequest input.(reg_RequestID) "invalid or expired authorization request" ;;
  guard (negb req.(AuthorizationRequest.Authenticated))
    (ErrInvalidRequest "already authenticated") ;;;
  or_fail (findClient (uuid_string req.(AuthorizationRequest.ClientID)))
    (ErrServerError "failed to look up client") ;;;
  newUser <- UserSvc.Register s.(userService)
      {| UserSvc.Email := input.(reg_Email);
         UserSvc.Password := input.(reg_Password);
         UserSvc.DisplayName := input.(reg_DisplayName);
         UserSvc.ExtraFields := input.(reg_ExtraFields);
         UserSvc.SkipVerificationEmail := true |} ;;
  now <- clock_now ;;
  req <- saveRequest
      (req <| AuthorizationRequest.UserID := Some newUser.(User.ID) |>
           <| AuthorizationRequest.ExpiresAt := time_add now (dur_mul 24 hour) |>) ;;
  ignore (UserSvc.SendVerificationEmail s.(userService) newUser.(User.ID)
            (Some req.(AuthorizationRequest.ID))) ;;;
  ret {| reg_out_RequestID := req.(AuthorizationRequest.ID);
         reg_out_UserID := newUser.(User.ID);
         reg_out_RequiresEmailVerification := true |}.

(** ** Second factor *)

(** The consent columns after the second factor: whether consent is still to
    be asked, and the value of [ConsentGiven]. *)
Definition mfaConsent (req : AuthorizationRequest.t) (userID : UUID) : M (bool * bool) :=
  covered <- consentCovers userID req.(AuthorizationRequest.ClientID)
               req.(AuthorizationRequest.Scopes) ;;
  let! (needsConsent, given) :=
    (if covered then ret (false, true)
     else
       client <- or_fail (findClient (uuid_string req.(AuthorizationRequest.ClientID)))
                   (ErrServerError "failed to look up client") ;;
       if client.(OAuthClient.IsFirstParty) then ret (false, true)
       else ret (true, req.(AuthorizationRequest.ConsentGiven))) ;;
  ret (if forcesConsent req then (true, false) else (needsConsent, given)).

Definition AuthorizeMFA (requestID : UUID) (code : string) : M AuthorizeLoginResponse :=
  req <- liveRequest requestID "invalid or expired authorization request" ;;
  match req.(AuthorizationRequest.UserID) with
  | None => throw (ErrInvalidRequest "must authenticate first")
  | Some userID =>
      guard (negb req.(AuthorizationRequest.Authenticated))
        (ErrInvalidRequest "MFA already completed") ;;;
      match s.(mfaValidator) with
      | None => throw (ErrServerError "MFA validator not configured")
      | Some v =>
          valid <- or_fail (v.(v_ValidateCode) userID code) (ErrAccessDenied "invalid MFA code") ;;
          guard valid (ErrAccessDenied "invalid MFA code") ;;;
          now <- clock_now ;;
          let! (needsConsent, given) := mfaConsent req userID ;;
          req <- saveRequest
              (req <| AuthorizationRequest.Authenticated := true |>
                   <| AuthorizationRequest.AuthMethods ::= fun l => l ++ ["otp"] |>
                   <| AuthorizationRequest.AuthTime := Some now |>
                   <| AuthorizationRequest.ConsentGiven := given |>) ;;
          ret {| login_RequestID := req.(AuthorizationRequest.ID);
                 login_Authenticated := true;
                 login_RequiresConsent := needsConsent;
                 login_RequiresMFA := false;
                 login_Scopes := req.(AuthorizationRequest.Scopes) |}
      end
  end.

(** ** Consent *)

(** The scopes the consent policy leaves. *)
Definition consentPolicy (req : AuthorizationRequest.t) (userID : UUID)
    (grantedScopes : list string) (ipAddress userAgent : string) : M (list string) :=
  match s.(policyEvaluator) with
  | None => ret grantedScopes
  | Some _ =>
      u <- opt (UserSvc.GetByID userID) ;;
      client <- opt (findClient (uuid_string req.(AuthorizationRequest.ClientID))) ;;
      match u, client with
      | Some u, Some client =>
          let! (roles, perms) := loadRoles s u.(User.ID) ;;
          wall <- wall_now ;;
          result <- evaluate s "consent"
              (Inputs.BuildConsentInput wall u client roles perms
                 req.(AuthorizationRequest.Scopes) grantedScopes ipAddress userAgent) ;;
          not_denied result ;;;
          match modify_of result with
          | None => ret grantedScopes
          | Some modify =>
              match PolicyModify.readModifyScopes modify grantedScopes with
              | None => ret grantedScopes
              | Some narrowed =>
                  guard (negb (nil_or_empty narrowed))
                    (ErrAccessDenied "policy narrowed all scopes") ;;;
                  ret narrowed
              end
          end
      | _, _ => ret grantedScopes
      end
  end.

(** The user's consent for the client is created or replaced.  A failed lookup
    comes with a zero row, which is then saved. *)
Definition storeConsent (userID clientID : UUID) (grantedScopes : list string) : M unit :=
  let! (consent, err) := FindActiveConsent userID clientID ;;
  now <- clock_now ;;
  match consent with
  | None =>
      or_fail (CreateConsent
          (Consent.zero <| Consent.UserID := userID |>
                        <| Consent.ClientID := clientID |>
                        <| Consent.Scopes := grantedScopes |>
                        <| Consent.GrantedAt := now |>))
        (ErrServerError "failed to store consent")
  | Some consent =>
      or_fail (UpdateConsent
          (consent <| Consent.Scopes := grantedScopes |> <| Consent.GrantedAt := now |>))
        (ErrServerError "failed to update consent")
  end.

Definition AuthorizeConsent (requestID : UUID) (scopesGranted : list string)
    (ipAddress userAgent : string) : M AuthorizeConsentResponse.t :=
  req <- liveRequest requestID "invalid or expired authorization request" ;;
  guard req.(AuthorizationRequest.Authenticated) (ErrInvalidRequest "must authenticate first") ;;;
  match req.(AuthorizationRequest.UserID) with
  | None => throw (ErrServerError "authorization request has no user")
  | Some userID =>
      let grantedScopes := filterScopes scopesGranted req.(AuthorizationRequest.Scopes) in
      guard (negb (nil_or_empty grantedScopes)) (ErrInvalidScope "no valid scopes granted") ;;;
      grantedScopes <- consentPolicy req userID grantedScopes ipAddress userAgent ;;
      storeConsent userID req.(AuthorizationRequest.ClientID) grantedScopes ;;;
      req <- saveRequest (req <| AuthorizationRequest.ConsentGiven := true |>
                              <| AuthorizationRequest.Scopes := grantedScopes |>) ;;
      completeAuthorize s req ipAddress userAgent
  end.

(** ** Return from an external provider *)

Definition ResumeAuthorizeAfterExternalLogin (requestID userID : UUID) (providerName : string)
    (ipAddress userAgent : string) : M AuthorizeLoginResponse :=
  req <- liveRequest requestID "invalid or expired authorization request" ;;
  guard (negb req.(AuthorizationRequest.Authenticated))
    (ErrInvalidRequest "authorization request already authenticated") ;;;
  u <- or_fail (UserSvc.GetByID userID) (ErrInternal "federated user not found") ;;
  guard u.(User.Active) (ErrForbidden "account is deactivated") ;;;
  client <- or_fail (findClient (uuid_string req.(AuthorizationRequest.ClientID)))
              (ErrServerError "failed to look up client") ;;
  covered <- consentCovers u.(User.ID) req.(AuthorizationRequest.ClientID)
               req.(AuthorizationRequest.Scopes) ;;
  let needsConsent := if covered then false else negb client.(OAuthClient.IsFirstParty) in
  needsMFA <- userHasMFA u.(User.ID) ;;
  now <- clock_now ;;
  let needsConsent := if forcesConsent req then true else needsConsent in
  req <- saveRequest (after_first_factor req u.(User.ID) ("fed:" +:+ providerName)
                        needsMFA needsConsent now) ;;
  ret {| login_RequestID := req.(AuthorizationRequest.ID);
         login_Authenticated := negb needsMFA;
         login_RequiresConsent := needsConsent;
         login_RequiresMFA := needsMFA;
         login_Scopes := req.(AuthorizationRequest.Scopes) |}.

(** ** Return from the verification link, and completion without consent *)

Definition CompleteAfterEmailVerification (requestID userID : UUID)
    (ipAddress userAgent : string) : M string :=
  req <- liveRequest requestID "authorization request not found" ;;
  guard (opt_uuid_eqb req.(AuthorizationRequest.UserID) userID)
    (ErrInvalidRequest "authorization request does not match user") ;;;
  now <- clock_now ;;
  req <- saveRequest
      (req <| AuthorizationRequest.Authenticated := true |>
           <| AuthorizationRequest.AuthTime := Some now |>
           <| AuthorizationRequest.ConsentGiven := true |>
           <| AuthorizationRequest.AuthMethods ::= fun l => l ++ ["email"] |>) ;;
  resp <- completeAuthorize s req ipAddress userAgent ;;
  of_result (BuildAuthorizeRedirectURL resp).

Definition CompleteAuthorizeFirstParty (requestID : UUID) (ipAddress userAgent : string)
    : M AuthorizeConsentResponse.t :=
  let! (found, err) := FindAuthRequest requestID ;;
  match err, found with
  | None, Some req =>
      wall <- wall_now ;;
      guard (AuthorizationRequest.IsReady wall req)
        (ErrInvalidRequest "authorization request is not ready") ;;;
      completeAuthorize s req ipAddress userAgent
  | _, _ => throw (ErrInvalidRequest "invalid or expired authorization request")
  end.

End steps.
