(* ===== verification/Device.v ===== *)
(** * oauth/device.go: the device authorization grant (RFC 8628)

    A device code starts [pending]; the user's decision makes it [authorized]
    or [denied], and the exchange makes it [consumed]. *)
From S2P Require Import Prelude.
From S2P Require Import Errors.
From S2P Require Import GoLib.
From S2P Require Import Model.
From S2P Require Import Platform.
From S2P Require Import Config.
From S2P Require Import Exec.
From S2P Require Import Crypto.
From S2P Require Import SessionSvc.
From S2P Require Import OAuthRepo.
From S2P Require Import Scopes.
From S2P Require Import Policy.
From S2P Require Import UserSvc.
From S2P Require Import OAuth.
From S2P Require Import Token.
From Stdlib Require Import Ascii.
Local Open Scope Z_scope.

Definition userCodeAlphabet : string := "BCDFGHJKLMNPQRSTVWXZ".

Module DeviceAuthResponse.
Record t := mk {
  DeviceCode : string;
  UserCode : string;
  VerificationURI : string;
  VerificationURIComplete : string;
  ExpiresIn : Z;
  Interval : Z
}.
End DeviceAuthResponse.

Record DeviceVerifyResponse := mkDeviceVerifyResponse {
  verify_UserCode : string;
  verify_ClientName : string;
  verify_Scopes : list string
}.

Record DeviceApproveInput := mkDeviceApproveInput {
  approve_UserCode : string;
  approve_Approved : bool
}.

(** One character of the code, from the alphabet. *)
Definition randomChar : M ascii :=
  idx <- rand_int (Z.of_nat (String.length userCodeAlphabet)) ;;
  ret (default "B"%char (String.get (Z.to_nat idx) userCodeAlphabet)).

Fixpoint randomChars (n : nat) : M (list ascii) :=
  match n with
  | O => ret []
  | S n => c <- randomChar ;; l <- randomChars n ;; ret (c :: l)
  end.

Definition generateUserCode : M string :=
  b <- randomChars 8 ;;
  ret (String.string_of_list_ascii (firstn 4 b) +:+ "-" +:+
       String.string_of_list_ascii (skipn 4 b)).

Section device.
Context `{Platform} (s : Service).

Definition InitDeviceAuthorization (client : OAuthClient.t) (scope issuer : string)
    : M DeviceAuthResponse.t :=
  guard (OAuthClient.HasGrantType client "urn:ietf:params:oauth:grant-type:device_code")
    (ErrUnauthorizedClient "client is not authorized for device_code grant") ;;;
  let scopes := OAuthClient.ValidateScopes client (parseSpaceDelimited scope) in
  let! (rawCode, codeHash) := or_fail GenerateOpaqueToken
                                (ErrServerError "failed to generate device code") ;;
  userCode <- or_fail generateUserCode (ErrServerError "failed to generate user code") ;;
  now <- clock_now ;;
  or_fail (CreateDeviceCode
      (DeviceCode.zero
         <| DeviceCode.DeviceCodeHash := codeHash |>
         <| DeviceCode.UserCode := userCode |>
         <| DeviceCode.ClientID := client.(OAuthClient.ID) |>
         <| DeviceCode.Scopes := scopes |>
         <| DeviceCode.Status := "pending" |>
         <| DeviceCode.IntervalSecs := 5 |>
         <| DeviceCode.ExpiresAt := time_add now s.(cfg).(AuthConfig.DeviceCodeTTL) |>))
    (ErrServerError "failed to create device code") ;;;
  let verificationURI := issuer +:+ "/device/verify" in
  ret {| DeviceAuthResponse.DeviceCode := rawCode;
         DeviceAuthResponse.UserCode := userCode;
         DeviceAuthResponse.VerificationURI := verificationURI;
         DeviceAuthResponse.VerificationURIComplete := verificationURI +:+ "?code=" +:+ userCode;
         DeviceAuthResponse.ExpiresIn := dur_seconds s.(cfg).(AuthConfig.DeviceCodeTTL);
         DeviceAuthResponse.Interval := 5 |}.

(** The lookup [DeviceVerify] and [DeviceApprove] start with. *)
Definition pendingDeviceCode (userCode : string) : M DeviceCode.t :=
  let! (found, err) := FindDeviceCodeByUserCode userCode ;;
  match err, found with
  | None, Some dc =>
      wall <- wall_now ;;
      guard (negb (DeviceCode.IsExpired wall dc)) (ErrExpiredToken "device code expired") ;;;
      guard (String.eqb dc.(DeviceCode.Status) "pending")
        (ErrInvalidGrant ("device code already " +:+ dc.(DeviceCode.Status))) ;;;
      ret dc
  | _, _ => throw (ErrInvalidGrant "invalid user code")
  end.

Definition DeviceVerify (userCode : string) : M DeviceVerifyResponse :=
  dc <- pendingDeviceCode userCode ;;
  client <- opt (findClient (uuid_string dc.(DeviceCode.ClientID))) ;;
  ret {| verify_UserCode := dc.(DeviceCode.UserCode);
         verify_ClientName := match client with
                              | Some c => c.(OAuthClient.Name)
                              | None => ""
                              end;
         verify_Scopes := dc.(DeviceCode.Scopes) |}.

Definition deviceApprovalPolicy (dc : DeviceCode.t) (userID : UUID) (ipAddress userAgent : string)
    : M unit :=
  match s.(policyEvaluator) with
  | None => ret tt
  | Some _ =>
      u <- opt (UserSvc.GetByID userID) ;;
      client <- opt (findClient (uuid_string dc.(DeviceCode.ClientID))) ;;
      match u with
      | None => ret tt
      | Some u =>
          let! (roles, perms) := loadRoles s userID ;;
          wall <- wall_now ;;
          result <- evaluate s "device_approval"
              (Inputs.BuildDeviceApprovalInput wall u client roles perms
                 dc.(DeviceCode.Scopes) dc.(DeviceCode.UserCode) ipAddress userAgent) ;;
          not_denied result
      end
  end.

Definition DeviceApprove (input : DeviceApproveInput) (userID : UUID)
    (ipAddress userAgent : string) : M unit :=
  dc <- pendingDeviceCode input.(approve_UserCode) ;;
  if negb input.(approve_Approved) then UpdateDeviceCode (dc <| DeviceCode.Status := "denied" |>)
  else
    deviceApprovalPolicy dc userID ipAddress userAgent ;;;
    sess <- or_fail (SessionSvc.Create s.(sessionService)
                       (SessionSvc.mkCreateInput userID ipAddress userAgent false))
              (ErrServerError "failed to create session") ;;
    or_fail (UpdateDeviceCode
        (dc <| DeviceCode.Status := "authorized" |>
            <| DeviceCode.UserID := Some userID |>
            <| DeviceCode.SessionID := Some sess.(Session.ID) |>))
      (ErrServerError "failed to update device code").

(** The tokens of an authorized code, then its last state, whose outcome is
    not looked at. *)
Definition redeemDeviceCode (client : OAuthClient.t) (dc : DeviceCode.t) : M TokenResponse.t :=
  guard (is_Some_b dc.(DeviceCode.UserID) && is_Some_b dc.(DeviceCode.SessionID))
    (ErrInvalidGrant "device code not properly authorized") ;;;
  resp <- transaction (issueTokensWithOpts s client dc.(DeviceCode.UserID)
            dc.(DeviceCode.SessionID) dc.(DeviceCode.Scopes)
            {| issueOpts.nonce := "";
               issueOpts.authTime := dc.(DeviceCode.CreatedAt);
               issueOpts.audience := None;
               issueOpts.resourceID := None;
               issueOpts.requestedClaims := "";
               issueOpts.acr := "";
               issueOpts.amr := [] |}) ;;
  ignore (UpdateDeviceCode (dc <| DeviceCode.Status := "consumed" |>)) ;;;
  ret resp.

(** A poll before the interval has elapsed since the last one. *)
Definition polledTooSoon (now : Z) (dc : DeviceCode.t) : bool :=
  match dc.(DeviceCode.LastPolledAt) with
  | Some t => time_sub now t <? dur_mul dc.(DeviceCode.IntervalSecs) second
  | None => false
  end.

Definition ExchangeDeviceCode (client : OAuthClient.t) (deviceCodeRaw : string)
    : M TokenResponse.t :=
  let! (found, err) := FindDeviceCode (HashToken deviceCodeRaw) ;;
  match err, found with
  | None, Some dc =>
      guard (N.eqb dc.(DeviceCode.ClientID) client.(OAuthClient.ID))
        (ErrInvalidGrant "device code not issued to this client") ;;;
      wall <- wall_now ;;
      guard (negb (DeviceCode.IsExpired wall dc)) (ErrExpiredToken "device code expired") ;;;
      now <- clock_now ;;
      guard (negb (polledTooSoon now dc)) ErrSlowDown ;;;
      let dc := dc <| DeviceCode.LastPolledAt := Some now |> in
      ignore (UpdateDeviceCode dc) ;;;
      if String.eqb dc.(DeviceCode.Status) "pending" then throw ErrAuthorizationPending
      else if String.eqb dc.(DeviceCode.Status) "denied"
      then throw (ErrAccessDenied "user denied the authorization request")
      else if String.eqb dc.(DeviceCode.Status) "authorized" then redeemDeviceCode client dc
      else throw (ErrInvalidGrant "unexpected device code status")
  | _, _ => throw (ErrInvalidGrant "invalid device code")
  end.

End device.

(** ** The life of a device code *)
Module DeviceFacts.

(** One change of a row: a poll, the user's decision, the exchange. *)
Inductive dc_step : DeviceCode.t -> DeviceCode.t -> Prop :=
| step_poll dc now :
    dc_step dc (dc <| DeviceCode.LastPolledAt := Some now |>)
| step_deny dc :
    dc.(DeviceCode.Status) = "pending" ->
    dc_step dc (dc <| DeviceCode.Status := "denied" |>)
| step_approve dc userID sessionID :
    dc.(DeviceCode.Status) = "pending" ->
    dc_step dc (dc <| DeviceCode.Status := "authorized" |>
                   <| DeviceCode.UserID := Some userID |>
                   <| DeviceCode.SessionID := Some sessionID |>)
| step_consume dc :
    dc.(DeviceCode.Status) = "authorized" -> is_Some dc.(DeviceCode.UserID) ->
    dc_step dc (dc <| DeviceCode.Status := "consumed" |>).

Definition terminal (dc : DeviceCode.t) : Prop :=
  dc.(DeviceCode.Status) = "denied" \/ dc.(DeviceCode.Status) = "consumed".

Lemma steps_keep dc dc' :
  rtc dc_step dc dc' ->
  dc'.(DeviceCode.DeviceCodeHash) = dc.(DeviceCode.DeviceCodeHash) /\
  dc'.(DeviceCode.ClientID) = dc.(DeviceCode.ClientID) /\
  dc'.(DeviceCode.Scopes) = dc.(DeviceCode.Scopes) /\
  dc'.(DeviceCode.ExpiresAt) = dc.(DeviceCode.ExpiresAt).
Proof. induction 1 as [|x y z Hs _ IH]; [done|]. destruct Hs; apply IH. Qed.

(** A decision is final, and so is the consumption of the code. *)
Lemma terminal_stays dc dc' :
  rtc dc_step dc dc' -> terminal dc ->
  dc'.(DeviceCode.Status) = dc.(DeviceCode.Status) /\
  dc'.(DeviceCode.UserID) = dc.(DeviceCode.UserID) /\
  dc'.(DeviceCode.SessionID) = dc.(DeviceCode.SessionID).
Proof.
  unfold terminal. induction 1 as [|x y z Hs _ IH]; intros Ht; [done|].
  destruct Hs; [by apply IH | | |]; exfalso; destruct Ht; congruence.
Qed.

(** The user and the session a code was approved for never change again. *)
Lemma approval_stays dc dc' :
  rtc dc_step dc dc' -> dc.(DeviceCode.Status) = "authorized" ->
  dc'.(DeviceCode.UserID) = dc.(DeviceCode.UserID) /\
  dc'.(DeviceCode.SessionID) = dc.(DeviceCode.SessionID) /\
  (dc'.(DeviceCode.Status) = "authorized" \/ dc'.(DeviceCode.Status) = "consumed").
Proof.
  induction 1 as [|x y z Hs Hr IH]; intros Ha; [auto|].
  destruct Hs; try congruence; [by apply IH|].
  destruct (terminal_stays _ _ Hr) as (-> & -> & ->); [by right | auto].
Qed.

(** The table is indexed by the digest, and its rows only take steps; the rows
    that appear start pending. *)
Definition codes_wf (t : gmap string DeviceCode.t) : Prop :=
  forall h dc, t !! h = Some dc -> dc.(DeviceCode.DeviceCodeHash) = h.

Definition rows_step (t t' : gmap string DeviceCode.t) : Prop :=
  (forall h dc, t !! h = Some dc -> exists dc', t' !! h = Some dc' /\ rtc dc_step dc dc') /\
  (forall h dc', t' !! h = Some dc' -> t !! h = None ->
     exists dc, dc.(DeviceCode.Status) = "pending" /\ rtc dc_step dc dc').

Definition evolves (d d' : DB) : Prop :=
  codes_wf d.(device_codes) ->
  codes_wf d'.(device_codes) /\ rows_step d.(device_codes) d'.(device_codes).

#[export] Instance evolves_preorder : PreOrder evolves.
Proof.
  split.
  - intros d Hwf. split; [done|]. split; [by eauto using rtc_refl | congruence].
  - intros d d' d'' H1 H2 Hwf. destruct (H1 Hwf) as [Hwf' [Ha Hb]].
    destruct (H2 Hwf') as [Hwf'' [Ha' Hb']]. split; [done|]. split.
    + intros h dc (dc' & Hdc' & Hr)%Ha. destruct (Ha' _ _ Hdc') as (dc'' & ? & ?).
      eauto using rtc_trans.
    + intros h dc'' Hdc'' Hn. destruct (d'.(device_codes) !! h) as [dc'|] eqn:E; [|by eauto].
      destruct (Hb _ _ E Hn) as (dc & Hp & Hr). destruct (Ha' _ _ E) as (dc2 & Hdc2 & Hr2).
      rewrite Hdc'' in Hdc2. injection Hdc2 as <-. eauto using rtc_trans.
Qed.

(** Writing back a row after some steps. *)
Lemma insert_steps d d' dc dc' :
  d'.(device_codes) = <[dc.(DeviceCode.DeviceCodeHash) := dc']> d.(device_codes) ->
  d.(device_codes) !! dc.(DeviceCode.DeviceCodeHash) = Some dc -> rtc dc_step dc dc' -> evolves d d'.
Proof.
  intros He Hdc Hr Hwf. rewrite He. clear He. destruct (steps_keep _ _ Hr) as [Hh _]. split; [|split].
  - intros h x. rewrite lookup_insert_Some. intros [[<- <-]|[_ Hx]]; [done | by apply Hwf].
  - intros h x Hx. destruct (decide (h = dc.(DeviceCode.DeviceCodeHash))) as [->|Hne].
    + rewrite Hdc in Hx. injection Hx as <-. exists dc'. by rewrite lookup_insert_eq.
    + exists x. rewrite lookup_insert_ne by done. by split; [|apply rtc_refl].
  - intros h x. rewrite lookup_insert_Some. intros [[<- <-]|[_ Hx]]; congruence.
Qed.

(** A fresh pending row. *)
Lemma insert_pending d d' dc :
  d'.(device_codes) = <[dc.(DeviceCode.DeviceCodeHash) := dc]> d.(device_codes) ->
  d.(device_codes) !! dc.(DeviceCode.DeviceCodeHash) = None ->
  dc.(DeviceCode.Status) = "pending" -> evolves d d'.
Proof.
  intros He Hdc Hp Hwf. rewrite He. clear He. split; [|split].
  - intros h x. rewrite lookup_insert_Some. intros [[<- <-]|[_ Hx]]; [done | by apply Hwf].
  - intros h x Hx. exists x. rewrite lookup_insert_ne by congruence. by split; [|apply rtc_refl].
  - intros h x. rewrite lookup_insert_Some.
    intros [[<- <-]|[_ Hx]]; [by eauto using rtc_refl | congruence].
Qed.

Lemma same_evolves {A} (m : M A) : Preserves (same device_codes) m -> Preserves evolves m.
Proof.
  apply preserves_mono. intros d d' He Hwf. unfold same in He. rewrite He.
  split; [done|]. split; [by eauto using rtc_refl | congruence].
Qed.

(** ** The operations *)

Section operations.
Context `{Platform} (s : Service).

Ltac same_codes :=
  first [apply preserves_read_only; side; solve [apply _]
        | apply (preserves_update_table (same device_codes)); side; done
        | apply (preserves_create_in (same device_codes)); side; done].

#[local] Instance session_Create_same i :
  Preserves (same device_codes) (SessionSvc.Create s.(sessionService) i).
Proof.
  unfold SessionSvc.Create, SessionRepo.Create, GenerateOpaqueToken. solve_preserves same_codes.
Qed.

#[local] Instance issueTokens_same client u sid sc opts :
  Preserves (same device_codes) (issueTokensWithOpts s client u sid sc opts).
Proof.
  unfold issueTokensWithOpts, applyIssuePolicy, resolveResource, narrowByUser, makeAccessToken,
    GenerateOpaqueToken, deref, CreateRefreshToken, CreateAccessToken, makeIDToken.
  solve_preserves same_codes.
Qed.

#[local] Instance randomChars_read_only n : ReadOnly (randomChars n).
Proof. induction n; simpl; unfold randomChar; solve_preserves ltac:(apply _). Qed.

Lemma CreateDeviceCode_evolves dc :
  dc.(DeviceCode.Status) = "pending" -> Preserves evolves (CreateDeviceCode dc).
Proof.
  intros Hp. apply (preserves_bind evolves); [apply _|]. intros wall.
  apply (preserves_stmt evolves). intros env db db'.
  destruct (device_codes db !! _) eqn:E; [done|]. destruct (first_row _ _ _); [done|]. intros [= <-].
  by apply (insert_pending db _ (dc <| DeviceCode.CreatedAt ::= auto_time wall |>)).
Qed.

Lemma Init_evolves client scope iss : Preserves evolves (InitDeviceAuthorization s client scope iss).
Proof.
  unfold InitDeviceAuthorization, GenerateOpaqueToken, generateUserCode.
  solve_preserves ltac:(first [apply preserves_read_only; side; solve [apply _] | idtac]).
  by apply CreateDeviceCode_evolves.
Qed.

(** Writing back a row that was read from the table, after some steps. *)
Lemma wp_save_steps dc dc' env st (Q : result unit -> State -> Prop) :
  dc'.(DeviceCode.DeviceCodeHash) = dc.(DeviceCode.DeviceCodeHash) ->
  (forall e, Q (Err e) (bump st)) ->
  (forall db', db' = st.(st_db) <| device_codes ::= insert dc.(DeviceCode.DeviceCodeHash) dc' |> ->
     Q (Ok tt) (mkState db' (S st.(st_step)))) ->
  wp (UpdateDeviceCode dc') Q env st.
Proof.
  intros Hh He Hok. unfold UpdateDeviceCode. rewrite Hh.
  apply wp_update_table; [intros; apply He | intros; by apply Hok].
Qed.

(** The row a lookup by user code returns is stored under its own digest. *)
Lemma found_by_user_code (t : gmap string DeviceCode.t) userCode dc :
  codes_wf t ->
  first_row string_le (fun d => String.eqb d.(DeviceCode.UserCode) userCode) t = Some dc ->
  t !! dc.(DeviceCode.DeviceCodeHash) = Some dc /\ dc.(DeviceCode.UserCode) = userCode.
Proof.
  intros Hwf (h & Hh & Hu)%first_row_Some. rewrite (Hwf _ _ Hh).
  split; [done | by apply String.eqb_eq].
Qed.

Lemma wp_pendingDeviceCode userCode env st (Q : result DeviceCode.t -> State -> Prop) :
  codes_wf st.(st_db).(device_codes) ->
  (forall e n, Q (Err e) (mkState st.(st_db) n)) ->
  (forall dc n, st.(st_db).(device_codes) !! dc.(DeviceCode.DeviceCodeHash) = Some dc ->
     dc.(DeviceCode.UserCode) = userCode -> dc.(DeviceCode.Status) = "pending" ->
     env.(env_wall) <= dc.(DeviceCode.ExpiresAt) ->
     Q (Ok dc) (mkState st.(st_db) n)) ->
  wp (pendingDeviceCode userCode) Q env st.
Proof.
  intros Hwf He Hok. unfold pendingDeviceCode, FindDeviceCodeByUserCode, DeviceCode.IsExpired, time_before.
  wp_steps; try apply He. bool_simpl.
  match goal with H : first_row _ _ _ = Some _ |- _ =>
    destruct (found_by_user_code _ _ _ Hwf H) end.
  by apply Hok.
Qed.

Lemma evolves_wp {A} (m : M A) :
  (forall env st, codes_wf st.(st_db).(device_codes) ->
     wp m (fun _ st' => evolves st.(st_db) st'.(st_db)) env st) -> Preserves evolves m.
Proof. intros Hm env st Hwf. exact (Hm env st Hwf Hwf). Qed.

#[local] Instance deviceApprovalPolicy_read_only dc u ip ua :
  ReadOnly (deviceApprovalPolicy s dc u ip ua).
Proof. unfold deviceApprovalPolicy. solve_preserves ltac:(apply _). Qed.

Lemma rows_insert_steps db db1 db' dc dc' :
  db'.(device_codes) = <[dc.(DeviceCode.DeviceCodeHash) := dc']> db1.(device_codes) ->
  same device_codes db db1 ->
  db.(device_codes) !! dc.(DeviceCode.DeviceCodeHash) = Some dc -> rtc dc_step dc dc' ->
  evolves db db'.
Proof.
  unfold same. intros He Hs Hdc Hr. apply (insert_steps _ _ dc dc'); [|done..]. by rewrite He, Hs.
Qed.

Lemma same_evolves_db db db' : same device_codes db db' -> evolves db db'.
Proof.
  intros Hs Hwf. unfold same in Hs. rewrite Hs.
  split; [done|]. split; [by eauto using rtc_refl | congruence].
Qed.

Lemma Approve_evolves input u ip ua : Preserves evolves (DeviceApprove s input u ip ua).
Proof.
  apply evolves_wp. intros env st Hwf. unfold DeviceApprove. wp_step.
  apply wp_pendingDeviceCode; [done | done |]. intros dc n Hdc _ Hp _. wp_simpl.
  wp_step.
  - apply (wp_save_steps dc); [done | done |]. intros db' ->. wp_simpl.
    eapply (insert_steps _ _ dc); [reflexivity | done |]. by apply rtc_once, step_deny.
  - wp_step. apply wp_read_only; [apply _|]. intros [[]|e] n1; wp_simpl; [|done].
    do 2 wp_step. apply (wp_preserves (same device_codes)); [apply _|].
    intros [sess|e] st1 Hs; wp_simpl; [|by apply same_evolves_db].
    wp_step. apply (wp_save_steps dc); [done | |].
    + intros e. by apply same_evolves_db.
    + intros db' ->. wp_simpl. eapply (rows_insert_steps _ st1.(st_db) _ dc); [reflexivity | done | done |].
      by apply rtc_once, step_approve.
Qed.

(** The table before the poll was recorded, or after. *)
Definition polled (dc dc1 : DeviceCode.t) (db db1 : DB) : Prop :=
  same device_codes db db1 \/
  db1.(device_codes) = <[dc.(DeviceCode.DeviceCodeHash) := dc1]> db.(device_codes).

Lemma polled_save dc dc1 dc2 db db1 db2 :
  polled dc dc1 db db1 ->
  db2.(device_codes) = <[dc.(DeviceCode.DeviceCodeHash) := dc2]> db1.(device_codes) ->
  db2.(device_codes) = <[dc.(DeviceCode.DeviceCodeHash) := dc2]> db.(device_codes).
Proof. intros [Hs|He] ->; [by rewrite Hs | by rewrite He, insert_insert_eq]. Qed.

Lemma polled_evolves dc dc1 db db1 :
  polled dc dc1 db db1 -> db.(device_codes) !! dc.(DeviceCode.DeviceCodeHash) = Some dc ->
  dc_step dc dc1 -> evolves db db1.
Proof.
  intros [Hs|He] Hdc Hp; [by apply same_evolves_db|].
  apply (insert_steps _ _ dc dc1); [done | done | by apply rtc_once].
Qed.

Lemma redeem_evolves client dc dc1 db env st :
  polled dc dc1 db st.(st_db) -> db.(device_codes) !! dc.(DeviceCode.DeviceCodeHash) = Some dc ->
  dc_step dc dc1 -> dc1.(DeviceCode.Status) = "authorized" ->
  wp (redeemDeviceCode s client dc1) (fun _ st' => evolves db st'.(st_db)) env st.
Proof.
  intros Hpol Hdc Hp Ha. unfold redeemDeviceCode.
  pose proof (polled_evolves _ _ _ _ Hpol Hdc Hp) as Hev. do 2 wp_step; [|done]. wp_simpl.
  wp_step. apply (wp_preserves (same device_codes)).
  { apply preserves_transaction; [apply _|]. apply issueTokens_same. }
  assert (Hh : dc1.(DeviceCode.DeviceCodeHash) = dc.(DeviceCode.DeviceCodeHash))
    by by destruct (steps_keep _ _ (rtc_once _ _ Hp)) as (? & _).
  intros r st1 Hs.
  assert (Hpol1 : polled dc dc1 db st1.(st_db)).
  { unfold polled, same in *. by rewrite Hs. }
  assert (Hev1 : evolves db st1.(st_db)) by by eapply polled_evolves.
  destruct r as [resp|e]; wp_simpl; [|done].
  do 2 wp_step. apply (wp_save_steps dc); [done | intros e; wp_simpl; by wp_step |].
  intros db' ->. wp_simpl. wp_step. wp_simpl.
  eapply (insert_steps _ _ dc); [by eapply polled_save | done |].
  eapply rtc_l; [done|]. apply rtc_once, step_consume; [done|].
  bool_simpl. by destruct (DeviceCode.UserID dc1).
Qed.

Lemma Exchange_evolves client raw : Preserves evolves (ExchangeDeviceCode s client raw).
Proof.
  apply evolves_wp. intros env st Hwf. unfold ExchangeDeviceCode, FindDeviceCode.
  wp_step. wp_step; [by wp_steps|]. wp_simpl.
  destruct (st.(st_db).(device_codes) !! HashToken raw) as [dc|] eqn:Hdc; [|by wp_steps].
  pose proof (Hwf _ _ Hdc) as Hh. rewrite <-Hh in Hdc.
  do 2 wp_step; [|done]. wp_simpl. do 2 wp_step. wp_simpl. do 2 wp_step; [|done]. wp_simpl.
  do 2 wp_step. wp_simpl. do 2 wp_step; [|done]. cbv zeta. wp_simpl. do 2 wp_step.
  set (dc1 := dc <| DeviceCode.LastPolledAt := Some _ |>).
  assert (Hp : dc_step dc dc1) by apply step_poll.
  enough (Hfin : forall st1, polled dc dc1 st.(st_db) st1.(st_db) ->
    wp (if String.eqb dc1.(DeviceCode.Status) "pending" then throw ErrAuthorizationPending
        else if String.eqb dc1.(DeviceCode.Status) "denied"
        then throw (ErrAccessDenied "user denied the authorization request")
        else if String.eqb dc1.(DeviceCode.Status) "authorized" then redeemDeviceCode s client dc1
        else throw (ErrInvalidGrant "unexpected device code status"))
      (fun _ st' => evolves st.(st_db) st'.(st_db)) env st1).
  { apply (wp_save_steps dc); [done | |].
    - intros e. apply Hfin. by left.
    - intros db' ->. apply Hfin. by right. }
  intros st1 Hpol. pose proof (polled_evolves _ _ _ _ Hpol Hdc Hp) as Hev.
  do 2 (wp_step; [by wp_step|]). wp_step; [|by wp_step].
  eapply redeem_evolves; [done.. | by apply String.eqb_eq].
Qed.

(** ** Histories of device calls *)

Inductive call :=
| CInit (client : OAuthClient.t) (scope issuer : string)
| CVerify (userCode : string)
| CApprove (input : DeviceApproveInput) (userID : UUID) (ip ua : string)
| CExchange (client : OAuthClient.t) (raw : string).

Definition perform (c : call) : M unit :=
  match c with
  | CInit client scope iss => drop (InitDeviceAuthorization s client scope iss)
  | CVerify code => drop (DeviceVerify code)
  | CApprove input u ip ua => DeviceApprove s input u ip ua
  | CExchange client raw => drop (ExchangeDeviceCode s client raw)
  end.

Lemma perform_evolves c : Preserves evolves (perform c).
Proof.
  destruct c; simpl; unfold drop; try (apply preserves_bind; [apply _ | | intros; apply _]).
  - apply Init_evolves.
  - apply preserves_read_only; [apply _|]. unfold DeviceVerify, pendingDeviceCode.
    solve_preserves ltac:(apply _).
  - apply Approve_evolves.
  - apply Exchange_evolves.
Qed.

(** C10: Whatever the calls, their order, their clocks and their faults, a device
    code only moves from pending to denied or authorized, and from authorized
    to consumed; its client, scopes and expiry never change, and once it is
    authorized its user and session never change. *)
Theorem device_lifecycle (l : list (Env * call)) (db : DB) :
  codes_wf db.(device_codes) ->
  let db' := history perform l db in
  codes_wf db'.(device_codes) /\
  (forall h dc, db.(device_codes) !! h = Some dc ->
     exists dc', db'.(device_codes) !! h = Some dc' /\ rtc dc_step dc dc' /\
       dc'.(DeviceCode.ClientID) = dc.(DeviceCode.ClientID) /\
       dc'.(DeviceCode.Scopes) = dc.(DeviceCode.Scopes) /\
       dc'.(DeviceCode.ExpiresAt) = dc.(DeviceCode.ExpiresAt) /\
       (terminal dc -> dc'.(DeviceCode.Status) = dc.(DeviceCode.Status)) /\
       (dc.(DeviceCode.Status) = "authorized" ->
          dc'.(DeviceCode.UserID) = dc.(DeviceCode.UserID) /\
          dc'.(DeviceCode.SessionID) = dc.(DeviceCode.SessionID))) /\
  (forall h dc', db'.(device_codes) !! h = Some dc' -> db.(device_codes) !! h = None ->
     exists dc, dc.(DeviceCode.Status) = "pending" /\ rtc dc_step dc dc').
Proof.
  intros Hwf db'.
  destruct (history_preserves perform evolves l db perform_evolves Hwf) as [Hwf' [Ha Hb]].
  split_and!; [done | | done]. intros h dc Hdc.
  destruct (Ha _ _ Hdc) as (dc' & Hdc' & Hr). exists dc'.
  destruct (steps_keep _ _ Hr) as (_ & ? & ? & ?). split_and!; try done.
  - intros Ht. by destruct (terminal_stays _ _ Hr Ht).
  - intros Ht. by destruct (approval_stays _ _ Hr Ht) as (? & ? & _).
Qed.

(** ** The exchange *)

Context (Hres : forall v, s.(resourceValidator) = Some v -> TokenFacts.ResourceValidatorLaws v).

Definition poll_row (now : Z) (dc : DeviceCode.t) : DeviceCode.t :=
  dc <| DeviceCode.LastPolledAt := Some now |>.

Definition consume_row (dc : DeviceCode.t) : DeviceCode.t :=
  dc <| DeviceCode.Status := "consumed" |>.

Definition put (dc : DeviceCode.t) (db : DB) : DB :=
  db <| device_codes ::= insert dc.(DeviceCode.DeviceCodeHash) dc |>.

(** A write whose outcome is not looked at: it took place, or a statement of
    the call failed. *)
Definition attempted (env : Env) (dc : DeviceCode.t) (db db' : DB) : Prop :=
  db' = put dc db \/ (db' = db /\ exists n, env.(env_fail) n = true).

(** What a successful exchange did. *)
Definition redeemed (env : Env) (client : OAuthClient.t) (dc : DeviceCode.t) (db db' : DB)
    (resp : TokenResponse.t) : Prop :=
  exists u sid rt at_ db1 db2,
    dc.(DeviceCode.UserID) = Some u /\ dc.(DeviceCode.SessionID) = Some sid /\
    attempted env (poll_row env.(env_now) dc) db db1 /\
    TokenFacts.issued client.(OAuthClient.ID) u sid dc.(DeviceCode.Scopes) None db1 db2 resp rt at_ /\
    attempted env (consume_row (poll_row env.(env_now) dc)) db2 db'.

Lemma wp_attempt_save env st dc (Q : result unit -> State -> Prop) :
  (forall db' n, attempted env dc st.(st_db) db' -> Q (Ok tt) (mkState db' n)) ->
  wp (ignore (UpdateDeviceCode dc)) Q env st.
Proof.
  intros Hok. apply wp_ignore. unfold UpdateDeviceCode. apply wp_update_table.
  - intros e Hf. apply Hok. right. by split; [|eexists].
  - intros _. apply Hok. by left.
Qed.

Lemma wp_redeem client dc env st (Q : result TokenResponse.t -> State -> Prop) :
  (forall e n, Q (Err e) (mkState st.(st_db) n)) ->
  (forall u sid resp rt at_ db2 db' n,
     dc.(DeviceCode.UserID) = Some u -> dc.(DeviceCode.SessionID) = Some sid ->
     TokenFacts.issued client.(OAuthClient.ID) u sid dc.(DeviceCode.Scopes) None st.(st_db) db2 resp rt at_ ->
     attempted env (consume_row dc) db2 db' -> Q (Ok resp) (mkState db' n)) ->
  wp (redeemDeviceCode s client dc) Q env st.
Proof using Hres.
  intros He Hok. unfold redeemDeviceCode. destruct st as [db n0]. simpl in *.
  do 2 wp_step; [|apply He]. wp_simpl.
  destruct (DeviceCode.UserID dc) as [u|] eqn:Hu; [|done].
  destruct (DeviceCode.SessionID dc) as [sid|] eqn:Hs; [|done].
  wp_step. apply wp_transaction; [intros; apply He|].
  apply TokenFacts.wp_issueTokens; [done | done |].
  intros sid' resp rt at_ db2 n [= <-] Hiss _. wp_simpl. wp_step. apply wp_attempt_save.
  intros db' n' Hatt. wp_simpl. wp_step. eapply Hok; try reflexivity; done.
Qed.

(** The code a successful exchange found. *)
Definition exchangeable (env : Env) (client : OAuthClient.t) (raw : string) (db : DB)
    (dc : DeviceCode.t) : Prop :=
  db.(device_codes) !! HashToken raw = Some dc /\
  dc.(DeviceCode.ClientID) = client.(OAuthClient.ID) /\
  env.(env_wall) <= dc.(DeviceCode.ExpiresAt) /\
  polledTooSoon env.(env_now) dc = false /\
  dc.(DeviceCode.Status) = "authorized".

Lemma wp_ExchangeDeviceCode client raw env st :
  wp (ExchangeDeviceCode s client raw)
    (fun r st' =>
       match r with
       | Ok resp => exists dc, exchangeable env client raw st.(st_db) dc /\
                      redeemed env client dc st.(st_db) st'.(st_db) resp
       | Err _ =>
           st'.(st_db).(access_tokens) = st.(st_db).(access_tokens) /\
           st'.(st_db).(refresh_tokens) = st.(st_db).(refresh_tokens)
       end) env st.
Proof using Hres.
  unfold ExchangeDeviceCode, FindDeviceCode, DeviceCode.IsExpired, time_before.
  wp_step. wp_step; [by wp_steps|]. wp_simpl.
  destruct (st.(st_db).(device_codes) !! HashToken raw) as [dc|] eqn:Hdc; [|by wp_steps].
  do 2 wp_step; [|done]. wp_simpl. do 2 wp_step. wp_simpl. do 2 wp_step; [|done]. wp_simpl.
  do 2 wp_step. wp_simpl. do 2 wp_step; [|done]. cbv zeta. wp_simpl. wp_step.
  apply wp_attempt_save. intros db1 n1 Hpoll. wp_simpl.
  assert (Htok : db1.(access_tokens) = st.(st_db).(access_tokens) /\
                 db1.(refresh_tokens) = st.(st_db).(refresh_tokens))
    by by destruct Hpoll as [->|[-> _]].
  do 2 (wp_step; [by wp_step|]). wp_step; [|by wp_step].
  apply wp_redeem; [done|]. intros u sid resp rt at_ db2 db' n Hu Hs Hiss Hcons. bool_simpl.
  exists dc. split; [by split_and!|]. exists u, sid, rt, at_, db1, db2. by split_and!.
Qed.

(** The exchange succeeds only for a code of that client the user has approved,
    not expired and not polled too soon, and issues tokens for the user and
    session that approved it, with no other scope than the code's; then it
    tries to mark the code consumed.  Otherwise no token is touched. *)
Theorem ExchangeDeviceCode_spec (client : OAuthClient.t) (raw : string) (env : Env)
    (db db' : DB) (r : result TokenResponse.t) :
  run (ExchangeDeviceCode s client raw) env db = (r, db') ->
  match r with
  | Ok resp => exists dc, exchangeable env client raw db dc /\ redeemed env client dc db db' resp
  | Err _ => db'.(access_tokens) = db.(access_tokens) /\ db'.(refresh_tokens) = db.(refresh_tokens)
  end.
Proof using Hres.
  intros Hr. by destruct (wp_run _ _ _ _ (wp_ExchangeDeviceCode _ _ env (mkState db 0)) _ _ Hr).
Qed.

(** When no statement of the first exchange fails, a device code is exchanged
    once. *)
Theorem device_code_once (client client' : OAuthClient.t) (raw : string) (env env' : Env)
    (db db1 db2 : DB) (resp : TokenResponse.t) (r : result TokenResponse.t) :
  no_faults env -> codes_wf db.(device_codes) ->
  run (ExchangeDeviceCode s client raw) env db = (Ok resp, db1) ->
  run (ExchangeDeviceCode s client' raw) env' db1 = (r, db2) ->
  exists e, r = Err e.
Proof using Hres.
  intros Hnf Hwf Hr1 Hr2.
  destruct (wp_run env _ _ _ (wp_ExchangeDeviceCode client raw env (mkState db 0)) _ _ Hr1)
    as (n & dc & (Hdc & _) & u & sid & rt & at_ & dbp & dbi & _ & _ & _ & _ & Hcons).
  destruct (wp_run env' _ _ _ (wp_ExchangeDeviceCode client' raw env' (mkState db1 0)) _ _ Hr2)
    as (n' & H2). simpl in *. destruct r as [resp'|e]; [exfalso | by eexists].
  destruct H2 as (dc' & (Hdc' & _ & _ & _ & Hst) & _).
  destruct Hcons as [-> | [_ [k Hk]]]; [|by rewrite Hnf in Hk].
  rewrite <-(Hwf _ _ Hdc) in Hdc'.
  change (<[dc.(DeviceCode.DeviceCodeHash) := consume_row (poll_row env.(env_now) dc)]>
            dbi.(device_codes) !! dc.(DeviceCode.DeviceCodeHash) = Some dc') in Hdc'.
  rewrite lookup_insert_eq in Hdc'. injection Hdc' as <-. done.
Qed.

End operations.

(** ** Witnesses and the consequence of a lost write *)

Definition sample_device : DeviceCode.t :=
  DeviceCode.zero
    <| DeviceCode.DeviceCodeHash := HashToken "device" |> <| DeviceCode.UserCode := "BCDF-GHJK" |>
    <| DeviceCode.ClientID := 77%N |> <| DeviceCode.Scopes := ["openid"; "read"] |>
    <| DeviceCode.Status := "pending" |> <| DeviceCode.IntervalSecs := 5 |>
    <| DeviceCode.ExpiresAt := 1000 * second |>.

Definition sample_db : DB :=
  Sample.db <| device_codes := {[ HashToken "device" := sample_device ]} |>.

(** The table once the user approved. *)
Definition approved_db : DB :=
  (run (@DeviceApprove sample_platform Sample.service (mkDeviceApproveInput "BCDF-GHJK" true) 5%N "" "")
     (Sample.env 10) sample_db).2.

Lemma sample_codes_wf : codes_wf sample_db.(device_codes).
Proof.
  intros h dc. change (device_codes sample_db) with ({[HashToken "device" := sample_device]} : gmap string DeviceCode.t).
  by intros [<- <-]%lookup_singleton_Some.
Qed.

Lemma approved_codes_wf : codes_wf approved_db.(device_codes).
Proof.
  pose proof (@Approve_evolves sample_platform Sample.service (mkDeviceApproveInput "BCDF-GHJK" true)
    5%N "" "" (Sample.env 10) (mkState sample_db 0) sample_codes_wf) as [Hwf _].
  revert Hwf. unfold approved_db, run. by destruct (DeviceApprove _ _ _ _ _ _ _).
Qed.

Lemma device_lifecycle_witness :
  let P := sample_platform in
  let l := [(Sample.env 10, CApprove (mkDeviceApproveInput "BCDF-GHJK" true) 5%N "" "");
            (Sample.env 20, CExchange Sample.client "device")] in
  let db' := history (perform Sample.service) l sample_db in
  exists dc', db'.(device_codes) !! HashToken "device" = Some dc' /\
    rtc dc_step sample_device dc' /\ dc'.(DeviceCode.Status) = "consumed".
Proof.
  intros P l db'.
  destruct (device_lifecycle Sample.service l sample_db sample_codes_wf) as (_ & Ha & _).
  destruct (Ha (HashToken "device") sample_device eq_refl) as (dc' & Hdc' & Hr & _).
  exists dc'. split_and!; [exact Hdc' | exact Hr |].
  assert (Hst : (DeviceCode.Status <$> db'.(device_codes) !! HashToken "device") = Some "consumed")
    by (vm_compute; reflexivity).
  unfold db' in Hst. rewrite Hdc' in Hst. by injection Hst.
Defined.

Lemma ExchangeDeviceCode_spec_witness :
  let P := sample_platform in
  let out := run (ExchangeDeviceCode Sample.service Sample.client "device") (Sample.env 20) approved_db in
  exists resp dc, out.1 = Ok resp /\ exchangeable (Sample.env 20) Sample.client "device" approved_db dc /\
    redeemed (Sample.env 20) Sample.client dc approved_db out.2 resp.
Proof.
  intros P out.
  assert (Hok : is_ok out.1 = true) by (vm_compute; reflexivity).
  destruct (run_ok _ _ _ Hok) as [resp Hrun].
  destruct (ExchangeDeviceCode_spec Sample.service TokenFacts.sample_laws Sample.client "device"
           (Sample.env 20) approved_db out.2 (Ok resp) Hrun) as (dc & He & Hd).
  exists resp, dc. split; [exact (f_equal fst Hrun)|]. split; [exact He | exact Hd].
Defined.

Lemma device_code_once_witness :
  let P := sample_platform in
  let first := run (ExchangeDeviceCode Sample.service Sample.client "device") (Sample.env 20) approved_db in
  let second := run (ExchangeDeviceCode Sample.service Sample.client "device") (Sample.env 40) first.2 in
  is_ok first.1 = true /\ exists e, second.1 = Err e.
Proof.
  intros P first second.
  assert (Hok : is_ok first.1 = true) by (vm_compute; reflexivity). split; [exact Hok|].
  destruct (run_ok _ _ _ Hok) as [resp Hrun].
  apply (device_code_once Sample.service TokenFacts.sample_laws Sample.client Sample.client "device"
           (Sample.env 20) (Sample.env 40) approved_db first.2 second.2 resp second.1).
  - by intros n.
  - exact approved_codes_wf.
  - exact Hrun.
  - apply surjective_pairing.
Defined.

(** When the last write of an exchange fails the code stays authorized, and it
    is exchanged a second time. *)
Example device_code_redeemed_twice :
  let P := sample_platform in
  exists k,
    let lost := Sample.env_at (20 * second) (fun n => Nat.eqb n k) in
    let first := run (ExchangeDeviceCode Sample.service Sample.client "device") lost approved_db in
    let again := run (ExchangeDeviceCode Sample.service Sample.client "device") (Sample.env 40) first.2 in
    is_ok first.1 = true /\ is_ok again.1 = true.
Proof. exists 10%nat. vm_compute. split; reflexivity. Qed.
End DeviceFacts.
