(* ===== verification/Introspect.v ===== *)
(** * oauth/introspect.go and oauth/revoke.go (RFC 7662, RFC 7009) *)
From S2P Require Import Prelude.
From S2P Require Import Errors.
From S2P Require Import GoLib.
From S2P Require Import Model.
From S2P Require Import Platform.
From S2P Require Import Exec.
From S2P Require Import Crypto.
From S2P Require Import OAuthRepo.
From S2P Require Import Scopes.
From S2P Require Import Policy.
From S2P Require Import UserSvc.
From S2P Require Import OAuth.
From S2P Require Import Token.
Local Open Scope Z_scope.

Module IntrospectResponse.
Record t := mk {
  Active : bool;
  Scope : string;
  ClientID : string;
  Username : string;
  TokenType : string;
  Exp : Z;
  Iat : Z;
  Sub : string;
  Iss : string;
  Aud : string
}.

#[global] Instance eta_t : Eta t := fun r => mk
  (r.(Active)) (r.(Scope)) (r.(ClientID)) (r.(Username)) (r.(TokenType)) (r.(Exp))
  (r.(Iat)) (r.(Sub)) (r.(Iss)) (r.(Aud)).

(** [&IntrospectResponse{Active: false}] *)
Definition inactive : t := mk false "" "" "" "" 0 0 "" "" "".
End IntrospectResponse.

(** [tokenTypeHint == "" || tokenTypeHint == kind] *)
Definition hint_allows (tokenTypeHint kind : string) : bool :=
  String.eqb tokenTypeHint "" || String.eqb tokenTypeHint kind.

(** [v, ok := claims[k].(string)] *)
Definition claim_string (claims : list (string * any)) (k : string) : option string :=
  match map_get claims k with Some (AString v) => Some v | _ => None end.

(** [v, ok := claims[k].(float64)], then [int64(v)] *)
Definition claim_int (claims : list (string * any)) (k : string) : option Z :=
  match map_get claims k with Some (AFloat v) => Some v | _ => None end.

Section introspect.
Context `{Platform} (s : Service).

(** ** Introspection *)

Definition deniedByIntrospectPolicy (tokenType : string) (tokenClientID : UUID)
    (tokenUserID : option UUID) (scopes : list string) (audience : option string)
    (requestingClientID : UUID) : M bool :=
  match s.(policyEvaluator) with
  | None => ret false
  | Some _ =>
      let uid := match tokenUserID with Some u => uuid_string u | None => "" end in
      wall <- wall_now ;;
      result <- evaluate s "introspect"
          (Inputs.BuildIntrospectInput wall tokenType (uuid_string tokenClientID) uid scopes
             audience (uuid_string requestingClientID) "") ;;
      ret (match result with Some r => r.(PolicyResult.Deny) | None => false end)
  end.

(** The username, for the client that owns the token; "" when not found. *)
Definition usernameFor (tokenUserID : option UUID) (tokenClientID requestingClientID : UUID)
    : M string :=
  match tokenUserID with
  | Some uid =>
      if N.eqb tokenClientID requestingClientID then
        u <- opt (UserSvc.GetByID uid) ;;
        ret (match u with Some u => u.(User.Email) | None => "" end)
      else ret ""
  | None => ret ""
  end.

Definition introspectJWTAccessToken (claims : list (string * any)) (issuer : string)
    (requestingClientID : UUID) : M IntrospectResponse.t :=
  let jti := get_string claims "jti" in
  revoked <- (if String.eqb jti "" then ret false
              else r <- opt (IsJTIRevoked jti) ;; ret (default false r)) ;;
  if revoked then ret IntrospectResponse.inactive
  else
    let clientIDStr := get_string claims "client_id" in
    let tokenClientID := default uuid_nil (uuid_parse clientIDStr) in
    let scopeStr := get_string claims "scope" in
    let scopes := parseSpaceDelimited scopeStr in
    let aud := claim_string claims "aud" ≫= fun a => if String.eqb a "" then None else Some a in
    let sub := claim_string claims "sub" in
    let tokenUserID := sub ≫= fun v =>
      if String.eqb v "" || String.eqb v clientIDStr then None else uuid_parse v in
    denied <- deniedByIntrospectPolicy "access_token" tokenClientID tokenUserID scopes aud
                requestingClientID ;;
    if denied then ret IntrospectResponse.inactive
    else
      username <- usernameFor tokenUserID tokenClientID requestingClientID ;;
      ret {| IntrospectResponse.Active := true;
             IntrospectResponse.Scope := scopeStr;
             IntrospectResponse.ClientID := clientIDStr;
             IntrospectResponse.Username := username;
             IntrospectResponse.TokenType := "Bearer";
             IntrospectResponse.Exp := default 0 (claim_int claims "exp");
             IntrospectResponse.Iat := default 0 (claim_int claims "iat");
             IntrospectResponse.Sub := default "" sub;
             IntrospectResponse.Iss := issuer;
             IntrospectResponse.Aud := default "" aud |}.

Definition introspectAccessToken (at_ : AccessToken.t) (issuer : string)
    (requestingClientID : UUID) : M IntrospectResponse.t :=
  wall <- wall_now ;;
  if negb (AccessToken.IsValid wall at_) then ret IntrospectResponse.inactive
  else
    denied <- deniedByIntrospectPolicy "access_token" at_.(AccessToken.ClientID)
                at_.(AccessToken.UserID) at_.(AccessToken.Scopes) at_.(AccessToken.Audience)
                requestingClientID ;;
    if denied then ret IntrospectResponse.inactive
    else
      username <- usernameFor at_.(AccessToken.UserID) at_.(AccessToken.ClientID)
                    requestingClientID ;;
      ret {| IntrospectResponse.Active := true;
             IntrospectResponse.Scope := joinScopes at_.(AccessToken.Scopes);
             IntrospectResponse.ClientID := uuid_string at_.(AccessToken.ClientID);
             IntrospectResponse.Username := username;
             IntrospectResponse.TokenType := "Bearer";
             IntrospectResponse.Exp := time_unix at_.(AccessToken.ExpiresAt);
             IntrospectResponse.Iat := time_unix at_.(AccessToken.CreatedAt);
             IntrospectResponse.Sub := match at_.(AccessToken.UserID) with
                                       | Some u => uuid_string u
                                       | None => ""
                                       end;
             IntrospectResponse.Iss := issuer;
             IntrospectResponse.Aud := default "" at_.(AccessToken.Audience) |}.

Definition introspectRefreshToken (rt : RefreshToken.t) (issuer : string)
    (requestingClientID : UUID) : M IntrospectResponse.t :=
  now <- clock_now ;;
  if rt.(RefreshToken.Revoked) || RefreshToken.WasRotated rt
     || time_before rt.(RefreshToken.ExpiresAt) now
  then ret IntrospectResponse.inactive
  else
    denied <- deniedByIntrospectPolicy "refresh_token" rt.(RefreshToken.ClientID)
                (Some rt.(RefreshToken.UserID)) rt.(RefreshToken.Scopes)
                rt.(RefreshToken.Audience) requestingClientID ;;
    if denied then ret IntrospectResponse.inactive
    else
      ret {| IntrospectResponse.Active := true;
             IntrospectResponse.Scope := joinScopes rt.(RefreshToken.Scopes);
             IntrospectResponse.ClientID := uuid_string rt.(RefreshToken.ClientID);
             IntrospectResponse.Username := "";
             IntrospectResponse.TokenType := "refresh_token";
             IntrospectResponse.Exp := time_unix rt.(RefreshToken.ExpiresAt);
             IntrospectResponse.Iat := time_unix rt.(RefreshToken.CreatedAt);
             IntrospectResponse.Sub := uuid_string rt.(RefreshToken.UserID);
             IntrospectResponse.Iss := issuer;
             IntrospectResponse.Aud := default "" rt.(RefreshToken.Audience) |}.

(** The validated claims of a token that is to be read as a JWT. *)
Definition jwtClaims (token tokenTypeHint : string) : M (option (list (string * any))) :=
  match s.(jwtSigner) with
  | Some j =>
      if hint_allows tokenTypeHint "access_token" && looksLikeJWT token
      then opt (ask (j.(ValidateAccessTokenJWT) token))
      else ret None
  | None => ret None
  end.

(** [x, err := find; err == nil && x != nil] for a kind the hint allows. *)
Definition findHinted {A} (tokenTypeHint kind : string) (find : M (option A * option error))
    : M (option A) :=
  if hint_allows tokenTypeHint kind then
    let! (found, err) := find ;;
    ret (match err with None => found | Some _ => None end)
  else ret None.

Definition Introspect (token tokenTypeHint issuer : string) (requestingClientID : UUID)
    : M IntrospectResponse.t :=
  guard (negb (String.eqb token "")) (ErrInvalidRequest "missing token") ;;;
  claims <- jwtClaims token tokenTypeHint ;;
  match claims with
  | Some claims => introspectJWTAccessToken claims issuer requestingClientID
  | None =>
      let tokenHash := HashToken token in
      at_ <- findHinted tokenTypeHint "access_token" (FindAccessToken tokenHash) ;;
      match at_ with
      | Some at_ => introspectAccessToken at_ issuer requestingClientID
      | None =>
          rt <- findHinted tokenTypeHint "refresh_token" (FindRefreshToken tokenHash) ;;
          match rt with
          | Some rt => introspectRefreshToken rt issuer requestingClientID
          | None => ret IntrospectResponse.inactive
          end
      end
  end.

(** ** Revocation *)

Definition revokeRefreshToken (rt : RefreshToken.t) : M unit :=
  or_fail (RevokeRefreshTokenFamily rt.(RefreshToken.FamilyID))
    (ErrServerError "failed to revoke refresh token") ;;;
  ignore (RevokeAccessTokensBySession rt.(RefreshToken.SessionID)).

Definition revokeAccessToken (at_ : AccessToken.t) : M unit :=
  or_fail (RevokeAccessToken at_.(AccessToken.ID)) (ErrServerError "failed to revoke access token").

(** The JWT branch; [false] when the token belongs to another client. *)
Definition denylistJWT (claims : list (string * any)) (client : OAuthClient.t) : M bool :=
  if negb (String.eqb (get_string claims "client_id") (uuid_string client.(OAuthClient.ID)))
  then ret false
  else
    let jti := get_string claims "jti" in
    now <- clock_now ;;
    let expiry := match claim_int claims "exp" with
                  | Some exp => exp * second
                  | None => time_add now (dur_mul 24 hour)
                  end in
    (if String.eqb jti "" then ret tt
     else or_fail (RevokeJTI jti expiry)
            (ErrServerError "failed to denylist jwt access token")) ;;;
    ret true.

Definition revokeStored (token tokenTypeHint : string) (client : OAuthClient.t) : M unit :=
  let tokenHash := HashToken token in
  rt <- findHinted tokenTypeHint "refresh_token" (FindRefreshToken tokenHash) ;;
  match rt with
  | Some rt =>
      if negb (N.eqb rt.(RefreshToken.ClientID) client.(OAuthClient.ID)) then ret tt
      else revokeRefreshToken rt
  | None =>
      at_ <- findHinted tokenTypeHint "access_token" (FindAccessToken tokenHash) ;;
      match at_ with
      | Some at_ =>
          if negb (N.eqb at_.(AccessToken.ClientID) client.(OAuthClient.ID)) then ret tt
          else revokeAccessToken at_
      | None => ret tt
      end
  end.

Definition Revoke (token tokenTypeHint : string) (client : OAuthClient.t) : M unit :=
  guard (negb (String.eqb token "")) (ErrInvalidRequest "missing token") ;;;
  claims <- jwtClaims token tokenTypeHint ;;
  owned <- match claims with
           | Some claims => denylistJWT claims client
           | None => ret true
           end ;;
  if owned then revokeStored token tokenTypeHint client else ret tt.

End introspect.

(** ** What introspection and revocation promise *)
Module IntrospectFacts.

Section facts.
Context `{Platform} (s : Service).

#[export] Instance deniedByIntrospectPolicy_read_only ty c u sc a r :
  ReadOnly (deniedByIntrospectPolicy s ty c u sc a r).
Proof. unfold deniedByIntrospectPolicy. solve_preserves ltac:(apply _). Qed.

#[export] Instance usernameFor_read_only u c r : ReadOnly (usernameFor u c r).
Proof. unfold usernameFor. solve_preserves ltac:(apply _). Qed.

#[export] Instance jwtClaims_read_only t h : ReadOnly (jwtClaims s t h).
Proof. unfold jwtClaims. solve_preserves ltac:(apply _). Qed.

#[export] Instance IsJTIRevoked_read_only j : ReadOnly (IsJTIRevoked j).
Proof. unfold IsJTIRevoked. solve_preserves ltac:(apply _). Qed.

(** A live access token row, a live refresh token row, a JWT the signer
    accepts and the denylist does not hold. *)
Definition live_access (wall : Z) (t : AccessToken.t) : Prop :=
  t.(AccessToken.Revoked) = false /\ wall < t.(AccessToken.ExpiresAt).

Definition live_refresh (now : Z) (t : RefreshToken.t) : Prop :=
  t.(RefreshToken.Revoked) = false /\ t.(RefreshToken.RotatedAt) = None /\
  now <= t.(RefreshToken.ExpiresAt).

Definition denylisted (wall : Z) (jti : string) (db : DB) : Prop :=
  exists r, db.(revoked_jtis) !! jti = Some r /\ wall < r.(RevokedJTI.ExpiresAt).

Lemma wp_usernameFor u c r env st (Q : result string -> State -> Prop) :
  (forall name n, (name <> "" -> c = r) -> Q (Ok name) (mkState st.(st_db) n)) ->
  wp (usernameFor u c r) Q env st.
Proof.
  intros HQ. destruct st as [db n0]. simpl in *. unfold usernameFor.
  destruct u as [uid|]; [|wp_steps; by apply HQ].
  wp_step; [|wp_steps; by apply HQ]. bool_simpl.
  do 2 wp_step. apply wp_read_only; [apply _|]. intros [x|e] n; wp_simpl; wp_step; by apply HQ.
Qed.

Lemma wp_findHinted {A} hint kind (z : A) f env st (Q : result (option A) -> State -> Prop) :
  (forall n, Q (Ok None) (mkState st.(st_db) n)) ->
  (forall x n, hint_allows hint kind = true -> f env st.(st_db) = Some x ->
     Q (Ok (Some x)) (mkState st.(st_db) n)) ->
  wp (findHinted hint kind (find_row z f)) Q env st.
Proof.
  intros Hn Hs. destruct st as [db n0]. simpl in *. unfold findHinted.
  wp_step; [|wp_step; apply Hn]. do 2 wp_step; wp_simpl; [wp_step; apply Hn|].
  wp_step. destruct (f env db) eqn:E; [by apply Hs | apply Hn].
Qed.

(** The claims the signer accepted for this token. *)
Definition jwt_accepted (token : string) (claims : list (string * any)) : Prop :=
  exists j env n db, s.(jwtSigner) = Some j /\ looksLikeJWT token = true /\
    j.(ValidateAccessTokenJWT) token env n db = Ok claims.

Lemma wp_jwtClaims token hint env st (Q : result (option (list (string * any))) -> State -> Prop) :
  (forall n, Q (Ok None) (mkState st.(st_db) n)) ->
  (forall claims n, hint_allows hint "access_token" = true -> jwt_accepted token claims ->
     Q (Ok (Some claims)) (mkState st.(st_db) n)) ->
  wp (jwtClaims s token hint) Q env st.
Proof.
  intros Hn Hs. destruct st as [db n0]. simpl in *. unfold jwtClaims, jwt_accepted in *.
  destruct (jwtSigner s) as [j|] eqn:Ej; [|wp_step; apply Hn].
  wp_step; [|wp_step; apply Hn]. do 2 wp_step. wp_simpl. bool_simpl.
  destruct (ValidateAccessTokenJWT j token env n0 db) as [claims|e] eqn:E; [|apply Hn].
  apply Hs; [done|]. by exists j, env, n0, db.
Qed.

(** What an active answer says of the token: of a JWT, of a stored access
    token, of a refresh token.  A fault may hide the denylist. *)
Definition jwt_answer (requesting : UUID) (iss : string) (claims : list (string * any))
    (env : Env) (db : DB) (resp : IntrospectResponse.t) : Prop :=
  resp.(IntrospectResponse.Active) = true /\ resp.(IntrospectResponse.Iss) = iss /\
  resp.(IntrospectResponse.ClientID) = get_string claims "client_id" /\
  resp.(IntrospectResponse.Scope) = get_string claims "scope" /\
  (resp.(IntrospectResponse.Username) <> "" ->
     default uuid_nil (uuid_parse (get_string claims "client_id")) = requesting) /\
  ((exists n, env.(env_fail) n = true) \/ get_string claims "jti" = "" \/
   ~ denylisted env.(env_wall) (get_string claims "jti") db).

Definition access_answer (requesting : UUID) (iss : string) (t : AccessToken.t)
    (env : Env) (resp : IntrospectResponse.t) : Prop :=
  live_access env.(env_wall) t /\
  resp.(IntrospectResponse.Active) = true /\ resp.(IntrospectResponse.Iss) = iss /\
  resp.(IntrospectResponse.ClientID) = uuid_string t.(AccessToken.ClientID) /\
  resp.(IntrospectResponse.Scope) = joinScopes t.(AccessToken.Scopes) /\
  resp.(IntrospectResponse.Exp) = time_unix t.(AccessToken.ExpiresAt) /\
  (resp.(IntrospectResponse.Username) <> "" -> t.(AccessToken.ClientID) = requesting).

Definition refresh_answer (iss : string) (t : RefreshToken.t) (env : Env)
    (resp : IntrospectResponse.t) : Prop :=
  live_refresh env.(env_now) t /\
  resp.(IntrospectResponse.Active) = true /\ resp.(IntrospectResponse.Iss) = iss /\
  resp.(IntrospectResponse.ClientID) = uuid_string t.(RefreshToken.ClientID) /\
  resp.(IntrospectResponse.Scope) = joinScopes t.(RefreshToken.Scopes) /\
  resp.(IntrospectResponse.Exp) = time_unix t.(RefreshToken.ExpiresAt) /\
  resp.(IntrospectResponse.Username) = "".

(** The shape the three branches share. *)
Definition answers (good : IntrospectResponse.t -> Prop) (db : DB)
    (r : result IntrospectResponse.t) (st' : State) : Prop :=
  st'.(st_db) = db /\
  match r with
  | Ok resp => resp = IntrospectResponse.inactive \/ good resp
  | Err _ => False
  end.

Ltac wp_hook ::=
  lazymatch goal with
  | |- wp (usernameFor _ _ _) _ _ _ => apply wp_usernameFor; intros ? ? ?
  | |- wp (deniedByIntrospectPolicy _ _ _ _ _ _ _) _ _ _ =>
      unfold deniedByIntrospectPolicy
  | |- wp (evaluate _ _ _) _ _ _ => unfold evaluate
  end.

Lemma introspectAccessToken_answer t iss requesting env st :
  wp (introspectAccessToken s t iss requesting)
    (answers (access_answer requesting iss t env) st.(st_db)) env st.
Proof.
  unfold introspectAccessToken, AccessToken.IsValid, time_after. destruct st as [db n0].
  wp_steps; (split; [done|]); try (by left); right; unfold access_answer, live_access; bool_simpl.
  all: match goal with H : _ && _ = true |- _ => apply andb_true_iff in H as [? ?] | _ => idtac end;
    bool_simpl; by split_and!.
Qed.

Lemma introspectRefreshToken_answer t iss requesting env st :
  wp (introspectRefreshToken s t iss requesting)
    (answers (refresh_answer iss t env) st.(st_db)) env st.
Proof.
  unfold introspectRefreshToken, RefreshToken.WasRotated, time_before. destruct st as [db n0].
  wp_steps; (split; [done|]); try (by left); right; unfold refresh_answer, live_refresh; bool_simpl.
  all: destruct (RefreshToken.RotatedAt t); [done|]; by split_and!.
Qed.

Lemma wp_jti_lookup jti env st (Q : result bool -> State -> Prop) :
  (forall n, (exists k, env.(env_fail) k = true) \/ jti = "" \/ ~ denylisted env.(env_wall) jti st.(st_db) ->
     Q (Ok false) (mkState st.(st_db) n)) ->
  (forall n, Q (Ok true) (mkState st.(st_db) n)) ->
  wp (if String.eqb jti "" then ret false
      else r <- opt (IsJTIRevoked jti) ;; ret (default false r)) Q env st.
Proof.
  intros Hf Ht. destruct st as [db n0]. simpl in *. unfold IsJTIRevoked, denylisted in *.
  wp_step; [wp_step; bool_simpl; apply Hf; by right; left|].
  do 3 wp_step; wp_simpl; wp_step; simpl; [apply Hf; left; by eexists|].
  destruct (revoked_jtis db !! jti) as [r|] eqn:E.
  - unfold time_after. destruct (_ <? _) eqn:El; [apply Ht|]. bool_simpl.
    apply Hf. right; right. intros (r' & [= <-] & Hr'). lia.
  - apply Hf. right; right. by intros (r' & ? & _).
Qed.

Lemma introspectJWT_answer claims iss requesting env st :
  wp (introspectJWTAccessToken s claims iss requesting)
    (answers (jwt_answer requesting iss claims env st.(st_db)) st.(st_db)) env st.
Proof.
  unfold introspectJWTAccessToken. cbv zeta. apply wp_bind, wp_jti_lookup.
  - intros n Hj. wp_simpl. unfold deniedByIntrospectPolicy.
    wp_steps; (split; [done|]); try (by left); right; unfold jwt_answer; by split_and!.
  - intros n. wp_simpl. wp_step. by split; [|left].
Qed.

(** C15: Introspection reads only.  A token it reports active is a JWT whose
    signature is accepted and which is not denylisted, a live access token
    row, or a live refresh token row, of a kind the hint allows; the username
    is told only to the client the token belongs to. *)
Theorem Introspect_spec (token hint iss : string) (requesting : UUID) (env : Env) (st : State) :
  wp (Introspect s token hint iss requesting)
    (fun r st' =>
       st'.(st_db) = st.(st_db) /\
       match r with
       | Err e => token = "" /\ error_code e = "invalid_request"
       | Ok resp =>
           resp = IntrospectResponse.inactive \/
           (hint_allows hint "access_token" = true /\
            ((exists claims, jwt_accepted token claims /\
                jwt_answer requesting iss claims env st.(st_db) resp) \/
             (exists t, st.(st_db).(access_tokens) !! HashToken token = Some t /\
                access_answer requesting iss t env resp))) \/
           (hint_allows hint "refresh_token" = true /\
            exists t, st.(st_db).(refresh_tokens) !! HashToken token = Some t /\
              refresh_answer iss t env resp)
       end) env st.
Proof.
  unfold Introspect, FindAccessToken, FindRefreshToken. wp_step.
  wp_step; [|by bool_simpl]. wp_simpl. wp_step. apply wp_jwtClaims.
  - intros n. wp_simpl. wp_step. apply wp_findHinted.
    + intros n1. wp_simpl. wp_step. apply wp_findHinted; [intros n2; wp_simpl; wp_step; by split; [|left]|].
      intros t n2 Hh Ht. wp_simpl. eapply wp_mono; [|apply introspectRefreshToken_answer].
      intros [resp|e] st' [Hdb Hr]; [|done]. split; [done|]. naive_solver.
    + intros t n1 Hh Ht. wp_simpl. eapply wp_mono; [|apply introspectAccessToken_answer].
      intros [resp|e] st' [Hdb Hr]; [|done]. split; [done|]. naive_solver.
  - intros claims n Hh Hj. wp_simpl. eapply wp_mono; [|apply introspectJWT_answer].
    intros [resp|e] st' [Hdb Hr]; [|done]. split; [done|]. naive_solver.
Qed.
(** ** Revocation *)

Definition in_family (f : UUID) (t : RefreshToken.t) : bool :=
  N.eqb t.(RefreshToken.FamilyID) f && negb t.(RefreshToken.Revoked).

Definition in_session (sid : UUID) (t : AccessToken.t) : bool :=
  opt_uuid_eqb t.(AccessToken.SessionID) sid && negb t.(AccessToken.Revoked).

(** What revoking a refresh token row does; the cascade to the session's access
    tokens is attempted, and its outcome is not looked at. *)
Definition family_revoked (env : Env) (rt : RefreshToken.t) (db db' : DB) : Prop :=
  let db1 := db <| refresh_tokens ::= update_rows (in_family rt.(RefreshToken.FamilyID)) revoke_rt |> in
  db' = db1 <| access_tokens ::= update_rows (in_session rt.(RefreshToken.SessionID)) revoke_at |> \/
  (db' = db1 /\ exists n, env.(env_fail) n = true).

Lemma wp_revokeRefreshToken rt env st (Q : result unit -> State -> Prop) :
  (forall e n, env.(env_fail) st.(st_step) = true -> Q (Err e) (mkState st.(st_db) n)) ->
  (forall db' n, family_revoked env rt st.(st_db) db' -> Q (Ok tt) (mkState db' n)) ->
  wp (revokeRefreshToken rt) Q env st.
Proof.
  intros He Hok. unfold revokeRefreshToken, RevokeRefreshTokenFamily, RevokeAccessTokensBySession.
  do 3 wp_step; wp_simpl; [by apply He|]. do 2 wp_step; apply Hok; [right|by left].
  split; [done | by eexists].
Qed.

(** Either nothing was revoked, or a token of the client was: a refresh token,
    with its family and its session's access tokens, or an access token. *)
Definition revocation (env : Env) (client : OAuthClient.t) (hint h : string) (db db' : DB) : Prop :=
  db' = db \/
  (exists rt, hint_allows hint "refresh_token" = true /\ db.(refresh_tokens) !! h = Some rt /\
     rt.(RefreshToken.ClientID) = client.(OAuthClient.ID) /\ family_revoked env rt db db') \/
  (exists t, hint_allows hint "access_token" = true /\ db.(access_tokens) !! h = Some t /\
     t.(AccessToken.ClientID) = client.(OAuthClient.ID) /\
     db' = db <| access_tokens ::= alter revoke_at t.(AccessToken.ID) |>).

Lemma wp_revokeStored token hint client env st (Q : result unit -> State -> Prop) :
  (forall r db' n, revocation env client hint (HashToken token) st.(st_db) db' -> Q r (mkState db' n)) ->
  wp (revokeStored token hint client) Q env st.
Proof.
  intros HQ. unfold revokeStored, FindRefreshToken, FindAccessToken.
  assert (Hsame : forall r n, Q r (mkState st.(st_db) n)) by (intros; apply HQ; by left).
  wp_step. apply wp_findHinted.
  - intros n. wp_simpl. wp_step. apply wp_findHinted; [intros; wp_simpl; wp_step; apply Hsame|].
    intros t n1 Hh Ht. wp_simpl. wp_step; [wp_step; apply Hsame|]. bool_simpl.
    unfold revokeAccessToken, RevokeAccessToken. do 2 wp_step; [apply Hsame|].
    apply HQ. right; right. by exists t.
  - intros rt n Hh Hrt. wp_simpl. wp_step; [wp_step; apply Hsame|]. bool_simpl.
    apply wp_revokeRefreshToken; [intros; apply Hsame|]. intros db' n' Hf. apply HQ.
    right; left. by exists rt.
Qed.

(** The denylist may have been extended first, for a JWT that names the client. *)
Definition revoke_outcome (env : Env) (client : OAuthClient.t) (token hint : string) (db db' : DB) : Prop :=
  exists jtis,
    revocation env client hint (HashToken token) (db <| revoked_jtis := jtis |>) db' /\
    (jtis = db.(revoked_jtis) \/
     exists claims, jwt_accepted token claims /\
       get_string claims "client_id" = uuid_string client.(OAuthClient.ID)).

Lemma stored_outcome env client token hint db db' :
  revocation env client hint (HashToken token) db db' -> revoke_outcome env client token hint db db'.
Proof.
  intros Hr. exists db.(revoked_jtis). split; [|by left].
  by replace (db <| revoked_jtis := db.(revoked_jtis) |>) with db by by destruct db.
Qed.

(** Revocation touches only tokens of the client that asks: whatever the
    outcome, apart from the denylist, either the database is as before or the
    revoked token belongs to the client.  The denylist changes only for a JWT
    that names the client. *)
Theorem Revoke_spec (token hint : string) (client : OAuthClient.t) (env : Env) (st : State) :
  wp (Revoke s token hint client)
    (fun _ st' => revoke_outcome env client token hint st.(st_db) st'.(st_db)) env st.
Proof.
  assert (Hsame : revoke_outcome env client token hint st.(st_db) st.(st_db))
    by (apply stored_outcome; by left).
  unfold Revoke. wp_step. wp_step; [|done]. wp_simpl. wp_step. apply wp_jwtClaims.
  - intros n. wp_simpl. do 2 wp_step. wp_simpl. apply wp_revokeStored. intros. by apply stored_outcome.
  - intros claims n _ Hj. wp_simpl. unfold denylistJWT. wp_step. wp_step; [by do 2 wp_step|].
    bool_simpl. wp_step. wp_step. wp_simpl. cbv zeta. wp_step. unfold RevokeJTI. wp_step.
    + wp_step. wp_simpl. wp_step. wp_simpl. apply wp_revokeStored. intros. by apply stored_outcome.
    + do 2 wp_step; wp_simpl; [done|]. wp_step. wp_simpl.
      apply wp_revokeStored. intros r db' n' Hr. cbn [st_db] in Hr.
      eexists. split; [exact Hr|]. right. by exists claims.
Qed.

(** Revoking one's own refresh token, when no statement fails, kills its whole
    family, every access token of its session, and the token itself for the
    refresh grant. *)
Theorem Revoke_refresh_cascade (Hres : forall v, s.(resourceValidator) = Some v ->
      TokenFacts.ResourceValidatorLaws v)
    (raw hint : string) (client : OAuthClient.t) (rt : RefreshToken.t) (env : Env) (db : DB) :
  no_faults env -> raw <> "" -> looksLikeJWT raw = false ->
  hint_allows hint "refresh_token" = true ->
  db.(refresh_tokens) !! HashToken raw = Some rt ->
  rt.(RefreshToken.ClientID) = client.(OAuthClient.ID) ->
  exists db', run (Revoke s raw hint client) env db = (Ok tt, db') /\
    (forall h t, db'.(refresh_tokens) !! h = Some t ->
       t.(RefreshToken.FamilyID) = rt.(RefreshToken.FamilyID) -> t.(RefreshToken.Revoked) = true) /\
    (forall h t, db'.(access_tokens) !! h = Some t ->
       t.(AccessToken.SessionID) = Some rt.(RefreshToken.SessionID) -> t.(AccessToken.Revoked) = true) /\
    (forall client' scope env' r db'',
       run (ExchangeRefreshToken s client' raw scope) env' db' = (r, db'') -> exists e, r = Err e).
Proof.
  intros Hnf Hraw Hjwt Hh Hrt Hc.
  set (db' := db <| refresh_tokens ::= update_rows (in_family rt.(RefreshToken.FamilyID)) revoke_rt |>
                 <| access_tokens ::= update_rows (in_session rt.(RefreshToken.SessionID)) revoke_at |>).
  assert (Hfam : forall h t, db'.(refresh_tokens) !! h = Some t ->
    t.(RefreshToken.FamilyID) = rt.(RefreshToken.FamilyID) -> t.(RefreshToken.Revoked) = true).
  { intros h t. change (refresh_tokens db') with
      (update_rows (in_family rt.(RefreshToken.FamilyID)) revoke_rt db.(refresh_tokens)).
    rewrite lookup_update_rows. destruct (refresh_tokens db !! h) as [t0|]; [|done]. simpl.
    unfold in_family. destruct (_ && _) eqn:E; intros [= <-] Hf; [done|].
    rewrite Hf, N.eqb_refl in E. by destruct (RefreshToken.Revoked t0). }
  exists db'. split_and!; [|exact Hfam| |].
  - assert (Hclaims : forall st, jwtClaims s raw hint env st = (Ok None, st)).
    { intros st. unfold jwtClaims. destruct (jwtSigner s); [|done]. by rewrite Hjwt, andb_false_r. }
    unfold run, Revoke, revokeStored, findHinted, FindRefreshToken, find_row, bind.
    apply String.eqb_neq in Hraw. rewrite Hraw. cbn. rewrite Hclaims, Hh. cbn.
    rewrite Hnf, Hrt. cbn. rewrite Hc, N.eqb_refl. cbn.
    unfold revokeRefreshToken, RevokeRefreshTokenFamily, RevokeAccessTokensBySession, update_table,
      ignore, attempt, or_fail, stmt, bind. cbn. rewrite Hnf. cbn. by rewrite Hnf.
  - intros h t. change (access_tokens db') with
      (update_rows (in_session rt.(RefreshToken.SessionID)) revoke_at db.(access_tokens)).
    rewrite lookup_update_rows. destruct (access_tokens db !! h) as [t0|]; [|done]. simpl.
    unfold in_session. destruct (_ && _) eqn:E; intros [= <-] Hf; [done|].
    rewrite Hf in E. simpl in E. rewrite N.eqb_refl in E. by destruct (AccessToken.Revoked t0).
  - intros client' scope env' r db'' Hr.
    destruct (wp_run env' _ _ _ (TokenFacts.wp_ExchangeRefreshToken s Hres client' raw scope env' (mkState db' 0)) _ _ Hr)
      as (n & H2). destruct r as [resp|e]; [exfalso | by eexists].
    destruct H2 as (old & _ & _ & _ & _ & Hold & _ & _ & Hrev & _). simpl in Hold.
    rewrite (Hfam _ _ Hold) in Hrev; [done|].
    change (refresh_tokens db') with
      (update_rows (in_family rt.(RefreshToken.FamilyID)) revoke_rt db.(refresh_tokens)) in Hold.
    rewrite lookup_update_rows, Hrt in Hold. simpl in Hold.
    destruct (in_family _ rt); by injection Hold as <-.
Qed.
End facts.

(** ** Witness, and a revoked JWT *)

Lemma Revoke_refresh_cascade_witness :
  let P := sample_platform in
  exists db', run (Revoke Sample.service "rt" "" Sample.client) (Sample.env 10) TokenFacts.sample_db = (Ok tt, db') /\
    (forall client' scope env' r db'',
       run (ExchangeRefreshToken Sample.service client' "rt" scope) env' db' = (r, db'') -> exists e, r = Err e).
Proof.
  intros P.
  assert (Hnf : no_faults (Sample.env 10)) by by intros n.
  assert (Hrow : TokenFacts.sample_db.(refresh_tokens) !! HashToken "rt" = Some TokenFacts.sample_refresh)
    by (apply lookup_singleton_eq).
  destruct (Revoke_refresh_cascade Sample.service TokenFacts.sample_laws "rt" "" Sample.client
              TokenFacts.sample_refresh (Sample.env 10) TokenFacts.sample_db Hnf ltac:(done) eq_refl
              eq_refl Hrow eq_refl) as (db' & Hrun & _ & _ & Hdead).
  exists db'. split; [exact Hrun | exact Hdead].
Defined.

(** A JWT access token and the refresh token issued with it. *)
Definition signer : AccessTokenJWTSigner :=
  mkSigner (fun _ _ _ _ _ => Ok ("a.b.c", "jti"))
    (fun token _ _ _ => if String.eqb token "a.b.c"
                        then Ok [("jti", AString "jti"); ("client_id", AString "client")]
                        else Err (EOther "bad token")).

Definition jwt_service : Service := mkService
  Sample.service.(userService) Sample.service.(sessionService) Sample.service.(cfg)
  Sample.service.(issuer) None (Some signer) None None None None None.

Definition jwt_db : DB :=
  TokenFacts.sample_db <| access_tokens := {[ HashToken "a.b.c" :=
    AccessToken.zero <| AccessToken.ID := HashToken "a.b.c" |> <| AccessToken.ClientID := 77%N |>
      <| AccessToken.SessionID := Some 9%N |> <| AccessToken.JTI := Some "jti" |>
      <| AccessToken.ExpiresAt := 100 * second |> ]} |>.

(** Once its refresh token is revoked the access token is refused as a bearer
    token, and introspection still reports it active: the JWT branch does not
    read its row. *)
Example revoked_jwt_introspects_active :
  let P := sample_platform in
  let db1 := (run (Revoke jwt_service "rt" "" Sample.client) (Sample.env 10) jwt_db).2 in
  (run (LookupActiveAccessToken "a.b.c") (Sample.env 11) db1).1 = Ok None /\
  match (run (Introspect jwt_service "a.b.c" "" "iss" 77) (Sample.env 11) db1).1 with
  | Ok resp => resp.(IntrospectResponse.Active) = true
  | Err _ => False
  end.
Proof. vm_compute. split; reflexivity. Qed.
End IntrospectFacts.
