(* ===== verification/AuthFacts.v ===== *)
(** * The life of an authorization request

    What a step may do to a row, to the table and to the codes, the completion
    of a request, and the histories of steps. *)
From S2P Require Import Prelude.
From S2P Require Import Errors.
From S2P Require Import GoLib.
From S2P Require Import Model.
From S2P Require Import Platform.
From S2P Require Import Config.
From S2P Require Import Exec.
From S2P Require Import Crypto.
From S2P Require Import SessionSvc.
From S2P Require Import OAuthRepo.
From S2P Require Import Scopes.
From S2P Require Import Policy.
From S2P Require Import ActionToken.
From S2P Require Import UserSvc.
From S2P Require Import MfaSvc.
From S2P Require Import OAuth.
From S2P Require Import Token.
From S2P Require Import Json.
From S2P Require Import Authorize.
From S2P Require Import AuthSteps.
Local Open Scope Z_scope.

Abbreviation requests := (gmap UUID AuthorizationRequest.t).

(** ** The invariant of the table and what a step may do to a row *)

(** A request that is authenticated has a user; one whose consent is given is
    authenticated. *)
Definition row_ok (r : AuthorizationRequest.t) : Prop :=
  (r.(AuthorizationRequest.Authenticated) = true -> is_Some r.(AuthorizationRequest.UserID)) /\
  (r.(AuthorizationRequest.ConsentGiven) = true -> r.(AuthorizationRequest.Authenticated) = true).

Definition requests_wf (t : requests) : Prop :=
  forall id r, t !! id = Some r -> r.(AuthorizationRequest.ID) = id /\ row_ok r.

(** What the parameters fixed stays; scopes only shrink; an authenticated
    request stays authenticated, for the same user. *)
Record follows (r r' : AuthorizationRequest.t) : Prop := {
  follows_id : r'.(AuthorizationRequest.ID) = r.(AuthorizationRequest.ID);
  follows_client : r'.(AuthorizationRequest.ClientID) = r.(AuthorizationRequest.ClientID);
  follows_uri : r'.(AuthorizationRequest.RedirectURI) = r.(AuthorizationRequest.RedirectURI);
  follows_type : r'.(AuthorizationRequest.ResponseType) = r.(AuthorizationRequest.ResponseType);
  follows_nonce : r'.(AuthorizationRequest.Nonce) = r.(AuthorizationRequest.Nonce);
  follows_challenge : r'.(AuthorizationRequest.CodeChallenge) = r.(AuthorizationRequest.CodeChallenge);
  follows_audience : r'.(AuthorizationRequest.Audience) = r.(AuthorizationRequest.Audience);
  follows_scopes : forall x, x ∈ r'.(AuthorizationRequest.Scopes) -> x ∈ r.(AuthorizationRequest.Scopes);
  follows_user : r.(AuthorizationRequest.Authenticated) = true ->
    r'.(AuthorizationRequest.Authenticated) = true /\
    r'.(AuthorizationRequest.UserID) = r.(AuthorizationRequest.UserID)
}.

#[export] Instance follows_preorder : PreOrder follows.
Proof.
  split; [by intros r|]. intros r r' r'' H1 H2. destruct H1, H2.
  split; try congruence; [by auto|]. intros Ha.
  destruct (follows_user0 Ha) as [Ha' <-]. auto.
Qed.

(** The code is bound to the request: its client, redirect URI, challenge and
    audience, and no scope the request did not have. *)
Record issued_for (r : AuthorizationRequest.t) (c : AuthorizationCode.t) : Prop := {
  issued_client : c.(AuthorizationCode.ClientID) = r.(AuthorizationRequest.ClientID);
  issued_uri : c.(AuthorizationCode.RedirectURI) = r.(AuthorizationRequest.RedirectURI);
  issued_challenge : c.(AuthorizationCode.CodeChallenge) = r.(AuthorizationRequest.CodeChallenge);
  issued_audience : c.(AuthorizationCode.Audience) = r.(AuthorizationRequest.Audience);
  issued_scopes : forall x, x ∈ c.(AuthorizationCode.Scopes) -> x ∈ r.(AuthorizationRequest.Scopes);
  issued_user : r.(AuthorizationRequest.Authenticated) = true ->
    r.(AuthorizationRequest.UserID) = Some c.(AuthorizationCode.UserID)
}.

Lemma follows_issued r r' c : follows r r' -> issued_for r' c -> issued_for r c.
Proof.
  intros [] []. split; try congruence; [by auto|].
  intros Ha. destruct (follows_user0 Ha) as [Ha' <-]. auto.
Qed.

(** A step adds no request, each it leaves follows the one it was, and each code
    it adds is bound to a request there was. *)
Definition advances (d d' : DB) : Prop :=
  requests_wf d.(authorization_requests) ->
  requests_wf d'.(authorization_requests) /\
  (forall id r', d'.(authorization_requests) !! id = Some r' ->
    exists r, d.(authorization_requests) !! id = Some r /\ follows r r') /\
  (forall h c, d'.(authorization_codes) !! h = Some c ->
    d.(authorization_codes) !! h = Some c \/
    exists id r, d.(authorization_requests) !! id = Some r /\ issued_for r c).

#[export] Instance advances_preorder : PreOrder advances.
Proof.
  split.
  - intros d Hwf. split_and!; [done | | by left]. intros id r Hr. by exists r.
  - intros d d' d'' H1 H2 Hwf. destruct (H1 Hwf) as (Hwf' & Ha & Hc).
    destruct (H2 Hwf') as (Hwf'' & Ha' & Hc'). split_and!; [done | |].
    + intros id r'' (r' & (r & Hr & Hf)%Ha & Hf')%Ha'. exists r. split; [done|]. by etrans.
    + intros h c [Hin%Hc | (id & r' & (r & Hr & Hf)%Ha & Hi)]%Hc'; [done|].
      right. exists id, r. split; [done|]. by eapply follows_issued.
Qed.

(** What the completion of [req] does: requests are only deleted, and codes are
    added for [req] only. *)
Definition completes (req : AuthorizationRequest.t) (d d' : DB) : Prop :=
  (forall id r, d'.(authorization_requests) !! id = Some r -> d.(authorization_requests) !! id = Some r) /\
  (forall h c, d'.(authorization_codes) !! h = Some c ->
     d.(authorization_codes) !! h = Some c \/ issued_for req c).

#[export] Instance completes_preorder req : PreOrder (completes req).
Proof.
  split; [by split; [|left]|]. intros d d' d'' [H1 H2] [H1' H2']. split; [by auto|].
  intros h c [Hc|Hc]%H2'; auto.
Qed.

Lemma completes_advances req id d d' :
  d.(authorization_requests) !! id = Some req -> completes req d d' -> advances d d'.
Proof.
  intros Hreq [Hd Hc] Hwf. split_and!.
  - intros k r Hr. by apply Hwf, Hd.
  - intros k r Hr%Hd. by exists r.
  - intros h c [?|Hi]%Hc; [by left | right; by exists id, req].
Qed.

Definition requests_codes (d : DB) := (d.(authorization_requests), d.(authorization_codes)).

Lemma same_completes req d d' : same requests_codes d d' -> completes req d d'.
Proof. intros [= Hr Hc]. unfold completes. rewrite Hr, Hc. split; [done | by left]. Qed.

Lemma same_advances d d' : same requests_codes d d' -> advances d d'.
Proof.
  intros [= Hr Hc] Hwf. rewrite Hr, Hc. split_and!; [done | | by left]. intros id r H. by exists r.
Qed.

(** Writing back a row read before. *)
Lemma save_advances d d1 d' id r r' :
  d.(authorization_requests) !! id = Some r ->
  same requests_codes d d1 ->
  d'.(authorization_requests) = <[r.(AuthorizationRequest.ID) := r']> d1.(authorization_requests) ->
  d'.(authorization_codes) = d1.(authorization_codes) ->
  follows r r' -> row_ok r' -> advances d d'.
Proof.
  intros Hr [= Hs Hsc] He Hec Hf Hok Hwf. rewrite He, Hs, Hec, Hsc. clear He Hec.
  destruct (Hwf _ _ Hr) as [Hid _]. rewrite Hid. split_and!; [| | by left].
  - intros k x. rewrite lookup_insert_Some. intros [[<- <-]|[_ Hx]]; [|by apply Hwf].
    split; [|done]. by rewrite (follows_id _ _ Hf).
  - intros k x. rewrite lookup_insert_Some. intros [[<- <-]|[_ Hx]]; [by exists r | by exists x].
Qed.

Section lemmas.
Context `{Platform} `{JwtLib} (s : Service).

(** ** Rules for the parts of the steps *)

Lemma wp_FindAuthRequest id env st
    (Q : result (option AuthorizationRequest.t * option error) -> State -> Prop) :
  Q (Ok (Some AuthorizationRequest.zero, Some driver_error)) (bump st) ->
  (forall req, st.(st_db).(authorization_requests) !! id = Some req ->
     env.(env_wall) < req.(AuthorizationRequest.ExpiresAt) -> Q (Ok (Some req, None)) (bump st)) ->
  Q (Ok (None, None)) (bump st) ->
  wp (FindAuthRequest id) Q env st.
Proof.
  intros He Hs Hn. apply wp_find_row; intros _; [done|].
  destruct (authorization_requests st.(st_db) !! id) as [r|]; simpl; [|done].
  unfold time_after. destruct (_ <? _) eqn:E; [|done]. bool_simpl. by apply Hs.
Qed.

Lemma wp_liveRequest id msg env st (Q : result AuthorizationRequest.t -> State -> Prop) :
  (forall e n, Q (Err e) (mkState st.(st_db) n)) ->
  (forall req n, st.(st_db).(authorization_requests) !! id = Some req ->
     env.(env_wall) < req.(AuthorizationRequest.ExpiresAt) -> Q (Ok req) (mkState st.(st_db) n)) ->
  wp (liveRequest id msg) Q env st.
Proof.
  intros He Hok. unfold liveRequest. wp_step. apply wp_FindAuthRequest.
  - wp_steps. apply He.
  - intros req Hr Hw. wp_simpl. wp_steps; [by apply Hok | apply He].
  - wp_steps. apply He.
Qed.

(** The row as it is saved. *)
Definition touched (wall : Z) (req : AuthorizationRequest.t) : AuthorizationRequest.t :=
  req <| AuthorizationRequest.UpdatedAt := wall |>.

Lemma wp_saveRequest req env st (Q : result AuthorizationRequest.t -> State -> Prop) :
  (forall e n, Q (Err e) (mkState st.(st_db) n)) ->
  (forall n, let row := touched env.(env_wall) req in
     Q (Ok row) (mkState (st.(st_db) <| authorization_requests ::=
                            insert req.(AuthorizationRequest.ID) row |>) n)) ->
  wp (saveRequest req) Q env st.
Proof. intros He Hok. unfold saveRequest, UpdateAuthRequest. wp_steps; [apply He | apply Hok]. Qed.

#[export] Instance consentCovers_read_only u c sc : ReadOnly (consentCovers u c sc).
Proof. unfold consentCovers. solve_preserves ltac:(apply _). Qed.

#[export] Instance loginPolicy_read_only u c ip ua : ReadOnly (loginPolicy s u c ip ua).
Proof. unfold loginPolicy. solve_preserves ltac:(apply _). Qed.

#[export] Instance mfaPolicy_read_only u c sc h ip ua : ReadOnly (mfaPolicy s u c sc h ip ua).
Proof. unfold mfaPolicy. solve_preserves ltac:(apply _). Qed.

#[export] Instance consentPolicy_read_only r u g ip ua : ReadOnly (consentPolicy s r u g ip ua).
Proof. unfold consentPolicy. solve_preserves ltac:(apply _). Qed.

#[export] Instance mfaConsent_read_only r u : ReadOnly (mfaConsent r u).
Proof. unfold mfaConsent. solve_preserves ltac:(apply _). Qed.

#[export] Instance CreateSession_only_sessions i :
  Preserves (same (fun d => d <| sessions := ∅ |>)) (SessionSvc.Create s.(sessionService) i).
Proof.
  unfold SessionSvc.Create, SessionRepo.Create, GenerateOpaqueToken.
  solve_preserves ltac:(first
    [apply preserves_read_only; side; solve [apply _]
    | apply (preserves_create_in (same (fun d => d <| sessions := ∅ |>))); side; done]).
Qed.

End lemmas.

(** ** Completion: the code *)

(** The code a completion stored under the digest of the code it returned. *)
Definition code_issued (s : Service) (env : Env) (req : AuthorizationRequest.t) (db db' : DB)
    (resp : AuthorizeConsentResponse.t) : Prop :=
  exists c, c.(AuthorizationCode.Used) = false /\
    req.(AuthorizationRequest.UserID) = Some c.(AuthorizationCode.UserID) /\
    c.(AuthorizationCode.ClientID) = req.(AuthorizationRequest.ClientID) /\
    c.(AuthorizationCode.RedirectURI) = req.(AuthorizationRequest.RedirectURI) /\
    c.(AuthorizationCode.Scopes) = req.(AuthorizationRequest.Scopes) /\
    c.(AuthorizationCode.Audience) = req.(AuthorizationRequest.Audience) /\
    c.(AuthorizationCode.CodeChallenge) = req.(AuthorizationRequest.CodeChallenge) /\
    c.(AuthorizationCode.ExpiresAt) = env.(env_now) + s.(cfg).(AuthConfig.AuthCodeTTL) /\
    is_Some c.(AuthorizationCode.SessionID) /\
    db.(authorization_codes) !! HashToken resp.(AuthorizeConsentResponse.Code) = None /\
    db'.(authorization_codes)
      = <[HashToken resp.(AuthorizeConsentResponse.Code) := c]> db.(authorization_codes) /\
    db'.(refresh_tokens) = db.(refresh_tokens) /\
    (req.(AuthorizationRequest.ResponseType) = "code" -> db'.(access_tokens) = db.(access_tokens)) /\
    resp.(AuthorizeConsentResponse.RedirectURI) = req.(AuthorizationRequest.RedirectURI) /\
    resp.(AuthorizeConsentResponse.State) = str_or_empty req.(AuthorizationRequest.State) /\
    resp.(AuthorizeConsentResponse.Issuer) = s.(issuer).

Section complete.
Context `{Platform} `{JwtLib} (s : Service).

#[export] Instance computeSessionState_read_only a b c : ReadOnly (computeSessionState a b c).
Proof. unfold computeSessionState, GenerateRandomString. solve_preserves ltac:(apply _). Qed.

#[export] Instance hybridIDToken_read_only req u raw resp : ReadOnly (hybridIDToken s req u raw resp).
Proof. unfold hybridIDToken. solve_preserves ltac:(apply _). Qed.

Lemma wp_hybridAccessToken req sess resp env st
    (Q : result AuthorizeConsentResponse.t -> State -> Prop) :
  (forall e n, Q (Err e) (mkState st.(st_db) n)) ->
  (forall resp' t n,
     resp'.(AuthorizeConsentResponse.Code) = resp.(AuthorizeConsentResponse.Code) ->
     resp'.(AuthorizeConsentResponse.RedirectURI) = resp.(AuthorizeConsentResponse.RedirectURI) ->
     resp'.(AuthorizeConsentResponse.State) = resp.(AuthorizeConsentResponse.State) ->
     resp'.(AuthorizeConsentResponse.Issuer) = resp.(AuthorizeConsentResponse.Issuer) ->
     Q (Ok resp') (mkState (st.(st_db) <| access_tokens := t |>) n)) ->
  wp (hybridAccessToken req sess resp) Q env st.
Proof.
  intros He Hok.
  assert (Hsame : st.(st_db) = st.(st_db) <| access_tokens := st.(st_db).(access_tokens) |>)
    by by destruct st as [[] ?].
  unfold hybridAccessToken. wp_step.
  2:{ wp_step. destruct st as [db n]. simpl in *. rewrite Hsame. by apply Hok. }
  do 2 wp_step. apply wp_read_only; [apply _|]. intros [client|e] n; wp_simpl; [|done].
  do 2 wp_step. apply wp_GenerateOpaqueToken; [intros; apply He|]. intros raw _ _. wp_simpl.
  unfold CreateAccessToken. wp_steps; try apply He. by apply Hok.
Qed.

Lemma wp_hybridIDToken req u raw resp env st (Q : result AuthorizeConsentResponse.t -> State -> Prop) :
  (forall e n, Q (Err e) (mkState st.(st_db) n)) ->
  (forall resp' n,
     resp'.(AuthorizeConsentResponse.Code) = resp.(AuthorizeConsentResponse.Code) ->
     resp'.(AuthorizeConsentResponse.RedirectURI) = resp.(AuthorizeConsentResponse.RedirectURI) ->
     resp'.(AuthorizeConsentResponse.State) = resp.(AuthorizeConsentResponse.State) ->
     resp'.(AuthorizeConsentResponse.Issuer) = resp.(AuthorizeConsentResponse.Issuer) ->
     Q (Ok resp') (mkState st.(st_db) n)) ->
  wp (hybridIDToken s req u raw resp) Q env st.
Proof.
  intros He Hok. unfold hybridIDToken. destruct st as [db n0]. simpl in *.
  destruct (idTokenGen s) as [gen|]; [|wp_step; by apply Hok].
  wp_step; [|wp_step; by apply Hok].
  do 2 wp_step. apply wp_read_only; [apply _|]. intros [client|e] n; wp_simpl; [|done].
  do 2 wp_step. wp_simpl. destruct (computeACR _) as [acr amr].
  do 3 wp_step. destruct (generateHybridIDToken _ _ _ _ _ _ _ _) as [t|e]; wp_step; by apply Hok.
Qed.

(** Every table but the sessions and the requests. *)
Definition others (d : DB) : DB := d <| sessions := ∅ |> <| authorization_requests := ∅ |>.

Lemma session_others d d' :
  same (fun d => d <| sessions := ∅ |>) d d' ->
  others d' = others d /\ d'.(authorization_requests) = d.(authorization_requests).
Proof.
  unfold same. intros Hs. split.
  - exact (f_equal (fun d => d <| authorization_requests := ∅ |>) Hs).
  - exact (f_equal authorization_requests Hs).
Qed.

Lemma delete_completes req d id :
  completes req d (d <| authorization_requests ::= delete id |>).
Proof.
  split; [|by left]. intros k r. change (delete id d.(authorization_requests) !! k = Some r ->
    d.(authorization_requests) !! k = Some r). by rewrite lookup_delete_Some; intros [_ ?].
Qed.

Lemma hybrid_code : isHybridResponseType "code" = false.
Proof. done. Qed.

Lemma code_issued_intro env req uid sess raw d d2 d' resp :
  req.(AuthorizationRequest.UserID) = Some uid -> others d2 = others d ->
  d2.(authorization_codes) !! HashToken raw = None ->
  d'.(authorization_codes) = <[HashToken raw :=
     (new_auth_code s req uid sess (HashToken raw) env.(env_now))
       <| AuthorizationCode.CreatedAt ::= auto_time env.(env_wall) |>]> d2.(authorization_codes) ->
  d'.(refresh_tokens) = d2.(refresh_tokens) ->
  (req.(AuthorizationRequest.ResponseType) = "code" -> d'.(access_tokens) = d2.(access_tokens)) ->
  resp.(AuthorizeConsentResponse.Code) = raw ->
  resp.(AuthorizeConsentResponse.RedirectURI) = req.(AuthorizationRequest.RedirectURI) ->
  resp.(AuthorizeConsentResponse.State) = str_or_empty req.(AuthorizationRequest.State) ->
  resp.(AuthorizeConsentResponse.Issuer) = s.(issuer) ->
  code_issued s env req d d' resp.
Proof.
  intros Hu Ho Hn Hc Hr Ha Hraw Huri Hst Hiss.
  pose proof (f_equal authorization_codes Ho) as Hoc. pose proof (f_equal refresh_tokens Ho) as Hor.
  pose proof (f_equal access_tokens Ho) as Hoa. simpl in *.
  change (d2.(authorization_codes) = d.(authorization_codes)) in Hoc.
  change (d2.(refresh_tokens) = d.(refresh_tokens)) in Hor.
  change (d2.(access_tokens) = d.(access_tokens)) in Hoa.
  eexists. rewrite Hraw, <-Hoc, Hc. split_and!; try reflexivity; try done; try congruence.
  intros Ht. by rewrite (Ha Ht).
Qed.

Lemma completes_issue req uid sess h env d d2 d' :
  req.(AuthorizationRequest.UserID) = Some uid -> completes req d d2 ->
  d'.(authorization_requests) = d2.(authorization_requests) ->
  d'.(authorization_codes) = <[h :=
     (new_auth_code s req uid sess h env.(env_now))
       <| AuthorizationCode.CreatedAt ::= auto_time env.(env_wall) |>]> d2.(authorization_codes) ->
  completes req d d'.
Proof.
  intros Hu [Hd Hc] Hr Hi. split; [by rewrite Hr|]. rewrite Hi.
  intros k c. rewrite lookup_insert_Some. intros [[<- <-]|[_ Hk]]; [right | by apply Hc].
  by split.
Qed.

Lemma wp_completeAuthorize req ip ua env st
    (Q : result AuthorizeConsentResponse.t -> State -> Prop) :
  (forall e st', completes req st.(st_db) st'.(st_db) -> Q (Err e) st') ->
  (forall resp st', completes req st.(st_db) st'.(st_db) ->
     code_issued s env req st.(st_db) st'.(st_db) resp ->
     (no_faults env -> st'.(st_db).(authorization_requests)
        = delete req.(AuthorizationRequest.ID) st.(st_db).(authorization_requests)) ->
     st'.(st_db).(consents) = st.(st_db).(consents) -> Q (Ok resp) st') ->
  wp (completeAuthorize s req ip ua) Q env st.
Proof.
  intros He Hok. unfold completeAuthorize. destruct (AuthorizationRequest.UserID req) as [uid|] eqn:Hu;
    [|wp_steps; by apply He].
  do 2 wp_step. wp_simpl. wp_step. wp_simpl.
  do 2 wp_step. apply (wp_preserves (same (fun d => d <| sessions := ∅ |>))); [apply _|].
  intros r st1 [Ho1 Hr1]%session_others.
  assert (Hd1 : completes req st.(st_db) st1.(st_db)).
  { apply same_completes. unfold same, requests_codes. rewrite Hr1. f_equal.
    exact (f_equal authorization_codes Ho1). }
  destruct r as [sess|e]; wp_simpl; [|by apply He].
  wp_step. apply wp_ignore. unfold DeleteAuthRequest.
  apply wp_update_table; intros; wp_simpl.
  all: match goal with |- wp _ _ _ ?s2 =>
         assert (Hd : completes req st.(st_db) s2.(st_db))
           by (etrans; [exact Hd1 | first [done | apply delete_completes]]);
         assert (Ho : others s2.(st_db) = others st.(st_db)) by exact Ho1;
         assert (Hg : no_faults env -> s2.(st_db).(authorization_requests)
           = delete req.(AuthorizationRequest.ID) st.(st_db).(authorization_requests))
           by (intros Hnf; first [by rewrite Hnf in * | by rewrite <-Hr1]);
         generalize dependent s2; intros st2 Hd Ho Hg end.
  all: assert (Hcons : consents (st_db st2) = consents (st_db st)) by exact (f_equal consents Ho).
  all: do 2 wp_step; apply wp_GenerateOpaqueToken; [intros; by apply He | intros raw _ _; wp_simpl].
  all: do 2 wp_step; wp_simpl; do 2 wp_step; unfold CreateAuthCode; do 2 wp_step; wp_simpl.
  all: wp_step; [by apply He | wp_simpl].
  all: match goal with |- wp _ _ _ (mkState ?d' _) =>
         assert (Hd' : completes req st.(st_db) d')
           by (apply (completes_issue req uid sess (HashToken raw) env _ _ _ Hu Hd); reflexivity) end.
  all: wp_step; apply wp_read_only; [apply _ | intros [ss|e2] n2; wp_simpl; [|by apply He]].
  all: wp_step;
    [| wp_step; apply Hok; [exact Hd' | eapply (code_issued_intro env req uid sess raw _ _ _ _ Hu Ho); done
                           | exact Hg | exact Hcons]].
  all: wp_step; lazymatch goal with H : isHybridResponseType _ = true |- wp (hybridAccessToken _ _ ?r) _ _ _ =>
         set (resp0 := r); assert (Hne : AuthorizationRequest.ResponseType req <> "code")
           by (intros Ht; by rewrite Ht in H);
         assert (Hf : resp0.(AuthorizeConsentResponse.Code) = raw /\
           resp0.(AuthorizeConsentResponse.RedirectURI) = req.(AuthorizationRequest.RedirectURI) /\
           resp0.(AuthorizeConsentResponse.State) = str_or_empty req.(AuthorizationRequest.State) /\
           resp0.(AuthorizeConsentResponse.Issuer) = s.(issuer)) by (by (subst resp0; case_match));
         destruct Hf as (Hf1 & Hf2 & Hf3 & Hf4); clearbody resp0 end.
  all: apply wp_hybridAccessToken; [intros; by apply He | intros resp1 t n3 ? ? ? ?; wp_simpl].
  all: apply wp_hybridIDToken; [intros; by apply He | intros resp2 n4 ? ? ? ?].
  all: apply Hok; [exact Hd' | | exact Hg | exact Hcons].
  all: eapply (code_issued_intro env req uid sess raw _ st2.(st_db) _ _ Hu Ho); try done; congruence.
Qed.

End complete.

(** ** Every step advances the requests *)

Definition tokens (d : DB) := (d.(authorization_codes), d.(refresh_tokens), d.(access_tokens)).

Lemma code_issued_same s env req d d1 d' resp :
  same tokens d d1 -> code_issued s env req d1 d' resp -> code_issued s env req d d' resp.
Proof.
  intros [= H1 H2 H3] (c & Hc). exists c. by rewrite H1, H2, H3 in Hc.
Qed.

Section steps.
Context `{Platform} `{JwtLib} (s : Service).
Context (Hsender : forall e, s.(userService).(UserSvc.emailSender) = Some e -> EmailSenderLaws e).
Context (Hassign : forall a, s.(userService).(UserSvc.roleAssigner) = Some a -> RoleAssignerLaws a).
Context (Hmfa : forall v, s.(mfaValidator) = Some v -> MFAValidatorLaws v).

(** Tables the user service, the MFA service and the consents leave alone. *)
Definition flow_tables (d : DB) := (d.(authorization_requests), tokens d).

Ltac keep_flow :=
  first [apply preserves_read_only; side; solve [apply _]
        | apply (preserves_update_table (same flow_tables)); side; done
        | apply (preserves_create_in (same flow_tables)); side; done
        | apply (preserves_stmt (same flow_tables)); intros ? ? ?; repeat case_match; try done;
          by intros [= <-]].

Lemma outbox_flow {A} (m : M A) : Preserves same_but_outbox m -> Preserves (same flow_tables) m.
Proof. apply preserves_mono. by intros d d' [t ->]. Qed.

Lemma roles_flow {A} (m : M A) : Preserves same_but_roles m -> Preserves (same flow_tables) m.
Proof. apply preserves_mono. by intros d d' [t ->]. Qed.

Lemma mfa_flow {A} (m : M A) : Preserves same_but_mfa m -> Preserves (same flow_tables) m.
Proof. apply preserves_mono. by intros d d' [t ->]. Qed.

#[local] Instance Authenticate_flow i : Preserves (same flow_tables) (UserSvc.Authenticate s.(userService) i).
Proof.
  unfold UserSvc.Authenticate, UserSvc.maybeRehash, UserSvc.incrementFailedAttempts,
    UserSvc.requiresEmailVerification, UserRepo.UpdateFields. solve_preserves keep_flow.
Qed.

Ltac sender_flow :=
  pose proof (Hsender _ eq_refl); apply outbox_flow;
  first [by eapply tx_Verification_frame | by apply Verification_frame].

#[local] Instance enqueue_flow tx u rid :
  Preserves (same flow_tables) (UserSvc.enqueueVerifyEmailInTx s.(userService) tx u rid).
Proof.
  unfold UserSvc.enqueueVerifyEmailInTx, UserRepo.UpdateFields. solve_preserves keep_flow.
  all: sender_flow.
Qed.

#[local] Instance Register_flow i : Preserves (same flow_tables) (UserSvc.Register s.(userService) i).
Proof.
  unfold UserSvc.Register, UserSvc.check_new_account, UserSvc.validatePassword,
    UserSvc.applyRegFormExtras, UserSvc.withTx, UserSvc.assign_role, UserRepo.Create.
  solve_preserves keep_flow.
  all: apply roles_flow; pose proof (Hassign _ eq_refl); apply assign_frame.
Qed.

#[local] Instance SendVerificationEmail_flow u rid :
  Preserves (same flow_tables) (UserSvc.SendVerificationEmail s.(userService) u rid).
Proof. unfold UserSvc.SendVerificationEmail, UserSvc.withTx. solve_preserves keep_flow. Qed.

#[local] Instance storeConsent_flow u c g : Preserves (same flow_tables) (storeConsent u c g).
Proof. unfold storeConsent, UpdateConsent, CreateConsent. solve_preserves keep_flow. Qed.

#[local] Instance userHasMFA_read_only u : ReadOnly (userHasMFA s u).
Proof.
  unfold userHasMFA. destruct (mfaValidator s) as [v|] eqn:Ev; [|apply _].
  pose proof (Hmfa v eq_refl). solve_preserves ltac:(apply HasMFA_frame).
Qed.

Lemma flow_requests d d' : same flow_tables d d' -> same requests_codes d d'.
Proof. intros [= Hr Hc _ _]. unfold same, requests_codes. congruence. Qed.

Lemma flow_tokens d d' : same flow_tables d d' -> same tokens d d'.
Proof. unfold same, flow_tables. congruence. Qed.

(** A step that frames the flow's tables, then goes on. *)
Lemma wp_flow {A} (m : M A) (Q : result A -> State -> Prop) env st :
  Preserves (same flow_tables) m ->
  (forall e st', same flow_tables st.(st_db) st'.(st_db) -> Q (Err e) st') ->
  (forall a st', same flow_tables st.(st_db) st'.(st_db) -> Q (Ok a) st') ->
  wp m Q env st.
Proof.
  intros Hm He Hok. apply (wp_preserves (same flow_tables)); [done|]. intros [a|e] st'; auto.
Qed.

Lemma advances_wp {A} (m : M A) :
  (forall env st, requests_wf st.(st_db).(authorization_requests) ->
     wp m (fun _ st' => advances st.(st_db) st'.(st_db)) env st) -> Preserves advances m.
Proof. intros Hm env st Hwf. exact (Hm env st Hwf Hwf). Qed.

(** The end of a step: the row is saved and answered, or saved and completed. *)
Lemma save_step {B} (k : AuthorizationRequest.t -> M B) req req' id db env st :
  db.(authorization_requests) !! id = Some req ->
  same requests_codes db st.(st_db) ->
  follows req req' -> row_ok req' ->
  (forall r, Preserves (completes r) (k r)) ->
  wp (bind (saveRequest req') k) (fun _ st' => advances db st'.(st_db)) env st.
Proof.
  intros Hreq Hs Hf Hok Hk. apply wp_bind, wp_saveRequest.
  - intros e n. by apply same_advances.
  - intros n. simpl.
    assert (Ha : advances db (st.(st_db) <| authorization_requests ::=
        insert req'.(AuthorizationRequest.ID) (touched env.(env_wall) req') |>)).
    { apply (save_advances db st.(st_db) _ id req (touched env.(env_wall) req')); try done.
      - by rewrite (follows_id _ _ Hf).
      - destruct Hf. by split. }
    apply (wp_preserves (completes (touched env.(env_wall) req'))); [apply Hk|].
    intros r st' Hd. cbn [st_db] in Hd. etrans; [exact Ha|].
    eapply (completes_advances (touched env.(env_wall) req') req'.(AuthorizationRequest.ID)); [|exact Hd].
    apply lookup_insert_eq.
Qed.

#[local] Instance complete_completes req ip ua : Preserves (completes req) (completeAuthorize s req ip ua).
Proof.
  intros env st. apply (wp_completeAuthorize s req ip ua env st (fun _ st' => completes req st.(st_db) st'.(st_db)));
    auto.
Qed.

Lemma first_factor_ok req u method needsMFA needsConsent now :
  row_ok req -> req.(AuthorizationRequest.Authenticated) = false ->
  follows req (after_first_factor req u method needsMFA needsConsent now) /\
  row_ok (after_first_factor req u method needsMFA needsConsent now).
Proof.
  intros [Hu Hc] Ha. unfold after_first_factor, row_ok.
  destruct needsMFA, needsConsent; simpl; try rewrite Ha; simpl; (split; [split|]); simpl; try done;
    try (by rewrite Ha); try (intros; congruence); split; intros; try by eexists.
  all: try (rewrite Hc in *; congruence).
  all: by apply Hc.
Qed.

(** Steps that only read keep the state of the proof. *)
Ltac wp_hook ::= apply wp_read_only; [solve [apply _] | intros ? ?].

Ltac start_step Hwf req n Hreq Hw :=
  apply advances_wp; intros env st Hwf;
  try unfold AuthorizeLogin; try unfold AuthorizeRegister; try unfold AuthorizeMFA;
  try unfold AuthorizeConsent; try unfold ResumeAuthorizeAfterExternalLogin;
  try unfold CompleteAfterEmailVerification;
  wp_step; apply wp_liveRequest; [intros; by apply same_advances|];
  intros req n Hreq Hw; wp_simpl.

Lemma Login_advances i ip ua : Preserves advances (AuthorizeLogin s i ip ua).
Proof.
  start_step Hwf req n Hreq Hw. destruct (Hwf _ _ Hreq) as [_ Hrow].
  do 2 wp_step; [|done]. wp_simpl. bool_simpl.
  wp_step. apply wp_flow; [apply _ | intros; by apply same_advances, flow_requests |].
  intros u st1 Hs1%flow_requests. wp_simpl.
  assert (Hdone : advances st.(st_db) st1.(st_db)) by by apply same_advances.
  do 2 wp_step. apply wp_read_only; [apply _|]. intros [client|e] n1; wp_simpl; [|done].
  wp_step. apply wp_read_only; [apply _|]. intros [[]|e] n2; wp_simpl; [|done].
  wp_step. apply wp_read_only; [apply _|]. intros [covered|e] n3; wp_simpl; [|done].
  cbv zeta. wp_step. apply wp_read_only; [apply _|]. intros [hasMFA|e] n4; wp_simpl; [|done].
  wp_step. apply wp_read_only; [apply _|]. intros [needsMFA|e] n5; wp_simpl; [|done].
  do 2 wp_step. wp_simpl. set (needsConsent := if forcesConsent req then true else _).
  set (req1 := req <| AuthorizationRequest.RememberMe := _ |>).
  destruct (first_factor_ok req1 u.(User.ID) "pwd" needsMFA needsConsent env.(env_now) Hrow) as [Hf Hok];
    [done|].
  eapply (save_step _ req _ i.(in_RequestID)); [done | done | | done | intros; apply _].
  destruct Hf. by split.
Qed.

Lemma Resume_advances id u prov ip ua :
  Preserves advances (ResumeAuthorizeAfterExternalLogin s id u prov ip ua).
Proof.
  start_step Hwf req n Hreq Hw. destruct (Hwf _ _ Hreq) as [_ Hrow].
  do 2 wp_step; [|done]. wp_simpl. bool_simpl.
  do 2 wp_step. apply wp_read_only; [apply _|]. intros [usr|e] n1; wp_simpl; [|done].
  do 2 wp_step; [|done]. wp_simpl.
  do 2 wp_step. apply wp_read_only; [apply _|]. intros [client|e] n2; wp_simpl; [|done].
  wp_step. apply wp_read_only; [apply _|]. intros [covered|e] n3; wp_simpl; [|done].
  cbv zeta. wp_step. apply wp_read_only; [apply _|]. intros [needsMFA|e] n4; wp_simpl; [|done].
  do 2 wp_step. wp_simpl. set (needsConsent := if forcesConsent req then true else _).
  destruct (first_factor_ok req usr.(User.ID) ("fed:" +:+ prov) needsMFA needsConsent env.(env_now) Hrow)
    as [Hf Hok]; [done|].
  by eapply (save_step _ req _ id); [done | done | done | done | intros; apply _].
Qed.

Lemma MFA_advances id code : Preserves advances (AuthorizeMFA s id code).
Proof.
  start_step Hwf req n Hreq Hw. destruct (Hwf _ _ Hreq) as [_ [Hu Hc]].
  destruct (AuthorizationRequest.UserID req) as [userID|] eqn:Euid; [|by wp_step].
  do 2 wp_step; [|done]. wp_simpl. bool_simpl.
  destruct (mfaValidator s) as [v|] eqn:Ev; [|by wp_step].
  pose proof (Hmfa v eq_refl) as Hlaw.
  do 2 wp_step. apply wp_flow; [apply mfa_flow, ValidateCode_frame | |];
    [intros; by apply same_advances, flow_requests|].
  intros valid st1 Hs1%flow_requests. wp_simpl.
  assert (Hdone : advances st.(st_db) st1.(st_db)) by by apply same_advances.
  do 2 wp_step; [|by apply same_advances]. wp_simpl. do 2 wp_step. wp_simpl.
  wp_step. apply wp_read_only; [apply _|]. intros [[needsConsent given]|e] n2; wp_simpl; [|done].
  eapply (save_step _ req _ id); [done | done | | | intros; apply _].
  - by split.
  - split; simpl; [|done]. intros _. unfold upd. simpl. rewrite Euid. by eexists.
Qed.

Lemma filterScopes_nonempty_subset g sc x : x ∈ filterScopes g sc -> x ∈ sc.
Proof. rewrite mem_filterScopes. tauto. Qed.

Lemma wp_consentPolicy req u g ip ua env st (Q : result (list string) -> State -> Prop) :
  (forall e n, Q (Err e) (mkState st.(st_db) n)) ->
  (forall l n, (forall x, x ∈ l -> x ∈ g) -> (g <> [] -> l <> []) -> Q (Ok l) (mkState st.(st_db) n)) ->
  wp (consentPolicy s req u g ip ua) Q env st.
Proof.
  intros He Hok. unfold consentPolicy. destruct st as [db n0]. simpl in *.
  wp_steps; try apply He; apply Hok; try done.
  - by eapply PolicyModify.readModifyScopes_subset.
  - intros _ Hnil. subst. done.
Qed.

Lemma Consent_advances id g ip ua : Preserves advances (AuthorizeConsent s id g ip ua).
Proof.
  start_step Hwf req n Hreq Hw. destruct (Hwf _ _ Hreq) as [_ [Hu Hc]].
  do 2 wp_step; [|done]. wp_simpl.
  destruct (AuthorizationRequest.UserID req) as [userID|] eqn:Euid; [|by wp_step].
  cbv zeta. do 2 wp_step; [|done]. wp_simpl.
  wp_step. apply wp_consentPolicy; [done|]. intros l n2 Hsub _. wp_simpl.
  wp_step. apply wp_flow; [apply _ | intros; by apply same_advances, flow_requests |].
  intros [] st1 Hs1%flow_requests. wp_simpl.
  eapply (save_step _ req _ id); [done | done | | | intros; apply _].
  - split; try done. intros x Hx. by eapply filterScopes_nonempty_subset, Hsub.
  - split; simpl; [|done]. intros _. unfold upd. simpl. rewrite Euid. by eexists.
Qed.

Lemma Register_advances i ip ua : Preserves advances (AuthorizeRegister s i ip ua).
Proof.
  start_step Hwf req n Hreq Hw. destruct (Hwf _ _ Hreq) as [_ [Hu Hc]].
  do 2 wp_step; [|done]. wp_simpl. bool_simpl.
  do 2 wp_step. apply wp_read_only; [apply _|]. intros [client|e] n1; wp_simpl; [|done].
  wp_step. apply wp_flow; [apply _ | intros; by apply same_advances, flow_requests |].
  intros u st1 Hs1%flow_requests. wp_simpl. do 2 wp_step. wp_simpl.
  eapply (save_step _ req _ i.(reg_RequestID)); [done | done | | |].
  - split; try done. intros Ha. simpl in *. congruence.
  - split; simpl; [by eexists | done].
  - intros r. apply preserves_bind; [apply _ | | intros; apply _].
    apply preserves_ignore; [apply _|].
    eapply preserves_mono; [|apply (SendVerificationEmail_flow _ _)].
    intros d d' Hf. by apply same_completes, flow_requests.
Qed.

Lemma AfterEmail_advances id u ip ua :
  Preserves advances (CompleteAfterEmailVerification s id u ip ua).
Proof.
  start_step Hwf req n Hreq Hw. do 2 wp_step; [|done]. wp_simpl. do 2 wp_step. wp_simpl.
  match goal with Hq : opt_uuid_eqb ?o _ = true |- _ => destruct o as [userID|] eqn:Euid; [|done] end.
  eapply (save_step _ req _ id); [done | done | | |].
  - by split.
  - split; simpl; [|done]. intros _. unfold upd. simpl. rewrite Euid. by eexists.
  - intros r. apply preserves_bind; [apply _ | apply _ | intros; apply _].
Qed.

Lemma FirstParty_advances id ip ua : Preserves advances (CompleteAuthorizeFirstParty s id ip ua).
Proof.
  apply advances_wp. intros env st Hwf. unfold CompleteAuthorizeFirstParty. wp_step.
  apply wp_FindAuthRequest; [by wp_steps | | by wp_steps]. intros req Hreq Hw. wp_simpl.
  do 2 wp_step. wp_simpl. do 2 wp_step; [|done]. wp_simpl.
  apply (wp_preserves (completes req)); [apply _|]. intros r st' Hd.
  by eapply completes_advances.
Qed.

(** ** Histories of steps *)

Inductive call :=
| CLogin (i : AuthorizeLoginInput) (ip ua : string)
| CRegister (i : AuthorizeRegisterInput) (ip ua : string)
| CMFA (id : UUID) (code : string)
| CConsent (id : UUID) (scopes : list string) (ip ua : string)
| CResume (id u : UUID) (provider ip ua : string)
| CAfterEmail (id u : UUID) (ip ua : string)
| CFirstParty (id : UUID) (ip ua : string).

Definition perform (c : call) : M unit :=
  match c with
  | CLogin i ip ua => drop (AuthorizeLogin s i ip ua)
  | CRegister i ip ua => drop (AuthorizeRegister s i ip ua)
  | CMFA id code => drop (AuthorizeMFA s id code)
  | CConsent id sc ip ua => drop (AuthorizeConsent s id sc ip ua)
  | CResume id u p ip ua => drop (ResumeAuthorizeAfterExternalLogin s id u p ip ua)
  | CAfterEmail id u ip ua => drop (CompleteAfterEmailVerification s id u ip ua)
  | CFirstParty id ip ua => drop (CompleteAuthorizeFirstParty s id ip ua)
  end.

Lemma perform_advances c : Preserves advances (perform c).
Proof.
  destruct c; simpl; unfold drop; (apply preserves_bind; [apply _ | | intros; apply _]).
  - apply Login_advances.
  - apply Register_advances.
  - apply MFA_advances.
  - apply Consent_advances.
  - apply Resume_advances.
  - apply AfterEmail_advances.
  - apply FirstParty_advances.
Qed.

(** C5: Whatever the steps, their order, their clocks and their faults: a request
    whose consent is given is authenticated, and an authenticated one has a
    user; the client, redirect URI, PKCE challenge and audience of a request
    never change and its scopes only shrink; and once it is authenticated its
    user never changes. *)
Theorem request_lifecycle (l : list (Env * call)) (db : DB) :
  requests_wf db.(authorization_requests) ->
  let db' := history perform l db in
  requests_wf db'.(authorization_requests) /\
  forall id r', db'.(authorization_requests) !! id = Some r' ->
    exists r, db.(authorization_requests) !! id = Some r /\ follows r r'.
Proof.
  intros Hwf. destruct (history_preserves perform advances l db perform_advances Hwf) as (? & ? & _).
  by split.
Qed.

(** C4: Whatever the steps, every authorization code they leave was there before,
    or is bound to a request that was: issued to its client, for its redirect
    URI, its PKCE challenge and its audience, with scopes it asked for, and to
    its user when it already had one. *)
Theorem code_traceable (l : list (Env * call)) (db : DB) (h : string) (c : AuthorizationCode.t) :
  requests_wf db.(authorization_requests) ->
  (history perform l db).(authorization_codes) !! h = Some c ->
  db.(authorization_codes) !! h = Some c \/
  exists id r, db.(authorization_requests) !! id = Some r /\ issued_for r c.
Proof.
  intros Hwf. destruct (history_preserves perform advances l db perform_advances Hwf) as (_ & _ & Hc).
  apply Hc.
Qed.

End steps.

(** ** A sample request and a history of it *)

Definition sample_request : AuthorizationRequest.t :=
  AuthorizationRequest.zero
    <| AuthorizationRequest.ID := 9%N |> <| AuthorizationRequest.ClientID := 77%N |>
    <| AuthorizationRequest.RedirectURI := "https://app/cb" |>
    <| AuthorizationRequest.ResponseType := "code" |>
    <| AuthorizationRequest.Scopes := ["openid"; "read"] |>
    <| AuthorizationRequest.ExpiresAt := 600 * second |>.

Definition verified_user : User.t :=
  UserFacts.sample_user <| User.EmailVerified := true |>.

Definition sample_requests : DB :=
  Sample.db <| authorization_requests := {[ 9%N := sample_request ]} |>
            <| users := {[ 5%N := verified_user ]} |>.

Lemma sample_requests_wf : requests_wf sample_requests.(authorization_requests).
Proof.
  intros id r.
  change (authorization_requests sample_requests) with ({[9%N := sample_request]} : requests).
  by intros [<- <-]%lookup_singleton_Some.
Qed.

Lemma sample_sender_ok e :
  Sample.service.(userService).(UserSvc.emailSender) = Some e -> EmailSenderLaws e.
Proof. intros [= <-]. exact UserFacts.sample_sender_laws. Qed.

Lemma sample_assigner a :
  Sample.service.(userService).(UserSvc.roleAssigner) = Some a -> RoleAssignerLaws a.
Proof. by intros [=]. Qed.

Lemma sample_mfa v : Sample.service.(mfaValidator) = Some v -> MFAValidatorLaws v.
Proof. by intros [=]. Qed.

Definition sample_login : AuthorizeLoginInput := mkAuthorizeLoginInput 9%N "a@b" "secret" false.

Lemma request_lifecycle_witness :
  let P := sample_platform in
  let J := sample_jwt UserFacts.sample_claims 1000 in
  let l := [(Sample.env 10, CLogin sample_login "" "");
            (Sample.env 20, CMFA 9%N "123456");
            (Sample.env 30, CConsent 9%N ["read"; "admin"] "" "")] in
  let after n := history (perform Sample.service) (take n l) sample_requests in
  (exists r', (after 2%nat).(authorization_requests) !! 9%N = Some r' /\ follows sample_request r' /\
     r'.(AuthorizationRequest.Authenticated) = true) /\
  (after 3%nat).(authorization_requests) !! 9%N = None.
Proof.
  intros P J l after. split; [|vm_compute; reflexivity].
  destruct (request_lifecycle Sample.service sample_sender_ok sample_assigner sample_mfa (take 2 l)
              sample_requests sample_requests_wf) as [_ Ha].
  assert (Hst : (AuthorizationRequest.Authenticated <$>
                  (after 2%nat).(authorization_requests) !! 9%N) = Some true) by (vm_compute; reflexivity).
  unfold after in Hst |- *.
  destruct (authorization_requests (history (perform Sample.service) (take 2 l) sample_requests) !! 9%N)
    as [r'|] eqn:Hr; [|discriminate Hst].
  exists r'. split; [done|]. split; [|by injection Hst].
  destruct (Ha 9%N r' Hr) as (r & Hr0 & Hf).
  assert (Hrr : Some r = Some sample_request) by (rewrite <-Hr0; reflexivity).
  apply (inj Some) in Hrr. rewrite Hrr in Hf. exact Hf.
Defined.

Definition sample_steps : list (Env * call) :=
  [(Sample.env 10, CLogin sample_login "" "");
   (Sample.env 30, CConsent 9%N ["read"; "admin"] "" "")].

Definition sample_code_hash (db : DB) : string :=
  default "" (fst <$> hd_error (map_to_list db.(authorization_codes))).

Lemma code_traceable_witness :
  let P := sample_platform in
  let J := sample_jwt UserFacts.sample_claims 1000 in
  let db' := history (perform Sample.service) sample_steps sample_requests in
  exists c, db'.(authorization_codes) !! sample_code_hash db' = Some c /\
    c.(AuthorizationCode.Scopes) = ["read"] /\ exists id r,
      sample_requests.(authorization_requests) !! id = Some r /\ issued_for r c.
Proof.
  intros P J db'.
  assert (Hc : (AuthorizationCode.Scopes <$> db'.(authorization_codes) !! sample_code_hash db')
             = Some ["read"]) by (vm_compute; reflexivity).
  assert (Hnone : sample_requests.(authorization_codes) !! sample_code_hash db' = None)
    by (vm_compute; reflexivity).
  destruct (authorization_codes db' !! sample_code_hash db') as [c|] eqn:E; [|discriminate Hc].
  exists c. split; [done|]. split; [by injection Hc|].
  destruct (code_traceable Sample.service sample_sender_ok sample_assigner sample_mfa sample_steps
              sample_requests (sample_code_hash db') c sample_requests_wf E) as [Hold|Hnew]; [|exact Hnew].
  rewrite Hnone in Hold. discriminate Hold.
Defined.
