(* ===== verification/InitFacts.v ===== *)
(** * What the answer of [InitAuthorize] says

    The parameters it accepts, the scopes it grants, and the users it answers
    for without an interaction. *)
From S2P Require Import Prelude.
From S2P Require Import Errors.
From S2P Require Import GoLib.
From S2P Require Import GoNet.
From S2P Require Import Model.
From S2P Require Import Platform.
From S2P Require Import Config.
From S2P Require Import Exec.
From S2P Require Import Crypto.
From S2P Require Import SessionSvc.
From S2P Require Import OAuthRepo.
From S2P Require Import Scopes.
From S2P Require Import ActionToken.
From S2P Require Import UserSvc.
From S2P Require Import OAuth.
From S2P Require Import Token.
From S2P Require Import Json.
From S2P Require Import Authorize.
From S2P Require Import AuthSteps.
From S2P Require Import AuthFacts.
Local Open Scope Z_scope.

Section spec.
Context `{Platform} `{JwtLib} (s : Service).

(** ** The promises *)

(** The parameters the endpoint accepts from the client. *)
Record admissible (client : OAuthClient.t) (p : InitAuthorizeParams.t) : Prop := {
  adm_type : isValidResponseType p.(InitAuthorizeParams.ResponseType) = true;
  adm_uri : OAuthClient.HasRedirectURI client p.(InitAuthorizeParams.RedirectURI) = true;
  adm_grant : OAuthClient.HasGrantType client "authorization_code" = true;
  adm_pkce : client.(OAuthClient.IsPublic) = true \/ client.(OAuthClient.RequirePKCE) = true ->
    p.(InitAuthorizeParams.CodeChallenge) <> "";
  adm_method : p.(InitAuthorizeParams.CodeChallenge) <> "" ->
    p.(InitAuthorizeParams.CodeChallengeMethod) ∈ [""; "S256"];
  adm_prompt : p.(InitAuthorizeParams.Prompt) ∈ [""; "none"; "login"; "consent"];
  adm_display : p.(InitAuthorizeParams.Display) ∈ [""; "page"; "popup"; "touch"; "wap"];
  adm_mode : p.(InitAuthorizeParams.ResponseMode) ∈ [""; "query"; "fragment"; "form_post"];
  adm_max_age : p.(InitAuthorizeParams.MaxAge) <> "" ->
    exists n, atoi p.(InitAuthorizeParams.MaxAge) = Some n /\ 0 <= n;
  adm_claims : p.(InitAuthorizeParams.Claims) = "" \/ json_valid p.(InitAuthorizeParams.Claims) = true
}.

(** The parsed [max_age]. *)
Definition asked_max_age (p : InitAuthorizeParams.t) : option Z :=
  if String.eqb p.(InitAuthorizeParams.MaxAge) "" then None else atoi p.(InitAuthorizeParams.MaxAge).

(** The parameters with the default PKCE method filled in. *)
Definition with_method (p : InitAuthorizeParams.t) : InitAuthorizeParams.t :=
  if String.eqb p.(InitAuthorizeParams.CodeChallenge) "" then p
  else p <| InitAuthorizeParams.CodeChallengeMethod := "S256" |>.

(** A scope is granted because the client has it (all of them when none is
    requested), or because the client has the
    permission on the resource of the requested audience. *)
Definition scope_allowed (env : Env) (db : DB) (client : OAuthClient.t) (p : InitAuthorizeParams.t)
    (x : string) : Prop :=
  let requested := parseSpaceDelimited p.(InitAuthorizeParams.Scope) in
  ((requested <> [] -> x ∈ requested) /\ x ∈ client.(OAuthClient.Scopes)) \/
  exists v r l n n', s.(resourceValidator) = Some v /\
    v.(ValidateAudience) p.(InitAuthorizeParams.Audience) env n db = Ok r /\
    v.(ValidateClientScopes) client.(OAuthClient.ID) r.(APIResource.ID) requested env n' db = Ok l /\
    x ∈ l.

Definition scopes_allowed (env : Env) (db : DB) (client : OAuthClient.t) (p : InitAuthorizeParams.t)
    (scopes : list string) (audience : option string) : Prop :=
  scopes <> [] /\ (forall x, x ∈ scopes -> scope_allowed env db client p x) /\
  (audience = None \/ audience = Some p.(InitAuthorizeParams.Audience)).

(** The row keeps what the client asked for. *)
Definition describes (client : OAuthClient.t) (p : InitAuthorizeParams.t) (scopes : list string)
    (audience : option string) (req : AuthorizationRequest.t) : Prop :=
  req.(AuthorizationRequest.ClientID) = client.(OAuthClient.ID) /\
  req.(AuthorizationRequest.RedirectURI) = p.(InitAuthorizeParams.RedirectURI) /\
  req.(AuthorizationRequest.ResponseType) = p.(InitAuthorizeParams.ResponseType) /\
  req.(AuthorizationRequest.Scopes) = scopes /\
  req.(AuthorizationRequest.Audience) = audience /\
  req.(AuthorizationRequest.State) = ptr p.(InitAuthorizeParams.State) /\
  req.(AuthorizationRequest.Nonce) = ptr p.(InitAuthorizeParams.Nonce) /\
  req.(AuthorizationRequest.CodeChallenge) = ptr p.(InitAuthorizeParams.CodeChallenge) /\
  req.(AuthorizationRequest.CodeChallengeMethod)
    = (if String.eqb p.(InitAuthorizeParams.CodeChallenge) "" then None else Some "S256").

(** The live session of the presented cookie, recent enough for [max_age]. *)
Definition session_of (env : Env) (db : DB) (p : InitAuthorizeParams.t) (sess : Session.t) : Prop :=
  p.(InitAuthorizeParams.SessionCookie) <> "" /\
  (exists id, db.(sessions) !! id = Some sess) /\
  SessionFacts.live env.(env_wall) sess /\
  sess.(Session.CookieTokenHash) = HashToken p.(InitAuthorizeParams.SessionCookie) /\
  match asked_max_age p with
  | Some n => time_sub env.(env_now) sess.(Session.AuthenticatedAt) <= dur_mul n second
  | None => True
  end.

(** The user an answer without interaction is for. *)
Definition identified (env : Env) (db : DB) (p : InitAuthorizeParams.t) (uid : UUID) : Prop :=
  (p.(InitAuthorizeParams.Prompt) = "none" /\ p.(InitAuthorizeParams.IDTokenHint) <> "" /\
   exists validate n, s.(idTokenValidator) = Some validate /\
     validate p.(InitAuthorizeParams.IDTokenHint) env n db = Ok uid) \/
  (p.(InitAuthorizeParams.Prompt) = "" /\
   exists sess, session_of env db p sess /\ sess.(Session.UserID) = uid).

(** A consent in force for all the scopes. *)
Definition consent_on_file (db : DB) (uid clientID : UUID) (scopes : list string) : Prop :=
  exists id c, db.(consents) !! id = Some c /\ c.(Consent.UserID) = uid /\
    c.(Consent.ClientID) = clientID /\ c.(Consent.RevokedAt) = None /\
    forall x, x ∈ scopes -> x ∈ c.(Consent.Scopes).

(** The user consented to all the scopes, or the client is first-party. *)
Definition consented (db : DB) (client : OAuthClient.t) (uid : UUID) (scopes : list string) : Prop :=
  client.(OAuthClient.IsFirstParty) = true \/
  consent_on_file db uid client.(OAuthClient.ID) scopes.

(** A successful answer: either a code for an identified user who consented, or
    a stored request that still needs the user. *)
Definition answered (env : Env) (client : OAuthClient.t) (p : InitAuthorizeParams.t) (db db' : DB)
    (resp : InitAuthorizeResponse.t) : Prop :=
  exists scopes audience req,
    scopes_allowed env db client p scopes audience /\
    describes client p scopes audience req /\
    resp.(InitAuthorizeResponse.RequestID) = req.(AuthorizationRequest.ID) /\
    resp.(InitAuthorizeResponse.ScopesRequested) = scopes /\
    match resp.(InitAuthorizeResponse.Redirect) with
    | Some redirect =>
        exists uid, req.(AuthorizationRequest.UserID) = Some uid /\
          identified env db p uid /\ consented db client uid scopes /\
          code_issued s env req db db' redirect
    | None =>
        p.(InitAuthorizeParams.Prompt) <> "none" /\
        db'.(authorization_requests) !! req.(AuthorizationRequest.ID) = Some req /\
        req.(AuthorizationRequest.ConsentGiven) = false /\
        if resp.(InitAuthorizeResponse.RequiresLogin)
        then req.(AuthorizationRequest.Authenticated) = false /\ req.(AuthorizationRequest.UserID) = None
        else resp.(InitAuthorizeResponse.RequiresConsent) = true /\
          exists sess, session_of env db p sess /\
            req.(AuthorizationRequest.UserID) = Some sess.(Session.UserID)
    end.

(** ** The parts *)

Lemma one_of_elem v l : one_of v l = true -> v ∈ "" :: l.
Proof.
  unfold one_of. intros [Hv|Hv]%orb_true_iff.
  - apply String.eqb_eq in Hv as ->. apply list_elem_of_here.
  - right. by apply mem_iff.
Qed.

Lemma wp_parseMaxAge v env st (Q : result (option Z) -> State -> Prop) :
  (forall e, Q (Err e) st) ->
  ((v <> "" -> exists n, atoi v = Some n /\ 0 <= n) ->
     Q (Ok (if String.eqb v "" then None else atoi v)) st) ->
  wp (parseMaxAge v) Q env st.
Proof.
  intros He Hok. unfold parseMaxAge. destruct (String.eqb_spec v "") as [->|Hv].
  - wp_step. by apply Hok.
  - destruct (atoi v) as [n|] eqn:Hn; wp_steps; [|done..]. apply Hok. intros _. exists n.
    split; [done|]. bool_simpl. lia.
Qed.

Lemma wp_checkParams client p env st (Q : result (InitAuthorizeParams.t * option Z) -> State -> Prop) :
  (forall e, Q (Err e) st) ->
  (admissible client p -> Q (Ok (with_method p, asked_max_age p)) st) ->
  wp (checkParams client p) Q env st.
Proof.
  intros He Hok. unfold checkParams. cbv zeta.
  do 2 wp_step; [|done]. wp_simpl. do 2 wp_step; [|done]. wp_simpl. do 2 wp_step; [|done]. wp_simpl.
  do 2 wp_step; [|done]. wp_simpl. do 2 wp_step; [|done]. wp_simpl.
  match goal with |- context [if ?c then ?a else p] => replace (if c then a else p) with (with_method p) end.
  2:{ unfold with_method. bool_simpl.
      destruct (String.eqb_spec p.(InitAuthorizeParams.CodeChallenge) "") as [|Hc]; [done|]. simpl in *.
      destruct (String.eqb_spec p.(InitAuthorizeParams.CodeChallengeMethod) "") as [|Hc']; [done|].
      simpl in *. destruct (String.eqb_spec p.(InitAuthorizeParams.CodeChallengeMethod) "S256") as [Hs|]; [|done].
      destruct p; simpl in *. by subst. }
  assert (Hf : (with_method p).(InitAuthorizeParams.Prompt) = p.(InitAuthorizeParams.Prompt) /\
    (with_method p).(InitAuthorizeParams.Display) = p.(InitAuthorizeParams.Display) /\
    (with_method p).(InitAuthorizeParams.ResponseMode) = p.(InitAuthorizeParams.ResponseMode) /\
    (with_method p).(InitAuthorizeParams.MaxAge) = p.(InitAuthorizeParams.MaxAge) /\
    (with_method p).(InitAuthorizeParams.Claims) = p.(InitAuthorizeParams.Claims))
    by (unfold with_method; by case_match).
  destruct Hf as (-> & -> & -> & -> & ->).
  do 2 wp_step; [|done]. wp_simpl. do 2 wp_step; [|done]. wp_simpl. do 2 wp_step; [|done]. wp_simpl.
  wp_step. apply wp_parseMaxAge; [done|]. intros Hage. wp_simpl.
  do 2 wp_step; [|done]. wp_simpl. do 2 wp_step; [|done]. wp_simpl. wp_step.
  apply Hok. clear Hok He. split; auto.
  - intros Hpk Hc. rewrite Hc, String.eqb_refl, andb_true_r in H4. bool_simpl.
    destruct Hpk; destruct (OAuthClient.IsPublic client), (OAuthClient.RequirePKCE client); done.
  - intros Hc%String.eqb_neq. rewrite Hc in H5. simpl in H5.
    destruct (String.eqb_spec p.(InitAuthorizeParams.CodeChallengeMethod) "S256") as [->|]; [set_solver|].
    destruct (String.eqb_spec p.(InitAuthorizeParams.CodeChallengeMethod) "") as [->|]; [set_solver|done].
  - apply one_of_elem in H6. bool_simpl. set_solver.
  - by apply one_of_elem.
  - by apply one_of_elem.
  - apply orb_true_iff in H9 as [->%String.eqb_eq|]; auto.
Qed.

Lemma elem_ValidateScopes client l x :
  x ∈ OAuthClient.ValidateScopes client l ->
  (l <> [] -> x ∈ l) /\ x ∈ client.(OAuthClient.Scopes).
Proof.
  unfold OAuthClient.ValidateScopes. destruct l as [|y l]; [done|].
  rewrite elem_of_List_filter. unfold OAuthClient.HasScope. rewrite mem_iff. tauto.
Qed.

Lemma nil_or_empty_false {A} (l : list A) : negb (nil_or_empty l) = true -> l <> [].
Proof. by destruct l. Qed.

Lemma wp_clientScopesOnly client p env st
    (Q : result (list string * option string * option ResourceInfo) -> State -> Prop) :
  (forall e n, Q (Err e) (mkState st.(st_db) n)) ->
  (forall scopes audience resource n, scopes_allowed env st.(st_db) client p scopes audience ->
     Q (Ok (scopes, audience, resource)) (mkState st.(st_db) n)) ->
  wp (clientScopesOnly (OAuthClient.ValidateScopes client
        (parseSpaceDelimited p.(InitAuthorizeParams.Scope)))) Q env st.
Proof.
  intros He Hok. unfold clientScopesOnly. destruct st as [db n]. wp_steps; [|by apply He].
  apply Hok. split_and!; [by apply nil_or_empty_false | | by left].
  intros x Hx. left. by apply elem_ValidateScopes.
Qed.

Lemma wp_authorizeScopes client p env st
    (Q : result (list string * option string * option ResourceInfo) -> State -> Prop) :
  (forall e n, Q (Err e) (mkState st.(st_db) n)) ->
  (forall scopes audience resource n, scopes_allowed env st.(st_db) client p scopes audience ->
     Q (Ok (scopes, audience, resource)) (mkState st.(st_db) n)) ->
  wp (authorizeScopes s client p) Q env st.
Proof.
  intros He Hok. unfold authorizeScopes. cbv zeta.
  destruct (resourceValidator s) as [v|] eqn:Ev; [|by apply wp_clientScopesOnly].
  wp_step; [by apply wp_clientScopesOnly|].
  do 2 wp_step. destruct (ValidateAudience v _ _ _ _) as [r|e] eqn:Er; wp_simpl; [|by apply He].
  do 2 wp_step. destruct (ValidateClientScopes v _ _ _ _ _ _) as [l|e] eqn:El; wp_simpl; [|by apply He].
  do 2 wp_step; [|by apply He]. wp_simpl. wp_step. apply Hok.
  match goal with Hl : negb (nil_or_empty l) = true |- _ => apply nil_or_empty_false in Hl as Hne end.
  split_and!; [| | by right].
  - destruct l as [|x l]; [done|]. intros Hu.
    assert (Hx : x ∈ (@nil string)) by (rewrite <-Hu; apply elem_of_unionScopes; right; set_solver).
    by apply elem_of_nil in Hx.
  - intros x [Hx|Hx]%elem_of_unionScopes; [left; by apply elem_ValidateScopes|].
    right. by eexists v, r, l, _, _.
Qed.

Lemma covers_elem c l : Consent.CoversScopes c l = true -> forall x, x ∈ l -> x ∈ c.(Consent.Scopes).
Proof.
  unfold Consent.CoversScopes. rewrite forallb_forall. intros Hc x Hx.
  apply mem_iff, Hc. by apply list_elem_of_In.
Qed.

Lemma wp_consentCovers uid clientID scopes env st (Q : result bool -> State -> Prop) :
  scopes <> [] ->
  (forall n, Q (Ok false) (mkState st.(st_db) n)) ->
  (forall n, consent_on_file st.(st_db) uid clientID scopes -> Q (Ok true) (mkState st.(st_db) n)) ->
  wp (consentCovers uid clientID scopes) Q env st.
Proof.
  intros Hne Hf Ht. unfold consentCovers, FindActiveConsent. destruct scopes as [|x0 scopes]; [done|].
  do 2 wp_step; wp_simpl.
  - wp_step. apply Hf.
  - destruct (first_row _ _ _) as [c|] eqn:E; wp_step; [|apply Hf].
    destruct (Consent.CoversScopes c (x0 :: scopes)) eqn:Ec; [|apply Hf].
    apply Ht. apply first_row_Some in E as (id & Hid & HP). bool_simpl.
    exists id, c. split_and!; try done.
    + by destruct (Consent.RevokedAt c).
    + by apply covers_elem.
Qed.

Lemma describes_base client p scopes audience t :
  admissible client p -> describes client p scopes audience
    (base_request client (with_method p) scopes audience t).
Proof.
  intros Ha. unfold describes, base_request, with_method, ptr.
  destruct (String.eqb p.(InitAuthorizeParams.CodeChallenge) "") eqn:E; simpl; rewrite ?E; simpl; by rewrite ?E.
Qed.

(** The hooks and the columns a branch adds keep what the client asked for. *)
Definition same_asked (r r' : AuthorizationRequest.t) : Prop :=
  r'.(AuthorizationRequest.ClientID) = r.(AuthorizationRequest.ClientID) /\
  r'.(AuthorizationRequest.RedirectURI) = r.(AuthorizationRequest.RedirectURI) /\
  r'.(AuthorizationRequest.ResponseType) = r.(AuthorizationRequest.ResponseType) /\
  r'.(AuthorizationRequest.Scopes) = r.(AuthorizationRequest.Scopes) /\
  r'.(AuthorizationRequest.Audience) = r.(AuthorizationRequest.Audience) /\
  r'.(AuthorizationRequest.State) = r.(AuthorizationRequest.State) /\
  r'.(AuthorizationRequest.Nonce) = r.(AuthorizationRequest.Nonce) /\
  r'.(AuthorizationRequest.CodeChallenge) = r.(AuthorizationRequest.CodeChallenge) /\
  r'.(AuthorizationRequest.CodeChallengeMethod) = r.(AuthorizationRequest.CodeChallengeMethod).

Lemma describes_same client p scopes audience r r' :
  same_asked r r' -> describes client p scopes audience r -> describes client p scopes audience r'.
Proof. unfold describes, same_asked. intros. destruct_and!. split_and!; congruence. Qed.

Ltac base_describes Ha Hsame :=
  lazymatch type of Hsame with
  | context [base_request ?c (with_method ?p) ?sc ?a ?t] =>
      let Hb := fresh in pose proof (describes_base c p sc a t Ha) as Hb;
      generalize dependent (base_request c (with_method p) sc a t);
      intros; eapply describes_same; [eassumption | done]
  end.

(** A created request: the row as asked, stored, with the other tables as they were. *)
Lemma wp_CreateAuthRequest r env st (Q : result AuthorizationRequest.t -> State -> Prop) :
  (forall e st', same tokens st.(st_db) st'.(st_db) -> Q (Err e) st') ->
  (forall r' st', same_asked r r' ->
     r'.(AuthorizationRequest.UserID) = r.(AuthorizationRequest.UserID) ->
     r'.(AuthorizationRequest.Authenticated) = r.(AuthorizationRequest.Authenticated) ->
     r'.(AuthorizationRequest.ConsentGiven) = r.(AuthorizationRequest.ConsentGiven) ->
     st'.(st_db).(authorization_requests) !! r'.(AuthorizationRequest.ID) = Some r' ->
     same tokens st.(st_db) st'.(st_db) -> Q (Ok r') st') ->
  wp (CreateAuthRequest r) Q env st.
Proof.
  intros He Hok. unfold CreateAuthRequest. wp_steps; try by apply He.
  apply Hok; try done. simpl. by rewrite lookup_insert_eq.
Qed.

(** ** Completing without the user *)

Definition answer_post (env : Env) (client : OAuthClient.t) (p : InitAuthorizeParams.t) (db : DB) :
    result InitAuthorizeResponse.t -> State -> Prop := fun r st' =>
  match r with
  | Err _ => True
  | Ok resp => answered env client p db st'.(st_db) resp
  end.

Lemma wp_complete client p scopes audience req uid env db st
    (Q : result InitAuthorizeResponse.t -> State -> Prop) :
  scopes_allowed env db client p scopes audience -> describes client p scopes audience req ->
  req.(AuthorizationRequest.UserID) = Some uid -> same tokens db st.(st_db) ->
  identified env db p uid -> consented db client uid scopes ->
  (forall r st', answer_post env client p db r st' -> Q r st') ->
  wp (redirect <- completeAuthorize s req "" "" ;;
      ret (completed client req.(AuthorizationRequest.ID) scopes redirect)) Q env st.
Proof.
  intros Ha Hd Hu Hs Hi Hc HQ. wp_step. apply wp_completeAuthorize.
  - intros e st' _. by apply HQ.
  - intros redirect st' _ Hcode _ _. wp_step. apply HQ. exists scopes, audience, req.
    split_and!; try done. simpl. exists uid. split_and!; try done. by eapply code_issued_same.
Qed.

Lemma wp_handlePromptNone client p scopes audience resource env st
    (Q : result InitAuthorizeResponse.t -> State -> Prop) :
  admissible client p -> p.(InitAuthorizeParams.Prompt) = "none" ->
  scopes_allowed env st.(st_db) client p scopes audience ->
  (forall r st', answer_post env client p st.(st_db) r st' -> Q r st') ->
  wp (handlePromptNone s client (with_method p) scopes audience resource) Q env st.
Proof.
  intros Ha Hn Hs HQ. unfold handlePromptNone.
  assert (Hh : (with_method p).(InitAuthorizeParams.IDTokenHint) = p.(InitAuthorizeParams.IDTokenHint))
    by (unfold with_method; by case_match).
  destruct (idTokenValidator s) as [validate|] eqn:Ev; [|wp_step; by apply HQ].
  rewrite Hh. do 2 wp_step; [|by apply HQ]. wp_simpl. do 3 wp_step.
  destruct (validate _ _ _ _) as [uid|e] eqn:Eu; wp_simpl; [|by apply HQ].
  assert (Hi : identified env st.(st_db) p uid).
  { left. bool_simpl. split_and!; [done | done |]. by eexists validate, _. }
  wp_step. apply wp_consentCovers; [by destruct Hs | |].
  all: [> intros n | intros n Hcov]; wp_simpl; do 2 wp_step; try (by apply HQ); wp_simpl.
  all: assert (Hc : consented st.(st_db) client uid scopes) by (first [by right | left; by bool_simpl]).
  all: do 2 wp_step; wp_simpl; do 2 wp_step; apply wp_CreateAuthRequest; [intros; by apply HQ|].
  all: intros req st' Hsame Hu _ _ _ Hst; wp_simpl.
  all: eapply (wp_complete client p scopes audience req uid); try done.
  all: base_describes Ha Hsame.
Qed.

Lemma with_method_fields p :
  (with_method p).(InitAuthorizeParams.SessionCookie) = p.(InitAuthorizeParams.SessionCookie) /\
  (with_method p).(InitAuthorizeParams.Prompt) = p.(InitAuthorizeParams.Prompt) /\
  (with_method p).(InitAuthorizeParams.Scope) = p.(InitAuthorizeParams.Scope) /\
  (with_method p).(InitAuthorizeParams.Audience) = p.(InitAuthorizeParams.Audience).
Proof. unfold with_method. by case_match. Qed.

Lemma wp_FindByCookieToken raw env st (Q : result (option Session.t) -> State -> Prop) :
  (forall e n, Q (Err e) (mkState st.(st_db) n)) ->
  (forall n, Q (Ok None) (mkState st.(st_db) n)) ->
  (forall sess id n, raw <> "" -> st.(st_db).(sessions) !! id = Some sess ->
     SessionFacts.live env.(env_wall) sess -> sess.(Session.CookieTokenHash) = HashToken raw ->
     Q (Ok (Some sess)) (mkState st.(st_db) n)) ->
  wp (SessionSvc.FindByCookieToken raw) Q env st.
Proof.
  intros He Hn Hs. unfold SessionSvc.FindByCookieToken, SessionRepo.FindActiveByCookieHash.
  destruct st as [db n0]. wp_steps; try apply He; try apply Hn.
  destruct (first_row _ _ _) as [sess|] eqn:E; [|apply Hn].
  apply first_row_Some in E as (id & Hid & HP). unfold time_after in HP. bool_simpl.
  by eapply Hs.
Qed.

(** The branch of the cookie: prompt is empty or [consent]. *)
Lemma wp_silentSSO client p scopes audience resource env st
    (Q : result InitAuthorizeResponse.t -> State -> Prop) :
  admissible client p -> p.(InitAuthorizeParams.Prompt) <> "none" ->
  p.(InitAuthorizeParams.Prompt) <> "login" ->
  scopes_allowed env st.(st_db) client p scopes audience ->
  (forall r st', answer_post env client p st.(st_db) r st' -> Q r st') ->
  wp (silentSSO s client (with_method p) scopes audience resource (asked_max_age p)) Q env st.
Proof.
  intros Ha Hn Hl Hs HQ. unfold silentSSO. destruct (with_method_fields p) as (-> & -> & _).
  wp_step. apply wp_FindByCookieToken; [intros; by apply HQ | intros n0; wp_step; by apply HQ |].
  intros sess id n0 Hraw Hid Hlive Hhash. wp_simpl. do 2 wp_step. wp_simpl.
  do 2 wp_step; [|by apply HQ]. wp_simpl.
  assert (Hsess : session_of env st.(st_db) p sess).
  { split_and!; try done; [by exists id|]. destruct (asked_max_age p); [|done]. by bool_simpl. }
  wp_step. apply wp_consentCovers; [by destruct Hs | |].
  all: [> intros n | intros n Hcov]; wp_simpl; cbv zeta.
  all: wp_step; apply wp_CreateAuthRequest; [intros; by apply HQ|].
  all: intros req st' Hsame Hu Hauth Hgiven Hrow Hst; wp_simpl.
  all: assert (Hd : describes client p scopes audience req) by base_describes Ha Hsame.
  all: simpl in Hu, Hgiven.
  all: destruct (String.eqb_spec p.(InitAuthorizeParams.Prompt) "consent") as [Hpc|Hpc].
  all: try (wp_step; apply HQ; exists scopes, audience, req; split_and!; try done; simpl;
            split_and!; try done; by exists sess).
  2: eapply (wp_complete client p scopes audience req sess.(Session.UserID)); try done.
  - destruct (OAuthClient.IsFirstParty client) eqn:Efp; simpl in *.
    + eapply (wp_complete client p scopes audience req sess.(Session.UserID)); try done; [|by left].
      right. split; [|by exists sess]. pose proof (adm_prompt _ _ Ha). set_solver.
    + wp_step; apply HQ; exists scopes, audience, req; split_and!; try done; simpl;
            split_and!; try done; by exists sess.
  - right. split; [|by exists sess]. pose proof (adm_prompt _ _ Ha). set_solver.
  - by right.
Qed.

Lemma wp_startInteractive client p scopes audience resource maxAge env db st
    (Q : result InitAuthorizeResponse.t -> State -> Prop) :
  admissible client p -> p.(InitAuthorizeParams.Prompt) <> "none" ->
  scopes_allowed env db client p scopes audience ->
  (forall r st', answer_post env client p db r st' -> Q r st') ->
  wp (startInteractive client (with_method p) scopes audience resource maxAge) Q env st.
Proof.
  intros Ha Hn Hs HQ. unfold startInteractive. do 2 wp_step. wp_simpl.
  do 2 wp_step. apply wp_CreateAuthRequest; [intros; by apply HQ|].
  intros req st' Hsame Hu Hauth Hgiven Hrow Hst. wp_simpl.
  unfold interactive_request in *.
  assert (Hd : describes client p scopes audience req) by base_describes Ha Hsame.
  wp_step. apply HQ. exists scopes, audience, req. by split_and!.
Qed.

(** Refused parameters change nothing; a success is one of the two answers. *)
Definition init_post (env : Env) (client : OAuthClient.t) (p : InitAuthorizeParams.t) (db : DB)
    (r : result InitAuthorizeResponse.t) (db' : DB) : Prop :=
  match r with
  | Err _ => admissible client p \/ db' = db
  | Ok resp => admissible client p /\ answered env client p db db' resp
  end.

Lemma scopes_allowed_method env db client p scopes audience :
  scopes_allowed env db client (with_method p) scopes audience ->
  scopes_allowed env db client p scopes audience.
Proof.
  unfold scopes_allowed, scope_allowed. destruct (with_method_fields p) as (_ & _ & -> & ->). done.
Qed.

Lemma wp_InitAuthorize client p env st :
  wp (InitAuthorize s client p) (fun r st' => init_post env client p st.(st_db) r st'.(st_db)) env st.
Proof.
  unfold InitAuthorize. wp_step. apply wp_checkParams; [by right|]. intros Ha. wp_simpl.
  wp_step. apply wp_authorizeScopes; [by left|].
  intros scopes audience resource n Hs%scopes_allowed_method. wp_simpl.
  destruct (with_method_fields p) as (-> & -> & _).
  assert (HQ : forall r st', answer_post env client p st.(st_db) r st' ->
    init_post env client p st.(st_db) r st'.(st_db)) by (intros [a|e] st' Hp; [done | by left]).
  destruct (String.eqb_spec p.(InitAuthorizeParams.Prompt) "none") as [Hn|Hn].
  { by apply wp_handlePromptNone. }
  assert (Hstart : forall st', wp (startInteractive client (with_method p) scopes audience resource (asked_max_age p))
    (fun r st' => init_post env client p st.(st_db) r st'.(st_db)) env st')
    by (intros st'; by apply (wp_startInteractive client p scopes audience resource _ env st.(st_db))).
  wp_step. destruct (_ && _) eqn:E; [|wp_step; apply Hstart].
  apply andb_true_iff in E as [_ E]. bool_simpl.
  unfold trySilentSSO. wp_step. apply wp_silentSSO; try done.
  intros [resp|e] st' Hp; wp_simpl; [wp_step; by apply HQ | apply Hstart].
Qed.

(** C1: Parameters the client may not use are refused and leave no trace.  A
    success either answers at once, with a code bound to the request, for the
    user of a live session cookie or of a validated id_token_hint who consented
    to every scope (or a first-party client), and never when a login prompt was
    asked; or it stores the request, unauthenticated, or authenticated for the
    session's user and waiting for consent.  Either way the request keeps the
    client's registered redirect URI, its PKCE challenge with S256, and only
    scopes the client or the resource allows. *)
Theorem InitAuthorize_spec (client : OAuthClient.t) (p : InitAuthorizeParams.t) (env : Env) (db : DB) :
  let '(r, db') := run (InitAuthorize s client p) env db in init_post env client p db r db'.
Proof.
  destruct (run _ _ _) as [r db'] eqn:Hr.
  by destruct (wp_run _ _ _ _ (wp_InitAuthorize client p env (mkState db 0)) _ _ Hr).
Qed.

(** ** Pushed requests *)

Abbreviation pars := pushed_authorization_requests.

Ltac keep_pars :=
  first [apply preserves_read_only; side; solve [apply _]
        | apply (preserves_update_table (same pars)); side; done
        | apply (preserves_create_in (same pars)); side; done].

#[local] Instance CreateAuthRequest_pars r : Preserves (same pars) (CreateAuthRequest r).
Proof. unfold CreateAuthRequest. solve_preserves keep_pars. Qed.

#[local] Instance CreateSession_pars i : Preserves (same pars) (SessionSvc.Create s.(sessionService) i).
Proof.
  unfold SessionSvc.Create, SessionRepo.Create, GenerateOpaqueToken. solve_preserves keep_pars.
Qed.

#[local] Instance completeAuthorize_pars r ip ua : Preserves (same pars) (completeAuthorize s r ip ua).
Proof.
  unfold completeAuthorize, DeleteAuthRequest, CreateAuthCode, hybridAccessToken, CreateAccessToken,
    deref, GenerateOpaqueToken.
  solve_preserves keep_pars.
Qed.

#[local] Instance InitAuthorize_pars client p : Preserves (same pars) (InitAuthorize s client p).
Proof.
  unfold InitAuthorize, checkParams, parseMaxAge, authorizeScopes, clientScopesOnly,
    handlePromptNone, trySilentSSO, silentSSO, startInteractive.
  solve_preserves ltac:(first [keep_pars | apply preserves_read_only; side;
    apply SessionFacts.FindByCookieToken_read_only]).
Qed.

Lemma wp_InitAuthorize_pars client p env st :
  wp (InitAuthorize s client p) (fun r st' =>
    init_post env client p st.(st_db) r st'.(st_db) /\ same pars st.(st_db) st'.(st_db)) env st.
Proof.
  apply wp_conj; [apply wp_InitAuthorize|]. apply (wp_preserves (same pars)); [apply _ | done].
Qed.

Definition live_par (env : Env) (db : DB) (uri : string) (par : PushedAuthorizationRequest.t) : Prop :=
  db.(pars) !! uri = Some par /\ env.(env_wall) < par.(PushedAuthorizationRequest.ExpiresAt).

(** The active client of the identifier. *)
Definition client_of (db : DB) (cid : string) (client : OAuthClient.t) : Prop :=
  exists id, uuid_parse cid = Some id /\ db.(oauth_clients) !! id = Some client /\
    client.(OAuthClient.Active) = true.

Lemma wp_findClient cid env st (Q : result OAuthClient.t -> State -> Prop) :
  (forall e n, Q (Err e) (mkState st.(st_db) n)) ->
  (forall client n, client_of st.(st_db) cid client -> Q (Ok client) (mkState st.(st_db) n)) ->
  wp (findClient cid) Q env st.
Proof.
  intros He Hok. unfold findClient. destruct st as [db n0].
  destruct (uuid_parse cid) as [id|] eqn:Eid; [|wp_step; apply He].
  do 2 wp_step; wp_simpl; [wp_step; apply He|].
  destruct (oauth_clients db !! id) as [c|] eqn:Ec; simpl; [|wp_step; apply He].
  destruct (OAuthClient.Active c) eqn:Eact; wp_step; [|apply He].
  apply Hok. by exists id.
Qed.

(** What a success says: the stored request was live, of this client, and its
    parameters with the browser's cookie were accepted for the client. *)
Definition par_answered (env : Env) (uri cid cookie : string) (db : DB)
    (resp : InitAuthorizeResponse.t) (db' : DB) : Prop :=
  exists par p client db1, live_par env db uri par /\
    client_of db cid client /\
    uuid_string par.(PushedAuthorizationRequest.ClientID) = cid /\
    InitAuthorizeParams.unmarshal par.(PushedAuthorizationRequest.Params) = Ok p /\
    (db1 = db <| pars ::= delete uri |> \/ db1 = db) /\
    let p' := p <| InitAuthorizeParams.SessionCookie := cookie |> in
    admissible client p' /\ answered env client p' db1 db' resp.

Lemma wp_FindPAR uri env st
    (Q : result (option PushedAuthorizationRequest.t * option error) -> State -> Prop) :
  (forall z, Q (Ok (z, Some driver_error)) (bump st)) ->
  Q (Ok (None, None)) (bump st) ->
  (forall par, live_par env st.(st_db) uri par -> Q (Ok (Some par, None)) (bump st)) ->
  wp (FindPAR uri) Q env st.
Proof.
  intros He Hn Hs. apply wp_find_row; intros _; [apply He|].
  destruct (pars st.(st_db) !! uri) as [r|] eqn:Er; simpl; [|done].
  unfold time_after. destruct (_ <? _) eqn:E; [|done]. bool_simpl. by apply Hs.
Qed.

Lemma wp_InitAuthorizeFromPAR uri cid cookie env st :
  wp (InitAuthorizeFromPAR s uri cid cookie)
    (fun r st' => match r with
     | Ok resp => par_answered env uri cid cookie st.(st_db) resp st'.(st_db) /\
         (no_faults env -> st'.(st_db).(pars) !! uri = None)
     | Err _ => True
     end) env st.
Proof.
  unfold InitAuthorizeFromPAR, DeletePAR. wp_step. apply wp_FindPAR.
  { intros z. by wp_steps. }
  { by wp_steps. }
  intros par Hpar. wp_simpl. do 2 wp_step; [|done]. wp_simpl. bool_simpl. do 2 wp_step. wp_step.
  all: wp_simpl; destruct (InitAuthorizeParams.unmarshal _) as [p|] eqn:Ep; [|by wp_step].
  all: wp_step; apply wp_findClient; [done|]; intros client n Hclient; wp_simpl.
  all: eapply wp_mono; [|apply wp_InitAuthorize_pars].
  all: intros [resp|] st' [Hp Hs]; [|done].
  all: destruct Hclient as (id & Hid & Hc & Hact), Hp as [Ha Hans], Hpar as [Hpar Hlive].
  - split; [exists par, p, client, st.(st_db); by split_and!; try done; [eexists | right]|].
    intros Hnf. by rewrite Hnf in *.
  - split.
    + eexists par, p, client, _. by split_and!; try done; [eexists | left].
    + intros _. unfold same in Hs. rewrite Hs. apply lookup_delete_eq.
Qed.

Lemma wp_par_gone uri cid cookie env st :
  st.(st_db).(pars) !! uri = None ->
  wp (InitAuthorizeFromPAR s uri cid cookie)
    (fun r st' => (exists e, r = Err e) /\ st'.(st_db) = st.(st_db)) env st.
Proof.
  intros Hn. unfold InitAuthorizeFromPAR. wp_step. apply wp_FindPAR.
  - intros z. wp_steps. split; [by eexists | done].
  - wp_steps. split; [by eexists | done].
  - intros par [Hpar _]. congruence.
Qed.

End spec.

(** ** A sample pushed request *)

Definition sample_params : InitAuthorizeParams.t :=
  InitAuthorizeParams.zero
    <| InitAuthorizeParams.RedirectURI := "https://app/cb" |>
    <| InitAuthorizeParams.ResponseType := "code" |>
    <| InitAuthorizeParams.Scope := "openid read" |>
    <| InitAuthorizeParams.State := "xyz" |>.

Definition pushed `{Platform} : result PARResponse * DB :=
  run (CreatePAR Sample.client sample_params) (Sample.env 10) Sample.db.

Definition pushed_uri `{Platform} : string :=
  match pushed.1 with Ok r => r.(par_RequestURI) | Err _ => "" end.


(** [prompt=create] is not one of the values the endpoint knows. *)
Example prompt_create_refused :
  let P := sample_platform in
  let J := sample_jwt UserFacts.sample_claims 1000 in
  let p := sample_params <| InitAuthorizeParams.Prompt := "create" |> in
  (run (InitAuthorize Sample.service Sample.client p) (Sample.env 10) Sample.db).1
  = Err (ErrInvalidRequest "invalid prompt value").
Proof. vm_compute. reflexivity. Qed.

(** A fragment response is encoded twice: [params.Encode()] escapes the values
    and [u.String()] escapes the percent signs again, so that a client decodes
    the issuer to another string. *)
Definition fragment_response : AuthorizeConsentResponse.t :=
  AuthorizeConsentResponse.mk "https://app.example/cb" "abc" "" "https://idp" "" "fragment"
    "" "" 0 "" "" false 0.

Example fragment_encoded_twice :
  let P := sample_platform in
  BuildAuthorizeRedirectURL fragment_response
  = Ok "https://app.example/cb#code=abc&iss=https%253A%252F%252Fidp" /\
  unescape encodeQueryComponent "https%253A%252F%252Fidp" = Some "https%3A%2F%2Fidp".
Proof. split; vm_compute; reflexivity. Qed.

(** The silent sign-in looks at the session alone: the session of a user who was
    deactivated since still gets a code. *)
Definition deactivated_db : DB :=
  Sample.db
    <| users := {[ 5%N := UserFacts.sample_user <| User.Active := false |> ]} |>
    <| sessions := {[ 8%N := Session.zero <| Session.ID := 8%N |> <| Session.UserID := 5%N |>
         <| Session.CookieTokenHash := HashToken "cookie" |>
         <| Session.ExpiresAt := 1000 * second |> ]} |>.

Example silent_sign_in_of_deactivated_user :
  let P := sample_platform in
  let J := sample_jwt UserFacts.sample_claims 1000 in
  let client := Sample.client <| OAuthClient.IsFirstParty := true |> in
  let p := sample_params <| InitAuthorizeParams.SessionCookie := "cookie" |> in
  match (run (InitAuthorize Sample.service client p) (Sample.env 10) deactivated_db).1 with
  | Ok resp => is_Some_b resp.(InitAuthorizeResponse.Redirect)
  | Err _ => false
  end = true.
Proof. vm_compute. reflexivity. Qed.
