(* ===== verification/StepFacts.v ===== *)
(** * What each step of an authorization request promises

    Sign-in, the second factor, consent, and the completion of a request that
    needs no consent, with [mfa.Service] as the validator of the second
    factor. *)
From S2P Require Import Prelude.
From S2P Require Import Errors.
From S2P Require Import GoLib.
From S2P Require Import Model.
From S2P Require Import Platform.
From S2P Require Import Config.
From S2P Require Import Exec.
From S2P Require Import Crypto.
From S2P Require Import SessionSvc.
From S2P Require Import OAuthRepo.
From S2P Require Import Scopes.
From S2P Require Import Policy.
From S2P Require Import ActionToken.
From S2P Require Import UserSvc.
From S2P Require Import MfaSvc.
From S2P Require Import OAuth.
From S2P Require Import Token.
From S2P Require Import Authorize.
From S2P Require Import AuthSteps.
From S2P Require Import AuthFacts.
From S2P Require Import InitFacts.
Local Open Scope Z_scope.

(** ** The parts the steps share *)

Definition but_users (d : DB) : DB := d <| users := ∅ |>.

(** The request a step found. *)
Definition live_request (env : Env) (db : DB) (id : UUID) (req : AuthorizationRequest.t) : Prop :=
  db.(authorization_requests) !! id = Some req /\
  env.(env_wall) < req.(AuthorizationRequest.ExpiresAt).

Definition second_factor (db : DB) (u : UUID) : Prop :=
  exists id m, db.(mfa_methods) !! id = Some m /\ m.(MFAMethod.UserID) = u /\
    m.(MFAMethod.Verified) = true.

Section steps.
Context `{Platform} `{JwtLib} `{TotpLib} (s : Service).
Context (Hv : forall v, s.(mfaValidator) = Some v -> v = mfa_service).

#[local] Instance Authenticate_but_users i :
  Preserves (same but_users) (UserSvc.Authenticate s.(userService) i).
Proof.
  unfold UserSvc.Authenticate, UserSvc.maybeRehash, UserSvc.incrementFailedAttempts,
    UserSvc.requiresEmailVerification, UserRepo.UpdateFields.
  solve_preserves ltac:(first [apply preserves_read_only; side; solve [apply _]
    | apply (preserves_update_table (same but_users)); side; done]).
Qed.

Lemma wp_sign_in input env st (Q : result User.t -> State -> Prop) :
  (forall e st', same but_users st.(st_db) st'.(st_db) -> Q (Err e) st') ->
  (forall u st', same but_users st.(st_db) st'.(st_db) ->
     UserFacts.signed_in s.(userService) input env st.(st_db) u -> Q (Ok u) st') ->
  wp (UserSvc.Authenticate s.(userService) input) Q env st.
Proof.
  intros He Hok. eapply wp_mono; [|apply wp_conj; [apply UserFacts.wp_Authenticate|
    apply (wp_preserves (same but_users) _ (fun _ st' => same but_users st.(st_db) st'.(st_db)));
      [apply _ | done]]].
  intros [u|e] st' [Hs Hf]; auto.
Qed.

Lemma wp_userHasMFA u env st (Q : result bool -> State -> Prop) :
  (forall b n, (no_faults env ->
      (b = true <-> s.(mfaValidator) <> None /\ second_factor st.(st_db) u)) ->
     Q (Ok b) (mkState st.(st_db) n)) ->
  wp (userHasMFA s u) Q env st.
Proof.
  intros Hok. unfold userHasMFA. destruct st as [db n0].
  destruct (mfaValidator s) as [v|] eqn:Ev.
  2:{ wp_step. apply Hok. intros _. split; [done | by intros [? _]]. }
  rewrite (Hv v eq_refl). simpl. unfold MfaSvc.HasMFA, MfaRepo.FindVerifiedByUser, MfaRepo.find.
  wp_steps; apply Hok; intros Hnf; [by rewrite Hnf in *|]. split.
  - intros Hb. split; [done|]. destruct (first_row _ _ _) as [m|] eqn:E; [|done].
    apply first_row_Some in E as (id & Hid & Hm). unfold MfaRepo.verified_of in Hm. bool_simpl.
    by exists id, m.
  - intros [_ (id & m & Hid & Hu & Hver)]. destruct (first_row _ _ _) eqn:E; [done|exfalso].
    rewrite first_row_None in E. specialize (E _ _ Hid). unfold MfaRepo.verified_of in E.
    rewrite Hver, Hu, N.eqb_refl in E. done.
Qed.

Lemma wp_mfaPolicy u client scopes b ip ua env st (Q : result bool -> State -> Prop) :
  (forall e n, Q (Err e) (mkState st.(st_db) n)) ->
  (forall b' n, (s.(policyEvaluator) = None -> b' = b) -> Q (Ok b') (mkState st.(st_db) n)) ->
  wp (mfaPolicy s u client scopes b ip ua) Q env st.
Proof.
  intros He Hok. destruct (policyEvaluator s) as [ev|] eqn:Epe.
  - apply wp_read_only; [apply _|]. intros [b'|e] n; [|apply He]. apply Hok. congruence.
  - unfold mfaPolicy. rewrite Epe. wp_step. destruct st. by apply Hok.
Qed.

(** ** Sign-in *)

(** Consent need not be asked: it is on file, or the client is first-party. *)
Definition consent_settled (db : DB) (req : AuthorizationRequest.t) (u : UUID) : Prop :=
  forcesConsent req = false /\
  (req.(AuthorizationRequest.Scopes) = [] \/
   consent_on_file db u req.(AuthorizationRequest.ClientID) req.(AuthorizationRequest.Scopes) \/
   exists client, client_of db (uuid_string req.(AuthorizationRequest.ClientID)) client /\
     client.(OAuthClient.IsFirstParty) = true).

(** The row the sign-in saves. *)
Definition login_row (env : Env) (req : AuthorizationRequest.t) (i : AuthorizeLoginInput) (u : User.t)
    (resp : AuthorizeLoginResponse) : AuthorizationRequest.t :=
  touched env.(env_wall)
    (after_first_factor (req <| AuthorizationRequest.RememberMe := i.(in_RememberMe) |>)
       u.(User.ID) "pwd" resp.(login_RequiresMFA) resp.(login_RequiresConsent) env.(env_now)).

Definition login_post (env : Env) (i : AuthorizeLoginInput) (db : DB)
    (r : result AuthorizeLoginResponse) (db' : DB) : Prop :=
  match r with
  | Err _ => same but_users db db'
  | Ok resp =>
      exists req u, live_request env db i.(in_RequestID) req /\
        req.(AuthorizationRequest.Authenticated) = false /\
        UserFacts.signed_in s.(userService) (UserSvc.mkLoginInput i.(in_Email) i.(in_Password)) env db u /\
        same but_users (db <| authorization_requests ::=
          insert req.(AuthorizationRequest.ID) (login_row env req i u resp) |>) db' /\
        resp.(login_Authenticated) = negb resp.(login_RequiresMFA) /\
        (login_row env req i u resp).(AuthorizationRequest.Authenticated) = resp.(login_Authenticated) /\
        (resp.(login_RequiresConsent) = false -> consent_settled db req u.(User.ID)) /\
        (no_faults env -> s.(policyEvaluator) = None ->
           (resp.(login_RequiresMFA) = true <->
            s.(mfaValidator) <> None /\ second_factor db u.(User.ID)))
  end.

Lemma settled_consentCovers db req u env st (Q : result bool -> State -> Prop) :
  st.(st_db).(consents) = db.(consents) ->
  (forall b n, (b = true -> req.(AuthorizationRequest.Scopes) = [] \/
     consent_on_file db u req.(AuthorizationRequest.ClientID) req.(AuthorizationRequest.Scopes)) ->
     Q (Ok b) (mkState st.(st_db) n)) ->
  wp (consentCovers u req.(AuthorizationRequest.ClientID) req.(AuthorizationRequest.Scopes)) Q env st.
Proof.
  intros Hc HQ. destruct (AuthorizationRequest.Scopes req) as [|x l] eqn:El.
  - unfold consentCovers, FindActiveConsent. destruct st as [db' n0].
    do 2 wp_step; wp_step; apply HQ; by left.
  - apply wp_consentCovers; [done | intros n; by apply HQ |].
    intros n Hf. apply HQ. intros _. right. unfold consent_on_file in *. by rewrite <-Hc.
Qed.

Ltac wp_hook ::= apply wp_read_only; [solve [apply _] | intros ? ?].

Lemma but_users_fields d d' : same but_users d d' ->
  d'.(authorization_requests) = d.(authorization_requests) /\ d'.(consents) = d.(consents) /\
  d'.(mfa_methods) = d.(mfa_methods) /\ d'.(oauth_clients) = d.(oauth_clients).
Proof.
  intros Hs. split_and!; [exact (f_equal authorization_requests Hs) | exact (f_equal consents Hs)
    | exact (f_equal mfa_methods Hs) | exact (f_equal oauth_clients Hs)].
Qed.

Lemma but_users_insert d d' id r : same but_users d d' ->
  same but_users (d <| authorization_requests ::= insert id r |>)
    (d' <| authorization_requests ::= insert id r |>).
Proof.
  intros Hs. exact (f_equal (fun d => d <| authorization_requests ::= insert id r |>) Hs).
Qed.

Lemma needs_consent_settled db req u b client :
  (b = true -> req.(AuthorizationRequest.Scopes) = [] \/
     consent_on_file db u req.(AuthorizationRequest.ClientID) req.(AuthorizationRequest.Scopes)) ->
  client_of db (uuid_string req.(AuthorizationRequest.ClientID)) client ->
  (if forcesConsent req then true
   else if b then false else negb client.(OAuthClient.IsFirstParty)) = false ->
  consent_settled db req u.
Proof.
  intros Hb Hc Hn. unfold consent_settled. destruct (forcesConsent req); [done|]. split; [done|].
  destruct b; [destruct (Hb eq_refl); auto|]. right. right. exists client. split; [done|].
  by apply negb_false_iff.
Qed.

Lemma after_first_factor_id req u m a b now :
  (after_first_factor req u m a b now).(AuthorizationRequest.ID) = req.(AuthorizationRequest.ID).
Proof. unfold after_first_factor. destruct a; [by case_match | by destruct b]. Qed.

Lemma after_first_factor_auth req u m a b now :
  req.(AuthorizationRequest.Authenticated) = false ->
  (after_first_factor req u m a b now).(AuthorizationRequest.Authenticated) = negb a.
Proof. intros Ha. unfold after_first_factor. destruct a; [by case_match | by destruct b]. Qed.

Lemma wp_AuthorizeLogin i ip ua env st :
  wp (AuthorizeLogin s i ip ua) (fun r st' => login_post env i st.(st_db) r st'.(st_db)) env st.
Proof.
  unfold AuthorizeLogin. wp_step. apply wp_liveRequest; [done|]. intros req n Hreq Hw. wp_simpl.
  do 2 wp_step; [|done]. wp_simpl. bool_simpl.
  wp_step. apply wp_sign_in; [done|]. intros u st1 Hs1 Hsigned. wp_simpl. simpl in Hs1, Hsigned.
  destruct (but_users_fields _ _ Hs1) as (Hr1 & Hc1 & Hm1 & Ho1).
  do 2 wp_step. apply wp_findClient; [done|]. intros client n1 Hclient. wp_simpl.
  wp_step. apply wp_read_only; [apply _|]. intros [[]|e] n2; wp_simpl; [|done].
  wp_step. apply (settled_consentCovers st.(st_db)); [done|]. intros covered n3 Hcov. wp_simpl. cbv zeta.
  wp_step. apply wp_userHasMFA. intros hasMFA n4 Hhas. wp_simpl.
  wp_step. apply wp_mfaPolicy; [done|]. intros needsMFA n5 Hneeds. wp_simpl. do 2 wp_step. wp_simpl.
  wp_step. apply wp_saveRequest; [done|]. intros n6 row. wp_simpl. wp_step.
  rewrite after_first_factor_id. simpl.
  exists req, u. split; [done|]. split; [done|]. split; [done|].
  split; [by apply but_users_insert|]. split; [done|].
  split; [by apply after_first_factor_auth|]. split.
  - apply (needs_consent_settled _ _ _ covered client); [done|].
    unfold client_of in *. by rewrite <-Ho1.
  - intros Hnf Hpe. rewrite (Hneeds Hpe). unfold second_factor in *. rewrite <-Hm1. by apply Hhas.
Qed.

(** A sign-in step succeeds only on a live request that is not authenticated,
    with the password of an active, unlocked account.  It saves one request,
    authenticated exactly when no second factor is needed; without a policy and
    faults one is needed exactly when the user enrolled one; and consent is
    skipped only when it is on file or the client is first-party.  A refused
    sign-in touches no table but the users. *)
Theorem AuthorizeLogin_spec (i : AuthorizeLoginInput) (ip ua : string) (env : Env) (db db' : DB)
    (r : result AuthorizeLoginResponse) :
  run (AuthorizeLogin s i ip ua) env db = (r, db') -> login_post env i db r db'.
Proof. intros Hr. by destruct (wp_run _ _ _ _ (wp_AuthorizeLogin i ip ua env (mkState db 0)) _ _ Hr). Qed.

(** ** The second factor *)

(** The row after the second factor; [given] is its consent column. *)
Definition mfa_row (env : Env) (req : AuthorizationRequest.t) (given : bool) : AuthorizationRequest.t :=
  touched env.(env_wall)
    (req <| AuthorizationRequest.Authenticated := true |>
         <| AuthorizationRequest.AuthMethods ::= fun l => l ++ ["otp"] |>
         <| AuthorizationRequest.AuthTime := Some env.(env_now) |>
         <| AuthorizationRequest.ConsentGiven := given |>).

Definition mfa_post (env : Env) (id : UUID) (code : string) (db : DB)
    (r : result AuthorizeLoginResponse) (db' : DB) : Prop :=
  match r with
  | Err _ => same flow_tables db db'
  | Ok resp =>
      exists req u given db1, live_request env db id req /\
        req.(AuthorizationRequest.UserID) = Some u /\
        req.(AuthorizationRequest.Authenticated) = false /\
        MfaFacts.accepted u code env db db1 /\
        db' = db1 <| authorization_requests ::=
                insert req.(AuthorizationRequest.ID) (mfa_row env req given) |> /\
        (given = true -> consent_settled db req u \/
           (forcesConsent req = false /\ req.(AuthorizationRequest.ConsentGiven) = true)) /\
        (resp.(login_RequiresConsent) = false -> given = true)
  end.

Lemma wp_mfaConsent db req u env st (Q : result (bool * bool) -> State -> Prop) :
  st.(st_db).(consents) = db.(consents) -> st.(st_db).(oauth_clients) = db.(oauth_clients) ->
  (forall e n, Q (Err e) (mkState st.(st_db) n)) ->
  (forall needs given n,
     (given = true -> consent_settled db req u \/
        (forcesConsent req = false /\ req.(AuthorizationRequest.ConsentGiven) = true)) ->
     (needs = false -> given = true) -> Q (Ok (needs, given)) (mkState st.(st_db) n)) ->
  wp (mfaConsent req u) Q env st.
Proof.
  intros Hc Ho He Hok. unfold mfaConsent. wp_step. apply (settled_consentCovers db); [done|].
  intros covered n Hcov. wp_simpl. unfold consent_settled in *.
  destruct covered; [|do 3 wp_step; apply wp_findClient; [intros; wp_simpl; apply He|]; intros client n1 Hcl].
  all: wp_simpl; repeat wp_step; destruct (forcesConsent req) eqn:Ef; apply Hok; try done; auto.
  - intros _. left. split; [done|]. destruct (Hcov eq_refl); auto.
  - intros _. left. split; [done|]. right. right. exists client. split; [|done].
    unfold client_of in *. by rewrite <-Ho.
Qed.

Lemma accepted_flow u code env db db1 :
  MfaFacts.accepted u code env db db1 -> same_but_mfa db db1.
Proof. intros (id & m & m' & _ & _ & _ & _ & ->). by eexists. Qed.

Lemma wp_AuthorizeMFA id code env st :
  wp (AuthorizeMFA s id code) (fun r st' => mfa_post env id code st.(st_db) r st'.(st_db)) env st.
Proof.
  unfold AuthorizeMFA. wp_step. apply wp_liveRequest; [done|]. intros req n Hreq Hw. wp_simpl.
  destruct (AuthorizationRequest.UserID req) as [u|] eqn:Hu; [|by wp_step].
  do 2 wp_step; [|done]. wp_simpl. bool_simpl.
  destruct (mfaValidator s) as [v|] eqn:Ev; [|by wp_step].
  rewrite (Hv v eq_refl). simpl. do 2 wp_step.
  eapply wp_mono; [|apply MfaFacts.wp_ValidateCode].
  intros [[]|e] st1 Hval; wp_simpl; simpl in Hval.
  2:{ do 2 wp_step; [done|]. simpl. by rewrite Hval. }
  2:{ simpl. by rewrite Hval. }
  destruct (accepted_flow _ _ _ _ _ Hval) as [t Ht].
  assert (Hf : same flow_tables st.(st_db) st1.(st_db)) by by rewrite Ht.
  do 2 wp_step; [|done]. wp_simpl. do 2 wp_step. wp_simpl.
  wp_step. apply (wp_mfaConsent st.(st_db)); [by rewrite Ht | by rewrite Ht | done |].
  intros needs given n1 Hg Hn. wp_simpl.
  wp_step. apply wp_saveRequest; [done|]. intros n2 row. wp_simpl. wp_step. simpl.
  exists req, u, given, st1.(st_db). by split_and!.
Qed.

(** The second-factor step succeeds only on a live request whose user passed the
    first factor and is not yet authenticated, with a code the validator
    accepted and recorded as used; it authenticates that request and no other,
    and gives consent only when consent need not be asked. *)
Theorem AuthorizeMFA_spec (id : UUID) (code : string) (env : Env) (db db' : DB)
    (r : result AuthorizeLoginResponse) :
  run (AuthorizeMFA s id code) env db = (r, db') -> mfa_post env id code db r db'.
Proof. intros Hr. by destruct (wp_run _ _ _ _ (wp_AuthorizeMFA id code env (mkState db 0)) _ _ Hr). Qed.

(** ** Consent *)

Definition consent_row (env : Env) (req : AuthorizationRequest.t) (l : list string) : AuthorizationRequest.t :=
  touched env.(env_wall)
    (req <| AuthorizationRequest.ConsentGiven := true |> <| AuthorizationRequest.Scopes := l |>).

Definition consent_post (env : Env) (id : UUID) (submitted : list string) (db : DB)
    (r : result AuthorizeConsentResponse.t) (db' : DB) : Prop :=
  match r with
  | Err _ => True
  | Ok resp =>
      exists req u l, live_request env db id req /\
        req.(AuthorizationRequest.Authenticated) = true /\
        req.(AuthorizationRequest.UserID) = Some u /\
        l <> [] /\ (forall x, x ∈ l -> x ∈ req.(AuthorizationRequest.Scopes) /\ x ∈ submitted) /\
        code_issued s env (consent_row env req l) db db' resp /\
        (no_faults env ->
           (exists cid c, db'.(consents) !! cid = Some c /\ c.(Consent.UserID) = u /\
              c.(Consent.ClientID) = req.(AuthorizationRequest.ClientID) /\
              c.(Consent.RevokedAt) = None /\ c.(Consent.Scopes) = l) /\
           db'.(authorization_requests) !! req.(AuthorizationRequest.ID) = None)
  end.

Lemma wp_storeConsent u cid l env st (Q : result unit -> State -> Prop) :
  (forall e st', Q (Err e) st') ->
  (forall st', same flow_tables st.(st_db) st'.(st_db) ->
     (no_faults env -> exists k c, st'.(st_db).(consents) !! k = Some c /\ c.(Consent.UserID) = u /\
        c.(Consent.ClientID) = cid /\ c.(Consent.RevokedAt) = None /\ c.(Consent.Scopes) = l) ->
     Q (Ok tt) st') ->
  wp (storeConsent u cid l) Q env st.
Proof.
  intros He Hok. unfold storeConsent, FindActiveConsent, UpdateConsent, CreateConsent.
  wp_steps; try apply He; apply Hok; try done; intros Hnf; try (by rewrite Hnf in * ).
  1,2: apply first_row_Some in Heqo as (k & Hk & HP); bool_simpl.
  all: eexists _, _; split; [apply lookup_insert_eq|]; split_and!; try done.
  all: simpl; by destruct (Consent.RevokedAt t).
Qed.

Lemma wp_AuthorizeConsent id submitted ip ua env st :
  wp (AuthorizeConsent s id submitted ip ua)
    (fun r st' => consent_post env id submitted st.(st_db) r st'.(st_db)) env st.
Proof.
  unfold AuthorizeConsent. wp_step. apply wp_liveRequest; [done|]. intros req n Hreq Hw. wp_simpl.
  do 2 wp_step; [|done]. wp_simpl.
  destruct (AuthorizationRequest.UserID req) as [u|] eqn:Hu; [|by wp_step].
  cbv zeta. do 2 wp_step; [|done]. wp_simpl.
  wp_step. apply wp_consentPolicy; [done|]. intros l n2 Hsub Hne. wp_simpl.
  wp_step. apply wp_storeConsent; [done|]. intros st1 Hf Hcons. wp_simpl.
  wp_step. apply wp_saveRequest; [done|]. intros n3 row. wp_simpl.
  apply wp_completeAuthorize; [done|]. intros resp st2 _ Hcode Hgone Hkeep.
  exists req, u, l. split_and!; try done.
  - by apply Hne, nil_or_empty_false.
  - intros x Hx%Hsub. rewrite mem_filterScopes in Hx. tauto.
  - eapply code_issued_same; [|exact Hcode].
    exact (f_equal snd Hf).
  - intros Hnf. split; [by rewrite Hkeep; apply Hcons|]. rewrite (Hgone Hnf). apply lookup_delete_eq.
Qed.

(** A consent step that answers was given for a live, authenticated request; the
    scopes granted are non-empty and each was both requested and submitted; the
    code is bound to that request with those scopes; and without faults the
    consent is on file and the request is gone. *)
Theorem AuthorizeConsent_spec (id : UUID) (submitted : list string) (ip ua : string)
    (env : Env) (db : DB) :
  let '(r, db') := run (AuthorizeConsent s id submitted ip ua) env db in
  consent_post env id submitted db r db'.
Proof.
  destruct (run _ _ _) as [r db'] eqn:Hr.
  by destruct (wp_run _ _ _ _ (wp_AuthorizeConsent id submitted ip ua env (mkState db 0)) _ _ Hr).
Qed.

(** ** Completion without consent *)

Definition first_party_post (env : Env) (id : UUID) (db : DB)
    (r : result AuthorizeConsentResponse.t) (db' : DB) : Prop :=
  match r with
  | Err _ => True
  | Ok resp =>
      exists req, live_request env db id req /\
        req.(AuthorizationRequest.Authenticated) = true /\
        req.(AuthorizationRequest.ConsentGiven) = true /\
        code_issued s env req db db' resp /\
        (no_faults env -> db'.(authorization_requests) !! req.(AuthorizationRequest.ID) = None)
  end.

Lemma wp_CompleteFirstParty id ip ua env st :
  wp (CompleteAuthorizeFirstParty s id ip ua)
    (fun r st' => first_party_post env id st.(st_db) r st'.(st_db)) env st.
Proof.
  unfold CompleteAuthorizeFirstParty. wp_step.
  apply wp_FindAuthRequest; [by wp_steps | | by wp_steps]. intros req Hreq Hw. wp_simpl.
  do 2 wp_step. wp_simpl. do 2 wp_step; [|done]. wp_simpl.
  unfold AuthorizationRequest.IsReady in *. bool_simpl.
  apply wp_completeAuthorize; [done|]. intros resp st2 _ Hcode Hgone _.
  exists req. split_and!; try done. intros Hnf. rewrite (Hgone Hnf). apply lookup_delete_eq.
Qed.

(** The two ways to answer a request: with the submitted scopes, or without consent. *)
Definition answer_request (id : UUID) (submitted : option (list string)) (ip ua : string)
    : M AuthorizeConsentResponse.t :=
  match submitted with
  | Some l => AuthorizeConsent s id l ip ua
  | None => CompleteAuthorizeFirstParty s id ip ua
  end.

Lemma wp_request_gone id sub ip ua env st :
  st.(st_db).(authorization_requests) !! id = None ->
  wp (answer_request id sub ip ua)
    (fun r st' => (exists e, r = Err e) /\ st'.(st_db) = st.(st_db)) env st.
Proof.
  intros Hn. destruct sub as [l|]; simpl.
  - unfold AuthorizeConsent. wp_step. apply wp_liveRequest.
    + intros e n. split; [by eexists | done].
    + intros req n Hreq _. congruence.
  - unfold CompleteAuthorizeFirstParty. wp_step. apply wp_FindAuthRequest.
    + wp_steps. split; [by eexists | done].
    + intros req Hreq _. congruence.
    + wp_steps. split; [by eexists | done].
Qed.

(** Once a request was answered with a code it is gone: neither completion
    answers for it again, in either order, and neither changes anything. *)
Theorem request_answered_once (id : UUID) (sub sub' : option (list string)) (ip ua ip' ua' : string)
    (env env' : Env) (db db1 db2 : DB) (resp : AuthorizeConsentResponse.t)
    (r : result AuthorizeConsentResponse.t) :
  no_faults env -> requests_wf db.(authorization_requests) ->
  run (answer_request id sub ip ua) env db = (Ok resp, db1) ->
  run (answer_request id sub' ip' ua') env' db1 = (r, db2) ->
  (exists e, r = Err e) /\ db2 = db1.
Proof.
  intros Hnf Hwf H1' H2'.
  assert (Hgone : db1.(authorization_requests) !! id = None).
  { destruct sub as [l|]; simpl in H1'.
    - destruct (wp_run _ _ _ _ (wp_AuthorizeConsent id l ip ua env (mkState db 0)) _ _ H1')
        as (n & req & u & g & [Hreq _] & _ & _ & _ & _ & _ & Hg).
      destruct (Hwf _ _ Hreq) as [<- _]. by apply Hg.
    - destruct (wp_run _ _ _ _ (wp_CompleteFirstParty id ip ua env (mkState db 0)) _ _ H1')
        as (n & req & [Hreq _] & _ & _ & _ & Hg).
      destruct (Hwf _ _ Hreq) as [<- _]. by apply Hg. }
  by destruct (wp_run _ _ _ _ (wp_request_gone id sub' ip' ua' env' (mkState db1 0) Hgone) _ _ H2').
Qed.

Lemma wp_not_authenticated id sub ip ua env st :
  (forall req, st.(st_db).(authorization_requests) !! id = Some req ->
     req.(AuthorizationRequest.Authenticated) = false) ->
  wp (answer_request id sub ip ua) (fun r _ => exists e, r = Err e) env st.
Proof.
  intros Hn. destruct sub as [l|]; simpl.
  - unfold AuthorizeConsent. wp_step. apply wp_liveRequest; [by eexists|].
    intros req n Hreq _. wp_simpl. do 2 wp_step; [|by eexists].
    match goal with Ha : _ = true |- _ => by rewrite (Hn _ Hreq) in Ha end.
  - unfold CompleteAuthorizeFirstParty. wp_step. apply wp_FindAuthRequest.
    + wp_steps. by eexists.
    + intros req Hreq _. wp_simpl. do 4 wp_step; [|by eexists].
      unfold AuthorizationRequest.IsReady in *. by rewrite (Hn _ Hreq) in *.
    + wp_steps. by eexists.
Qed.

End steps.

(** ** Samples: a service with the second factor, and a user who enrolled *)

Definition mfa_sample (v : MFAValidator) : Service := {|
  userService := UserFacts.sample_service;
  sessionService := Sample.service.(sessionService);
  cfg := UserFacts.sample_cfg;
  issuer := "https://op";
  idTokenGen := None; jwtSigner := None;
  mfaValidator := Some v;
  policyEvaluator := None; resourceValidator := None; idTokenValidator := None; roleProvider := None
|}.

Definition enrolled_db : DB :=
  sample_requests <| mfa_methods := {[ 7%N := MfaFacts.sample_method <| MFAMethod.UserID := 5%N |> ]} |>.

Lemma sample_validator `{TotpLib} v :
  (mfa_sample mfa_service).(mfaValidator) = Some v -> v = mfa_service.
Proof. by intros [=]. Qed.

Lemma AuthorizeLogin_spec_witness :
  let P := sample_platform in
  let J := sample_jwt UserFacts.sample_claims 1000 in
  let T := MfaFacts.sample_totp in
  let s := mfa_sample mfa_service in
  let out := run (AuthorizeLogin s sample_login "" "") (Sample.env 10) sample_requests in
  is_ok out.1 = true /\ login_post s (Sample.env 10) sample_login sample_requests out.1 out.2.
Proof.
  intros P J T s out. split; [vm_compute; reflexivity|].
  apply (AuthorizeLogin_spec s sample_validator sample_login "" "" (Sample.env 10) sample_requests).
  apply surjective_pairing.
Defined.


(** After the password, the second factor: the code of the clock's step. *)
Definition after_password `{Platform} `{JwtLib} `{TotpLib} : DB :=
  (run (AuthorizeLogin (mfa_sample mfa_service) sample_login "" "") (Sample.env 10) enrolled_db).2.

Definition step_code : string := MfaFacts.sample_code "k" 3.

Lemma AuthorizeMFA_spec_witness :
  let P := sample_platform in
  let J := sample_jwt UserFacts.sample_claims 1000 in
  let T := MfaFacts.sample_totp in
  let out := run (AuthorizeMFA (mfa_sample mfa_service) 9%N step_code) (Sample.env 100) after_password in
  is_ok out.1 = true /\ mfa_post (Sample.env 100) 9%N step_code after_password out.1 out.2.
Proof.
  intros P J T out. split; [vm_compute; reflexivity|].
  apply (AuthorizeMFA_spec (mfa_sample mfa_service) sample_validator 9%N step_code (Sample.env 100)
           after_password).
  apply surjective_pairing.
Defined.

(** A request whose user signed in, waiting for consent. *)
Definition ready_request : AuthorizationRequest.t :=
  sample_request <| AuthorizationRequest.UserID := Some 5%N |>
    <| AuthorizationRequest.AuthMethods := ["pwd"] |>
    <| AuthorizationRequest.Authenticated := true |>
    <| AuthorizationRequest.AuthTime := Some (10 * second) |>
    <| AuthorizationRequest.UpdatedAt := 10 * second |>.

Definition ready_db : DB :=
  Sample.db <| authorization_requests := {[ 9%N := ready_request ]} |>.

Lemma ready_wf : requests_wf ready_db.(authorization_requests).
Proof.
  intros id r. change (authorization_requests ready_db) with ({[9%N := ready_request]} : requests).
  intros [<- <-]%lookup_singleton_Some. split; [done|]. split; [intros _; by eexists | done].
Qed.

Lemma request_answered_once_witness :
  let P := sample_platform in
  let J := sample_jwt UserFacts.sample_claims 1000 in
  let T := MfaFacts.sample_totp in
  let use n db := run (answer_request Sample.service 9%N (Some ["read"]) "" "") (Sample.env n) db in
  let first := use 20 ready_db in
  is_ok first.1 = true /\ (exists e, (use 25 first.2).1 = Err e) /\ (use 25 first.2).2 = first.2.
Proof.
  intros P J T use first.
  assert (Hok : is_ok first.1 = true) by (vm_compute; reflexivity). split; [exact Hok|].
  destruct (run_ok _ _ _ Hok) as [resp Hrun].
  apply (request_answered_once Sample.service 9%N (Some ["read"]) (Some ["read"]) "" "" "" ""
           (Sample.env 20) (Sample.env 25) ready_db first.2 (use 25 first.2).2 resp (use 25 first.2).1).
  - by intros n.
  - exact ready_wf.
  - exact Hrun.
  - apply surjective_pairing.
Defined.

(** When the lookup of the second factor fails, the sign-in goes on without it:
    the password alone authenticates the request of an enrolled user. *)
Example lost_lookup_skips_second_factor :
  let P := sample_platform in
  let J := sample_jwt UserFacts.sample_claims 1000 in
  let T := MfaFacts.sample_totp in
  exists k,
    let lost := Sample.env_at (10 * second) (fun n => Nat.eqb n k) in
    match (run (AuthorizeLogin (mfa_sample mfa_service) sample_login "" "") lost enrolled_db).1 with
    | Ok resp => resp.(login_Authenticated) && negb resp.(login_RequiresMFA)
    | Err _ => false
    end = true.
Proof. exists 4%nat. vm_compute. reflexivity. Qed.
