(* ===== verification/Rbac.v ===== *)
(** * rbac/: roles, permissions, and what a user may do

    The statements on [roles], [permissions] and their join tables
    (rbac/repository.go), the service over them (rbac/service.go), its adapter
    for the OAuth service (rbac/oauth_adapter.go) and the permission guards
    (rbac/middleware.go).  The foreign keys of the join tables and their
    cascades (migrations/011, 019) are part of the statements, since permissions
    are computed from the join tables alone. *)
From S2P Require Import Prelude.
From S2P Require Import Errors.
From S2P Require Import GoLib.
From S2P Require Import Model.
From S2P Require Import Platform.
From S2P Require Import Config.
From S2P Require Import Exec.
From S2P Require Import UserSvc.
From S2P Require Import MfaSvc.
From S2P Require Import Policy.
From S2P Require Import OAuth.
From S2P Require Import Middleware.
Local Open Scope Z_scope.

(** ** rbac/repository.go *)
Module RbacRepo.

Definition exists_in {V} (t : gmap UUID V) (id : UUID) : bool := is_Some_b (t !! id).

(** The rows a preload of a role's permissions fills in. *)
Definition permissions_of (db : DB) (roleID : UUID) : list Permission.t :=
  select_rows (fun p => bool_decide ((roleID, p.(Permission.ID)) ∈ db.(role_permissions)))
    db.(permissions).

Definition preload (db : DB) (r : Role.t) : Role.t :=
  r <| Role.Permissions := permissions_of db r.(Role.ID) |>.

Definition name_taken (t : gmap UUID Role.t) (id : UUID) (name : string) : bool :=
  is_Some_b (first_row N.leb
    (fun r => String.eqb r.(Role.Name) name && negb (N.eqb r.(Role.ID) id)) t).

(** [name] has a unique index. *)
Definition CreateRole (role : Role.t) : M Role.t :=
  id <- BeforeCreate role.(Role.ID) ;;
  wall <- wall_now ;;
  let row := role <| Role.ID := id |>
                  <| Role.CreatedAt ::= auto_time wall |>
                  <| Role.UpdatedAt ::= auto_time wall |> in
  stmt (fun _ db =>
    if exists_in db.(roles) id || name_taken db.(roles) id row.(Role.Name)
    then Err (EDriver "duplicate key value violates unique constraint")
    else Ok (db <| roles ::= insert id row |>)) ;;;
  ret row.

(** The row, then its permissions; a failed preload comes with the row. *)
Definition find_role (P : Role.t -> bool) : M (option Role.t * option error) :=
  let! (role, err) := find_row Role.zero (fun _ db => first_row N.leb P db.(roles)) ;;
  match err, role with
  | None, Some r =>
      perms <- attempt (query (fun _ db => permissions_of db r.(Role.ID))) ;;
      ret (match perms with
           | Ok l => (Some (r <| Role.Permissions := l |>), None)
           | Err e => (Some r, Some e)
           end)
  | _, _ => ret (role, err)
  end.

Definition FindRoleByID (id : UUID) : M (option Role.t * option error) :=
  find_role (fun r => N.eqb r.(Role.ID) id).

Definition FindRoleByName (name : string) : M (option Role.t * option error) :=
  find_role (fun r => String.eqb r.(Role.Name) name).

(** [Save] without the association. *)
Definition UpdateRole (role : Role.t) : M Role.t :=
  wall <- wall_now ;;
  let row := role <| Role.UpdatedAt := wall |> in
  stmt (fun _ db =>
    if name_taken db.(roles) row.(Role.ID) row.(Role.Name)
    then Err (EDriver "duplicate key value violates unique constraint")
    else Ok (db <| roles ::= insert row.(Role.ID) (row <| Role.Permissions := [] |>) |>)) ;;;
  ret row.

(** The join rows of the role go with it. *)
Definition DeleteRole (id : UUID) : M unit :=
  stmt (fun _ db =>
    Ok (db <| roles ::= delete id |>
           <| role_permissions ::= filter (fun p => N.eqb p.1 id = false) |>
           <| role_resource_permissions ::= filter (fun p => N.eqb p.1 id = false) |>
           <| user_roles ::= filter (fun p => N.eqb p.2 id = false) |>)).

Definition FindPermissionsByIDs (ids : list UUID) : M (list Permission.t) :=
  query (fun _ db =>
    select_rows (fun p => existsb (N.eqb p.(Permission.ID)) ids) db.(permissions)).

Definition add_permission (roleID permissionID : UUID) : M unit :=
  create_pair role_permissions (upd role_permissions)
    (fun db => exists_in db.(roles) roleID && exists_in db.(permissions) permissionID)
    (roleID, permissionID).

Definition SetRolePermissions (roleID : UUID) (permissionIDs : list UUID) : M unit :=
  transaction (
    delete_pairs (upd role_permissions) (fun p => N.eqb p.1 roleID) ;;;
    for_each permissionIDs (add_permission roleID)).

Definition has_role (db : DB) (userID roleID : UUID) : bool :=
  bool_decide ((userID, roleID) ∈ db.(user_roles)).

Definition GetUserRoles (userID : UUID) : M (list Role.t) :=
  l <- query (fun _ db => select_rows (fun r => has_role db userID r.(Role.ID)) db.(roles)) ;;
  query (fun _ db => map (preload db) l).

Definition AssignRole (userID roleID : UUID) : M unit :=
  create_pair user_roles (upd user_roles)
    (fun db => exists_in db.(users) userID && exists_in db.(roles) roleID) (userID, roleID).

Definition RemoveRole (userID roleID : UUID) : M unit :=
  delete_pairs (upd user_roles) (fun p => N.eqb p.1 userID && N.eqb p.2 roleID).

(** Some role of the user is joined to [permissionID] in [grants]. *)
Definition granted_by_role (db : DB) (grants : pairs) (userID permissionID : UUID) : bool :=
  existsb (fun ur => N.eqb ur.1 userID && bool_decide ((ur.2, permissionID) ∈ grants))
    (elements db.(user_roles)).

Definition GetUserPermissions (userID : UUID) : M (list string) :=
  query (fun _ db =>
    remove_dups (map Permission.Name
      (select_rows (fun p => granted_by_role db db.(role_permissions) userID p.(Permission.ID))
         db.(permissions)))).

End RbacRepo.

(** ** rbac/service.go *)
Module RbacSvc.

Record CreateRoleInput := mkCreateRoleInput { cr_Name : string; cr_Description : option string }.

(** A failed lookup comes with a zero row, which reads as a conflict. *)
Definition CreateRole (input : CreateRoleInput) : M Role.t :=
  let! (existing, err) := RbacRepo.FindRoleByName input.(cr_Name) ;;
  guard (negb (is_Some_b existing)) (ErrConflict "role name already exists") ;;;
  or_fail (RbacRepo.CreateRole (Role.zero <| Role.Name := input.(cr_Name) |>
                                          <| Role.Description := input.(cr_Description) |>))
    (ErrInternal "failed to create role").

Definition GetRole (id : UUID) : M Role.t :=
  let! (role, err) := RbacRepo.FindRoleByID id ;;
  match err, role with
  | Some _, _ => throw (ErrInternal "failed to find role")
  | None, None => throw (ErrNotFound "role not found")
  | None, Some role => ret role
  end.

Record UpdateRoleInput := mkUpdateRoleInput {
  ur_Name : option string;
  ur_Description : option string
}.

Definition UpdateRole (id : UUID) (input : UpdateRoleInput) : M Role.t :=
  role <- GetRole id ;;
  let role := match input.(ur_Name) with Some n => role <| Role.Name := n |> | None => role end in
  let role := match input.(ur_Description) with
              | Some d => role <| Role.Description := Some d |> | None => role end in
  or_fail (RbacRepo.UpdateRole role) (ErrInternal "failed to update role").

Definition DeleteRole (id : UUID) : M unit :=
  GetRole id ;;;
  or_fail (RbacRepo.DeleteRole id) (ErrInternal "failed to delete role").

Definition SetRolePermissions (roleID : UUID) (permIDs : list UUID) : M unit :=
  GetRole roleID ;;;
  or_fail (RbacRepo.SetRolePermissions roleID permIDs) (ErrInternal "failed to set permissions").

Definition AssignRole (userID roleID : UUID) : M unit :=
  GetRole roleID ;;;
  or_fail (RbacRepo.AssignRole userID roleID) (ErrInternal "failed to assign role").

(** [tx]: whether the caller passes its transaction, whose statements they are. *)
Definition AssignRoleInTx (tx : bool) (userID roleID : UUID) : M unit :=
  if negb tx then AssignRole userID roleID else AssignRole userID roleID.

Definition RemoveRole (userID roleID : UUID) : M unit :=
  or_fail (RbacRepo.RemoveRole userID roleID) (ErrInternal "failed to remove role").

Definition GetUserRoles (userID : UUID) : M (list Role.t) := RbacRepo.GetUserRoles userID.

Definition GetUserPermissions (userID : UUID) : M (list string) := RbacRepo.GetUserPermissions userID.

Definition HasPermission (userID : UUID) (permission : string) : M bool :=
  perms <- RbacRepo.GetUserPermissions userID ;;
  ret (mem permission perms).

End RbacSvc.

(** ** rbac/oauth_adapter.go *)
Definition OAuthRoleProvider : RoleProvider :=
  mkRoleProvider
    (fun userID => reader_of (roles <- RbacSvc.GetUserRoles userID ;; ret (map Role.Name roles)))
    (fun userID => reader_of (RbacSvc.GetUserPermissions userID)).

(** ** rbac/middleware.go *)
Module RbacGuards.

Definition authenticated (c : Context) : M UUID :=
  match c.(ContextUserID) with
  | Some u => ret u
  | None => throw (ErrUnauthorized "not authenticated")
  end.

Definition RequirePermission (permission : string) (c : Context) : M unit :=
  userID <- authenticated c ;;
  has <- opt (RbacSvc.HasPermission userID permission) ;;
  guard (default false has) (ErrForbidden "insufficient permissions").

(** The loop over the permissions: the first one the user has lets it through. *)
Fixpoint any_permission (userID : UUID) (permissions : list string) : M unit :=
  match permissions with
  | [] => throw (ErrForbidden "insufficient permissions")
  | perm :: rest =>
      has <- opt (RbacSvc.HasPermission userID perm) ;;
      if default false has then ret tt else any_permission userID rest
  end.

Definition RequireAnyPermission (permissions : list string) (c : Context) : M unit :=
  userID <- authenticated c ;;
  any_permission userID permissions.

End RbacGuards.

(** ** Facts *)
Module RbacFacts.
Import RbacSvc.

(** The user has the permission through the role. *)
Definition permitted_via (db : DB) (u role : UUID) (perm : string) : Prop :=
  (u, role) ∈ db.(user_roles) /\
  exists k p, db.(permissions) !! k = Some p /\ p.(Permission.Name) = perm /\
    (role, p.(Permission.ID)) ∈ db.(role_permissions).

Definition permitted (db : DB) (u : UUID) (perm : string) : Prop :=
  exists role, permitted_via db u role perm.

Lemma granted_by_role_iff db grants u p :
  RbacRepo.granted_by_role db grants u p = true <->
  exists r, (u, r) ∈ db.(user_roles) /\ (r, p) ∈ grants.
Proof.
  unfold RbacRepo.granted_by_role. rewrite existsb_exists. split.
  - intros ([u' r] & Hin & HP). simpl in HP. apply andb_true_iff in HP as [->%N.eqb_eq Hg].
    apply bool_decide_eq_true_1 in Hg. apply list_elem_of_In, elem_of_elements in Hin. by exists r.
  - intros (r & Hin & Hg). exists (u, r). split; [by apply list_elem_of_In, elem_of_elements|].
    simpl. rewrite N.eqb_refl. by apply bool_decide_eq_true_2.
Qed.

Lemma user_permissions_iff db u perm :
  perm ∈ remove_dups (map Permission.Name
    (select_rows (fun p => RbacRepo.granted_by_role db db.(role_permissions) u p.(Permission.ID))
       db.(permissions))) <-> permitted db u perm.
Proof.
  rewrite elem_of_remove_dups. rewrite list_elem_of_fmap. unfold permitted, permitted_via. split.
  - intros (p & -> & Hp). apply elem_of_select_rows in Hp as (k & Hk & Hg).
    apply granted_by_role_iff in Hg as (r & Hur & Hg). exists r. split; [done|]. by exists k, p.
  - intros (r & Hur & k & p & Hk & <- & Hg). exists p. split; [done|].
    apply elem_of_select_rows. exists k. split; [done|]. apply granted_by_role_iff. by exists r.
Qed.

Lemma wp_HasPermission u perm env st (Q : result bool -> State -> Prop) :
  (forall e n, env.(env_fail) st.(st_step) = true -> Q (Err e) (mkState st.(st_db) n)) ->
  (forall b n, (b = true <-> permitted st.(st_db) u perm) -> Q (Ok b) (mkState st.(st_db) n)) ->
  wp (HasPermission u perm) Q env st.
Proof.
  intros He Hok. unfold HasPermission, RbacRepo.GetUserPermissions. wp_steps; [by apply He|].
  apply Hok. rewrite mem_iff. apply user_permissions_iff.
Qed.

Lemma wp_any_permission u perms env st :
  wp (RbacGuards.any_permission u perms)
    (fun r st' => st'.(st_db) = st.(st_db) /\
       match r with
       | Ok _ => exists p, p ∈ perms /\ permitted st.(st_db) u p
       | Err e => e = ErrForbidden "insufficient permissions" /\
           (no_faults env -> forall p, p ∈ perms -> ~ permitted st.(st_db) u p)
       end) env st.
Proof.
  revert st. induction perms as [|perm perms IH]; intros st; simpl.
  - wp_step. split; [done|]. split; [done|]. by intros _ p ?%not_elem_of_nil.
  - do 2 wp_step. apply wp_HasPermission.
    + intros e n Hf. wp_simpl. eapply wp_mono; [|apply IH]. simpl.
      intros [[]|e'] st' [Hdb Hr]; (split; [done|]); [set_solver|].
      destruct Hr as [-> Hr]. split; [done|]. intros Hnf. by rewrite Hnf in Hf.
    + intros b n Hb. wp_simpl. destruct b; simpl.
      * wp_step. split; [done|]. exists perm. split; [set_solver | by apply Hb].
      * eapply wp_mono; [|apply IH]. simpl.
        intros [[]|e'] st' [Hdb Hr]; (split; [done|]); [set_solver|].
        destruct Hr as [-> Hr]. split; [done|]. intros Hnf p [->|Hp]%elem_of_cons; [|by apply Hr].
        intros Hperm%Hb. done.
Qed.

(** The admin guard lets a request through only when its user has one of the
    permissions through one of the user's roles; without faults it lets every
    such request through.  It reads only. *)
Theorem RequireAnyPermission_spec (perms : list string) (c : Context) (env : Env) (db : DB) :
  let '(r, db') := run (RbacGuards.RequireAnyPermission perms c) env db in
  db' = db /\
  match r with
  | Ok _ => exists u p, c.(ContextUserID) = Some u /\ p ∈ perms /\ permitted db u p
  | Err _ => no_faults env -> forall u p, c.(ContextUserID) = Some u -> p ∈ perms -> ~ permitted db u p
  end.
Proof.
  destruct (run _ _ _) as [r db'] eqn:Hr.
  assert (Hwp : wp (RbacGuards.RequireAnyPermission perms c)
    (fun r st' => st'.(st_db) = db /\
       match r with
       | Ok _ => exists u p, c.(ContextUserID) = Some u /\ p ∈ perms /\ permitted db u p
       | Err _ => no_faults env -> forall u p, c.(ContextUserID) = Some u -> p ∈ perms -> ~ permitted db u p
       end) env (mkState db 0)).
  { unfold RbacGuards.RequireAnyPermission, RbacGuards.authenticated.
    destruct (ContextUserID c) as [u|]; [|by wp_steps]. do 2 wp_step. wp_simpl.
    eapply wp_mono; [|apply wp_any_permission]. simpl.
    intros [[]|e] st' [Hdb Hp]; (split; [done|]).
    - destruct Hp as (p & Hin & Hp). by exists u, p.
    - destruct Hp as [_ Hp]. intros Hnf u' p [= <-]. by apply Hp. }
  by destruct (wp_run _ _ _ _ Hwp _ _ Hr).
Qed.

(** ** Role grants *)

Lemma wp_add_permissions role l env st (Q : result unit -> State -> Prop) :
  (forall e st', Q (Err e) st') ->
  (forall g n, NoDup l -> (forall p, p ∈ l -> (role, p) ∉ st.(st_db).(role_permissions)) ->
     (forall r p, (r, p) ∈ g <-> (r, p) ∈ st.(st_db).(role_permissions) \/ (r = role /\ p ∈ l)) ->
     Q (Ok tt) (mkState (st.(st_db) <| role_permissions := g |>) n)) ->
  wp (for_each l (RbacRepo.add_permission role)) Q env st.
Proof.
  intros He. revert st. induction l as [|p l IH]; intros st Hok; simpl.
  - wp_step. destruct st as [db n].
    assert (Hdb : db = db <| role_permissions := db.(role_permissions) |>) by by destruct db.
    rewrite Hdb. apply Hok; [constructor | by intros p ?%not_elem_of_nil |].
    intros r p. simpl. set_solver.
  - unfold RbacRepo.add_permission at 1. do 2 wp_step; [by apply He|]. wp_simpl.
    apply IH. simpl. intros g n Hnd Hnew Hg.
    apply (Hok g n).
    + constructor; [|done]. intros Hp%Hnew. set_solver.
    + intros q [->|Hq]%elem_of_cons; [done|]. pose proof (Hnew _ Hq). set_solver.
    + intros r q. rewrite Hg. set_solver.
Qed.

#[export] Instance find_role_read_only P : ReadOnly (RbacRepo.find_role P).
Proof. unfold RbacRepo.find_role. solve_preserves ltac:(apply _). Qed.

#[export] Instance GetRole_read_only id : ReadOnly (GetRole id).
Proof. unfold GetRole, RbacRepo.FindRoleByID. solve_preserves ltac:(apply _). Qed.

Lemma wp_GetRole id env st (Q : result Role.t -> State -> Prop) :
  (forall e n, Q (Err e) (mkState st.(st_db) n)) ->
  (forall r k n, st.(st_db).(roles) !! k = Some r -> r.(Role.ID) = id ->
     Q (Ok (RbacRepo.preload st.(st_db) r)) (mkState st.(st_db) n)) ->
  wp (GetRole id) Q env st.
Proof.
  intros He Hok. unfold GetRole, RbacRepo.FindRoleByID, RbacRepo.find_role. destruct st as [db n0].
  wp_steps; try apply He. apply first_row_Some in Heqo as (k & Hk & Hid%N.eqb_eq). by eapply Hok.
Qed.

(** Setting the permissions of a role leaves it exactly those, each once and
    each an existing one, and no other role changed; a failure, at whatever
    statement, changes nothing. *)
Theorem SetRolePermissions_spec (roleID : UUID) (permIDs : list UUID) (env : Env) (db : DB) :
  let '(r, db') := run (SetRolePermissions roleID permIDs) env db in
  match r with
  | Err _ => db' = db
  | Ok _ => NoDup permIDs /\
      (exists g, db' = db <| role_permissions := g |>) /\
      forall role p, (role, p) ∈ db'.(role_permissions) <->
        if bool_decide (role = roleID) then p ∈ permIDs else (role, p) ∈ db.(role_permissions)
  end.
Proof.
  destruct (run _ _ _) as [r db'] eqn:Hr.
  set (Q := fun (r : result unit) st' => match r with
    | Err _ => st'.(st_db) = db
    | Ok _ => NoDup permIDs /\ (exists g, st'.(st_db) = db <| role_permissions := g |>) /\
        forall role p, (role, p) ∈ st'.(st_db).(role_permissions) <->
          if bool_decide (role = roleID) then p ∈ permIDs else (role, p) ∈ db.(role_permissions)
    end).
  assert (Hwp : wp (SetRolePermissions roleID permIDs) Q env (mkState db 0)).
  { unfold SetRolePermissions, RbacRepo.SetRolePermissions. wp_step.
    apply wp_GetRole; [done|]. intros role k n _ _. wp_simpl. wp_step.
    apply wp_transaction; [done|]. do 2 wp_step; [done|]. wp_simpl.
    apply wp_add_permissions; [done|]. simpl. intros g n1 Hnd _ Hg _.
    split; [done|]. split; [by exists g|]. intros r' p. 
    rewrite Hg. rewrite elem_of_filter. simpl. case_bool_decide as He.
    - subst. rewrite N.eqb_refl. naive_solver.
    - apply N.eqb_neq in He as Hb. rewrite Hb. naive_solver. }
  by destruct (wp_run _ _ _ _ Hwp _ _ Hr).
Qed.

(** ** Taking grants away *)

Inductive revocation :=
| RDeleteRole (role : UUID)
| RRemoveRole (user role : UUID).

Definition revoke (c : revocation) : M unit :=
  match c with
  | RDeleteRole role => DeleteRole role
  | RRemoveRole user role => RemoveRole user role
  end.

(** The grants a revocation is about. *)
Definition concerns (c : revocation) (u role : UUID) : bool :=
  match c with
  | RDeleteRole r => N.eqb r role
  | RRemoveRole u' r => N.eqb u' u && N.eqb r role
  end.

Lemma wp_revoke c env st :
  wp (revoke c)
    (fun r st' => match r with
     | Err _ => st'.(st_db) = st.(st_db)
     | Ok _ => forall u role perm, permitted_via st'.(st_db) u role perm <->
         permitted_via st.(st_db) u role perm /\ concerns c u role = false
     end) env st.
Proof.
  unfold permitted_via. destruct c as [role|user role]; simpl.
  - unfold DeleteRole, RbacRepo.DeleteRole. wp_step. apply wp_GetRole; [done|].
    intros r k n _ _. wp_simpl. do 2 wp_step; [done|]. intros u role' perm. simplify_eq. simpl.
    rewrite elem_of_filter. setoid_rewrite elem_of_filter. simpl. rewrite (N.eqb_sym role role').
    split; [naive_solver|]. intros [[Hur (k' & p & ? & ? & ?)] Hr].
    split; [done|]. by exists k', p.
  - unfold RemoveRole, RbacRepo.RemoveRole. do 2 wp_step; [done|]. intros u role' perm.
    simplify_eq. simpl. rewrite elem_of_filter. simpl.
    rewrite (N.eqb_sym user u), (N.eqb_sym role role'). tauto.
Qed.

(** Deleting a role, or taking it from a user, takes away what it granted and
    nothing else: a permission the user has through another role stays.  A
    failed call changes nothing. *)
Theorem revocation_exact (c : revocation) (env : Env) (db : DB) :
  let '(r, db') := run (revoke c) env db in
  match r with
  | Err _ => db' = db
  | Ok _ => forall u role perm,
      permitted_via db' u role perm <-> permitted_via db u role perm /\ concerns c u role = false
  end.
Proof.
  destruct (run _ _ _) as [r db'] eqn:Hr.
  by destruct (wp_run _ _ _ _ (wp_revoke c env (mkState db 0)) _ _ Hr).
Qed.

(** ** The service as the role assigner of the user service *)

Lemma same_but_roles_stmt f :
  (forall env db db', f env db = Ok db' -> exists t, db' = db <| user_roles := t |>) ->
  Preserves same_but_roles (stmt f).
Proof. intros Hf. apply (preserves_stmt same_but_roles). exact Hf. Qed.

#[export] Instance rbac_assigner_laws tx : RoleAssignerLaws (AssignRoleInTx tx).
Proof.
  intros u role. unfold AssignRoleInTx, AssignRole, RbacRepo.AssignRole, create_pair.
  solve_preserves ltac:(first [apply preserves_read_only; side; solve [apply _]
    | apply same_but_roles_stmt; intros env db db'; repeat case_match; try done;
      intros [= <-]; by eexists]).
Qed.
End RbacFacts.
