(* ===== verification/Resource.v ===== *)
(** * resource/: protected resources, their permissions, and who holds them

    The statements on [api_resources], [resource_permissions] and the two join
    tables (resource/repository.go), the service over them
    (resource/service.go), and the service as the [ResourceValidator] of the
    OAuth service.  The cascades of the foreign keys (migrations/018, 019) are
    part of the deletions.  A query without ORDER BY returns its rows in the
    order of their keys here; nothing below depends on it. *)
From S2P Require Import Prelude.
From S2P Require Import Errors.
From S2P Require Import GoLib.
From S2P Require Import Model.
From S2P Require Import Platform.
From S2P Require Import Config.
From S2P Require Import Exec.
From S2P Require Import UserSvc.
From S2P Require Import MfaSvc.
From S2P Require Import Policy.
From S2P Require Import Scopes.
From S2P Require Import OAuth.
From S2P Require Import Middleware.
From S2P Require Import Token.
From S2P Require Import Rbac.
Local Open Scope Z_scope.

(** ** resource/repository.go *)
Module ResourceRepo.

Definition permissions_of (db : DB) (resourceID : UUID) : list ResourcePermission.t :=
  select_rows (fun p => N.eqb p.(ResourcePermission.ResourceID) resourceID) db.(resource_permissions).

(** A column with a default takes it when the field has its zero value. *)
Definition with_defaults (r : APIResource.t) : APIResource.t :=
  let r := if String.eqb r.(APIResource.SigningAlg) ""
           then r <| APIResource.SigningAlg := "RS256" |> else r in
  let r := if String.eqb r.(APIResource.TokenFormat) ""
           then r <| APIResource.TokenFormat := "opaque" |> else r in
  let r := if r.(APIResource.AccessTokenTTL) =? 0
           then r <| APIResource.AccessTokenTTL := 3600 |> else r in
  if r.(APIResource.Active) then r else r <| APIResource.Active := true |>.

Definition identifier_taken (t : gmap UUID APIResource.t) (id : UUID) (identifier : string) : bool :=
  is_Some_b (first_row N.leb
    (fun r => String.eqb r.(APIResource.Identifier) identifier && negb (N.eqb r.(APIResource.ID) id)) t).

(** [identifier] has a unique index. *)
Definition Create (res : APIResource.t) : M APIResource.t :=
  id <- BeforeCreate res.(APIResource.ID) ;;
  wall <- wall_now ;;
  let row := (with_defaults res) <| APIResource.ID := id |>
                  <| APIResource.CreatedAt ::= auto_time wall |>
                  <| APIResource.UpdatedAt ::= auto_time wall |> in
  stmt (fun _ db =>
    if RbacRepo.exists_in db.(api_resources) id
       || identifier_taken db.(api_resources) id row.(APIResource.Identifier)
    then Err (EDriver "duplicate key value violates unique constraint")
    else Ok (db <| api_resources ::= insert id row |>)) ;;;
  ret row.

Definition find_resource (P : APIResource.t -> bool) : M (option APIResource.t * option error) :=
  find_row APIResource.zero (fun _ db => first_row N.leb P db.(api_resources)).

(** The preload of the permissions; its failure comes with the row. *)
Definition with_permissions (m : M (option APIResource.t * option error))
    : M (option APIResource.t * option error) :=
  let! (res, err) := m ;;
  match err, res with
  | None, Some r =>
      perms <- attempt (query (fun _ db => permissions_of db r.(APIResource.ID))) ;;
      ret (match perms with
           | Ok l => (Some (r <| APIResource.Permissions := l |>), None)
           | Err e => (Some r, Some e)
           end)
  | _, _ => ret (res, err)
  end.

Definition FindByID (id : UUID) : M (option APIResource.t * option error) :=
  with_permissions (find_resource (fun r => N.eqb r.(APIResource.ID) id)).

Definition FindByIdentifier (identifier : string) : M (option APIResource.t * option error) :=
  find_resource (fun r => String.eqb r.(APIResource.Identifier) identifier).

Definition FindActiveByIdentifier (identifier : string) : M (option APIResource.t * option error) :=
  with_permissions (find_resource (fun r =>
    String.eqb r.(APIResource.Identifier) identifier && r.(APIResource.Active))).

(** [Save]: the loaded permissions exist already and are left as they are. *)
Definition Update (res : APIResource.t) : M APIResource.t :=
  wall <- wall_now ;;
  let row := res <| APIResource.UpdatedAt := wall |> in
  stmt (fun _ db =>
    if identifier_taken db.(api_resources) row.(APIResource.ID) row.(APIResource.Identifier)
    then Err (EDriver "duplicate key value violates unique constraint")
    else Ok (db <| api_resources ::=
               insert row.(APIResource.ID) (row <| APIResource.Permissions := [] |>) |>)) ;;;
  ret row.

(** Whether a join row references a permission that is about to go. *)
Definition gone (t t' : gmap UUID ResourcePermission.t) (permissionID : UUID) : bool :=
  RbacRepo.exists_in t permissionID && negb (RbacRepo.exists_in t' permissionID).

(** The permissions become [t'], and the join rows of the others go. *)
Definition keep_permissions (t' : gmap UUID ResourcePermission.t) (db : DB) : DB :=
  let t := db.(resource_permissions) in
  db <| resource_permissions := t' |>
     <| client_resource_permissions ::= filter (fun p => gone t t' p.2 = false) |>
     <| role_resource_permissions ::= filter (fun p => gone t t' p.2 = false) |>.

Definition Delete (id : UUID) : M unit :=
  stmt (fun _ db =>
    Ok (keep_permissions
          (filter (fun kp => N.eqb kp.2.(ResourcePermission.ResourceID) id = false) db.(resource_permissions))
          (db <| api_resources ::= delete id |>
              <| consents ::= fmap (fun c =>
                   match c.(Consent.ResourceID) with
                   | Some r => if N.eqb r id then c <| Consent.ResourceID := None |> else c
                   | None => c
                   end) |>))).

(** [(resource_id, name)] has a unique index. *)
Definition CreatePermission (p : ResourcePermission.t) : M ResourcePermission.t :=
  id <- BeforeCreate p.(ResourcePermission.ID) ;;
  wall <- wall_now ;;
  let row := p <| ResourcePermission.ID := id |>
               <| ResourcePermission.CreatedAt ::= auto_time wall |> in
  stmt (fun _ db =>
    let same_name q := N.eqb q.(ResourcePermission.ResourceID) row.(ResourcePermission.ResourceID)
                       && String.eqb q.(ResourcePermission.Name) row.(ResourcePermission.Name) in
    if RbacRepo.exists_in db.(resource_permissions) id
       || is_Some_b (first_row N.leb same_name db.(resource_permissions))
    then Err (EDriver "duplicate key value violates unique constraint")
    else if negb (RbacRepo.exists_in db.(api_resources) row.(ResourcePermission.ResourceID))
    then Err (EDriver "violates foreign key constraint")
    else Ok (db <| resource_permissions ::= insert id row |>)) ;;;
  ret row.

Definition FindPermissionByID (id : UUID) : M (option ResourcePermission.t * option error) :=
  find_row ResourcePermission.zero (fun _ db => db.(resource_permissions) !! id).

Definition created_before (a b : ResourcePermission.t) : Prop :=
  a.(ResourcePermission.CreatedAt) <= b.(ResourcePermission.CreatedAt).
#[export] Instance created_before_dec : RelDecision created_before.
Proof. intros a b. unfold created_before. apply _. Defined.

Definition FindPermissionsByResource (resourceID : UUID) : M (list ResourcePermission.t) :=
  query (fun _ db => merge_sort created_before (permissions_of db resourceID)).

(** [resource_id = ? AND name IN (?)]; an empty list matches nothing. *)
Definition named (resourceID : UUID) (names : list string) (p : ResourcePermission.t) : bool :=
  N.eqb p.(ResourcePermission.ResourceID) resourceID && mem p.(ResourcePermission.Name) names.

Definition FindPermissionsByNames (resourceID : UUID) (names : list string)
    : M (list ResourcePermission.t) :=
  query (fun _ db => select_rows (named resourceID names) db.(resource_permissions)).

Definition DeletePermission (id : UUID) : M unit :=
  stmt (fun _ db => Ok (keep_permissions (delete id db.(resource_permissions)) db)).

(** ** The join tables *)

Definition set_pairs (t : DB -> pairs) (set : (pairs -> pairs) -> DB -> DB)
    (owner : DB -> UUID -> bool) (id : UUID) (permissionIDs : list UUID) : M unit :=
  transaction (
    delete_pairs set (fun p => N.eqb p.1 id) ;;;
    for_each permissionIDs (fun pid =>
      create_pair t set
        (fun db => owner db id && RbacRepo.exists_in db.(resource_permissions) pid) (id, pid))).

Definition SetClientPermissions (clientID : UUID) (permissionIDs : list UUID) : M unit :=
  set_pairs client_resource_permissions (upd client_resource_permissions)
    (fun db => RbacRepo.exists_in db.(oauth_clients)) clientID permissionIDs.

Definition SetRolePermissions (roleID : UUID) (permissionIDs : list UUID) : M unit :=
  set_pairs role_resource_permissions (upd role_resource_permissions)
    (fun db => RbacRepo.exists_in db.(roles)) roleID permissionIDs.

Definition held (s : pairs) (id : UUID) (p : ResourcePermission.t) : bool :=
  bool_decide ((id, p.(ResourcePermission.ID)) ∈ s).

Definition GetClientPermissions (clientID : UUID) : M (list ResourcePermission.t) :=
  query (fun _ db =>
    select_rows (held db.(client_resource_permissions) clientID) db.(resource_permissions)).

Definition GetRolePermissions (roleID : UUID) : M (list ResourcePermission.t) :=
  query (fun _ db =>
    select_rows (held db.(role_resource_permissions) roleID) db.(resource_permissions)).

Definition GetClientPermissionsForResource (clientID resourceID : UUID)
    : M (list ResourcePermission.t) :=
  query (fun _ db =>
    select_rows (fun p => held db.(client_resource_permissions) clientID p
                          && N.eqb p.(ResourcePermission.ResourceID) resourceID)
      db.(resource_permissions)).

Definition ValidateClientScopes (clientID resourceID : UUID) (scopeNames : list string)
    : M (list string) :=
  query (fun _ db => map ResourcePermission.Name
    (select_rows (fun p => held db.(client_resource_permissions) clientID p
                           && named resourceID scopeNames p) db.(resource_permissions))).

Definition ValidateUserScopes (userID resourceID : UUID) (scopeNames : list string)
    : M (list string) :=
  query (fun _ db => remove_dups (map ResourcePermission.Name
    (select_rows (fun p =>
        RbacRepo.granted_by_role db db.(role_resource_permissions) userID p.(ResourcePermission.ID)
        && named resourceID scopeNames p) db.(resource_permissions)))).

Definition GetAllActiveScopes : M (list string) :=
  query (fun _ db => map ResourcePermission.Name
    (select_rows (fun p =>
        match db.(api_resources) !! p.(ResourcePermission.ResourceID) with
        | Some r => r.(APIResource.Active)
        | None => false
        end) db.(resource_permissions))).

End ResourceRepo.

(** ** resource/service.go *)
Module ResourceSvc.

Record CreateInput := mkCreateInput {
  cr_Name : string;
  cr_Identifier : string;
  cr_Description : option string;
  cr_SigningAlg : option string;
  cr_TokenFormat : option string;
  cr_AccessTokenTTL : option Z
}.

Record UpdateInput := mkUpdateInput {
  up_Name : option string;
  up_Description : option string;
  up_SigningAlg : option string;
  up_TokenFormat : option string;
  up_AccessTokenTTL : option Z;
  up_Active : option bool
}.

Definition validateTokenFormat (v : string) : result unit :=
  if mem v ["opaque"; "jwt"] then Ok tt
  else Err (ErrBadRequest "token_format must be 'opaque' or 'jwt'").

(** The token format, when one is given, is checked before it is set. *)
Definition set_format (o : option string) (r : APIResource.t) : M APIResource.t :=
  match o with
  | Some f => of_result (validateTokenFormat f) ;;; ret (r <| APIResource.TokenFormat := f |>)
  | None => ret r
  end.

Definition Create (input : CreateInput) : M APIResource.t :=
  let! (existing, err) := ResourceRepo.FindByIdentifier input.(cr_Identifier) ;;
  guard (negb (is_Some_b err)) (ErrInternal "failed to check identifier uniqueness") ;;;
  guard (negb (is_Some_b existing)) (ErrConflict "a resource with this identifier already exists") ;;;
  let res := APIResource.zero <| APIResource.Name := input.(cr_Name) |>
                              <| APIResource.Identifier := input.(cr_Identifier) |>
                              <| APIResource.Active := true |> in
  let res := set_some input.(cr_Description) (fun d r => r <| APIResource.Description := Some d |>) res in
  let res := set_some input.(cr_SigningAlg) (fun a r => r <| APIResource.SigningAlg := a |>) res in
  res <- set_format input.(cr_TokenFormat) res ;;
  let res := set_some input.(cr_AccessTokenTTL) (fun n r => r <| APIResource.AccessTokenTTL := n |>) res in
  or_fail (ResourceRepo.Create res) (ErrInternal "failed to create resource").

Definition GetByID (id : UUID) : M APIResource.t :=
  let! (res, err) := ResourceRepo.FindByID id ;;
  match err, res with
  | Some _, _ => throw (ErrInternal "failed to find resource")
  | None, None => throw (ErrNotFound "resource not found")
  | None, Some res => ret res
  end.

Definition Update (id : UUID) (input : UpdateInput) : M APIResource.t :=
  res <- GetByID id ;;
  let res := set_some input.(up_Name) (fun n r => r <| APIResource.Name := n |>) res in
  let res := set_some input.(up_Description) (fun d r => r <| APIResource.Description := Some d |>) res in
  let res := set_some input.(up_SigningAlg) (fun a r => r <| APIResource.SigningAlg := a |>) res in
  res <- set_format input.(up_TokenFormat) res ;;
  let res := set_some input.(up_AccessTokenTTL) (fun n r => r <| APIResource.AccessTokenTTL := n |>) res in
  let res := set_some input.(up_Active) (fun a r => r <| APIResource.Active := a |>) res in
  or_fail (ResourceRepo.Update res) (ErrInternal "failed to update resource").

Definition Delete (id : UUID) : M unit :=
  GetByID id ;;;
  or_fail (ResourceRepo.Delete id) (ErrInternal "failed to delete resource").

Definition AddPermission (resourceID : UUID) (name : string) (description : option string)
    : M ResourcePermission.t :=
  GetByID resourceID ;;;
  or_fail (ResourceRepo.CreatePermission
      (ResourcePermission.zero <| ResourcePermission.ResourceID := resourceID |>
         <| ResourcePermission.Name := name |> <| ResourcePermission.Description := description |>))
    (ErrInternal "failed to create permission").

Definition RemovePermission (resourceID permissionID : UUID) : M unit :=
  let! (perm, err) := ResourceRepo.FindPermissionByID permissionID ;;
  match err, perm with
  | Some _, _ => throw (ErrInternal "failed to find permission")
  | None, None => throw (ErrNotFound "permission not found")
  | None, Some perm =>
      guard (N.eqb perm.(ResourcePermission.ResourceID) resourceID)
        (ErrNotFound "permission not found") ;;;
      or_fail (ResourceRepo.DeletePermission permissionID) (ErrInternal "failed to delete permission")
  end.

Definition GetPermissions (resourceID : UUID) : M (list ResourcePermission.t) :=
  GetByID resourceID ;;; ResourceRepo.FindPermissionsByResource resourceID.

Definition SetClientPermissions (clientID : UUID) (permissionIDs : list UUID) : M unit :=
  or_fail (ResourceRepo.SetClientPermissions clientID permissionIDs)
    (ErrInternal "failed to set client permissions").

Definition GetClientPermissions (clientID : UUID) : M (list ResourcePermission.t) :=
  or_fail (ResourceRepo.GetClientPermissions clientID) (ErrInternal "failed to get client permissions").

Definition SetRolePermissions (roleID : UUID) (permissionIDs : list UUID) : M unit :=
  or_fail (ResourceRepo.SetRolePermissions roleID permissionIDs)
    (ErrInternal "failed to set role resource permissions").

Definition GetRolePermissions (roleID : UUID) : M (list ResourcePermission.t) :=
  or_fail (ResourceRepo.GetRolePermissions roleID)
    (ErrInternal "failed to get role resource permissions").

Definition ValidateAudience (audience : string) : M APIResource.t :=
  let! (res, err) := ResourceRepo.FindActiveByIdentifier audience ;;
  match err, res with
  | Some _, _ => throw (ErrInternal "failed to validate audience")
  | None, None => throw (ErrNotFound "resource not found")
  | None, Some res => ret res
  end.

Definition ValidateClientScopes (clientID resourceID : UUID) (scopes : list string) : M (list string) :=
  ResourceRepo.ValidateClientScopes clientID resourceID scopes.

Definition ValidateUserScopes (userID resourceID : UUID) (scopes : list string) : M (list string) :=
  ResourceRepo.ValidateUserScopes userID resourceID scopes.

Definition GetAllActiveScopes : M (list string) := ResourceRepo.GetAllActiveScopes.

End ResourceSvc.

(** [resource.Service] as the [ResourceValidator] of the OAuth service. *)
Definition resource_validator : ResourceValidator :=
  mkResourceValidator
    (fun a => reader_of (ResourceSvc.ValidateAudience a))
    (fun c r sc => reader_of (ResourceSvc.ValidateClientScopes c r sc))
    (fun u r sc => reader_of (ResourceSvc.ValidateUserScopes u r sc)).

(** ** Facts *)
Module ResourceFacts.
Import ResourceSvc.

(** The user holds the resource's permission of that name through a role. *)
Definition user_holds (db : DB) (u resource : UUID) (name : string) : Prop :=
  exists role k p, (u, role) ∈ db.(user_roles) /\ db.(resource_permissions) !! k = Some p /\
    p.(ResourcePermission.ResourceID) = resource /\ p.(ResourcePermission.Name) = name /\
    (role, p.(ResourcePermission.ID)) ∈ db.(role_resource_permissions).

Definition client_holds (db : DB) (c resource : UUID) (name : string) : Prop :=
  exists k p, db.(resource_permissions) !! k = Some p /\
    p.(ResourcePermission.ResourceID) = resource /\ p.(ResourcePermission.Name) = name /\
    (c, p.(ResourcePermission.ID)) ∈ db.(client_resource_permissions).

Lemma named_iff resource names p :
  ResourceRepo.named resource names p = true <->
  p.(ResourcePermission.ResourceID) = resource /\ p.(ResourcePermission.Name) ∈ names.
Proof. unfold ResourceRepo.named. by rewrite andb_true_iff, N.eqb_eq, mem_iff. Qed.

(** The two checks return exactly the requested scopes that are held, or fail
    with the database. *)
Lemma user_scopes_exact u r req env n db :
  match reader_of (ValidateUserScopes u r req) env n db with
  | Ok l => forall x, x ∈ l <-> x ∈ req /\ user_holds db u r x
  | Err _ => env.(env_fail) n = true
  end.
Proof.
  unfold reader_of, ValidateUserScopes, ResourceRepo.ValidateUserScopes, query. simpl.
  destruct (env_fail env n) eqn:Hf; simpl; [done|]. intros x.
  rewrite elem_of_remove_dups, list_elem_of_fmap. setoid_rewrite elem_of_select_rows. split.
  - intros (p & -> & k & Hk & [Hg Hn]%andb_true_iff).
    apply RbacFacts.granted_by_role_iff in Hg as (role & Hur & Hg). apply named_iff in Hn as [Hr Hn].
    split; [done|]. by exists role, k, p.
  - intros [Hreq (role & k & p & Hur & Hk & Hr & <- & Hg)]. exists p. split; [done|]. exists k.
    split; [done|]. apply andb_true_iff. split; [apply RbacFacts.granted_by_role_iff; by exists role|].
    by apply named_iff.
Qed.

Lemma client_scopes_exact c r req env n db :
  match reader_of (ValidateClientScopes c r req) env n db with
  | Ok l => forall x, x ∈ l <-> x ∈ req /\ client_holds db c r x
  | Err _ => env.(env_fail) n = true
  end.
Proof.
  unfold reader_of, ValidateClientScopes, ResourceRepo.ValidateClientScopes, query. simpl.
  destruct (env_fail env n) eqn:Hf; simpl; [done|]. intros x.
  rewrite list_elem_of_fmap. setoid_rewrite elem_of_select_rows. split.
  - intros (p & -> & k & Hk & [Hh%bool_decide_eq_true_1 Hn]%andb_true_iff).
    apply named_iff in Hn as [Hr Hn]. split; [done|]. by exists k, p.
  - intros [Hreq (k & p & Hk & Hr & <- & Hh)]. exists p. split; [done|]. exists k.
    split; [done|]. apply andb_true_iff. split; [by apply bool_decide_eq_true_2|]. by apply named_iff.
Qed.

Lemma audience_exact a env n db :
  match reader_of (ValidateAudience a) env n db with
  | Ok r => exists k row, db.(api_resources) !! k = Some row /\
      row.(APIResource.Identifier) = a /\ row.(APIResource.Active) = true /\
      r = row <| APIResource.Permissions := ResourceRepo.permissions_of db row.(APIResource.ID) |>
  | Err e => env.(env_fail) n = true \/
      (e = ErrNotFound "resource not found" /\
       forall k row, db.(api_resources) !! k = Some row -> row.(APIResource.Identifier) = a ->
         row.(APIResource.Active) = false)
  end.
Proof.
  unfold reader_of, ValidateAudience, ResourceRepo.FindActiveByIdentifier,
    ResourceRepo.with_permissions, ResourceRepo.find_resource, find_row, attempt, query, bind, ret. simpl.
  destruct (env_fail env n) eqn:Hf; simpl; [by left|].
  destruct (first_row _ _ _) as [row|] eqn:E; simpl.
  - apply first_row_Some in E as (k & Hk & [Hi%String.eqb_eq Ha]%andb_true_iff).
    by exists k, row.
  - right. split; [done|]. intros k row Hk Hi. rewrite first_row_None in E.
    specialize (E k row Hk). rewrite Hi, String.eqb_refl in E. done.
Qed.

(** C17: What the OAuth service is told about a resource server: an audience is
    accepted exactly when it names an active resource, with that resource's
    permissions; a user keeps exactly the requested scopes held through a role,
    a client exactly the requested scopes it was given.  Only a failure of the
    database makes a check fail otherwise. *)
Theorem resource_validator_spec (a : string) (u c r : UUID) (req : list string)
    (env : Env) (n : nat) (db : DB) :
  match resource_validator.(OAuth.ValidateAudience) a env n db with
  | Ok res => exists k row, db.(api_resources) !! k = Some row /\
      row.(APIResource.Identifier) = a /\ row.(APIResource.Active) = true /\
      res = row <| APIResource.Permissions := ResourceRepo.permissions_of db row.(APIResource.ID) |>
  | Err e => env.(env_fail) n = true \/
      (e = ErrNotFound "resource not found" /\
       forall k row, db.(api_resources) !! k = Some row -> row.(APIResource.Identifier) = a ->
         row.(APIResource.Active) = false)
  end /\
  match resource_validator.(OAuth.ValidateUserScopes) u r req env n db with
  | Ok l => forall x, x ∈ l <-> x ∈ req /\ user_holds db u r x
  | Err _ => env.(env_fail) n = true
  end /\
  match resource_validator.(OAuth.ValidateClientScopes) c r req env n db with
  | Ok l => forall x, x ∈ l <-> x ∈ req /\ client_holds db c r x
  | Err _ => env.(env_fail) n = true
  end.
Proof.
  split; [apply audience_exact|]. split; [apply user_scopes_exact | apply client_scopes_exact].
Qed.

#[export] Instance resource_validator_laws : TokenFacts.ResourceValidatorLaws resource_validator.
Proof.
  split; simpl.
  - intros u r req env n db l Hl x Hx. pose proof (user_scopes_exact u r req env n db) as H.
    rewrite Hl in H. by apply H in Hx as [Hx _].
  - intros c r req env n db l Hl _ x Hx. pose proof (client_scopes_exact c r req env n db) as H.
    rewrite Hl in H. by apply H in Hx as [Hx _].
Qed.

(** ** A run: a resource, a permission, its grant to a client *)

Definition demo : M (list string * list string) :=
  res <- Create (mkCreateInput "Orders" "https://orders.example" None None (Some "jwt") None) ;;
  read <- AddPermission res.(APIResource.ID) "orders:read" None ;;
  write <- AddPermission res.(APIResource.ID) "orders:write" None ;;
  SetClientPermissions 7%N [read.(ResourcePermission.ID)] ;;;
  before <- ValidateClientScopes 7%N res.(APIResource.ID) ["orders:read"; "orders:write"] ;;
  RemovePermission res.(APIResource.ID) read.(ResourcePermission.ID) ;;;
  after <- ValidateClientScopes 7%N res.(APIResource.ID) ["orders:read"; "orders:write"] ;;
  ret (before, after).

Definition demo_db : DB :=
  empty_db <| oauth_clients := {[ 7%N := OAuthClient.zero <| OAuthClient.ID := 7%N |> ]} |>.

(** Removing a permission takes it from the clients that had it. *)
Example removed_permission_is_lost :
  fst (run demo (mkEnv 1000 1000 (fun _ => false) (fun _ _ => 0) (fun n => N.of_nat (100 + n))) demo_db)
  = Ok (["orders:read"], []).
Proof. vm_compute. reflexivity. Qed.
End ResourceFacts.
