(* ===== verification/JsonFlat.v ===== *)
(** * encoding/json: objects of integers, booleans and plain strings

    The encoder of a struct whose fields are such values, the decoder into one,
    and the round trip: the parser reads the printed object back. *)
From S2P Require Import Prelude.
From S2P Require Import Errors.
From S2P Require Import GoLib.
From S2P Require Import GoNet.
From S2P Require Import Model.
From S2P Require Import Platform.
From S2P Require Import GoEnc.
From S2P Require Import Json.
From Stdlib Require Import Ascii.
Local Open Scope Z_scope.

(** ** Encoding *)

Inductive scalar := SInt (n : Z) | SBool (b : bool) | SString (s : string).

Definition print_int (n : Z) : list Z :=
  if n <? 0 then 45 :: bytes_of (dec (- n)) else bytes_of (dec n).

Definition print_scalar (v : scalar) : list Z :=
  match v with
  | SInt n => print_int n
  | SBool b => ascii_bytes (if b then "true" else "false")
  | SString s => encode_string s
  end.

Fixpoint print_members (l : list (string * scalar)) : list Z :=
  match l with
  | [] => []
  | [(k, v)] => encode_string k ++ 58 :: print_scalar v
  | (k, v) :: l' => encode_string k ++ 58 :: print_scalar v ++ 44 :: print_members l'
  end.

Definition print_flat (l : list (string * scalar)) : string :=
  string_of_bytes (123 :: print_members l ++ [125]).

(** ** Decoding into a struct *)

(** [set k] is the assignment of the field a key names; it fails on a value of
    another type.  A null leaves the field; an error is reported once the
    document was read. *)
Fixpoint decode_fields {R} (set : string -> option (any -> R -> option R))
    (m : list (string * any)) (r : R) : R * bool :=
  match m with
  | [] => (r, true)
  | (k, v) :: m' =>
      match set k, v with
      | None, _ | _, ANil => decode_fields set m' r
      | Some f, _ =>
          match f v r with
          | Some r' => decode_fields set m' r'
          | None => let '(r, _) := decode_fields set m' r in (r, false)
          end
      end
  end.

Definition unmarshal_fields {R} (set : string -> option (any -> R -> option R)) (s : string) (r : R)
    : result R :=
  match parse_document s with
  | None => Err (EOther "json: syntax error")
  | Some ANil => Ok r
  | Some (AMap m) =>
      let '(r, ok) := decode_fields set m r in
      if ok then Ok r else Err (EOther "json: cannot unmarshal into a field")
  | Some _ => Err (EOther "json: cannot unmarshal into a struct")
  end.

(** A field of type [int]: a number without fraction or exponent, in range. *)
Definition int_field {R} (f : Z -> R -> R) (v : any) (r : R) : option R :=
  match v with ANumber d => (fun n => f n r) <$> atoi d | _ => None end.

Definition bool_field {R} (f : bool -> R -> R) (v : any) (r : R) : option R :=
  match v with ABool b => Some (f b r) | _ => None end.

Definition string_field {R} (f : string -> R -> R) (v : any) (r : R) : option R :=
  match v with AString s => Some (f s r) | _ => None end.

(** ** The round trip *)

(** A character the encoder copies: no escape, no multi-byte sequence. *)
Definition plain_byte (b : Z) : bool := html_safe b && (b <? 128).
Definition plain (s : string) : bool := forallb plain_byte (bytes_of s).

Definition scalar_ok (v : scalar) : Prop :=
  match v with SInt n => 0 <= n < 2 ^ 63 | SBool _ => True | SString s => plain s = true end.

Definition any_of (v : scalar) : any :=
  match v with SInt n => ANumber (dec n) | SBool b => ABool b | SString s => AString s end.

Lemma string_of_bytes_of s : string_of_bytes (bytes_of s) = s.
Proof.
  unfold string_of_bytes, bytes_of. rewrite map_map.
  rewrite (map_ext _ (fun c => c)); [rewrite map_id; apply String.string_of_list_ascii_of_string|].
  intros c. rewrite Nat2Z.id. apply ascii_nat_embedding.
Qed.

Lemma bytes_of_string_of_bytes l : Forall (fun b => 0 <= b < 256) l -> bytes_of (string_of_bytes l) = l.
Proof.
  intros Hl. unfold string_of_bytes, bytes_of. rewrite String.list_ascii_of_string_of_list_ascii, map_map.
  induction Hl as [|b l Hb Hl IH]; [done|]. simpl. rewrite IH, nat_ascii_embedding by lia. f_equal. lia.
Qed.

Lemma bytes_of_bytes s : Forall (fun b => 0 <= b < 256) (bytes_of s).
Proof.
  unfold bytes_of. apply Forall_map, Forall_forall. intros c _. simpl.
  pose proof (nat_ascii_bounded c). lia.
Qed.

Lemma bytes_of_app s t : bytes_of (s +:+ t) = bytes_of s ++ bytes_of t.
Proof. induction s as [|c s IH]; [done|]. rewrite str_app_cons. unfold bytes_of in *. simpl. by rewrite IH. Qed.

Lemma plain_Forall s : plain s = true -> Forall (fun b => plain_byte b = true) (bytes_of s).
Proof. unfold plain. rewrite forallb_forall, Forall_forall. intros Hs b Hb. by apply Hs, list_elem_of_In. Qed.

Lemma plain_byte_facts b :
  plain_byte b = true ->
  32 <= b < 128 /\ b <> 34 /\ b <> 92 /\ escape_ascii b = [b].
Proof.
  unfold plain_byte, escape_ascii. intros [Hh Hb]%andb_true_iff. rewrite Hh.
  unfold html_safe, between in Hh. simpl in Hh. apply andb_true_iff in Hh as [Hr Hn].
  rewrite !orb_false_r, negb_true_iff, !orb_false_iff, !Z.eqb_neq in Hn. bool_simpl.
  split_and!; [lia|lia|tauto|tauto|done].
Qed.

Lemma encode_plain_bytes l :
  Forall (fun b => plain_byte b = true) l -> escape_separators (encode_bytes 0 l) = l.
Proof.
  intros Hl. assert (He : encode_bytes 0 l = l).
  { induction Hl as [|b l Hb Hl IH]; [done|]. apply plain_byte_facts in Hb as (Hr & _ & _ & Hesc).
    simpl. rewrite (proj2 (Z.ltb_lt b 128)) by lia. by rewrite Hesc, IH. }
  rewrite He. clear He. induction Hl as [|b l Hb Hl IH]; [done|].
  apply plain_byte_facts in Hb as (Hr & _). simpl.
  destruct (Z.eq_dec b 226) as [->|Hne]; [lia|]. rewrite IH.
  repeat (match goal with |- context [match ?x with _ => _ end] => destruct x; try done end).
Qed.

Lemma encode_plain s : plain s = true -> encode_string s = 34 :: bytes_of s ++ [34].
Proof. intros Hs. unfold encode_string. by rewrite encode_plain_bytes by by apply plain_Forall. Qed.

Lemma parse_plain_chars l rest :
  Forall (fun b => plain_byte b = true) l -> parse_chars 0 (l ++ 34 :: rest) = Some (l, rest).
Proof.
  induction 1 as [|b l Hb Hl IH]; [done|]. apply plain_byte_facts in Hb as (Hr & H34 & H92 & _).
  simpl app. cbn [parse_chars]. rewrite (proj2 (Z.eqb_neq b 34) H34), (proj2 (Z.eqb_neq b 92) H92).
  rewrite (proj2 (Z.ltb_ge b 32)), (proj2 (Z.ltb_lt b 128)) by lia. by rewrite IH.
Qed.

(** ** Numbers *)

(** What may follow a value in an object or an array. *)
Definition delimited (rest : list Z) : Prop :=
  match rest with b :: _ => b = 44 \/ b = 125 \/ b = 93 | [] => False end.

Lemma digit_bytes s :
  all_chars is_digit s = true -> Forall (fun b => between 48 57 b = true) (bytes_of s).
Proof.
  induction s as [|c s IH]; [constructor|]. simpl. intros [Hc Hs]%andb_true_iff. constructor; [exact Hc|].
  by apply IH.
Qed.

Lemma take_digits_app l rest :
  Forall (fun b => between 48 57 b = true) l -> delimited rest -> take_digits (l ++ rest) = (l, rest).
Proof.
  intros Hl Hr. induction Hl as [|b l Hb Hl IH]; simpl.
  - destruct rest as [|b rest]; [done|]. by destruct Hr as [->|[->| ->]].
  - by rewrite Hb, IH.
Qed.

(** A decimal has no leading zero. *)
Lemma digits_of_head fuel n acc :
  0 < n -> n < 10 ^ Z.of_nat fuel -> exists c s, digits_of fuel n acc = String c s /\ code c <> 48.
Proof.
  revert n acc. induction fuel as [|fuel IH]; intros n acc Hn Hlt; [simpl in Hlt; lia|].
  cbn [digits_of]. destruct (Z.ltb_spec n 10).
  - rewrite Z.mod_small by lia. eexists _, _. split; [done|]. unfold code. rewrite nat_ascii_embedding by lia. lia.
  - apply IH; [apply Z.div_str_pos; lia|]. apply Z.div_lt_upper_bound; [lia|].
    rewrite Nat2Z.inj_succ, Z.pow_succ_r in Hlt by lia. lia.
Qed.

Lemma dec_shape n : 0 <= n ->
  n = 0 /\ dec n = "0" \/ exists c s, dec n = String c s /\ code c <> 48 /\ between 48 57 (code c) = true.
Proof.
  intros Hn. destruct (Z.eq_dec n 0) as [->|Hnz]; [by left|]. right.
  destruct (dec_value n Hn) as (_ & Hd & _).
  destruct (digits_of_head (S (Z.to_nat (Z.log2 n))) n "") as (c & s & He & Hc); [lia| |].
  - pose proof (Z.log2_spec n ltac:(lia)) as [_ Hlt]. pose proof (Z.log2_nonneg n).
    rewrite Nat2Z.inj_succ, Z2Nat.id by lia.
    eapply Z.lt_le_trans; [exact Hlt|]. apply Z.pow_le_mono_l. lia.
  - exists c, s. unfold dec in *. rewrite He in *. split_and!; [done|done|]. by apply andb_true_iff in Hd as [Hd _].
Qed.

Lemma nonzero_digit b : between 48 57 b = true -> b <> 48 ->
  b = 49 \/ b = 50 \/ b = 51 \/ b = 52 \/ b = 53 \/ b = 54 \/ b = 55 \/ b = 56 \/ b = 57.
Proof. unfold between. intros Hb Hn. bool_simpl. lia. Qed.

(** The integer part of a number that starts with another digit than zero. *)
Lemma parse_number_digits b l rest :
  between 48 57 b = true -> b <> 48 ->
  take_digits (b :: l) = (b :: l, []) \/ delimited rest ->
  Forall (fun b => between 48 57 b = true) (b :: l) -> delimited rest ->
  parse_number (b :: l ++ rest) = Some (ANumber (string_of_bytes (b :: l)), rest).
Proof.
  intros Hb Hn _ Hd Hr. pose proof (take_digits_app (b :: l) rest Hd Hr) as Ht. simpl app in Ht.
  assert (Hstart : parse_number (b :: l ++ rest) =
    let '(int, s) := take_digits (b :: l ++ rest) in
    match int with
    | [] => None
    | _ => match parse_fraction s with
           | None => None
           | Some (frac, s) =>
               match parse_exponent s with
               | None => None
               | Some (ex, s) => Some (ANumber (string_of_bytes (int ++ frac ++ ex)), s)
               end
           end
    end).
  { clear Ht Hd. destruct (nonzero_digit b Hb Hn) as [->|[->|[->|[->|[->|[->|[->|[->| ->]]]]]]]]; reflexivity. }
  rewrite Hstart, Ht. destruct rest as [|x rest]; [done|].
  destruct Hr as [->|[->| ->]]; simpl; by rewrite app_nil_r.
Qed.

Lemma parse_dec n rest :
  0 <= n -> delimited rest -> parse_number (bytes_of (dec n) ++ rest) = Some (ANumber (dec n), rest).
Proof.
  intros Hn Hr. destruct (dec_value n Hn) as (_ & Hd & _). apply digit_bytes in Hd.
  destruct (dec_shape n Hn) as [[-> ->]|(c & s & He & Hc & Hb)].
  - destruct rest as [|x rest]; [done|]. by destruct Hr as [->|[->| ->]].
  - pose proof (string_of_bytes_of (dec n)) as Hs. rewrite He in *.
    change (bytes_of (String c s)) with (code c :: bytes_of s) in *.
    rewrite <-Hs. apply parse_number_digits; try done. by right.
Qed.

(** ** Objects *)

Lemma parse_scalar fuel d v rest :
  scalar_ok v -> delimited rest -> parse_value (S fuel) d (print_scalar v ++ rest) = Some (any_of v, rest).
Proof.
  intros Hv Hr. destruct v as [n|b|s]; cbn [print_scalar any_of].
  - simpl in Hv. unfold print_int. rewrite (proj2 (Z.ltb_ge n 0)) by lia.
    pose proof (parse_dec n rest ltac:(lia) Hr) as Hp. destruct (dec_shape n) as [[-> He]|(c & s & He & Hc & Hb)]; [lia| |].
    + exact Hp.
    + rewrite He in *. change (bytes_of (String c s)) with (code c :: bytes_of s) in *. simpl app in *.
      revert Hp. generalize (code c) Hb Hc. intros b Hb' Hc' Hp.
      rewrite <-Hp.
      destruct (nonzero_digit b Hb' Hc') as [->|[->|[->|[->|[->|[->|[->|[->| ->]]]]]]]]; reflexivity.
  - by destruct b.
  - assert (Hq : forall r, parse_value (S fuel) d (34 :: r)
      = match parse_chars 0 r with Some (v, r) => Some (AString (string_of_bytes v), r) | None => None end) by done.
    rewrite encode_plain by done. simpl app. rewrite <-app_assoc, Hq.
    change ([34] ++ rest) with (34 :: rest).
    rewrite (parse_plain_chars (bytes_of s) rest (plain_Forall s Hv)). by rewrite string_of_bytes_of.
Qed.

Definition members_ok (l : list (string * scalar)) : Prop :=
  Forall (fun kv => plain kv.1 = true /\ scalar_ok kv.2) l.

Lemma parse_members_step n d s :
  parse_members (S n) d (34 :: s)
  = match parse_chars 0 s with
    | None => None
    | Some (k, r) =>
        match skip_ws r with
        | 58 :: r =>
            match parse_value n d r with
            | None => None
            | Some (v, r) =>
                match skip_ws r with
                | 125 :: r => Some ([(string_of_bytes k, v)], r)
                | 44 :: r => match parse_members n d r with
                             | Some (m, r) => Some ((string_of_bytes k, v) :: m, r)
                             | None => None
                             end
                | _ => None
                end
            end
        | _ => None
        end
    end.
Proof. reflexivity. Qed.

Lemma parse_print_members fuel d l rest :
  l <> [] -> members_ok l -> (List.length l < fuel)%nat ->
  parse_members fuel d (print_members l ++ 125 :: rest)
  = Some (map (fun kv => (kv.1, any_of kv.2)) l, rest).
Proof.
  revert fuel. induction l as [|[k v] l IH]; intros fuel Hne Hl Hf; [done|].
  inversion Hl as [|? ? [Hk Hv] Hl']; subst. simpl in Hk, Hv, Hf.
  destruct fuel as [|fuel]; [lia|]. destruct fuel as [|fuel]; [lia|].
  assert (Hhead : forall tail, match tail with b :: _ => b = 44 \/ b = 125 | [] => False end ->
    parse_members (S (S fuel)) d (encode_string k ++ 58 :: print_scalar v ++ tail)
    = match tail with
      | 125 :: r => Some ([(k, any_of v)], r)
      | 44 :: r => match parse_members (S fuel) d r with
                   | Some (m, r) => Some ((k, any_of v) :: m, r)
                   | None => None
                   end
      | _ => None
      end).
  { intros tail Ht. rewrite encode_plain by done. simpl app. rewrite <-app_assoc.
    rewrite parse_members_step. simpl app. rewrite (parse_plain_chars (bytes_of k) _ (plain_Forall k Hk)).
    match goal with |- context [skip_ws (58 :: ?x)] => change (skip_ws (58 :: x)) with (58 :: x) end.
    cbv beta iota. rewrite parse_scalar, string_of_bytes_of by (done || (destruct tail; [done | simpl in *; tauto])).
    destruct tail as [|x tail]; [done|]. by destruct Ht as [->| ->]. }
  destruct l as [|kv l].
  - cbn [print_members]. rewrite <-app_assoc, <-app_comm_cons, Hhead by (by right). done.
  - change (print_members ((k, v) :: kv :: l)) with
      (encode_string k ++ 58 :: print_scalar v ++ 44 :: print_members (kv :: l)).
    rewrite <-app_assoc, <-app_comm_cons, <-app_assoc, <-app_comm_cons, Hhead by (by left).
    rewrite (IH (S fuel)) by (done || simpl in *; lia). done.
Qed.

Lemma print_scalar_bytes v : scalar_ok v -> Forall (fun b => 0 <= b < 256) (print_scalar v).
Proof.
  destruct v as [n|b|s]; simpl.
  - intros Hn. unfold print_int. rewrite (proj2 (Z.ltb_ge n 0)) by lia. apply bytes_of_bytes.
  - intros _. apply bytes_of_bytes.
  - intros Hs. rewrite encode_plain by done. repeat constructor; try lia. apply Forall_app.
    split; [apply bytes_of_bytes|]. repeat constructor; lia.
Qed.

Lemma print_members_bytes l : members_ok l -> Forall (fun b => 0 <= b < 256) (print_members l).
Proof.
  induction 1 as [|[k v] l [Hk Hv] Hl IH]; [constructor|]. simpl in Hk, Hv.
  assert (Hkv : Forall (fun b => 0 <= b < 256) (encode_string k ++ 58 :: print_scalar v)).
  { rewrite encode_plain by done. apply Forall_app. split.
    - constructor; [lia|]. apply Forall_app. split; [apply bytes_of_bytes | repeat constructor; lia].
    - constructor; [lia | by apply print_scalar_bytes]. }
  destruct l as [|kv l]; [exact Hkv|].
  change (print_members ((k, v) :: kv :: l)) with
    (encode_string k ++ 58 :: print_scalar v ++ 44 :: print_members (kv :: l)).
  apply Forall_app in Hkv as [Hk' Hv']. apply Forall_app. split; [done|].
  inversion Hv' as [|? ? H58 Hv'']; subst. constructor; [done|]. apply Forall_app. split; [done|].
  constructor; [lia|]. apply IH.
Qed.

Lemma print_members_length l : (List.length l <= List.length (print_members l))%nat.
Proof.
  induction l as [|[k v] [|kv l] IH]; [done| |].
  - simpl. rewrite length_app. simpl. lia.
  - change (print_members ((k, v) :: kv :: l)) with
      (encode_string k ++ 58 :: print_scalar v ++ 44 :: print_members (kv :: l)).
    rewrite length_app. cbn [List.length] in *. rewrite length_app. cbn [List.length]. lia.
Qed.

(** The parser reads a printed object back. *)
Lemma parse_print_flat l :
  l <> [] -> members_ok l ->
  parse_document (print_flat l) = Some (AMap (map (fun kv => (kv.1, any_of kv.2)) l)).
Proof.
  intros Hne Hl. unfold parse_document, print_flat.
  assert (Hbytes : bytes_of (string_of_bytes (123 :: print_members l ++ [125])) = 123 :: print_members l ++ [125]).
  { apply bytes_of_string_of_bytes. constructor; [lia|]. apply Forall_app.
    split; [by apply print_members_bytes|]. repeat constructor; lia. }
  rewrite Hbytes. clear Hbytes. pose proof (print_members_length l) as Hlen.
  set (fuel := (2 * _ + 2)%nat). assert (Hfuel : exists n, fuel = S n /\ (List.length l < n)%nat).
  { exists (fuel - 1)%nat. unfold fuel. simpl List.length. rewrite length_app. simpl. lia. }
  destruct Hfuel as (n & -> & Hn).
  assert (Hstep : forall r, parse_value (S n) 0 (123 :: 34 :: r)
    = match parse_members n 1 (34 :: r) with Some (m, r) => Some (AMap m, r) | None => None end) by done.
  assert (Hr : exists r, print_members l ++ [125] = 34 :: r).
  { destruct l as [|[k v] [|kv l]]; [done|..]; by eexists. }
  destruct Hr as (r & Hr). rewrite Hr, Hstep, <-Hr, (parse_print_members n 1 l []) by done. done.
Qed.

Lemma atoi_dec n : 0 <= n < 2 ^ 63 -> atoi (dec n) = Some n.
Proof.
  intros Hn. destruct (dec_value n ltac:(lia)) as (Hv & Hd & Hne).
  assert (Hu : unsigned_val (dec n) = Some n) by (unfold unsigned_val; by destruct (dec n)).
  unfold atoi. destruct (dec_shape n ltac:(lia)) as [[-> _]|(c & s & He & _ & Hb)]; [done|].
  assert (Hm : match dec n with String "-" s' => Z.opp <$> unsigned_val s' | String "+" s' => unsigned_val s'
    | _ => unsigned_val (dec n) end = Some n).
  { rewrite He in *. destruct (ascii_dec c "-") as [->|]; [done|]. destruct (ascii_dec c "+") as [->|]; [done|].
    destruct c as [[] [] [] [] [] [] [] []]; try done; exact Hu. }
  rewrite Hm. unfold int64_min, int64_max. destruct (Z.leb_spec (- 2 ^ 63) n), (Z.leb_spec n (2 ^ 63 - 1)); [done|lia..].
Qed.

(** ** Decoding the fields of a struct *)

Lemma decode_field {R} set k v m (r r' : R) f :
  set k = Some f -> v <> ANil -> f v r = Some r' ->
  decode_fields set ((k, v) :: m) r = decode_fields set m r'.
Proof. intros Hs Hv Hf. simpl. rewrite Hs. destruct v; by rewrite ?Hf. Qed.

Lemma int_field_dec {R} (f : Z -> R -> R) n r :
  0 <= n < 2 ^ 63 -> int_field f (ANumber (dec n)) r = Some (f n r).
Proof. intros Hn. unfold int_field. by rewrite atoi_dec. Qed.
