(* ===== verification/JsonTree.v ===== *)
(** * encoding/json: trees

    The encoder of a tree of objects, arrays, strings, booleans and numbers,
    Go's maps (sorted keys, the last of several members with one key), and
    the round trip: the parser reads a printed tree back. *)
From S2P Require Import Prelude.
From S2P Require Import Errors.
From S2P Require Import GoLib.
From S2P Require Import GoNet.
From S2P Require Import Model.
From S2P Require Import Platform.
From S2P Require Import GoEnc.
From S2P Require Import GoFloat.
From S2P Require Import Json.
From S2P Require Import JsonFlat.
Local Open Scope Z_scope.

(** ** Induction on trees *)

Section any_ind.
Context (P : any -> Prop).
Context (Hnil : P ANil) (Hbool : forall b, P (ABool b)) (Hnum : forall d, P (ANumber d)).
Context (Hfloat : forall f, P (AFloat f)) (Hint : forall i, P (AInt i)).
Context (Hstr : forall s, P (AString s)) (Hstrs : forall l, P (AStrings l)).
Context (Hlist : forall l, Forall P l -> P (AList l)).
Context (Hmap : forall m, Forall (fun kv => P kv.2) m -> P (AMap m)).

Fixpoint any_tree_ind (v : any) : P v :=
  match v with
  | ANil => Hnil
  | ABool b => Hbool b
  | ANumber d => Hnum d
  | AFloat f => Hfloat f
  | AInt i => Hint i
  | AString s => Hstr s
  | AStrings l => Hstrs l
  | AList l => Hlist l ((fix go l : Forall P l :=
      match l with [] => Forall_nil_2 _ | v :: l => Forall_cons_2 _ _ _ (any_tree_ind v) (go l) end) l)
  | AMap m => Hmap m ((fix go m : Forall (fun kv => P kv.2) m :=
      match m with [] => Forall_nil_2 _ | kv :: m => Forall_cons_2 _ _ _ (any_tree_ind kv.2) (go m) end) m)
  end.
End any_ind.

(** ** Encoding *)

Definition comma (l : list (list Z)) : list Z :=
  match l with [] => [] | x :: l => x ++ concat (map (cons 44) l) end.

(** An object is printed in the order of its members: of the fields of a
    struct, or of the sorted keys of a map. *)
Fixpoint print_value (v : any) : list Z :=
  match v with
  | ANil => ascii_bytes "null"
  | ABool b => ascii_bytes (if b then "true" else "false")
  | ANumber d => bytes_of d
  | AFloat n | AInt n => print_int n
  | AString s => encode_string s
  | AStrings l => 91 :: comma (map encode_string l) ++ [93]
  | AList l => 91 :: comma (map print_value l) ++ [93]
  | AMap m => 123 :: comma (map (fun kv => encode_string kv.1 ++ 58 :: print_value kv.2) m) ++ [125]
  end.

Definition key_le (a b : string * any) : Prop := String.leb a.1 b.1 = true.
#[export] Instance key_le_dec : RelDecision key_le.
Proof. intros a b. unfold key_le. apply _. Defined.

(** Decoding an object into a Go map, and the order in which a map is
    printed, at every depth. *)
Fixpoint go_map (v : any) : any :=
  match v with
  | AList l => AList (map go_map l)
  | AMap m => AMap (foldl (fun acc kv => map_set acc kv.1 kv.2) [] (map (fun kv => (kv.1, go_map kv.2)) m))
  | _ => v
  end.

Fixpoint sort_keys (v : any) : any :=
  match v with
  | AList l => AList (map sort_keys l)
  | AMap m => AMap (merge_sort key_le (map (fun kv => (kv.1, sort_keys kv.2)) m))
  | _ => v
  end.

(** [json.Marshal] of a tree of Go maps. *)
Definition marshal_value (v : any) : string := string_of_bytes (print_value (sort_keys v)).

(** [json.Unmarshal] into an [any]. *)
Definition unmarshal_any (s : string) : option any := go_map <$> parse_document s.

(** Numbers decoded into an [any] are doubles; one that overflows is an error.
    [NaN] stands for a double that is not finite, which is not encoded. *)
Fixpoint doubles (v : any) : option any :=
  match v with
  | ANumber d => ANumber <$> reprint d
  | AList l => AList <$> mapM doubles l
  | AMap m => AMap <$> mapM (fun kv => v ← doubles kv.2; Some (kv.1, v)) m
  | _ => Some v
  end.

Fixpoint encodable (v : any) : bool :=
  match v with
  | ANumber d => negb (String.eqb d "NaN")
  | AList l => forallb encodable l
  | AMap m => forallb (fun kv => encodable kv.2) m
  | _ => true
  end.

(** A [map[string]any], or the nil map. *)
Definition object : Type := option (list (string * any)).

Definition object_of (v : any) : option object :=
  match v with
  | ANil => Some None
  | AMap _ => match doubles (go_map v) with Some (AMap m) => Some (Some m) | _ => None end
  | _ => None
  end.

Definition unmarshal_object (raw : string) : option object :=
  match parse_document raw with Some v => object_of v | None => None end.

(** Decoding that takes an empty map for what cannot be read. *)
Definition decode_object (raw : string) : object :=
  if String.eqb raw "" then Some [] else default (Some []) (unmarshal_object raw).

(** [json.Marshal] of a map whose numbers are finite. *)
Definition marshal_object (o : object) : string :=
  match o with None => "null" | Some m => marshal_value (AMap m) end.

(** ** The round trip *)

(** A tree as the parser makes it: integers without a sign, strings and keys
    of characters the encoder copies. *)
Fixpoint tree_ok (v : any) : Prop :=
  match v with
  | ANil | ABool _ => True
  | ANumber d => exists n, 0 <= n /\ d = dec n
  | AString s => plain s = true
  | AList l => fold_right (fun v P => tree_ok v /\ P) True l
  | AMap m => fold_right (fun kv P => (plain kv.1 = true /\ tree_ok kv.2) /\ P) True m
  | AFloat _ | AInt _ | AStrings _ => False
  end.

Fixpoint height (v : any) : Z :=
  match v with
  | AList l => 1 + fold_right (fun v h => Z.max (height v) h) 0 l
  | AMap m => 1 + fold_right (fun kv h => Z.max (height kv.2) h) 0 m
  | _ => 0
  end.

(** Fuel enough to parse it. *)
Fixpoint cost (v : any) : nat :=
  match v with
  | AList l => S (fold_right (fun v n => S (cost v + n)) 0 l)
  | AMap m => S (fold_right (fun kv n => S (cost kv.2 + n)) 0 m)
  | _ => 1
  end%nat.

Lemma tree_ok_list l : tree_ok (AList l) <-> Forall tree_ok l.
Proof. induction l as [|v l IH]; simpl in *; [done|]. by rewrite IH, Forall_cons. Qed.

Lemma tree_ok_map m : tree_ok (AMap m) <-> Forall (fun kv => plain kv.1 = true /\ tree_ok kv.2) m.
Proof. induction m as [|kv m IH]; simpl in *; [done|]. by rewrite IH, Forall_cons. Qed.

Lemma height_nonneg v : 0 <= height v.
Proof.
  induction v using any_tree_ind; simpl; try lia.
  - match goal with |- context [fold_right ?f 0 l] => assert (0 <= fold_right f 0 l) end; [|lia].
    induction H as [|v l Hv Hl IH]; simpl; lia.
  - match goal with |- context [fold_right ?f 0 m] => assert (0 <= fold_right f 0 m) end; [|lia].
    induction H as [|kv m Hv Hl IH]; simpl; lia.
Qed.

(** The first byte of a value is no white space and closes nothing. *)
Definition opens (s : list Z) : Prop :=
  match s with b :: _ => 34 <= b /\ b <> 44 /\ b <> 93 /\ b <> 125 | [] => False end.

Lemma opens_app s t : opens s -> opens (s ++ t).
Proof. by destruct s. Qed.

Lemma opens_skip s : opens s -> skip_ws s = s.
Proof.
  destruct s as [|b s]; [done|]. intros (Hb & _). simpl.
  rewrite !(proj2 (Z.eqb_neq b _)) by lia. done.
Qed.

Lemma print_opens v : tree_ok v -> opens (print_value v).
Proof.
  destruct v as [|b|d|f|i|s|l|l|m]; intros Hv; try done; try (simpl; lia).
  - destruct b; cbv; intuition discriminate.
  - destruct Hv as (n & Hn & ->). cbn [print_value]. destruct (dec_shape n Hn) as [[-> ->]|(c & s & -> & _ & Hb)]; [cbv; intuition discriminate|].
    change (bytes_of (String c s)) with (code c :: bytes_of s). unfold between in Hb. bool_simpl. simpl. lia.
Qed.

Lemma print_number n : 0 <= n -> bytes_of (dec n) = print_scalar (SInt n).
Proof. intros Hn. simpl. unfold print_int. by rewrite (proj2 (Z.ltb_ge n 0)) by lia. Qed.

Lemma parse_number_value fuel d n rest :
  0 <= n -> delimited rest -> parse_value (S fuel) d (bytes_of (dec n) ++ rest) = Some (ANumber (dec n), rest).
Proof.
  intros Hn Hr. pose proof (parse_dec n rest Hn Hr) as Hp.
  destruct (dec_shape n Hn) as [[-> He]|(c & s & He & Hc & Hb)]; [exact Hp|].
  rewrite He in *. change (bytes_of (String c s)) with (code c :: bytes_of s) in *. simpl app in *.
  revert Hp. generalize (code c) Hb Hc. intros b Hb' Hc' Hp. rewrite <-Hp.
  destruct (nonzero_digit b Hb' Hc') as [->|[->|[->|[->|[->|[->|[->|[->| ->]]]]]]]]; reflexivity.
Qed.

Lemma comma_cons x y l : comma (x :: y :: l) = x ++ 44 :: comma (y :: l).
Proof. done. Qed.

Lemma parse_elements_step n d s :
  parse_elements (S n) d s
  = match parse_value n d s with
    | None => None
    | Some (v, r) =>
        match skip_ws r with
        | 93 :: r => Some ([v], r)
        | 44 :: r => match parse_elements n d r with Some (l, r) => Some (v :: l, r) | None => None end
        | _ => None
        end
    end.
Proof. reflexivity. Qed.

(** What the parser does on a printed value, at any fuel and depth enough. *)
Definition reads (v : any) : Prop := forall fuel d rest,
  (cost v <= fuel)%nat -> 0 <= d -> d + height v <= maxNestingDepth -> delimited rest ->
  parse_value fuel d (print_value v ++ rest) = Some (v, rest).

Lemma parse_print_elements l : Forall reads l -> forall fuel d rest,
  l <> [] -> (fold_right (fun v n => S (cost v + n)) 0 l <= fuel)%nat -> 0 <= d ->
  d + fold_right (fun v h => Z.max (height v) h) 0 l <= maxNestingDepth ->
  parse_elements fuel d (comma (map print_value l) ++ 93 :: rest) = Some (l, rest).
Proof.
  induction 1 as [|v l Hv Hl IH]; intros fuel d rest Hne Hf Hd Hh; [done|]. simpl in Hf, Hh.
  destruct fuel as [|fuel]; [lia|]. destruct l as [|w l].
  - cbn [map comma concat]. rewrite app_nil_r, parse_elements_step, Hv by (simpl; lia || tauto). done.
  - cbn [map]. rewrite comma_cons, <-app_assoc, <-app_comm_cons, parse_elements_step.
    rewrite Hv by (simpl; lia || tauto). cbn [skip_ws existsb orb Z.eqb Pos.eqb].
    specialize (IH fuel d rest). cbn [map fst snd] in IH. rewrite IH by (done || simpl in *; lia). done.
Qed.

Lemma parse_print_members_tree m : Forall (fun kv => plain kv.1 = true /\ reads kv.2) m -> forall fuel d rest,
  m <> [] -> (fold_right (fun kv n => S (cost kv.2 + n)) 0 m <= fuel)%nat -> 0 <= d ->
  d + fold_right (fun kv h => Z.max (height kv.2) h) 0 m <= maxNestingDepth ->
  parse_members fuel d (comma (map (fun kv => encode_string kv.1 ++ 58 :: print_value kv.2) m) ++ 125 :: rest)
  = Some (m, rest).
Proof.
  induction 1 as [|[k v] m [Hk Hv] Hm IH]; intros fuel d rest Hne Hf Hd Hh; [done|]. simpl in Hk, Hv, Hf, Hh.
  destruct fuel as [|fuel]; [lia|].
  assert (Hhead : forall tail, delimited tail ->
    parse_members (S fuel) d (encode_string k ++ 58 :: print_value v ++ tail)
    = match skip_ws tail with
      | 125 :: r => Some ([(k, v)], r)
      | 44 :: r => match parse_members fuel d r with Some (m, r) => Some ((k, v) :: m, r) | None => None end
      | _ => None
      end).
  { intros tail Ht. rewrite encode_plain by done. simpl app. rewrite <-app_assoc.
    rewrite parse_members_step. simpl app. rewrite (parse_plain_chars (bytes_of k) _ (plain_Forall k Hk)).
    match goal with |- context [skip_ws (58 :: ?x)] => change (skip_ws (58 :: x)) with (58 :: x) end.
    cbv beta iota. rewrite Hv, string_of_bytes_of by (done || lia). done. }
  destruct m as [|kv m].
  - cbn [map comma concat]. rewrite app_nil_r, <-app_assoc, <-app_comm_cons. cbn [fst snd].
    rewrite Hhead by (simpl; tauto). done.
  - cbn [map]. rewrite comma_cons, <-app_assoc, <-app_comm_cons, <-app_assoc, <-app_comm_cons. cbn [fst snd].
    rewrite Hhead by (simpl; tauto). cbn [skip_ws existsb orb Z.eqb Pos.eqb].
    specialize (IH fuel d rest). cbn [map fst snd] in IH. rewrite IH by (done || simpl in *; lia). done.
Qed.

Lemma parse_value_list fuel d r :
  d < maxNestingDepth -> opens r ->
  parse_value (S fuel) d (91 :: r)
  = match parse_elements fuel (d + 1) r with Some (l, r) => Some (AList l, r) | None => None end.
Proof.
  intros Hd Hr. cbn [parse_value]. cbn [skip_ws existsb orb Z.eqb Pos.eqb].
  rewrite (proj2 (Z.leb_gt _ _)) by lia. rewrite (opens_skip r Hr).
  destruct r as [|b r]; [done|]. destruct Hr as (_ & _ & Hb & _).
  repeat (match goal with |- context [match ?x with _ => _ end] => is_var x; destruct x; try done end).
Qed.

Lemma parse_value_map fuel d r :
  d < maxNestingDepth -> opens r ->
  parse_value (S fuel) d (123 :: r)
  = match parse_members fuel (d + 1) r with Some (m, r) => Some (AMap m, r) | None => None end.
Proof.
  intros Hd Hr. cbn [parse_value]. cbn [skip_ws existsb orb Z.eqb Pos.eqb].
  rewrite (proj2 (Z.leb_gt _ _)) by lia. rewrite (opens_skip r Hr).
  destruct r as [|b r]; [done|]. destruct Hr as (_ & _ & _ & Hb).
  repeat (match goal with |- context [match ?x with _ => _ end] => is_var x; destruct x; try done end).
Qed.

Lemma comma_opens l : Forall opens l -> l <> [] -> opens (comma l).
Proof. intros [|x l' Hx _]; [done|]. intros _. by apply opens_app. Qed.

Lemma encode_opens k t : plain k = true -> opens (encode_string k ++ t).
Proof. intros Hk. rewrite encode_plain by done. simpl. lia. Qed.

(** An array or an object needs no delimiter. *)
Definition container (v : any) : Prop := match v with AList _ | AMap _ => True | _ => False end.

Lemma reads_list l fuel d rest :
  Forall reads l -> Forall tree_ok l -> (cost (AList l) <= fuel)%nat -> 0 <= d ->
  d + height (AList l) <= maxNestingDepth ->
  parse_value fuel d (print_value (AList l) ++ rest) = Some (AList l, rest).
Proof.
  intros Hr Hok Hf Hd Hh. pose proof (height_nonneg (AList l)). simpl in Hf, Hh. destruct fuel as [|fuel]; [lia|].
  cbn [print_value]. rewrite <-app_comm_cons, <-app_assoc. destruct l as [|v l].
  - simpl. by rewrite (proj2 (Z.leb_gt _ _)) by (simpl in Hh; lia).
  - assert (Hn : 0 <= fold_right (fun v h => Z.max (height v) h) 0 (v :: l)).
    { clear. induction (v :: l) as [|w l' IH]; simpl; [lia|]. pose proof (height_nonneg w). lia. }
    rewrite parse_value_list.
    + change ([93] ++ rest) with (93 :: rest). rewrite (parse_print_elements (v :: l)) by (done || lia). done.
    + lia.
    + apply opens_app, comma_opens; [|done]. apply Forall_map. eapply Forall_impl; [exact Hok|]. apply print_opens.
Qed.

Lemma reads_map m fuel d rest :
  Forall (fun kv => plain kv.1 = true /\ reads kv.2) m -> (cost (AMap m) <= fuel)%nat -> 0 <= d ->
  d + height (AMap m) <= maxNestingDepth ->
  parse_value fuel d (print_value (AMap m) ++ rest) = Some (AMap m, rest).
Proof.
  intros Hr Hf Hd Hh. simpl in Hf, Hh. destruct fuel as [|fuel]; [lia|].
  cbn [print_value]. rewrite <-app_comm_cons, <-app_assoc. destruct m as [|kv m].
  - simpl. by rewrite (proj2 (Z.leb_gt _ _)) by (simpl in Hh; lia).
  - assert (Hn : 0 <= fold_right (fun kv h => Z.max (height kv.2) h) 0 (kv :: m)).
    { clear. induction (kv :: m) as [|w l' IH]; simpl; [lia|]. pose proof (height_nonneg w.2). lia. }
    rewrite parse_value_map.
    + change ([125] ++ rest) with (125 :: rest). rewrite (parse_print_members_tree (kv :: m)) by (done || lia). done.
    + lia.
    + apply opens_app, comma_opens; [|done]. apply Forall_map. eapply Forall_impl; [exact Hr|].
      intros kv' [Hk _]. by apply encode_opens.
Qed.

Lemma print_reads v : tree_ok v -> reads v.
Proof.
  induction v as [|b|d|f|i|s|l|l IH|m IH] using any_tree_ind; intros Hok fuel d' rest Hf Hd Hh Hr; try done.
  - simpl in Hf. by destruct fuel; [lia|].
  - simpl in Hf. destruct fuel; [lia|]. by apply (parse_scalar fuel d' (SBool b)).
  - simpl in Hf. destruct fuel; [lia|]. destruct Hok as (n & Hn & ->). by apply parse_number_value.
  - simpl in Hf. destruct fuel; [lia|]. by apply (parse_scalar fuel d' (SString s)).
  - apply tree_ok_list in Hok. apply reads_list; try done. clear -IH Hok.
    rewrite Forall_forall in *. intros v Hv. by apply IH, Hok.
  - apply tree_ok_map in Hok. apply reads_map; try done. clear -IH Hok.
    rewrite Forall_forall in *. intros v Hv. destruct (Hok v Hv). split; [done|]. by apply IH.
Qed.

Definition byte_list (l : list Z) : Prop := Forall (fun b => 0 <= b < 256) l.

Lemma comma_bytes l : Forall byte_list l -> byte_list (comma l).
Proof.
  destruct 1 as [|x l Hx Hl]; [constructor|]. apply Forall_app. split; [done|].
  induction Hl as [|y l Hy Hl IH]; simpl; [constructor|]. constructor; [lia|]. by apply Forall_app.
Qed.

Lemma encode_bytes_ok s : plain s = true -> byte_list (encode_string s).
Proof.
  intros Hs. rewrite encode_plain by done. constructor; [lia|]. apply Forall_app.
  split; [apply bytes_of_bytes | repeat constructor; lia].
Qed.

Lemma enclosed_bytes a l b : 0 <= a < 256 -> 0 <= b < 256 -> byte_list l -> byte_list (a :: l ++ [b]).
Proof. intros. constructor; [done|]. apply Forall_app. split; [done|]. constructor; [done | constructor]. Qed.

Lemma print_bytes v : tree_ok v -> byte_list (print_value v).
Proof.
  induction v as [|b|d|f|i|s|l|l IH|m IH] using any_tree_ind; intros Hok; try done.
  1-3: apply bytes_of_bytes.
  - by apply encode_bytes_ok.
  - apply tree_ok_list in Hok. apply enclosed_bytes; [lia..|]. apply comma_bytes, Forall_map.
    rewrite Forall_forall in *. intros v Hv. by apply IH, Hok.
  - apply tree_ok_map in Hok. apply enclosed_bytes; [lia..|]. apply comma_bytes, Forall_map.
    rewrite Forall_forall in *. intros kv Hkv. destruct (Hok kv Hkv). apply Forall_app.
    split; [by apply encode_bytes_ok|]. constructor; [lia|]. by apply IH.
Qed.

(** A comma or a closing bracket pays for each value. *)
Lemma comma_cost {A} (f : A -> list Z) (c : A -> nat) l :
  Forall (fun x => c x <= 2 * List.length (f x))%nat l ->
  (fold_right (fun x n => S (c x + n)) 0 l <= 2 * List.length (comma (map f l)) + 1)%nat.
Proof.
  destruct 1 as [|x l Hx Hl]; [simpl; lia|]. simpl. rewrite length_app.
  assert (fold_right (fun x n => S (c x + n)) 0 l <= 2 * List.length (concat (map (cons 44%Z) (map f l))))%nat.
  { induction Hl as [|y l Hy Hl IH]; simpl; [lia|]. rewrite length_app. lia. }
  lia.
Qed.

Lemma print_cost v : tree_ok v -> (cost v <= 2 * List.length (print_value v))%nat.
Proof.
  induction v as [|b|d|f|i|s|l|l IH|m IH] using any_tree_ind; intros Hok; try done.
  - simpl. lia.
  - by destruct b; cbv; lia.
  - pose proof (print_opens (ANumber d) Hok) as Ho. destruct (print_value (ANumber d)); [done | simpl; lia].
  - simpl. lia.
  - apply tree_ok_list in Hok. cbn [cost print_value List.length]. rewrite length_app.
    pose proof (comma_cost print_value cost l) as Hc. simpl. unshelve epose proof (Hc _) as Hc'; [|lia].
    rewrite Forall_forall in *. intros v Hv. by apply IH, Hok.
  - apply tree_ok_map in Hok. cbn [cost print_value List.length]. rewrite length_app.
    pose proof (comma_cost (fun kv => encode_string kv.1 ++ 58 :: print_value kv.2) (fun kv => cost kv.2) m) as Hc.
    cbv beta in Hc. cbn [List.length]. unshelve epose proof (Hc _) as Hc'; [|lia].
    rewrite Forall_forall in *. intros kv Hkv. destruct (Hok kv Hkv) as [_ Hv]. specialize (IH kv Hkv Hv).
    rewrite length_app. cbn [List.length]. lia.
Qed.

(** The parser reads a printed tree back. *)
Lemma parse_print_tree v :
  container v -> tree_ok v -> height v <= maxNestingDepth ->
  parse_document (string_of_bytes (print_value v)) = Some v.
Proof.
  intros Hc Hok Hh. unfold parse_document. rewrite (bytes_of_string_of_bytes _ (print_bytes v Hok)).
  pose proof (print_cost v Hok) as Hcost.
  assert (Hp : parse_value (2 * List.length (print_value v) + 2) 0 (print_value v ++ []) = Some (v, [])).
  { destruct v as [|b|d|f|i|s|l|l|m]; try done.
    - apply tree_ok_list in Hok. apply reads_list; [| |lia..]; [|done].
      eapply Forall_impl; [exact Hok | apply print_reads].
    - apply tree_ok_map in Hok. apply reads_map; [|lia..].
      eapply Forall_impl; [exact Hok|]. intros kv [Hk Hv]. split; [done | by apply print_reads]. }
  rewrite app_nil_r in Hp. by rewrite Hp.
Qed.
