(* ===== verification/Profile.v ===== *)
(** * Profiles: the metadata of an account

    [model.ProfileMetadata] and its JSON form in the [metadata] column
    (model/user.go), the claims a token carries about its user, and the
    operations of the user service that merge into the column or list the
    accounts (user/service.go, user/repository.go). *)
From S2P Require Import Prelude.
From S2P Require Import Errors.
From S2P Require Import GoLib.
From S2P Require Import GoNet.
From S2P Require Import Model.
From S2P Require Import Platform.
From S2P Require Import Exec.
From S2P Require Import ActionToken.
From S2P Require Import UserSvc.
From S2P Require Import Json.
From S2P Require Import JsonFlat.
From S2P Require Import JsonTree.
From Stdlib Require Import Ascii.
Local Open Scope Z_scope.

(** ** encoding/json: fields of pointer type

    A null clears the field.  A value of another type leaves it pointing to
    the zero value when it was nil, as it was otherwise; the error comes once
    the document was read. *)
Definition store_string (v : any) (old : option string) : option string :=
  match v with ANil => None | AString s => Some s | _ => Some (default "" old) end.

Definition store_bool (v : any) (old : option bool) : option bool :=
  match v with ANil => None | ABool b => Some b | _ => Some (default false old) end.

(** The first of [fields] whose name folds to the key. *)
Fixpoint field_of {R} (fields : list (string * (any -> R -> R))) (k : string) : option (any -> R -> R) :=
  match fields with
  | [] => None
  | (name, f) :: fields => if equal_fold name k then Some f else field_of fields k
  end.

Definition store_fields {R} (fields : list (string * (any -> R -> R))) (m : list (string * any)) (r : R) : R :=
  foldl (fun r kv => match field_of fields kv.1 with Some f => f kv.2 r | None => r end) r m.

(** [`json:"k,omitempty"`] on a pointer. *)
Definition omitempty {A} (k : string) (f : A -> any) (o : option A) : list (string * any) :=
  match o with Some a => [(k, f a)] | None => [] end.

(** ** model/user.go *)
Module AddressClaim.
Record t := mk {
  Formatted : option string;
  StreetAddress : option string;
  Locality : option string;
  Region : option string;
  PostalCode : option string;
  Country : option string
}.

#[global] Instance eta_t : Eta t := fun r => mk
  (r.(Formatted)) (r.(StreetAddress)) (r.(Locality)) (r.(Region)) (r.(PostalCode)) (r.(Country)).

Definition zero : t := mk None None None None None None.

Definition fields : list (string * (any -> t -> t)) :=
  [("formatted", fun v r => r <| Formatted ::= store_string v |>);
   ("street_address", fun v r => r <| StreetAddress ::= store_string v |>);
   ("locality", fun v r => r <| Locality ::= store_string v |>);
   ("region", fun v r => r <| Region ::= store_string v |>);
   ("postal_code", fun v r => r <| PostalCode ::= store_string v |>);
   ("country", fun v r => r <| Country ::= store_string v |>)].

Definition to_any (a : t) : any :=
  AMap (omitempty "formatted" AString a.(Formatted) ++ omitempty "street_address" AString a.(StreetAddress)
     ++ omitempty "locality" AString a.(Locality) ++ omitempty "region" AString a.(Region)
     ++ omitempty "postal_code" AString a.(PostalCode) ++ omitempty "country" AString a.(Country)).
End AddressClaim.

Module ProfileMetadata.
Record t := mk {
  GivenName : option string;
  FamilyName : option string;
  MiddleName : option string;
  Nickname : option string;
  PreferredUsername : option string;
  ProfileURL : option string;
  Website : option string;
  Gender : option string;
  Birthdate : option string;
  Zoneinfo : option string;
  Locale : option string;
  PhoneVerified : option bool;
  Address : option AddressClaim.t
}.

#[global] Instance eta_t : Eta t := fun r => mk
  (r.(GivenName)) (r.(FamilyName)) (r.(MiddleName)) (r.(Nickname)) (r.(PreferredUsername))
  (r.(ProfileURL)) (r.(Website)) (r.(Gender)) (r.(Birthdate)) (r.(Zoneinfo)) (r.(Locale))
  (r.(PhoneVerified)) (r.(Address)).

Definition zero : t := mk None None None None None None None None None None None None None.

Definition store_address (v : any) (old : option AddressClaim.t) : option AddressClaim.t :=
  match v with
  | ANil => None
  | AMap m => Some (store_fields AddressClaim.fields m (default AddressClaim.zero old))
  | _ => Some (default AddressClaim.zero old)
  end.

Definition fields : list (string * (any -> t -> t)) :=
  [("given_name", fun v r => r <| GivenName ::= store_string v |>);
   ("family_name", fun v r => r <| FamilyName ::= store_string v |>);
   ("middle_name", fun v r => r <| MiddleName ::= store_string v |>);
   ("nickname", fun v r => r <| Nickname ::= store_string v |>);
   ("preferred_username", fun v r => r <| PreferredUsername ::= store_string v |>);
   ("profile", fun v r => r <| ProfileURL ::= store_string v |>);
   ("website", fun v r => r <| Website ::= store_string v |>);
   ("gender", fun v r => r <| Gender ::= store_string v |>);
   ("birthdate", fun v r => r <| Birthdate ::= store_string v |>);
   ("zoneinfo", fun v r => r <| Zoneinfo ::= store_string v |>);
   ("locale", fun v r => r <| Locale ::= store_string v |>);
   ("phone_number_verified", fun v r => r <| PhoneVerified ::= store_bool v |>);
   ("address", fun v r => r <| Address ::= store_address v |>)].

Definition to_any (p : t) : any :=
  AMap (omitempty "given_name" AString p.(GivenName) ++ omitempty "family_name" AString p.(FamilyName)
     ++ omitempty "middle_name" AString p.(MiddleName) ++ omitempty "nickname" AString p.(Nickname)
     ++ omitempty "preferred_username" AString p.(PreferredUsername)
     ++ omitempty "profile" AString p.(ProfileURL) ++ omitempty "website" AString p.(Website)
     ++ omitempty "gender" AString p.(Gender) ++ omitempty "birthdate" AString p.(Birthdate)
     ++ omitempty "zoneinfo" AString p.(Zoneinfo) ++ omitempty "locale" AString p.(Locale)
     ++ omitempty "phone_number_verified" ABool p.(PhoneVerified)
     ++ omitempty "address" AddressClaim.to_any p.(Address)).

Definition marshal (p : t) : string := string_of_bytes (print_value (to_any p)).
End ProfileMetadata.

(** The error of the decoder is dropped; what it stored stays. *)
Definition GetProfileMetadata (u : User.t) : ProfileMetadata.t :=
  if String.eqb u.(User.Metadata) "" then ProfileMetadata.zero
  else match parse_document u.(User.Metadata) with
       | Some (AMap m) => store_fields ProfileMetadata.fields m ProfileMetadata.zero
       | _ => ProfileMetadata.zero
       end.

Definition setIfNotNil (claims : list (string * any)) (key : string) (val : option string) : list (string * any) :=
  match val with Some v => map_set claims key (AString v) | None => claims end.

Definition profile_claims (u : User.t) (c : list (string * any)) : list (string * any) :=
  let meta := GetProfileMetadata u in
  let c := setIfNotNil c "name" u.(User.DisplayName) in
  let c := setIfNotNil c "picture" u.(User.AvatarURL) in
  let c := map_set c "updated_at" (AInt (time_unix u.(User.UpdatedAt))) in
  let c := setIfNotNil c "given_name" meta.(ProfileMetadata.GivenName) in
  let c := setIfNotNil c "family_name" meta.(ProfileMetadata.FamilyName) in
  let c := setIfNotNil c "middle_name" meta.(ProfileMetadata.MiddleName) in
  let c := setIfNotNil c "nickname" meta.(ProfileMetadata.Nickname) in
  let c := setIfNotNil c "preferred_username" meta.(ProfileMetadata.PreferredUsername) in
  let c := setIfNotNil c "profile" meta.(ProfileMetadata.ProfileURL) in
  let c := setIfNotNil c "website" meta.(ProfileMetadata.Website) in
  let c := setIfNotNil c "gender" meta.(ProfileMetadata.Gender) in
  let c := setIfNotNil c "birthdate" meta.(ProfileMetadata.Birthdate) in
  let c := setIfNotNil c "zoneinfo" meta.(ProfileMetadata.Zoneinfo) in
  setIfNotNil c "locale" meta.(ProfileMetadata.Locale).

Definition email_claims (u : User.t) (c : list (string * any)) : list (string * any) :=
  map_set (map_set c "email" (AString u.(User.Email))) "email_verified" (ABool u.(User.EmailVerified)).

Definition phone_claims (u : User.t) (c : list (string * any)) : list (string * any) :=
  let c := setIfNotNil c "phone_number" u.(User.Phone) in
  match (GetProfileMetadata u).(ProfileMetadata.PhoneVerified) with
  | Some b => map_set c "phone_number_verified" (ABool b)
  | None => c
  end.

Definition address_claims (u : User.t) (c : list (string * any)) : list (string * any) :=
  match (GetProfileMetadata u).(ProfileMetadata.Address) with
  | Some a => map_set c "address" (AddressClaim.to_any a)
  | None => c
  end.

Definition OIDCClaims `{Platform} (u : User.t) (scopes : list string) : list (string * any) :=
  let has s := existsb (String.eqb s) scopes in
  let claims := [("sub", AString (uuid_string u.(User.ID)))] in
  let claims := if has "profile" then profile_claims u claims else claims in
  let claims := if has "email" then email_claims u claims else claims in
  let claims := if has "phone" then phone_claims u claims else claims in
  if has "address" then address_claims u claims else claims.

(** ** user/service.go *)
Module ProfileSvc.

Record UpdateProfileInput := mkUpdateProfileInput {
  up_DisplayName : option string;
  up_AvatarURL : option string;
  up_Phone : option string;
  up_Metadata : option ProfileMetadata.t
}.

Record M2MUpdateInput := mkM2MUpdateInput {
  m2m_Email : option string;
  m2m_EmailVerified : option bool;
  m2m_DisplayName : option string;
  m2m_AvatarURL : option string;
  m2m_Phone : option string;
  m2m_Active : option bool;
  m2m_Metadata : option ProfileMetadata.t
}.

Definition or_else {A} (src dst : option A) : option A := match src with Some _ => src | None => dst end.

Definition mergeProfileMetadata (dst src : ProfileMetadata.t) : ProfileMetadata.t :=
  ProfileMetadata.mk
    (or_else src.(ProfileMetadata.GivenName) dst.(ProfileMetadata.GivenName))
    (or_else src.(ProfileMetadata.FamilyName) dst.(ProfileMetadata.FamilyName))
    (or_else src.(ProfileMetadata.MiddleName) dst.(ProfileMetadata.MiddleName))
    (or_else src.(ProfileMetadata.Nickname) dst.(ProfileMetadata.Nickname))
    (or_else src.(ProfileMetadata.PreferredUsername) dst.(ProfileMetadata.PreferredUsername))
    (or_else src.(ProfileMetadata.ProfileURL) dst.(ProfileMetadata.ProfileURL))
    (or_else src.(ProfileMetadata.Website) dst.(ProfileMetadata.Website))
    (or_else src.(ProfileMetadata.Gender) dst.(ProfileMetadata.Gender))
    (or_else src.(ProfileMetadata.Birthdate) dst.(ProfileMetadata.Birthdate))
    (or_else src.(ProfileMetadata.Zoneinfo) dst.(ProfileMetadata.Zoneinfo))
    (or_else src.(ProfileMetadata.Locale) dst.(ProfileMetadata.Locale))
    (or_else src.(ProfileMetadata.PhoneVerified) dst.(ProfileMetadata.PhoneVerified))
    (or_else src.(ProfileMetadata.Address) dst.(ProfileMetadata.Address)).

(** The two blocks that merge the metadata; marshalling a struct of strings
    does not fail. *)
Definition merge_metadata (input : option ProfileMetadata.t) (u : User.t) : User.t :=
  match input with
  | Some src =>
      u <| User.Metadata := ProfileMetadata.marshal (mergeProfileMetadata (GetProfileMetadata u) src) |>
  | None => u
  end.

Definition set_profile (input : UpdateProfileInput) (u : User.t) : User.t :=
  merge_metadata input.(up_Metadata)
    (u <| User.DisplayName ::= or_else input.(up_DisplayName) |>
       <| User.AvatarURL ::= or_else input.(up_AvatarURL) |>
       <| User.Phone ::= or_else input.(up_Phone) |>).

Definition UpdateProfile (id : UUID) (input : UpdateProfileInput) : M User.t :=
  user <- UserSvc.GetByID id ;;
  or_fail (UserRepo.Update (set_profile input user)) (ErrInternal "failed to update profile").

Definition set_m2m (input : M2MUpdateInput) (u : User.t) : User.t :=
  merge_metadata input.(m2m_Metadata)
    (u <| User.EmailVerified ::= fun v => default v input.(m2m_EmailVerified) |>
       <| User.DisplayName ::= or_else input.(m2m_DisplayName) |>
       <| User.AvatarURL ::= or_else input.(m2m_AvatarURL) |>
       <| User.Phone ::= or_else input.(m2m_Phone) |>
       <| User.Active ::= fun a => default a input.(m2m_Active) |>).

Definition M2MUpdate (id : UUID) (input : M2MUpdateInput) : M User.t :=
  u <- UserSvc.GetByID id ;;
  u <- match input.(m2m_Email) with
       | None => ret u
       | Some e =>
           let email := to_lower (trim_space e) in
           if String.eqb email u.(User.Email) then ret u
           else
             let! (existing, err) := UserRepo.FindByEmail email ;;
             match err with
             | Some _ => throw (ErrInternal "failed to check email")
             | None =>
                 guard (match existing with Some x => N.eqb x.(User.ID) id | None => true end)
                   (ErrConflict "email already in use") ;;;
                 ret (u <| User.Email := email |>)
             end
       end ;;
  or_fail (UserRepo.Update (set_m2m input u)) (ErrInternal "failed to update user").

(** ** The lists *)

(** SQL's [LIKE]: a percent sign stands for any characters, an underscore for
    one, and a backslash takes the next as it is. *)
Fixpoint like (p s : string) {struct p} : bool :=
  match p with
  | EmptyString => match s with EmptyString => true | _ => false end
  | String "%" p =>
      (fix any_rest s := like p s || match s with EmptyString => false | String _ s => any_rest s end) s
  | String "_" p => match s with EmptyString => false | String _ s => like p s end
  | String "\" (String c p) =>
      match s with String d s => Ascii.eqb c d && like p s | EmptyString => false end
  | String c p => match s with String d s => Ascii.eqb c d && like p s | EmptyString => false end
  end.

Definition newest (a b : User.t) : Prop := b.(User.CreatedAt) <= a.(User.CreatedAt).
#[export] Instance newest_dec : RelDecision newest.
Proof. intros a b. unfold newest. apply _. Defined.

Definition search_matches `{Platform} (q : string) (u : User.t) : bool :=
  let pattern := "%" +:+ to_lower q +:+ "%" in
  String.eqb q "" || like pattern (to_lower u.(User.Email))
  || like pattern (to_lower (default "" u.(User.DisplayName)))
  || like pattern (uuid_string u.(User.ID)).

(** The count's error is not looked at; gorm leaves the total at zero. *)
Definition Search `{Platform} (q : string) (page perPage : Z) : M (list User.t * Z) :=
  let rows db := select_rows (search_matches q) db.(users) in
  total <- opt (query (fun _ db => Z.of_nat (length (rows db)))) ;;
  let offset := int64_wrap (int64_wrap (page - 1) * perPage) in
  found <- query (fun _ db =>
    take (Z.to_nat perPage) (skipn (Z.to_nat offset) (merge_sort newest (rows db)))) ;;
  ret (found, default 0 total).

Definition List `{Platform} (page perPage : Z) : M (list User.t * Z) := Search "" page perPage.

End ProfileSvc.

(** ** Properties *)
Module ProfileFacts.
Import ProfileSvc.

(** *** The metadata column read back *)

Lemma store_omitempty {R A} (set : option A -> R -> R) fields k (f : A -> any) g (o : option A) m (r : R) :
  field_of fields k = Some g -> (forall a, g (f a) r = set (Some a) r) -> set None r = r ->
  store_fields fields (omitempty k f o ++ m) r = store_fields fields m (set o r).
Proof.
  intros Hk Hg Hn. destruct o as [a|]; simpl; [|by rewrite Hn].
  unfold store_fields. simpl. by rewrite Hk, Hg.
Qed.

Lemma store_fields_nil {R} fields (r : R) : store_fields fields [] r = r.
Proof. done. Qed.

Lemma store_last {R A} (set : option A -> R -> R) fields k (f : A -> any) g (o : option A) (r : R) :
  field_of fields k = Some g -> (forall a, g (f a) r = set (Some a) r) -> set None r = r ->
  store_fields fields (omitempty k f o) r = set o r.
Proof. intros. rewrite <-(app_nil_r (omitempty k f o)). by erewrite store_omitempty. Qed.

Ltac absorb set :=
  etrans; [eapply (store_omitempty set); reflexivity|];
  lazymatch goal with |- store_fields ?f ?m ?r = ?x => let r := eval cbv in r in change (store_fields f m r = x) end.

Lemma address_fields a m :
  AddressClaim.to_any a = AMap m -> store_fields AddressClaim.fields m AddressClaim.zero = a.
Proof.
  intros [= <-]. destruct a as [a1 a2 a3 a4 a5 a6]. cbn [AddressClaim.Formatted AddressClaim.StreetAddress
    AddressClaim.Locality AddressClaim.Region AddressClaim.PostalCode AddressClaim.Country].
  absorb (fun o r => r <| AddressClaim.Formatted := o |>).
  absorb (fun o r => r <| AddressClaim.StreetAddress := o |>).
  absorb (fun o r => r <| AddressClaim.Locality := o |>).
  absorb (fun o r => r <| AddressClaim.Region := o |>).
  absorb (fun o r => r <| AddressClaim.PostalCode := o |>).
  etrans; [eapply (store_last (fun o r => r <| AddressClaim.Country := o |>)); reflexivity|]. done.
Qed.

Lemma store_to_any a : ProfileMetadata.store_address (AddressClaim.to_any a) None = Some a.
Proof.
  unfold ProfileMetadata.store_address. pose proof (address_fields a) as Ha. revert Ha.
  unfold AddressClaim.to_any. intros Ha. f_equal. by apply Ha.
Qed.

Lemma profile_fields p m :
  ProfileMetadata.to_any p = AMap m -> store_fields ProfileMetadata.fields m ProfileMetadata.zero = p.
Proof.
  intros [= <-]. destruct p as [g1 g2 g3 g4 g5 g6 g7 g8 g9 g10 g11 g12 g13].
  cbn [ProfileMetadata.GivenName ProfileMetadata.FamilyName ProfileMetadata.MiddleName
    ProfileMetadata.Nickname ProfileMetadata.PreferredUsername ProfileMetadata.ProfileURL
    ProfileMetadata.Website ProfileMetadata.Gender ProfileMetadata.Birthdate ProfileMetadata.Zoneinfo
    ProfileMetadata.Locale ProfileMetadata.PhoneVerified ProfileMetadata.Address].
  absorb (fun o r => r <| ProfileMetadata.GivenName := o |>).
  absorb (fun o r => r <| ProfileMetadata.FamilyName := o |>).
  absorb (fun o r => r <| ProfileMetadata.MiddleName := o |>).
  absorb (fun o r => r <| ProfileMetadata.Nickname := o |>).
  absorb (fun o r => r <| ProfileMetadata.PreferredUsername := o |>).
  absorb (fun o r => r <| ProfileMetadata.ProfileURL := o |>).
  absorb (fun o r => r <| ProfileMetadata.Website := o |>).
  absorb (fun o r => r <| ProfileMetadata.Gender := o |>).
  absorb (fun o r => r <| ProfileMetadata.Birthdate := o |>).
  absorb (fun o r => r <| ProfileMetadata.Zoneinfo := o |>).
  absorb (fun o r => r <| ProfileMetadata.Locale := o |>).
  absorb (fun o r => r <| ProfileMetadata.PhoneVerified := o |>).
  etrans; [eapply (store_last (fun o r => r <| ProfileMetadata.Address := o |>)); [reflexivity| |reflexivity]|done].
  intros a. pose proof (store_to_any a) as Ha. cbv beta. unfold upd. cbn [ProfileMetadata.Address]. by rewrite Ha.
Qed.

(** Text the encoder copies. *)
Definition plain_opt (o : option string) : Prop := match o with Some s => plain s = true | None => True end.

Definition address_ok (a : AddressClaim.t) : Prop :=
  Forall plain_opt [a.(AddressClaim.Formatted); a.(AddressClaim.StreetAddress); a.(AddressClaim.Locality);
                    a.(AddressClaim.Region); a.(AddressClaim.PostalCode); a.(AddressClaim.Country)].

Definition profile_ok (p : ProfileMetadata.t) : Prop :=
  Forall plain_opt [p.(ProfileMetadata.GivenName); p.(ProfileMetadata.FamilyName);
    p.(ProfileMetadata.MiddleName); p.(ProfileMetadata.Nickname); p.(ProfileMetadata.PreferredUsername);
    p.(ProfileMetadata.ProfileURL); p.(ProfileMetadata.Website); p.(ProfileMetadata.Gender);
    p.(ProfileMetadata.Birthdate); p.(ProfileMetadata.Zoneinfo); p.(ProfileMetadata.Locale)]
  /\ match p.(ProfileMetadata.Address) with Some a => address_ok a | None => True end.

Definition member_ok (kv : string * any) : Prop := plain kv.1 = true /\ tree_ok kv.2.

Lemma omitempty_ok k o : plain k = true -> plain_opt o -> Forall member_ok (omitempty k AString o).
Proof. intros Hk Ho. destruct o; simpl; [|done]. by repeat constructor. Qed.

Lemma member_app l l' : Forall member_ok l -> Forall member_ok l' -> Forall member_ok (l ++ l').
Proof. apply Forall_app_2. Qed.

Lemma address_tree a : address_ok a -> tree_ok (AddressClaim.to_any a).
Proof.
  unfold address_ok. intros Ha. apply tree_ok_map.
  repeat (apply Forall_cons in Ha as [? Ha]).
  do 5 (apply member_app; [by apply omitempty_ok|]). by apply omitempty_ok.
Qed.

Lemma profile_tree p : profile_ok p -> tree_ok (ProfileMetadata.to_any p).
Proof.
  intros [Hs Ha]. apply tree_ok_map. repeat (apply Forall_cons in Hs as [? Hs]).
  do 11 (apply member_app; [by apply omitempty_ok|]). apply member_app.
  - destruct (ProfileMetadata.PhoneVerified p); by repeat constructor.
  - destruct (ProfileMetadata.Address p) as [a|]; [|constructor]. constructor; [|constructor].
    split; [done | by apply address_tree].
Qed.

Lemma to_any_shape p : exists m, ProfileMetadata.to_any p = AMap m.
Proof. by eexists. Qed.

Lemma height_members m n :
  Forall (fun kv => height kv.2 <= n) m -> 0 <= n -> height (AMap m) <= n + 1.
Proof.
  intros Hm Hn. simpl. assert (fold_right (fun kv h => Z.max (height kv.2) h) 0 m <= n); [|lia].
  induction Hm as [|kv m Hkv Hm IH]; simpl; lia.
Qed.

Lemma omitempty_height {A} k (f : A -> any) o n :
  (forall a, height (f a) <= n) -> Forall (fun kv => height kv.2 <= n) (omitempty k f o).
Proof. intros Hf. destruct o; simpl; repeat constructor. apply Hf. Qed.

Lemma address_height a : height (AddressClaim.to_any a) <= 1.
Proof.
  apply (height_members _ 0); [|lia].
  repeat (apply Forall_app_2; [by apply omitempty_height|]). by apply omitempty_height.
Qed.

Lemma profile_height p : height (ProfileMetadata.to_any p) <= 2.
Proof.
  apply (height_members _ 1); [|lia].
  repeat (apply Forall_app_2; [by apply omitempty_height|]). apply omitempty_height, address_height.
Qed.

Lemma marshal_nonempty p : String.eqb (ProfileMetadata.marshal p) "" = false.
Proof.
  unfold ProfileMetadata.marshal. destruct (to_any_shape p) as [m ->]. done.
Qed.

(** The metadata column read back: what is marshalled is what the row's next
    reader gets, for any profile whose texts the encoder copies. *)
Lemma metadata_read_back u p :
  profile_ok p -> GetProfileMetadata (u <| User.Metadata := ProfileMetadata.marshal p |>) = p.
Proof.
  intros Hp. unfold GetProfileMetadata.
  change (User.Metadata (u <| User.Metadata := ProfileMetadata.marshal p |>)) with (ProfileMetadata.marshal p).
  rewrite marshal_nonempty. unfold ProfileMetadata.marshal. destruct (to_any_shape p) as [m Hm].
  rewrite parse_print_tree.
  - rewrite Hm. by apply profile_fields.
  - by rewrite Hm.
  - by apply profile_tree.
  - pose proof (profile_height p). unfold maxNestingDepth. lia.
Qed.

(** Merging keeps texts that the encoder copies. *)
Lemma or_else_plain src dst : plain_opt src -> plain_opt dst -> plain_opt (or_else src dst).
Proof. by destruct src. Qed.

Lemma merge_ok dst src : profile_ok dst -> profile_ok src -> profile_ok (mergeProfileMetadata dst src).
Proof.
  intros [Hd Had] [Hs Has]. split.
  - repeat (apply Forall_cons in Hd as [? Hd]). repeat (apply Forall_cons in Hs as [? Hs]).
    repeat (constructor; [by apply or_else_plain|]). constructor.
  - simpl. by destruct (ProfileMetadata.Address src).
Qed.

(** *** The operations *)

(** A lookup that answers has the row; it writes nothing. *)
Lemma wp_user_GetByID id env st (Q : result User.t -> State -> Prop) :
  (forall e, Q (Err e) (bump st)) ->
  (forall u, st.(st_db).(users) !! id = Some u -> Q (Ok u) (bump st)) ->
  wp (UserSvc.GetByID id) Q env st.
Proof.
  intros He Ho. unfold UserSvc.GetByID, UserRepo.FindByID. apply wp_bind, wp_find_row; intros _; [apply He|].
  destruct (users (st_db st) !! id) as [u|] eqn:E; [by apply Ho | apply He].
Qed.

Lemma wp_user_Update u env st (Q : result User.t -> State -> Prop) :
  (forall e, Q (Err e) (bump st)) ->
  (let row := u <| User.UpdatedAt := env.(env_wall) |> in
   UserRepo.email_taken u.(User.Email) u.(User.ID) st.(st_db).(users) = false ->
   Q (Ok row) (mkState (st.(st_db) <| users ::= insert u.(User.ID) row |>) (S st.(st_step)))) ->
  wp (UserRepo.Update u) Q env st.
Proof.
  intros He Ho. unfold UserRepo.Update. apply wp_bind, wp_wall_now. cbv zeta. apply wp_bind, wp_stmt; [done|].
  intros db' _. change (User.Email (u <| User.UpdatedAt := env_wall env |>)) with (User.Email u).
  change (User.ID (u <| User.UpdatedAt := env_wall env |>)) with (User.ID u).
  destruct (UserRepo.email_taken _ _ _) eqn:E; [done|]. intros [= <-]. by apply wp_ret, Ho.
Qed.

(** What the owner of an account may change: the profile columns. *)
Definition same_account (old u : User.t) : Prop :=
  u = old <| User.DisplayName := u.(User.DisplayName) |> <| User.AvatarURL := u.(User.AvatarURL) |>
          <| User.Phone := u.(User.Phone) |> <| User.Metadata := u.(User.Metadata) |>
          <| User.UpdatedAt := u.(User.UpdatedAt) |>.

Definition input_ok (input : option ProfileMetadata.t) : Prop :=
  match input with Some p => profile_ok p | None => True end.

(** The profile after a change: the supplied values over the stored ones. *)
Definition profile_applied (input : UpdateProfileInput) (old u : User.t) : Prop :=
  u.(User.DisplayName) = or_else input.(up_DisplayName) old.(User.DisplayName) /\
  u.(User.AvatarURL) = or_else input.(up_AvatarURL) old.(User.AvatarURL) /\
  u.(User.Phone) = or_else input.(up_Phone) old.(User.Phone) /\
  (profile_ok (GetProfileMetadata old) -> input_ok input.(up_Metadata) ->
   GetProfileMetadata u = match input.(up_Metadata) with
                          | Some src => mergeProfileMetadata (GetProfileMetadata old) src
                          | None => GetProfileMetadata old
                          end).

Lemma set_profile_same input old wall :
  let u := (set_profile input old) <| User.UpdatedAt := wall |> in
  same_account old u /\ u.(User.ID) = old.(User.ID) /\ profile_applied input old u.
Proof.
  destruct input as [d a p [m|]]; cbv zeta; unfold set_profile, merge_metadata; cbn [up_Metadata up_DisplayName up_AvatarURL up_Phone].
  - split_and!; [by destruct old | done |]. split; [done|]. split; [done|]. split; [done|]. intros Hold Hin.
    match goal with |- GetProfileMetadata (?x <| User.UpdatedAt := _ |>) = _ =>
      change (GetProfileMetadata x = mergeProfileMetadata (GetProfileMetadata old) m) end.
    rewrite metadata_read_back; [done|]. by apply merge_ok.
  - split_and!; by destruct old.
Qed.

(** The owner of an account changes its profile and nothing else.  A change
    that is refused writes nothing.  One that goes through writes the one row
    of the account: its address, password, flags and tokens are as they were,
    each supplied column is as supplied and the others as stored, and the
    metadata read back is the stored one under the supplied claims. *)
Theorem UpdateProfile_spec (id : UUID) (input : UpdateProfileInput) (env : Env) (db : DB) :
  UserFacts.users_wf db.(users) ->
  let '(r, db') := run (UpdateProfile id input) env db in
  match r with
  | Err _ => db' = db
  | Ok u => exists old, db.(users) !! id = Some old /\ same_account old u /\ profile_applied input old u /\
      db' = db <| users ::= insert id u |>
  end.
Proof.
  intros Hwf. apply run_wp. unfold UpdateProfile. apply wp_bind, wp_user_GetByID; [done|].
  intros old Hold. apply wp_or_fail, wp_user_Update; [done|]. intros row _.
  destruct (set_profile_same input old env.(env_wall)) as (Hs & Hid & Hp).
  destruct (Hwf _ _ Hold) as [Hkey _]. exists old. split; [exact Hold|]. split; [exact Hs|]. split; [exact Hp|].
  simpl st_db.
  change (User.ID (set_profile input old)) with (User.ID ((set_profile input old) <| User.UpdatedAt := env_wall env |>)).
  by rewrite Hid, Hkey.
Qed.

(** *** The claims of a token *)

Definition claims_of (scope : string) : list string :=
  if String.eqb scope "profile" then
    ["name"; "picture"; "updated_at"; "given_name"; "family_name"; "middle_name"; "nickname";
     "preferred_username"; "profile"; "website"; "gender"; "birthdate"; "zoneinfo"; "locale"]
  else if String.eqb scope "email" then ["email"; "email_verified"]
  else if String.eqb scope "phone" then ["phone_number"; "phone_number_verified"]
  else if String.eqb scope "address" then ["address"]
  else [].

(** A claim the scopes cover. *)
Definition covered (scopes : list string) (k : string) : bool :=
  String.eqb k "sub" || existsb (fun s => existsb (String.eqb k) (claims_of s)) scopes.

Definition all_covered (scopes : list string) (c : list (string * any)) : Prop :=
  Forall (fun kv => covered scopes kv.1 = true) c.

Lemma covered_scope scopes s k :
  existsb (String.eqb s) scopes = true -> existsb (String.eqb k) (claims_of s) = true -> covered scopes k = true.
Proof.
  intros Hs Hk. unfold covered. apply orb_true_iff. right. apply existsb_exists in Hs as (s' & Hin & He).
  apply String.eqb_eq in He as <-. apply existsb_exists. by exists s.
Qed.

Lemma map_set_covered scopes c k v : all_covered scopes c -> covered scopes k = true -> all_covered scopes (map_set c k v).
Proof.
  intros Hc Hk. induction Hc as [|[k0 v0] c Hk0 Hc IH]; simpl; [by repeat constructor|].
  destruct (String.eqb_spec k0 k) as [->|]; by constructor.
Qed.

Lemma set_covered scopes c k o : all_covered scopes c -> covered scopes k = true -> all_covered scopes (setIfNotNil c k o).
Proof. intros. destruct o; [by apply map_set_covered | done]. Qed.

Ltac covered_by E := by apply (covered_scope _ _ _ E).

Lemma profile_covered scopes u c :
  existsb (String.eqb "profile") scopes = true -> all_covered scopes c -> all_covered scopes (profile_claims u c).
Proof.
  intros E Hc. unfold profile_claims. cbv zeta. do 11 (apply set_covered; [|covered_by E]).
  apply map_set_covered; [|covered_by E]. by do 2 (apply set_covered; [|covered_by E]).
Qed.

Lemma email_covered scopes u c :
  existsb (String.eqb "email") scopes = true -> all_covered scopes c -> all_covered scopes (email_claims u c).
Proof. intros E Hc. by do 2 (apply map_set_covered; [|covered_by E]). Qed.

Lemma phone_covered scopes u c :
  existsb (String.eqb "phone") scopes = true -> all_covered scopes c -> all_covered scopes (phone_claims u c).
Proof.
  intros E Hc. unfold phone_claims.
  assert (all_covered scopes (setIfNotNil c "phone_number" u.(User.Phone))) by (apply set_covered; [done | covered_by E]).
  case_match; [apply map_set_covered; [done | covered_by E] | done].
Qed.

Lemma address_covered scopes u c :
  existsb (String.eqb "address") scopes = true -> all_covered scopes c -> all_covered scopes (address_claims u c).
Proof. intros E Hc. unfold address_claims. case_match; [apply map_set_covered; [done | covered_by E] | done]. Qed.

(** A claim is released only with a scope that covers it. *)
Theorem OIDCClaims_covered `{Platform} (u : User.t) (scopes : list string) :
  all_covered scopes (OIDCClaims u scopes).
Proof.
  unfold OIDCClaims. cbv zeta.
  assert (Hstep : forall (scope : string) (f : list (string * any) -> list (string * any)) c,
    (existsb (String.eqb scope) scopes = true -> all_covered scopes c -> all_covered scopes (f c)) ->
    all_covered scopes c ->
    all_covered scopes (if existsb (String.eqb scope) scopes then f c else c)).
  { intros scope f c Hf Hc. destruct (existsb _ scopes); [by apply Hf | exact Hc]. }
  apply Hstep; [apply address_covered|]. apply Hstep; [apply phone_covered|].
  apply Hstep; [apply email_covered|]. apply Hstep; [apply profile_covered|]. repeat constructor.
Qed.

(** ** Samples *)

Definition sample_change : UpdateProfileInput :=
  mkUpdateProfileInput (Some "Ann") None None
    (Some (ProfileMetadata.zero <| ProfileMetadata.GivenName := Some "Ann" |>)).

Lemma UpdateProfile_spec_witness :
  let '(r, db') := run (UpdateProfile 5%N sample_change) UserFacts.sample_env UserFacts.sample_users in
  is_ok r = true /\
  match r with
  | Err _ => db' = UserFacts.sample_users
  | Ok u => exists old, UserFacts.sample_users.(users) !! 5%N = Some old /\ same_account old u /\
      profile_applied sample_change old u /\
      db' = UserFacts.sample_users <| users ::= insert 5%N u |>
  end.
Proof.
  pose proof (UpdateProfile_spec 5%N sample_change UserFacts.sample_env UserFacts.sample_users
    UserFacts.sample_users_wf) as Hs.
  assert (Hok : is_ok (run (UpdateProfile 5%N sample_change) UserFacts.sample_env UserFacts.sample_users).1 = true)
    by (vm_compute; reflexivity).
  destruct (run _ _ _) as [r db']. split; [exact Hok | exact Hs].
Defined.

(** The answers to an administrator's sign-up questions are stored under
    [custom_fields] of the metadata (regform/applicator.go).  The first change
    of the profile, by the owner or through the M2M API, loses them: the
    document is read into [ProfileMetadata], which has no such field, and
    written back. *)
Definition answered : User.t :=
  UserFacts.sample_user <| User.Metadata :=
    marshal_value (AMap [("custom_fields", AMap [("company", AString "Acme")]); ("nickname", AString "bo")]) |>.

Definition metadata_after (db : DB) : option any :=
  match db.(users) !! 5%N with Some u => parse_document u.(User.Metadata) | None => None end.

Example profile_change_loses_answers :
  let db := empty_db <| users := {[ 5%N := answered ]} |> in
  metadata_after db = Some (AMap [("custom_fields", AMap [("company", AString "Acme")]); ("nickname", AString "bo")]) /\
  metadata_after (run (UpdateProfile 5%N sample_change) UserFacts.sample_env db).2
  = Some (AMap [("given_name", AString "Ann"); ("nickname", AString "bo")]).
Proof. vm_compute. by split. Qed.

(** The text of a search is a pattern: an underscore finds every account. *)
Example search_underscore :
  (run (@Search sample_platform "_" 1 20) UserFacts.sample_env UserFacts.sample_users).1
  = Ok ([UserFacts.sample_user], 1).
Proof. vm_compute. done. Qed.
End ProfileFacts.
