(* ===== verification/ProcMem.v ===== *)
(** * Operations that also use the memory of the process

    A cache, an engine or a counter kept in memory outlives the transaction that
    fails.  [PM S A] is an operation of [Exec.M] that threads such a memory of
    type [S] and keeps what it wrote when it fails. *)
From S2P Require Import Prelude.
From S2P Require Import Errors.
From S2P Require Import Model.
From S2P Require Import Exec.

Section memory.
Context {S : Type}.

Definition PM (A : Type) : Type := S -> M (result A * S).

Definition retP {A} (a : A) : PM A := fun p => ret (Ok a, p).
Definition throwP {A} (e : error) : PM A := fun p => ret (Err e, p).
Definition bindP {A B} (m : PM A) (k : A -> PM B) : PM B :=
  fun p => let! (r, p) := m p ;; match r with Ok a => k a p | Err e => ret (Err e, p) end.
Definition liftP {A} (m : M A) : PM A := fun p => r <- attempt m ;; ret (r, p).
Definition of_resultP {A} (r : result A) : PM A := fun p => ret (r, p).
Definition guardP (ok : bool) (e : error) : PM unit := if ok then retP tt else throwP e.
Definition memory : PM S := fun p => ret (Ok p, p).
Definition set_memory (f : S -> S) : PM unit := fun p => ret (Ok tt, f p).
Definition map_errP {A} (m : PM A) (f : error -> error) : PM A :=
  fun p => let! (r, p) := m p ;; ret (match r with Ok a => Ok a | Err e => Err (f e) end, p).
(** The error kept as a value. *)
Definition attemptP {A} (m : PM A) : PM (result A) := fun p => let! (r, p) := m p ;; ret (Ok r, p).

(** ** Rules *)

Lemma wp_bindP {A B} (m : PM A) (k : A -> PM B) p (Q : result (result B * S) -> State -> Prop) env st :
  wp (m p) (fun r st' => match r with
                         | Ok (Ok a, p') => wp (k a p') Q env st'
                         | Ok (Err e, p') => Q (Ok (Err e, p')) st'
                         | Err e => Q (Err e) st'
                         end) env st ->
  wp (bindP m k p) Q env st.
Proof. intros Hm. apply wp_bind. eapply wp_mono; [|exact Hm]. by intros [[[a|e] p']|e] st'. Qed.

Lemma wp_liftP {A} (m : M A) p (Q : result (result A * S) -> State -> Prop) env st :
  wp m (fun r st' => Q (Ok (r, p)) st') env st -> wp (liftP m p) Q env st.
Proof. intros Hm. apply wp_bind, wp_attempt. exact Hm. Qed.

Lemma wp_map_errP {A} (m : PM A) f p (Q : result (result A * S) -> State -> Prop) env st :
  wp (m p) (fun r st' => match r with
                         | Ok (Err e, p') => Q (Ok (Err (f e), p')) st'
                         | r => Q r st'
                         end) env st ->
  wp (map_errP m f p) Q env st.
Proof. intros Hm. apply wp_bind. eapply wp_mono; [|exact Hm]. by intros [[[a|e] p']|e] st'. Qed.

Lemma wp_attemptP {A} (m : PM A) p (Q : result (result (result A) * S) -> State -> Prop) env st :
  wp (m p) (fun r st' => match r with
                         | Ok (r, p') => Q (Ok (Ok r, p')) st'
                         | Err e => Q (Err e) st'
                         end) env st ->
  wp (attemptP m p) Q env st.
Proof. intros Hm. apply wp_bind. eapply wp_mono; [|exact Hm]. by intros [[r p']|e] st'. Qed.

(** ** Invariants of the database and the memory *)

(** The operation ends, and keeps [I]. *)
Definition keepsP (I : DB -> S -> Prop) {A} (m : PM A) : Prop := forall p env st,
  I st.(st_db) p -> wp (m p) (fun r st' => exists a p', r = Ok (a, p') /\ I st'.(st_db) p') env st.

Context (I : DB -> S -> Prop).

Lemma keepsP_bind {A B} (m : PM A) (k : A -> PM B) :
  keepsP I m -> (forall a, keepsP I (k a)) -> keepsP I (bindP m k).
Proof.
  intros Hm Hk p env st Hc. apply wp_bindP. eapply wp_mono; [|by apply Hm].
  intros r st' (a & p' & -> & Hc'). destruct a as [a|e]; [by apply Hk | eauto].
Qed.

Lemma keepsP_map_err {A} (m : PM A) f : keepsP I m -> keepsP I (map_errP m f).
Proof.
  intros Hm p env st Hc. apply wp_map_errP. eapply wp_mono; [|by apply Hm].
  intros r st' (a & p' & -> & Hc'). destruct a as [a|e]; eauto.
Qed.

Lemma keepsP_attempt {A} (m : PM A) : keepsP I m -> keepsP I (attemptP m).
Proof.
  intros Hm p env st Hc. apply wp_attemptP. eapply wp_mono; [|by apply Hm].
  intros r st' (a & p' & -> & Hc'). eauto.
Qed.

Lemma keepsP_of_result {A} (r : result A) : keepsP I (of_resultP r).
Proof. intros p env st Hc. apply wp_ret. eauto. Qed.

Lemma keepsP_ret {A} (a : A) : keepsP I (retP a).
Proof. intros p env st Hc. apply wp_ret. eauto. Qed.

Lemma keepsP_throw {A} e : keepsP I (@throwP A e).
Proof. intros p env st Hc. apply wp_ret. eauto. Qed.

Lemma keepsP_guard b e : keepsP I (guardP b e).
Proof. destruct b; [apply keepsP_ret | apply keepsP_throw]. Qed.

Lemma keepsP_memory : keepsP I memory.
Proof. intros p env st Hc. apply wp_ret. eauto. Qed.

(** A read-only operation on the database. *)
Lemma keepsP_lift {A} (m : M A) : ReadOnly m -> keepsP I (liftP m).
Proof.
  intros Hm p env st Hc. apply wp_liftP, wp_read_only; [done|]. intros r n. eauto.
Qed.

(** ** Histories *)

Section history.
Context {C : Type} (perform : C -> PM unit).

Fixpoint historyP (l : list (Env * C)) (p : S) (db : DB) : S * DB :=
  match l with
  | [] => (p, db)
  | (env, c) :: l =>
      match run (perform c p) env db with
      | (Ok (_, p), db) => historyP l p db
      | (Err _, db) => historyP l p db
      end
  end.

Lemma historyP_keeps (P : C -> Prop) l p db :
  (forall c, P c -> keepsP I (perform c)) -> Forall (fun ec => P ec.2) l -> I db p ->
  let '(p', db') := historyP l p db in I db' p'.
Proof.
  intros Hk Hl. revert p db. induction Hl as [|[env c] l Hc Hl IH]; intros p db Hi; [exact Hi|].
  simpl. pose proof (run_wp (perform c p) (fun r db' => exists a p', r = Ok (a, p') /\ I db' p') env db
    (Hk c Hc p env (mkState db 0) Hi)) as Hr.
  destruct (run _ _ _) as [r db']. destruct Hr as (a & p' & -> & Hi'). by apply IH.
Qed.
End history.
End memory.
Arguments PM : clear implicits.

Notation "x <~ m ;; k" := (bindP m (fun x => k))
  (at level 60, m at next level, k at level 200, right associativity) : go_scope.
Notation "m ~;; k" := (bindP m (fun _ => k))
  (at level 60, k at level 200, right associativity) : go_scope.
