(* ===== verification/Outbox.v ===== *)
(** * email/: the outbox

    The rows a sender enqueues (email/outbox_repo.go), the two variants of every
    message of email.Sender and email.TxSender (email/outbox.go), and the worker
    that delivers them with retries (email/worker.go).  The bodies are rendered
    and the messages put on the wire by functions the definitions take. *)
From S2P Require Import Prelude.
From S2P Require Import Errors.
From S2P Require Import GoLib.
From S2P Require Import Model.
From S2P Require Import Platform.
From S2P Require Import Exec.
From S2P Require Import ActionToken.
From S2P Require Import UserSvc.
Local Open Scope Z_scope.

Definition StatusPending : string := "pending".
Definition StatusSent : string := "sent".
Definition StatusFailed : string := "failed".

(** ** email/outbox_repo.go *)
Module OutboxRepo.

(** The fields the function fills in, then those the table has a default for. *)
Definition with_defaults (id : UUID) (wall : Z) (e : OutboundEmail.t) : OutboundEmail.t :=
  e <| OutboundEmail.ID := id |>
    <| OutboundEmail.MaxAttempts ::= fun n => if n =? 0 then 5 else n |>
    <| OutboundEmail.Status ::= fun s => if String.eqb s "" then StatusPending else s |>
    <| OutboundEmail.NextRetryAt ::= auto_time wall |>
    <| OutboundEmail.CreatedAt ::= auto_time wall |>.

Definition enqueueOutboundEmail (e : OutboundEmail.t) : M unit :=
  id <- (if N.eqb e.(OutboundEmail.ID) uuid_nil
         then id <- opt uuid_newV7 ;; ret (default uuid_nil id)
         else ret e.(OutboundEmail.ID)) ;;
  wall <- wall_now ;;
  create_in outbound_emails (upd outbound_emails) id (with_defaults id wall e).

Definition Enqueue (e : OutboundEmail.t) : M unit := enqueueOutboundEmail e.
(** The statement runs on the handle of the caller's transaction. *)
Definition EnqueueInTx (e : OutboundEmail.t) : M unit := enqueueOutboundEmail e.

Definition earlier_retry (a b : OutboundEmail.t) : Prop :=
  a.(OutboundEmail.NextRetryAt) <= b.(OutboundEmail.NextRetryAt).
#[export] Instance earlier_retry_dec : RelDecision earlier_retry.
Proof. intros a b. unfold earlier_retry. apply _. Defined.

(** [status = 'pending' AND next_retry_at <= NOW()], on the rows no other
    transaction has locked. *)
Definition due (locked : UUID -> bool) (wall : Z) (e : OutboundEmail.t) : bool :=
  String.eqb e.(OutboundEmail.Status) StatusPending
  && negb (time_after e.(OutboundEmail.NextRetryAt) wall)
  && negb (locked e.(OutboundEmail.ID)).

Definition due_rows (locked : UUID -> bool) (limit wall : Z) (t : gmap UUID OutboundEmail.t)
    : list OutboundEmail.t :=
  take (Z.to_nat limit) (merge_sort earlier_retry (select_rows (due locked wall) t)).

(** The row after [deliver] returned: the body of the loop of [ProcessBatch]. *)
Definition after_delivery (backoff : Z -> Z) (now : Z) (row : OutboundEmail.t) (delivered : result unit)
    : OutboundEmail.t :=
  let row := row <| OutboundEmail.Attempts := int64_wrap (row.(OutboundEmail.Attempts) + 1) |> in
  match delivered with
  | Ok _ =>
      row <| OutboundEmail.Status := StatusSent |>
          <| OutboundEmail.SentAt := Some now |>
          <| OutboundEmail.LastError := None |>
  | Err e =>
      let row := row <| OutboundEmail.LastError := Some (error_string e) |> in
      if row.(OutboundEmail.MaxAttempts) <=? row.(OutboundEmail.Attempts)
      then row <| OutboundEmail.Status := StatusFailed |>
      else row <| OutboundEmail.NextRetryAt := time_add now (backoff row.(OutboundEmail.Attempts)) |>
  end.

(** [tx.Save(row)] *)
Definition save (row : OutboundEmail.t) : M unit :=
  update_table (upd outbound_emails) (fun _ => insert row.(OutboundEmail.ID) row).

Fixpoint process_rows (backoff : Z -> Z) (deliver : OutboundEmail.t -> Reader unit) (now : Z)
    (rows : list OutboundEmail.t) (processed : Z) : M Z :=
  match rows with
  | [] => ret processed
  | row :: rows =>
      deliverErr <- attempt (ask (deliver row)) ;;
      save (after_delivery backoff now row deliverErr) ;;;
      process_rows backoff deliver now rows (processed + 1)
  end.

Definition ProcessBatch (locked : UUID -> bool) (limit : Z) (backoff : Z -> Z)
    (deliver : OutboundEmail.t -> Reader unit) : M Z :=
  transaction (
    guard (0 <=? limit) (EDriver "LIMIT must not be negative") ;;;
    rows <- query (fun env db => due_rows locked limit env.(env_wall) db.(outbound_emails)) ;;
    now <- wall_now ;;
    process_rows backoff deliver now rows 0).

Definition PendingCount : M Z :=
  query (fun _ db =>
    count_rows (fun e => String.eqb e.(OutboundEmail.Status) StatusPending) db.(outbound_emails)).

(** [for i := 1; i < attempts; i++ { d *= 2; if d >= max { return max } }] *)
Fixpoint double_capped (n : nat) (d : Z) : Z :=
  match n with
  | O => d
  | S n => let d := dur_mul d 2 in if hour <=? d then hour else double_capped n d
  end.

Definition ExpBackoff (attempts : Z) : Z := double_capped (Z.to_nat (attempts - 1)) (2 * minute).

End OutboxRepo.

(** ** email/outbox.go *)

Module EmailData.
Record t := mk { Issuer : string; Token : string; NewEmail : string }.
End EmailData.

(** [email.Sender]; the [InTx] methods of an [email.TxSender] have the same shape. *)
Record Sender := mkSender {
  SendVerificationEmail : string -> string -> M unit;
  SendPasswordResetEmail : string -> string -> M unit;
  SendInvitationEmail : string -> string -> M unit;
  SendEmailChangeConfirmation : string -> string -> M unit;
  SendEmailChangedNotice : string -> string -> M unit;
  SendPasswordChangedNotice : string -> M unit;
  SendAccountDeletionEmail : string -> string -> M unit
}.

(** A value of type [email.Sender], and its [InTx] methods when it is also an
    [email.TxSender]. *)
Record AnySender := mkAnySender { as_Sender : Sender; as_TxSender : option Sender }.

(** [if tx != nil { if txSender, ok := sender.(email.TxSender); ok { .. } }] *)
Definition sender_for (e : AnySender) (tx : bool) : Sender :=
  match tx, e.(as_TxSender) with true, Some t => t | _, _ => e.(as_Sender) end.

(** The methods the user service calls. *)
Definition user_sender (e : AnySender) : EmailSender :=
  mkEmailSender e.(as_Sender).(SendVerificationEmail) e.(as_Sender).(SendPasswordResetEmail)
    (SendVerificationEmail <$> e.(as_TxSender)) (SendPasswordResetEmail <$> e.(as_TxSender)).

Module OutboxSender.
Section sender.
Context (issuer : string) (Render : string -> EmailData.t -> Reader (string * string)).

Definition render (templateName : string) (data : EmailData.t) : M (string * string) :=
  map_err (ask (Render templateName data))
    (fun e => EOther ("render " +:+ templateName +:+ ": " +:+ error_string e)).

Definition message (to subject body : string) : OutboundEmail.t :=
  OutboundEmail.zero <| OutboundEmail.Recipient := to |>
    <| OutboundEmail.Subject := subject |> <| OutboundEmail.BodyHTML := body |>.

Definition enqueueRendered (to templateName : string) (data : EmailData.t) : M unit :=
  let! (subject, body) := render templateName data ;;
  OutboxRepo.Enqueue (message to subject body).

Definition enqueueRenderedInTx (to templateName : string) (data : EmailData.t) : M unit :=
  let! (subject, body) := render templateName data ;;
  OutboxRepo.EnqueueInTx (message to subject body).

Definition methods (enqueue : string -> string -> EmailData.t -> M unit) : Sender := {|
  SendVerificationEmail to token := enqueue to "verification" (EmailData.mk issuer token "");
  SendPasswordResetEmail to token := enqueue to "password_reset" (EmailData.mk issuer token "");
  SendInvitationEmail to token := enqueue to "invitation" (EmailData.mk issuer token "");
  SendEmailChangeConfirmation to token :=
    enqueue to "account_email_change" (EmailData.mk issuer token "");
  SendEmailChangedNotice oldEmail newEmail :=
    enqueue oldEmail "account_email_changed" (EmailData.mk issuer "" newEmail);
  SendPasswordChangedNotice to := enqueue to "account_password_changed" (EmailData.mk issuer "" "");
  SendAccountDeletionEmail to cancelToken :=
    enqueue to "account_deletion" (EmailData.mk issuer cancelToken "")
|}.

Definition sender : AnySender := mkAnySender (methods enqueueRendered) (Some (methods enqueueRenderedInTx)).
End sender.
End OutboxSender.

(** ** email/smtp.go *)

Module SMTPConfig.
Record t := mk {
  Host : string;
  Port : Z;
  Username : string;
  Password : string;
  From : string;
  FromName : string;
  TLS : bool
}.
End SMTPConfig.

(** [wneessen/go-mail]: setting the two addresses of a message, building a client
    and sending a message through it. *)
Class MailLib := {
  MailClient : Type;
  FromFormat : string -> string -> option error;
  To : string -> option error;
  NewClient : string -> Z -> bool -> option (string * string) -> result MailClient;
  DialAndSend : MailClient -> string -> string -> string -> Reader unit
}.

Module SMTPSender.
Section sender.
Context `{MailLib} (cfg : SMTPConfig.t) (issuer : string)
  (Render : string -> EmailData.t -> Reader (string * string)).

Definition wrap (what : string) (e : error) : error := EOther ("failed to " +:+ what +:+ ": " +:+ error_string e).

Definition send (to subject htmlBody : string) : Reader unit := fun env n db =>
  match FromFormat cfg.(SMTPConfig.FromName) cfg.(SMTPConfig.From) with
  | Some e => Err (wrap "set from" e)
  | None =>
      match To to with
      | Some e => Err (wrap "set to" e)
      | None =>
          let auth := if String.eqb cfg.(SMTPConfig.Username) "" then None
                      else Some (cfg.(SMTPConfig.Username), cfg.(SMTPConfig.Password)) in
          match NewClient cfg.(SMTPConfig.Host) cfg.(SMTPConfig.Port) cfg.(SMTPConfig.TLS) auth with
          | Err e => Err (wrap "create mail client" e)
          | Ok c =>
              match DialAndSend c to subject htmlBody env n db with
              | Err e => Err (wrap "send email" e)
              | Ok _ => Ok tt
              end
          end
      end
  end.

Definition Deliver (to subject htmlBody : string) : Reader unit := send to subject htmlBody.

Definition renderAndSend (to name : string) (data : EmailData.t) : M unit :=
  let! (subject, body) := OutboxSender.render Render name data ;;
  ask (send to subject body).

Definition sender : AnySender := mkAnySender (OutboxSender.methods issuer renderAndSend) None.
End sender.
End SMTPSender.

(** ** email/worker.go *)
Module OutboxWorker.

Record t := mk {
  deliver : string -> string -> string -> Reader unit;
  backoff : Z -> Z;
  batchSize : Z
}.

Definition NewOutboxWorker (deliver : string -> string -> string -> Reader unit) : t :=
  mk deliver OutboxRepo.ExpBackoff 10.

(** One tick; it publishes the depth of the queue, if it could read it. *)
Definition tick (w : t) (cancelled : bool) (locked : UUID -> bool) : M (option Z) :=
  if cancelled then ret None
  else
    n <- attempt (OutboxRepo.ProcessBatch locked w.(batchSize) w.(backoff)
           (fun e => w.(deliver) e.(OutboundEmail.Recipient) e.(OutboundEmail.Subject)
                       e.(OutboundEmail.BodyHTML))) ;;
    match n with
    | Err _ => ret None
    | Ok _ => opt OutboxRepo.PendingCount
    end.

End OutboxWorker.

(** ** Properties *)
Module OutboxFacts.
Import OutboxRepo.

(** What holds of a row at any time. *)
Definition row_ok (r : OutboundEmail.t) : Prop :=
  0 <= r.(OutboundEmail.Attempts) <= r.(OutboundEmail.MaxAttempts) /\
  r.(OutboundEmail.MaxAttempts) < 2 ^ 63 /\
  (r.(OutboundEmail.Status) = StatusPending /\ r.(OutboundEmail.SentAt) = None /\
     r.(OutboundEmail.Attempts) < r.(OutboundEmail.MaxAttempts) /\
     (0 < r.(OutboundEmail.Attempts) <-> is_Some r.(OutboundEmail.LastError)) \/
   r.(OutboundEmail.Status) = StatusSent /\ 0 < r.(OutboundEmail.Attempts) /\
     is_Some r.(OutboundEmail.SentAt) /\ r.(OutboundEmail.LastError) = None \/
   r.(OutboundEmail.Status) = StatusFailed /\ r.(OutboundEmail.SentAt) = None /\
     r.(OutboundEmail.Attempts) = r.(OutboundEmail.MaxAttempts) /\ is_Some r.(OutboundEmail.LastError)).

Definition outbox_wf (t : gmap UUID OutboundEmail.t) : Prop :=
  forall id r, t !! id = Some r -> r.(OutboundEmail.ID) = id /\ row_ok r.

Definition is_pending (r : OutboundEmail.t) : bool := String.eqb r.(OutboundEmail.Status) StatusPending.

(** ** One delivery *)

Section after.
Context (backoff : Z -> Z) (now : Z).

Lemma after_id row o :
  (after_delivery backoff now row o).(OutboundEmail.ID) = row.(OutboundEmail.ID).
Proof. unfold after_delivery. destruct o; [done|]. by destruct (_ <=? _). Qed.

Lemma pending_attempts row :
  row_ok row -> is_pending row = true ->
  0 <= row.(OutboundEmail.Attempts) < row.(OutboundEmail.MaxAttempts) /\
  int64_wrap (row.(OutboundEmail.Attempts) + 1) = row.(OutboundEmail.Attempts) + 1.
Proof.
  unfold is_pending. intros (Hb & Hm & Hs) Hp%String.eqb_eq. rewrite Hp in Hs.
  destruct Hs as [Hs|[(Hf & _)|(Hf & _)]]; [|done..].
  split; [lia|]. unfold int64_wrap. rewrite Z.mod_small; lia.
Qed.

Lemma after_failure row e :
  after_delivery backoff now row (Err e) =
  let n := int64_wrap (row.(OutboundEmail.Attempts) + 1) in
  let row' := row <| OutboundEmail.Attempts := n |> <| OutboundEmail.LastError := Some (error_string e) |> in
  if row.(OutboundEmail.MaxAttempts) <=? n then row' <| OutboundEmail.Status := StatusFailed |>
  else row' <| OutboundEmail.NextRetryAt := time_add now (backoff n) |>.
Proof. done. Qed.

Lemma after_delivery_ok row o :
  row_ok row -> is_pending row = true -> row_ok (after_delivery backoff now row o).
Proof.
  intros Hok Hp. destruct (pending_attempts row Hok Hp) as [Hb Hw]. destruct Hok as (_ & Hm & Hs).
  apply String.eqb_eq in Hp. rewrite Hp in Hs. destruct Hs as [(_ & Hsent & _)|[(Hf & _)|(Hf & _)]]; [|done..].
  destruct o as [u|e]; [unfold after_delivery | rewrite after_failure]; rewrite Hw; cbv zeta.
  - unfold row_ok; simpl. split_and!; try lia. right; left. repeat split; eauto; lia.
  - destruct (Z.leb_spec row.(OutboundEmail.MaxAttempts) (row.(OutboundEmail.Attempts) + 1)) as [Hl|Hl];
      unfold row_ok; simpl; (split_and!; try lia); [right; right | left]; repeat split; eauto; lia.
Qed.

(** What is left of the attempts of a pending row. *)
Definition weight (r : OutboundEmail.t) : nat :=
  if is_pending r then Z.to_nat (r.(OutboundEmail.MaxAttempts) - r.(OutboundEmail.Attempts)) else 0.

Lemma weight_positive row : row_ok row -> is_pending row = true -> (0 < weight row)%nat.
Proof.
  intros Hok Hp. destruct (pending_attempts row Hok Hp) as [Hb _]. unfold weight. rewrite Hp. lia.
Qed.

Lemma after_delivery_weight row o :
  row_ok row -> is_pending row = true -> (weight (after_delivery backoff now row o) < weight row)%nat.
Proof.
  intros Hok Hp. destruct (pending_attempts row Hok Hp) as [Hb Hw]. unfold weight at 2. rewrite Hp.
  destruct o as [u|e]; [unfold after_delivery | rewrite after_failure]; rewrite Hw; cbv zeta;
    [unfold weight; simpl; lia|].
  destruct (_ <=? _); [unfold weight; simpl; lia|].
  unfold weight. change (is_pending _) with (is_pending row). rewrite Hp. simpl. lia.
Qed.

Lemma after_delivery_retry row o :
  (forall n, backoff n <= hour) -> is_pending (after_delivery backoff now row o) = true ->
  (after_delivery backoff now row o).(OutboundEmail.NextRetryAt) <= now + hour.
Proof.
  intros Hb. destruct o as [u|e]; [done|]. rewrite after_failure. cbv zeta. destruct (_ <=? _); [done|].
  simpl. intros _. unfold time_add. specialize (Hb (int64_wrap (row.(OutboundEmail.Attempts) + 1))). lia.
Qed.
End after.

(** ** The batch *)

Section batch.
Context (locked : UUID -> bool) (limit : Z) (backoff : Z -> Z) (deliver : OutboundEmail.t -> Reader unit).

(** The table once the rows of [l] were delivered with the outcomes it gives. *)
Definition save_all (now : Z) (l : list (OutboundEmail.t * result unit))
    (t : gmap UUID OutboundEmail.t) : gmap UUID OutboundEmail.t :=
  foldl (fun t p => <[p.1.(OutboundEmail.ID) := after_delivery backoff now p.1 p.2]> t) t l.

Definition outcome_of (env : Env) (p : OutboundEmail.t * result unit) : Prop :=
  exists n db, p.2 = deliver p.1 env n db.

Lemma db_set_outbox (db : DB) t t' :
  db <| outbound_emails := t |> <| outbound_emails := t' |> = db <| outbound_emails := t' |>.
Proof. done. Qed.

Lemma wp_process_rows now rows n env st :
  wp (process_rows backoff deliver now rows n) (fun r st' =>
    match r with
    | Err _ => True
    | Ok k => exists l, map fst l = rows /\ k = n + Z.of_nat (List.length rows) /\
        Forall (outcome_of env) l /\
        st'.(st_db) = st.(st_db) <| outbound_emails ::= save_all now l |>
    end) env st.
Proof.
  revert n st. induction rows as [|row rows IH]; intros n st; cbn [process_rows].
  - apply wp_ret. exists []. split_and!; simpl; [done|lia|constructor|]. by destruct (st_db st).
  - apply wp_bind, wp_attempt, wp_ask. unfold save. apply wp_bind, wp_update_table; [done|].
    intros _. eapply wp_mono; [|apply IH]. intros [k|e] st'; [|done].
    intros (l & <- & -> & Hl & Hdb). exists ((row, deliver row env st.(st_step) st.(st_db)) :: l).
    split_and!; [done | simpl; rewrite length_map; lia | constructor; [by eexists _, _ | done] |].
    rewrite Hdb. simpl. by rewrite after_id.
Qed.

Definition batch_done (env : Env) (db : DB) (r : result Z) (db' : DB) : Prop :=
  match r with
  | Err _ => db' = db
  | Ok n => exists l,
      map fst l = due_rows locked limit env.(env_wall) db.(outbound_emails) /\
      n = Z.of_nat (List.length l) /\ Forall (outcome_of env) l /\
      db' = db <| outbound_emails ::= save_all env.(env_wall) l |>
  end.

Lemma wp_ProcessBatch env st :
  wp (ProcessBatch locked limit backoff deliver) (fun r st' => batch_done env st.(st_db) r st'.(st_db)) env st.
Proof.
  unfold ProcessBatch. apply wp_transaction; [done|].
  apply wp_bind, wp_guard; [intros _ | done]. apply wp_bind, wp_query; [done|]. intros _.
  apply wp_bind, wp_wall_now. eapply wp_mono; [|apply wp_process_rows].
  intros [k|e] st'; [|done]. intros (l & Hl & -> & Ho & Hdb) _. exists l.
  split_and!; [done | rewrite <-Hl, length_map; lia | done | done].
Qed.

Lemma process_rows_succeeds now rows n env st :
  no_faults env -> wp (process_rows backoff deliver now rows n) (fun r _ => is_ok r = true) env st.
Proof.
  intros Hnf. revert n st. induction rows as [|row rows IH]; intros n st; cbn [process_rows]; [done|].
  apply wp_bind, wp_attempt, wp_ask. unfold save. apply wp_bind, wp_update_table.
  - intros e. by rewrite Hnf.
  - intros _. apply IH.
Qed.

Lemma ProcessBatch_succeeds env st :
  no_faults env -> 0 <= limit -> wp (ProcessBatch locked limit backoff deliver) (fun r _ => is_ok r = true) env st.
Proof.
  intros Hnf Hl. unfold ProcessBatch. apply wp_transaction_err; [done|].
  apply wp_bind, wp_guard; [intros _ | lia]. apply wp_bind, wp_query_nf; [done|].
  apply wp_bind, wp_wall_now. eapply wp_mono; [|by apply process_rows_succeeds]. by intros [k|e] st'.
Qed.

(** A batch is all or nothing: it fails and leaves the database as it was,
    or it delivered each of the due rows, those that were due first, within
    the limit, and saved each with its outcome; the rest of the database did
    not change. *)
Theorem ProcessBatch_spec (env : Env) (db : DB) :
  let '(r, db') := run (ProcessBatch locked limit backoff deliver) env db in
  match r with
  | Err _ => db' = db
  | Ok n => exists l,
      map fst l = due_rows locked limit env.(env_wall) db.(outbound_emails) /\
      n = Z.of_nat (List.length l) /\ Forall (outcome_of env) l /\
      db' = db <| outbound_emails ::= save_all env.(env_wall) l |>
  end.
Proof. apply (run_wp _ (batch_done env db)), wp_ProcessBatch. Qed.

Lemma due_rows_elem wall t r :
  r ∈ due_rows locked limit wall t ->
  due locked wall r = true /\ exists id, t !! id = Some r.
Proof.
  unfold due_rows. intros Hr. apply elem_of_take in Hr as (i & Hi & _).
  apply list_elem_of_lookup_2 in Hi. rewrite merge_sort_Permutation in Hi.
  apply elem_of_select_rows in Hi as (id & Hid & Hdue). eauto.
Qed.

Lemma due_pending wall r : due locked wall r = true -> is_pending r = true.
Proof. unfold due, is_pending. intros Hd. by apply andb_true_iff in Hd as [[Hd _]%andb_true_iff _]. Qed.

(** What the loop visits: rows of the table, pending, each once. *)
Definition batch_of (rows : list OutboundEmail.t) (t : gmap UUID OutboundEmail.t) : Prop :=
  NoDup (map OutboundEmail.ID rows) /\
  Forall (fun r => is_pending r = true /\ t !! r.(OutboundEmail.ID) = Some r) rows.

Lemma due_rows_batch wall t : outbox_wf t -> batch_of (due_rows locked limit wall t) t.
Proof.
  intros Hwf. split.
  - cut (NoDup (map OutboundEmail.ID (merge_sort earlier_retry (select_rows (due locked wall) t)))).
    { unfold due_rows. intros Hnd. rewrite <-(take_drop (Z.to_nat limit) (merge_sort _ _)), map_app in Hnd.
      by apply NoDup_app in Hnd as [Hnd _]. }
    change (NoDup (OutboundEmail.ID <$> merge_sort earlier_retry (select_rows (due locked wall) t))).
    rewrite merge_sort_Permutation. unfold select_rows. apply NoDup_fmap_2_strong.
    + intros x y Hx Hy He. rewrite elem_of_List_filter, list_elem_of_fmap in Hx, Hy.
      destruct Hx as [([kx vx] & -> & Hx) _], Hy as [([ky vy] & -> & Hy) _].
      apply elem_of_map_to_list in Hx, Hy. simpl in He.
      destruct (Hwf _ _ Hx) as [Ex _], (Hwf _ _ Hy) as [Ey _]. simpl in *. congruence.
    + apply NoDup_ListNoDup, List.NoDup_filter, NoDup_ListNoDup.
      apply NoDup_fmap_2_strong; [|apply NoDup_map_to_list].
      intros [k v] [k' v'] Hx Hy He. apply elem_of_map_to_list in Hx, Hy. simpl in He. subst v'.
      f_equal. destruct (Hwf _ _ Hx) as [<- _], (Hwf _ _ Hy) as [<- _]. done.
  - apply Forall_forall. intros r Hr. apply due_rows_elem in Hr as (Hd & id & Hid).
    split; [by eapply due_pending|]. by destruct (Hwf _ _ Hid) as [-> _].
Qed.

Lemma batch_of_after now r o rows t :
  batch_of (r :: rows) t ->
  batch_of rows (<[r.(OutboundEmail.ID) := after_delivery backoff now r o]> t).
Proof.
  intros [Hnd Hall]. simpl in Hnd. apply NoDup_cons in Hnd as [Hn Hnd].
  apply Forall_cons in Hall as [_ Hall]. split; [done|].
  rewrite Forall_forall in Hall |- *. intros r' Hr'. destruct (Hall r' Hr') as [Hp Ht]. split; [done|].
  rewrite lookup_insert_ne; [done|]. intros He. apply Hn. rewrite He.
  by apply list_elem_of_In, in_map, list_elem_of_In.
Qed.

(** A property of single rows that each delivery of a pending row keeps. *)
Lemma save_all_keeps (P : OutboundEmail.t -> Prop) now l t :
  (forall r o, is_pending r = true -> P r -> P (after_delivery backoff now r o)) ->
  batch_of (map fst l) t -> (forall id r, t !! id = Some r -> P r) ->
  forall id r, save_all now l t !! id = Some r -> P r.
Proof.
  intros HP. revert t. induction l as [|[row o] l IH]; intros t Hb Ht; [exact Ht|].
  simpl. apply IH; [by apply batch_of_after|]. intros id r.
  destruct Hb as [_ [[Hpend Hrow] _]%Forall_cons]. simpl in *.
  intros [[_ <-]|[_ Hid]]%lookup_insert_Some; eauto.
Qed.

Lemma save_all_ids now l t :
  batch_of (map fst l) t -> (forall id r, t !! id = Some r -> r.(OutboundEmail.ID) = id) ->
  forall id r, save_all now l t !! id = Some r -> r.(OutboundEmail.ID) = id.
Proof.
  revert t. induction l as [|[row o] l IH]; intros t Hb Ht; [exact Ht|].
  simpl. apply IH; [by apply batch_of_after|]. intros id r.
  intros [[<- <-]|[_ Hid]]%lookup_insert_Some; [by apply after_id | eauto].
Qed.

Lemma save_all_wf now l t : batch_of (map fst l) t -> outbox_wf t -> outbox_wf (save_all now l t).
Proof.
  intros Hb Hwf id r Hr. split.
  - eapply save_all_ids; [done| |done]. intros id' r' Hr'. by destruct (Hwf _ _ Hr').
  - eapply (save_all_keeps row_ok); [|done| |done].
    + intros; by apply after_delivery_ok.
    + intros id' r' Hr'. by destruct (Hwf _ _ Hr').
Qed.

(** ** The attempts that are left in the whole table *)

Definition budget (t : gmap UUID OutboundEmail.t) : nat := map_fold (fun _ r n => weight r + n)%nat 0%nat t.

Lemma budget_insert t id r : t !! id = None -> budget (<[id := r]> t) = (weight r + budget t)%nat.
Proof.
  intros Hid. unfold budget. rewrite map_fold_insert_L; [done| |done]. intros; lia.
Qed.

Lemma budget_replace t id r r' :
  t !! id = Some r -> (budget (<[id := r']> t) + weight r = budget t + weight r')%nat.
Proof.
  intros Hid. rewrite <-insert_delete_eq, budget_insert by apply lookup_delete_eq.
  rewrite <-(insert_delete_id t id r) at 2 by done.
  rewrite budget_insert by apply lookup_delete_eq. lia.
Qed.

Lemma budget_pending t id r : t !! id = Some r -> (weight r <= budget t)%nat.
Proof.
  intros Hid. rewrite <-(insert_delete_id t id r) by done.
  rewrite budget_insert by apply lookup_delete_eq. lia.
Qed.

Lemma save_all_budget now l t :
  batch_of (map fst l) t -> outbox_wf t ->
  (budget (save_all now l t) + List.length l <= budget t)%nat.
Proof.
  revert t. induction l as [|[row o] l IH]; intros t Hb Hwf; simpl; [lia|].
  assert (Hrow : is_pending row = true /\ t !! row.(OutboundEmail.ID) = Some row)
    by (by destruct Hb as [_ [Hrow _]%Forall_cons]).
  destruct Hrow as [Hp Hrow]. destruct (Hwf _ _ Hrow) as [_ Hok].
  pose proof (after_delivery_weight backoff now row o Hok Hp) as Hw.
  pose proof (budget_replace t _ row (after_delivery backoff now row o) Hrow) as Hr.
  pose proof (save_all_wf now [(row, o)] t) as Hwf'. simpl in Hwf'.
  specialize (IH (<[row.(OutboundEmail.ID) := after_delivery backoff now row o]> t)
    (batch_of_after now row o _ t Hb)).
  assert (Hwf1 : outbox_wf (<[row.(OutboundEmail.ID) := after_delivery backoff now row o]> t)).
  { apply Hwf'; [|done]. split; [simpl; apply NoDup_singleton | by constructor]. }
  specialize (IH Hwf1). lia.
Qed.

Lemma due_rows_nonempty wall t id r :
  0 < limit -> t !! id = Some r -> due locked wall r = true -> due_rows locked limit wall t <> [].
Proof.
  intros Hl Hid Hd. unfold due_rows.
  assert (Hin : r ∈ merge_sort earlier_retry (select_rows (due locked wall) t))
    by (rewrite merge_sort_Permutation; apply elem_of_select_rows; eauto).
  destruct (merge_sort _ _) as [|x l]; [by apply not_elem_of_nil in Hin|].
  by destruct (Z.to_nat limit) eqn:E; [lia|].
Qed.
End batch.

(** ** The worker *)

Section worker.
Context (w : OutboxWorker.t).

Definition deliver_row (e : OutboundEmail.t) : Reader unit :=
  w.(OutboxWorker.deliver) e.(OutboundEmail.Recipient) e.(OutboundEmail.Subject) e.(OutboundEmail.BodyHTML).

Lemma wp_tick locked env st :
  wp (OutboxWorker.tick w false locked) (fun _ st' =>
    exists r, batch_done locked w.(OutboxWorker.batchSize) w.(OutboxWorker.backoff) deliver_row env
                st.(st_db) r st'.(st_db)
      /\ (no_faults env -> 0 <= w.(OutboxWorker.batchSize) -> is_ok r = true)) env st.
Proof.
  unfold OutboxWorker.tick. apply wp_bind, wp_attempt.
  assert (Hok : wp (ProcessBatch locked w.(OutboxWorker.batchSize) w.(OutboxWorker.backoff) deliver_row)
    (fun r _ => no_faults env -> 0 <= w.(OutboxWorker.batchSize) -> is_ok r = true) env st)
    by (unfold wp; intros; by apply ProcessBatch_succeeds).
  eapply wp_mono; [|exact (wp_conj env st _ _ _ (wp_ProcessBatch _ _ _ deliver_row env st) Hok)].
  intros r st' [Hd Hr]. destruct r as [n|e].
  - apply wp_opt, wp_query; intros _; simpl; eauto.
  - apply wp_ret. eauto.
Qed.

(** ** The invariant *)

Context (issuer : string) (Render : string -> EmailData.t -> Reader (string * string)).

Inductive call :=
| CSend (to templateName : string) (data : EmailData.t)
| CSendInTx (to templateName : string) (data : EmailData.t)
| CTick (cancelled : bool) (locked : UUID -> bool).

Definition perform (c : call) : M unit :=
  match c with
  | CSend to name data => OutboxSender.enqueueRendered Render to name data
  | CSendInTx to name data => OutboxSender.enqueueRenderedInTx Render to name data
  | CTick cancelled locked => drop (OutboxWorker.tick w cancelled locked)
  end.

Definition keeps_outbox : relation DB := keeps (fun db => outbox_wf db.(outbound_emails)).

Lemma message_ok to subject body id wall :
  let r := with_defaults id wall (OutboxSender.message to subject body) in
  r.(OutboundEmail.ID) = id /\ row_ok r.
Proof. unfold row_ok; simpl. split_and!; [done | lia.. |]. left. split_and!; done || lia. Qed.

Lemma outbox_insert_wf t id r :
  outbox_wf t -> r.(OutboundEmail.ID) = id /\ row_ok r -> outbox_wf (<[id := r]> t).
Proof. intros Hwf Hr id' r'. intros [[<- <-]|[_ Hr']]%lookup_insert_Some; [done | by apply Hwf]. Qed.

Lemma enqueue_keeps to subject body :
  Preserves keeps_outbox (enqueueOutboundEmail (OutboxSender.message to subject body)).
Proof.
  unfold enqueueOutboundEmail, keeps_outbox.
  repeat (apply preserves_bind; [apply _| |intros ?]; [solve_preserves ltac:(fail)|]).
  apply preserves_create_in; [apply _|]. intros db _ Hwf. pose proof (message_ok to subject body a a0) as Hm.
  revert Hm. generalize (with_defaults a a0 (OutboxSender.message to subject body)). intros r Hr.
  by apply outbox_insert_wf.
Qed.

#[export] Instance tick_keeps cancelled locked :
  Preserves keeps_outbox (OutboxWorker.tick w cancelled locked).
Proof.
  intros env st Hwf. destruct cancelled; [exact Hwf|].
  destruct (wp_tick locked env st) as (r & Hd & _). revert Hd.
  generalize (snd (OutboxWorker.tick w false locked env st)). intros st' Hd.
  destruct r as [n|e]; unfold batch_done in Hd; [|rewrite Hd; exact Hwf].
  destruct Hd as (l & Hl & _ & _ & ->). apply save_all_wf; [|exact Hwf].
  rewrite Hl. apply due_rows_batch. exact Hwf.
Qed.

Lemma perform_keeps_outbox c : Preserves keeps_outbox (perform c).
Proof.
  destruct c; simpl; unfold OutboxSender.enqueueRendered, OutboxSender.enqueueRenderedInTx,
    OutboxSender.render, drop, keeps_outbox; solve_preserves ltac:(apply enqueue_keeps).
Qed.

(** C39: Whatever the messages, the ticks, their order and their faults, every
    row of the outbox is pending with attempts left, sent with a time, or
    failed with all attempts used and an error. *)
Theorem outbox_invariant (l : list (Env * call)) (db : DB) :
  outbox_wf db.(outbound_emails) -> outbox_wf (history perform l db).(outbound_emails).
Proof. apply (history_preserves perform keeps_outbox), perform_keeps_outbox. Qed.

(** ** The queue drains *)

Definition none_locked (id : UUID) : bool := false.
Definition worker_tick (_ : unit) : M unit := drop (OutboxWorker.tick w false none_locked).

(** Ticks without faults, the first not before [T], at least an hour apart. *)
Fixpoint spaced (T : Z) (l : list (Env * unit)) : Prop :=
  match l with
  | [] => True
  | (env, _) :: l => no_faults env /\ T <= env.(env_wall) /\ spaced (env.(env_wall) + hour) l
  end.

(** Every pending row is due at [T]. *)
Definition due_by (T : Z) (t : gmap UUID OutboundEmail.t) : Prop :=
  forall id r, t !! id = Some r -> is_pending r = true -> r.(OutboundEmail.NextRetryAt) <= T.

Definition drained (t : gmap UUID OutboundEmail.t) : Prop :=
  forall id r, t !! id = Some r -> is_pending r = false.

Lemma drained_or_due wall t :
  0 < w.(OutboxWorker.batchSize) -> due_by wall t ->
  drained t \/ due_rows none_locked w.(OutboxWorker.batchSize) wall t <> [].
Proof.
  intros Hb Hd. destruct (first_row N.leb is_pending t) as [r|] eqn:E.
  - right. apply first_row_Some in E as (id & Hid & Hp). eapply due_rows_nonempty; [done..|].
    specialize (Hd _ _ Hid Hp). unfold due, none_locked, time_after. unfold is_pending in Hp. rewrite Hp.
    by rewrite (proj2 (Z.ltb_ge _ _)).
  - left. by rewrite first_row_None in E.
Qed.

Lemma tick_effect env db :
  0 <= w.(OutboxWorker.batchSize) -> no_faults env ->
  exists l, map fst l = due_rows none_locked w.(OutboxWorker.batchSize) env.(env_wall) db.(outbound_emails) /\
    (run (worker_tick tt) env db).2.(outbound_emails)
    = save_all w.(OutboxWorker.backoff) env.(env_wall) l db.(outbound_emails).
Proof.
  intros Hb Hnf. pose proof (wp_tick none_locked env (mkState db 0)) as Ht. unfold wp in Ht.
  unfold run, worker_tick, drop, bind.
  destruct (OutboxWorker.tick w false none_locked env (mkState db 0)) as [r0 st'].
  destruct Ht as (r & Hd & Hok). specialize (Hok Hnf Hb). destruct r as [n|e]; [|done].
  destruct Hd as (l & Hl & _ & _ & Hdb). exists l. split; [exact Hl|].
  simpl snd in Hdb. destruct r0; simpl; rewrite Hdb; reflexivity.
Qed.

Lemma drains_from l : forall T db,
  (forall n, w.(OutboxWorker.backoff) n <= hour) -> 0 < w.(OutboxWorker.batchSize) ->
  outbox_wf db.(outbound_emails) -> due_by T db.(outbound_emails) -> spaced T l ->
  (budget db.(outbound_emails) <= List.length l)%nat ->
  drained (history worker_tick l db).(outbound_emails).
Proof.
  induction l as [|[env []] l IH]; intros T db Hback Hb Hwf Hdue Hs Hbud.
  - intros id r Hid. destruct (is_pending r) eqn:Hp; [exfalso|done]. simpl in Hid.
    destruct (Hwf _ _ Hid) as [_ Hok]. pose proof (weight_positive r Hok Hp) as Hw.
    pose proof (budget_pending _ _ _ Hid). simpl in Hbud. lia.
  - destruct Hs as (Hnf & HT & Hs). cbn [history].
    destruct (tick_effect env db ltac:(lia) Hnf) as (b & Hrows & Hdb).
    destruct (run (worker_tick tt) env db) as [r db']. simpl in Hdb |- *.
    pose proof (due_rows_batch none_locked w.(OutboxWorker.batchSize) env.(env_wall) _ Hwf) as Hbatch.
    rewrite <-Hrows in Hbatch.
    assert (Hdue' : due_by env.(env_wall) db.(outbound_emails))
      by (intros id' r' Hid Hp; specialize (Hdue _ _ Hid Hp); lia).
    apply (IH (env.(env_wall) + hour)); rewrite ?Hdb; try done; [by apply save_all_wf|..].
    + intros id' r'. revert id' r'.
      pose (P r := is_pending r = true -> r.(OutboundEmail.NextRetryAt) <= env.(env_wall) + hour).
      change (forall id' r', save_all w.(OutboxWorker.backoff) env.(env_wall) b db.(outbound_emails) !! id' = Some r' -> P r').
      apply save_all_keeps; [|done|].
      * intros r' o _ _ Hp. by apply after_delivery_retry.
      * intros id' r' Hid Hp. specialize (Hdue' _ _ Hid Hp). unfold hour, minute, second. lia.
    + pose proof (save_all_budget w.(OutboxWorker.backoff) env.(env_wall) b _ Hbatch Hwf) as Hdec.
      destruct (drained_or_due env.(env_wall) db.(outbound_emails) Hb Hdue') as [Hdr|Hne].
      * enough (budget (save_all w.(OutboxWorker.backoff) env.(env_wall) b db.(outbound_emails)) = 0)%nat by lia.
        cut (budget db.(outbound_emails) = 0)%nat; [lia|]. clear -Hdr.
        revert Hdr. generalize (outbound_emails db). intros t. unfold drained.
        induction t as [|id r t Hid IHt] using map_ind; intros Hdr; [done|].
        rewrite budget_insert by done. unfold weight. rewrite (Hdr id r) by apply lookup_insert_eq.
        apply IHt. intros id' r' Hid'. apply (Hdr id'). rewrite lookup_insert_ne; [done|]. by intros ->; rewrite Hid in Hid'.
      * destruct b; [by rewrite <-Hrows in Hne|]. simpl in *. lia.
Qed.

End worker.

(** ** The backoff *)

Lemma double_capped_spec n k :
  0 <= k -> 2 * minute * 2 ^ k < hour ->
  double_capped n (2 * minute * 2 ^ k) = Z.min hour (2 * minute * 2 ^ (k + Z.of_nat n)).
Proof.
  revert k. induction n as [|n IH]; intros k Hk Hlt; cbn [double_capped].
  - rewrite Z.add_0_r. lia.
  - assert (Hd : dur_mul (2 * minute * 2 ^ k) 2 = 2 * minute * 2 ^ (k + 1)).
    { rewrite Z.pow_add_r by lia. assert (0 < 2 ^ k) by (by apply Z.pow_pos_nonneg).
      unfold dur_mul, int64_wrap, minute, hour, minute, second in *.
      rewrite !Z.mod_small; [lia|..]; rewrite ?Z.mod_small; lia. }
    rewrite Hd. replace (k + Z.of_nat (S n)) with ((k + 1) + Z.of_nat n) by lia.
    destruct (Z.leb_spec hour (2 * minute * 2 ^ (k + 1))) as [Hge|Hlt'].
    + assert (2 * minute * 2 ^ (k + 1) <= 2 * minute * 2 ^ (k + 1 + Z.of_nat n)).
      { apply Z.mul_le_mono_nonneg_l; [done|]. apply Z.pow_le_mono_r; lia. }
      lia.
    + rewrite IH by lia. done.
Qed.

Lemma ExpBackoff_closed attempts :
  ExpBackoff attempts = Z.min hour (2 * minute * 2 ^ (Z.max 1 attempts - 1)).
Proof.
  unfold ExpBackoff. rewrite <-(Z.mul_1_r (2 * minute)) at 1.
  change 1 with (2 ^ 0) at 2. rewrite double_capped_spec by (unfold hour, minute, second; lia).
  f_equal. f_equal. f_equal. lia.
Qed.

Lemma ExpBackoff_le attempts : ExpBackoff attempts <= hour.
Proof. rewrite ExpBackoff_closed. lia. Qed.

(** The delay before a retry is two minutes doubled at every attempt and
    capped at an hour; in 64 bits it never wraps, whatever the attempt. *)
Theorem ExpBackoff_spec (attempts : Z) :
  ExpBackoff attempts = Z.min hour (2 * minute * 2 ^ (Z.max 1 attempts - 1))
  /\ 2 * minute <= ExpBackoff attempts <= hour.
Proof.
  split; [apply ExpBackoff_closed|]. rewrite ExpBackoff_closed.
  assert (0 < 2 ^ (Z.max 1 attempts - 1)) by (apply Z.pow_pos_nonneg; lia).
  unfold hour, minute, second. lia.
Qed.

(** ** Registration and the outbox *)

Section registration.
Context `{Platform} `{JwtLib} (s : UserSvc.Service).
Context (issuer : string) (Render : string -> EmailData.t -> Reader (string * string)).

(** A message to [to] was queued. *)
Definition queued (to : string) (db db' : DB) : Prop :=
  exists id r, db.(outbound_emails) !! id = None /\ db'.(outbound_emails) !! id = Some r /\
    r.(OutboundEmail.Recipient) = to /\ is_pending r = true.

Lemma wp_enqueueRenderedInTx to name data env st :
  wp (OutboxSender.enqueueRenderedInTx Render to name data) (fun r st' =>
    match r with
    | Err _ => True
    | Ok _ => queued to st.(st_db) st'.(st_db) /\ same_but_outbox st.(st_db) st'.(st_db)
    end) env st.
Proof.
  unfold OutboxSender.enqueueRenderedInTx, OutboxSender.render, EnqueueInTx, enqueueOutboundEmail.
  apply wp_bind, wp_map_err, wp_ask. destruct (Render _ _ _ _ _) as [[subject body]|e]; [|done].
  apply wp_bind, wp_read_only; [solve_preserves ltac:(fail)|]. intros [id|e] n; [|done].
  apply wp_bind, wp_wall_now, wp_create_in; [done|]. intros _ Hnone. split; [|by eexists].
  exists id. eexists. split_and!; [exact Hnone | apply lookup_insert_eq | done | done].
Qed.

Context (Hsender : s.(UserSvc.emailSender) = Some (user_sender (OutboxSender.sender issuer Render))).
Context (Hassign : forall a, s.(UserSvc.roleAssigner) = Some a -> RoleAssignerLaws a).

(** The account [u] is stored with a verification token, and its message queued. *)
Definition registered (u : User.t) (db db' : DB) : Prop :=
  queued u.(User.Email) db db' /\
  exists row, db.(users) !! u.(User.ID) = None /\ db'.(users) !! u.(User.ID) = Some row /\
    row.(User.Email) = u.(User.Email) /\ is_Some row.(User.EmailVerifyToken).

Lemma wp_enqueueVerifyEmailInTx u rid env st :
  s.(UserSvc.actionTokenSigningKey) <> "" ->
  wp (UserSvc.enqueueVerifyEmailInTx s true u rid) (fun r st' =>
    match r with
    | Err _ => True
    | Ok _ => queued u.(User.Email) st.(st_db) st'.(st_db) /\
        forall row, st.(st_db).(users) !! u.(User.ID) = Some row ->
          exists row', st'.(st_db).(users) !! u.(User.ID) = Some row' /\
            row'.(User.Email) = row.(User.Email) /\ is_Some row'.(User.EmailVerifyToken)
    end) env st.
Proof.
  intros Hkey. unfold UserSvc.enqueueVerifyEmailInTx. apply String.eqb_neq in Hkey. rewrite Hkey.
  apply wp_bind, wp_or_fail, wp_uuid_newV7; [done|]. intros _.
  apply wp_bind, wp_clock_now. cbv zeta. apply wp_bind, wp_or_fail, wp_of_result.
  destruct (Sign _ _) as [tok|e]; [|done].
  unfold UserRepo.UpdateFields. apply wp_bind, wp_or_fail, wp_update_table; [done|]. intros _.
  rewrite Hsender. cbn [user_sender tx_Verification OutboxSender.sender as_TxSender fmap option_fmap option_map].
  eapply wp_mono; [|apply wp_enqueueRenderedInTx]. intros [[]|e] st'; [|done].
  intros [Hq [t Ht]]. split; [exact Hq|]. intros row Hrow. rewrite Ht.
  eexists. split; [apply lookup_alter_Some; left; split; [done|]; eexists; split; [exact Hrow | done]|].
  split; [done|]. by eexists.
Qed.

Lemma wp_registration_tx u env st :
  s.(UserSvc.actionTokenSigningKey) <> "" ->
  wp (user <- or_fail (UserRepo.Create u) (ErrInternal "failed to create user") ;;
      match s.(UserSvc.roleAssigner) with
      | Some assign =>
          if N.eqb s.(UserSvc.defaultRoleID) uuid_nil then ret tt
          else UserSvc.assign_role user.(User.ID) s.(UserSvc.defaultRoleID)
                 "failed to assign default role: " assign
      | None => ret tt
      end ;;;
      UserSvc.enqueueVerifyEmailInTx s true user None ;;;
      ret user)
    (fun r st' => match r with Err _ => True | Ok u => registered u st.(st_db) st'.(st_db) end) env st.
Proof.
  intros Hkey. apply wp_bind, wp_or_fail.
  eapply wp_mono; [|apply UserFacts.wp_user_Create]. intros [row|e] st1; [|done]. intros (_ & Hnone & Hdb1).
  apply wp_bind. apply (wp_preserves same_but_roles).
  { destruct (UserSvc.roleAssigner s) as [a|] eqn:Ha; [|apply _]. destruct (N.eqb _ _); [apply _|].
    unfold UserSvc.assign_role. by apply preserves_map_err, Hassign. }
  intros [[]|e] st2 [t2 Hdb2]; [|done].
  apply wp_bind. eapply wp_mono; [|by apply wp_enqueueVerifyEmailInTx]. intros [[]|e] st3; [|done].
  intros [(id & r & Hid & Hr) Hrow]. apply wp_ret.
  rewrite Hdb2, Hdb1 in Hid. split; [exists id, r; by split|].
  destruct (Hrow row) as (row' & Hrow' & He & Ht); [rewrite Hdb2, Hdb1; apply lookup_insert_eq|].
  exists row'. by split_and!.
Qed.

Lemma check_new_account_read_only email pwd hints : ReadOnly (UserSvc.check_new_account s email pwd hints).
Proof. unfold UserSvc.check_new_account, UserSvc.validatePassword. solve_preserves ltac:(fail). Qed.

(** Registration and its verification message commit together: when it
    returns an account, the row is stored with a verification token and one
    message to its address is queued; when it fails, nothing changed. *)
Theorem registration_queues_message (input : UserSvc.RegisterInput) (env : Env) (db : DB) :
  s.(UserSvc.actionTokenSigningKey) <> "" -> s.(UserSvc.withDB) = true ->
  input.(UserSvc.SkipVerificationEmail) = false ->
  let '(r, db') := run (UserSvc.Register s input) env db in
  match r with Err _ => db' = db | Ok u => registered u db db' end.
Proof.
  intros Hkey Hdb Hskip. apply run_wp. unfold UserSvc.Register, UserSvc.withTx. rewrite Hdb, Hskip.
  apply wp_bind, wp_read_only; [apply check_new_account_read_only|]. intros [hash|e] n; [|done].
  apply wp_bind, wp_read_only; [unfold UserSvc.applyRegFormExtras; solve_preserves ltac:(fail)|].
  intros [u|e] n'; [|done]. apply wp_transaction; [done|].
  eapply wp_mono; [|by apply wp_registration_tx]. by intros [u'|e] st'.
Qed.
End registration.

(** ** Samples: a worker whose relay is down *)

Definition down_worker : OutboxWorker.t :=
  OutboxWorker.NewOutboxWorker (fun _ _ _ _ _ _ => Err (EOther "connection refused")).

Definition sample_render : string -> EmailData.t -> Reader (string * string) :=
  fun name data _ _ _ => Ok (name, data.(EmailData.Token)).

Definition tick_env (wall : Z) : Env :=
  mkEnv wall wall (fun _ => false) (fun _ _ => 0) (fun n => N.of_nat (S n)).

Definition one_message : DB :=
  (run (OutboxSender.enqueueRendered sample_render "a@b" "verification" (EmailData.mk "iss" "tok" ""))
     (tick_env 0) empty_db).2.

Definition hourly (n : nat) : list (Env * unit) :=
  map (fun i => (tick_env (Z.of_nat i * hour), tt)) (seq 0 n).

(** Five attempts, then the row has failed. *)
Example five_attempts :
  map (fun r => (r.(OutboundEmail.Status), r.(OutboundEmail.Attempts)))
    (map_to_list (history (worker_tick down_worker) (hourly 5) one_message).(outbound_emails)).*2
  = [(StatusFailed, 5)].
Proof. vm_compute. reflexivity. Qed.

Lemma one_message_row id r :
  one_message.(outbound_emails) !! id = Some r ->
  r = OutboxRepo.with_defaults 2%N 0 (OutboxSender.message "a@b" "verification" "tok") /\ id = 2%N.
Proof.
  change one_message.(outbound_emails) with
    ({[2%N := OutboxRepo.with_defaults 2%N 0 (OutboxSender.message "a@b" "verification" "tok")]}
     : gmap UUID OutboundEmail.t).
  by intros [<- <-]%lookup_singleton_Some.
Qed.

Lemma one_message_wf : outbox_wf one_message.(outbound_emails).
Proof. intros id r [-> ->]%one_message_row. apply message_ok. Qed.

Lemma outbox_invariant_witness :
  outbox_wf (history (perform down_worker sample_render)
    [(tick_env 0, CSend "c@d" "invitation" (EmailData.mk "iss" "t" ""));
     (tick_env hour, CTick false (fun _ => false))] one_message).(outbound_emails).
Proof. exact (outbox_invariant down_worker sample_render _ _ one_message_wf). Defined.


Definition outbox_service : UserSvc.Service :=
  UserSvc.mkService UserFacts.sample_hasher UserFacts.sample_cfg
    (Some (user_sender (OutboxSender.sender "iss" sample_render))) None 0%N None
    (fun _ _ _ _ _ => Ok tt) "signing-key" None true.

Definition registration_claims : jwtClaims.t :=
  jwtClaims.mk (@uuid_string sample_platform 5%N) (@uuid_string sample_platform 7%N) (Some 0) (Some 86400)
    ActionVerifyEmail None.

Lemma registration_queues_message_witness :
  let H := sample_platform in
  let H0 := sample_jwt registration_claims 86400 in
  let input := UserSvc.mkRegisterInput "A@b" "pwd" None [] false in
  let '(r, db') := run (UserSvc.Register outbox_service input) (tick_env 0) empty_db in
  is_ok r = true /\ match r with Err _ => db' = empty_db | Ok u => registered u empty_db db' end.
Proof.
  intros H H0 input.
  pose proof (registration_queues_message outbox_service "iss" sample_render eq_refl
    (fun a Ha => match Ha in _ = o return match o with Some _ => _ | None => True end with eq_refl => I end)
    input (tick_env 0) empty_db ltac:(done) eq_refl eq_refl) as Hs.
  assert (Hok : is_ok (run (UserSvc.Register outbox_service input) (tick_env 0) empty_db).1 = true)
    by (vm_compute; reflexivity).
  destruct (run _ _ _) as [r db']. split; [exact Hok | exact Hs].
Defined.
End OutboxFacts.
