(* ===== verification/EmailTpl.v ===== *)
(** * email/: the templates of the messages

    The overrides an administrator saved and their cache (email/template_store.go),
    the resolver with its cache of parsed bodies (email/resolver.go), and the
    admin handlers over them (email/handler.go).  Both caches are memory of the
    process, which the operations thread. *)
From S2P Require Import Prelude.
From S2P Require Import Errors.
From S2P Require Import GoLib.
From S2P Require Import Model.
From S2P Require Import Platform.
From S2P Require Import Exec.
From S2P Require Import GoEnc.
From S2P Require Import ProcMem.
From S2P Require Import Middleware.
From S2P Require Import Outbox.
From Stdlib Require Import Ascii.
Local Open Scope Z_scope.

(** ** [html/template], and the files embedded in the binary *)

(** [Parse name body] is [template.New(name).Parse(body)]; [Execute] runs a
    parsed template on its data. *)
Class HtmlTemplate := {
  Template : Type;
  Parse : string -> string -> result Template;
  Execute : Template -> EmailData.t -> result string;
  ReadFile : string -> result string
}.

Module Override.
Record t := mk { Subject : string; BodyHTML : string }.
End Override.

(** ** The memory of the process *)

Section process.
Context `{HtmlTemplate}.

(** A [None] in [cache] is a nil entry: the row was looked up and is not there. *)
Record Process := mkProcess {
  cache : gmap string (option Override.t);
  parsedCache : gmap string Template
}.

#[export] Instance eta_Process : Eta Process := fun p => mkProcess p.(cache) p.(parsedCache).

End process.

(** The operations thread this memory. *)
Abbreviation MP := (PM Process).

(** ** email/template_store.go *)
Module Store.
Section store.
Context `{HtmlTemplate}.

Definition override_of (row : EmailTemplate.t) : Override.t :=
  Override.mk row.(EmailTemplate.Subject) row.(EmailTemplate.BodyHTML).

(** The two halves of a lookup the cache does not answer: the query, and the
    entry it leaves. *)
Definition read_row (name : string) : M (option Override.t) :=
  let! (row, err) := find_row EmailTemplate.zero (fun _ db => db.(email_templates) !! name) ;;
  match err with
  | Some e => throw e
  | None => ret (override_of <$> row)
  end.

Definition fill (name : string) (ov : option Override.t) : MP unit :=
  set_memory (upd cache (insert name ov)).

Definition Get (name : string) : MP (option Override.t) :=
  p <~ memory ;;
  match p.(cache) !! name with
  | Some cached => retP cached
  | None =>
      ov <~ liftP (read_row name) ;;
      fill name ov ~;;
      retP ov
  end.

Definition invalidate (name : string) : MP unit := set_memory (upd cache (delete name)).

Definition save (name : string) (ov : Override.t) (updatedBy : UUID) : M unit :=
  update_table (upd email_templates) (fun env =>
    insert name (EmailTemplate.mk name ov.(Override.Subject) ov.(Override.BodyHTML) env.(env_wall)
      (if N.eqb updatedBy uuid_nil then None else Some updatedBy))).

Definition Upsert (name : string) (ov : Override.t) (updatedBy : UUID) : MP unit :=
  liftP (save name ov updatedBy) ~;;
  invalidate name.

Definition Delete (name : string) : MP unit :=
  liftP (update_table (upd email_templates) (fun _ => delete name)) ~;;
  invalidate name.

Definition by_name (a b : EmailTemplate.t) : Prop :=
  String.leb a.(EmailTemplate.Name) b.(EmailTemplate.Name) = true.
#[export] Instance by_name_dec : RelDecision by_name.
Proof. intros a b. unfold by_name. apply _. Defined.

Definition List : MP (list (string * string * Z * option UUID)) :=
  rows <~ liftP (query (fun _ db => merge_sort by_name (select_rows (fun _ => true) db.(email_templates)))) ;;
  retP (map (fun r => (r.(EmailTemplate.Name), r.(EmailTemplate.Subject), r.(EmailTemplate.UpdatedAt),
                       r.(EmailTemplate.UpdatedBy))) rows).
End store.
End Store.

(** ** email/resolver.go *)
Module Resolver.
Section resolver.
Context `{HtmlTemplate}.

Definition TemplateNames : list string :=
  ["verification"; "password_reset"; "invitation"; "account_email_change"; "account_email_changed";
   "account_password_changed"; "account_deletion"].

Definition VariablesFor (name : string) : list string :=
  if mem name ["verification"; "password_reset"; "invitation"; "account_email_change"; "account_deletion"]
  then ["Issuer"; "Token"]
  else if String.eqb name "account_email_changed" then ["Issuer"; "NewEmail"]
  else if String.eqb name "account_password_changed" then ["Issuer"]
  else [].

Definition DefaultSubject (name : string) : string :=
  if String.eqb name "verification" then "Verify your email address"
  else if String.eqb name "password_reset" then "Reset your password"
  else if String.eqb name "invitation" then "You've been invited"
  else if String.eqb name "account_email_change" then "Confirm your new email address"
  else if String.eqb name "account_email_changed" then "Your email address was changed"
  else if String.eqb name "account_password_changed" then "Your password was changed"
  else if String.eqb name "account_deletion" then "Account deletion scheduled"
  else "".

(** [fmt.Errorf("<what> template %q: %w", name, err)] *)
Definition template_error (what name : string) (e : error) : error :=
  EOther (what +:+ " template " +:+ quoted name +:+ ": " +:+ error_string e).

Definition DefaultBody (name : string) : result string :=
  match ReadFile (name +:+ ".gohtml") with
  | Ok data => Ok data
  | Err e => Err (template_error "read embedded" name e)
  end.

(** [store] tells whether an override store is wired. *)
Context (store : bool).

Definition Resolve (name : string) : MP (string * string * bool) :=
  ov <~ (if store then Store.Get name else retP None) ;;
  match ov with
  | Some ov => retP (ov.(Override.Subject), ov.(Override.BodyHTML), true)
  | None => body <~ of_resultP (DefaultBody name) ;; retP (DefaultSubject name, body, false)
  end.

(** [name + "\x00" + body] *)
Definition NUL : ascii := ascii_of_nat 0.
Definition cacheKey (name body : string) : string := name +:+ String NUL body.

(** [len(k) > len(name) && k[:len(name)] == name && k[len(name)] == 0x00] *)
Definition key_of (name k : string) : bool := String.prefix (name +:+ String NUL EmptyString) k.

Definition parsedFor (name body : string) : MP Template :=
  p <~ memory ;;
  match p.(parsedCache) !! cacheKey name body with
  | Some cached => retP cached
  | None =>
      tpl <~ of_resultP (Parse name body) ;;
      set_memory (upd parsedCache (fun m =>
        <[cacheKey name body := tpl]> (filter (fun kv => key_of name kv.1 = false) m))) ~;;
      retP tpl
  end.

Definition Render (name : string) (data : EmailData.t) : MP (string * string) :=
  r <~ Resolve name ;;
  let '(subject, rawBody, _) := r in
  tpl <~ map_errP (parsedFor name rawBody) (template_error "parse" name) ;;
  body <~ of_resultP (match Execute tpl data with
                      | Ok body => Ok body
                      | Err e => Err (template_error "execute" name e)
                      end) ;;
  retP (subject, body).

Definition ParseCheck (name body : string) : result unit :=
  match Parse name body with Ok _ => Ok tt | Err e => Err e end.
End resolver.
End Resolver.

(** ** email/handler.go *)
Module TemplateHandler.
Section handler.
Context `{HtmlTemplate}.
Import Resolver.

Definition knownTemplate (name : string) : bool := mem name TemplateNames.

Definition check_known (name : string) : MP unit :=
  if knownTemplate name then retP tt else throwP (ErrNotFound ("unknown template: " +:+ name)).

Record templateListItem := mkItem {
  item_Name : string; item_Subject : string; item_Variables : list string; item_Customized : bool
}.

Fixpoint list_items (names : list string) : MP (list templateListItem) :=
  match names with
  | [] => retP []
  | name :: names =>
      r <~ map_errP (Resolve true name)
             (fun e => ErrInternal ("resolve template " +:+ name +:+ ": " +:+ error_string e)) ;;
      let '(subject, _, customized) := r in
      items <~ list_items names ;;
      retP (mkItem name subject (VariablesFor name) customized :: items)
  end.

Definition List : MP (list templateListItem) := list_items TemplateNames.

Record templateDetail := mkDetail {
  Name : string; Subject : string; BodyHTML : string;
  DefaultSubject : string; DefaultBodyHTML : string;
  Variables : list string; Customized : bool
}.

Definition Get (name : string) : MP templateDetail :=
  check_known name ~;;
  r <~ map_errP (Resolve true name) (fun e => ErrInternal (error_string e)) ;;
  let '(subject, body, customized) := r in
  defaultBody <~ of_resultP (match DefaultBody name with
                             | Ok b => Ok b
                             | Err e => Err (ErrInternal (error_string e))
                             end) ;;
  retP (mkDetail name subject body (Resolver.DefaultSubject name) defaultBody (VariablesFor name) customized).

(** [input] is the outcome of binding the request body: two strings that are
    not empty. *)
Definition bind_body (input : result Override.t) : MP Override.t :=
  of_resultP (match input with
              | Ok o => Ok o
              | Err e => Err (ErrBadRequest ("invalid request body: " +:+ error_string e))
              end).

Definition Upsert (name : string) (input : result Override.t) (userID : UUID) : MP unit :=
  check_known name ~;;
  input <~ bind_body input ;;
  of_resultP (match ParseCheck name input.(Override.BodyHTML) with
              | Ok _ => Ok tt
              | Err e => Err (ErrBadRequest ("template syntax error: " +:+ error_string e))
              end) ~;;
  map_errP (Store.Upsert name input userID) (fun e => ErrInternal (error_string e)).

Definition Preview (name : string) (input : result Override.t) : MP Override.t :=
  check_known name ~;;
  input <~ bind_body input ;;
  let stub := EmailData.mk "https://auth.example.test" "preview-token-12345" "preview@example.test" in
  tpl <~ of_resultP (match Parse name input.(Override.BodyHTML) with
                     | Ok tpl => Ok tpl
                     | Err e => Err (ErrBadRequest ("template syntax error: " +:+ error_string e))
                     end) ;;
  body <~ of_resultP (match Execute tpl stub with
                      | Ok body => Ok body
                      | Err e => Err (ErrBadRequest ("template runtime error: " +:+ error_string e))
                      end) ;;
  retP (Override.mk input.(Override.Subject) body).

Definition Delete (name : string) : MP unit :=
  check_known name ~;;
  map_errP (Store.Delete name) (fun e => ErrInternal (error_string e)).
End handler.
End TemplateHandler.

(** ** Properties *)
Module TemplateFacts.
Import Resolver.

Section facts.
Context `{HtmlTemplate}.

(** ** The keys of the parsed bodies *)

Fixpoint free_of (z : ascii) (s : string) : bool :=
  match s with EmptyString => true | String c s => negb (Ascii.eqb c z) && free_of z s end.

Definition nul_free : string -> bool := free_of NUL.

Lemma separated_inj z name body name' body' :
  free_of z name = true -> free_of z name' = true ->
  name +:+ String z body = name' +:+ String z body' -> name = name' /\ body = body'.
Proof.
  revert name'. induction name as [|c name IH]; intros [|c' name']; rewrite ?str_app_cons; simpl.
  - by intros _ _ [= ->].
  - intros _ [Hc _]%andb_true_iff [= <- _]. by rewrite Ascii.eqb_refl in Hc.
  - intros [Hc _]%andb_true_iff _ [= -> _]. by rewrite Ascii.eqb_refl in Hc.
  - intros [_ Hn]%andb_true_iff [_ Hn']%andb_true_iff [= -> He].
    destruct (IH name' Hn Hn' He) as [-> ->]. done.
Qed.

Lemma prefix_separated z name body name' :
  free_of z name = true -> free_of z name' = true ->
  String.prefix (name' +:+ String z EmptyString) (name +:+ String z body) = String.eqb name' name.
Proof.
  revert name'. induction name as [|c name IH]; intros [|c' name']; rewrite ?str_app_cons; simpl.
  - intros _ _. destruct (ascii_dec z z); [by destruct body | done].
  - intros _ [Hc _]%andb_true_iff. destruct (ascii_dec c' z) as [->|]; [by rewrite Ascii.eqb_refl in Hc | done].
  - intros [Hc _]%andb_true_iff _. destruct (ascii_dec z c) as [<-|]; [by rewrite Ascii.eqb_refl in Hc | done].
  - intros [_ Hn]%andb_true_iff [_ Hn']%andb_true_iff. destruct (ascii_dec c' c) as [->|Hne].
    + rewrite Ascii.eqb_refl. by apply IH.
    + by rewrite (proj2 (Ascii.eqb_neq c' c) Hne).
Qed.

(** ** What the memory may hold *)

(** The cache agrees with the table. *)
Definition rows_cached (db : DB) (c : gmap string (option Override.t)) : Prop :=
  forall name v, c !! name = Some v -> v = Store.override_of <$> db.(email_templates) !! name.

(** The parsed bodies are parses, at most one for each template. *)
Definition parses_cached (m : gmap string Template) : Prop :=
  (forall k tpl, m !! k = Some tpl ->
     exists name body, nul_free name = true /\ k = cacheKey name body /\ Parse name body = Ok tpl) /\
  (forall name body body', nul_free name = true ->
     is_Some (m !! cacheKey name body) ->
     is_Some (m !! cacheKey name body') -> body = body').

Definition coherent (db : DB) (p : Process) : Prop := rows_cached db p.(cache) /\ parses_cached p.(parsedCache).

Lemma rows_fill db c name :
  rows_cached db c -> rows_cached db (<[name := Store.override_of <$> db.(email_templates) !! name]> c).
Proof. intros Hr name' v. intros [[<- <-]|[_ Hk]]%lookup_insert_Some; [done | by apply Hr]. Qed.

Lemma parsedFor_hit m name body tpl :
  parses_cached m -> nul_free name = true -> m !! cacheKey name body = Some tpl ->
  Parse name body = Ok tpl.
Proof.
  intros [Hp _] Hn Hk. destruct (Hp _ _ Hk) as (name' & body' & Hn' & He & Hparse).
  by destruct (separated_inj NUL name body name' body' Hn Hn' He) as [-> ->].
Qed.

Lemma parsedFor_fill m name body tpl :
  parses_cached m -> nul_free name = true -> Parse name body = Ok tpl ->
  parses_cached (<[cacheKey name body := tpl]> (filter (fun kv => key_of name kv.1 = false) m)).
Proof.
  intros [Hp Hone] Hn Hparse. split.
  - intros k tpl'. intros [[<- <-]|[_ [Hk _]%map_lookup_filter_Some]]%lookup_insert_Some; [by exists name, body|].
    by apply Hp.
  - assert (Hnew : forall name' body', nul_free name' = true ->
      is_Some (<[cacheKey name body := tpl]> (filter (fun kv => key_of name kv.1 = false) m)
                 !! cacheKey name' body') ->
      name' = name /\ body' = body \/ name' <> name /\ is_Some (m !! cacheKey name' body')).
    { intros name' body' Hn' [tpl' Hk]. apply lookup_insert_Some in Hk as [[He _]|[_ Hk]].
      - destruct (separated_inj NUL name body name' body' Hn Hn' He) as [-> ->]. by left.
      - apply map_lookup_filter_Some in Hk as [Hk Hf]. simpl in Hf. unfold key_of, cacheKey in Hf.
        rewrite prefix_separated in Hf by done. apply String.eqb_neq in Hf. right. split; [done | by eexists]. }
    intros name' body1 body2 Hn' H1 H2.
    destruct (Hnew name' body1 Hn' H1) as [[-> ->]|[Hne H1']], (Hnew _ body2 Hn' H2) as [[He ->]|[Hne' H2']];
      try done. by apply (Hone name').
Qed.

(** ** The reference: no caches *)

Definition effective (store : bool) (db : DB) (name : string) : result (string * string * bool) :=
  match (if store then db.(email_templates) !! name else None) with
  | Some row => Ok (row.(EmailTemplate.Subject), row.(EmailTemplate.BodyHTML), true)
  | None => match DefaultBody name with Ok b => Ok (DefaultSubject name, b, false) | Err e => Err e end
  end.

Definition rendered (store : bool) (db : DB) (name : string) (data : EmailData.t) : result (string * string) :=
  match effective store db name with
  | Err e => Err e
  | Ok (subject, rawBody, _) =>
      match Parse name rawBody with
      | Err e => Err (template_error "parse" name e)
      | Ok tpl => match Execute tpl data with
                  | Err e => Err (template_error "execute" name e)
                  | Ok body => Ok (subject, body)
                  end
      end
  end.

(** An operation that reads: it answers [ref], or with the database's error
    when a statement failed; the database stays, the memory stays coherent. *)
Definition reads_as {A} (ref : result A) (env : Env) (st : State)
    (r : result (result A * Process)) (st' : State) : Prop :=
  st'.(st_db) = st.(st_db) /\
  exists a p', r = Ok (a, p') /\ coherent st.(st_db) p' /\
    (a = ref \/ a = Err driver_error /\ ~ no_faults env).

Lemma wp_GetTemplate name p env st :
  coherent st.(st_db) p ->
  wp (Store.Get name p)
     (reads_as (Ok (Store.override_of <$> st.(st_db).(email_templates) !! name)) env st) env st.
Proof.
  intros Hc. unfold Store.Get. apply wp_bindP, wp_ret. destruct (p.(cache) !! name) as [v|] eqn:E.
  - apply wp_ret. split; [done|]. eexists _, _. split; [done|]. split; [done|]. left. f_equal. by apply Hc.
  - apply wp_bindP, wp_liftP. unfold Store.read_row. apply wp_bind, wp_find_row; intros Hf.
    + apply wp_throw. split; [done|]. eexists _, _. split; [done|]. split; [done|]. right.
      split; [done|]. intros Hnf. by rewrite Hnf in Hf.
    + apply wp_ret, wp_bindP, wp_ret, wp_ret. split; [done|]. eexists _, _. split; [done|]. split; [|by left].
      destruct Hc as [Hrows Hparse]. split; [by apply rows_fill | exact Hparse].
Qed.

(** The operations after a read: the memory is coherent with the same table. *)
Lemma reads_as_bind {A B} (m : MP A) (k : A -> MP B) (ref : result A) (ref' : result B) p env st :
  wp (m p) (reads_as ref env st) env st ->
  (forall a p' n, ref = Ok a -> coherent st.(st_db) p' ->
     wp (k a p') (reads_as ref' env st) env (mkState st.(st_db) n)) ->
  (forall e, ref = Err e -> ref' = Err e) ->
  wp (bindP m k p) (reads_as ref' env st) env st.
Proof.
  intros Hm Hk He. apply wp_bindP. eapply wp_mono; [|exact Hm]. intros r [db n] (Hdb & a & p' & -> & Hc & Ha).
  simpl in Hdb. subst db. destruct a as [a|e].
  - apply Hk; [|done]. by destruct Ha as [<-|[? _]].
  - split; [done|]. eexists _, _. split; [done|]. split; [done|].
    destruct Ha as [<-|[[= ->] Hn]]; [left; by rewrite (He e) | by right].
Qed.

Lemma reads_as_done {A} (ref a : result A) p env st n :
  coherent st.(st_db) p -> a = ref -> wp (of_resultP a p) (reads_as ref env st) env (mkState st.(st_db) n).
Proof. intros Hc ->. split; [done|]. eexists _, _. split; [done|]. split; [done | by left]. Qed.

Lemma reads_as_step {A} (m : MP A) ref p env st n :
  wp (m p) (reads_as ref env (mkState st.(st_db) n)) env (mkState st.(st_db) n) ->
  wp (m p) (reads_as ref env st) env (mkState st.(st_db) n).
Proof. done. Qed.

Lemma reads_as_map_err {A} (m : MP A) f (ref : result A) p env st :
  wp (m p) (reads_as ref env st) env st ->
  wp (map_errP m f p) (fun r st' =>
    reads_as (match ref with Ok a => Ok a | Err e => Err (f e) end) env st r st' \/
    st'.(st_db) = st.(st_db) /\ (exists p', r = Ok (Err (f driver_error), p') /\ coherent st.(st_db) p')
      /\ ~ no_faults env) env st.
Proof.
  intros Hm. apply wp_map_errP. eapply wp_mono; [|exact Hm]. intros r st' (Hdb & a & p' & -> & Hc & Ha).
  destruct a as [a|e].
  - left. split; [done|]. eexists _, _. split; [done|]. split; [done|]. left. by destruct Ha as [<-|[? _]].
  - destruct Ha as [<-|[[= ->] Hn]].
    + left. split; [done|]. eexists _, _. split; [done|]. split; [done | by left].
    + right. eauto.
Qed.

Lemma wp_Resolve store name p env st :
  coherent st.(st_db) p ->
  wp (Resolve store name p) (reads_as (effective store st.(st_db) name) env st) env st.
Proof.
  intros Hc. unfold Resolve.
  apply (reads_as_bind _ _ (Ok (if store then Store.override_of <$> st.(st_db).(email_templates) !! name else None)));
    [| |done].
  - destruct store; [by apply wp_GetTemplate|]. destruct st. by apply reads_as_done.
  - unfold effective. intros ov p' n [= <-] Hc'.
    assert (Hdef : wp ((body <~ of_resultP (DefaultBody name) ;; retP (DefaultSubject name, body, false)) p')
      (reads_as match DefaultBody name with Ok b => Ok (DefaultSubject name, b, false) | Err e => Err e end env st)
      env (mkState st.(st_db) n)).
    { apply reads_as_step, (reads_as_bind _ _ (DefaultBody name)); [by apply (reads_as_done _ _ _ _ (mkState _ n))| |].
      - intros b p'' n' -> Hc''. by apply (reads_as_done _ (Ok _) p'').
      - by intros e ->. }
    destruct store; [|exact Hdef]. destruct (email_templates _ !! name) as [row|]; [|exact Hdef].
    by apply (reads_as_done _ (Ok _) p').
Qed.

(** A lookup of the memory alone has no fault. *)
Lemma wp_parsedFor name body p env st n :
  coherent st.(st_db) p -> nul_free name = true ->
  wp (parsedFor name body p) (fun r st' => st'.(st_db) = st.(st_db) /\
    exists p', r = Ok (Parse name body, p') /\ coherent st.(st_db) p') env (mkState st.(st_db) n).
Proof.
  intros [Hrows Hparse] Hn. unfold parsedFor. apply wp_bindP, wp_ret.
  destruct (p.(parsedCache) !! cacheKey name body) as [tpl|] eqn:E.
  - apply wp_ret. split; [done|]. exists p. split; [|by split].
    by rewrite (parsedFor_hit p.(parsedCache) name body tpl).
  - apply wp_bindP, wp_ret. destruct (Parse name body) as [tpl|e] eqn:Ep.
    + apply wp_bindP, wp_ret, wp_ret. split; [done|]. eexists. split; [done|].
      split; [exact Hrows | by apply parsedFor_fill].
    + split; [done|]. by exists p.
Qed.

Lemma wp_Render store name data p env st :
  coherent st.(st_db) p -> nul_free name = true ->
  wp (Render store name data p) (reads_as (rendered store st.(st_db) name data) env st) env st.
Proof.
  intros Hc Hn. unfold Render. apply (reads_as_bind _ _ (effective store st.(st_db) name)); [by apply wp_Resolve| |].
  - intros [[subject rawBody] cu] p1 n He Hc1. unfold rendered. rewrite He.
    apply wp_bindP, wp_map_errP. eapply wp_mono; [|by apply (wp_parsedFor name rawBody p1 env st n)].
    intros r [db n'] (Hdb & p2 & -> & Hc2). simpl in Hdb. subst db.
    destruct (Parse name rawBody) as [tpl|e]; [|by apply (reads_as_done _ (Err _) p2)].
    apply wp_bindP, wp_ret. destruct (Execute tpl data) as [body|e]; by apply (reads_as_done _ _ p2).
  - unfold rendered. by intros e ->.
Qed.

(** Rendering with the two caches is rendering without them: from a memory
    coherent with the table it gives what the saved override, or the embedded
    default, gives; only a failing statement makes it answer otherwise, with
    that error.  The table stays and the memory stays coherent with it. *)
Theorem Render_refines (store : bool) (name : string) (data : EmailData.t) (p : Process) (env : Env) (db : DB) :
  coherent db p -> nul_free name = true ->
  exists r p', run (Render store name data p) env db = (Ok (r, p'), db) /\ coherent db p' /\
    (r = rendered store db name data \/ r = Err driver_error /\ ~ no_faults env).
Proof.
  intros Hc Hn. pose proof (run_wp _ (fun r db' => reads_as (rendered store db name data) env (mkState db 0) r (mkState db' 0))
    env db (wp_Render store name data p env (mkState db 0) Hc Hn)) as Hr.
  destruct (run _ _ _) as [r db']. destruct Hr as (Hdb & a & p' & -> & Hc' & Ha). simpl in Hdb. subst db'. eauto.
Qed.

(** ** Every operation keeps the memory coherent with the table *)

Abbreviation keeps_coherent := (keepsP coherent).

Lemma reads_as_keeps {A} (m : MP A) (ref : DB -> result A) :
  (forall p env st, coherent st.(st_db) p -> wp (m p) (reads_as (ref st.(st_db)) env st) env st) ->
  keeps_coherent m.
Proof.
  intros Hm p env st Hc. eapply wp_mono; [|by apply Hm]. intros r st' (Hdb & a & p' & -> & Hc' & _).
  rewrite Hdb. eauto.
Qed.

Lemma write_keeps name (f : Env -> gmap string EmailTemplate.t -> gmap string EmailTemplate.t) :
  (forall env t name', name' <> name -> f env t !! name' = t !! name') ->
  keeps_coherent (liftP (update_table (upd email_templates) f) ~;; Store.invalidate name).
Proof.
  intros Hf p env st [Hrows Hparse]. apply wp_bindP, wp_liftP, wp_update_table.
  - intros e _. eexists _, _. split; [done | by split].
  - intros _. apply wp_ret. eexists _, _. split; [done|]. split; [|exact Hparse].
    intros name' v Hd. change (delete name p.(cache) !! name' = Some v) in Hd.
    apply lookup_delete_Some in Hd as [Hne Hv]. rewrite (Hrows _ _ Hv). f_equal. symmetry. by apply Hf.
Qed.

Lemma known_nul_free name : TemplateHandler.knownTemplate name = true -> nul_free name = true.
Proof.
  unfold TemplateHandler.knownTemplate. rewrite mem_iff. revert name. apply Forall_forall. by repeat constructor.
Qed.

Inductive call :=
| CRender (name : string) (data : EmailData.t)
| CList
| CGet (name : string)
| CUpsert (name : string) (input : result Override.t) (userID : UUID)
| CPreview (name : string) (input : result Override.t)
| CDelete (name : string).

Definition perform (c : call) : MP unit :=
  match c with
  | CRender name data => Render true name data ~;; retP tt
  | CList => TemplateHandler.List ~;; retP tt
  | CGet name => TemplateHandler.Get name ~;; retP tt
  | CUpsert name input userID => TemplateHandler.Upsert name input userID
  | CPreview name input => TemplateHandler.Preview name input ~;; retP tt
  | CDelete name => TemplateHandler.Delete name
  end.

(** The senders render the templates the system knows. *)
Definition call_ok (c : call) : Prop :=
  match c with CRender name _ => TemplateHandler.knownTemplate name = true | _ => True end.

Lemma list_items_keeps names : keeps_coherent (TemplateHandler.list_items names).
Proof.
  induction names as [|name names IH]; cbn [TemplateHandler.list_items]; [apply keepsP_ret|].
  apply keepsP_bind; [apply keepsP_map_err, (reads_as_keeps _ (fun db => effective true db name)); by intros; apply wp_Resolve|].
  intros [[subject b] cu]. apply keepsP_bind; [exact IH | intros; apply keepsP_ret].
Qed.

Lemma check_known_keeps name : keeps_coherent (TemplateHandler.check_known name).
Proof. unfold TemplateHandler.check_known. destruct (TemplateHandler.knownTemplate _); [apply keepsP_ret | apply keepsP_throw]. Qed.

Lemma perform_coherent c : call_ok c -> keeps_coherent (perform c).
Proof.
  intros Hok. destruct c as [name data| |name|name input u|name input|name]; simpl.
  - apply keepsP_bind; [|intros; apply keepsP_ret].
    apply (reads_as_keeps _ (fun db => rendered true db name data)). intros. apply wp_Render; [done|].
    by apply known_nul_free.
  - apply keepsP_bind; [apply list_items_keeps | intros; apply keepsP_ret].
  - apply keepsP_bind; [|intros; apply keepsP_ret]. unfold TemplateHandler.Get.
    apply keepsP_bind; [apply check_known_keeps | intros _].
    apply keepsP_bind; [apply keepsP_map_err, (reads_as_keeps _ (fun db => effective true db name)); by intros; apply wp_Resolve|].
    intros [[subject b] cu]. apply keepsP_bind; [apply keepsP_of_result | intros; apply keepsP_ret].
  - unfold TemplateHandler.Upsert, TemplateHandler.bind_body.
    do 3 (apply keepsP_bind; [first [apply check_known_keeps | apply keepsP_of_result] | intros ?]).
    apply keepsP_map_err, write_keeps. intros. by apply lookup_insert_ne.
  - apply keepsP_bind; [|intros; apply keepsP_ret]. unfold TemplateHandler.Preview, TemplateHandler.bind_body.
    do 4 (apply keepsP_bind; [first [apply check_known_keeps | apply keepsP_of_result] | intros ?]).
    apply keepsP_ret.
  - unfold TemplateHandler.Delete. apply keepsP_bind; [apply check_known_keeps|intros _].
    apply keepsP_map_err, write_keeps. intros. by apply lookup_delete_ne.
Qed.

(** Whatever the administrators' edits, the messages rendered, their order
    and their faults, the memory of a single process stays coherent with the
    table: each cached override is the saved one, and of each template at most
    one parsed body is kept. *)
Theorem templates_coherent (l : list (Env * call)) (p : Process) (db : DB) :
  Forall (fun ec => call_ok ec.2) l -> coherent db p ->
  let '(p', db') := historyP perform l p db in coherent db' p'.
Proof.
  intros Hl Hcoh. apply (historyP_keeps coherent perform call_ok); [apply perform_coherent | done..].
Qed.
End facts.

(** ** Samples *)

(** Templates are their text; a [?] in one refers to a field that does not
    exist, which its execution reports. *)
Definition sample_html : HtmlTemplate := {|
  Template := string;
  Parse name body := if String.eqb body "" then Err (EOther "empty") else Ok body;
  Execute t data :=
    if String.eqb t "?" then Err (EOther "can't evaluate field") else Ok (t +:+ data.(EmailData.Token));
  ReadFile f := Ok f
|}.

#[local] Existing Instance sample_html.

Definition sample_env (wall : Z) : Env :=
  mkEnv wall wall (fun _ => false) (fun _ _ => 0) (fun n => N.of_nat (S n)).

Definition empty_memory : Process := mkProcess ∅ ∅.

Lemma empty_coherent db : coherent db empty_memory.
Proof. split; [by intros name v Hv|]. split; [by intros k tpl Hk | by intros ? ? ? _ [? Hk]]. Qed.

Definition sample_calls : list (Env * call) :=
  [(sample_env 0, CRender "verification" (EmailData.mk "iss" "t" ""));
   (sample_env 0, CUpsert "verification" (Ok (Override.mk "S" "B")) 1%N);
   (sample_env 0, CRender "verification" (EmailData.mk "iss" "t" ""))].

Lemma templates_coherent_witness :
  let '(p, db) := historyP perform sample_calls empty_memory empty_db in coherent db p.
Proof.
  exact (templates_coherent sample_calls empty_memory empty_db ltac:(by repeat constructor) (empty_coherent _)).
Defined.

Lemma Render_refines_witness :
  let '(p, db) := historyP perform sample_calls empty_memory empty_db in
  rendered true db "verification" (EmailData.mk "iss" "t" "") = Ok ("S", "Bt") /\
  exists r p', run (Render true "verification" (EmailData.mk "iss" "t" "") empty_memory) (sample_env 0) db
      = (Ok (r, p'), db) /\ coherent db p' /\
    (r = rendered true db "verification" (EmailData.mk "iss" "t" "")
     \/ r = Err driver_error /\ ~ no_faults (sample_env 0)).
Proof.
  set (h := historyP _ _ _). destruct h as [p db] eqn:E. split.
  - apply (f_equal snd) in E. vm_compute in E. subst db. vm_compute. reflexivity.
  - apply (Render_refines true "verification" _ empty_memory (sample_env 0) db (empty_coherent _)). reflexivity.
Defined.

(** The lookup is not atomic: an edit saved between the query and the entry it
    leaves is not seen by this process again, since nothing expires. *)
Example stale_for_ever :
  let old := (run (Store.read_row "invitation") (sample_env 0) empty_db).1 in
  let '(r, db) := run (Store.Upsert "invitation" (Override.mk "S" "B") 1%N empty_memory) (sample_env 1) empty_db in
  match old, r with
  | Ok ov, Ok (_, p) =>
      match run (Store.fill "invitation" ov p) (sample_env 2) db with
      | (Ok (_, p), db) =>
          match run (Resolve true "invitation" p) (sample_env hour) db with
          | (Ok (Ok (subject, _, customized), _), _) =>
              subject = "You've been invited" /\ customized = false /\
              is_Some (db.(email_templates) !! "invitation")
          | _ => False
          end
      | _ => False
      end
  | _, _ => False
  end.
Proof. vm_compute. split_and!; [reflexivity | reflexivity | by eexists]. Qed.

(** An edit is accepted although it refers to a field the messages do not have;
    every message of that template then fails. *)
Example unknown_variable_accepted :
  let '(r, db) := run (TemplateHandler.Upsert "verification" (Ok (Override.mk "S" "?")) 1%N empty_memory)
                    (sample_env 0) empty_db in
  match r with
  | Ok (Ok _, p) =>
      match run (Render true "verification" (EmailData.mk "iss" "t" "") p) (sample_env 1) db with
      | (Ok (Err e, _), _) => True
      | _ => False
      end
  | _ => False
  end.
Proof. vm_compute. exact I. Qed.
End TemplateFacts.
