(* ===== verification/Settings.v ===== *)
(** * invitation/: the settings of the application

    The [settings] table (invitation/repository.go), what the services read in
    it and the endpoint that writes it (invitation/service.go and handler.go). *)
From S2P Require Import Prelude.
From S2P Require Import Errors.
From S2P Require Import GoLib.
From S2P Require Import GoNet.
From S2P Require Import Model.
From S2P Require Import Platform.
From S2P Require Import Exec.
From S2P Require Import NetSafety.
From S2P Require Import GoEnc.
From S2P Require Import JsonFlat.
Local Open Scope Z_scope.

(** [strconv.Itoa] *)
Definition Itoa (n : Z) : string := if n <? 0 then "-" +:+ dec (- n) else dec n.

Definition bool_text (b : bool) : string := if b then "true" else "false".

(** ** invitation/repository.go *)
Module SettingsRepo.

Definition GetSetting (key : string) : M string :=
  let! (setting, err) := find_row Setting.zero (fun _ db => db.(settings) !! key) ;;
  match err with
  | Some e => throw e
  | None => ret (match setting with Some s => s.(Setting.Value) | None => "" end)
  end.

Definition SetSetting (key value : string) : M unit :=
  update_table (upd settings) (fun _ => insert key (Setting.mk key value)).

Definition GetAllSettings : M (list Setting.t) :=
  query (fun _ db => select_rows (fun _ => true) db.(settings)).

End SettingsRepo.

(** ** invitation/service.go *)
Module SettingsSvc.

Record Service := mkService {
  allowedOrigins : list string;
  defaultSessionTTL : Z;
  extendedSessionTTL : Z
}.

(** An unset, empty or unreadable flag is true. *)
Definition flag (key : string) : M bool :=
  val <- attempt (SettingsRepo.GetSetting key) ;;
  ret (match val with
       | Err _ => true
       | Ok val => String.eqb val "" || String.eqb val "true"
       end).

Definition IsRegistrationEnabled : M bool := flag "registration_enabled".

Definition IsEmailVerificationRequired : M bool := flag "registration_email_verification_required".

(** A [map[string]string]; the key of a row is its primary key. *)
Definition GetAllSettings : M (gmap string string) :=
  rows <- or_fail SettingsRepo.GetAllSettings (ErrInternal "failed to get settings") ;;
  ret (foldl (fun m s => <[s.(Setting.Key) := s.(Setting.Value)]> m) ∅ rows).

Definition SessionTTL (s : Service) (extended : bool) : M Z :=
  let '(key, fallback) :=
    if extended then ("default_session_extended_ttl", s.(extendedSessionTTL))
    else ("default_session_ttl", s.(defaultSessionTTL)) in
  val <- attempt (SettingsRepo.GetSetting key) ;;
  match val with
  | Err _ => ret fallback
  | Ok val =>
      if String.eqb val "" then ret fallback
      else match atoi val with
           | None => ret fallback
           | Some seconds => if seconds <=? 0 then ret fallback else ret (dur_mul seconds second)
           end
  end.

Definition GetPostRegisterRedirectURL : M string :=
  val <- attempt (SettingsRepo.GetSetting "default_post_register_redirect_url") ;;
  ret (match val with Ok v => v | Err _ => "" end).

Definition UpdateSetting (key value : string) : M unit :=
  or_fail (SettingsRepo.SetSetting key value) (ErrInternal "failed to update setting").

End SettingsSvc.

(** ** invitation/handler.go *)
Module SettingsHandler.

Record UpdateSettingsInput := mkInput {
  RegistrationEnabled : option bool;
  InvitationsDefaultRole : option string;
  DefaultAccessTokenTTL : option Z;
  DefaultRefreshTokenTTL : option Z;
  DefaultIDTokenTTL : option Z;
  DefaultPostRegisterRedirectURL : option string;
  DefaultSessionTTL : option Z;
  DefaultSessionExtendedTTL : option Z;
  RegistrationEmailVerificationRequired : option bool
}.

Section handler.
Context `{Platform} (s : SettingsSvc.Service).

(** [if field != nil { guard; apply(key, text) }] *)
Definition apply {A} (field : option A) (check : A -> M unit) (key : string) (text : A -> string) : M unit :=
  match field with
  | None => ret tt
  | Some v => check v ;;; SettingsSvc.UpdateSetting key (text v)
  end.

Definition unchecked {A} (_ : A) : M unit := ret tt.

Definition positive (key : string) (n : Z) : M unit :=
  guard (0 <? n) (ErrBadRequest (key +:+ " must be > 0")).

Definition allowed_url (url : string) : M unit :=
  guard (String.eqb url "" || IsOriginAllowed url s.(SettingsSvc.allowedOrigins))
    (ErrBadRequest "post-register redirect URL origin is not allowlisted").

Definition apply_all (input : UpdateSettingsInput) : M unit :=
  apply input.(RegistrationEnabled) unchecked "registration_enabled" bool_text ;;;
  apply input.(InvitationsDefaultRole) unchecked "invitations_default_role" id ;;;
  apply input.(DefaultAccessTokenTTL) unchecked "default_access_token_ttl" Itoa ;;;
  apply input.(DefaultRefreshTokenTTL) unchecked "default_refresh_token_ttl" Itoa ;;;
  apply input.(DefaultIDTokenTTL) unchecked "default_id_token_ttl" Itoa ;;;
  apply input.(DefaultPostRegisterRedirectURL) allowed_url "default_post_register_redirect_url" id ;;;
  apply input.(DefaultSessionTTL) (positive "default_session_ttl") "default_session_ttl" Itoa ;;;
  apply input.(DefaultSessionExtendedTTL) (positive "default_session_extended_ttl")
    "default_session_extended_ttl" Itoa ;;;
  apply input.(RegistrationEmailVerificationRequired) unchecked
    "registration_email_verification_required" bool_text.

Definition UpdateSettings (input : UpdateSettingsInput) : M (gmap string string) :=
  apply_all input ;;;
  SettingsSvc.GetAllSettings.
End handler.
End SettingsHandler.

(** ** Properties *)
Module SettingsFacts.
Import SettingsRepo SettingsSvc SettingsHandler.

Lemma Itoa_nonneg n : 0 <= n -> Itoa n = dec n.
Proof. intros Hn. unfold Itoa. by rewrite (proj2 (Z.ltb_ge n 0)). Qed.

Lemma Itoa_nonempty n : 0 <= n -> String.eqb (Itoa n) "" = false.
Proof. intros Hn. rewrite Itoa_nonneg by done. destruct (dec_value n Hn) as (_ & _ & He). by apply String.eqb_neq. Qed.

(** What a reader of the setting [key] finds. *)
Definition value_of (t : gmap string Setting.t) (key : string) : string :=
  match t !! key with Some s => s.(Setting.Value) | None => "" end.

Lemma wp_GetSetting_nf key env st (Q : result string -> State -> Prop) :
  no_faults env -> Q (Ok (value_of st.(st_db).(settings) key)) (bump st) -> wp (GetSetting key) Q env st.
Proof. intros Hnf HQ. unfold GetSetting. apply wp_bind, wp_find_row_nf; [done|]. exact HQ. Qed.

Lemma run_wp_eq {A} (m : M A) env db r :
  wp m (fun r' st' => r' = r /\ st'.(st_db) = db) env (mkState db 0) -> run m env db = (r, db).
Proof.
  intros Hm. pose proof (run_wp m (fun r' db' => r' = r /\ db' = db) env db Hm) as Hr.
  by destruct (run m env db) as [? ?]; destruct Hr as [-> ->].
Qed.

Section readers.
Context (env : Env) (Hnf : no_faults env) (db : DB).

Lemma read_flag key :
  run (flag key) env db
  = (Ok (let v := value_of db.(settings) key in String.eqb v "" || String.eqb v "true"), db).
Proof. apply run_wp_eq. unfold flag. apply wp_bind, wp_attempt, wp_GetSetting_nf; [done|]. by apply wp_ret. Qed.

Lemma read_url :
  run GetPostRegisterRedirectURL env db
  = (Ok (value_of db.(settings) "default_post_register_redirect_url"), db).
Proof.
  apply run_wp_eq. unfold GetPostRegisterRedirectURL. apply wp_bind, wp_attempt, wp_GetSetting_nf; [done|].
  by apply wp_ret.
Qed.

Definition ttl_value (val : string) (fallback : Z) : Z :=
  if String.eqb val "" then fallback
  else match atoi val with
       | None => fallback
       | Some seconds => if seconds <=? 0 then fallback else dur_mul seconds second
       end.

Definition ttl_key (extended : bool) : string :=
  if extended then "default_session_extended_ttl" else "default_session_ttl".

Lemma read_ttl s extended :
  run (SessionTTL s extended) env db
  = (Ok (ttl_value (value_of db.(settings) (ttl_key extended))
           (if extended then s.(extendedSessionTTL) else s.(defaultSessionTTL))), db).
Proof.
  apply run_wp_eq. unfold SessionTTL. destruct extended; cbv zeta;
    (apply wp_bind, wp_attempt, wp_GetSetting_nf; [done|]); unfold ttl_value, ttl_key;
    (destruct (String.eqb _ ""); [by apply wp_ret|]); (destruct (atoi _) as [n|]; [|by apply wp_ret]);
    destruct (n <=? 0); by apply wp_ret.
Qed.
End readers.

Lemma ttl_value_written n fallback :
  0 < n < 2 ^ 63 -> ttl_value (Itoa n) fallback = dur_mul n second.
Proof.
  intros Hn. unfold ttl_value. rewrite Itoa_nonempty, Itoa_nonneg, atoi_dec by lia.
  by rewrite (proj2 (Z.leb_gt n 0)) by lia.
Qed.

(** ** The endpoint *)

Section update.
Context `{Platform} (s : SettingsSvc.Service).

Definition put {A} (field : option A) (key : string) (text : A -> string) (t : gmap string Setting.t)
    : gmap string Setting.t :=
  match field with None => t | Some v => <[key := Setting.mk key (text v)]> t end.

Definition written (i : UpdateSettingsInput) (t : gmap string Setting.t) : gmap string Setting.t :=
  put i.(RegistrationEmailVerificationRequired) "registration_email_verification_required" bool_text (
  put i.(DefaultSessionExtendedTTL) "default_session_extended_ttl" Itoa (
  put i.(DefaultSessionTTL) "default_session_ttl" Itoa (
  put i.(DefaultPostRegisterRedirectURL) "default_post_register_redirect_url" id (
  put i.(DefaultIDTokenTTL) "default_id_token_ttl" Itoa (
  put i.(DefaultRefreshTokenTTL) "default_refresh_token_ttl" Itoa (
  put i.(DefaultAccessTokenTTL) "default_access_token_ttl" Itoa (
  put i.(InvitationsDefaultRole) "invitations_default_role" id (
  put i.(RegistrationEnabled) "registration_enabled" bool_text t)))))))).

Definition holds_of {A} (o : option A) (P : A -> bool) : bool := match o with Some a => P a | None => true end.

Definition valid (i : UpdateSettingsInput) : bool :=
  holds_of i.(DefaultPostRegisterRedirectURL)
    (fun url => String.eqb url "" || IsOriginAllowed url s.(allowedOrigins))
  && holds_of i.(DefaultSessionTTL) (fun n => 0 <? n)
  && holds_of i.(DefaultSessionExtendedTTL) (fun n => 0 <? n).

Lemma holds_of_true {A} (o : option A) : holds_of o (fun _ => true) = true.
Proof. by destruct o. Qed.

(** One field of the request: its check, then its row. *)
Lemma wp_apply {A} (field : option A) check (P : A -> bool) key text env st (Q : result unit -> State -> Prop) :
  no_faults env ->
  (forall v st, wp (check v) (fun r st' => st' = st /\ is_ok r = P v) env st) ->
  (holds_of field P = true ->
     forall n, Q (Ok tt) (mkState (st.(st_db) <| settings ::= put field key text |>) n)) ->
  (forall e, holds_of field P = false -> Q (Err e) st) ->
  wp (apply field check key text) Q env st.
Proof.
  intros Hnf Hcheck Hok Herr. unfold apply. destruct field as [v|]; simpl in *.
  - apply wp_bind. eapply wp_mono; [|apply (Hcheck v st)]. intros [[]|e] st' [-> HP]; [|by apply Herr].
    unfold UpdateSetting, SetSetting. apply wp_or_fail, wp_update_table.
    + intros e. by rewrite Hnf.
    + intros _. by apply Hok.
  - apply wp_ret. specialize (Hok eq_refl st.(st_step)). by destruct st as [[] ?].
Qed.

Lemma unchecked_ok {A} (v : A) env st : wp (unchecked v) (fun r st' => st' = st /\ is_ok r = true) env st.
Proof. done. Qed.

Lemma wp_UpdateSettings i env st :
  no_faults env ->
  wp (UpdateSettings s i) (fun r st' =>
    if valid i then is_ok r = true /\ st'.(st_db) = st.(st_db) <| settings ::= written i |>
    else is_ok r = false) env st.
Proof.
  intros Hnf. unfold UpdateSettings, apply_all, valid, written.
  repeat lazymatch goal with |- wp (bind _ _) _ _ _ => apply wp_bind | |- wp (apply _ _ _ _) _ _ _ => first
    [ apply (wp_apply _ _ (fun _ => true)); [done | intros; apply unchecked_ok | intros _ ? | intros e He; by rewrite holds_of_true in He]
    | apply (wp_apply _ _ (fun url => String.eqb url "" || IsOriginAllowed url s.(allowedOrigins)));
        [done | intros v st'; unfold allowed_url; apply wp_guard; by intros -> | intros -> ? | intros e ->; by rewrite ?andb_false_r]
    | apply (wp_apply _ _ (fun n => 0 <? n));
        [done | intros v st'; unfold positive; apply wp_guard; by intros -> | intros -> ? | intros e ->; by rewrite ?andb_false_r] ] end.
  unfold SettingsSvc.GetAllSettings, SettingsRepo.GetAllSettings. apply wp_bind, wp_or_fail, wp_query_nf; [done|].
  apply wp_ret. split; [done|]. reflexivity.
Qed.

Lemma value_put_ne {A} (field : option A) key text t key' :
  key <> key' -> value_of (put field key text t) key' = value_of t key'.
Proof. intros Hne. unfold value_of. destruct field as [v|]; simpl; [by rewrite lookup_insert_ne | done]. Qed.

Lemma value_put_eq {A} (field : option A) key text t :
  value_of (put field key text t) key = match field with Some v => text v | None => value_of t key end.
Proof. unfold value_of. destruct field as [v|]; simpl; [by rewrite lookup_insert_eq | done]. Qed.

Definition given {A B} (field : option B) (r : B -> result A) (old : result A) : result A :=
  match field with Some v => r v | None => old end.

(** [m] reads the given value, else what it read before. *)
Definition reads {A B} (env : Env) (db db' : DB) (m : M A) (field : option B) (f : B -> A) : Prop :=
  run m env db' = (given field (fun b => Ok (f b)) (run m env db).1, db').

(** The settings endpoint round trips: after a request it accepts, every
    reader sees the value given, and for a field left out what it saw before;
    a lifetime is read back in seconds, on 64 bits.  A request with a lifetime
    that is not positive or a URL of another origin is refused. *)
Theorem settings_round_trip (i : UpdateSettingsInput) (env env' : Env) (db : DB) :
  no_faults env -> no_faults env' ->
  (forall n, i.(DefaultSessionTTL) = Some n \/ i.(DefaultSessionExtendedTTL) = Some n -> n < 2 ^ 63) ->
  let '(r, db') := run (UpdateSettings s i) env db in
  is_ok r = valid i /\
  (valid i = true ->
     reads env' db db' IsRegistrationEnabled i.(RegistrationEnabled) id /\
     reads env' db db' IsEmailVerificationRequired i.(RegistrationEmailVerificationRequired) id /\
     reads env' db db' GetPostRegisterRedirectURL i.(DefaultPostRegisterRedirectURL) id /\
     reads env' db db' (SessionTTL s false) i.(DefaultSessionTTL) (fun n => dur_mul n second) /\
     reads env' db db' (SessionTTL s true) i.(DefaultSessionExtendedTTL) (fun n => dur_mul n second)).
Proof.
  intros Hnf Hnf' Hn.
  pose proof (run_wp (UpdateSettings s i) (fun r db' =>
    if valid i then is_ok r = true /\ db' = db <| settings ::= written i |> else is_ok r = false) env db
    (wp_UpdateSettings i env (mkState db 0) Hnf)) as Hr.
  destruct (run (UpdateSettings s i) env db) as [r db']. destruct (valid i) eqn:Hv; [|by split].
  destruct Hr as [Hok Hdb]. split; [done|]. intros _.
  assert (Ht : settings db' = written i (settings db)) by (by rewrite Hdb).
  unfold valid in Hv. apply andb_true_iff in Hv as [[_ H1]%andb_true_iff H2].
  unfold reads, IsRegistrationEnabled, IsEmailVerificationRequired.
  rewrite !read_flag, !read_url, !read_ttl by done. rewrite Ht. unfold written, ttl_key, given.
  repeat (rewrite value_put_eq || rewrite value_put_ne by done).
  split_and!; apply (f_equal (fun x => (x, db'))).
  - destruct i.(RegistrationEnabled) as [[]|]; done.
  - destruct i.(RegistrationEmailVerificationRequired) as [[]|]; done.
  - by destruct i.(DefaultPostRegisterRedirectURL).
  - destruct i.(DefaultSessionTTL) as [n|]; [|reflexivity]. f_equal. apply ttl_value_written.
    specialize (Hn n (or_introl eq_refl)). apply Z.ltb_lt in H1. by split.
  - destruct i.(DefaultSessionExtendedTTL) as [n|]; [|reflexivity]. f_equal. apply ttl_value_written.
    specialize (Hn n (or_intror eq_refl)). apply Z.ltb_lt in H2. by split.
Qed.
End update.

(** ** Samples *)

Definition sample_settings : SettingsSvc.Service := SettingsSvc.mkService ["https://app.example"] hour (24 * hour).

Definition sample_settings_env : Env :=
  mkEnv 0 0 (fun _ => false) (fun _ _ => 0) (fun n => N.of_nat (S n)).

Definition sample_request : UpdateSettingsInput :=
  mkInput (Some false) None None None None (Some "https://app.example/welcome") (Some 1800) None (Some false).

Lemma settings_round_trip_witness :
  let H := sample_platform in
  let '(r, db') := run (UpdateSettings sample_settings sample_request) sample_settings_env empty_db in
  is_ok r = true /\ reads sample_settings_env empty_db db' (SessionTTL sample_settings false) (Some 1800)
    (fun n => dur_mul n second).
Proof.
  intros H. pose proof (settings_round_trip sample_settings sample_request sample_settings_env sample_settings_env
    empty_db ltac:(done) ltac:(done) ltac:(intros n [[= <-]|[=]]; lia)) as Hr.
  destruct (run _ _ _) as [r db']. destruct Hr as [-> Hr].
  assert (Hv : valid sample_settings sample_request = true) by (vm_compute; reflexivity).
  split; [exact Hv|]. destruct (Hr Hv) as (_ & _ & _ & Ht & _). exact Ht.
Defined.

(** A lifetime past 9223372036 seconds is accepted and wraps: every session is
    then created expired. *)
Example session_ttl_wraps :
  let H := sample_platform in
  let request := mkInput None None None None None None (Some 9223372037) None None in
  let '(r, db') := run (UpdateSettings sample_settings request) sample_settings_env empty_db in
  is_ok r = true /\
  (run (SessionTTL sample_settings false) sample_settings_env db').1 = Ok (-9223372036709551616).
Proof. vm_compute. split; reflexivity. Qed.

(** A refused request has changed the fields before the one refused. *)
Example refused_request_applied :
  let H := sample_platform in
  let request := mkInput (Some false) None None None None None (Some 0) None None in
  let '(r, db') := run (UpdateSettings sample_settings request) sample_settings_env empty_db in
  is_ok r = false /\ (run IsRegistrationEnabled sample_settings_env db').1 = Ok false.
Proof. vm_compute. split; reflexivity. Qed.
End SettingsFacts.
