(* ===== verification/Password.v ===== *)
(** * password/: the password policy

    The policy and its bounds (password/policy.go), where it is kept
    (password/service.go) and the rules a new password has to meet
    (password/validator.go).  The strength estimator is a function the
    definitions take, and so are the classes of the characters past ASCII. *)
From S2P Require Import Prelude.
From S2P Require Import Errors.
From S2P Require Import GoLib.
From S2P Require Import GoNet.
From S2P Require Import Model.
From S2P Require Import Platform.
From S2P Require Import Exec.
From S2P Require Import GoEnc.
From S2P Require Import ActionToken.
From S2P Require Import UserSvc.
From S2P Require Import Json.
From S2P Require Import JsonFlat.
From S2P Require Import Settings.
Local Open Scope Z_scope.

(** ** password/policy.go *)
Module PasswordPolicy.
Record t := mk {
  MinLength : Z;
  MaxLength : Z;
  RequireUpper : bool;
  RequireLower : bool;
  RequireDigit : bool;
  RequireSymbol : bool;
  MinScore : Z
}.

#[global] Instance eta_t : Eta t := fun p => mk
  p.(MinLength) p.(MaxLength) p.(RequireUpper) p.(RequireLower) p.(RequireDigit) p.(RequireSymbol) p.(MinScore).

Definition zero : t := mk 0 0 false false false false 0.
Definition DefaultPolicy : t := mk 8 128 false false false false 0.

Definition Normalize (p : t) : t :=
  let p := if p.(MinLength) <? 1 then p <| MinLength := 1 |> else p in
  let p := if 256 <? p.(MinLength) then p <| MinLength := 256 |> else p in
  let p := if negb (p.(MaxLength) =? 0) && (p.(MaxLength) <? p.(MinLength))
           then p <| MaxLength := p.(MinLength) |> else p in
  let p := if 512 <? p.(MaxLength) then p <| MaxLength := 512 |> else p in
  let p := if p.(MinScore) <? 0 then p <| MinScore := 0 |> else p in
  if 4 <? p.(MinScore) then p <| MinScore := 4 |> else p.
End PasswordPolicy.

(** ** password/service.go *)
Module PasswordSvc.
Import PasswordPolicy.

Definition settingKey : string := "password_policy".

(** [json.Marshal(p)] *)
Definition marshal (p : t) : string :=
  print_flat
    [("min_length", SInt p.(MinLength)); ("max_length", SInt p.(MaxLength));
     ("require_uppercase", SBool p.(RequireUpper)); ("require_lowercase", SBool p.(RequireLower));
     ("require_digit", SBool p.(RequireDigit)); ("require_symbol", SBool p.(RequireSymbol));
     ("min_score", SInt p.(MinScore))].

Definition set_field (k : string) : option (any -> t -> option t) :=
  if equal_fold k "min_length" then Some (int_field (fun n p => p <| MinLength := n |>))
  else if equal_fold k "max_length" then Some (int_field (fun n p => p <| MaxLength := n |>))
  else if equal_fold k "require_uppercase" then Some (bool_field (fun b p => p <| RequireUpper := b |>))
  else if equal_fold k "require_lowercase" then Some (bool_field (fun b p => p <| RequireLower := b |>))
  else if equal_fold k "require_digit" then Some (bool_field (fun b p => p <| RequireDigit := b |>))
  else if equal_fold k "require_symbol" then Some (bool_field (fun b p => p <| RequireSymbol := b |>))
  else if equal_fold k "min_score" then Some (int_field (fun n p => p <| MinScore := n |>))
  else None.

Definition Get : M t :=
  raw <- attempt (SettingsRepo.GetSetting settingKey) ;;
  ret (match raw with
       | Err _ => DefaultPolicy
       | Ok raw =>
           if String.eqb raw "" then DefaultPolicy
           else match unmarshal_fields set_field raw zero with
                | Err _ => DefaultPolicy
                | Ok p => Normalize p
                end
       end).

Definition Update (p : t) : M unit := SettingsRepo.SetSetting settingKey (marshal (Normalize p)).

(** password/handler.go: the body bound, the policy saved, then read back. *)
Definition UpdateHandler (input : result t) : M t :=
  input <- of_result (match input with
                      | Ok p => Ok p
                      | Err e => Err (ErrBadRequest ("invalid request body: " +:+ error_string e))
                      end) ;;
  or_fail (Update input) (ErrInternal "failed to persist password policy") ;;;
  Get.
End PasswordSvc.

(** ** password/validator.go *)
Module PasswordValidator.
Import PasswordPolicy.

(** The classes of [unicode] for characters past U+007F. *)
Class Unicode := {
  upper_past : Z -> bool;
  lower_past : Z -> bool;
  digit_past : Z -> bool;
  punct_past : Z -> bool;
  symbol_past : Z -> bool;
  space_past : Z -> bool
}.

(** [zxcvbn.PasswordStrength(password, inputs).Score] *)
Class Zxcvbn := PasswordStrength : string -> list string -> Z.

Section validator.
Context `{Unicode} `{Zxcvbn}.

Definition classed (ascii past : Z -> bool) (r : Z) : bool := if r <? 128 then ascii r else past r.

Definition IsUpper : Z -> bool := classed (between 65 90) upper_past.
Definition IsLower : Z -> bool := classed (between 97 122) lower_past.
Definition IsDigit : Z -> bool := classed (between 48 57) digit_past.
(** The symbols of ASCII are [$+<=>^`|~]; its other signs are punctuation. *)
Definition ascii_symbol (r : Z) : bool := existsb (Z.eqb r) [36; 43; 60; 61; 62; 94; 96; 124; 126].
Definition ascii_punct (r : Z) : bool :=
  (between 33 47 r || between 58 64 r || between 91 96 r || between 123 126 r) && negb (ascii_symbol r).
Definition IsPunct : Z -> bool := classed ascii_punct punct_past.
Definition IsSymbol : Z -> bool := classed ascii_symbol symbol_past.
Definition IsSpace : Z -> bool := classed (fun r => between 9 13 r || (r =? 32)) space_past.

(** The code point of a well-formed sequence of [n] bytes. *)
Definition rune_of (n : nat) (s : list Z) : Z :=
  match n, s with
  | 2%nat, b :: c :: _ => (b - 192) * 64 + (c - 128)
  | 3%nat, b :: c :: d :: _ => (b - 224) * 4096 + (c - 128) * 64 + (d - 128)
  | 4%nat, b :: c :: d :: e :: _ => (b - 240) * 262144 + (c - 128) * 4096 + (d - 128) * 64 + (e - 128)
  | _, _ => 65533
  end.

(** [for _, r := range s]; a byte that starts no sequence reads as U+FFFD. *)
Fixpoint runes (skip : nat) (s : list Z) : list Z :=
  match s with
  | [] => []
  | b :: r =>
      match skip with
      | S n => runes n r
      | O =>
          if b <? 128 then b :: runes 0 r
          else match utf8_len s with
               | None => 65533 :: runes 0 r
               | Some n => rune_of n s :: runes (n - 1) r
               end
      end
  end.

(** The first class of a character that holds. *)
Inductive class := Upper | Lower | Digit | Symbol.
#[export] Instance class_eq_dec : EqDecision class.
Proof. solve_decision. Defined.

Definition class_of (r : Z) : option class :=
  if IsUpper r then Some Upper
  else if IsLower r then Some Lower
  else if IsDigit r then Some Digit
  else if IsPunct r || IsSymbol r || IsSpace r then Some Symbol
  else None.

Definition mark (f : bool * bool * bool * bool) (r : Z) : bool * bool * bool * bool :=
  let '(u, l, d, s) := f in
  match class_of r with
  | Some Upper => (true, l, d, s)
  | Some Lower => (u, true, d, s)
  | Some Digit => (u, l, true, s)
  | Some Symbol => (u, l, d, true)
  | None => f
  end.

Definition classify (password : string) : bool * bool * bool * bool :=
  foldl mark (false, false, false, false) (runes 0 (bytes_of password)).

Definition sanitizeInputs (inputs : list string) : list string :=
  List.filter (fun s => negb (String.eqb s "")) (map trim_space inputs).

Definition problem_if (b : bool) (p : string) : list string := if b then [p] else [].

Definition problems (policy : t) (password : string) (userInputs : list string) : list string :=
  let len := Z.of_nat (String.length password) in
  let '(hasUpper, hasLower, hasDigit, hasSymbol) := classify password in
  problem_if (len <? policy.(MinLength)) ("must be at least " +:+ Itoa policy.(MinLength) +:+ " characters")
  ++ problem_if ((0 <? policy.(MaxLength)) && (policy.(MaxLength) <? len))
       ("must be at most " +:+ Itoa policy.(MaxLength) +:+ " characters")
  ++ problem_if (policy.(RequireUpper) && negb hasUpper) "must contain an uppercase letter"
  ++ problem_if (policy.(RequireLower) && negb hasLower) "must contain a lowercase letter"
  ++ problem_if (policy.(RequireDigit) && negb hasDigit) "must contain a digit"
  ++ problem_if (policy.(RequireSymbol) && negb hasSymbol) "must contain a symbol"
  ++ (if (0 <? policy.(MinScore)) && (0 <? len) then
        let score := PasswordStrength password (sanitizeInputs userInputs) in
        problem_if (score <? policy.(MinScore))
          ("must reach a strength score of at least " +:+ Itoa policy.(MinScore)
             +:+ " (currently " +:+ Itoa score +:+ ")")
      else []).

(** [withProvider] tells whether the validator has a provider. *)
Definition Validate (withProvider : bool) (password : string) (userInputs : list string) : M unit :=
  policy <- (if withProvider then p <- PasswordSvc.Get ;; ret (Normalize p) else ret DefaultPolicy) ;;
  match problems policy password userInputs with
  | [] => ret tt
  | ps => throw (ErrBadRequest ("password " +:+ String.concat "; " ps))
  end.

(** The validator as the user service takes it. *)
Definition validator (withProvider : bool) : string -> list string -> Reader unit :=
  fun password inputs => reader_of (Validate withProvider password inputs).
End validator.
End PasswordValidator.

(** ** Properties *)
Module PasswordFacts.
Import PasswordPolicy PasswordValidator.

(** The bounds of a normalized policy. *)
Definition bounded (p : t) : Prop :=
  1 <= p.(MinLength) <= 256 /\
  (p.(MaxLength) = 0 \/ p.(MinLength) <= p.(MaxLength) <= 512) /\
  0 <= p.(MinScore) <= 4.

(** One step of [Normalize] on the fields its bounds are about. *)
Ltac step p q H :=
  match goal with
  | |- context [if ?c then (p <| ?f := ?v |>) else p] =>
      set (q := if c then (p <| f := v |>) else p);
      assert (H : (c = true /\ q = p <| f := v |>) \/ (c = false /\ q = p))
        by (unfold q; destruct c; auto);
      clearbody q
  end.

Lemma Normalize_bounded p : bounded (Normalize p).
Proof.
  unfold Normalize, bounded.
  step p p1 H1. step p1 p2 H2. step p2 p3 H3. step p3 p4 H4. step p4 p5 H5. step p5 p6 H6.
  assert (B2 : 1 <= p2.(MinLength) <= 256).
  { destruct H1 as [[Hc ->]|[Hc ->]], H2 as [[Hc' ->]|[Hc' ->]]; simpl in *; lia. }
  assert (B3 : p3.(MinLength) = p2.(MinLength) /\ (p3.(MaxLength) = 0 \/ p3.(MinLength) <= p3.(MaxLength))).
  { destruct H3 as [[Hc ->]|[Hc ->]]; simpl; [lia|]. bool_simpl. split; [done|].
    apply andb_false_iff in Hc as [Hc|Hc]; bool_simpl; lia. }
  assert (B4 : p4.(MinLength) = p3.(MinLength) /\ (p4.(MaxLength) = 0 \/ p4.(MinLength) <= p4.(MaxLength) <= 512)).
  { destruct H4 as [[Hc ->]|[Hc ->]]; simpl; bool_simpl; lia. }
  destruct H5 as [[Hc ->]|[Hc ->]], H6 as [[Hc' ->]|[Hc' ->]]; simpl in *; lia.
Qed.

Lemma Normalize_id p : bounded p -> Normalize p = p.
Proof.
  destruct p as [mn mx u l d s sc]. unfold bounded, Normalize. cbn. intros (Hmin & Hmax & Hsc).
  rewrite (proj2 (Z.ltb_ge mn 1)) by lia. cbn. rewrite (proj2 (Z.ltb_ge 256 mn)) by lia. cbn.
  assert (Hm : negb (mx =? 0) && (mx <? mn) = false).
  { destruct (Z.eqb_spec mx 0); [done|]. simpl. apply Z.ltb_ge. lia. }
  rewrite Hm. cbn. rewrite (proj2 (Z.ltb_ge 512 mx)) by lia. cbn.
  rewrite (proj2 (Z.ltb_ge sc 0)) by lia. cbn. by rewrite (proj2 (Z.ltb_ge 4 sc)) by lia.
Qed.

Lemma DefaultPolicy_bounded : bounded DefaultPolicy.
Proof. unfold bounded. simpl. lia. Qed.

(** Normalizing clamps every bound, touches nothing of a policy within the
    bounds, and is idempotent. *)
Theorem Normalize_spec (p : t) :
  bounded (Normalize p) /\ (bounded p -> Normalize p = p) /\ Normalize (Normalize p) = Normalize p.
Proof.
  split; [apply Normalize_bounded|]. split; [apply Normalize_id|].
  apply Normalize_id, Normalize_bounded.
Qed.

(** ** The stored policy *)

Lemma unmarshal_marshal p :
  bounded p -> unmarshal_fields PasswordSvc.set_field (PasswordSvc.marshal p) zero = Ok p.
Proof.
  intros (Hmin & Hmax & Hsc). unfold unmarshal_fields, PasswordSvc.marshal. rewrite parse_print_flat.
  - cbn [map fst snd any_of].
    repeat (erewrite decode_field; [|reflexivity|done|first [apply int_field_dec; lia | reflexivity]]).
    by destruct p.
  - done.
  - repeat constructor; simpl; try done; lia.
Qed.

Definition fallback (raw : string) : t :=
  if String.eqb raw "" then DefaultPolicy
  else match unmarshal_fields PasswordSvc.set_field raw zero with
       | Err _ => DefaultPolicy
       | Ok p => Normalize p
       end.

Lemma wp_Get_password_policy env st :
  wp PasswordSvc.Get (fun r st' => st'.(st_db) = st.(st_db) /\ exists p, r = Ok p /\ bounded p /\
    (no_faults env -> p = fallback (SettingsFacts.value_of st.(st_db).(settings) PasswordSvc.settingKey))) env st.
Proof.
  assert (Hb : forall raw, bounded (fallback raw)).
  { intros raw. unfold fallback. destruct (String.eqb raw ""); [apply DefaultPolicy_bounded|].
    destruct (unmarshal_fields _ _ _); [apply Normalize_bounded | apply DefaultPolicy_bounded]. }
  unfold PasswordSvc.Get, SettingsRepo.GetSetting.
  apply wp_bind, wp_attempt, wp_bind, wp_find_row; intros Hf.
  - apply wp_throw, wp_ret. split; [done|]. eexists. split; [done|]. split; [apply DefaultPolicy_bounded|].
    intros Hnf. by rewrite Hnf in Hf.
  - apply wp_ret, wp_ret. split; [done|]. eexists. split; [done|]. split; [apply Hb | done].
Qed.

#[export] Instance Get_read_only : ReadOnly PasswordSvc.Get.
Proof. intros env st. by destruct (wp_Get_password_policy env st) as [-> _]. Qed.

(** The policy round trips through its setting: saved and read back it is
    the normalized policy.  Whatever the setting holds and whatever fails, a
    policy within the bounds is read. *)
Theorem password_policy_round_trip (p : t) (env env' : Env) (db : DB) :
  let '(r, db') := run (PasswordSvc.Update p) env db in
  (exists q, run PasswordSvc.Get env' db' = (Ok q, db') /\ bounded q) /\
  (no_faults env -> no_faults env' ->
     r = Ok tt /\ run PasswordSvc.Get env' db' = (Ok (Normalize p), db')).
Proof.
  pose proof (run_wp (PasswordSvc.Update p) (fun r db' => no_faults env -> r = Ok tt /\
    db' = db <| settings ::= insert PasswordSvc.settingKey
      (Setting.mk PasswordSvc.settingKey (PasswordSvc.marshal (Normalize p))) |>) env db) as Hu.
  assert (Hw : wp (PasswordSvc.Update p) (fun r st' => no_faults env -> r = Ok tt /\
    st'.(st_db) = db <| settings ::= insert PasswordSvc.settingKey
      (Setting.mk PasswordSvc.settingKey (PasswordSvc.marshal (Normalize p))) |>) env (mkState db 0)).
  { unfold PasswordSvc.Update, SettingsRepo.SetSetting. apply wp_update_table; [|done].
    intros e Hf Hnf. by rewrite Hnf in Hf. }
  specialize (Hu Hw). destruct (run (PasswordSvc.Update p) env db) as [r db'].
  pose proof (run_wp PasswordSvc.Get (fun r db2 => db2 = db' /\ exists q, r = Ok q /\ bounded q /\
    (no_faults env' -> q = fallback (SettingsFacts.value_of db'.(settings) PasswordSvc.settingKey))) env' db'
    (wp_Get_password_policy env' (mkState db' 0))) as Hg.
  destruct (run PasswordSvc.Get env' db') as [r2 db2]. destruct Hg as (-> & q & -> & Hq & Hval).
  split; [by exists q|]. intros Hnf Hnf'. destruct (Hu Hnf) as [-> ->]. split; [done|].
  rewrite (Hval Hnf'). unfold fallback, SettingsFacts.value_of.
  change (settings (upd settings ?f db)) with (f (settings db)). rewrite lookup_insert_eq.
  cbn [Setting.Value]. rewrite unmarshal_marshal by apply Normalize_bounded.
  by rewrite (Normalize_id (Normalize p)) by apply Normalize_bounded.
Qed.

(** ** The rules *)

Section rules.
Context `{Unicode} `{Zxcvbn}.

Definition has_class (c : class) (password : string) : Prop :=
  exists r, r ∈ runes 0 (bytes_of password) /\ class_of r = Some c.

(** What the policy asks of a password. *)
Definition meets (p : t) (password : string) (inputs : list string) : Prop :=
  let len := Z.of_nat (String.length password) in
  p.(MinLength) <= len /\
  (0 < p.(MaxLength) -> len <= p.(MaxLength)) /\
  (p.(RequireUpper) = true -> has_class Upper password) /\
  (p.(RequireLower) = true -> has_class Lower password) /\
  (p.(RequireDigit) = true -> has_class Digit password) /\
  (p.(RequireSymbol) = true -> has_class Symbol password) /\
  (0 < p.(MinScore) -> 0 < len -> p.(MinScore) <= PasswordStrength password (sanitizeInputs inputs)).

Definition flag_of (c : class) (f : bool * bool * bool * bool) : bool :=
  let '(u, l, d, s) := f in
  match c with Upper => u | Lower => l | Digit => d | Symbol => s end.

Lemma mark_flag c f r : flag_of c (mark f r) = flag_of c f || bool_decide (class_of r = Some c).
Proof.
  destruct f as [[[u l] d] s]. unfold mark. destruct (class_of r) as [[]|], c; simpl;
    rewrite ?orb_false_r, ?orb_true_r; done.
Qed.

Lemma classify_flags l f c :
  flag_of c (foldl mark f l) = true <-> flag_of c f = true \/ exists r, r ∈ l /\ class_of r = Some c.
Proof.
  revert f. induction l as [|r l IH]; intros f; simpl.
  - split; [by left|]. intros [?|(r & Hr & _)]; [done|]. by apply not_elem_of_nil in Hr.
  - rewrite IH, mark_flag, orb_true_iff, bool_decide_eq_true. setoid_rewrite elem_of_cons. naive_solver.
Qed.

Lemma classify_class c password : flag_of c (classify password) = true <-> has_class c password.
Proof. unfold classify, has_class. rewrite classify_flags. destruct c; simpl; naive_solver. Qed.

Lemma problem_if_nil b p : problem_if b p = [] <-> b = false.
Proof. by destruct b. Qed.

Lemma need_class c password (b : bool) :
  b && negb (flag_of c (classify password)) = false <-> (b = true -> has_class c password).
Proof.
  rewrite <-classify_class. destruct b, (flag_of c _); simpl; naive_solver.
Qed.

Lemma problems_nil p password inputs : problems p password inputs = [] <-> meets p password inputs.
Proof.
  unfold meets. rewrite <-!need_class. unfold problems.
  destruct (classify password) as [[[u l] d] s]. simpl flag_of.
  split.
  - intros Hn. repeat (apply app_nil in Hn as [? Hn]). repeat match goal with H : problem_if _ _ = [] |- _ => apply problem_if_nil in H end.
    bool_simpl. split_and!; try done; try lia.
    intros Hs Hl. rewrite (proj2 (Z.ltb_lt 0 p.(MinScore))), (proj2 (Z.ltb_lt 0 _)) in Hn by done.
    simpl in Hn. by apply problem_if_nil, Z.ltb_ge in Hn.
  - intros (Hmin & Hmax & -> & -> & -> & -> & Hs). simpl. rewrite (proj2 (Z.ltb_ge _ _)) by done. simpl.
    assert (Hm : (0 <? p.(MaxLength)) && (p.(MaxLength) <? Z.of_nat (String.length password)) = false).
    { destruct (Z.ltb_spec 0 p.(MaxLength)); [|done]. simpl. apply Z.ltb_ge. auto. }
    rewrite Hm. simpl. destruct (Z.ltb_spec 0 p.(MinScore)); [|done].
    destruct (Z.ltb_spec 0 (Z.of_nat (String.length password))); [|done]. simpl.
    rewrite (proj2 (Z.ltb_ge _ _)) by auto. done.
Qed.

(** The policy a validation used: within the bounds, and the stored one when no
    statement failed. *)
Definition policy_in_force (env : Env) (db : DB) (p : t) : Prop :=
  bounded p /\
  (no_faults env -> p = fallback (SettingsFacts.value_of db.(settings) PasswordSvc.settingKey)).

Definition verdict (p : t) (password : string) (inputs : list string) : result unit :=
  match problems p password inputs with
  | [] => Ok tt
  | ps => Err (ErrBadRequest ("password " +:+ String.concat "; " ps))
  end.

Lemma verdict_meets p password inputs : is_ok (verdict p password inputs) = true <-> meets p password inputs.
Proof. rewrite <-problems_nil. unfold verdict. by destruct (problems _ _ _). Qed.

Lemma wp_Validate password inputs env st :
  wp (Validate true password inputs) (fun r st' => st'.(st_db) = st.(st_db) /\
    exists p, policy_in_force env st.(st_db) p /\ r = verdict p password inputs) env st.
Proof.
  unfold Validate. apply wp_bind, wp_bind. eapply wp_mono; [|apply wp_Get_password_policy].
  intros r st' (Hdb & p & -> & Hb & Hp). apply wp_ret. rewrite (Normalize_id p) by done.
  rewrite <-Hdb in *. unfold verdict. destruct (problems p password inputs) eqn:E.
  - apply wp_ret. split; [done|]. exists p. rewrite E. split; [by split | done].
  - apply wp_throw. split; [done|]. exists p. rewrite E. split; [by split | done].
Qed.

(** The validator accepts a password exactly when it meets the policy in
    force, and otherwise reports every rule it breaks; the policy in force is
    within the bounds whatever is stored and whatever fails. *)
Theorem Validate_spec (password : string) (inputs : list string) (env : Env) (db : DB) :
  exists p, policy_in_force env db p /\
    run (Validate true password inputs) env db = (verdict p password inputs, db) /\
    (is_ok (verdict p password inputs) = true <-> meets p password inputs).
Proof.
  pose proof (run_wp (Validate true password inputs) (fun r db' => db' = db /\
    exists p, policy_in_force env db p /\ r = verdict p password inputs) env db
    (wp_Validate password inputs env (mkState db 0))) as Hr.
  destruct (run _ _ _) as [r db']. destruct Hr as (-> & p & Hp & ->). exists p.
  split; [done|]. split; [done | apply verdict_meets].
Qed.

(** ** New accounts *)

Context `{Platform} `{JwtLib} (s : UserSvc.Service).
Context (Hvalidator : s.(UserSvc.passwordValidator) = validator true).

Lemma wp_validatePassword password hints env st :
  wp (UserSvc.validatePassword s password hints) (fun r st' => st'.(st_db) = st.(st_db) /\
    (is_ok r = true -> exists p, policy_in_force env st.(st_db) p /\ meets p password hints)) env st.
Proof.
  unfold UserSvc.validatePassword. apply wp_ask. split; [done|]. rewrite Hvalidator. unfold validator, reader_of.
  destruct (wp_Validate password hints (mkEnv env.(env_now) env.(env_wall)
    (fun _ => env.(env_fail) st.(st_step)) env.(env_rand) env.(env_uuid)) (mkState st.(st_db) 0))
    as (_ & p & [Hb Hp] & ->).
  rewrite verdict_meets. intros Hm. exists p. split; [|done]. split; [done|].
  intros Hnf. apply Hp. intros n. apply Hnf.
Qed.

(** No account is registered with a password the policy in force refuses,
    whatever the clocks and the faults. *)
Theorem registered_password_meets_policy (input : UserSvc.RegisterInput) (env : Env) (db : DB) :
  is_ok (run (UserSvc.Register s input) env db).1 = true ->
  exists p, policy_in_force env db p /\
    meets p input.(UserSvc.Password)
      [to_lower (trim_space input.(UserSvc.Email)); UserSvc.derefStr input.(UserSvc.DisplayName)].
Proof.
  pose proof (run_wp (UserSvc.Register s input) (fun r _ => is_ok r = true ->
    exists p, policy_in_force env db p /\ meets p input.(UserSvc.Password)
      [to_lower (trim_space input.(UserSvc.Email)); UserSvc.derefStr input.(UserSvc.DisplayName)]) env db) as Hr.
  destruct (run _ _ _) as [r db']. apply Hr. clear Hr.
  unfold UserSvc.Register, UserSvc.check_new_account. apply wp_bind, wp_bind.
  eapply wp_mono; [|apply wp_validatePassword]. intros [[]|e] st' [Hdb Hm]; [|done].
  specialize (Hm eq_refl). apply (wp_mono _ _ _ (fun _ _ => True)); [|done].
  intros [hash|e'] st2 _; [unfold wp|]; intros _; exact Hm.
Qed.
End rules.

(** ** Samples *)

Definition ascii_unicode : Unicode := {|
  upper_past _ := false; lower_past _ := true; digit_past _ := false;
  punct_past _ := false; symbol_past _ := false; space_past _ := false
|}.

Definition sample_zxcvbn : Zxcvbn := fun password _ => if String.eqb password "password" then 0 else 4.

Definition strict : t := mk 10 64 true true true true 3.

Example strict_password :
  @problems ascii_unicode sample_zxcvbn strict "Correct-4-Horses" [] = [] /\
  @problems ascii_unicode sample_zxcvbn strict "password" []
  = ["must be at least 10 characters"; "must contain an uppercase letter"; "must contain a digit";
     "must contain a symbol"; "must reach a strength score of at least 3 (currently 0)"].
Proof. vm_compute. split; reflexivity. Qed.

(** Lengths are counted in bytes: four letters of two bytes each are eight
    "characters". *)
Example bytes_not_characters :
  let e_acute := String (Ascii.ascii_of_nat 195) (String (Ascii.ascii_of_nat 169) EmptyString) in
  let pwd := e_acute +:+ e_acute +:+ e_acute +:+ e_acute in
  List.length (runes 0 (bytes_of pwd)) = 4%nat /\
  @problems ascii_unicode sample_zxcvbn DefaultPolicy pwd [] = [].
Proof. vm_compute. split; reflexivity. Qed.

(** A normalized policy may be met by no password at all: one byte cannot have
    both cases. *)
Definition unsatisfiable : t := mk 1 1 true true false false 0.

Lemma unsatisfiable_policy :
  Normalize unsatisfiable = unsatisfiable /\
  forall password inputs, ~ @meets ascii_unicode sample_zxcvbn unsatisfiable password inputs.
Proof.
  split; [done|]. intros password inputs Hm. unfold meets in Hm. destruct Hm as (_ & Hmax & Hu & Hl & _).
  specialize (Hmax eq_refl). specialize (Hu eq_refl). specialize (Hl eq_refl). simpl in Hmax.
  destruct Hu as (r & Hr & Hcu), Hl as (r' & Hr' & Hcl).
  destruct password as [|c [|c' password]]; simpl in Hmax; [by apply not_elem_of_nil in Hr| |lia].
  assert (He : r = r').
  { unfold runes, bytes_of in Hr, Hr'. simpl in Hr, Hr'. destruct (_ <? 128); 
      apply list_elem_of_singleton in Hr, Hr'; congruence. }
  subst. by rewrite Hcu in Hcl.
Qed.

Definition policy_service : UserSvc.Service :=
  UserSvc.mkService UserFacts.sample_hasher UserFacts.sample_cfg None None 0%N None
    (@validator ascii_unicode sample_zxcvbn true) "" None true.

Lemma registered_password_meets_policy_witness :
  let H1 := sample_platform in
  let H2 := sample_jwt UserFacts.sample_claims 1000 in
  let input := UserSvc.mkRegisterInput "a@b" "long enough" None [] false in
  is_ok (run (UserSvc.Register policy_service input) UserFacts.sample_env empty_db).1 = true /\
  exists p, policy_in_force UserFacts.sample_env empty_db p /\
    @meets ascii_unicode sample_zxcvbn p "long enough" ["a@b"; ""].
Proof.
  intros H1 H2 input.
  assert (Hok : is_ok (run (UserSvc.Register policy_service input) UserFacts.sample_env empty_db).1 = true)
    by (vm_compute; reflexivity).
  split; [exact Hok|].
  pose proof (@registered_password_meets_policy ascii_unicode sample_zxcvbn H1 H2 policy_service eq_refl
    input UserFacts.sample_env empty_db Hok) as Hr. exact Hr.
Defined.
End PasswordFacts.
