(* ===== verification/Account.v ===== *)
(** * account/: an account in the hands of its owner

    Changes of the password and the email address, deletion with its grace
    period and its cancellation (account/service.go), and the gate that
    evaluates the account_action policies (account/policy.go). *)
From S2P Require Import Prelude.
From S2P Require Import Errors.
From S2P Require Import GoLib.
From S2P Require Import Model.
From S2P Require Import Platform.
From S2P Require Import Exec.
From S2P Require Import Crypto.
From S2P Require Import SessionSvc.
From S2P Require Import Policy.
From S2P Require Import ActionToken.
From S2P Require Import UserSvc.
From S2P Require Import MfaSvc.
From S2P Require Import OAuth.
From S2P Require Import Rbac.
From S2P Require Import Outbox.
From S2P Require Import Profile.
Local Open Scope Z_scope.

(** ** account/service.go *)
Module AccountSvc.

Record Service := mkService {
  users_svc : UserSvc.Service;
  mailer : option AnySender;
  emailChangeTokenTTL : Z;
  deletionGracePeriod : Z;
  withDB : bool
}.

Section service.
Context (s : Service).

Definition withTx {A} (fn : bool -> M A) : M A :=
  if s.(withDB) then transaction (fn true) else fn false.

(** [send] is the method both closures call, with or without [InTx]. *)
Definition sendMailInTx (tx : bool) (send : Sender -> M unit) : M unit :=
  match s.(mailer) with
  | None => ret tt
  | Some e => send (sender_for e tx)
  end.

(** A notice that is sent at best. *)
Definition notify (email : string) : M unit :=
  match s.(mailer) with
  | None => ret tt
  | Some e => ignore (e.(as_Sender).(SendPasswordChangedNotice) email)
  end.

Definition ChangePassword (userID : UUID) (currentPassword newPassword : string) : M unit :=
  u <- UserSvc.GetByID userID ;;
  UserSvc.ChangePassword s.(users_svc) userID currentPassword newPassword ;;;
  ignore (SessionSvc.RevokeAll userID None) ;;;
  notify u.(User.Email).

Definition SetInitialPassword (userID : UUID) (newPassword : string) : M unit :=
  u <- UserSvc.GetByID userID ;;
  UserSvc.SetInitialPassword s.(users_svc) userID newPassword ;;;
  notify u.(User.Email).

(** *** Email change *)

Definition email_change (newEmail hash : string) (expiresAt : Z) (u : User.t) : User.t :=
  u <| User.EmailChangeNew := Some newEmail |>
    <| User.EmailChangeToken := Some hash |>
    <| User.EmailChangeExpiresAt := Some expiresAt |>.

Definition RequestEmailChange (userID : UUID) (NewEmail : string) : M unit :=
  let newEmail := to_lower (trim_space NewEmail) in
  u <- UserSvc.GetByID userID ;;
  guard (negb (String.eqb newEmail u.(User.Email)))
    (ErrBadRequest "new email must differ from current email") ;;;
  let! (existing, err) := UserRepo.FindByEmail newEmail ;;
  match err, existing with
  | Some _, _ => throw (ErrInternal "failed to check email availability")
  | None, Some _ => throw (ErrConflict "email is already in use")
  | None, None =>
      let! (rawToken, hash) := or_fail GenerateOpaqueToken (ErrInternal "failed to generate token") ;;
      now <- wall_now ;;
      let expiresAt := time_add now s.(emailChangeTokenTTL) in
      withTx (fun tx =>
        or_fail (UserRepo.UpdateFields userID (email_change newEmail hash expiresAt))
          (ErrInternal "failed to record email change request") ;;;
        sendMailInTx tx (fun ts => ts.(SendEmailChangeConfirmation) newEmail rawToken))
  end.

(** The assignment of [email] and the columns of the request; the unique
    index on the address can refuse it. *)
Definition swapped (newAddr : string) (u : User.t) : User.t :=
  u <| User.Email := newAddr |> <| User.EmailVerified := true |>
    <| User.EmailChangeNew := None |> <| User.EmailChangeToken := None |>
    <| User.EmailChangeExpiresAt := None |>.

Definition swap_email (id : UUID) (newAddr : string) : M unit :=
  stmt (fun env db =>
    match db.(users) !! id with
    | None => Ok db
    | Some u =>
        if UserRepo.email_taken newAddr id db.(users) then Err UserRepo.duplicate_email
        else Ok (db <| users ::= insert id ((swapped newAddr u) <| User.UpdatedAt := env.(env_wall) |>) |>)
    end).

Definition revoke_sessions (tx : bool) (userID : UUID) : M Z :=
  map_err (SessionSvc.RevokeAllInTx tx userID None)
    (fun e => ErrInternal ("failed to revoke sessions: " +:+ error_string e)).

Definition ConfirmEmailChange (token : string) : M (string * string * UUID) :=
  let hash := HashToken token in
  let! (u, err) := UserRepo.FindByEmailChangeToken hash ;;
  match err, u with
  | Some _, _ => throw (ErrInternal "failed to validate token")
  | None, None => throw (ErrBadRequest "invalid or expired token")
  | None, Some u =>
      match u.(User.EmailChangeNew) with
      | None => throw (ErrBadRequest "invalid or expired token")
      | Some newAddr =>
          let! (existing, err) := UserRepo.FindByEmail newAddr ;;
          match err with
          | Some _ => throw (ErrInternal "failed to check email availability")
          | None =>
              guard (match existing with Some x => N.eqb x.(User.ID) u.(User.ID) | None => true end)
                (ErrConflict "email is already in use") ;;;
              let old := u.(User.Email) in
              withTx (fun tx =>
                or_fail (swap_email u.(User.ID) newAddr) (ErrInternal "failed to apply email change") ;;;
                revoke_sessions tx u.(User.ID) ;;;
                sendMailInTx tx (fun ts => ts.(SendEmailChangedNotice) old newAddr)) ;;;
              ret (old, newAddr, u.(User.ID))
          end
      end
  end.

(** *** Deletion *)

Definition scheduled (now purgeAfter : Z) (hash : string) (u : User.t) : User.t :=
  u <| User.DeletedAt := Some now |> <| User.DeletionToken := Some hash |>
    <| User.DeletionPurgeAfter := Some purgeAfter |> <| User.Active := false |>.

Definition RequestDeletion (userID : UUID) : M unit :=
  u <- UserSvc.GetByID userID ;;
  guard (negb (is_Some_b u.(User.DeletedAt))) (ErrConflict "account deletion already requested") ;;;
  let! (rawToken, hash) := or_fail GenerateOpaqueToken (ErrInternal "failed to generate cancellation token") ;;
  now <- wall_now ;;
  let purgeAfter := time_add now s.(deletionGracePeriod) in
  withTx (fun tx =>
    or_fail (UserRepo.UpdateFields userID (scheduled now purgeAfter hash))
      (ErrInternal "failed to schedule deletion") ;;;
    revoke_sessions tx userID ;;;
    sendMailInTx tx (fun ts => ts.(SendAccountDeletionEmail) u.(User.Email) rawToken)).

Definition restored (u : User.t) : User.t :=
  u <| User.DeletedAt := None |> <| User.DeletionToken := None |>
    <| User.DeletionPurgeAfter := None |> <| User.Active := true |>.

Definition CancelDeletion (token : string) : M unit :=
  let! (u, err) := UserRepo.FindByDeletionToken (HashToken token) ;;
  match err, u with
  | Some _, _ => throw (ErrInternal "failed to validate token")
  | None, None => throw (ErrBadRequest "invalid or expired token")
  | None, Some u =>
      or_fail (UserRepo.UpdateFields u.(User.ID) restored) (ErrInternal "failed to cancel deletion")
  end.
End service.
End AccountSvc.

(** ** account/policy.go *)
Module PolicyGate.

(** [Evaluate] answers with a denial and its reason; the evaluator may be
    nil, and so may the two status checkers. *)
Record t := mk {
  roles : RoleProvider;
  mfa : bool;
  passkeys : option (UUID -> Reader bool);
  policies : option (string -> list (string * any) -> Reader (bool * string))
}.

Definition or_zero {A} (zero : A) (m : M A) : M A :=
  r <- opt m ;; ret (default zero r).

(** [int(time.Since(t).Hours() / 24)] *)
Definition age_days (wall createdAt : Z) : Z := Z.quot (time_sub wall createdAt) (24 * hour).

(** The handler: an error is the answer of an aborted request. *)
Definition Middleware `{Platform} (g : t) (action : string) (userID : option UUID) (ip userAgent : string) : M unit :=
  match g.(policies), userID with
  | None, _ | _, None => ret tt
  | Some evaluate, Some userID =>
      u <- opt (UserSvc.GetByID userID) ;;
      match u with
      | None => ret tt
      | Some u =>
          names <- or_zero [] (ask (g.(roles).(GetUserRoleNames) userID)) ;;
          perms <- or_zero [] (ask (g.(roles).(GetUserPermissions) userID)) ;;
          hasMFA <- (if g.(mfa) then or_zero false (MfaSvc.HasMFA userID) else ret false) ;;
          hasPasskey <- match g.(passkeys) with
                        | Some check => or_zero false (ask (check userID))
                        | None => ret false
                        end ;;
          wall <- wall_now ;;
          let input := Inputs.BuildAccountActionInput wall u names perms action hasMFA hasPasskey
                         (age_days wall u.(User.CreatedAt)) ip userAgent in
          result <- opt (ask (evaluate "account_action" input)) ;;
          match result with
          | Some (true, reason) => throw (ErrForbidden reason)
          | _ => ret tt
          end
      end
  end.
End PolicyGate.

(** ** Properties *)
Module AccountFacts.
Import AccountSvc.

Section facts.
Context (s : Service) (issuer : string) (Render : string -> EmailData.t -> Reader (string * string)).
Context (Hmailer : s.(mailer) = Some (OutboxSender.sender issuer Render)) (Htx : s.(withDB) = true).

(** One message made from the template [name] with [data] was queued for [to]. *)
Definition mailed (to name : string) (data : EmailData.t) (env : Env) (db db' : DB) : Prop :=
  exists id m n dbr subject, db.(outbound_emails) !! id = None /\ db'.(outbound_emails) !! id = Some m /\
    m.(OutboundEmail.Recipient) = to /\ OutboxFacts.is_pending m = true /\
    Render name data env n dbr = Ok (subject, m.(OutboundEmail.BodyHTML)).

Lemma wp_enqueue to name data env st :
  wp (OutboxSender.enqueueRenderedInTx Render to name data) (fun r st' =>
    match r with
    | Err _ => True
    | Ok _ => mailed to name data env st.(st_db) st'.(st_db) /\ same_but_outbox st.(st_db) st'.(st_db)
    end) env st.
Proof.
  unfold OutboxSender.enqueueRenderedInTx, OutboxSender.render, OutboxRepo.EnqueueInTx, OutboxRepo.enqueueOutboundEmail.
  apply wp_bind, wp_map_err, wp_ask. destruct (Render name data _ _ _) as [[subject body]|e] eqn:Er; [|done].
  apply wp_bind, wp_read_only; [solve_preserves ltac:(fail)|]. intros [id|e] n; [|done].
  apply wp_bind, wp_wall_now, wp_create_in; [done|]. intros _ Hnone. split; [|by eexists].
  exists id. do 3 eexists. exists subject. split_and!; [exact Hnone | apply lookup_insert_eq | done | done | exact Er].
Qed.

(** All sessions of the user are closed. *)
Definition sessions_closed (userID : UUID) (db db' : DB) : Prop :=
  (forall id x, db'.(sessions) !! id = Some x -> x.(Session.UserID) = userID -> x.(Session.Revoked) = true) /\
  (forall id x, db.(sessions) !! id = Some x -> x.(Session.UserID) <> userID -> db'.(sessions) !! id = Some x).

Lemma wp_revoke_sessions tx userID env st :
  wp (revoke_sessions tx userID) (fun r st' =>
    match r with
    | Err _ => True
    | Ok _ => sessions_closed userID st.(st_db) st'.(st_db) /\
        exists t, st'.(st_db) = st.(st_db) <| sessions := t |>
    end) env st.
Proof.
  unfold revoke_sessions, SessionSvc.RevokeAllInTx. apply wp_map_err.
  assert (Hr : forall m, m = SessionSvc.RevokeAll userID None ->
    wp m (fun r st' => match r with
      | Err _ => True
      | Ok _ => sessions_closed userID st.(st_db) st'.(st_db) /\
          exists t, st'.(st_db) = st.(st_db) <| sessions := t |> end) env st).
  { intros m ->. eapply wp_mono; [|apply (SessionFacts.RevokeAll_spec userID None)].
    intros [n|e] st'; [|done]. intros (t & Hdb & _ & Hclosed & Hkept). split; [|by eexists].
    rewrite Hdb. split; simpl; [intros id x Hx Hu; by apply (Hclosed id x) | intros id x Hx Hu; apply Hkept; auto]. }
  destruct tx; eapply wp_mono; [|by apply Hr| |by apply Hr]; by intros [n|e] st'.
Qed.

(** *** Change of the address *)

(** The account whose change of address the token confirms at [wall]. *)
Definition confirms (token : string) (wall : Z) (u : User.t) (newAddr : string) : Prop :=
  u.(User.EmailChangeToken) = Some (HashToken token) /\ u.(User.EmailChangeNew) = Some newAddr /\
  exists e, u.(User.EmailChangeExpiresAt) = Some e /\ wall < e.

Definition no_other_token (token : string) (id : UUID) (t : gmap UUID User.t) : Prop :=
  forall id' u, t !! id' = Some u -> id' <> id -> u.(User.EmailChangeToken) <> Some (HashToken token).

Lemma live_token_true wall o x h :
  UserRepo.live_token wall o x h = true <-> o = Some h /\ exists e, x = Some e /\ wall < e.
Proof.
  unfold UserRepo.live_token, opt_str_eqb, time_after. split.
  - intros [H1 H2]%andb_true_iff. destruct o as [t|], x as [e|]; try done. apply String.eqb_eq in H1 as ->.
    apply Z.ltb_lt in H2. split; [done|]. by exists e.
  - intros (-> & e & -> & He). rewrite String.eqb_refl. by apply Z.ltb_lt.
Qed.

Lemma wp_FindByEmailChangeToken token env st (Q : result (option User.t * option error) -> State -> Prop) :
  (forall i e, Q (Ok (i, Some e)) (bump st)) ->
  Q (Ok (None, None)) (bump st) ->
  (forall id u, st.(st_db).(users) !! id = Some u ->
     UserRepo.live_token env.(env_wall) u.(User.EmailChangeToken) u.(User.EmailChangeExpiresAt) (HashToken token) = true ->
     Q (Ok (Some u, None)) (bump st)) ->
  wp (UserRepo.FindByEmailChangeToken (HashToken token)) Q env st.
Proof.
  intros He Hn Hs. unfold UserRepo.FindByEmailChangeToken, UserRepo.find_user. apply wp_find_row; intros _; [apply He|].
  destruct (first_row _ _ _) as [u|] eqn:E; [|exact Hn].
  apply first_row_Some in E as (id & Hid & Hp). by eapply Hs.
Qed.

Definition confirmed (token : string) (env : Env) (db : DB) (r : result (string * string * UUID)) (db' : DB) : Prop :=
  match r with
  | Err _ => db' = db
  | Ok (old, newAddr, id) => exists u,
      db.(users) !! id = Some u /\ u.(User.Email) = old /\ confirms token env.(env_wall) u newAddr /\
      db'.(users) = <[id := (swapped newAddr u) <| User.UpdatedAt := env.(env_wall) |>]> db.(users) /\
      UserFacts.users_wf db'.(users) /\
      sessions_closed id db db' /\
      mailed old "account_email_changed" (EmailData.mk issuer "" newAddr) env db db'
  end.

Lemma wp_swap_email id newAddr env st (Q : result unit -> State -> Prop) :
  (forall e, Q (Err e) (bump st)) ->
  (forall u, st.(st_db).(users) !! id = Some u ->
     UserRepo.email_taken newAddr id st.(st_db).(users) = false ->
     Q (Ok tt) (mkState (st.(st_db) <| users ::= insert id ((swapped newAddr u) <| User.UpdatedAt := env.(env_wall) |>) |>)
                  (S st.(st_step)))) ->
  (st.(st_db).(users) !! id = None -> Q (Ok tt) (bump st)) ->
  wp (swap_email id newAddr) Q env st.
Proof.
  intros He Ho Hn. unfold swap_email. apply wp_stmt; [intros e _; apply He|].
  intros db' _. destruct (users (st_db st) !! id) as [u|] eqn:E.
  - destruct (UserRepo.email_taken _ _ _) eqn:Et; [done|]. intros [= <-]. by apply Ho.
  - intros [= <-]. destruct st. by apply Hn.
Qed.

Lemma wp_ConfirmEmailChange token env st :
  UserFacts.users_wf st.(st_db).(users) ->
  wp (ConfirmEmailChange s token) (fun r st' => confirmed token env st.(st_db) r st'.(st_db)) env st.
Proof.
  intros Hwf. unfold ConfirmEmailChange. cbv zeta. apply wp_bind, wp_FindByEmailChangeToken; [done | done |].
  intros id u Hid Htok. apply live_token_true in Htok as [Htok Hexp].
  destruct (User.EmailChangeNew u) as [newAddr|] eqn:Hnew; [|done].
  unfold UserRepo.FindByEmail, UserRepo.find_user. apply wp_bind, wp_find_row; intros _; [done|].
  apply wp_bind, wp_guard; intros _; [|done]. destruct (Hwf _ _ Hid) as [Hkey _].
  apply wp_bind. unfold withTx. rewrite Htx. apply wp_transaction; [done|].
  apply wp_bind, wp_or_fail, wp_swap_email; [done| |by simpl; rewrite Hkey, Hid].
  rewrite Hkey. intros u' Hu' Hfree. simpl in Hu'. rewrite Hid in Hu'. injection Hu' as <-.
  apply wp_bind. eapply wp_mono; [|apply wp_revoke_sessions]. intros [n|e] st2; [|done].
  intros [Hclosed [t Ht]]. unfold sendMailInTx. rewrite Hmailer.
  cbn [sender_for OutboxSender.sender as_TxSender OutboxSender.methods SendEmailChangedNotice].
  eapply wp_mono; [|apply wp_enqueue]. intros [[]|e] st3; [|done]. intros [Hmail [o Ho]] _. apply wp_ret.
  exists u. split; [exact Hid|]. split; [done|]. split; [by split_and!|].
  rewrite Ht in Hmail, Ho. simpl in Hmail, Hclosed, Ho.
  assert (Hu : st3.(st_db).(users) = <[id := (swapped newAddr u) <| User.UpdatedAt := env.(env_wall) |>]> st.(st_db).(users))
    by by rewrite Ho.
  simpl st_db. split; [exact Hu|]. split; [rewrite Hu|].
  - pose proof (UserFacts.insert_wf _ ((swapped newAddr u) <| User.UpdatedAt := env.(env_wall) |>) Hwf) as Hins.
    change (User.ID ((swapped newAddr u) <| User.UpdatedAt := env_wall env |>)) with (User.ID u) in Hins.
    rewrite Hkey in Hins. by apply Hins.
  - split; [|exact Hmail]. rewrite Ht in Hclosed. destruct Hclosed as [H1 H2]. rewrite Ho. by split.
Qed.

(** C35: A change of the address is confirmed with the token that was sent to the
    new one, in one piece: it is refused and nothing changed, or the account
    that holds the live token has the requested address, verified, and no
    token; no two accounts share an address; every session of the account is
    closed and nobody else's; and the notice to the old address is queued.
    The token confirms nothing again. *)
Theorem ConfirmEmailChange_spec (token : string) (env env' : Env) (db : DB) :
  UserFacts.users_wf db.(users) ->
  let '(r, db') := run (ConfirmEmailChange s token) env db in
  confirmed token env db r db' /\
  (forall id, (exists old newAddr, r = Ok (old, newAddr, id)) -> no_other_token token id db.(users) ->
     is_ok (run (ConfirmEmailChange s token) env' db').1 = false).
Proof.
  intros Hwf.
  pose proof (run_wp _ (confirmed token env db) env db (wp_ConfirmEmailChange token env (mkState db 0) Hwf)) as H1.
  destruct (run (ConfirmEmailChange s token) env db) as [r db']. split; [exact H1|].
  intros id (old & newAddr & ->) Hother. destruct H1 as (u & Hid & _ & _ & Hu & Hwf' & _).
  pose proof (run_wp _ (confirmed token env' db') env' db' (wp_ConfirmEmailChange token env' (mkState db' 0) Hwf')) as H2.
  destruct (run (ConfirmEmailChange s token) env' db') as [[[[old2 new2] id2]|e] db2]; [exfalso|done].
  destruct H2 as (u2 & Hid2 & _ & (Htok & _) & _). rewrite Hu in Hid2.
  apply lookup_insert_Some in Hid2 as [[<- <-]|[Hne Hid2]]; [done|].
  by apply (Hother id2 u2 Hid2 (not_eq_sym Hne)).
Qed.

(** *** Deletion *)

(** The account is scheduled for deletion, out of use, with its sessions
    closed and the link that cancels the deletion queued for its address. *)
Definition deletion_requested (id : UUID) (u : User.t) (raw : string) (env : Env) (db db' : DB) : Prop :=
  db.(users) !! id = Some u /\ u.(User.DeletedAt) = None /\
  db'.(users) = <[id := (scheduled env.(env_wall) (env.(env_wall) + s.(deletionGracePeriod)) (HashToken raw) u)
                          <| User.UpdatedAt := env.(env_wall) |>]> db.(users) /\
  sessions_closed id db db' /\
  mailed u.(User.Email) "account_deletion" (EmailData.mk issuer raw "") env db db'.

Lemma wp_RequestDeletion id env st :
  wp (RequestDeletion s id) (fun r st' =>
    match r with
    | Err _ => st'.(st_db) = st.(st_db)
    | Ok _ => exists u raw, deletion_requested id u raw env st.(st_db) st'.(st_db)
    end) env st.
Proof.
  unfold RequestDeletion. apply wp_bind, ProfileFacts.wp_user_GetByID; [done|]. intros u Hid.
  apply wp_bind, wp_guard; intros Hdel; [|done]. apply wp_bind, wp_or_fail, wp_GenerateOpaqueToken; [done|].
  intros raw _ _. apply wp_bind, wp_wall_now. cbv zeta. unfold withTx. rewrite Htx. apply wp_transaction; [done|].
  apply wp_bind, wp_or_fail. unfold UserRepo.UpdateFields. apply wp_update_table; [done|]. intros _.
  apply wp_bind. eapply wp_mono; [|apply wp_revoke_sessions]. intros [n|e] st2; [|done].
  intros [Hclosed [t Ht]]. unfold sendMailInTx. rewrite Hmailer.
  cbn [sender_for OutboxSender.sender as_TxSender OutboxSender.methods SendAccountDeletionEmail].
  eapply wp_mono; [|apply wp_enqueue]. intros [[]|e] st3; [|done]. intros [Hmail [o Ho]] _.
  rewrite Ht in Hmail, Ho. simpl in Hmail, Hclosed, Ho. exists u, raw. unfold deletion_requested. simpl st_db.
  split; [exact Hid|]. split; [by destruct (User.DeletedAt u)|]. split; [|split; [|exact Hmail]].
  - rewrite Ho. simpl. apply map_eq. intros k. destruct (decide (k = id)) as [->|Hne].
    + rewrite lookup_alter_eq, lookup_insert_eq, Hid. done.
    + by rewrite lookup_alter_ne, lookup_insert_ne.
  - rewrite Ht in Hclosed. destruct Hclosed as [H1 H2]. rewrite Ho. by split.
Qed.

(** The account was in use and no deletion was pending. *)
Definition in_use (u : User.t) : Prop :=
  u.(User.Active) = true /\ u.(User.DeletedAt) = None /\ u.(User.DeletionToken) = None /\
  u.(User.DeletionPurgeAfter) = None.

Definition unused_token (raw : string) (id : UUID) (t : gmap UUID User.t) : Prop :=
  forall id' u, t !! id' = Some u -> id' <> id -> u.(User.DeletionToken) <> Some (HashToken raw).

Lemma cancel_restores id u raw env env' db db' :
  UserFacts.users_wf db.(users) -> deletion_requested id u raw env db db' -> in_use u -> unused_token raw id db.(users) ->
  no_faults env' -> env'.(env_wall) < env.(env_wall) + s.(deletionGracePeriod) ->
  run (CancelDeletion raw) env' db'
  = (Ok tt, db' <| users := <[id := u <| User.UpdatedAt := env'.(env_wall) |>]> db.(users) |>).
Proof.
  intros Hwf (Hid & _ & Hu & _) (Ha & Hd & Ht & Hp) Hun Hnf Hlt. destruct (Hwf _ _ Hid) as [Hkey _].
  unfold run. set (goal := (Ok tt, _)).
  enough (wp (CancelDeletion raw) (fun r st' => (r, st'.(st_db)) = goal) env' (mkState db' 0)) as Hw.
  { unfold wp in Hw. by destruct (CancelDeletion raw env' (mkState db' 0)) as [r st']. }
  unfold CancelDeletion, UserRepo.FindByDeletionToken, UserRepo.find_user.
  apply wp_bind, wp_find_row_nf; [done|]. simpl st_db.
  destruct (first_row _ _ _) as [x|] eqn:E.
  - apply first_row_Some in E as (k & Hk & Hlive). apply live_token_true in Hlive as [Htok _].
    rewrite Hu in Hk. apply lookup_insert_Some in Hk as [[<- <-]|[Hne Hk]]; [|by destruct (Hun _ _ Hk (not_eq_sym Hne))].
    apply wp_or_fail. unfold UserRepo.UpdateFields. apply wp_update_table; [by intros e Hf; rewrite Hnf in Hf|].
    intros _. unfold goal. simpl st_db. f_equal.
    match goal with |- context [alter _ ?k] => change k with (User.ID u) end. rewrite Hkey.
    assert (He : alter (fun w => (restored w) <| User.UpdatedAt := env'.(env_wall) |>) id db'.(users)
      = <[id := u <| User.UpdatedAt := env'.(env_wall) |>]> db.(users)).
    { rewrite Hu, alter_insert, decide_True by done. f_equal. destruct u; cbn in *; subst. done. }
    rewrite <-He. reflexivity.
  - rewrite first_row_None in E. specialize (E id). rewrite Hu in E. specialize (E _ (lookup_insert_eq _ _ _)).
    exfalso. apply Bool.not_true_iff_false in E. apply E, live_token_true. simpl. split; [done|]. eexists. split; [done|]. lia.
Qed.

(** A deletion can be taken back within its grace period.  A request that is
    refused changes nothing; one that goes through takes the account out of
    use, closes its sessions and queues the link for its address, and the
    link, followed before the period ends, gives back the account as it was:
    every column but the time of the last update. *)
Theorem deletion_reversible (id : UUID) (env env' : Env) (db : DB) :
  UserFacts.users_wf db.(users) ->
  let '(r, db') := run (RequestDeletion s id) env db in
  match r with
  | Err _ => db' = db
  | Ok _ => exists u raw, deletion_requested id u raw env db db' /\
      (in_use u -> unused_token raw id db.(users) -> no_faults env' ->
       env'.(env_wall) < env.(env_wall) + s.(deletionGracePeriod) ->
       run (CancelDeletion raw) env' db'
       = (Ok tt, db' <| users := <[id := u <| User.UpdatedAt := env'.(env_wall) |>]> db.(users) |>))
  end.
Proof.
  intros Hwf. apply run_wp. eapply wp_mono; [|apply wp_RequestDeletion].
  intros [[]|e] st'; [|done]. simpl st_db. intros (u & raw & Hreq). exists u, raw. split; [exact Hreq|].
  intros Hu Hun Hnf Hlt. by apply (cancel_restores id u raw env).
Qed.

End facts.

(** *** The gate *)

Lemma wp_or_zero {A} (z : A) (m : M A) `{!ReadOnly m} (Q : result A -> State -> Prop) env st :
  (forall a n, Q (Ok a) (mkState st.(st_db) n)) -> wp (PolicyGate.or_zero z m) Q env st.
Proof.
  intros HQ. unfold PolicyGate.or_zero. apply wp_bind, wp_opt, wp_read_only; [done|].
  intros [a|e] n; apply wp_ret, HQ.
Qed.

Lemma wp_status (on : bool) (m : M bool) `{!ReadOnly m} (Q : result bool -> State -> Prop) env st :
  (forall b n, Q (Ok b) (mkState st.(st_db) n)) ->
  wp (if on then PolicyGate.or_zero false m else ret false) Q env st.
Proof. intros HQ. destruct on; [by apply wp_or_zero|]. apply wp_ret. destruct st. apply HQ. Qed.

(** The policies deny the action of an account that exists. *)
Definition denied_by (evaluate : string -> list (string * any) -> Reader (bool * string))
    (id : UUID) (env : Env) (db : DB) (e : error) : Prop :=
  exists u input n reason, db.(users) !! id = Some u /\ evaluate "account_action" input env n db = Ok (true, reason) /\ e = ErrForbidden reason.

(** The gate refuses a request only on the policies' word, for an account
    that exists, with the reason they give; whatever fails lets it pass, and
    nothing is written. *)
Theorem gate_spec `{Platform} (g : PolicyGate.t) (action : string) (userID : option UUID) (ip ua : string)
    (env : Env) (db : DB) :
  let '(r, db') := run (PolicyGate.Middleware g action userID ip ua) env db in
  db' = db /\ match r with
  | Ok _ => True
  | Err e => exists evaluate id, g.(PolicyGate.policies) = Some evaluate /\ userID = Some id /\ denied_by evaluate id env db e
  end.
Proof.
  apply run_wp. unfold PolicyGate.Middleware. destruct (PolicyGate.policies g) as [evaluate|] eqn:Ep; [|done].
  destruct userID as [id|]; [|done].
  apply wp_bind, wp_opt, ProfileFacts.wp_user_GetByID; [done|]. intros u Hu.
  apply wp_bind, wp_or_zero; [apply _|]. intros names n1. apply wp_bind, wp_or_zero; [apply _|]. intros perms n2.
  apply wp_bind, wp_status; [unfold MfaSvc.HasMFA; solve_preserves ltac:(apply _)|]. intros hasMFA n3.
  apply wp_bind. apply (wp_mono _ _ _ (fun r st' => is_ok r = true /\ st'.(st_db) = db)).
  - intros [hasPasskey|e] st' [Hok Hdb]; [|done].
    apply wp_bind, wp_wall_now, wp_bind, wp_opt, wp_ask.
    destruct (evaluate _ _ _ _ _) as [[[] reason]|e] eqn:Ev; [|by apply wp_ret..].
    apply wp_throw. split; [exact Hdb|]. rewrite Hdb in Ev. exists evaluate, id. split; [done|]. split; [done|].
    exists u. do 2 eexists. exists reason. by split_and!.
  - destruct (PolicyGate.passkeys g); [by apply wp_or_zero | by apply wp_ret].
Qed.

(** ** Samples *)

Definition sample_account : Service :=
  mkService UserFacts.sample_service (Some (OutboxSender.sender "iss" OutboxFacts.sample_render)) hour (10 * hour) true.

Definition moving : User.t :=
  UserFacts.sample_user <| User.EmailChangeNew := Some "n@b" |>
    <| User.EmailChangeToken := Some (HashToken "tok") |> <| User.EmailChangeExpiresAt := Some hour |>.

Definition moving_db : DB := empty_db <| users := {[ 5%N := moving ]} |>.

Lemma moving_wf : UserFacts.users_wf moving_db.(users).
Proof.
  intros id u. change (users moving_db) with ({[5%N := moving]} : gmap UUID User.t).
  intros [<- <-]%lookup_singleton_Some. split; [done|].
  by intros id' u' [<- <-]%lookup_singleton_Some.
Qed.

Lemma ConfirmEmailChange_spec_witness :
  let '(r, db') := run (ConfirmEmailChange sample_account "tok") UserFacts.sample_env moving_db in
  is_ok r = true /\ confirmed "iss" OutboxFacts.sample_render "tok" UserFacts.sample_env moving_db r db' /\
  is_ok (run (ConfirmEmailChange sample_account "tok") UserFacts.sample_env db').1 = false.
Proof.
  pose proof (ConfirmEmailChange_spec sample_account "iss" OutboxFacts.sample_render eq_refl eq_refl "tok"
    UserFacts.sample_env UserFacts.sample_env moving_db moving_wf) as Hs.
  assert (Hr : (run (ConfirmEmailChange sample_account "tok") UserFacts.sample_env moving_db).1
    = Ok ("a@b", "n@b", 5%N)) by (vm_compute; reflexivity).
  destruct (run _ _ moving_db) as [r db']. cbn [fst] in Hr. subst r. destruct Hs as [Hc Hs].
  split; [reflexivity|]. split; [exact Hc|]. apply (Hs 5%N); [by do 2 eexists|].
  intros id u. change (users moving_db) with ({[5%N := moving]} : gmap UUID User.t).
  intros [<- _]%lookup_singleton_Some Hne. destruct (Hne eq_refl).
Defined.

Lemma deletion_reversible_witness :
  let db := UserFacts.sample_users in
  let '(r, db') := run (RequestDeletion sample_account 5%N) UserFacts.sample_env db in
  is_ok r = true /\
  exists raw, run (CancelDeletion raw) UserFacts.sample_env db'
    = (Ok tt, db' <| users := <[5%N := UserFacts.sample_user <| User.UpdatedAt := 10 * second |>]> db.(users) |>).
Proof.
  intros db.
  pose proof (deletion_reversible sample_account "iss" OutboxFacts.sample_render eq_refl eq_refl 5%N
    UserFacts.sample_env UserFacts.sample_env db UserFacts.sample_users_wf) as Hs.
  assert (Hok : is_ok (run (RequestDeletion sample_account 5%N) UserFacts.sample_env db).1 = true)
    by (vm_compute; reflexivity).
  destruct (run _ _ db) as [r db']. destruct r as [[]|e]; [|done]. split; [done|].
  destruct Hs as (u & raw & [Hid Hrest] & Hcancel). exists raw.
  assert (Hu : u = UserFacts.sample_user).
  { change (users db) with ({[5%N := UserFacts.sample_user]} : gmap UUID User.t) in Hid.
    rewrite lookup_singleton_eq in Hid. by injection Hid. }
  subst u. apply Hcancel; [repeat split | | intros n; reflexivity | reflexivity].
  intros id' u'. change (users db) with ({[5%N := UserFacts.sample_user]} : gmap UUID User.t).
  intros [<- _]%lookup_singleton_Some Hne. destruct (Hne eq_refl).
Defined.

(** An account that an administrator deactivated comes back when its owner
    requests its deletion, with a token that is still live, and follows the
    link that cancels it: neither step looks at who took it out of use. *)
Definition banned_db : DB := empty_db <| users := {[ 5%N := UserFacts.sample_user <| User.Active := false |> ]} |>.

Definition is_active (db : DB) : option bool := User.Active <$> db.(users) !! 5%N.

Definition raw_token : string := base64_raw_url (map (fun i => Z.of_nat (1 + i) mod 256) (seq 0 32)).

Example deactivated_account_comes_back :
  let '(r, db1) := run (RequestDeletion sample_account 5%N) UserFacts.sample_env banned_db in
  let '(r2, db2) := run (CancelDeletion raw_token) UserFacts.sample_env db1 in
  is_active banned_db = Some false /\ r = Ok tt /\ r2 = Ok tt /\ is_active db2 = Some true.
Proof. vm_compute. done. Qed.
End AccountFacts.
