(* ===== verification/Passkey.v ===== *)
(** * passkey/: WebAuthn credentials

    The statements on [passkeys] and [passkey_challenges]
    (passkey/repository.go) and the ceremonies over them (passkey/service.go,
    passkey/webauthn_user.go).  github.com/go-webauthn/webauthn is a
    parameter: it makes and checks the ceremonies, the service keeps their
    state between the two requests of each. *)
From S2P Require Import Prelude.
From S2P Require Import Errors.
From S2P Require Import GoLib.
From S2P Require Import GoNet.
From S2P Require Import Model.
From S2P Require Import Platform.
From S2P Require Import Exec.
From S2P Require Import GoEnc.
From S2P Require Import ActionToken.
From S2P Require Import UserSvc.
From S2P Require Import Profile.
Local Open Scope Z_scope.

(** ** passkey/repository.go *)
Module PasskeyRepo.

(** The credential is unique and belongs to a user. *)
Definition Create (p : Passkey.t) : M Passkey.t :=
  id <- BeforeCreate p.(Passkey.ID) ;;
  wall <- wall_now ;;
  let row := p <| Passkey.ID := id |>
               <| Passkey.CreatedAt ::= auto_time wall |>
               <| Passkey.UpdatedAt ::= auto_time wall |> in
  stmt (fun _ db =>
    if is_Some_b (first_row N.leb (fun q => bool_decide (q.(Passkey.CredentialID) = row.(Passkey.CredentialID))) db.(passkeys))
       || is_Some_b (db.(passkeys) !! id)
    then Err (EDriver "duplicate key value violates unique constraint")
    else if is_Some_b (db.(users) !! row.(Passkey.UserID)) then Ok (db <| passkeys ::= insert id row |>)
    else Err (EDriver "violates foreign key constraint")) ;;;
  ret row.

Definition FindByCredentialID (credentialID : list Z) : M (option Passkey.t * option error) :=
  find_row Passkey.zero (fun _ db =>
    first_row N.leb (fun p => bool_decide (p.(Passkey.CredentialID) = credentialID)) db.(passkeys)).

Definition FindByID (id : UUID) : M (option Passkey.t * option error) :=
  find_row Passkey.zero (fun _ db => db.(passkeys) !! id).

Definition newest (a b : Passkey.t) : Prop := b.(Passkey.CreatedAt) <= a.(Passkey.CreatedAt).
#[export] Instance newest_dec : RelDecision newest.
Proof. intros a b. unfold newest. apply _. Defined.

Definition of_user (userID : UUID) (p : Passkey.t) : bool := N.eqb p.(Passkey.UserID) userID.

Definition ListByUser (userID : UUID) : M (list Passkey.t) :=
  query (fun _ db => merge_sort newest (select_rows (of_user userID) db.(passkeys))).

(** [RowsAffected == 0] of a statement on the row [id] of its owner. *)
Definition affecting (id userID : UUID) (m : M unit) : M unit :=
  db <- get_db ;;
  m ;;;
  guard (match db.(passkeys) !! id with Some p => of_user userID p | None => false end)
    (EDriver "record not found").

Definition UpdateName (id userID : UUID) (name : string) : M unit :=
  affecting id userID (update_table (upd passkeys) (fun env =>
    alter (fun p => if of_user userID p
                    then p <| Passkey.Name := name |> <| Passkey.UpdatedAt := env.(env_wall) |> else p) id)).

Definition UpdateSignCount (id : UUID) (signCount lastUsedUnix : Z) : M unit :=
  update_table (upd passkeys) (fun env =>
    alter (fun p => p <| Passkey.SignCount := signCount |>
                      <| Passkey.LastUsedAt := Some (lastUsedUnix * second) |>
                      <| Passkey.UpdatedAt := env.(env_wall) |>) id).

Definition SetCloneWarning (id : UUID) (value : bool) : M unit :=
  update_table (upd passkeys) (fun env =>
    alter (fun p => p <| Passkey.CloneWarning := value |> <| Passkey.UpdatedAt := env.(env_wall) |>) id).

Definition Delete (id userID : UUID) : M unit :=
  affecting id userID (stmt (fun _ db =>
    match db.(passkeys) !! id with
    | Some p => if of_user userID p then Ok (db <| passkeys ::= delete id |>) else Ok db
    | None => Ok db
    end)).

Definition CreateChallenge (c : PasskeyChallenge.t) : M unit :=
  wall <- wall_now ;;
  create_in passkey_challenges (upd passkey_challenges) c.(PasskeyChallenge.ID)
    (c <| PasskeyChallenge.CreatedAt ::= auto_time wall |>).

Definition FindChallenge (id : UUID) : M (option PasskeyChallenge.t * option error) :=
  find_row PasskeyChallenge.zero (fun _ db => db.(passkey_challenges) !! id).

Definition DeleteChallenge (id : UUID) : M unit :=
  update_table (upd passkey_challenges) (fun _ => delete id).

Definition DeleteExpiredChallenges : M Z :=
  db <- get_db ;;
  wall <- wall_now ;;
  update_table (upd passkey_challenges) (fun _ =>
    filter (fun kv => PasskeyChallenge.IsExpired wall kv.2 = false)) ;;;
  ret (count_rows (PasskeyChallenge.IsExpired wall) db.(passkey_challenges)).

End PasskeyRepo.

(** ** The library *)

Module Credential.
(** [webauthn.Credential]; [Flags] is the protocol's byte. *)
Record t := mk {
  ID : list Z;
  PublicKey : list Z;
  AttestationType : string;
  Transport : list string;
  Flags : Z;
  AAGUID : list Z;
  SignCount : Z;
  CloneWarning : bool
}.
End Credential.

(** passkey/webauthn_user.go: what the library sees of a user. *)
Module webauthnUser.
Record t := mk {
  WebAuthnID : list Z;
  WebAuthnName : string;
  WebAuthnDisplayName : string;
  WebAuthnCredentials : list Credential.t
}.

(** A UUID is its sixteen bytes. *)
Fixpoint be_bytes (n : nat) (u : N) : list Z :=
  match n with
  | O => []
  | S n => be_bytes n (u / 256)%N ++ [Z.of_N (u mod 256)]
  end.

Definition uuid_bytes (u : UUID) : list Z := be_bytes 16 u.

(** [uuid.FromBytes] *)
Definition uuid_FromBytes (b : list Z) : option UUID :=
  if Nat.eqb (List.length b) 16 then Some (foldl (fun acc x => acc * 256 + Z.to_N x)%N 0%N b) else None.

Definition credential (p : Passkey.t) : Credential.t :=
  Credential.mk p.(Passkey.CredentialID) p.(Passkey.PublicKey) p.(Passkey.AttestationType)
    p.(Passkey.Transports) p.(Passkey.Flags) p.(Passkey.AAGUID) p.(Passkey.SignCount) false.

Definition newWebAuthnUser (u : User.t) (passkeys : list Passkey.t) : t :=
  mk (uuid_bytes u.(User.ID)) u.(User.Email)
    (match u.(User.DisplayName) with
     | Some d => if String.eqb d "" then u.(User.Email) else d
     | None => u.(User.Email)
     end)
    (map credential passkeys).
End webauthnUser.

(** The ceremonies.  [wa_Discover] is what a usernameless assertion names: the
    raw credential ID and the user handle; [wa_Validate] checks it once its
    user is known.  [gob] is the encoding of a ceremony's state. *)
Class WebAuthn := {
  SessionData : Type;
  CreationOptions : Type;
  AssertionOptions : Type;
  gob_Encode : SessionData -> option (list Z);
  gob_Decode : list Z -> option SessionData;
  wa_BeginRegistration : webauthnUser.t -> list (list Z) -> Reader (CreationOptions * SessionData);
  wa_FinishRegistration : webauthnUser.t -> SessionData -> string -> Reader Credential.t;
  wa_BeginDiscoverableLogin : Reader (AssertionOptions * SessionData);
  wa_Discover : SessionData -> string -> result (list Z * list Z);
  wa_Validate : webauthnUser.t -> SessionData -> string -> Reader Credential.t;
  wa_BeginLogin : webauthnUser.t -> Reader (AssertionOptions * SessionData);
  wa_FinishLogin : webauthnUser.t -> SessionData -> string -> Reader Credential.t;
  flag_UserVerified : Z -> bool
}.

(** Documented: an assertion is checked against the credential of the user it
    names, and refused when the user has no such credential. *)
Class WebAuthnLaws `{WebAuthn} : Prop := {
  gob_round_trip : forall d b, gob_Encode d = Some b -> gob_Decode b = Some d;
  Validate_known : forall u d resp raw handle env n db c,
    wa_Discover d resp = Ok (raw, handle) -> wa_Validate u d resp env n db = Ok c ->
    c.(Credential.ID) = raw /\ exists k, k ∈ u.(webauthnUser.WebAuthnCredentials) /\ k.(Credential.ID) = raw;
  FinishLogin_known : forall u d resp env n db c,
    wa_FinishLogin u d resp env n db = Ok c ->
    exists k, k ∈ u.(webauthnUser.WebAuthnCredentials) /\ k.(Credential.ID) = c.(Credential.ID)
}.

(** ** package time: the date of an instant in the local zone *)

(** The civil date of a day counted from January 1, 1970. *)
Definition civil (days : Z) : Z * Z * Z :=
  let z := days + 719468 in
  let era := z / 146097 in
  let doe := z mod 146097 in
  let yoe := (doe - doe / 1460 + doe / 36524 - doe / 146096) / 365 in
  let doy := doe - (365 * yoe + yoe / 4 - yoe / 100) in
  let mp := (5 * doy + 2) / 153 in
  let d := doy - (153 * mp + 2) / 5 + 1 in
  let m := if mp <? 10 then mp + 3 else mp - 9 in
  ((yoe + era * 400) + (if m <=? 2 then 1 else 0), m, d).

Fixpoint zero_padded (width : nat) (s : string) : string :=
  if Nat.leb width (String.length s) then s
  else match width with O => s | S w => "0" +:+ zero_padded w s end.

(** [t.Format("2006-01-02")] *)
Definition format_date `{Platform} (t : Z) : string :=
  let '(y, m, d) := civil ((time_unix t + local_offset t) / 86400) in
  zero_padded 4 (dec y) +:+ "-" +:+ zero_padded 2 (dec m) +:+ "-" +:+ zero_padded 2 (dec d).

Example civil_samples :
  civil 0 = (1970, 1, 1) /\ civil 19782 = (2024, 2, 29) /\ civil 19783 = (2024, 3, 1) /\
  civil (-1) = (1969, 12, 31) /\ zero_padded 2 "7" = "07" /\ zero_padded 2 "11" = "11".
Proof. vm_compute. by split_and!. Qed.

(** ** passkey/service.go *)
Module PasskeySvc.

Definition PurposeRegistration : string := "registration".
Definition PurposeLogin : string := "login".
Definition PurposeReauth : string := "reauth".

Record FinishRegistrationInput := mkFinishRegistrationInput {
  reg_ChallengeID : UUID;
  reg_Name : string;
  reg_Response : string
}.

Record FinishLoginInput := mkFinishLoginInput {
  login_ChallengeID : UUID;
  login_Response : string
}.

Section service.
Context `{Platform} `{WebAuthn} (challengeTTL : Z).

(** An error of [uuid.NewV7] is dropped, which leaves the nil UUID. *)
Definition storeChallenge (userID : option UUID) (purpose : string) (data : SessionData) : M UUID :=
  match gob_Encode data with
  | None => throw (ErrInternal "failed to encode session data")
  | Some buf =>
      id <- opt uuid_newV7 ;;
      let id := default uuid_nil id in
      wall <- wall_now ;;
      or_fail (PasskeyRepo.CreateChallenge
                 (PasskeyChallenge.mk id userID purpose buf (time_add wall challengeTTL) time_zero))
        (ErrInternal "failed to persist challenge") ;;;
      ret id
  end.

(** The checks of a challenge that was found. *)
Definition check_challenge (wall : Z) (c : PasskeyChallenge.t) (expectedUserID : option UUID)
    (expectedPurpose : string) : result SessionData :=
  if PasskeyChallenge.IsExpired wall c then Err (ErrBadRequest "challenge expired")
  else if negb (String.eqb c.(PasskeyChallenge.Purpose) expectedPurpose)
  then Err (ErrBadRequest "challenge purpose mismatch")
  else if match expectedUserID with
          | Some e => match c.(PasskeyChallenge.UserID) with Some u => negb (N.eqb u e) | None => true end
          | None => false
          end
  then Err (ErrBadRequest "challenge does not belong to user")
  else match gob_Decode c.(PasskeyChallenge.SessionData) with
       | Some d => Ok d
       | None => Err (ErrInternal "failed to decode session data")
       end.

(** The challenge goes whatever the checks say; the error of the deletion is dropped. *)
Definition popChallenge (id : UUID) (expectedUserID : option UUID) (expectedPurpose : string) : M SessionData :=
  let! (c, err) := PasskeyRepo.FindChallenge id ;;
  match err, c with
  | Some _, _ => throw (ErrInternal "failed to fetch challenge")
  | None, None => throw (ErrBadRequest "invalid challenge")
  | None, Some c =>
      wall <- wall_now ;;
      ignore (PasskeyRepo.DeleteChallenge id) ;;;
      of_result (check_challenge wall c expectedUserID expectedPurpose)
  end.

(** *** Registration *)

Definition BeginRegistration (userID : UUID) : M (UUID * CreationOptions) :=
  u <- UserSvc.GetByID userID ;;
  existing <- or_fail (PasskeyRepo.ListByUser userID) (ErrInternal "failed to list existing passkeys") ;;
  let wu := webauthnUser.newWebAuthnUser u existing in
  let! (creation, sessionData) :=
    map_err (ask (wa_BeginRegistration wu (map Passkey.CredentialID existing)))
      (fun e => ErrBadRequest ("failed to start passkey registration: " +:+ error_string e)) ;;
  challengeID <- storeChallenge (Some userID) PurposeRegistration sessionData ;;
  ret (challengeID, creation).

(** The row of a verified credential. *)
Definition new_passkey (userID : UUID) (name : string) (c : Credential.t) : Passkey.t :=
  Passkey.zero
    <| Passkey.UserID := userID |>
    <| Passkey.CredentialID := c.(Credential.ID) |>
    <| Passkey.PublicKey := c.(Credential.PublicKey) |>
    <| Passkey.AttestationType := c.(Credential.AttestationType) |>
    <| Passkey.AAGUID := c.(Credential.AAGUID) |>
    <| Passkey.SignCount := c.(Credential.SignCount) |>
    <| Passkey.Transports := c.(Credential.Transport) |>
    <| Passkey.Flags := c.(Credential.Flags) mod 256 |>
    <| Passkey.Name := name |>.

Definition FinishRegistration (userID : UUID) (input : FinishRegistrationInput) : M Passkey.t :=
  sessionData <- popChallenge input.(reg_ChallengeID) (Some userID) PurposeRegistration ;;
  u <- UserSvc.GetByID userID ;;
  existing <- or_fail (PasskeyRepo.ListByUser userID) (ErrInternal "failed to list existing passkeys") ;;
  let wu := webauthnUser.newWebAuthnUser u existing in
  credential <- map_err (ask (wa_FinishRegistration wu sessionData input.(reg_Response)))
    (fun e => ErrBadRequest ("passkey registration failed: " +:+ error_string e)) ;;
  wall <- wall_now ;;
  let name := if String.eqb input.(reg_Name) "" then "Passkey " +:+ format_date wall else input.(reg_Name) in
  or_fail (PasskeyRepo.Create (new_passkey userID name credential)) (ErrInternal "failed to save passkey").

(** *** Sign-in *)

Definition BeginLogin : M (UUID * AssertionOptions) :=
  let! (assertion, sessionData) :=
    map_err (ask wa_BeginDiscoverableLogin)
      (fun e => ErrInternal ("failed to start passkey login: " +:+ error_string e)) ;;
  challengeID <- storeChallenge None PurposeLogin sessionData ;;
  ret (challengeID, assertion).

(** The callback the library looks the user up with: the user, its passkeys,
    and the one the assertion was made with. *)
Definition login_handler (rawID userHandle : list Z) : M (User.t * list Passkey.t * option Passkey.t) :=
  match webauthnUser.uuid_FromBytes userHandle with
  | None => throw (EOther "invalid user handle")
  | Some userID =>
      u <- UserSvc.GetByID userID ;;
      passkeys <- PasskeyRepo.ListByUser userID ;;
      ret (u, passkeys, find (fun p => bool_decide (p.(Passkey.CredentialID) = rawID)) passkeys)
  end.

(** [FinishDiscoverableLogin], with the callback's captured variables. *)
Definition FinishDiscoverableLogin (data : SessionData) (response : string) :
    M (Credential.t * User.t * option Passkey.t) :=
  let! (rawID, userHandle) := of_result (wa_Discover data response) ;;
  let! ((u, passkeys), matched) := login_handler rawID userHandle ;;
  credential <- ask (wa_Validate (webauthnUser.newWebAuthnUser u passkeys) data response) ;;
  ret (credential, u, matched).

(** A signature counter that stalled or went back flags the passkey and
    refuses; otherwise the counter is recorded.  Errors of the writes are
    dropped. *)
Definition accept_counter (p : Passkey.t) (credential : Credential.t) : M unit :=
  if credential.(Credential.CloneWarning) then
    ignore (PasskeyRepo.SetCloneWarning p.(Passkey.ID) true) ;;;
    throw (ErrUnauthorized "passkey verification failed; please re-enroll your passkey")
  else
    wall <- wall_now ;;
    ignore (PasskeyRepo.UpdateSignCount p.(Passkey.ID) credential.(Credential.SignCount) (time_unix wall)).

Definition FinishLogin (input : FinishLoginInput) : M (User.t * option Passkey.t) :=
  sessionData <- popChallenge input.(login_ChallengeID) None PurposeLogin ;;
  let! ((credential, matchedUser), matchedPasskey) :=
    map_err (FinishDiscoverableLogin sessionData input.(login_Response))
      (fun e => ErrUnauthorized ("invalid passkey assertion: " +:+ error_string e)) ;;
  match matchedPasskey with
  | Some p => accept_counter p credential
  | None => ret tt
  end ;;;
  ret (matchedUser, matchedPasskey).

(** *** Step-up *)

Definition BeginReauth (userID : UUID) : M (UUID * AssertionOptions) :=
  u <- UserSvc.GetByID userID ;;
  passkeys <- or_fail (PasskeyRepo.ListByUser userID) (ErrInternal "failed to list passkeys") ;;
  guard (negb (Nat.eqb (List.length passkeys) 0)) (ErrBadRequest "user has no passkeys") ;;;
  let wu := webauthnUser.newWebAuthnUser u passkeys in
  let! (assertion, sessionData) :=
    map_err (ask (wa_BeginLogin wu))
      (fun e => ErrInternal ("failed to start passkey reauth: " +:+ error_string e)) ;;
  challengeID <- storeChallenge (Some userID) PurposeReauth sessionData ;;
  ret (challengeID, assertion).

Definition ValidateReauthAssertion (userID challengeID : UUID) (response : string) : M bool :=
  sessionData <- popChallenge challengeID (Some userID) PurposeReauth ;;
  u <- UserSvc.GetByID userID ;;
  passkeys <- or_fail (PasskeyRepo.ListByUser userID) (ErrInternal "failed to list passkeys") ;;
  credential <- opt (ask (wa_FinishLogin (webauthnUser.newWebAuthnUser u passkeys) sessionData response)) ;;
  match credential with
  | None => ret false
  | Some credential =>
      match find (fun p => bool_decide (p.(Passkey.CredentialID) = credential.(Credential.ID))) passkeys with
      | Some p => accept_counter p credential
      | None => ret tt
      end ;;;
      ret true
  end.

(** *** The rest *)

Definition trusted (p : Passkey.t) : bool := negb p.(Passkey.CloneWarning) && flag_UserVerified p.(Passkey.Flags).

Definition HasUserVerifiedPasskey (userID : UUID) : M bool :=
  passkeys <- PasskeyRepo.ListByUser userID ;;
  ret (existsb trusted passkeys).

Definition List (userID : UUID) : M (list Passkey.t) := PasskeyRepo.ListByUser userID.

Definition Rename (passkeyID userID : UUID) (name : string) : M unit :=
  or_fail (PasskeyRepo.UpdateName passkeyID userID name) (ErrNotFound "passkey not found").

Definition Delete (passkeyID userID : UUID) : M unit :=
  or_fail (PasskeyRepo.Delete passkeyID userID) (ErrNotFound "passkey not found").

Definition CleanupExpiredChallenges : M Z := PasskeyRepo.DeleteExpiredChallenges.

End service.
End PasskeySvc.

(** ** Properties *)
Module PasskeyFacts.
Import PasskeySvc.

Section facts.
Context `{Platform} `{WebAuthn} (challengeTTL : Z).

(** *** Challenges *)

(** The challenge [id] is live for the purpose and the user, and holds [d]. *)
Definition live_challenge (id : UUID) (user : option UUID) (purpose : string) (wall : Z) (db : DB) (d : SessionData) : Prop :=
  exists c, db.(passkey_challenges) !! id = Some c /\ c.(PasskeyChallenge.Purpose) = purpose /\
    wall <= c.(PasskeyChallenge.ExpiresAt) /\ (forall u, user = Some u -> c.(PasskeyChallenge.UserID) = Some u) /\
    gob_Decode c.(PasskeyChallenge.SessionData) = Some d.

Lemma check_challenge_ok wall c user purpose d :
  check_challenge wall c user purpose = Ok d ->
  c.(PasskeyChallenge.Purpose) = purpose /\ wall <= c.(PasskeyChallenge.ExpiresAt) /\
  (forall u, user = Some u -> c.(PasskeyChallenge.UserID) = Some u) /\
  gob_Decode c.(PasskeyChallenge.SessionData) = Some d.
Proof.
  unfold check_challenge, PasskeyChallenge.IsExpired, time_before.
  destruct (Z.ltb_spec (PasskeyChallenge.ExpiresAt c) wall); [done|].
  destruct (String.eqb_spec (PasskeyChallenge.Purpose c) purpose); [|done]. simpl.
  destruct user as [u|].
  - destruct (PasskeyChallenge.UserID c) as [v|]; [|done]. destruct (N.eqb_spec v u) as [->|]; [|done]. simpl.
    destruct (gob_Decode _) eqn:E; [|done]. intros [= <-]. split_and!; try done; by intros w [= <-].
  - destruct (gob_Decode _) eqn:E; [|done]. intros [= <-]. by split_and!.
Qed.

(** What popping a challenge leaves: nothing changed, or the challenge gone. *)
Definition popped (id : UUID) (env : Env) (db db' : DB) : Prop :=
  (db' = db \/ db' = db <| passkey_challenges ::= delete id |>) /\
  (no_faults env -> db'.(passkey_challenges) !! id = None).

Lemma wp_popChallenge id user purpose env st :
  wp (popChallenge id user purpose) (fun r st' =>
    popped id env st.(st_db) st'.(st_db) /\
    forall d, r = Ok d -> live_challenge id user purpose env.(env_wall) st.(st_db) d) env st.
Proof.
  unfold popChallenge, PasskeyRepo.FindChallenge. apply wp_bind, wp_find_row; intros Hf.
  { split; [|done]. split; [by left|]. intros Hnf. by rewrite Hnf in Hf. }
  destruct (passkey_challenges (st_db st) !! id) as [c|] eqn:E.
  2:{ split; [|done]. split; [by left|done]. }
  apply wp_bind, wp_wall_now, wp_bind, wp_ignore.
  unfold PasskeyRepo.DeleteChallenge. apply wp_update_table.
  - intros e He. apply wp_of_result. split; [|intros d Hd; exists c; split; [done | by apply check_challenge_ok]].
    split; [by left|]. intros Hnf. by rewrite Hnf in He.
  - intros _. apply wp_of_result. split; [|intros d Hd; exists c; split; [done | by apply check_challenge_ok]].
    split; [by right|]. intros _. apply lookup_delete_eq.
Qed.

(** A second request of a ceremony. *)
Inductive finish :=
| FRegistration (userID : UUID) (input : FinishRegistrationInput)
| FLogin (input : FinishLoginInput)
| FReauth (userID challengeID : UUID) (response : string).

Definition challenge_of (c : finish) : UUID :=
  match c with
  | FRegistration _ i => i.(reg_ChallengeID)
  | FLogin i => i.(login_ChallengeID)
  | FReauth _ id _ => id
  end.

Definition perform (c : finish) : M unit :=
  match c with
  | FRegistration u i => drop (FinishRegistration u i)
  | FLogin i => drop (FinishLogin i)
  | FReauth u id r => drop (ValidateReauthAssertion u id r)
  end.

Abbreviation keeps_challenges := (same passkey_challenges).

#[local] Instance passkey_Create_keeps p : Preserves keeps_challenges (PasskeyRepo.Create p).
Proof.
  unfold PasskeyRepo.Create. solve_preserves ltac:(idtac). apply (preserves_stmt keeps_challenges).
  intros env db db'. repeat case_match; try done. by intros [= <-].
Qed.

#[local] Instance accept_counter_keeps p c : Preserves keeps_challenges (accept_counter p c).
Proof.
  unfold accept_counter, PasskeyRepo.SetCloneWarning, PasskeyRepo.UpdateSignCount.
  solve_preserves ltac:(by apply (preserves_update_table keeps_challenges)).
Qed.

#[local] Instance GetByID_keeps id : Preserves keeps_challenges (UserSvc.GetByID id).
Proof. unfold UserSvc.GetByID, UserRepo.FindByID. solve_preserves ltac:(apply _). Qed.

(** Each finish starts with its challenge. *)
Lemma perform_pops c : exists A (user : option UUID) purpose (k : SessionData -> M A),
  (forall d, Preserves keeps_challenges (k d)) /\
  perform c = drop (d <- popChallenge (challenge_of c) user purpose ;; k d).
Proof.
  destruct c as [u i|i|u id r]; do 4 eexists; (split; [|reflexivity]); intros d; cbv beta zeta.
  - solve_preserves ltac:(apply _).
  - unfold FinishDiscoverableLogin, login_handler. solve_preserves ltac:(apply _).
  - solve_preserves ltac:(apply _).
Qed.

Lemma run_drop {A} (m : M A) env db : (run (drop m) env db).2 = (run m env db).2 /\
  is_ok (run (drop m) env db).1 = is_ok (run m env db).1.
Proof. unfold run, drop, bind. by destruct (m env (mkState db 0)) as [[a|e] st]. Qed.


(** *** The table *)

(** Rows sit under their identifier and no two hold one credential. *)
Definition passkeys_wf (t : gmap UUID Passkey.t) : Prop :=
  forall id p, t !! id = Some p -> p.(Passkey.ID) = id /\
    forall id' p', t !! id' = Some p' -> p'.(Passkey.CredentialID) = p.(Passkey.CredentialID) -> id' = id.

Abbreviation keeps_passkeys_wf := (keeps (fun db => passkeys_wf db.(passkeys))).

Lemma passkeys_wf_alter f id t :
  (forall p, (f p).(Passkey.ID) = p.(Passkey.ID) /\ (f p).(Passkey.CredentialID) = p.(Passkey.CredentialID)) ->
  passkeys_wf t -> passkeys_wf (alter f id t).
Proof.
  intros Hf Hwf.
  assert (Hback : forall k p, alter f id t !! k = Some p -> exists q, t !! k = Some q /\
    p.(Passkey.ID) = q.(Passkey.ID) /\ p.(Passkey.CredentialID) = q.(Passkey.CredentialID)).
  { intros k p [(-> & q & Hq & ->)|[_ Hp]]%lookup_alter_Some; [exists q; split; [done|apply Hf] | by exists p]. }
  intros k p (q & Hq & Hid & Hc)%Hback. destruct (Hwf _ _ Hq) as [Hk Hu]. split; [congruence|].
  intros k' p' (q' & Hq' & _ & Hc')%Hback He. apply (Hu k' q' Hq'). congruence.
Qed.

Lemma passkeys_wf_insert row t :
  (forall id p, t !! id = Some p -> p.(Passkey.CredentialID) <> row.(Passkey.CredentialID)) ->
  passkeys_wf t -> passkeys_wf (<[row.(Passkey.ID) := row]> t).
Proof.
  intros Hfree Hwf id p. intros [[<- <-]|[Hne Hp]]%lookup_insert_Some.
  - split; [done|]. intros id' p' [[<- _]|[_ Hp']]%lookup_insert_Some He; [done|]. by destruct (Hfree _ _ Hp').
  - destruct (Hwf _ _ Hp) as [Hid Hu]. split; [done|].
    intros id' p' [[<- <-]|[_ Hp']]%lookup_insert_Some He; [by destruct (Hfree _ _ Hp) | by apply (Hu _ _ Hp')].
Qed.

Lemma update_keeps_wf id f :
  (forall env p, (f env p).(Passkey.ID) = p.(Passkey.ID) /\ (f env p).(Passkey.CredentialID) = p.(Passkey.CredentialID)) ->
  Preserves keeps_passkeys_wf (update_table (upd passkeys) (fun env => alter (f env) id)).
Proof.
  intros Hf. apply (preserves_update_table keeps_passkeys_wf). intros env db Hwf.
  apply passkeys_wf_alter; [apply Hf | exact Hwf].
Qed.

#[local] Instance accept_counter_wf p c : Preserves keeps_passkeys_wf (accept_counter p c).
Proof.
  unfold accept_counter, PasskeyRepo.SetCloneWarning, PasskeyRepo.UpdateSignCount.
  solve_preserves ltac:(by apply update_keeps_wf).
Qed.

Lemma challenges_keep_wf {A} (m : M A) : Preserves (same passkeys) m -> Preserves keeps_passkeys_wf m.
Proof. apply preserves_mono. intros d d' Hd Hwf. unfold same in Hd. cbv beta. by rewrite Hd. Qed.

#[local] Instance popChallenge_same id u p : Preserves (same passkeys) (popChallenge id u p).
Proof.
  unfold popChallenge, PasskeyRepo.DeleteChallenge.
  solve_preserves ltac:(by apply (preserves_update_table (same passkeys))).
Qed.

#[local] Instance storeChallenge_same u p d : Preserves (same passkeys) (storeChallenge challengeTTL u p d).
Proof.
  unfold storeChallenge, PasskeyRepo.CreateChallenge.
  solve_preserves ltac:(by apply (preserves_create_in (same passkeys))).
Qed.

#[local] Instance GetByID_wf id : Preserves keeps_passkeys_wf (UserSvc.GetByID id).
Proof. unfold UserSvc.GetByID, UserRepo.FindByID. solve_preserves ltac:(apply _). Qed.

#[local] Instance Create_wf p : Preserves keeps_passkeys_wf (PasskeyRepo.Create p).
Proof.
  unfold PasskeyRepo.Create. solve_preserves ltac:(idtac). apply (preserves_stmt keeps_passkeys_wf).
  intros env db db'. destruct (is_Some_b (first_row _ _ _)) eqn:E; [done|]. simpl.
  destruct (is_Some_b (db.(passkeys) !! _)); [done|].
  destruct (is_Some_b (db.(users) !! _)); [|done]. intros [= <-] Hwf.
  match goal with |- passkeys_wf (passkeys (db <| passkeys ::= insert ?k ?row |>)) =>
    apply (passkeys_wf_insert row) end; [|exact Hwf].
  intros id q Hq He. destruct (first_row _ _ _) eqn:Ef; [done|]. rewrite first_row_None in Ef.
  specialize (Ef _ _ Hq). simpl in Ef. by apply bool_decide_eq_false in Ef.
Qed.

(** The operations of the service. *)
Inductive call :=
| CBeginRegistration (userID : UUID)
| CFinish (c : finish)
| CBeginLogin
| CBeginReauth (userID : UUID)
| CRename (passkeyID userID : UUID) (name : string)
| CDelete (passkeyID userID : UUID)
| CCleanup.

Definition perform_call (c : call) : M unit :=
  match c with
  | CBeginRegistration u => drop (BeginRegistration challengeTTL u)
  | CFinish c => perform c
  | CBeginLogin => drop (BeginLogin challengeTTL)
  | CBeginReauth u => drop (BeginReauth challengeTTL u)
  | CRename p u n => Rename p u n
  | CDelete p u => Delete p u
  | CCleanup => drop CleanupExpiredChallenges
  end.

Lemma finish_keeps_wf c : Preserves keeps_passkeys_wf (perform c).
Proof.
  destruct c; unfold perform, drop, FinishRegistration, FinishLogin, ValidateReauthAssertion,
    FinishDiscoverableLogin, login_handler;
    solve_preserves ltac:(first [apply _ | by apply challenges_keep_wf, _]).
Qed.

Lemma call_keeps_wf c : Preserves keeps_passkeys_wf (perform_call c).
Proof.
  destruct c; [| apply finish_keeps_wf | ..]; unfold perform_call, drop, BeginRegistration, BeginLogin, BeginReauth,
    Rename, Delete, CleanupExpiredChallenges, PasskeyRepo.UpdateName, PasskeyRepo.Delete, PasskeyRepo.affecting,
    PasskeyRepo.DeleteExpiredChallenges;
    solve_preserves ltac:(first [apply _ | by apply challenges_keep_wf, _
      | apply update_keeps_wf; intros ? ?; by case_match
      | by apply (preserves_update_table keeps_passkeys_wf) | idtac]).
  2: by apply (preserves_update_table keeps_passkeys_wf); intros env db Hwf.
  apply (preserves_stmt keeps_passkeys_wf). intros env db db'. repeat case_match; intros [= <-]; try done.
  intros Hwf id q Hq. simpl in Hq. apply lookup_delete_Some in Hq as [_ Hq]. destruct (Hwf _ _ Hq) as [Hid Hu].
  split; [done|]. intros id' q' Hq'. simpl in Hq'. apply lookup_delete_Some in Hq' as [_ Hq']. by apply Hu.
Qed.

(** Whatever the ceremonies and their faults, every passkey sits under its
    identifier and no two hold one credential. *)
Theorem passkeys_wf_invariant (l : list (Env * call)) (db : DB) :
  passkeys_wf db.(passkeys) -> passkeys_wf (history perform_call l db).(passkeys).
Proof. apply (history_preserves perform_call keeps_passkeys_wf), call_keeps_wf. Qed.

(** *** Sign-in *)

Context `{!WebAuthnLaws}.

Definition used (p : Passkey.t) (c : Credential.t) (wall : Z) : Passkey.t :=
  p <| Passkey.SignCount := c.(Credential.SignCount) |>
    <| Passkey.LastUsedAt := Some (time_unix wall * second) |> <| Passkey.UpdatedAt := wall |>.

(** The counter of a passkey that is accepted is recorded; one that is refused
    is flagged and its counter stays. *)
Lemma wp_accept_counter p c env st (Q : result unit -> State -> Prop) :
  (forall st', c.(Credential.CloneWarning) = false ->
     (no_faults env -> st'.(st_db) = st.(st_db) <| passkeys ::= alter (fun q => used q c env.(env_wall)) p.(Passkey.ID) |>) ->
     Q (Ok tt) st') ->
  (forall e st', Q (Err e) st') ->
  wp (accept_counter p c) Q env st.
Proof.
  intros Hok Herr. unfold accept_counter. destruct (Credential.CloneWarning c) eqn:E.
  - apply wp_bind. unfold wp. destruct (ignore _ env st) as [[[]|e] st']; apply Herr.
  - apply wp_bind, wp_wall_now, wp_ignore. unfold PasskeyRepo.UpdateSignCount. apply wp_update_table.
    + intros e Hf. apply Hok; [done|]. intros Hnf. by rewrite Hnf in Hf.
    + intros _. by apply Hok.
Qed.

Lemma elem_sorted (R : relation Passkey.t) `{!RelDecision R} P (t : gmap UUID Passkey.t) p :
  p ∈ merge_sort R (select_rows P t) <-> exists id, t !! id = Some p /\ P p = true.
Proof. rewrite (merge_sort_Permutation R). apply elem_of_select_rows. Qed.

Lemma alter_insert_found (f : Passkey.t -> Passkey.t) id p (t : gmap UUID Passkey.t) :
  t !! id = Some p -> alter f id t = <[id := f p]> t.
Proof.
  intros Hp. apply map_eq. intros i. destruct (decide (i = id)) as [->|Hne].
  - by rewrite lookup_alter_eq, lookup_insert_eq, Hp.
  - by rewrite lookup_alter_ne, lookup_insert_ne.
Qed.

(** The assertion of [input] proves a passkey [p] of the user [u], on the live
    sign-in challenge it names. *)
Definition proves (input : FinishLoginInput) (env : Env) (db : DB) (u : User.t) (p : Passkey.t) (c : Credential.t) : Prop :=
  exists d handle uid passkeys' n dbr,
    live_challenge input.(login_ChallengeID) None PurposeLogin env.(env_wall) db d /\
    wa_Discover d input.(login_Response) = Ok (p.(Passkey.CredentialID), handle) /\
    webauthnUser.uuid_FromBytes handle = Some uid /\ db.(users) !! uid = Some u /\
    db.(passkeys) !! p.(Passkey.ID) = Some p /\ p.(Passkey.UserID) = uid /\
    wa_Validate (webauthnUser.newWebAuthnUser u passkeys') d input.(login_Response) env n dbr = Ok c /\
    c.(Credential.ID) = p.(Passkey.CredentialID) /\ c.(Credential.CloneWarning) = false.

Lemma wp_FinishLogin input env st :
  passkeys_wf st.(st_db).(passkeys) ->
  wp (FinishLogin input) (fun r st' =>
    match r with
    | Err _ => True
    | Ok (u, matched) => exists p c, matched = Some p /\ proves input env st.(st_db) u p c /\
        (no_faults env -> st'.(st_db).(passkeys)
           = <[p.(Passkey.ID) := used p c env.(env_wall)]> st.(st_db).(passkeys))
    end) env st.
Proof.
  intros Hwf. unfold FinishLogin. apply wp_bind. eapply wp_mono; [|apply wp_popChallenge].
  intros [d|e] st1 [[Hpop _] Hlive]; [|done]. specialize (Hlive d eq_refl).
  assert (Hp1 : st1.(st_db).(passkeys) = st.(st_db).(passkeys)) by by destruct Hpop as [-> | ->].
  assert (Hu1 : st1.(st_db).(users) = st.(st_db).(users)) by by destruct Hpop as [-> | ->].
  apply wp_bind, wp_map_err. unfold FinishDiscoverableLogin, login_handler.
  apply wp_bind, wp_of_result. destruct (wa_Discover d _) as [[raw handle]|e] eqn:Hd; [|done].
  apply wp_bind. destruct (webauthnUser.uuid_FromBytes handle) as [uid|] eqn:Hh; [|done].
  apply wp_bind, ProfileFacts.wp_user_GetByID; [done|]. intros u Hu.
  apply wp_bind, wp_query; intros _; [done|]. apply wp_ret. simpl st_db.
  set (pks := merge_sort _ _). apply wp_bind, wp_ask.
  destruct (wa_Validate _ _ _ _ _ _) as [c|e] eqn:Hv; [|done]. apply wp_ret.
  destruct (Validate_known _ _ _ _ _ _ _ _ _ Hd Hv) as [Hc (k & Hk & Hkid)].
  apply list_elem_of_fmap in Hk as (p0 & -> & Hp0). simpl in Hkid.
  destruct (find _ pks) as [p|] eqn:Hfind.
  2:{ apply list_elem_of_In in Hp0. pose proof (find_none _ _ Hfind _ Hp0) as Hno. by apply bool_decide_eq_false in Hno. }
  apply find_some in Hfind as [Hin Hcid]. apply bool_decide_eq_true in Hcid. apply list_elem_of_In in Hin.
  unfold pks in Hin. apply elem_sorted in Hin as (kid & Hkey & Hown). simpl in Hkey. rewrite Hp1 in Hkey.
  destruct (Hwf _ _ Hkey) as [<- _]. apply N.eqb_eq in Hown. rewrite Hu1 in Hu.
  apply wp_bind, wp_accept_counter; [|done]. intros st2 Hclone Hdb2. apply wp_ret.
  exists p, c. split; [done|]. split.
  - exists d, handle, uid, pks. do 2 eexists. rewrite Hcid.
    split_and!; [exact Hlive | exact Hd | exact Hh | exact Hu | exact Hkey | exact Hown | exact Hv | exact Hc | exact Hclone].
  - intros Hnf. rewrite (Hdb2 Hnf). simpl. rewrite Hp1. exact (alter_insert_found (fun q => used q c env.(env_wall)) _ _ _ Hkey).
Qed.

(** A sign-in with a passkey answers with an account only when the assertion
    proves a stored passkey of that account, on a live sign-in challenge, and
    its signature counter did not stall or go back; without faults the new
    counter is recorded and no other passkey changes. *)
Theorem FinishLogin_spec (input : FinishLoginInput) (env : Env) (db : DB) :
  passkeys_wf db.(passkeys) ->
  let '(r, db') := run (FinishLogin input) env db in
  match r with
  | Err _ => True
  | Ok (u, matched) => exists p c, matched = Some p /\ proves input env db u p c /\
      (no_faults env -> db'.(passkeys) = <[p.(Passkey.ID) := used p c env.(env_wall)]> db.(passkeys))
  end.
Proof.
  intros Hwf. apply run_wp. eapply wp_mono; [|by apply wp_FinishLogin]. by intros [[u m]|e] st'.
Qed.

(** *** Step-up *)

(** A step-up assertion is valid only for the live challenge of that user and
    a stored passkey of that user whose counter moved on. *)
Theorem ValidateReauthAssertion_spec (userID challengeID : UUID) (response : string) (env : Env) (db : DB) :
  passkeys_wf db.(passkeys) ->
  let '(r, db') := run (ValidateReauthAssertion userID challengeID response) env db in
  r = Ok true ->
  exists d u p c passkeys' n dbr,
    live_challenge challengeID (Some userID) PurposeReauth env.(env_wall) db d /\ db.(users) !! userID = Some u /\
    db.(passkeys) !! p.(Passkey.ID) = Some p /\ p.(Passkey.UserID) = userID /\
    wa_FinishLogin (webauthnUser.newWebAuthnUser u passkeys') d response env n dbr = Ok c /\
    c.(Credential.ID) = p.(Passkey.CredentialID) /\ c.(Credential.CloneWarning) = false /\
    (no_faults env -> db'.(passkeys) = <[p.(Passkey.ID) := used p c env.(env_wall)]> db.(passkeys)).
Proof.
  intros Hwf. apply run_wp. unfold ValidateReauthAssertion. apply wp_bind. eapply wp_mono; [|apply wp_popChallenge].
  intros [d|e] st1 [[Hpop _] Hlive]; [|done]. specialize (Hlive d eq_refl). simpl in Hpop.
  assert (Hp1 : st1.(st_db).(passkeys) = db.(passkeys)) by by destruct Hpop as [-> | ->].
  assert (Hu1 : st1.(st_db).(users) = db.(users)) by by destruct Hpop as [-> | ->].
  apply wp_bind, ProfileFacts.wp_user_GetByID; [done|]. intros u Hu. rewrite Hu1 in Hu.
  apply wp_bind, wp_or_fail, wp_query; intros _; [done|]. set (pks := merge_sort _ _).
  apply wp_bind, wp_opt, wp_ask. destruct (wa_FinishLogin _ _ _ _ _ _) as [c|e] eqn:Hv; [|by apply wp_ret].
  destruct (FinishLogin_known _ _ _ _ _ _ _ Hv) as (k & Hk & Hkid).
  apply list_elem_of_fmap in Hk as (p0 & -> & Hp0). simpl in Hkid.
  destruct (find _ pks) as [p|] eqn:Hfind.
  2:{ apply list_elem_of_In in Hp0. pose proof (find_none _ _ Hfind _ Hp0) as Hno. by apply bool_decide_eq_false in Hno. }
  apply find_some in Hfind as [Hin Hcid]. apply bool_decide_eq_true in Hcid. apply list_elem_of_In in Hin.
  unfold pks in Hin. apply elem_sorted in Hin as (kid & Hkey & Hown). simpl in Hkey. rewrite Hp1 in Hkey.
  destruct (Hwf _ _ Hkey) as [<- _]. apply N.eqb_eq in Hown.
  apply wp_bind, wp_accept_counter; [|done]. intros st2 Hclone Hdb2. apply wp_ret. intros _.
  exists d, u, p, c, pks. do 2 eexists.
  split_and!; [exact Hlive | exact Hu | exact Hkey | exact Hown | exact Hv | by rewrite Hcid | exact Hclone |].
  intros Hnf. rewrite (Hdb2 Hnf). simpl. rewrite Hp1. exact (alter_insert_found (fun q => used q c env.(env_wall)) _ _ _ Hkey).
Qed.
End facts.

(** ** Samples: a library that accepts the credential [7] of user 5 *)

Definition sample_credential (u : webauthnUser.t) : result Credential.t :=
  match find (fun k => bool_decide (k.(Credential.ID) = [7])) u.(webauthnUser.WebAuthnCredentials) with
  | Some k => Ok (Credential.mk [7] k.(Credential.PublicKey) "" [] 4 [] (k.(Credential.SignCount) + 1) false)
  | None => Err (EOther "unknown credential")
  end.

Definition sample_webauthn : WebAuthn := {|
  SessionData := unit; CreationOptions := unit; AssertionOptions := unit;
  gob_Encode _ := Some [1];
  gob_Decode _ := Some tt;
  wa_BeginRegistration _ _ _ _ _ := Ok (tt, tt);
  wa_FinishRegistration _ _ _ _ _ _ := Ok (Credential.mk [8] [] "none" [] 4 [] 0 false);
  wa_BeginDiscoverableLogin _ _ _ := Ok (tt, tt);
  wa_Discover _ _ := Ok ([7], webauthnUser.uuid_bytes 5);
  wa_Validate u _ _ _ _ _ := sample_credential u;
  wa_BeginLogin _ _ _ _ := Ok (tt, tt);
  wa_FinishLogin u _ _ _ _ _ := sample_credential u;
  flag_UserVerified f := Z.testbit f 2
|}.

Lemma sample_credential_known u c :
  sample_credential u = Ok c ->
  c.(Credential.ID) = [7] /\
  exists k, k ∈ u.(webauthnUser.WebAuthnCredentials) /\ k.(Credential.ID) = [7].
Proof.
  unfold sample_credential. destruct (find _ _) as [k|] eqn:E; [|done]. intros [= <-]. split; [done|].
  exists k. apply find_some in E as [Hin Hid]. apply bool_decide_eq_true in Hid. by apply list_elem_of_In in Hin.
Qed.

Lemma sample_webauthn_laws : @WebAuthnLaws sample_webauthn.
Proof.
  split.
  - by intros [] b.
  - intros u d resp raw handle env n db c [= <- <-] Hv. by apply sample_credential_known.
  - intros u d resp env n db c Hv. destruct (sample_credential_known u c Hv) as [-> Hk]. exact Hk.
Qed.

Definition sample_passkey : Passkey.t :=
  Passkey.zero <| Passkey.ID := 9%N |> <| Passkey.UserID := 5%N |> <| Passkey.CredentialID := [7] |>.

Definition sample_challenge (user : option UUID) (purpose : string) : PasskeyChallenge.t :=
  PasskeyChallenge.mk 3%N user purpose [1] hour 0.

Definition passkey_db (user : option UUID) (purpose : string) : DB :=
  UserFacts.sample_users <| passkeys := {[ 9%N := sample_passkey ]} |>
    <| passkey_challenges := {[ 3%N := sample_challenge user purpose ]} |>.

Lemma passkey_db_wf user purpose : passkeys_wf (passkey_db user purpose).(passkeys).
Proof.
  intros id p. change (passkeys (passkey_db user purpose)) with ({[9%N := sample_passkey]} : gmap UUID Passkey.t).
  intros [<- <-]%lookup_singleton_Some. split; [done|]. by intros id' p' [<- <-]%lookup_singleton_Some.
Qed.

Definition sample_login : FinishLoginInput := mkFinishLoginInput 3%N "resp".

Lemma FinishLogin_spec_witness :
  let H := sample_webauthn in
  let db := passkey_db None PurposeLogin in
  let '(r, db') := run (FinishLogin sample_login) UserFacts.sample_env db in
  is_ok r = true /\
  match r with
  | Err _ => True
  | Ok (u, matched) => exists p c, matched = Some p /\ proves sample_login UserFacts.sample_env db u p c /\
      (no_faults UserFacts.sample_env ->
       db'.(passkeys) = <[p.(Passkey.ID) := used p c UserFacts.sample_env.(env_wall)]> db.(passkeys))
  end.
Proof.
  intros H db.
  pose proof (@FinishLogin_spec sample_webauthn sample_webauthn_laws sample_login UserFacts.sample_env db
    (passkey_db_wf _ _)) as Hs.
  assert (Hok : is_ok (run (FinishLogin sample_login) UserFacts.sample_env db).1 = true) by (vm_compute; reflexivity).
  destruct (run _ _ db) as [r db']. split; [exact Hok | exact Hs].
Defined.

Lemma ValidateReauthAssertion_spec_witness :
  let H := sample_webauthn in
  let db := passkey_db (Some 5%N) PurposeReauth in
  (run (ValidateReauthAssertion 5%N 3%N "resp") UserFacts.sample_env db).1 = Ok true /\
  exists p, db.(passkeys) !! p.(Passkey.ID) = Some p /\ p.(Passkey.UserID) = 5%N.
Proof.
  intros H db.
  pose proof (@ValidateReauthAssertion_spec sample_webauthn sample_webauthn_laws 5%N 3%N "resp"
    UserFacts.sample_env db (passkey_db_wf _ _)) as Hs.
  assert (Hok : (run (ValidateReauthAssertion 5%N 3%N "resp") UserFacts.sample_env db).1 = Ok true)
    by (vm_compute; reflexivity).
  destruct (run _ _ db) as [r db']. split; [exact Hok|].
  destruct (Hs Hok) as (d & u & p & c & ps & n & dbr & _ & _ & Hp & Hu & _). exists p. split; [exact Hp | exact Hu].
Defined.


Lemma passkeys_wf_invariant_witness :
  let H := sample_platform in
  let H0 := sample_webauthn in
  let db := passkey_db (Some 5%N) PurposeRegistration in
  let l := [(UserFacts.sample_env, CFinish (FRegistration 5%N (mkFinishRegistrationInput 3%N "" "resp")))] in
  passkeys_wf (history (perform_call hour) l db).(passkeys).
Proof. intros H H0 db l. apply (passkeys_wf_invariant hour l db), passkey_db_wf. Defined.

(** A passkey flagged as cloned is refused as a second factor but still signs
    in: the flag is not part of what the library is given, and sign-in does
    not look at it once the counter moves on. *)
Example flagged_passkey_signs_in :
  let H := sample_webauthn in
  let db := (passkey_db None PurposeLogin) <| passkeys ::= alter (fun p => p <| Passkey.CloneWarning := true |>
                                                                      <| Passkey.Flags := 4 |>) 9%N |> in
  (run (HasUserVerifiedPasskey 5%N) UserFacts.sample_env db).1 = Ok false /\
  is_ok (run (FinishLogin sample_login) UserFacts.sample_env db).1 = true.
Proof. vm_compute. by split. Qed.
End PasskeyFacts.
