(* ===== verification/Regform.v ===== *)
(** * regform/: the questions of the sign-up form

    The table of an administrator's questions (regform/repository.go), the
    service that edits it (regform/service.go), and [Apply], which checks the
    answers given at sign-up and writes them on the new account
    (regform/applicator.go). *)
From S2P Require Import Prelude.
From S2P Require Import Errors.
From S2P Require Import GoLib.
From S2P Require Import GoNet.
From S2P Require Import Model.
From S2P Require Import Platform.
From S2P Require Import Exec.
From S2P Require Import GoEnc.
From S2P Require Import GoFloat.
From S2P Require Import ActionToken.
From S2P Require Import UserSvc.
From S2P Require Import Middleware.
From S2P Require Import Json.
From S2P Require Import JsonFlat.
From S2P Require Import JsonTree.
From Stdlib Require Import Ascii SpecFloat.
Local Open Scope Z_scope.

(** ** regform/repository.go *)
Module RegFormRepo.

Definition placed (a b : RegistrationField.t) : Prop :=
  (a.(RegistrationField.DisplayOrder) <? b.(RegistrationField.DisplayOrder))
  || (a.(RegistrationField.DisplayOrder) =? b.(RegistrationField.DisplayOrder))
     && (a.(RegistrationField.CreatedAt) <=? b.(RegistrationField.CreatedAt)) = true.
#[global] Instance placed_dec : RelDecision placed.
Proof. intros a b. unfold placed. apply _. Defined.

Definition List : M (list RegistrationField.t) :=
  query (fun _ db => merge_sort placed (select_rows (fun _ => true) db.(registration_fields))).

(** [enabled = TRUE AND ? = ANY (applies_to)] *)
Definition asked (context : string) (f : RegistrationField.t) : bool :=
  f.(RegistrationField.Enabled) && mem context f.(RegistrationField.AppliesTo).

Definition ListForContext (context : string) : M (list RegistrationField.t) :=
  query (fun _ db => merge_sort placed (select_rows (asked context) db.(registration_fields))).

Definition FindByID (id : UUID) : M (option RegistrationField.t * option error) :=
  find_row RegistrationField.zero (fun _ db => db.(registration_fields) !! id).

Definition keyed (key : string) (f : RegistrationField.t) : bool :=
  String.eqb f.(RegistrationField.FieldKey) key.

Definition FindByKey (key : string) : M (option RegistrationField.t * option error) :=
  find_row RegistrationField.zero (fun _ db => first_row N.leb (keyed key) db.(registration_fields)).

Definition duplicate : error := EDriver "duplicate key value violates unique constraint".

Definition key_taken (t : gmap UUID RegistrationField.t) (id : UUID) (key : string) : bool :=
  is_Some_b (first_row N.leb (fun f => keyed key f && negb (N.eqb f.(RegistrationField.ID) id)) t).

(** gorm leaves a zero field that has a default to the database: [enabled] is
    true in every new row. *)
Definition Create (f : RegistrationField.t) : M RegistrationField.t :=
  id <- BeforeCreate f.(RegistrationField.ID) ;;
  wall <- wall_now ;;
  let row := f <| RegistrationField.ID := id |>
               <| RegistrationField.CreatedAt ::= auto_time wall |>
               <| RegistrationField.UpdatedAt ::= auto_time wall |>
               <| RegistrationField.Enabled := true |> in
  stmt (fun _ db =>
    if key_taken db.(registration_fields) id row.(RegistrationField.FieldKey)
       || is_Some_b (db.(registration_fields) !! id) then Err duplicate
    else Ok (db <| registration_fields ::= insert id row |>)) ;;;
  ret row.

(** [Save] *)
Definition Update (f : RegistrationField.t) : M RegistrationField.t :=
  wall <- wall_now ;;
  let row := f <| RegistrationField.UpdatedAt := wall |> in
  stmt (fun _ db =>
    if key_taken db.(registration_fields) row.(RegistrationField.ID) row.(RegistrationField.FieldKey)
    then Err duplicate
    else Ok (db <| registration_fields ::= insert row.(RegistrationField.ID) row |>)) ;;;
  ret row.

Definition Delete (id : UUID) : M unit := update_table (upd registration_fields) (fun _ => delete id).

Definition set_order (id : UUID) (idx : Z) : M unit :=
  update_table (upd registration_fields) (fun env =>
    alter (fun f => f <| RegistrationField.DisplayOrder := idx |>
                      <| RegistrationField.UpdatedAt := env.(env_wall) |>) id).

Definition Reorder (orderedIDs : list UUID) : M unit :=
  transaction (for_each (imap (fun idx id => (Z.of_nat idx, id)) orderedIDs)
                 (fun p => set_order p.2 p.1)).

End RegFormRepo.

(** ** The catalogue *)

Definition allowedKinds : list string := ["standard"; "custom"].

Definition allowedTypes : list string :=
  ["text"; "textarea"; "email"; "url"; "tel"; "number"; "date"; "select"; "multiselect"; "checkbox"; "radio"].

Definition StandardTargets : list (string * string) :=
  [("display_name", "text"); ("phone", "tel"); ("metadata.given_name", "text");
   ("metadata.family_name", "text"); ("metadata.middle_name", "text"); ("metadata.nickname", "text");
   ("metadata.preferred_username", "text"); ("metadata.profile", "url"); ("metadata.website", "url");
   ("metadata.gender", "text"); ("metadata.birthdate", "date"); ("metadata.zoneinfo", "text");
   ("metadata.locale", "text")].

Definition allowedContexts : list string := ["register"; "federation"].

(** [^[a-z][a-z0-9_]{0,63}$] *)
Definition key_char (first : bool) (c : ascii) : bool :=
  let b := code c in
  ((97 <=? b) && (b <=? 122)) || (negb first && (((48 <=? b) && (b <=? 57)) || (b =? 95))).

Definition fieldKeyRe (s : string) : bool :=
  match s with
  | String c r => key_char true c && all_chars (key_char false) r && Nat.leb (String.length r) 63
  | EmptyString => false
  end.

Module FieldOption.
Record t := mk { Value : string; Label : string }.
#[global] Instance eta_t : Eta t := fun r => mk (r.(Value)) (r.(Label)).
Definition zero : t := mk "" "".

Definition field (k : string) : option (any -> t -> option t) :=
  if equal_fold "value" k then Some (string_field (fun s r => r <| Value := s |>))
  else if equal_fold "label" k then Some (string_field (fun s r => r <| Label := s |>))
  else None.

(** One element of a [[]FieldOption]. *)
Definition of_any (v : any) : option t :=
  match v with
  | ANil => Some zero
  | AMap m => let '(r, ok) := decode_fields field m zero in if ok then Some r else None
  | _ => None
  end.
End FieldOption.

(** [json.Unmarshal(raw, &opts)] *)
Definition unmarshal_options (raw : string) : option (list FieldOption.t) :=
  match parse_document raw with
  | Some ANil => Some []
  | Some (AList l) => mapM FieldOption.of_any l
  | _ => None
  end.

(** ** regform/service.go *)
Module RegFormSvc.

Record CreateInput := mkCreateInput {
  c_FieldKey : string;
  c_Label : string;
  c_Description : option string;
  c_Placeholder : option string;
  c_Kind : string;
  c_StandardTarget : option string;
  c_Type : string;
  c_Required : bool;
  c_Enabled : option bool;
  c_Options : string;
  c_Validation : string;
  c_AppliesTo : list string
}.

(** [AppliesTo] is nil or a list. *)
Record UpdateInput := mkUpdateInput {
  u_Label : option string;
  u_Description : option string;
  u_Placeholder : option string;
  u_Kind : option string;
  u_StandardTarget : option string;
  u_Type : option string;
  u_Required : option bool;
  u_Enabled : option bool;
  u_Options : string;
  u_Validation : string;
  u_AppliesTo : option (list string)
}.

Definition validateKindTargetType (kind : string) (target : option string) (typ : string) : result unit :=
  if negb (mem kind allowedKinds) then Err (ErrBadRequest "kind must be 'standard' or 'custom'")
  else if negb (mem typ allowedTypes) then Err (ErrBadRequest ("type " +:+ quoted typ +:+ " is not supported"))
  else if String.eqb kind "standard" then
    match target with
    | None => Err (ErrBadRequest "standard kind requires a standard_target")
    | Some t =>
        if String.eqb t "" then Err (ErrBadRequest "standard kind requires a standard_target")
        else if negb (mem t (map fst StandardTargets))
        then Err (ErrBadRequest ("standard_target " +:+ quoted t +:+ " is not in the catalogue"))
        else Ok tt
    end
  else if String.eqb kind "custom" then
    match target with
    | Some t =>
        if negb (String.eqb t "") then Err (ErrBadRequest "custom kind must not declare a standard_target")
        else Ok tt
    | None => Ok tt
    end
  else Ok tt.

Definition requiresOpts (typ : string) : bool :=
  String.eqb typ "select" || String.eqb typ "multiselect" || String.eqb typ "radio".

Definition validateOptions (typ raw : string) : result unit :=
  if negb (requiresOpts typ) then Ok tt
  else if String.eqb raw "" then Err (ErrBadRequest ("type " +:+ quoted typ +:+ " requires options"))
  else match unmarshal_options raw with
       | None => Err (ErrBadRequest "options must be an array of {value, label} pairs")
       | Some [] => Err (ErrBadRequest ("type " +:+ quoted typ +:+ " requires at least one option"))
       | Some opts =>
           if existsb (fun o => String.eqb o.(FieldOption.Value) "" || String.eqb o.(FieldOption.Label) "") opts
           then Err (ErrBadRequest "each option must have a non-empty value and label")
           else Ok tt
       end.

(** The contexts seen so far, in order, are the ones kept so far. *)
Fixpoint keep_contexts (kept : list string) (l : list string) : result (list string) :=
  match l with
  | [] => Ok kept
  | c :: l =>
      if negb (mem c allowedContexts)
      then Err (ErrBadRequest ("applies_to value " +:+ quoted c +:+ " is not allowed"))
      else if mem c kept then keep_contexts kept l
      else keep_contexts (kept ++ [c]) l
  end.

Definition normaliseContexts (l : list string) : result (list string) :=
  match l with
  | [] => Ok ["register"; "federation"]
  | _ => keep_contexts [] l
  end.

Definition List : M (list RegistrationField.t) :=
  or_fail RegFormRepo.List (ErrInternal "failed to list registration fields").

Definition ListForContext (context : string) : M (list RegistrationField.t) :=
  guard (mem context allowedContexts) (ErrBadRequest "context must be 'register' or 'federation'") ;;;
  or_fail (RegFormRepo.ListForContext context) (ErrInternal "failed to list registration fields").

Definition Get (id : UUID) : M RegistrationField.t :=
  let! (f, err) := RegFormRepo.FindByID id ;;
  match err, f with
  | Some _, _ => throw (ErrInternal "failed to find registration field")
  | None, None => throw (ErrNotFound "registration field not found")
  | None, Some f => ret f
  end.

Definition or_text (s default : string) : string := if String.eqb s "" then default else s.

Definition new_field (i : CreateInput) (contexts : list string) (displayOrder : Z) : RegistrationField.t :=
  RegistrationField.zero
    <| RegistrationField.FieldKey := i.(c_FieldKey) |>
    <| RegistrationField.Label := i.(c_Label) |>
    <| RegistrationField.Description := i.(c_Description) |>
    <| RegistrationField.Placeholder := i.(c_Placeholder) |>
    <| RegistrationField.Kind := i.(c_Kind) |>
    <| RegistrationField.StandardTarget := i.(c_StandardTarget) |>
    <| RegistrationField.Type_ := i.(c_Type) |>
    <| RegistrationField.Required := i.(c_Required) |>
    <| RegistrationField.Enabled := default true i.(c_Enabled) |>
    <| RegistrationField.DisplayOrder := displayOrder |>
    <| RegistrationField.Options := or_text i.(c_Options) "[]" |>
    <| RegistrationField.Validation := or_text i.(c_Validation) "{}" |>
    <| RegistrationField.AppliesTo := contexts |>.

(** The errors of the two lookups are dropped: no row, and an empty list. *)
Definition Create (i : CreateInput) : M RegistrationField.t :=
  guard (fieldKeyRe i.(c_FieldKey)) (ErrBadRequest "field_key must match ^[a-z][a-z0-9_]{0,63}$") ;;;
  let! (existing, err) := RegFormRepo.FindByKey i.(c_FieldKey) ;;
  guard (negb (match err with None => is_Some_b existing | Some _ => false end))
    (ErrConflict "field_key already exists") ;;;
  of_result (validateKindTargetType i.(c_Kind) i.(c_StandardTarget) i.(c_Type)) ;;;
  of_result (validateOptions i.(c_Type) i.(c_Options)) ;;;
  contexts <- of_result (normaliseContexts i.(c_AppliesTo)) ;;
  existing <- opt RegFormRepo.List ;;
  let displayOrder := Z.of_nat (length (default [] existing)) in
  or_fail (RegFormRepo.Create (new_field i contexts displayOrder))
    (ErrInternal "failed to create registration field").

(** An empty text clears the column. *)
Definition set_text (i : option string) (old : option string) : option string :=
  match i with Some v => if String.eqb v "" then None else Some v | None => old end.

Definition set_fields (i : UpdateInput) (f : RegistrationField.t) : RegistrationField.t :=
  f <| RegistrationField.Label ::= fun l => default l i.(u_Label) |>
    <| RegistrationField.Description ::= set_text i.(u_Description) |>
    <| RegistrationField.Placeholder ::= set_text i.(u_Placeholder) |>
    <| RegistrationField.Kind ::= fun k => default k i.(u_Kind) |>
    <| RegistrationField.StandardTarget ::= set_text i.(u_StandardTarget) |>
    <| RegistrationField.Type_ ::= fun t => default t i.(u_Type) |>
    <| RegistrationField.Required ::= fun b => default b i.(u_Required) |>
    <| RegistrationField.Enabled ::= fun b => default b i.(u_Enabled) |>
    <| RegistrationField.Options ::= or_text i.(u_Options) |>
    <| RegistrationField.Validation ::= or_text i.(u_Validation) |>.

Definition Update (id : UUID) (i : UpdateInput) : M RegistrationField.t :=
  f <- Get id ;;
  let f := set_fields i f in
  f <- match i.(u_AppliesTo) with
       | Some l =>
           contexts <- of_result (normaliseContexts l) ;;
           ret (f <| RegistrationField.AppliesTo := contexts |>)
       | None => ret f
       end ;;
  of_result (validateKindTargetType f.(RegistrationField.Kind) f.(RegistrationField.StandardTarget)
               f.(RegistrationField.Type_)) ;;;
  of_result (validateOptions f.(RegistrationField.Type_) f.(RegistrationField.Options)) ;;;
  or_fail (RegFormRepo.Update f) (ErrInternal "failed to update registration field").

Definition Delete (id : UUID) : M unit :=
  Get id ;;;
  or_fail (RegFormRepo.Delete id) (ErrInternal "failed to delete registration field").

Definition Reorder (ids : list UUID) : M unit :=
  guard (negb (Nat.eqb (length ids) 0)) (ErrBadRequest "ids must be a non-empty list") ;;;
  or_fail (RegFormRepo.Reorder ids) (ErrInternal "failed to reorder registration fields").

End RegFormSvc.

(** ** regform/applicator.go *)
Module Applicator.

(** A number of a decoded document is the text of its double, and so is one
    the code makes. *)
Definition number (x : spec_float) : any := ANumber (default "NaN" (json_float x)).

Definition Meta : Type := object.

Definition decodeMetadata (raw : string) : Meta := decode_object raw.

(** A number that is not finite is not encoded. *)
Definition marshal_meta (meta : Meta) : option string :=
  if encodable (AMap (default [] meta)) then Some (marshal_object meta) else None.

(** A write to the nil map panics. *)
Definition set_key (meta : Meta) (k : string) (v : any) : result Meta :=
  match meta with
  | Some m => Ok (Some (map_set m k v))
  | None => Err (EOther "panic: assignment to entry in nil map")
  end.

Definition isZero (v : any) : bool :=
  match v with
  | ANil => true
  | AString s => String.eqb (trim_space s) ""
  | AList l => Nat.eqb (length l) 0
  | _ => false
  end.

Definition text_types : list string := ["text"; "textarea"; "email"; "url"; "tel"; "date"; "select"; "radio"].

Definition strings_of (l : list any) : option (list string) :=
  mapM (fun v => match v with AString s => Some s | _ => None end) l.

Definition expects (field : RegistrationField.t) (what : string) : error :=
  ErrBadRequest ("field " +:+ quoted field.(RegistrationField.FieldKey) +:+ " expects " +:+ what).

Definition coerceValue (field : RegistrationField.t) (raw : any) : result any :=
  let typ := field.(RegistrationField.Type_) in
  if mem typ text_types then
    match raw with AString s => Ok (AString (trim_space s)) | _ => Err (expects field "a string value") end
  else if String.eqb typ "number" then
    match raw with
    | ANumber _ | AFloat _ => Ok raw
    | AInt i => Ok (number (round_binary (i <? 0) (Z.abs i) 0))
    | AString s =>
        match ParseFloat s with Some x => Ok (number x) | None => Err (expects field "a number") end
    | _ => Err (expects field "a number")
    end
  else if String.eqb typ "checkbox" then
    match raw with ABool _ => Ok raw | _ => Err (expects field "a boolean") end
  else if String.eqb typ "multiselect" then
    match raw with
    | AList l =>
        match strings_of l with
        | Some out => Ok (AStrings out)
        | None => Err (expects field "an array of strings")
        end
    | _ => Err (expects field "an array of strings")
    end
  else Ok raw.

Definition decodeOptions (raw : string) : result (list FieldOption.t) :=
  if String.eqb raw "" then Ok []
  else match unmarshal_options raw with
       | Some opts => Ok opts
       | None => Err (ErrInternal "invalid options blob on field")
       end.

Definition optionValues (opts : list FieldOption.t) : list string := map FieldOption.Value opts.

Definition not_in_options (field : RegistrationField.t) (v : option string) : error :=
  ErrBadRequest ("field " +:+ quoted field.(RegistrationField.FieldKey) +:+ " value "
                 +:+ match v with Some v => quoted v +:+ " " | None => "" end +:+ "not in options").

(** A value of another type than [coerceValue] gives would panic. *)
Definition validateValue (field : RegistrationField.t) (value : any) : result unit :=
  let typ := field.(RegistrationField.Type_) in
  if String.eqb typ "select" || String.eqb typ "radio" then
    match decodeOptions field.(RegistrationField.Options) with
    | Err e => Err e
    | Ok opts =>
        match value with
        | AString s => if mem s (optionValues opts) then Ok tt else Err (not_in_options field None)
        | _ => Err (EOther "panic: interface conversion")
        end
    end
  else if String.eqb typ "multiselect" then
    match decodeOptions field.(RegistrationField.Options) with
    | Err e => Err e
    | Ok opts =>
        match value with
        | AStrings l =>
            match find (fun v => negb (mem v (optionValues opts))) l with
            | Some v => Err (not_in_options field (Some v))
            | None => Ok tt
            end
        | _ => Err (EOther "panic: interface conversion")
        end
    end
  else Ok tt.

(** The targets that are keys of the metadata. *)
Definition profile_slots : list (string * string) :=
  [("metadata.given_name", "given_name"); ("metadata.family_name", "family_name");
   ("metadata.middle_name", "middle_name"); ("metadata.nickname", "nickname");
   ("metadata.preferred_username", "preferred_username"); ("metadata.profile", "profile");
   ("metadata.website", "website"); ("metadata.gender", "gender"); ("metadata.birthdate", "birthdate");
   ("metadata.zoneinfo", "zoneinfo"); ("metadata.locale", "locale")].

Definition slot_of (target : string) : option string :=
  snd <$> find (fun p => String.eqb p.1 target) profile_slots.

Definition applyStandard (u : User.t) (meta : Meta) (target : string) (value : any) : result (User.t * Meta) :=
  let s := match value with AString s => s | _ => "" end in
  if String.eqb target "display_name" then Ok (u <| User.DisplayName := Some s |>, meta)
  else if String.eqb target "phone" then Ok (u <| User.Phone := Some s |>, meta)
  else match slot_of target with
       | Some k => match set_key meta k (AString s) with Ok meta => Ok (u, meta) | Err e => Err e end
       | None => Err (ErrInternal ("unsupported standard_target " +:+ quoted target))
       end.

(** The answers kept so far. *)
Definition custom_fields (meta : Meta) : list (string * any) :=
  match map_get (default [] meta) "custom_fields" with Some (AMap m) => m | _ => [] end.

Definition applyCustom (meta : Meta) (key : string) (value : any) : result Meta :=
  set_key meta "custom_fields" (AMap (map_set (custom_fields meta) key value)).

(** The answer to a question: none when it is missing or blank. *)
Definition answer (extras : list (string * any)) (f : RegistrationField.t) : option any :=
  match map_get extras f.(RegistrationField.FieldKey) with
  | Some raw => if isZero raw then None else Some raw
  | None => None
  end.

Definition required (f : RegistrationField.t) : error :=
  ErrBadRequest ("field " +:+ quoted f.(RegistrationField.FieldKey) +:+ " is required").

(** The checked value of an answer. *)
Definition accept (f : RegistrationField.t) (raw : any) : result any :=
  match coerceValue f raw with
  | Err e => Err e
  | Ok v => match validateValue f v with Ok _ => Ok v | Err e => Err e end
  end.

Definition write (u : User.t) (meta : Meta) (f : RegistrationField.t) (v : any) : result (User.t * Meta) :=
  if String.eqb f.(RegistrationField.Kind) "standard" then
    match f.(RegistrationField.StandardTarget) with
    | None => Err (ErrInternal ("field " +:+ quoted f.(RegistrationField.FieldKey) +:+ " is standard but has no target"))
    | Some target => applyStandard u meta target v
    end
  else if String.eqb f.(RegistrationField.Kind) "custom" then
    match applyCustom meta f.(RegistrationField.FieldKey) v with Ok meta => Ok (u, meta) | Err e => Err e end
  else Err (ErrInternal ("field " +:+ quoted f.(RegistrationField.FieldKey) +:+ " has unsupported kind "
                         +:+ quoted f.(RegistrationField.Kind))).

Definition apply_field (extras : list (string * any)) (context : string) (u : User.t) (meta : Meta)
    (f : RegistrationField.t) : result (User.t * Meta) :=
  if RegFormRepo.asked context f then
    match answer extras f with
    | None => if f.(RegistrationField.Required) then Err (required f) else Ok (u, meta)
    | Some raw => match accept f raw with Err e => Err e | Ok v => write u meta f v end
    end
  else Ok (u, meta).

Fixpoint apply_fields (extras : list (string * any)) (context : string) (schema : list RegistrationField.t)
    (u : User.t) (meta : Meta) : result (User.t * Meta) :=
  match schema with
  | [] => Ok (u, meta)
  | f :: schema =>
      match apply_field extras context u meta f with
      | Err e => Err e
      | Ok (u, meta) => apply_fields extras context schema u meta
      end
  end.

Definition Apply (u : User.t) (extras : list (string * any)) (schema : list RegistrationField.t)
    (context : string) : result User.t :=
  match apply_fields extras context schema u (decodeMetadata u.(User.Metadata)) with
  | Err e => Err e
  | Ok (u, meta) =>
      match marshal_meta meta with
      | Some raw => Ok (u <| User.Metadata := raw |>)
      | None => Err (ErrInternal "failed to serialise user metadata")
      end
  end.

(** The service as the user service's [RegFormProvider]. *)
Definition provider : RegFormProvider :=
  mkRegForm (list RegistrationField.t)
    (fun context => reader_of (RegFormSvc.ListForContext context))
    (fun u extras schema context => fun _ _ _ => Apply u extras schema context).

End Applicator.

(** ** Properties *)
Module RegFormFacts.
Import RegFormSvc Applicator.

(** *** What [Apply] does with the answers *)

(** Only the name, the phone number and the metadata are written. *)
Definition filled (u u' : User.t) : Prop :=
  u' = u <| User.DisplayName := u'.(User.DisplayName) |> <| User.Phone := u'.(User.Phone) |>
         <| User.Metadata := u'.(User.Metadata) |>.

Lemma filled_refl u : filled u u.
Proof. unfold filled. by destruct u. Qed.

Lemma filled_trans u v w : filled u v -> filled v w -> filled u w.
Proof. unfold filled. intros -> ->. by destruct u. Qed.

(** A chosen value is one of the options. *)
Definition in_options (f : RegistrationField.t) (v : any) : Prop :=
  requiresOpts f.(RegistrationField.Type_) = true ->
  exists opts, decodeOptions f.(RegistrationField.Options) = Ok opts /\
    match v with
    | AString s => s ∈ optionValues opts
    | AStrings l => Forall (fun s => s ∈ optionValues opts) l
    | _ => False
    end.

(** A question of the form: answered when it must be, and its answer accepted. *)
Definition answered (extras : list (string * any)) (context : string) (f : RegistrationField.t) : Prop :=
  RegFormRepo.asked context f = true ->
  (f.(RegistrationField.Required) = true -> exists raw, answer extras f = Some raw) /\
  forall raw, answer extras f = Some raw -> exists v, accept f raw = Ok v /\ in_options f v.

Lemma find_none_Forall {A} (P : A -> bool) l : find P l = None -> Forall (fun x => P x = false) l.
Proof.
  induction l as [|x l IH]; simpl; [constructor|]. destruct (P x) eqn:E; [done|]. constructor; [done | by apply IH].
Qed.

Lemma accept_in_options f raw v : accept f raw = Ok v -> in_options f v.
Proof.
  unfold accept, in_options, requiresOpts, validateValue. destruct (coerceValue f raw) as [w|]; [|done].
  destruct (String.eqb_spec (RegistrationField.Type_ f) "multiselect") as [->|Hm].
  - simpl. destruct (decodeOptions _) as [opts|]; [|done]. destruct w; try done.
    destruct (find _ l) eqn:E; [done|]. intros [= <-] _. exists opts. split; [done|].
    eapply Forall_impl; [exact (find_none_Forall _ _ E)|]. intros s Hs. simpl in Hs.
    apply negb_false_iff in Hs. by apply mem_iff.
  - destruct (String.eqb (RegistrationField.Type_ f) "select"); simpl;
      destruct (String.eqb (RegistrationField.Type_ f) "radio"); simpl; try done;
      (destruct (decodeOptions _) as [opts|]; [|done]; destruct w; try done;
       destruct (mem s _) eqn:E; [|done]; intros [= <-] _; exists opts; split; [done | by apply mem_iff]).
Qed.

(** The answer a field adds to the custom ones. *)
Definition given (extras : list (string * any)) (context : string) (f : RegistrationField.t) : option any :=
  if RegFormRepo.asked context f && String.eqb f.(RegistrationField.Kind) "custom" then
    match answer extras f with
    | Some raw => match accept f raw with Ok v => Some v | Err _ => None end
    | None => None
    end
  else None.

(** The custom answer under [k] once the fields of the form were read. *)
Definition kept_answer (extras : list (string * any)) (context : string) (schema : list RegistrationField.t)
    (old : list (string * any)) (k : string) : option any :=
  match find (RegFormRepo.keyed k) schema with
  | Some f => match given extras context f with Some v => Some v | None => map_get old k end
  | None => map_get old k
  end.

Lemma set_key_ok meta k v meta' :
  set_key meta k v = Ok meta' -> exists m, meta = Some m /\ meta' = Some (map_set m k v).
Proof. destruct meta as [m|]; [|done]. intros [= <-]. by exists m. Qed.

Lemma custom_fields_set m k v :
  custom_fields (Some (map_set m k v))
  = if String.eqb k "custom_fields" then match v with AMap c => c | _ => [] end else custom_fields (Some m).
Proof. unfold custom_fields. simpl. rewrite map_get_set. by destruct (String.eqb k _). Qed.

Lemma slot_not_custom target k : slot_of target = Some k -> String.eqb k "custom_fields" = false.
Proof.
  unfold slot_of. intros H. destruct (find _ profile_slots) as [p|] eqn:E; simpl in H; [|done]. simplify_eq.
  apply find_some in E as [Hin _].
  assert (Hall : forallb (fun q => negb (String.eqb q.2 "custom_fields")) profile_slots = true) by done.
  rewrite forallb_forall in Hall. by apply negb_true_iff, Hall.
Qed.

Lemma applyStandard_ok u meta target v u' meta' :
  applyStandard u meta target v = Ok (u', meta') -> filled u u' /\ custom_fields meta' = custom_fields meta.
Proof.
  unfold applyStandard. cbv zeta.
  destruct (String.eqb target "display_name"); [intros [= <- <-]; split; [by destruct u | done]|].
  destruct (String.eqb target "phone"); [intros [= <- <-]; split; [by destruct u | done]|].
  destruct (slot_of target) as [k|] eqn:Ek; [|done].
  destruct (set_key _ _ _) eqn:E; [|done]. intros [= <- <-]. split; [apply filled_refl|].
  apply set_key_ok in E as (m & -> & ->). by rewrite custom_fields_set, (slot_not_custom target k).
Qed.

Lemma kept_one extras context f old k :
  kept_answer extras context [f] old k
  = if RegFormRepo.keyed k f
    then match given extras context f with Some v => Some v | None => map_get old k end
    else map_get old k.
Proof. unfold kept_answer. simpl. by destruct (RegFormRepo.keyed k f). Qed.

Lemma kept_none extras context f old k :
  given extras context f = None -> kept_answer extras context [f] old k = map_get old k.
Proof. intros Hg. rewrite kept_one, Hg. by destruct (RegFormRepo.keyed k f). Qed.

Lemma apply_field_ok extras context u meta f u' meta' :
  apply_field extras context u meta f = Ok (u', meta') ->
  filled u u' /\ answered extras context f /\
  forall k, map_get (custom_fields meta') k = kept_answer extras context [f] (custom_fields meta) k.
Proof.
  pose proof (kept_none extras context f (custom_fields meta)) as Hnone. unfold apply_field, answered.
  pose proof (kept_one extras context f (custom_fields meta)) as Hone.
  unfold given in *. destruct (RegFormRepo.asked context f); simpl in *.
  2: { intros [= <- <-]. split_and!; [apply filled_refl | done|]. intros k. by rewrite Hnone. }
  destruct (answer extras f) as [raw|].
  2: { destruct (RegistrationField.Required f); [done|]. intros [= <- <-]. split_and!; [apply filled_refl | done|].
       intros k. rewrite Hnone; [done|]. by destruct (String.eqb _ _). }
  destruct (accept f raw) as [v|] eqn:Ea; [|done]. intros Hw.
  assert (Hin : forall raw0, Some raw = Some raw0 -> exists v, accept f raw0 = Ok v /\ in_options f v).
  { intros raw0 [= <-]. exists v. split; [done | by eapply accept_in_options]. }
  revert Hw Hone Hnone. unfold write. destruct (String.eqb_spec (RegistrationField.Kind f) "standard") as [->|Hk].
  - destruct (RegistrationField.StandardTarget f) as [t|]; [|done]. intros Hw _ Hnone.
    apply applyStandard_ok in Hw as [Hf Hc]. split_and!; [done | by eauto|]. intros k. by rewrite Hc, Hnone.
  - destruct (String.eqb (RegistrationField.Kind f) "custom"); [|done].
    destruct (applyCustom _ _ _) eqn:E; [|done]. intros [= <- <-] Hone _.
    split_and!; [apply filled_refl | by eauto|]. intros k. rewrite Hone.
    apply set_key_ok in E as (m & -> & ->). rewrite custom_fields_set. simpl. rewrite map_get_set.
    unfold RegFormRepo.keyed. by destruct (String.eqb (RegistrationField.FieldKey f) k).
Qed.

Lemma keyed_find_none k f schema :
  RegistrationField.FieldKey f ∉ (RegistrationField.FieldKey <$> schema) -> RegFormRepo.keyed k f = true ->
  find (RegFormRepo.keyed k) schema = None.
Proof.
  unfold RegFormRepo.keyed. intros Hn Hk. apply String.eqb_eq in Hk as <-.
  induction schema as [|g schema IH]; simpl in *; [done|]. apply not_elem_of_cons in Hn as [Hne Hn].
  destruct (String.eqb_spec (RegistrationField.FieldKey g) (RegistrationField.FieldKey f)); [by subst; destruct Hne|].
  by apply IH.
Qed.

Lemma apply_fields_ok extras context schema : NoDup (RegistrationField.FieldKey <$> schema) -> forall u meta u' meta',
  apply_fields extras context schema u meta = Ok (u', meta') ->
  filled u u' /\ Forall (answered extras context) schema /\
  forall k, map_get (custom_fields meta') k = kept_answer extras context schema (custom_fields meta) k.
Proof.
  induction schema as [|f schema IH]; simpl; intros Hnd u meta u' meta'.
  - intros [= <- <-]. split_and!; [apply filled_refl | constructor | done].
  - apply NoDup_cons in Hnd as [Hn Hnd].
    destruct (apply_field _ _ _ _ _) as [[u1 meta1]|] eqn:E; [|done]. intros Hr.
    apply apply_field_ok in E as (Hf & Ha & Hk). destruct (IH Hnd _ _ _ _ Hr) as (Hf' & Ha' & Hk').
    split_and!; [by eapply filled_trans | by constructor|]. intros k. rewrite Hk'. specialize (Hk k).
    unfold kept_answer in *. simpl in *. destruct (RegFormRepo.keyed k f) eqn:Ek; [|by rewrite Hk].
    by rewrite (keyed_find_none k f schema).
Qed.

(** The answers a form accepts.  [Apply] succeeds only when every question
    asked in the context that must be answered is, and every answer given has
    its type and, for a choice, is one of the options; the account keeps every
    column but the name, the phone number and the metadata; and the metadata
    written holds, of the custom answers, exactly the accepted ones over those
    it had. *)
Theorem Apply_spec (u : User.t) (extras : list (string * any)) (schema : list RegistrationField.t)
    (context : string) (u' : User.t) :
  NoDup (RegistrationField.FieldKey <$> schema) ->
  Apply u extras schema context = Ok u' ->
  filled u u' /\
  Forall (answered extras context) schema /\
  exists meta, marshal_meta meta = Some u'.(User.Metadata) /\
    forall k, map_get (custom_fields meta) k
              = kept_answer extras context schema (custom_fields (decodeMetadata u.(User.Metadata))) k.
Proof.
  unfold Apply. intros Hnd. destruct (apply_fields _ _ _ _ _) as [[u1 meta]|] eqn:E; [|done].
  destruct (marshal_meta meta) as [raw|] eqn:Em; [|done]. intros [= <-].
  apply apply_fields_ok in E as (Hf & Ha & Hk); [|done]. split_and!; [|done | by exists meta].
  eapply filled_trans; [exact Hf|]. unfold filled. by destruct u1.
Qed.

Lemma apply_fields_filled extras context schema : forall u meta u' meta',
  apply_fields extras context schema u meta = Ok (u', meta') -> filled u u'.
Proof.
  induction schema as [|f schema IH]; simpl; intros u meta u' meta'; [intros [= <- <-]; apply filled_refl|].
  destruct (apply_field _ _ _ _ _) as [[u1 meta1]|] eqn:E; [|done]. intros Hr.
  eapply filled_trans; [by eapply apply_field_ok | by eapply IH].
Qed.

(** What the user service and the invitations rely on. *)
Lemma provider_keeps_email u extras schema context env n db u' :
  UserSvc.Apply provider u extras schema context env n db = Ok u' -> u'.(User.Email) = u.(User.Email).
Proof.
  simpl. unfold Apply. destruct (apply_fields _ _ _ _ _) as [[u1 meta]|] eqn:E; [|done].
  destruct (marshal_meta meta); [|done]. intros [= <-]. apply apply_fields_filled in E as ->. done.
Qed.

(** *** The stored questions *)

(** A question the service lets through. *)
Definition field_wf (f : RegistrationField.t) : Prop :=
  fieldKeyRe f.(RegistrationField.FieldKey) = true /\
  validateKindTargetType f.(RegistrationField.Kind) f.(RegistrationField.StandardTarget)
    f.(RegistrationField.Type_) = Ok tt /\
  validateOptions f.(RegistrationField.Type_) f.(RegistrationField.Options) = Ok tt /\
  f.(RegistrationField.AppliesTo) <> [] /\ NoDup f.(RegistrationField.AppliesTo) /\
  Forall (fun c => c ∈ allowedContexts) f.(RegistrationField.AppliesTo).

(** Every row is under its identifier, and no two share a key. *)
Definition fields_wf (t : gmap UUID RegistrationField.t) : Prop :=
  (forall id f, t !! id = Some f -> f.(RegistrationField.ID) = id /\ field_wf f) /\
  (forall id id' f f', t !! id = Some f -> t !! id' = Some f' ->
     f.(RegistrationField.FieldKey) = f'.(RegistrationField.FieldKey) -> id = id').

Definition keeps_form : relation DB := keeps (fun d => fields_wf d.(registration_fields)).

Lemma key_taken_false t id key :
  RegFormRepo.key_taken t id key = false ->
  forall id' f, t !! id' = Some f -> f.(RegistrationField.FieldKey) = key -> f.(RegistrationField.ID) = id.
Proof.
  unfold RegFormRepo.key_taken. intros H id' f Hf Hk. destruct (first_row _ _ _) eqn:E; [done|].
  rewrite first_row_None in E. specialize (E _ _ Hf). unfold RegFormRepo.keyed in E.
  rewrite Hk, String.eqb_refl in E. simpl in E. by apply negb_false_iff, N.eqb_eq in E.
Qed.

Lemma insert_form_wf t row :
  fields_wf t -> field_wf row ->
  RegFormRepo.key_taken t row.(RegistrationField.ID) row.(RegistrationField.FieldKey) = false ->
  fields_wf (<[row.(RegistrationField.ID) := row]> t).
Proof.
  intros [Hwf Hu] Hrow Hk. pose proof (key_taken_false _ _ _ Hk) as Hfree. split.
  - intros id f [[<- <-]|[_ Hf]]%lookup_insert_Some; [done | by apply Hwf].
  - intros id id' f f' [[<- <-]|[Hne Hf]]%lookup_insert_Some [[<- <-]|[Hne' Hf']]%lookup_insert_Some He; [done| | |].
    + by rewrite <-(Hfree _ _ Hf' (eq_sym He)), (proj1 (Hwf _ _ Hf')).
    + by rewrite <-(Hfree _ _ Hf He), (proj1 (Hwf _ _ Hf)).
    + by eapply Hu.
Qed.

Lemma alter_form_wf t id g :
  (forall f, (g f).(RegistrationField.ID) = f.(RegistrationField.ID) /\
             (g f).(RegistrationField.FieldKey) = f.(RegistrationField.FieldKey) /\ (field_wf f -> field_wf (g f))) ->
  fields_wf t -> fields_wf (alter g id t).
Proof.
  intros Hg [Hwf Hu]. split.
  - intros k f. destruct (decide (id = k)) as [->|Hne]; [|by rewrite lookup_alter_ne; [apply Hwf|]].
    rewrite lookup_alter_eq. destruct (t !! k) as [f0|] eqn:E; simpl; [|done]. intros [= <-].
    destruct (Hg f0) as (-> & _ & Hf). destruct (Hwf _ _ E). auto.
  - assert (Hkey : forall k f, alter g id t !! k = Some f ->
      exists f0, t !! k = Some f0 /\ f.(RegistrationField.FieldKey) = f0.(RegistrationField.FieldKey)).
    { intros k f. destruct (decide (id = k)) as [->|Hne]; [rewrite lookup_alter_eq | rewrite lookup_alter_ne by done; by eauto].
      destruct (t !! k) as [f0|]; simpl; [|done]. intros [= <-]. exists f0. by destruct (Hg f0) as (_ & -> & _). }
    intros k k' f f' Hf Hf' He. destruct (Hkey _ _ Hf) as (f0 & Hf0 & E0). destruct (Hkey _ _ Hf') as (f1 & Hf1 & E1).
    eapply Hu; [exact Hf0 | exact Hf1 | congruence].
Qed.

Lemma delete_form_wf t id : fields_wf t -> fields_wf (delete id t).
Proof.
  intros [Hwf Hu]. split.
  - intros k f [_ Hf]%lookup_delete_Some. by apply Hwf.
  - intros k k' f f' [_ Hf]%lookup_delete_Some [_ Hf']%lookup_delete_Some. by eapply Hu.
Qed.

Lemma keep_contexts_ok l : forall kept out,
  keep_contexts kept l = Ok out -> NoDup kept -> Forall (fun c => c ∈ allowedContexts) kept ->
  NoDup out /\ Forall (fun c => c ∈ allowedContexts) out /\ (kept ++ l <> [] -> out <> []).
Proof.
  induction l as [|c l IH]; intros kept out H Hn Hf; cbn [keep_contexts] in H.
  - injection H as <-. by rewrite app_nil_r.
  - destruct (mem c allowedContexts) eqn:Ec; cbn [negb] in H; [|done]. destruct (mem c kept) eqn:Ek.
    + destruct (IH _ _ H Hn Hf) as (H1 & H2 & Hne). split; [done|]. split; [done|]. intros _. apply Hne.
      intros Hnil. by apply app_eq_nil in Hnil as [-> _].
    + apply IH in H as (H1 & H2 & Hne).
      * split; [done|]. split; [done|]. intros _. apply Hne. by destruct kept.
      * apply NoDup_app. split; [done|]. split; [|apply NoDup_singleton].
        intros x Hx Hx'. apply list_elem_of_singleton in Hx' as ->. by apply mem_false_iff in Ek.
      * apply Forall_app. split; [done|]. constructor; [by apply mem_iff | constructor].
Qed.

Lemma normaliseContexts_ok l out :
  normaliseContexts l = Ok out -> out <> [] /\ NoDup out /\ Forall (fun c => c ∈ allowedContexts) out.
Proof.
  destruct l as [|c l].
  - intros [= <-]. split; [done|]. split.
    + apply NoDup_cons. split; [|apply NoDup_singleton]. by intros Hin%list_elem_of_singleton.
    + constructor; [by apply mem_iff|]. constructor; [by apply mem_iff | constructor].
  - intros H. apply keep_contexts_ok in H as (? & ? & Hne); [|constructor..]. split_and!; [by apply Hne | done..].
Qed.

Lemma stored_options typ raw : validateOptions typ raw = Ok tt -> validateOptions typ (or_text raw "[]") = Ok tt.
Proof.
  unfold or_text. destruct (String.eqb_spec raw "") as [->|_]; [|done].
  unfold validateOptions. by destruct (requiresOpts typ).
Qed.

Lemma wp_regform_Create f env st (Q : result RegistrationField.t -> State -> Prop) :
  (forall e st', st'.(st_db) = st.(st_db) -> Q (Err e) st') ->
  (forall row n, row = f <| RegistrationField.ID := row.(RegistrationField.ID) |>
       <| RegistrationField.CreatedAt := row.(RegistrationField.CreatedAt) |>
       <| RegistrationField.UpdatedAt := row.(RegistrationField.UpdatedAt) |> <| RegistrationField.Enabled := true |> ->
     RegFormRepo.key_taken st.(st_db).(registration_fields) row.(RegistrationField.ID) row.(RegistrationField.FieldKey) = false ->
     Q (Ok row) (mkState (st.(st_db) <| registration_fields ::= insert row.(RegistrationField.ID) row |>) n)) ->
  wp (RegFormRepo.Create f) Q env st.
Proof.
  intros He Hok. unfold RegFormRepo.Create. apply wp_bind, wp_BeforeCreate; [by intros; apply He|]. intros id n _.
  apply wp_bind, wp_wall_now. cbv zeta. apply wp_bind, wp_stmt; [by intros; apply He|]. intros db' _ Hdb.
  apply wp_ret. simpl in Hdb. destruct (RegFormRepo.key_taken _ _ _) eqn:Ek; [done|]. simpl orb in Hdb.
  destruct (is_Some_b _); [done|]. injection Hdb as <-.
  match goal with |- Q (Ok ?r) _ => exact (Hok r (S n) eq_refl Ek) end.
Qed.

#[local] Instance Create_keeps i : Preserves keeps_form (Create i).
Proof.
  intros env st. change (wp (Create i) (fun _ st' => keeps_form st.(st_db) st'.(st_db)) env st).
  unfold Create. apply wp_bind, wp_guard; intros Hkey; [|done].
  unfold RegFormRepo.FindByKey, RegFormRepo.List. apply wp_bind, wp_find_row; intros _;
    (apply wp_bind, wp_guard; intros _; [|done]);
    apply wp_bind, wp_of_result; (destruct (validateKindTargetType _ _ _) as [[]|] eqn:Ek; [|done]);
    apply wp_bind, wp_of_result; (destruct (validateOptions _ _) as [[]|] eqn:Eo; [|done]);
    apply wp_bind, wp_of_result; (destruct (normaliseContexts _) as [contexts|] eqn:Ec; [|done]);
    apply wp_bind, wp_opt, wp_query; intros _; apply wp_or_fail, wp_regform_Create;
    try (intros e st' Hst; rewrite Hst; reflexivity);
    intros row n Hrow Hfree Hwf; apply insert_form_wf; try done;
    apply normaliseContexts_ok in Ec as (? & ? & ?); apply stored_options in Eo;
    rewrite Hrow; by split_and!.
Qed.

Lemma wp_regform_Update f env st (Q : result RegistrationField.t -> State -> Prop) :
  (forall e st', st'.(st_db) = st.(st_db) -> Q (Err e) st') ->
  (forall row n, row = f <| RegistrationField.UpdatedAt := env.(env_wall) |> ->
     RegFormRepo.key_taken st.(st_db).(registration_fields) row.(RegistrationField.ID) row.(RegistrationField.FieldKey) = false ->
     Q (Ok row) (mkState (st.(st_db) <| registration_fields ::= insert row.(RegistrationField.ID) row |>) n)) ->
  wp (RegFormRepo.Update f) Q env st.
Proof.
  intros He Hok. unfold RegFormRepo.Update. apply wp_bind, wp_wall_now. cbv zeta.
  remember (f <| RegistrationField.UpdatedAt := env.(env_wall) |>) as row eqn:Hrow.
  apply wp_bind, wp_stmt; [by intros; apply He|]. intros db' _ Hdb.
  apply wp_ret. destruct (RegFormRepo.key_taken _ _ _) eqn:Ek; [done|]. injection Hdb as <-. by apply Hok.
Qed.

Lemma wp_Get id env st (Q : result RegistrationField.t -> State -> Prop) :
  (forall e st', st'.(st_db) = st.(st_db) -> Q (Err e) st') ->
  (forall f, st.(st_db).(registration_fields) !! id = Some f -> Q (Ok f) (bump st)) ->
  wp (Get id) Q env st.
Proof.
  intros He Hok. unfold Get, RegFormRepo.FindByID. apply wp_bind, wp_find_row; intros _; [by apply He|].
  cbv beta iota. destruct (_ !! id) as [f|] eqn:E; [by apply Hok | by apply He].
Qed.

#[local] Instance Get_read_only id : ReadOnly (Get id).
Proof. unfold Get, RegFormRepo.FindByID. solve_preserves ltac:(idtac). Qed.

#[local] Instance Update_keeps id i : Preserves keeps_form (Update id i).
Proof.
  intros env st. change (wp (Update id i) (fun _ st' => keeps_form st.(st_db) st'.(st_db)) env st).
  unfold Update. apply wp_bind, wp_Get; [by intros e st' ->|]. intros f Hf. cbv zeta.
  apply wp_bind. eapply (wp_mono _ _ _ (fun r st' => st' = bump st /\ match r with
    | Ok g => exists a, g = set_fields i f <| RegistrationField.AppliesTo := a |> /\
        (a = f.(RegistrationField.AppliesTo) \/ a <> [] /\ NoDup a /\ Forall (fun c => c ∈ allowedContexts) a)
    | Err _ => True end)).
  2: { destruct (u_AppliesTo i) as [l|].
       - apply wp_bind, wp_of_result. destruct (normaliseContexts l) as [a|] eqn:E; [|done]. apply wp_ret.
         split; [done|]. exists a. split; [done|]. right. by apply (normaliseContexts_ok l).
       - apply wp_ret. split; [done|]. exists f.(RegistrationField.AppliesTo). split; [by destruct f | by left]. }
  intros [g|e] st' [-> Hg]; [|done]. destruct Hg as (a & -> & Ha).
  apply wp_bind, wp_of_result. destruct (validateKindTargetType _ _ _) as [[]|] eqn:Ek; [|done].
  apply wp_bind, wp_of_result. destruct (validateOptions _ _) as [[]|] eqn:Eo; [|done].
  assert (Hgwf : field_wf f -> field_wf (set_fields i f <| RegistrationField.AppliesTo := a |>)).
  { intros (Hkey & _ & _ & Hne & Hnd & Hall). split_and!; [exact Hkey | exact Ek | exact Eo |..];
      destruct Ha as [->|(? & ? & ?)]; done. }
  revert Hgwf. generalize (set_fields i f <| RegistrationField.AppliesTo := a |>). intros g Hgwf.
  apply wp_or_fail, wp_regform_Update; [by intros e st' Hst; rewrite Hst|]. intros row n Hrow Hfree Hwf.
  apply insert_form_wf; [done | | done]. rewrite Hrow. exact (Hgwf (proj2 (proj1 Hwf _ _ Hf))).
Qed.

#[local] Instance Delete_keeps id : Preserves keeps_form (Delete id).
Proof.
  unfold Delete. apply preserves_bind; [apply _| |intros _].
  - apply (preserves_read_only keeps_form). apply _.
  - apply preserves_or_fail, (preserves_update_table keeps_form). intros env db Hwf. by apply delete_form_wf.
Qed.

#[local] Instance Reorder_keeps ids : Preserves keeps_form (Reorder ids).
Proof.
  unfold Reorder, RegFormRepo.Reorder. solve_preserves ltac:(idtac).
  apply (preserves_update_table keeps_form). intros env db Hwf. by apply alter_form_wf.
Qed.

(** The calls of an administrator. *)
Inductive call :=
| CCreate (i : CreateInput)
| CUpdate (id : UUID) (i : UpdateInput)
| CDelete (id : UUID)
| CReorder (ids : list UUID).

Definition perform (c : call) : M unit :=
  match c with
  | CCreate i => drop (Create i)
  | CUpdate id i => drop (Update id i)
  | CDelete id => Delete id
  | CReorder ids => Reorder ids
  end.

Lemma perform_keeps_form c : Preserves keeps_form (perform c).
Proof. destruct c; unfold perform, drop; solve_preserves ltac:(apply _). Qed.

(** Whatever the administrators' calls, their order and their faults, every
    stored question has a key of the documented form that no other has, a known
    kind and type, a target from the catalogue exactly when it is a standard
    one, readable options when it is a choice, and at least one of the two
    contexts, without repetition. *)
Theorem form_invariant (l : list (Env * call)) (db : DB) :
  fields_wf db.(registration_fields) -> fields_wf (history perform l db).(registration_fields).
Proof. exact (history_preserves perform keeps_form l db perform_keeps_form). Qed.

(** *** A stored form refuses an answer, and does not fail *)

Definition refused (e : error) : Prop := exists msg, e = ErrBadRequest msg.

(** An answer as a JSON document gives it. *)
Definition decoded (v : any) : bool := match v with AInt _ => false | _ => encodable v end.

(** A number given as a text that names no finite one. *)
Definition not_finite (extras : list (string * any)) (schema : list RegistrationField.t) : Prop :=
  exists f s x, f ∈ schema /\ f.(RegistrationField.Type_) = "number" /\
    answer extras f = Some (AString s) /\ ParseFloat s = Some x /\ json_float x = None.

Lemma map_set_encodable m k v : encodable (AMap m) = true -> encodable v = true -> encodable (AMap (map_set m k v)) = true.
Proof.
  intros Hm Hv. simpl in *. induction m as [|[k' v'] m IH]; simpl in *; [by rewrite Hv|].
  apply andb_true_iff in Hm as [H1 H2]. destruct (String.eqb k' k); simpl; [by rewrite Hv|]. rewrite H1. by apply IH.
Qed.

Lemma map_get_forall (P : any -> bool) m k v : Forall (fun kv => P kv.2 = true) m -> map_get m k = Some v -> P v = true.
Proof. induction 1 as [|[k' v'] m Hv Hm IH]; simpl; [done|]. destruct (String.eqb k' k); [by intros [= <-] | done]. Qed.

Lemma answer_decoded extras f raw :
  Forall (fun kv => decoded kv.2 = true) extras -> answer extras f = Some raw -> decoded raw = true.
Proof.
  unfold answer. intros Hall. destruct (map_get extras _) as [v|] eqn:E; [|done].
  destruct (isZero v); [done|]. intros [= <-]. by eapply map_get_forall.
Qed.

Lemma stored_options_decode f :
  field_wf f -> requiresOpts f.(RegistrationField.Type_) = true ->
  exists opts, decodeOptions f.(RegistrationField.Options) = Ok opts.
Proof.
  intros (_ & _ & Ho & _) Hr. unfold validateOptions in Ho. unfold decodeOptions. rewrite Hr in Ho. simpl in Ho.
  destruct (String.eqb _ ""); [done|]. destruct (unmarshal_options _) as [opts|]; [by exists opts | done].
Qed.

Lemma coerce_refused f raw e : coerceValue f raw = Err e -> refused e.
Proof. unfold coerceValue, expects, refused. cbv zeta. repeat case_match; intros; simplify_eq; eauto. Qed.

Lemma coerce_shape f raw v :
  coerceValue f raw = Ok v ->
  (mem f.(RegistrationField.Type_) text_types = true -> exists s, v = AString s) /\
  (f.(RegistrationField.Type_) = "multiselect" -> exists l, v = AStrings l).
Proof.
  unfold coerceValue. cbv zeta. intros H. split; intros Ht.
  - rewrite Ht in H. destruct raw; simplify_eq. eauto.
  - rewrite Ht in H. simpl in H. destruct raw; try done. destruct (strings_of l); simplify_eq. eauto.
Qed.

Lemma accept_refused f raw e : field_wf f -> accept f raw = Err e -> refused e.
Proof.
  intros Hwf. unfold accept. destruct (coerceValue f raw) as [v|] eqn:Ec; [|by intros [= <-]; eapply coerce_refused].
  destruct (coerce_shape _ _ _ Ec) as [Htext Hmulti]. pose proof (stored_options_decode f Hwf) as Ho.
  unfold validateValue, requiresOpts, not_in_options, refused in *.
  destruct (String.eqb_spec (RegistrationField.Type_ f) "multiselect") as [Em|Em].
  - destruct (Hmulti Em) as [l ->]. rewrite Em in *. simpl in *. destruct (Ho eq_refl) as [opts ->].
    destruct (find _ l); [|done]. intros [= <-]. eauto.
  - destruct (String.eqb_spec (RegistrationField.Type_ f) "select") as [Es|Es];
      [|destruct (String.eqb_spec (RegistrationField.Type_ f) "radio") as [Er|Er]]; simpl in *; [| |done];
      (destruct (Ho eq_refl) as [opts ->]; rewrite ?Es, ?Er in Htext; destruct (Htext eq_refl) as [s ->];
       destruct (mem s _); [done|]; intros [= <-]; eauto).
Qed.

Lemma accept_encodable f raw v :
  decoded raw = true -> accept f raw = Ok v ->
  encodable v = true \/ f.(RegistrationField.Type_) = "number" /\
    exists s x, raw = AString s /\ ParseFloat s = Some x /\ json_float x = None.
Proof.
  unfold accept. intros Hd. destruct (coerceValue f raw) as [w|] eqn:Ec; [|done].
  destruct (validateValue f w); [|done]. intros [= <-]. revert Ec. unfold coerceValue. cbv zeta.
  destruct (mem _ text_types); [destruct raw; intros; simplify_eq; by left|].
  destruct (String.eqb_spec (RegistrationField.Type_ f) "number") as [Hn|_].
  - destruct raw; intros; simplify_eq; try (by left).
    destruct (ParseFloat s) as [x|] eqn:Ep; simplify_eq. unfold number. destruct (json_float x) as [t|] eqn:Ej.
    2: { right. eauto 10. }
    left. simpl. apply negb_true_iff, String.eqb_neq. intros ->. by apply json_float_not_nan in Ej.
  - destruct (String.eqb _ "checkbox"); [destruct raw; intros; simplify_eq; by left|].
    destruct (String.eqb _ "multiselect").
    + destruct raw; try done. destruct (strings_of l); [|done]. intros [= <-]. by left.
    + intros [= <-]. left. by destruct raw.
Qed.

Lemma catalogue_target t :
  mem t (map fst StandardTargets) = true ->
  t = "display_name" \/ t = "phone" \/ exists k, slot_of t = Some k.
Proof.
  unfold mem. simpl. rewrite !orb_true_iff, !String.eqb_eq. intros H.
  destruct (decide (t = "display_name")) as [|]; [by left|]. destruct (decide (t = "phone")) as [|]; [by right; left|].
  right; right. repeat (destruct H as [->|H]; [try done; by eexists|]). done.
Qed.

Lemma kind_standard f :
  field_wf f -> f.(RegistrationField.Kind) = "standard" ->
  exists t, f.(RegistrationField.StandardTarget) = Some t /\ mem t (map fst StandardTargets) = true.
Proof.
  intros (_ & Hk & _) E. unfold validateKindTargetType in Hk. rewrite E in Hk.
  change (mem "standard" allowedKinds) with true in Hk. change (String.eqb "standard" "standard") with true in Hk.
  cbn [negb] in Hk. destruct (mem (RegistrationField.Type_ f) allowedTypes); [|done]. cbn [negb] in Hk.
  destruct (RegistrationField.StandardTarget f) as [t|]; [|done].
  destruct (String.eqb t ""); [done|]. exists t. split; [done|].
  by destruct (mem t (map fst StandardTargets)).
Qed.

Lemma kind_other f : field_wf f -> f.(RegistrationField.Kind) <> "standard" -> f.(RegistrationField.Kind) = "custom".
Proof.
  intros (_ & Hk & _) E. unfold validateKindTargetType in Hk.
  destruct (mem (RegistrationField.Kind f) allowedKinds) eqn:Em; [|done]. apply mem_iff in Em.
  apply elem_of_cons in Em as [Em|Em]; [done|]. by apply list_elem_of_singleton in Em.
Qed.

Lemma custom_fields_encodable m : encodable (AMap m) = true -> encodable (AMap (custom_fields (Some m))) = true.
Proof.
  unfold custom_fields. simpl. intros Hm. destruct (map_get m "custom_fields") as [v|] eqn:E; [|done].
  apply (map_get_forall encodable) in E; [by destruct v|].
  apply List.Forall_forall. by apply forallb_forall.
Qed.

Lemma write_wf u m f v :
  field_wf f -> exists u' m', write u (Some m) f v = Ok (u', Some m') /\
    (encodable (AMap m) = true -> encodable v = true -> encodable (AMap m') = true).
Proof.
  intros Hwf. unfold write. destruct (String.eqb_spec (RegistrationField.Kind f) "standard") as [E|E].
  - destruct (kind_standard f Hwf E) as (t & -> & Ht). unfold applyStandard. cbv zeta.
    destruct (String.eqb t "display_name") eqn:E1; [by eexists _, m|].
    destruct (String.eqb t "phone") eqn:E2; [by eexists _, m|].
    destruct (catalogue_target t Ht) as [->|[->|[k ->]]]; [done..|].
    simpl set_key. cbv iota. eexists _, _. split; [reflexivity|]. intros Hm Hv. by apply map_set_encodable.
  - rewrite (kind_other f Hwf E). simpl. eexists _, _. split; [reflexivity|]. intros Hm Hv.
    apply map_set_encodable; [done|]. apply map_set_encodable; [by apply custom_fields_encodable | done].
Qed.

Section stored.
Context (extras : list (string * any)) (context : string) (form : list RegistrationField.t).
Context (Hdecoded : Forall (fun kv => decoded kv.2 = true) extras).

Definition good (m : list (string * any)) : Prop := encodable (AMap m) = true \/ not_finite extras form.

Lemma apply_field_wf f u m :
  f ∈ form -> field_wf f -> good m ->
  match apply_field extras context u (Some m) f with
  | Ok (_, meta) => exists m', meta = Some m' /\ good m'
  | Err e => refused e
  end.
Proof.
  intros Hin Hwf Hm. unfold apply_field. destruct (RegFormRepo.asked context f); [|by exists m].
  destruct (answer extras f) as [raw|] eqn:Ea.
  2: { destruct (RegistrationField.Required f); [by eexists | by exists m]. }
  destruct (accept f raw) as [v|e] eqn:Ev; [|by eapply accept_refused].
  destruct (write_wf u m f v Hwf) as (u' & m' & -> & He). exists m'. split; [done|].
  destruct Hm as [Hm|Hm]; [|by right]. pose proof (answer_decoded _ _ _ Hdecoded Ea) as Hd.
  destruct (accept_encodable _ _ _ Hd Ev) as [Hv|(Hn & s & x & -> & Hp & Hj)]; [left; auto|].
  right. by exists f, s, x.
Qed.

Lemma apply_fields_wf schema : Forall (fun f => f ∈ form /\ field_wf f) schema -> forall u m, good m ->
  match apply_fields extras context schema u (Some m) with
  | Ok (_, meta) => exists m', meta = Some m' /\ good m'
  | Err e => refused e
  end.
Proof.
  induction 1 as [|f schema [Hin Hwf] Hs IH]; intros u m Hm; simpl; [by exists m|].
  pose proof (apply_field_wf f u m Hin Hwf Hm) as Hf.
  destruct (apply_field _ _ _ _ _) as [[u1 meta]|e]; [|done]. destruct Hf as (m' & -> & Hm'). by apply IH.
Qed.
End stored.

(** C34: A stored form never fails on a new account: given the answers of a JSON
    document, it fills the account or refuses them with a bad request; the one
    exception is a number given as the text of an infinity or of no number,
    which is accepted and then cannot be written. *)
Theorem stored_form_refuses (u : User.t) (extras : list (string * any)) (schema : list RegistrationField.t)
    (context : string) :
  Forall field_wf schema -> u.(User.Metadata) = "" -> Forall (fun kv => decoded kv.2 = true) extras ->
  match Apply u extras schema context with
  | Ok _ => True
  | Err e => refused e \/ e = ErrInternal "failed to serialise user metadata" /\ not_finite extras schema
  end.
Proof.
  intros Hwf Hu Hd. unfold Apply. rewrite Hu. change (decodeMetadata "") with (Some ([] : list (string * any))).
  pose proof (apply_fields_wf extras context schema Hd schema) as H.
  assert (Hall : Forall (fun f => f ∈ schema /\ field_wf f) schema).
  { rewrite Forall_forall in *. auto. }
  specialize (H Hall u [] (or_introl eq_refl)).
  destruct (apply_fields _ _ _ _ _) as [[u1 meta]|e]; [|by left]. destruct H as (m & -> & Hm).
  unfold marshal_meta. cbn [default from_option id]. destruct (encodable (AMap m)) eqn:Em; [done|]. right. split; [done|].
  destruct Hm as [Hm|Hm]; [by rewrite Hm in Em | done].
Qed.

(** *** The form and the sign-up *)

Definition form_of (context : string) (db : DB) : list RegistrationField.t :=
  merge_sort RegFormRepo.placed (select_rows (RegFormRepo.asked context) db.(registration_fields)).

Lemma elem_of_form context db f :
  f ∈ form_of context db <->
  exists id, db.(registration_fields) !! id = Some f /\ RegFormRepo.asked context f = true.
Proof.
  unfold form_of. rewrite <-elem_of_select_rows. apply elem_of_Permutation_proper, merge_sort_Permutation.
Qed.

Lemma form_keys context db : fields_wf db.(registration_fields) -> NoDup (RegistrationField.FieldKey <$> form_of context db).
Proof.
  intros [Hid Hkey]. apply NoDup_fmap_2_strong.
  - intros f g (i & Hf & _)%elem_of_form (j & Hg & _)%elem_of_form He.
    assert (i = j) as -> by by eapply Hkey. congruence.
  - unfold form_of. rewrite merge_sort_Permutation. unfold select_rows. apply NoDup_ListNoDup, List.NoDup_filter, NoDup_ListNoDup.
    apply NoDup_fmap_2_strong; [|apply NoDup_map_to_list].
    intros [i f] [j g] Hf%elem_of_map_to_list Hg%elem_of_map_to_list He. simpl in He. subst.
    destruct (Hid _ _ Hf) as [<- _]. by destruct (Hid _ _ Hg) as [<- _].
Qed.

Lemma form_wf context db : fields_wf db.(registration_fields) -> Forall field_wf (form_of context db).
Proof. intros [Hid _]. apply Forall_forall. intros f (i & Hf & _)%elem_of_form. by apply (Hid i). Qed.

Lemma ListForContext_reads context env n db schema :
  UserSvc.ListForContext provider context env n db = Ok schema -> schema = form_of context db.
Proof.
  simpl. unfold reader_of, ListForContext, RegFormRepo.ListForContext, guard, bind, or_fail, query.
  destruct (mem context allowedContexts); simpl; [|done]. destruct (env_fail _ _); simpl; [done|]. by intros [= <-].
Qed.

(** The answers of an account that was let through. *)
Definition form_filled (context : string) (extras : list (string * any)) (old : string) (db : DB) (u : User.t) : Prop :=
  (forall id f, db.(registration_fields) !! id = Some f -> answered extras context f) /\
  exists meta, marshal_meta meta = Some u.(User.Metadata) /\
    forall k, map_get (custom_fields meta) k
              = kept_answer extras context (form_of context db) (custom_fields (decodeMetadata old)) k.

Section signup.
Context `{Platform} `{JwtLib} (s : UserSvc.Service).
Context (Hform : s.(UserSvc.regForm) = Some provider).

Lemma wp_applyRegFormExtras u extras context env st :
  fields_wf st.(st_db).(registration_fields) ->
  wp (UserSvc.applyRegFormExtras s u extras context) (fun r st' => st'.(st_db) = st.(st_db) /\
    match r with
    | Ok u' => filled u u' /\ form_filled context extras u.(User.Metadata) st.(st_db) u'
    | Err _ => True
    end) env st.
Proof.
  intros Hwf. unfold UserSvc.applyRegFormExtras. rewrite Hform. apply wp_bind, wp_ask.
  destruct (UserSvc.ListForContext provider context env _ _) as [schema|e] eqn:E; [|done].
  apply ListForContext_reads in E as ->. apply wp_ask. split; [done|]. cbn [UserSvc.Apply provider st_db bump].
  destruct (Apply u extras _ context) as [u'|] eqn:Ea; [|done].
  destruct (Apply_spec _ _ _ _ _ (form_keys _ _ Hwf) Ea) as (Hf & Ha & Hm). split; [done|]. split; [|exact Hm].
  intros id f Hid Hasked. rewrite Forall_forall in Ha. apply Ha; [|done]. apply elem_of_form. by exists id.
Qed.

(** An operation that ends with the account it was given. *)
Definition returns (m : M User.t) (u : User.t) : Prop :=
  forall env st, wp m (fun r _ => match r with Ok v => v = u | Err _ => True end) env st.

Lemma returns_ret u : returns (ret u) u.
Proof. by intros env st. Qed.

Lemma returns_then {A} (m : M A) k u : returns k u -> returns (m ;;; k) u.
Proof. intros Hk env st. apply wp_bind. unfold wp at 1. destruct (m env st) as [[a|e] st']; [apply Hk | done]. Qed.

Lemma marshal_not_empty meta raw : marshal_meta meta = Some raw -> String.eqb raw "" = false.
Proof.
  unfold marshal_meta. destruct (encodable _); [|done]. intros [= <-]. destruct meta as [m|]; [|done]. by apply String.eqb_neq.
Qed.

Lemma wp_create_account context extras u db (k : User.t -> M User.t) env st :
  form_filled context extras "" db u ->
  (forall u, returns (k u) u) ->
  wp (u <- or_fail (UserRepo.Create u) (ErrInternal "failed to create user") ;; k u)
    (fun r _ => match r with Ok u => form_filled context extras "" db u | Err _ => True end) env st.
Proof.
  intros [Ha (meta & Hm & Hk)] Hret. apply wp_bind, wp_or_fail. unfold UserRepo.Create.
  apply wp_bind, wp_BeforeCreate; [done|]. intros id n _. apply wp_bind, wp_wall_now. cbv zeta.
  match goal with |- wp (stmt _ ;;; ret ?row) _ _ _ => assert (Hrow : row.(User.Metadata) = u.(User.Metadata)) end.
  { transitivity (if String.eqb u.(User.Metadata) "" then "{}" else u.(User.Metadata)); [reflexivity|].
    by rewrite (marshal_not_empty _ _ Hm). }
  revert Hrow. match goal with |- User.Metadata ?row = _ -> _ => generalize row end. intros row Hrow.
  apply wp_bind, wp_stmt; [done|]. intros db' _ _. apply wp_ret.
  eapply wp_mono; [|apply Hret]. intros [v|e'] st2; [intros ->|done]. split; [done|]. exists meta. by rewrite Hrow.
Qed.

(** No account is registered unless every question the form asks at sign-up
    was answered when it must be, with an accepted answer, and the account
    carries the accepted answers, whatever fails and at whatever time. *)
Theorem registered_account_answers_form (input : UserSvc.RegisterInput) (env : Env) (db : DB) :
  fields_wf db.(registration_fields) ->
  let '(r, _) := run (UserSvc.Register s input) env db in
  match r with
  | Ok u => form_filled "register" input.(UserSvc.ExtraFields) "" db u
  | Err _ => True
  end.
Proof.
  intros Hwf. apply run_wp. unfold UserSvc.Register. cbv zeta. apply wp_bind, wp_read_only.
  { unfold UserSvc.check_new_account, UserSvc.validatePassword. solve_preserves ltac:(fail). }
  intros [hash|e] n; [|done]. apply wp_bind.
  eapply wp_mono; [|by apply wp_applyRegFormExtras]. intros [u|e] st' [_ Hu]; [|done].
  destruct Hu as [_ Hu]. cbn [st_db] in Hu. unfold UserSvc.withTx.
  assert (Hret : forall tx u, returns
    (match s.(UserSvc.roleAssigner) with
     | Some assign =>
         if N.eqb s.(UserSvc.defaultRoleID) uuid_nil then ret tt
         else UserSvc.assign_role u.(User.ID) s.(UserSvc.defaultRoleID) "failed to assign default role: " assign
     | None => ret tt
     end ;;;
     (if input.(UserSvc.SkipVerificationEmail) then ret tt else UserSvc.enqueueVerifyEmailInTx s tx u None) ;;;
     ret u) u) by (intros; apply returns_then, returns_then, returns_ret).
  destruct (UserSvc.withDB s).
  - apply wp_transaction; [done|]. eapply wp_mono; [|apply (wp_create_account _ _ u db _ _ _ Hu (Hret true))].
    intros [v|e] st2 Hr; [by intros _ | done].
  - exact (wp_create_account _ _ u db _ _ _ Hu (Hret false)).
Qed.
End signup.

(** *** Reordering *)

Definition moved (wall : Z) (idx : nat) (f : RegistrationField.t) : RegistrationField.t :=
  f <| RegistrationField.DisplayOrder := Z.of_nat idx |> <| RegistrationField.UpdatedAt := wall |>.

(** The rows once [ids], whose first is at the place [k], were put in order. *)
Definition placed_at (wall : Z) (k : nat) (ids : list UUID) (t t' : gmap UUID RegistrationField.t) : Prop :=
  forall id, t' !! id = match list_find (eq id) ids with
                        | Some (i, _) => moved wall (k + i) <$> t !! id
                        | None => t !! id
                        end.

Lemma set_orders ids : NoDup ids -> forall k env st,
  wp (for_each (imap (fun idx id => (Z.of_nat (k + idx), id)) ids) (fun p => RegFormRepo.set_order p.2 p.1))
    (fun r st' => is_ok r = true -> exists t, st'.(st_db) = st.(st_db) <| registration_fields := t |> /\
       placed_at env.(env_wall) k ids st.(st_db).(registration_fields) t) env st.
Proof.
  induction 1 as [|id ids Hn Hnd IH]; intros k env st.
  - apply wp_ret. intros _. exists st.(st_db).(registration_fields). split; [by destruct (st_db st) | done].
  - simpl. apply wp_bind. unfold RegFormRepo.set_order at 1. apply wp_update_table; [done|]. intros _.
    assert (Heq : imap ((fun idx i => (Z.of_nat (k + idx), i)) ∘ S) ids = imap (fun idx i => (Z.of_nat (S k + idx), i)) ids).
    { apply imap_ext. intros i x _. simpl. do 2 f_equal. lia. }
    rewrite Heq. eapply wp_mono; [|apply (IH (S k))]. intros r st' Hr Hok. destruct (Hr Hok) as (t & Hdb & Ht).
    cbn [st_db] in Hdb, Ht. exists t. split; [rewrite Hdb; by destruct (st_db st)|]. intros i. rewrite Ht. simpl.
    destruct (decide (i = id)) as [->|Hne].
    + rewrite (proj2 (list_find_None _ _)) by (rewrite Forall_forall; intros x Hx ->; done).
      simpl. rewrite lookup_alter_eq. unfold moved. by rewrite Nat.add_0_r.
    + simpl. rewrite lookup_alter_ne by done. destruct (list_find (eq i) ids) as [[j y]|]; simpl; [|done].
      by rewrite Nat.add_succ_r.
Qed.

(** A new order is stored in one piece: a refused or failed call changes
    nothing; otherwise the listed questions take their places in the list and
    no other question changes. *)
Theorem Reorder_spec (ids : list UUID) (env : Env) (db : DB) :
  NoDup ids ->
  let '(r, db') := run (Reorder ids) env db in
  match r with
  | Err _ => db' = db
  | Ok _ => exists t, db' = db <| registration_fields := t |> /\
      placed_at env.(env_wall) 0 ids db.(registration_fields) t
  end.
Proof.
  intros Hnd. apply run_wp. unfold Reorder. apply wp_bind, wp_guard; intros _; [|done].
  apply wp_or_fail. unfold RegFormRepo.Reorder. apply wp_transaction; [done|].
  eapply wp_mono; [|apply (set_orders ids Hnd 0)]. intros [[]|e] st' Hr; [|done]. intros _. by apply Hr.
Qed.

(** *** Samples *)

Definition options_text (l : list string) : string :=
  string_of_bytes (print_value (AList (map (fun v => AMap [("value", AString v); ("label", AString v)]) l))).

Definition new_question (key kind : string) (target : option string) (typ : string) (options : string) : CreateInput :=
  mkCreateInput key "Label" None None kind target typ true None options "" [].

(** A required choice and a required nickname. *)
Definition sample_calls : list (Env * call) :=
  [(UserFacts.sample_env, CCreate (new_question "team" "custom" None "select" (options_text ["red"; "blue"])));
   (mkEnv 0 0 (fun _ => false) (fun _ _ => 0) (fun _ => 77%N),
    CCreate (new_question "nick" "standard" (Some "metadata.nickname") "text" ""))].

Definition sample_form : DB := Eval vm_compute in history perform sample_calls empty_db.

Definition sample_answers : list (string * any) := [("team", AString " red "); ("nick", AString "Al")].

Lemma empty_form_wf : fields_wf ∅.
Proof. split; [intros id f | intros id id' f f']; by rewrite ?lookup_empty. Qed.

Lemma form_invariant_witness :
  fields_wf empty_db.(registration_fields) /\
  fields_wf (history perform sample_calls empty_db).(registration_fields) /\
  size (history perform sample_calls empty_db).(registration_fields) = 2%nat.
Proof.
  split; [exact empty_form_wf|]. split; [exact (form_invariant sample_calls empty_db empty_form_wf)|].
  vm_compute. reflexivity.
Defined.

Lemma sample_form_wf : fields_wf sample_form.(registration_fields).
Proof.
  change sample_form with (history perform sample_calls empty_db).
  apply (history_preserves perform keeps_form); [exact perform_keeps_form | exact empty_form_wf].
Qed.

Definition filled_user : User.t := Eval vm_compute in
  match Apply User.zero sample_answers (form_of "register" sample_form) "register" with
  | Ok u => u
  | Err _ => User.zero
  end.

Lemma Apply_spec_witness :
  let schema := form_of "register" sample_form in
  NoDup (RegistrationField.FieldKey <$> schema) /\
  Apply User.zero sample_answers schema "register" = Ok filled_user /\
  filled User.zero filled_user /\ Forall (answered sample_answers "register") schema.
Proof.
  intros schema. assert (Hnd : NoDup (RegistrationField.FieldKey <$> schema)) by exact (form_keys "register" _ sample_form_wf).
  assert (Hok : Apply User.zero sample_answers schema "register" = Ok filled_user) by (vm_compute; reflexivity).
  pose proof (Apply_spec User.zero sample_answers schema "register" filled_user Hnd Hok) as (Hf & Ha & _).
  split; [exact Hnd|]. split; [exact Hok|]. split; [exact Hf | exact Ha].
Defined.

Definition refusal (r : result User.t) : string := match r with Ok _ => "" | Err e => error_string e end.

Lemma stored_form_refuses_witness :
  let schema := form_of "register" sample_form in
  let answers := [("nick", AString "Al"); ("team", AString "green")] in
  Forall field_wf schema /\
  String.eqb (refusal (Apply User.zero answers schema "register"))
    ("field " +:+ quoted "team" +:+ " value not in options") = true /\
  match Apply User.zero answers schema "register" with
  | Ok _ => True
  | Err e => refused e \/ e = ErrInternal "failed to serialise user metadata" /\ not_finite answers schema
  end.
Proof.
  intros schema answers. assert (Hwf : Forall field_wf schema) by exact (form_wf "register" _ sample_form_wf).
  assert (Hd : Forall (fun kv => decoded kv.2 = true) answers) by (repeat constructor).
  split; [exact Hwf|]. split; [vm_compute; reflexivity|].
  exact (stored_form_refuses User.zero answers schema "register" Hwf eq_refl Hd).
Defined.

Definition form_service : UserSvc.Service :=
  UserSvc.mkService UserFacts.sample_hasher UserFacts.sample_cfg None None 0%N (Some provider)
    (fun _ _ _ _ _ => Ok tt) "" None true.

Lemma registered_account_answers_form_witness :
  let H := sample_platform in
  let H0 := sample_jwt UserFacts.sample_claims 1000 in
  let input := UserSvc.mkRegisterInput "a@b" "pw" None sample_answers true in
  let r := (run (UserSvc.Register form_service input) UserFacts.sample_env sample_form).1 in
  fields_wf sample_form.(registration_fields) /\ is_ok r = true /\
  match r with
  | Ok u => form_filled "register" sample_answers "" sample_form u
  | Err _ => True
  end.
Proof.
  intros H H0 input r. split; [exact sample_form_wf|].
  assert (Hok : is_ok r = true) by (vm_compute; reflexivity). split; [exact Hok|].
  pose proof (registered_account_answers_form form_service eq_refl input UserFacts.sample_env sample_form sample_form_wf) as Hs.
  subst r. destruct (run (UserSvc.Register form_service input) UserFacts.sample_env sample_form) as [r db']. exact Hs.
Defined.

Lemma Reorder_spec_witness :
  let ids := [77; 5]%N in
  NoDup ids /\ is_ok (run (Reorder ids) UserFacts.sample_env sample_form).1 = true /\
  match (run (Reorder ids) UserFacts.sample_env sample_form).1 with
  | Err _ => (run (Reorder ids) UserFacts.sample_env sample_form).2 = sample_form
  | Ok _ => exists t, (run (Reorder ids) UserFacts.sample_env sample_form).2 = sample_form <| registration_fields := t |> /\
      placed_at (10 * second) 0 ids sample_form.(registration_fields) t
  end.
Proof.
  intros ids. assert (Hnd : NoDup ids).
  { apply NoDup_cons. split; [by intros Hin%list_elem_of_singleton | apply NoDup_singleton]. }
  split; [exact Hnd|]. split; [vm_compute; reflexivity|].
  pose proof (Reorder_spec ids UserFacts.sample_env sample_form Hnd) as Hs.
  destruct (run (Reorder ids) UserFacts.sample_env sample_form) as [r db']. exact Hs.
Defined.

(** A question created disabled is stored enabled. *)
Example created_disabled_is_asked :
  let i := mkCreateInput "team" "Team" None None "custom" None "text" true (Some false) "" "" [] in
  match (run (Create i) UserFacts.sample_env empty_db).1 with
  | Ok f => f.(RegistrationField.Enabled) = true
  | Err _ => False
  end.
Proof. vm_compute. reflexivity. Qed.

(** The validation rules of a question are stored and never looked at. *)
Example validation_not_consulted f v raw : accept (f <| RegistrationField.Validation := v |>) raw = accept f raw.
Proof. reflexivity. Qed.

Definition question (key kind : string) (target : option string) (typ options : string) : RegistrationField.t :=
  RegistrationField.zero <| RegistrationField.FieldKey := key |> <| RegistrationField.Kind := kind |>
    <| RegistrationField.StandardTarget := target |> <| RegistrationField.Type_ := typ |>
    <| RegistrationField.Enabled := true |> <| RegistrationField.Options := options |>
    <| RegistrationField.AppliesTo := allowedContexts |>.

(** A number that is none is accepted, and the sign-up fails with a server error. *)
Example not_a_number :
  Apply User.zero [("age", AString "NaN")] [question "age" "custom" None "number" ""] "register"
  = Err (ErrInternal "failed to serialise user metadata").
Proof. vm_compute. reflexivity. Qed.

(** A question of another type than text may be aimed at a text column, which it empties. *)
Example checkbox_empties_name :
  let f := question "terms" "standard" (Some "display_name") "checkbox" "[]" in
  validateKindTargetType f.(RegistrationField.Kind) f.(RegistrationField.StandardTarget) f.(RegistrationField.Type_) = Ok tt /\
  match Apply (User.zero <| User.DisplayName := Some "Al" |>) [("terms", ABool true)] [f] "register" with
  | Ok u => u.(User.DisplayName) = Some ""
  | Err _ => False
  end.
Proof. vm_compute. by split. Qed.

Lemma drop_spaces_head l c r : drop_spaces l = c :: r -> is_space_ascii c = false.
Proof. induction l as [|d l IH]; simpl; [done|]. destruct (is_space_ascii d) eqn:E; [done|]. by intros [= -> _]. Qed.

Lemma trim_last s t c : trim_space s = String.string_of_list_ascii (t ++ [c]) -> is_space_ascii c = false.
Proof.
  unfold trim_space. intros H. apply (f_equal String.list_ascii_of_string) in H.
  rewrite !String.list_ascii_of_string_of_list_ascii in H. apply (f_equal (@rev ascii)) in H.
  rewrite rev_involutive, rev_app_distr in H. by apply drop_spaces_head in H.
Qed.

Definition spaced : RegistrationField.t := question "team" "custom" None "select" (options_text ["red "]).

(** An option with a space at its end is stored and can never be chosen. *)
Example option_never_chosen :
  validateOptions spaced.(RegistrationField.Type_) spaced.(RegistrationField.Options) = Ok tt /\
  forall s, is_ok (accept spaced (AString s)) = false.
Proof.
  split; [vm_compute; reflexivity|]. intros s.
  assert (Ho : decodeOptions spaced.(RegistrationField.Options) = Ok [FieldOption.mk "red " "red "]) by (vm_compute; reflexivity).
  unfold accept. change (coerceValue spaced (AString s)) with (@Ok any (AString (trim_space s))). cbv iota.
  unfold validateValue. change (RegistrationField.Type_ spaced) with "select".
  change (String.eqb "select" "select" || String.eqb "select" "radio") with true. cbv iota zeta. rewrite Ho.
  destruct (mem (trim_space s) _) eqn:Em; [|done]. apply mem_iff, list_elem_of_singleton in Em.
  pose proof (trim_last s ["r"; "e"; "d"]%char " "%char Em) as Hs. vm_compute in Hs. discriminate Hs.
Qed.
End RegFormFacts.
