(* ===== verification/Invitation.v ===== *)
(** * invitation/: invitations to register

    The [invitations] table (invitation/repository.go) and the service that
    issues, redeems and consumes them (invitation/service.go). *)
From S2P Require Import Prelude.
From S2P Require Import Errors.
From S2P Require Import GoLib.
From S2P Require Import Model.
From S2P Require Import Platform.
From S2P Require Import Exec.
From S2P Require Import Crypto.
From S2P Require Import ActionToken.
From S2P Require Import UserSvc.
From S2P Require Import Rbac.
From S2P Require Import Outbox.
Local Open Scope Z_scope.

(** ** invitation/repository.go *)
Module InvitationRepo.

(** The token is unique and the inviter is a user. *)
Definition Create (inv : Invitation.t) : M Invitation.t :=
  id <- BeforeCreate inv.(Invitation.ID) ;;
  wall <- wall_now ;;
  let row := inv <| Invitation.ID := id |>
                 <| Invitation.CreatedAt ::= auto_time wall |>
                 <| Invitation.UpdatedAt ::= auto_time wall |> in
  stmt (fun _ db =>
    if is_Some_b (first_row N.leb (fun i => String.eqb i.(Invitation.Token) row.(Invitation.Token)) db.(invitations))
       || is_Some_b (db.(invitations) !! id)
    then Err (EDriver "duplicate key value violates unique constraint")
    else if is_Some_b (db.(users) !! row.(Invitation.InvitedBy)) then Ok (db <| invitations ::= insert id row |>)
    else Err (EDriver "violates foreign key constraint")) ;;;
  ret row.

(** [token = ? AND used = FALSE AND expires_at > NOW()] *)
Definition redeemable (tokenHash : string) (wall : Z) (i : Invitation.t) : bool :=
  String.eqb i.(Invitation.Token) tokenHash && negb i.(Invitation.Used)
  && time_after i.(Invitation.ExpiresAt) wall.

Definition FindByToken (tokenHash : string) : M (option Invitation.t * option error) :=
  find_row Invitation.zero (fun env db => first_row N.leb (redeemable tokenHash env.(env_wall)) db.(invitations)).

Definition FindByID (id : UUID) : M (option Invitation.t * option error) :=
  find_row Invitation.zero (fun _ db => db.(invitations) !! id).

Definition newest (a b : Invitation.t) : Prop := b.(Invitation.CreatedAt) <= a.(Invitation.CreatedAt).
#[export] Instance newest_dec : RelDecision newest.
Proof. intros a b. unfold newest. apply _. Defined.

(** The count's error is not looked at; gorm leaves the total at zero. *)
Definition List (page perPage : Z) : M (list Invitation.t * Z) :=
  total <- opt (query (fun _ db => Z.of_nat (size db.(invitations)))) ;;
  let offset := int64_wrap (int64_wrap (page - 1) * perPage) in
  rows <- query (fun _ db =>
    take (Z.to_nat perPage)
      (skipn (Z.to_nat offset) (merge_sort newest (select_rows (fun _ => true) db.(invitations))))) ;;
  ret (rows, default 0 total).

(** [Save] *)
Definition MarkUsed (inv : Invitation.t) : M unit :=
  update_table (upd invitations) (fun env =>
    insert inv.(Invitation.ID) (inv <| Invitation.UpdatedAt := env.(env_wall) |>)).

Definition Delete (id : UUID) : M unit := update_table (upd invitations) (fun _ => delete id).

End InvitationRepo.

(** ** invitation/service.go *)
Module InvitationSvc.

Record Service := mkService {
  userService : UserSvc.Service;
  emailSender : option AnySender;
  withDB : bool
}.

Record CreateInput := mkCreateInput { Email : string; RoleIDs : list string }.

Record RegisterInviteInput := mkRegisterInviteInput {
  Token : string;
  Password : string;
  DisplayName : option string
}.

Section service.
Context `{Platform} `{JwtLib} (s : Service).

Definition withTx {A} (fn : bool -> M A) : M A :=
  if s.(withDB) then transaction (fn true) else fn false.

(** The invitation, and the raw token that goes into the message. *)
Definition Create (input : CreateInput) (invitedBy : UUID) : M (Invitation.t * string) :=
  rawToken <- or_fail (GenerateRandomString 32) (ErrInternal "failed to generate invitation token") ;;
  wall <- wall_now ;;
  let inv := Invitation.zero
    <| Invitation.Email := input.(Email) |>
    <| Invitation.Token := HashToken rawToken |>
    <| Invitation.RoleIDs := input.(RoleIDs) |>
    <| Invitation.InvitedBy := invitedBy |>
    <| Invitation.ExpiresAt := time_add wall (7 * 24 * hour) |> in
  inv <- withTx (fun tx =>
    inv <- or_fail (InvitationRepo.Create inv) (ErrInternal "failed to create invitation") ;;
    match s.(emailSender) with
    | None => ret tt
    | Some e => (sender_for e tx).(SendInvitationEmail) input.(Email) rawToken
    end ;;;
    ret inv) ;;
  ret (inv, rawToken).

Definition Delete (id : UUID) : M unit :=
  let! (inv, err) := InvitationRepo.FindByID id ;;
  match err, inv with
  | Some _, _ => throw (ErrInternal "failed to find invitation")
  | None, None => throw (ErrNotFound "invitation not found")
  | None, Some _ => or_fail (InvitationRepo.Delete id) (ErrInternal "failed to delete invitation")
  end.

(** Roles that do not parse or cannot be assigned are passed over. *)
Definition assign_invited_roles (u : UUID) (roleIDs : list string) : M unit :=
  for_each roleIDs (fun r =>
    match uuid_parse r with
    | None => ret tt
    | Some roleID => ignore (RbacSvc.AssignRole u roleID)
    end).

Definition mark_used (now : Z) (inv : Invitation.t) : Invitation.t :=
  inv <| Invitation.Used := true |> <| Invitation.UsedAt := Some now |>.

Definition RegisterWithInvite (input : RegisterInviteInput) : M User.t :=
  let tokenHash := HashToken input.(Token) in
  let! (inv, err) := InvitationRepo.FindByToken tokenHash ;;
  match err, inv with
  | Some _, _ => throw (ErrInternal "failed to check invitation")
  | None, None => throw (ErrBadRequest "invalid or expired invitation token")
  | None, Some inv =>
      wall <- wall_now ;;
      guard (negb (Invitation.IsExpired wall inv)) (ErrBadRequest "invitation has expired") ;;;
      newUser <- UserSvc.Register s.(userService)
        (UserSvc.mkRegisterInput inv.(Invitation.Email) input.(Password) input.(DisplayName) [] false) ;;
      let newUser := newUser <| User.EmailVerified := true |> in
      ignore (UserSvc.AdminUpdate newUser.(User.ID) (UserSvc.mkAdminUpdateInput None None None (Some true))) ;;;
      assign_invited_roles newUser.(User.ID) inv.(Invitation.RoleIDs) ;;;
      now <- wall_now ;;
      ignore (InvitationRepo.MarkUsed (mark_used now inv)) ;;;
      ret newUser
  end.

Definition ValidateToken (rawToken : string) : M (option Invitation.t) :=
  if String.eqb rawToken "" then ret None
  else
    let! (inv, err) := InvitationRepo.FindByToken (HashToken rawToken) ;;
    match err with
    | Some _ => throw (ErrInternal "failed to check invitation")
    | None =>
        wall <- wall_now ;;
        ret (match inv with
             | None => None
             | Some inv => if inv.(Invitation.Used) || Invitation.IsExpired wall inv then None else Some inv
             end)
    end.

(** [inv] is the caller's copy of the row. *)
Definition ConsumeToken (inv : Invitation.t) : M unit :=
  now <- wall_now ;;
  or_fail (InvitationRepo.MarkUsed (mark_used now inv)) (ErrInternal "failed to mark invitation as used").
End service.
End InvitationSvc.

(** ** Properties *)
Module InvitationFacts.
Import InvitationSvc.

(** What creating an account may write. *)
Definition account_tables (d d' : DB) : Prop :=
  exists u r o, d' = d <| users := u |> <| user_roles := r |> <| outbound_emails := o |>.

#[export] Instance account_tables_preorder : PreOrder account_tables.
Proof.
  split.
  - intros d. exists d.(users), d.(user_roles), d.(outbound_emails). by destruct d.
  - intros d d' d'' (u & r & o & ->) (u' & r' & o' & ->). by exists u', r', o'.
Qed.

Lemma same_invitations d d' : account_tables d d' -> d'.(invitations) = d.(invitations).
Proof. by intros (u & r & o & ->). Qed.

Lemma outbox_account {A} (m : M A) : Preserves same_but_outbox m -> Preserves account_tables m.
Proof.
  apply preserves_mono. intros d d' [t ->]. exists d.(users), d.(user_roles), t. by destruct d.
Qed.

Lemma roles_account {A} (m : M A) : Preserves same_but_roles m -> Preserves account_tables m.
Proof.
  apply preserves_mono. intros d d' [t ->]. exists d.(users), t, d.(outbound_emails). by destruct d.
Qed.

Lemma users_account d u : account_tables d (d <| users := u |>).
Proof. exists u, d.(user_roles), d.(outbound_emails). by destruct d. Qed.

#[export] Instance Create_account u : Preserves account_tables (UserRepo.Create u).
Proof.
  unfold UserRepo.Create. solve_preserves ltac:(idtac).
  apply (preserves_stmt account_tables). intros env db db'. repeat case_match; try done.
  intros [= <-]. apply users_account.
Qed.

#[export] Instance Update_account u : Preserves account_tables (UserRepo.Update u).
Proof.
  unfold UserRepo.Update. solve_preserves ltac:(idtac).
  apply (preserves_stmt account_tables). intros env db db'. case_match; [done|].
  intros [= <-]. apply users_account.
Qed.

Lemma UpdateFields_account id f : Preserves account_tables (UserRepo.UpdateFields id f).
Proof. apply (preserves_update_table account_tables). intros env db. apply users_account. Qed.

Section facts.
Context `{Platform} `{JwtLib} (s : Service).
Context (Hsender : forall e, s.(userService).(UserSvc.emailSender) = Some e -> EmailSenderLaws e).
Context (Hassign : forall a, s.(userService).(UserSvc.roleAssigner) = Some a -> RoleAssignerLaws a).
(** The registration form leaves the address alone. *)
Context (Hform : forall f u x sch c env n db u',
  s.(userService).(UserSvc.regForm) = Some f -> Apply f u x sch c env n db = Ok u' ->
  u'.(User.Email) = u.(User.Email)).

#[local] Instance AdminUpdate_account id i : Preserves account_tables (UserSvc.AdminUpdate id i).
Proof.
  unfold UserSvc.AdminUpdate, UserSvc.GetByID. solve_preserves ltac:(idtac).
Qed.

#[local] Instance roles_loop_account u l : Preserves account_tables (assign_invited_roles u l).
Proof.
  unfold assign_invited_roles. solve_preserves ltac:(idtac).
  apply roles_account. pose proof (RbacFacts.rbac_assigner_laws true u) as Ha. apply Ha.
Qed.

(** The account [u] exists, as its row tells. *)
Definition account (email : string) (u : User.t) (db : DB) : Prop :=
  exists row, db.(users) !! u.(User.ID) = Some row /\ row.(User.ID) = u.(User.ID) /\ row.(User.Email) = email.

Lemma account_alter email u f db :
  (forall r, (f r).(User.ID) = r.(User.ID) /\ (f r).(User.Email) = r.(User.Email)) ->
  account email u db -> account email u (db <| users ::= alter f u.(User.ID) |>).
Proof.
  intros Hf (row & Hrow & Hid & Hem). exists (f row). destruct (Hf row) as [Hi He].
  split; [|by rewrite Hi, He]. apply lookup_alter_Some. left. split; [done|]. by exists row.
Qed.

Lemma account_frame email u (R : relation DB) {A} (m : M A) :
  (forall d d', R d d' -> d'.(users) = d.(users)) -> Preserves R m -> Preserves (keeps (account email u)) m.
Proof. intros HR Hm env st Ha. unfold account. by rewrite (HR _ _ (Hm env st)). Qed.

#[local] Instance enqueue_account tx u rid :
  Preserves account_tables (UserSvc.enqueueVerifyEmailInTx s.(userService) tx u rid).
Proof.
  unfold UserSvc.enqueueVerifyEmailInTx. solve_preserves ltac:(apply UpdateFields_account).
  all: pose proof (Hsender _ eq_refl); apply outbox_account;
    first [by eapply tx_Verification_frame | by apply Verification_frame].
Qed.

#[local] Instance check_account e p h : Preserves account_tables (UserSvc.check_new_account s.(userService) e p h).
Proof. unfold UserSvc.check_new_account, UserSvc.validatePassword. solve_preserves ltac:(idtac). Qed.

#[local] Instance form_account u x c : Preserves account_tables (UserSvc.applyRegFormExtras s.(userService) u x c).
Proof. unfold UserSvc.applyRegFormExtras. solve_preserves ltac:(idtac). Qed.

Lemma assign_account u r p a `{RoleAssignerLaws a} : Preserves account_tables (UserSvc.assign_role u r p a).
Proof. unfold UserSvc.assign_role. solve_preserves ltac:(idtac). apply roles_account, assign_frame. Qed.

#[local] Instance Register_account input : Preserves account_tables (UserSvc.Register s.(userService) input).
Proof.
  unfold UserSvc.Register, UserSvc.withTx. solve_preserves ltac:(by apply assign_account, Hassign).
Qed.

(** The statements after the account's row keep it. *)
Lemma UpdateFields_keeps_account email u f :
  (forall r, (f r).(User.ID) = r.(User.ID) /\ (f r).(User.Email) = r.(User.Email)) ->
  Preserves (keeps (account email u)) (UserRepo.UpdateFields u.(User.ID) f).
Proof.
  intros Hf. apply (preserves_update_table (keeps (account email u))). intros env db Ha.
  apply (account_alter email u (fun r => (f r) <| User.UpdatedAt := env.(env_wall) |>) db); [apply Hf | exact Ha].
Qed.

Lemma enqueue_keeps_account email tx u rid :
  Preserves (keeps (account email u)) (UserSvc.enqueueVerifyEmailInTx s.(userService) tx u rid).
Proof.
  unfold UserSvc.enqueueVerifyEmailInTx. solve_preserves ltac:(apply UpdateFields_keeps_account; by split).
  all: pose proof (Hsender _ eq_refl); apply (account_frame email u same_but_outbox); [by intros d d' [t ->]|];
    first [by eapply tx_Verification_frame | by apply Verification_frame].
Qed.

Lemma role_keeps_account email u v r p a `{RoleAssignerLaws a} :
  Preserves (keeps (account email u)) (UserSvc.assign_role v r p a).
Proof.
  apply (account_frame email u same_but_roles); [by intros d d' [t ->]|]. unfold UserSvc.assign_role.
  solve_preserves ltac:(apply assign_frame).
Qed.

Lemma wp_Register input env st :
  let email := to_lower (trim_space input.(UserSvc.Email)) in
  wp (UserSvc.Register s.(userService) input) (fun r st' =>
    match r with
    | Ok u => (forall id row, st.(st_db).(users) !! id = Some row -> row.(User.Email) <> email) /\
        u.(User.Email) = email /\ account email u st'.(st_db)
    | Err _ => s.(userService).(UserSvc.withDB) = true -> st'.(st_db) = st.(st_db)
    end) env st.
Proof.
  intros email. unfold UserSvc.Register, UserSvc.check_new_account, UserSvc.validatePassword.
  apply wp_bind, wp_bind, wp_ask. destruct (UserSvc.passwordValidator _ _ _ _ _ _) as [[]|e]; [|done].
  unfold UserRepo.FindByEmail, UserRepo.find_user. apply wp_bind, wp_find_row; intros Hf; [done|].
  destruct (first_row _ _ _) eqn:Hnone; [done|]. rewrite first_row_None in Hnone.
  apply wp_or_fail, wp_ask. destruct (Hash _ _ _ _ _) as [hash|e]; [|done].
  apply wp_bind.
  set (u0 := (User.zero <| User.Email := _ |> <| User.PasswordHash := _ |> <| User.DisplayName := _ |> <| User.Active := true |>)).
  apply (wp_mono _ _ _ (fun r st' => st'.(st_db) = st.(st_db) /\
    forall u, r = Ok u -> u.(User.Email) = email)).
  2: { unfold UserSvc.applyRegFormExtras. destruct (UserSvc.regForm _) as [f|] eqn:Ef.
    - apply wp_bind, wp_ask. destruct (ListForContext _ _ _ _ _) as [sch|e]; [|done].
      apply wp_ask. split; [done|]. intros u Hu. by rewrite (Hform _ _ _ _ _ _ _ _ _ eq_refl Hu).
    - apply wp_ret. split; [done|]. by intros u [= <-]. }
  intros [u1|e] st1 [Hdb He]; [|done]. specialize (He u1 eq_refl).
  assert (Hbody : forall tx st2, st2.(st_db) = st.(st_db) ->
    wp (user <- or_fail (UserRepo.Create u1) (ErrInternal "failed to create user") ;;
        match s.(userService).(UserSvc.roleAssigner) with
        | Some assign =>
            if N.eqb s.(userService).(UserSvc.defaultRoleID) uuid_nil then ret tt
            else UserSvc.assign_role user.(User.ID) s.(userService).(UserSvc.defaultRoleID)
                   "failed to assign default role: " assign
        | None => ret tt
        end ;;;
        (if input.(UserSvc.SkipVerificationEmail) then ret tt
         else UserSvc.enqueueVerifyEmailInTx s.(userService) tx user None) ;;;
        ret user) (fun r st' => match r with
      | Ok u => u.(User.Email) = email /\ account email u st'.(st_db)
      | Err _ => True end) env st2).
  { intros tx st2 Hst2. apply wp_bind, wp_or_fail. eapply wp_mono; [|apply UserFacts.wp_user_Create].
    intros [u|e] st3; [|done]. intros (Hem & _ & Hdb3).
    assert (Ha : account email u st3.(st_db)).
    { exists u. rewrite Hdb3, <-He, <-Hem. split; [apply lookup_insert_eq | done]. }
    apply wp_bind, (wp_preserves (keeps (account email u)));
      [solve_preserves ltac:(by apply role_keeps_account, Hassign)|].
    intros [[]|e] st4 H4; [|done].
    apply wp_bind, (wp_preserves (keeps (account email u)));
      [solve_preserves ltac:(apply enqueue_keeps_account)|].
    intros [[]|e] st5 H5; [|done]. apply wp_ret. split; [congruence | by apply H5, H4]. }
  assert (Hfree : forall id row, st.(st_db).(users) !! id = Some row -> row.(User.Email) <> email).
  { intros id row Hid. specialize (Hnone id row Hid). by apply String.eqb_neq in Hnone. }
  unfold UserSvc.withTx. destruct (UserSvc.withDB _).
  - apply wp_transaction; [by intros e n _; simpl|]. eapply wp_mono; [|by apply Hbody].
    intros [u|e] st2; [|done]. intros [? ?] _. by split_and!.
  - eapply wp_mono; [|by apply Hbody]. intros [u|e] st2; [|done]. intros [? ?]. by split_and!.
Qed.

(** The rest of the redemption: best effort on the roles and the flags. *)
Lemma AdminUpdate_keeps_account email u :
  Preserves (keeps (account email u))
    (UserSvc.AdminUpdate u.(User.ID) (UserSvc.mkAdminUpdateInput None None None (Some true))).
Proof.
  intros env st Ha.
  change (wp (UserSvc.AdminUpdate u.(User.ID) (UserSvc.mkAdminUpdateInput None None None (Some true)))
    (fun _ st' => account email u st'.(st_db)) env st).
  unfold UserSvc.AdminUpdate, UserSvc.GetByID, UserRepo.FindByID. apply wp_bind, wp_bind, wp_find_row; intros _;
    [exact Ha|]. destruct Ha as (row & Hrow & Hid & Hem). simpl st_db. rewrite Hrow.
  apply wp_ret, wp_bind, wp_ret, wp_or_fail. unfold UserRepo.Update. apply wp_bind, wp_wall_now. cbv zeta.
  apply wp_bind, wp_stmt.
  - intros e _. by exists row.
  - intros db' _. destruct (UserRepo.email_taken _ _ _); [done|]. intros [= <-]. apply wp_ret.
    eexists. simpl. rewrite Hid. split; [apply lookup_insert_eq | done].
Qed.

Lemma roles_keep_account email u l : Preserves (keeps (account email u)) (assign_invited_roles u.(User.ID) l).
Proof.
  unfold assign_invited_roles. solve_preserves ltac:(idtac).
  apply (account_frame email u same_but_roles); [by intros d d' [t ->]|].
  pose proof (RbacFacts.rbac_assigner_laws true u.(User.ID)) as Ha. apply Ha.
Qed.

(** The invitation a token redeems at [wall]. *)
Definition redeems (db : DB) (wall : Z) (raw : string) (inv : Invitation.t) : Prop :=
  exists id, db.(invitations) !! id = Some inv /\ inv.(Invitation.Token) = HashToken raw /\
    inv.(Invitation.Used) = false /\ wall < inv.(Invitation.ExpiresAt).

Lemma wp_FindByToken raw env st (Q : result (option Invitation.t * option error) -> State -> Prop) :
  (forall i e, Q (Ok (i, Some e)) (bump st)) ->
  ((forall inv, ~ redeems st.(st_db) env.(env_wall) raw inv) -> Q (Ok (None, None)) (bump st)) ->
  (forall inv, redeems st.(st_db) env.(env_wall) raw inv -> Q (Ok (Some inv, None)) (bump st)) ->
  wp (InvitationRepo.FindByToken (HashToken raw)) Q env st.
Proof.
  intros He Hn Hs. unfold InvitationRepo.FindByToken. apply wp_find_row; intros _; [apply He|].
  destruct (first_row _ _ _) as [inv|] eqn:E.
  - apply Hs. apply first_row_Some in E as (id & Hid & Hp). unfold InvitationRepo.redeemable in Hp. bool_simpl.
    exists id. unfold time_after in *. bool_simpl. by split_and!.
  - apply Hn. rewrite first_row_None in E. intros inv (id & Hid & Ht & Hu & Hx). specialize (E _ _ Hid).
    unfold InvitationRepo.redeemable, time_after in E. rewrite Ht, Hu, String.eqb_refl in E. simpl in E.
    apply Z.ltb_ge in E. lia.
Qed.

Definition redemption (input : RegisterInviteInput) (env : Env) (db : DB) (r : result User.t) (db' : DB) : Prop :=
  match r with
  | Err _ => s.(userService).(UserSvc.withDB) = true -> db' = db
  | Ok u => exists inv,
      let email := to_lower (trim_space inv.(Invitation.Email)) in
      redeems db env.(env_wall) input.(Token) inv /\
      (forall id row, db.(users) !! id = Some row -> row.(User.Email) <> email) /\
      u.(User.Email) = email /\ account email u db' /\
      (no_faults env -> db'.(invitations) = <[inv.(Invitation.ID) :=
         (mark_used env.(env_wall) inv) <| Invitation.UpdatedAt := env.(env_wall) |>]> db.(invitations))
  end.

Lemma wp_both {A} email u (m : M A) (Q : result A -> State -> Prop) env st :
  Preserves account_tables m -> Preserves (keeps (account email u)) m ->
  (forall r st', account_tables st.(st_db) st'.(st_db) ->
     (account email u st.(st_db) -> account email u st'.(st_db)) -> Q r st') ->
  wp m Q env st.
Proof. intros H1 H2 HQ. unfold wp. apply HQ; [apply H1 | apply H2]. Qed.

Lemma wp_Register_framed input env st :
  let email := to_lower (trim_space input.(UserSvc.Email)) in
  wp (UserSvc.Register s.(userService) input) (fun r st' =>
    account_tables st.(st_db) st'.(st_db) /\
    match r with
    | Ok u => (forall id row, st.(st_db).(users) !! id = Some row -> row.(User.Email) <> email) /\
        u.(User.Email) = email /\ account email u st'.(st_db)
    | Err _ => s.(userService).(UserSvc.withDB) = true -> st'.(st_db) = st.(st_db)
    end) env st.
Proof. intros email. split; [apply Register_account | apply wp_Register]. Qed.

Lemma assign_invited_roles_ok u l env st : wp (assign_invited_roles u l) (fun r _ => r = Ok tt) env st.
Proof.
  unfold assign_invited_roles. revert st. induction l as [|r l IH]; intros st; [done|].
  cbn [for_each]. apply wp_bind. destruct (uuid_parse r) as [role|]; [|by apply wp_ret, IH].
  apply wp_ignore. unfold wp. apply IH.
Qed.

Lemma wp_assign_invited_roles email u l env st :
  wp (assign_invited_roles u.(User.ID) l) (fun r st' => r = Ok tt /\
    account_tables st.(st_db) st'.(st_db) /\
    (account email u st.(st_db) -> account email u st'.(st_db))) env st.
Proof. split; [apply assign_invited_roles_ok|]. split; [apply roles_loop_account | apply roles_keep_account]. Qed.

Lemma wp_MarkUsed inv env st :
  wp (ignore (InvitationRepo.MarkUsed inv)) (fun r st' => r = Ok tt /\ st'.(st_db).(users) = st.(st_db).(users) /\
    (no_faults env -> st'.(st_db).(invitations)
       = <[inv.(Invitation.ID) := inv <| Invitation.UpdatedAt := env.(env_wall) |>]> st.(st_db).(invitations))) env st.
Proof.
  apply wp_ignore. unfold InvitationRepo.MarkUsed. apply wp_update_table; [|done].
  intros e Hf. split; [done|]. split; [done|]. intros Hnf. by rewrite Hnf in Hf.
Qed.

Lemma wp_RegisterWithInvite input env st :
  wp (RegisterWithInvite s input) (fun r st' => redemption input env st.(st_db) r st'.(st_db)) env st.
Proof.
  unfold RegisterWithInvite. cbv zeta. apply wp_bind, wp_FindByToken; [done | done|].
  intros inv Hinv. apply wp_bind, wp_wall_now, wp_bind, wp_guard; intros _; [|done].
  apply wp_bind. eapply wp_mono; [|apply wp_Register_framed].
  intros [u|e] st1 [Hframe Hr]; [|exact Hr]. destruct Hr as (Hfree & Hem & Hacc). cbv zeta.
  cbn [UserSvc.Email] in Hfree, Hem, Hacc.
  set (u' := u <| User.EmailVerified := true |>). change (User.ID u') with (User.ID u).
  set (email := to_lower (trim_space (Invitation.Email inv))) in *.
  apply wp_bind, wp_ignore, (wp_both email u); [apply _ | apply AdminUpdate_keeps_account |].
  intros _ st2 Hf2 Hk2. apply wp_bind.
  eapply wp_mono; [|apply (wp_assign_invited_roles email u)].
  intros r3 st3 (-> & Hf3 & Hk3). apply wp_bind, wp_wall_now, wp_bind.
  eapply wp_mono; [|apply wp_MarkUsed]. intros r4 st4 (-> & Hu4 & Hi4). apply wp_ret.
  exists inv. split; [exact Hinv|]. split; [exact Hfree|]. split; [exact Hem|]. split.
  - unfold account. rewrite Hu4. by apply Hk3, Hk2.
  - intros Hnf. rewrite (Hi4 Hnf). cbn [Invitation.ID mark_used upd].
    rewrite (same_invitations _ _ Hf3), (same_invitations _ _ Hf2), (same_invitations _ _ Hframe). done.
Qed.

(** Each row is under its key, and no two share a token. *)
Definition invitations_wf (t : gmap UUID Invitation.t) : Prop :=
  forall id inv, t !! id = Some inv -> inv.(Invitation.ID) = id /\
    forall id' inv', t !! id' = Some inv' -> inv'.(Invitation.Token) = inv.(Invitation.Token) -> id' = id.


(** ** Issuing *)

Context (issuer : string) (Render : string -> EmailData.t -> Reader (string * string)).
Context (Hmailer : s.(emailSender) = Some (OutboxSender.sender issuer Render)).

(** An invitation and its message commit together: when it is issued, its
    row is stored, live for seven days and not used, and one message to its
    address is queued; when it fails, nothing changed. *)
Theorem invitation_queues_message (input : CreateInput) (invitedBy : UUID) (env : Env) (db : DB) :
  s.(withDB) = true ->
  let '(r, db') := run (InvitationSvc.Create s input invitedBy) env db in
  match r with
  | Err _ => db' = db
  | Ok (inv, raw) =>
      redeems db' env.(env_wall) raw inv /\ inv.(Invitation.Email) = input.(Email) /\
      inv.(Invitation.ExpiresAt) = env.(env_wall) + 7 * 24 * hour /\
      OutboxFacts.queued input.(Email) db db'
  end.
Proof.
  intros Hdb. apply run_wp. unfold InvitationSvc.Create, withTx. rewrite Hdb, Hmailer.
  apply wp_bind, wp_or_fail, wp_read_only; [unfold GenerateRandomString; solve_preserves ltac:(fail)|].
  intros [raw|e] n; [|done]. apply wp_bind, wp_wall_now. cbv zeta. apply wp_bind, wp_transaction; [done|].
  apply wp_bind, wp_or_fail. unfold InvitationRepo.Create.
  apply wp_bind, wp_BeforeCreate; [done|]. intros id n' _. apply wp_bind, wp_wall_now. cbv zeta.
  apply wp_bind, wp_stmt; [done|]. intros db1 _ Hdb1. destruct (_ || _); [done|].
  destruct (is_Some_b _); [|done]. injection Hdb1 as <-. apply wp_ret.
  apply wp_bind. cbn [sender_for OutboxSender.sender as_TxSender SendInvitationEmail OutboxSender.methods].
  eapply wp_mono; [|apply OutboxFacts.wp_enqueueRenderedInTx]. intros [[]|e] st2; [|done].
  intros [Hq [t Ht]]. apply wp_ret. intros _. apply wp_ret. simpl st_db. rewrite Ht. split_and!.
  - exists id. split; [apply lookup_insert_eq|]. split_and!; try done. simpl. unfold time_add, hour, minute, second. lia.
  - done.
  - done.
  - destruct Hq as (k & m & Hk & Hk' & Hm). exists k, m. by rewrite Ht in Hk'.
Qed.
End facts.

(** ** Samples *)

Definition quiet_users : UserSvc.Service :=
  UserSvc.mkService UserFacts.sample_hasher UserFacts.sample_cfg None None 0%N None
    (fun _ _ _ _ _ => Ok tt) "" None true.

Definition sample_invitations : Service :=
  mkService quiet_users (Some (OutboxSender.sender "iss" OutboxFacts.sample_render)) true.

Definition sample_invitation : Invitation.t :=
  Invitation.zero <| Invitation.ID := 3%N |> <| Invitation.Email := "New@b" |>
    <| Invitation.Token := HashToken "tok" |> <| Invitation.ExpiresAt := hour |>.

Definition invited_db : DB := UserFacts.sample_users <| invitations := {[ 3%N := sample_invitation ]} |>.

Lemma invited_wf : invitations_wf invited_db.(invitations).
Proof.
  intros id inv. change (invitations invited_db) with ({[3%N := sample_invitation]} : gmap UUID Invitation.t).
  intros [<- <-]%lookup_singleton_Some. split; [done|].
  by intros id' inv' [<- <-]%lookup_singleton_Some.
Qed.


Lemma invitation_queues_message_witness :
  let H := sample_platform in
  let H0 := sample_jwt UserFacts.sample_claims 1000 in
  let '(r, db') := run (InvitationSvc.Create sample_invitations (mkCreateInput "c@d" []) 5%N)
                     UserFacts.sample_env UserFacts.sample_users in
  is_ok r = true /\
  match r with
  | Err _ => db' = UserFacts.sample_users
  | Ok (inv, raw) =>
      redeems db' UserFacts.sample_env.(env_wall) raw inv /\ inv.(Invitation.Email) = "c@d" /\
      inv.(Invitation.ExpiresAt) = UserFacts.sample_env.(env_wall) + 7 * 24 * hour /\
      OutboxFacts.queued "c@d" UserFacts.sample_users db'
  end.
Proof.
  intros H H0.
  pose proof (invitation_queues_message sample_invitations "iss" OutboxFacts.sample_render eq_refl
    (mkCreateInput "c@d" []) 5%N UserFacts.sample_env UserFacts.sample_users eq_refl) as Hs.
  assert (Hok : is_ok (run (InvitationSvc.Create sample_invitations (mkCreateInput "c@d" []) 5%N)
                         UserFacts.sample_env UserFacts.sample_users).1 = true) by (vm_compute; reflexivity).
  destruct (run _ _ _) as [r db']. split; [exact Hok | exact Hs].
Defined.
End InvitationFacts.
