(* ===== verification/FedRepo.v ===== *)
(** * federation/: the tables

    The statements on the identity providers, the links of the accounts to
    them (federation/repository.go), and the three stores of a sign-in that is
    under way: authorization requests, links to confirm, sign-ups to complete
    (federation/state_repository.go). *)
From S2P Require Import Prelude.
From S2P Require Import Errors.
From S2P Require Import GoLib.
From S2P Require Import GoNet.
From S2P Require Import Model.
From S2P Require Import Platform.
From S2P Require Import Exec.
Local Open Scope Z_scope.

Definition duplicate_key : error := EDriver "duplicate key value violates unique constraint".
Definition foreign_key : error := EDriver "violates foreign key constraint".

(** ** federation/repository.go *)
Module FedRepo.

Definition named (name : string) (p : FederationProvider.t) : bool :=
  String.eqb p.(FederationProvider.Name) name.

Definition name_taken (t : gmap UUID FederationProvider.t) (id : UUID) (name : string) : bool :=
  is_Some_b (first_row N.leb (fun p => named name p && negb (N.eqb p.(FederationProvider.ID) id)) t).

(** gorm leaves a zero field that has a default to the database. *)
Definition provider_defaults (p : FederationProvider.t) : FederationProvider.t :=
  p <| FederationProvider.Type_ ::= fun t => if String.eqb t "" then "oidc" else t |>
    <| FederationProvider.AttributeMapper ::= fun m => if String.eqb m "" then "{}" else m |>
    <| FederationProvider.Active := true |>.

Definition CreateProvider (p : FederationProvider.t) : M FederationProvider.t :=
  id <- BeforeCreate p.(FederationProvider.ID) ;;
  wall <- wall_now ;;
  let row := (provider_defaults p) <| FederationProvider.ID := id |>
               <| FederationProvider.CreatedAt ::= auto_time wall |>
               <| FederationProvider.UpdatedAt ::= auto_time wall |> in
  stmt (fun _ db =>
    if name_taken db.(federation_providers) id row.(FederationProvider.Name)
       || is_Some_b (db.(federation_providers) !! id) then Err duplicate_key
    else Ok (db <| federation_providers ::= insert id row |>)) ;;;
  ret row.

Definition FindProviderByID (id : UUID) : M (option FederationProvider.t * option error) :=
  find_row FederationProvider.zero (fun _ db => db.(federation_providers) !! id).

(** [name = ? AND active = TRUE] *)
Definition FindProviderByName (name : string) : M (option FederationProvider.t * option error) :=
  find_row FederationProvider.zero (fun _ db =>
    first_row N.leb (fun p => named name p && p.(FederationProvider.Active)) db.(federation_providers)).

(** [Save] *)
Definition UpdateProvider (p : FederationProvider.t) : M FederationProvider.t :=
  wall <- wall_now ;;
  let row := p <| FederationProvider.UpdatedAt := wall |> in
  stmt (fun _ db =>
    if name_taken db.(federation_providers) row.(FederationProvider.ID) row.(FederationProvider.Name)
    then Err duplicate_key
    else Ok (db <| federation_providers ::= insert row.(FederationProvider.ID) row |>)) ;;;
  ret row.

(** What references a provider goes with it. *)
Definition without_provider (id : UUID) (db : DB) : DB :=
  db <| federation_providers ::= delete id |>
     <| federation_links ::= filter (fun kv => N.eqb kv.2.(FederationLink.ProviderID) id = false) |>
     <| federation_auth_requests ::= filter (fun kv => N.eqb kv.2.(FederationAuthRequest.ProviderID) id = false) |>
     <| federation_pending_links ::= filter (fun kv => N.eqb kv.2.(FederationPendingLink.ProviderID) id = false) |>
     <| federation_pending_signups ::= filter (fun kv => N.eqb kv.2.(FederationPendingSignup.ProviderID) id = false) |>.

Definition DeleteProvider (id : UUID) : M unit := stmt (fun _ db => Ok (without_provider id db)).

(** *** Links *)

(** The identity [externalID] at the provider. *)
Definition identity (providerID : UUID) (externalID : string) (l : FederationLink.t) : bool :=
  N.eqb l.(FederationLink.ProviderID) providerID && String.eqb l.(FederationLink.ExternalID) externalID.

(** An identity is linked once, to a user and a provider that exist. *)
Definition CreateLink (l : FederationLink.t) : M FederationLink.t :=
  id <- BeforeCreate l.(FederationLink.ID) ;;
  wall <- wall_now ;;
  let row := l <| FederationLink.ID := id |>
               <| FederationLink.CreatedAt ::= auto_time wall |>
               <| FederationLink.UpdatedAt ::= auto_time wall |> in
  stmt (fun _ db =>
    if is_Some_b (first_row N.leb (identity row.(FederationLink.ProviderID) row.(FederationLink.ExternalID))
                    db.(federation_links))
       || is_Some_b (db.(federation_links) !! id) then Err duplicate_key
    else if is_Some_b (db.(users) !! row.(FederationLink.UserID))
            && is_Some_b (db.(federation_providers) !! row.(FederationLink.ProviderID))
    then Ok (db <| federation_links ::= insert id row |>)
    else Err foreign_key) ;;;
  ret row.

Definition FindLink (providerID : UUID) (externalID : string) : M (option FederationLink.t * option error) :=
  find_row FederationLink.zero (fun _ db => first_row N.leb (identity providerID externalID) db.(federation_links)).

Definition FindLinksByUser (userID : UUID) : M (list FederationLink.t) :=
  query (fun _ db => select_rows (fun l => N.eqb l.(FederationLink.UserID) userID) db.(federation_links)).

Definition DeleteLink (id : UUID) : M unit := update_table (upd federation_links) (fun _ => delete id).

Definition FindLinkByID (id : UUID) : M (option FederationLink.t * option error) :=
  find_row FederationLink.zero (fun _ db => db.(federation_links) !! id).

End FedRepo.

(** ** federation/state_repository.go *)
Module StateRepo.

Definition record_not_found : error := EDriver "record not found".

(** [errors.Is(err, gorm.ErrRecordNotFound)] *)
Definition not_found (e : error) : bool :=
  match e with EDriver m => String.eqb m "record not found" | _ => false end.

(** A row is read and deleted in a transaction; it is answered unless it expired. *)
Definition consume {R} (zero : R) (find : DB -> option R) (del : M unit) (expires : R -> Z) : M (option R) :=
  r <- attempt (transaction (
         let! (row, err) := find_row zero (fun _ db => find db) ;;
         match err, row with
         | Some e, _ => throw e
         | None, None => throw record_not_found
         | None, Some row => del ;;; ret row
         end)) ;;
  match r with
  | Err e => if not_found e then ret None else throw e
  | Ok row =>
      wall <- wall_now ;;
      ret (if time_after wall (expires row) then None else Some row)
  end.

Definition expired {R} (expires : R -> Z) (wall : Z) (r : R) : bool := time_before (expires r) wall.

(** A state belongs to a provider, and may be bound to a user. *)
Definition InsertAuthRequest (req : FederationAuthRequest.t) : M unit :=
  wall <- wall_now ;;
  let row := req <| FederationAuthRequest.CreatedAt ::= auto_time wall |> in
  stmt (fun _ db =>
    if is_Some_b (db.(federation_auth_requests) !! row.(FederationAuthRequest.State)) then Err duplicate_key
    else if is_Some_b (db.(federation_providers) !! row.(FederationAuthRequest.ProviderID))
            && match row.(FederationAuthRequest.LinkUserID) with
               | Some u => is_Some_b (db.(users) !! u)
               | None => true
               end
    then Ok (db <| federation_auth_requests ::= insert row.(FederationAuthRequest.State) row |>)
    else Err foreign_key).

Definition ConsumeAuthRequest (state : string) : M (option FederationAuthRequest.t) :=
  consume FederationAuthRequest.zero (fun db => db.(federation_auth_requests) !! state)
    (update_table (upd federation_auth_requests) (fun _ => delete state)) FederationAuthRequest.ExpiresAt.

Definition DeleteExpiredAuthRequests : M Z :=
  db <- get_db ;;
  wall <- wall_now ;;
  update_table (upd federation_auth_requests) (fun _ =>
    filter (fun kv => expired FederationAuthRequest.ExpiresAt wall kv.2 = false)) ;;;
  ret (count_rows (expired FederationAuthRequest.ExpiresAt wall) db.(federation_auth_requests)).

Definition InsertPendingLink (p : FederationPendingLink.t) : M unit :=
  wall <- wall_now ;;
  let row := p <| FederationPendingLink.CreatedAt ::= auto_time wall |> in
  stmt (fun _ db =>
    if is_Some_b (db.(federation_pending_links) !! row.(FederationPendingLink.TokenHash)) then Err duplicate_key
    else if is_Some_b (db.(users) !! row.(FederationPendingLink.UserID))
            && is_Some_b (db.(federation_providers) !! row.(FederationPendingLink.ProviderID))
    then Ok (db <| federation_pending_links ::= insert row.(FederationPendingLink.TokenHash) row |>)
    else Err foreign_key).

Definition ConsumePendingLink (tokenHash : string) : M (option FederationPendingLink.t) :=
  consume FederationPendingLink.zero (fun db => db.(federation_pending_links) !! tokenHash)
    (update_table (upd federation_pending_links) (fun _ => delete tokenHash)) FederationPendingLink.ExpiresAt.

Definition DeleteExpiredPendingLinks : M Z :=
  db <- get_db ;;
  wall <- wall_now ;;
  update_table (upd federation_pending_links) (fun _ =>
    filter (fun kv => expired FederationPendingLink.ExpiresAt wall kv.2 = false)) ;;;
  ret (count_rows (expired FederationPendingLink.ExpiresAt wall) db.(federation_pending_links)).

Definition InsertPendingSignup (p : FederationPendingSignup.t) : M unit :=
  wall <- wall_now ;;
  let row := p <| FederationPendingSignup.CreatedAt ::= auto_time wall |> in
  stmt (fun _ db =>
    if is_Some_b (db.(federation_pending_signups) !! row.(FederationPendingSignup.TokenHash)) then Err duplicate_key
    else if is_Some_b (db.(federation_providers) !! row.(FederationPendingSignup.ProviderID))
    then Ok (db <| federation_pending_signups ::= insert row.(FederationPendingSignup.TokenHash) row |>)
    else Err foreign_key).

Definition ConsumePendingSignup (tokenHash : string) : M (option FederationPendingSignup.t) :=
  consume FederationPendingSignup.zero (fun db => db.(federation_pending_signups) !! tokenHash)
    (update_table (upd federation_pending_signups) (fun _ => delete tokenHash)) FederationPendingSignup.ExpiresAt.

(** The row stays. *)
Definition GetPendingSignup (tokenHash : string) : M (option FederationPendingSignup.t) :=
  let! (p, err) := find_row FederationPendingSignup.zero (fun _ db => db.(federation_pending_signups) !! tokenHash) ;;
  match err, p with
  | Some e, _ => throw e
  | None, None => ret None
  | None, Some p =>
      wall <- wall_now ;;
      ret (if time_after wall p.(FederationPendingSignup.ExpiresAt) then None else Some p)
  end.

Definition DeleteExpiredPendingSignups : M Z :=
  db <- get_db ;;
  wall <- wall_now ;;
  update_table (upd federation_pending_signups) (fun _ =>
    filter (fun kv => expired FederationPendingSignup.ExpiresAt wall kv.2 = false)) ;;;
  ret (count_rows (expired FederationPendingSignup.ExpiresAt wall) db.(federation_pending_signups)).

End StateRepo.

(** ** What the stores do *)
Module StoreFacts.

(** A live row is answered and is gone; no other row is touched.  A row that
    expired is gone too, and an absent one changes nothing. *)
Lemma wp_consume {R} (zero : R) find (set : (gmap string R -> gmap string R) -> DB -> DB) k expires env st
    (Q : result (option R) -> State -> Prop) :
  (forall e st', st'.(st_db) = st.(st_db) -> Q (Err e) st') ->
  (forall n, find st.(st_db) = None -> Q (Ok None) (mkState st.(st_db) n)) ->
  (forall row n, find st.(st_db) = Some row ->
     Q (Ok (if time_after env.(env_wall) (expires row) then None else Some row))
       (mkState (set (delete k) st.(st_db)) n)) ->
  wp (StateRepo.consume zero find (update_table set (fun _ => delete k)) expires) Q env st.
Proof.
  intros He Hnone Hrow. unfold StateRepo.consume. apply wp_bind, wp_attempt.
  eapply (wp_mono _ _ _ (fun r st' => match r with
    | Ok row => find st.(st_db) = Some row /\ st'.(st_db) = set (delete k) st.(st_db)
    | Err e => st'.(st_db) = st.(st_db) /\ (StateRepo.not_found e = true -> find st.(st_db) = None)
    end)).
  - intros [row|e] [db n]; simpl st_db.
    + intros [Hf ->]. apply wp_bind, wp_wall_now, wp_ret. by apply Hrow.
    + intros [-> Hnf]. destruct (StateRepo.not_found e); [apply wp_ret, Hnone; auto | by apply wp_throw, He].
  - unfold wp, transaction. destruct (env_fail env (st_step st)); [split; [done|]; by intros|].
    unfold bind, find_row. destruct (env_fail env (st_step (bump st))); [split; [done|]; by intros|].
    cbn [bump st_db st_step]. destruct (find (st_db st)) as [row|] eqn:E; [|by split].
    unfold update_table, stmt. cbn [st_step st_db].
    destruct (env_fail env _); [split; [done|]; by intros|]. cbn [st_step st_db fst snd ret].
    unfold ret. cbn [st_step st_db]. destruct (env_fail env _); split; try done; by intros.
Qed.
End StoreFacts.
