(* ===== verification/Federation.v ===== *)
(** * federation/: signing in through other providers

    The administration of the providers, the redirection to one and the
    callback (federation/service.go, federation/oauth_client.go), and what an
    identity a provider vouches for becomes here: a sign-in, a link to confirm,
    a sign-up to complete (federation/provisioning.go).  The OAuth client
    (golang.org/x/oauth2), the OpenID client (github.com/coreos/go-oidc) and
    the GET of the user information are parameters. *)
From S2P Require Import Prelude.
From S2P Require Import Errors.
From S2P Require Import GoLib.
From S2P Require Import GoNet.
From S2P Require Import Model.
From S2P Require Import Platform.
From S2P Require Import Exec.
From S2P Require Import NetSafety.
From S2P Require Import Crypto.
From S2P Require Import Aes.
From S2P Require Import Scopes.
From S2P Require Import ActionToken.
From S2P Require GoEnc.
From S2P Require Import UserSvc.
From S2P Require Import Middleware.
From S2P Require Import Json.
From S2P Require Import JsonTree.
From S2P Require Import ProcMem.
From S2P Require Import Settings.
From S2P Require Import Invitation.
From S2P Require Import FedRepo.
From Stdlib Require Import Ascii.
Local Open Scope Z_scope.

(** ** The libraries *)

(** [oauth2.Config] *)
Record Config := mkConfig {
  ClientID : string;
  ClientSecret : string;
  RedirectURL : string;
  AuthURL : string;
  TokenURL : string;
  cfg_Scopes : list string
}.

(** [NewProvider] fetches the metadata of an issuer; [Exchange] posts the code
    with the verifier; [Verify] checks an identity token for a client and
    answers its nonce and its claims; [Get] fetches a URL with a token. *)
Class IdentityLib := {
  Provider : Type;
  Token : Type;
  NewProvider : string -> Reader Provider;
  Endpoint : Provider -> string * string;
  userinfo_endpoint : Provider -> result string;
  AuthCodeURL : Config -> string -> list (string * string) -> string;
  Exchange : Config -> string -> string -> Reader Token;
  id_token : Token -> string;
  Verify : Provider -> string -> string -> Reader (string * option (list (string * any)));
  Get : Config -> Token -> string -> Reader (Z * string)
}.

(** ** federation/oauth_client.go *)
Section builder.
Context `{IdentityLib}.

Definition ProviderTypeOIDC : string := "oidc".
Definition ProviderTypeOAuth2 : string := "oauth2".

(** [Verifier] is that of a provider for a client; there is one for OpenID
    providers only. *)
Record OAuthClient := mkOAuthClient {
  client_Config : Config;
  Verifier : option (Provider * string);
  client_UserinfoURL : string
}.

Record builderEntry := mkEntry {
  entry_updatedAt : Z;
  entry_provider : Provider;
  entry_userinfoURL : string;
  entry_clientID : string
}.

(** The cache of the builder, by provider. *)
Definition Cache : Type := gmap UUID builderEntry.

Definition Invalidate (id : UUID) : PM Cache unit := set_memory (delete id).

(** A cached entry is good while the row was not written since and has the same client. *)
Definition fresh (p : FederationProvider.t) (e : builderEntry) : bool :=
  negb (time_after p.(FederationProvider.UpdatedAt) e.(entry_updatedAt))
  && String.eqb e.(entry_clientID) p.(FederationProvider.ClientID).

Definition discover (p : FederationProvider.t) (issuer : string) : M builderEntry :=
  provider <- map_err (ask (NewProvider issuer))
    (fun e => ErrInternal ("oidc discovery failed: " +:+ error_string e)) ;;
  userinfo <- map_err (of_result (userinfo_endpoint provider))
    (fun e => ErrInternal ("oidc discovery claims unreadable: " +:+ error_string e)) ;;
  ret (mkEntry p.(FederationProvider.UpdatedAt) provider userinfo p.(FederationProvider.ClientID)).

Definition oidcEntry (p : FederationProvider.t) (issuer : string) : PM Cache builderEntry :=
  cache <~ memory ;;
  match cache !! p.(FederationProvider.ID) with
  | Some e => if fresh p e then retP e
              else e <~ liftP (discover p issuer) ;;
                   set_memory (insert p.(FederationProvider.ID) e) ~;; retP e
  | None => e <~ liftP (discover p issuer) ;;
            set_memory (insert p.(FederationProvider.ID) e) ~;; retP e
  end.

Definition forOIDC (p : FederationProvider.t) (clientSecret redirectURL : string) : PM Cache OAuthClient :=
  match p.(FederationProvider.IssuerURL) with
  | None => throwP (ErrBadRequest "oidc provider requires issuer_url")
  | Some issuer =>
      guardP (negb (String.eqb issuer "")) (ErrBadRequest "oidc provider requires issuer_url") ~;;
      entry <~ oidcEntry p issuer ;;
      let '(authURL, tokenURL) := Endpoint entry.(entry_provider) in
      let userinfo := match p.(FederationProvider.UserinfoURL) with
                      | Some u => if String.eqb u "" then entry.(entry_userinfoURL) else u
                      | None => entry.(entry_userinfoURL)
                      end in
      retP (mkOAuthClient
        (mkConfig p.(FederationProvider.ClientID) clientSecret redirectURL authURL tokenURL p.(FederationProvider.Scopes))
        (Some (entry.(entry_provider), entry.(entry_clientID))) userinfo)
  end.

Definition forOAuth2 (p : FederationProvider.t) (clientSecret redirectURL : string) : OAuthClient :=
  mkOAuthClient
    (mkConfig p.(FederationProvider.ClientID) clientSecret redirectURL
       (default "" p.(FederationProvider.AuthorizationURL)) (default "" p.(FederationProvider.TokenURL))
       p.(FederationProvider.Scopes))
    None (default "" p.(FederationProvider.UserinfoURL)).

Definition ForProvider (p : FederationProvider.t) (clientSecret redirectURL : string) : PM Cache OAuthClient :=
  if String.eqb p.(FederationProvider.Type_) ProviderTypeOIDC then forOIDC p clientSecret redirectURL
  else if String.eqb p.(FederationProvider.Type_) ProviderTypeOAuth2 then retP (forOAuth2 p clientSecret redirectURL)
  else throwP (ErrBadRequest ("unsupported federation provider type " +:+ quoted p.(FederationProvider.Type_))).

End builder.

(** ** federation/service.go *)

Definition q : string := String dquote EmptyString.

Definition mapper_keys : list (string * string) :=
  [("external_id", "sub"); ("email", "email"); ("email_verified", "email_verified"); ("name", "name");
   ("picture", "picture")].

Definition defaultAttributeMapper : string :=
  string_of_bytes (print_value (AMap (map (fun kv => (kv.1, AString kv.2)) mapper_keys))).

Definition allowedMapperKeys : list string := map fst mapper_keys.

(** The keys are visited in some order; the error is that of the first bad one. *)
Fixpoint check_mapper (m : list (string * any)) : result unit :=
  match m with
  | [] => Ok tt
  | (k, v) :: m =>
      if negb (mem k allowedMapperKeys)
      then Err (ErrBadRequest ("attribute_mapper key " +:+ quoted k +:+ " is not allowed"))
      else match v with
           | AString _ => check_mapper m
           | _ => Err (ErrBadRequest ("attribute_mapper[" +:+ quoted k +:+ "] must be a string"))
           end
  end.

Definition validateAttributeMapper (raw : string) : result unit :=
  if String.eqb raw "" then Ok tt
  else match unmarshal_object raw with
       | Some m => check_mapper (default [] m)
       | None => Err (ErrBadRequest "attribute_mapper must be a JSON object")
       end.

(** The normalised view of an external identity. *)
Module ProviderClaims.
Record t := mk {
  ExternalID : string;
  Email : string;
  EmailVerified : bool;
  Name : string;
  Picture : string;
  Raw : option (list (string * any))
}.
#[global] Instance eta_t : Eta t := fun r => mk
  (r.(ExternalID)) (r.(Email)) (r.(EmailVerified)) (r.(Name)) (r.(Picture)) (r.(Raw)).
End ProviderClaims.

(** The claim a field of the mapper names. *)
Definition claim_of (m : list (string * any)) (raw : list (string * any)) (key : string) : option any :=
  match map_get m key with
  | Some (AString claim) => if String.eqb claim "" then None else map_get raw claim
  | _ => None
  end.

Definition pick (m raw : list (string * any)) (key : string) : string :=
  match claim_of m raw key with Some (AString s) => s | _ => "" end.

Definition pickBool (m raw : list (string * any)) (key : string) : bool :=
  match claim_of m raw key with Some (ABool b) => b | _ => false end.

(** A [map[string]string]; a null keeps the key with an empty text. *)
Definition text_values (m : list (string * any)) : option (list (string * any)) :=
  mapM (fun kv => match kv.2 with
                  | AString _ => Some kv
                  | ANil => Some (kv.1, AString "")
                  | _ => None
                  end) m.

Definition applyAttributeMapper (raw : option (list (string * any))) (mapper : string) : result ProviderClaims.t :=
  let source := if String.eqb mapper "" then defaultAttributeMapper else mapper in
  match (m ← unmarshal_object source; text_values (default [] m)) with
  | None => Err (ErrInternal "invalid attribute_mapper stored on provider")
  | Some m =>
      let raw' := default [] raw in
      Ok (ProviderClaims.mk (pick m raw' "external_id") (pick m raw' "email") (pickBool m raw' "email_verified")
            (pick m raw' "name") (pick m raw' "picture") None)
  end.

(** The wiring: the store of states and the other services may be missing. *)
Record Service := mkService {
  stateStore : bool;
  userService : option UserSvc.Service;
  registrationGate : bool;
  invitationService : bool;
  authUIBase : string;
  allowedReturnToOrigins : list string;
  issuer : string;
  hmacEncryptionKey : list Z
}.

Record CreateProviderInput := mkCreateProviderInput {
  cp_Name : string;
  cp_DisplayName : option string;
  cp_Type : string;
  cp_ClientID : string;
  cp_ClientSecret : string;
  cp_IssuerURL : option string;
  cp_AuthorizationURL : option string;
  cp_TokenURL : option string;
  cp_UserinfoURL : option string;
  cp_JWKSUri : option string;
  cp_Scopes : list string;
  cp_AttributeMapper : string;
  cp_SyncOnLogin : option bool;
  cp_AllowLinkConfirmation : option bool
}.

Record UpdateProviderInput := mkUpdateProviderInput {
  up_DisplayName : option string;
  up_Type : option string;
  up_ClientID : option string;
  up_ClientSecret : option string;
  up_IssuerURL : option string;
  up_AuthorizationURL : option string;
  up_TokenURL : option string;
  up_UserinfoURL : option string;
  up_JWKSUri : option string;
  up_Scopes : option (list string);
  up_AttributeMapper : string;
  up_SyncOnLogin : option bool;
  up_AllowLinkConfirmation : option bool;
  up_Active : option bool
}.

Record InitOptions := mkInitOptions {
  opt_ReturnTo : string;
  opt_OAuthRequestID : option UUID;
  opt_InvitationToken : string;
  opt_LinkUserID : option UUID;
  opt_IPAddress : string;
  opt_UserAgent : string
}.

Record CallbackContext := mkCallbackContext {
  cb_Provider : FederationProvider.t;
  cb_AuthRequest : FederationAuthRequest.t;
  cb_Claims : ProviderClaims.t;
  cb_RawIDToken : string
}.

(** [strings.TrimRight(s, "/")] *)
Fixpoint trim_slashes (s : string) : string :=
  match s with
  | EmptyString => EmptyString
  | String c r =>
      match trim_slashes r with
      | EmptyString => if Ascii.eqb c "/" then EmptyString else String c EmptyString
      | r => String c r
      end
  end.

Definition nullableString (s : string) : option string := if String.eqb s "" then None else Some s.

Definition authRequestTTL : Z := 10 * minute.
Definition pendingLinkTTL : Z := 5 * minute.
Definition pendingSignupTTL : Z := 15 * minute.

Module FedSvc.
Section service.
Context `{Platform} `{JwtLib} `{NetLib} `{IdentityLib} (s : Service).

(** The URLs that are given are checked in their order. *)
Fixpoint validateProviderURLs (urls : list (string * option string)) : M unit :=
  match urls with
  | [] => ret tt
  | (field, u) :: urls =>
      match u with
      | None => ret tt
      | Some u =>
          if String.eqb u "" then ret tt
          else map_err (ValidatePublicHTTPSURL u)
                 (fun e => ErrBadRequest ("invalid " +:+ field +:+ ": " +:+ error_string e))
      end ;;;
      validateProviderURLs urls
  end.

Definition AuthUIBaseURL : string :=
  if String.eqb s.(authUIBase) "" then trim_slashes s.(issuer) +:+ "/ui" else s.(authUIBase).

Definition sealSecret (plaintext : string) : M (list Z) :=
  guard (negb (Nat.eqb (length s.(hmacEncryptionKey)) 0))
    (ErrBadRequest "federation client_secret encryption is not configured (auth.hmac_secret_encryption_key is unset)") ;;;
  EncryptHMACSecret (bytes_of plaintext) s.(hmacEncryptionKey).

Definition RevealSecret (p : FederationProvider.t) : result string :=
  if negb (Nat.eqb (length p.(FederationProvider.ClientSecretEncrypted)) 0) then
    if Nat.eqb (length s.(hmacEncryptionKey)) 0
    then Err (ErrInternal "encrypted federation secret cannot be opened (auth.hmac_secret_encryption_key is unset)")
    else match DecryptHMACSecret p.(FederationProvider.ClientSecretEncrypted) s.(hmacEncryptionKey) with
         | Ok raw => Ok (string_of_bytes raw)
         | Err _ => Err (ErrInternal "failed to decrypt federation client_secret")
         end
  else match p.(FederationProvider.ClientSecret) with
       | Some c => if String.eqb c "" then Err (ErrInternal "federation provider has no client_secret configured") else Ok c
       | None => Err (ErrInternal "federation provider has no client_secret configured")
       end.

Definition known_type (t : string) : bool := String.eqb t ProviderTypeOIDC || String.eqb t ProviderTypeOAuth2.

Definition bad_type : error := ErrBadRequest "type must be 'oidc' or 'oauth2'".

Definition new_provider (i : CreateProviderInput) (secret : list Z) : FederationProvider.t :=
  FederationProvider.zero
    <| FederationProvider.Name := i.(cp_Name) |>
    <| FederationProvider.DisplayName := i.(cp_DisplayName) |>
    <| FederationProvider.Type_ := i.(cp_Type) |>
    <| FederationProvider.ClientID := i.(cp_ClientID) |>
    <| FederationProvider.ClientSecretEncrypted := secret |>
    <| FederationProvider.IssuerURL := i.(cp_IssuerURL) |>
    <| FederationProvider.AuthorizationURL := i.(cp_AuthorizationURL) |>
    <| FederationProvider.TokenURL := i.(cp_TokenURL) |>
    <| FederationProvider.UserinfoURL := i.(cp_UserinfoURL) |>
    <| FederationProvider.JWKSUri := i.(cp_JWKSUri) |>
    <| FederationProvider.Scopes := i.(cp_Scopes) |>
    <| FederationProvider.AttributeMapper :=
         (if String.eqb i.(cp_AttributeMapper) "" then defaultAttributeMapper else i.(cp_AttributeMapper)) |>
    <| FederationProvider.SyncOnLogin := default false i.(cp_SyncOnLogin) |>
    <| FederationProvider.AllowLinkConfirmation := default false i.(cp_AllowLinkConfirmation) |>
    <| FederationProvider.Active := true |>.

(** The error of the lookup is not looked at; it comes with a row. *)
Definition CreateProvider (i : CreateProviderInput) : M FederationProvider.t :=
  let! (existing, _) := FedRepo.FindProviderByName i.(cp_Name) ;;
  guard (negb (is_Some_b existing)) (ErrConflict "provider name already exists") ;;;
  of_result (validateAttributeMapper i.(cp_AttributeMapper)) ;;;
  guard (known_type i.(cp_Type)) bad_type ;;;
  validateProviderURLs
    [("issuer_url", i.(cp_IssuerURL)); ("authorization_url", i.(cp_AuthorizationURL));
     ("token_url", i.(cp_TokenURL)); ("userinfo_url", i.(cp_UserinfoURL)); ("jwks_uri", i.(cp_JWKSUri))] ;;;
  secret <- sealSecret i.(cp_ClientSecret) ;;
  or_fail (FedRepo.CreateProvider (new_provider i secret)) (ErrInternal "failed to create provider").

(** A lookup that is answered with an error or with no row. *)
Definition found {A} (m : M (option A * option error)) (e : error) : M A :=
  let! (row, err) := m ;;
  match err, row with None, Some a => ret a | _, _ => throw e end.

Definition GetProvider (id : UUID) : M FederationProvider.t :=
  found (FedRepo.FindProviderByID id) (ErrNotFound "provider not found").

(** What an update writes, the secret apart. *)
Definition set_provider (i : UpdateProviderInput) (p : FederationProvider.t) : FederationProvider.t :=
  let opt {A} (new old : option A) := match new with Some _ => new | None => old end in
  p <| FederationProvider.DisplayName ::= opt i.(up_DisplayName) |>
    <| FederationProvider.Type_ ::= fun t => default t i.(up_Type) |>
    <| FederationProvider.ClientID ::= fun c => default c i.(up_ClientID) |>
    <| FederationProvider.IssuerURL ::= opt i.(up_IssuerURL) |>
    <| FederationProvider.AuthorizationURL ::= opt i.(up_AuthorizationURL) |>
    <| FederationProvider.TokenURL ::= opt i.(up_TokenURL) |>
    <| FederationProvider.UserinfoURL ::= opt i.(up_UserinfoURL) |>
    <| FederationProvider.JWKSUri ::= opt i.(up_JWKSUri) |>
    <| FederationProvider.Scopes ::= fun l => default l i.(up_Scopes) |>
    <| FederationProvider.AttributeMapper ::= fun m =>
         if String.eqb i.(up_AttributeMapper) "" then m else i.(up_AttributeMapper) |>
    <| FederationProvider.SyncOnLogin ::= fun b => default b i.(up_SyncOnLogin) |>
    <| FederationProvider.AllowLinkConfirmation ::= fun b => default b i.(up_AllowLinkConfirmation) |>
    <| FederationProvider.Active ::= fun b => default b i.(up_Active) |>.

(** The part of an update that uses the database only. *)
Definition update_row (id : UUID) (i : UpdateProviderInput) : M FederationProvider.t :=
  p <- GetProvider id ;;
  of_result (validateAttributeMapper i.(up_AttributeMapper)) ;;;
  validateProviderURLs
    [("issuer_url", i.(up_IssuerURL)); ("authorization_url", i.(up_AuthorizationURL));
     ("token_url", i.(up_TokenURL)); ("userinfo_url", i.(up_UserinfoURL)); ("jwks_uri", i.(up_JWKSUri))] ;;;
  guard (match i.(up_Type) with Some t => known_type t | None => true end) bad_type ;;;
  p <- match i.(up_ClientSecret) with
       | None => ret p
       | Some c =>
           secret <- sealSecret c ;;
           ret (p <| FederationProvider.ClientSecretEncrypted := secret |>
                  <| FederationProvider.ClientSecret := None |>)
       end ;;
  or_fail (FedRepo.UpdateProvider (set_provider i p)) (ErrInternal "failed to update provider").

Definition UpdateProvider (id : UUID) (i : UpdateProviderInput) : PM Cache FederationProvider.t :=
  p <~ liftP (update_row id i) ;;
  Invalidate p.(FederationProvider.ID) ~;;
  retP p.

Definition DeleteProvider (id : UUID) : PM Cache unit :=
  liftP (GetProvider id ;;; FedRepo.DeleteProvider id) ~;;
  Invalidate id.

(** *** The redirection to a provider *)

Definition callbackURL (p : FederationProvider.t) : string :=
  s.(issuer) +:+ "/api/v1/auth/federation/" +:+ p.(FederationProvider.Name) +:+ "/callback".

Definition pkceS256Challenge (verifier : string) : string := base64_raw_url (sha256 (bytes_of verifier)).

Definition random (n : nat) (what : string) : M string :=
  or_fail (GenerateRandomString n) (ErrInternal ("failed to generate " +:+ what)).

Definition new_auth_request (state verifier nonce : string) (p : FederationProvider.t) (o : InitOptions) (wall : Z)
    : FederationAuthRequest.t :=
  FederationAuthRequest.mk state p.(FederationProvider.ID) verifier nonce (nullableString o.(opt_ReturnTo))
    o.(opt_OAuthRequestID) (nullableString o.(opt_InvitationToken)) o.(opt_LinkUserID)
    (nullableString o.(opt_IPAddress)) (nullableString o.(opt_UserAgent)) time_zero (time_add wall authRequestTTL).

Definition InitSocialLogin (providerName : string) (o : InitOptions) : PM Cache string :=
  guardP s.(stateStore) (ErrInternal "federation state store is not configured") ~;;
  provider <~ liftP (found (FedRepo.FindProviderByName providerName) (ErrNotFound "provider not found")) ;;
  secret <~ of_resultP (RevealSecret provider) ;;
  state <~ liftP (random 32 "state") ;;
  codeVerifier <~ liftP (random 32 "PKCE verifier") ;;
  nonce <~ liftP (random 16 "nonce") ;;
  oc <~ ForProvider provider secret (callbackURL provider) ;;
  let authURL := AuthCodeURL oc.(client_Config) state
    [("access_type", "offline"); ("code_challenge", pkceS256Challenge codeVerifier);
     ("code_challenge_method", "S256"); ("nonce", nonce)] in
  wall <~ liftP wall_now ;;
  liftP (or_fail (StateRepo.InsertAuthRequest (new_auth_request state codeVerifier nonce provider o wall))
           (ErrInternal "failed to persist federation auth request")) ~;;
  retP authURL.

(** A link carries no continuation of a sign-in. *)
Definition BeginLink (userID : UUID) (providerName : string) (o : InitOptions) : PM Cache string :=
  guardP (negb (N.eqb userID uuid_nil)) (ErrBadRequest "user id is required for begin-link") ~;;
  InitSocialLogin providerName
    (mkInitOptions o.(opt_ReturnTo) None "" (Some userID) o.(opt_IPAddress) o.(opt_UserAgent)).

(** *** The callback *)

(** The body of a response into a [map[string]any]; what follows the first
    value is not read. *)
Definition decode_body (body : string) : option (option (list (string * any))) :=
  let b := bytes_of body in
  match parse_value (2 * length b + 2) 0 b with
  | Some (v, _) => object_of v
  | None => None
  end.

(** The claims of the identity token, which must be for this client and carry
    the nonce, or of the user information. *)
Definition extractClaims (oc : OAuthClient) (tok : Token) (expectedNonce : string)
    : M (option (list (string * any)) * string) :=
  match oc.(Verifier) with
  | Some (provider, clientID) =>
      let rawIDToken := id_token tok in
      guard (negb (String.eqb rawIDToken "")) (ErrBadRequest "provider response missing id_token") ;;;
      let! (nonce, claims) := map_err (ask (Verify provider clientID rawIDToken))
        (fun e => ErrBadRequest ("id_token verification failed: " +:+ error_string e)) ;;
      guard (String.eqb nonce expectedNonce) (ErrBadRequest "id_token nonce mismatch") ;;;
      match claims with
      | Some c => ret (Some c, rawIDToken)
      | None => throw (ErrInternal "failed to decode id_token claims")
      end
  | None =>
      guard (negb (String.eqb oc.(client_UserinfoURL) "")) (ErrBadRequest "oauth2 provider requires userinfo_url") ;;;
      let! (status, body) := map_err (ask (Get oc.(client_Config) tok oc.(client_UserinfoURL)))
        (fun e => ErrBadRequest ("userinfo fetch failed: " +:+ error_string e)) ;;
      guard (status / 100 =? 2) (ErrBadRequest ("userinfo returned HTTP " +:+ GoEnc.dec status)) ;;;
      match decode_body body with
      | Some claims => ret (claims, "")
      | None => throw (ErrBadRequest "userinfo response is not JSON")
      end
  end.

Definition ProcessCallback (providerName code state : string) : PM Cache CallbackContext :=
  guardP s.(stateStore) (ErrInternal "federation state store is not configured") ~;;
  guardP (negb (String.eqb code "" || String.eqb state "")) (ErrBadRequest "code and state are required") ~;;
  authReq <~ liftP (or_fail (StateRepo.ConsumeAuthRequest state) (ErrInternal "failed to consume federation state")) ;;
  match authReq with
  | None => throwP (ErrBadRequest "invalid or expired state")
  | Some authReq =>
      provider <~ liftP (found (FedRepo.FindProviderByName providerName) (ErrNotFound "provider not found")) ;;
      guardP (N.eqb provider.(FederationProvider.ID) authReq.(FederationAuthRequest.ProviderID))
        (ErrBadRequest "state does not match provider") ~;;
      secret <~ of_resultP (RevealSecret provider) ;;
      oc <~ ForProvider provider secret (callbackURL provider) ;;
      tok <~ liftP (map_err (ask (Exchange oc.(client_Config) code authReq.(FederationAuthRequest.CodeVerifier)))
               (fun e => ErrBadRequest ("code exchange failed: " +:+ error_string e))) ;;
      raw <~ liftP (extractClaims oc tok authReq.(FederationAuthRequest.Nonce)) ;;
      claims <~ of_resultP (applyAttributeMapper raw.1 provider.(FederationProvider.AttributeMapper)) ;;
      retP (mkCallbackContext provider authReq (claims <| ProviderClaims.Raw := raw.1 |>) raw.2)
  end.

(** *** Links of a user *)

Definition GetLinkedAccounts (userID : UUID) : M (list FederationLink.t) := FedRepo.FindLinksByUser userID.

Definition GetLinkedAccount (linkID userID : UUID) : M FederationLink.t :=
  let! (link, err) := FedRepo.FindLinkByID linkID ;;
  match err, link with
  | Some _, _ => throw (ErrInternal "failed to load linked account")
  | None, None => throw (ErrNotFound "linked account not found")
  | None, Some link =>
      guard (N.eqb link.(FederationLink.UserID) userID) (ErrNotFound "linked account not found") ;;;
      ret link
  end.

Definition UnlinkAccount (linkID userID : UUID) : M unit :=
  link <- found (FedRepo.FindLinkByID linkID) (ErrNotFound "linked account not found") ;;
  guard (N.eqb link.(FederationLink.UserID) userID) (ErrForbidden "linked account does not belong to user") ;;;
  FedRepo.DeleteLink linkID.

End service.
End FedSvc.

(** ** federation/provisioning.go *)
Module Provision.

(** [PendingLinkToken] and [PendingSignupToken] are the raw tokens, of which
    the hashes are stored. *)
Inductive ProvisionOutcome :=
| LoginExisting (u : User.t)
| PendingLinkConfirmation (token : string)
| PendingSignup (token : string)
| AuthenticatedLink (u : User.t) (l : FederationLink.t).

Definition ErrAccountExistsLinkRequired : error :=
  ErrBadRequest "account exists; sign in with your existing method and link from /me/linked-accounts".
Definition ErrRegistrationDisabled : error :=
  ErrBadRequest "public registration is disabled; an invitation is required".
Definition ErrIdentityLinkedToOtherUser : error :=
  ErrConflict "this provider identity is already linked to another account".
Definition invalidPasswordSentinel : string := "federation: invalid password for pending link confirmation".

Record ConfirmLinkResult := mkConfirmLinkResult {
  confirmed_User : User.t;
  confirmed_OAuthRequestID : option UUID;
  confirmed_ReturnTo : option string
}.

Record CompleteSignupInput := mkCompleteSignupInput {
  cs_Token : string;
  cs_Password : string;
  cs_DisplayName : string;
  cs_ExtraFields : list (string * any)
}.

Record PendingSignupView := mkPendingSignupView {
  v_ProviderName : string;
  v_ProviderDisplayName : string;
  v_Email : string;
  v_EmailVerified : bool;
  v_DisplayName : string;
  v_ExpiresAt : Z
}.

Section provision.
Context `{Platform} (s : Service).

(** *** What is staged *)

Definition pending_signup (hash : string) (p : FederationProvider.t) (c : ProviderClaims.t) (normEmail : string)
    (r : FederationAuthRequest.t) (wall : Z) : FederationPendingSignup.t :=
  FederationPendingSignup.mk hash p.(FederationProvider.ID) c.(ProviderClaims.ExternalID) normEmail
    c.(ProviderClaims.EmailVerified) (nullableString c.(ProviderClaims.Name)) (nullableString c.(ProviderClaims.Picture))
    (marshal_object c.(ProviderClaims.Raw)) r.(FederationAuthRequest.OAuthRequestID)
    r.(FederationAuthRequest.ReturnTo) r.(FederationAuthRequest.InvitationToken)
    r.(FederationAuthRequest.IPAddress) r.(FederationAuthRequest.UserAgent) time_zero (time_add wall pendingSignupTTL).

(** Claims that were decoded are encoded again without an error. *)
Definition stagePendingSignup (p : FederationProvider.t) (c : ProviderClaims.t) (normEmail : string)
    (r : FederationAuthRequest.t) : M string :=
  rawToken <- or_fail (GenerateRandomString 32) (ErrInternal "failed to generate pending-signup token") ;;
  wall <- wall_now ;;
  or_fail (StateRepo.InsertPendingSignup (pending_signup (HashToken rawToken) p c normEmail r wall))
    (ErrInternal "failed to persist pending signup") ;;;
  ret rawToken.

Definition pending_link (hash : string) (u : UUID) (p : FederationProvider.t) (c : ProviderClaims.t)
    (r : FederationAuthRequest.t) (wall : Z) : FederationPendingLink.t :=
  FederationPendingLink.mk hash u p.(FederationProvider.ID) c.(ProviderClaims.ExternalID)
    (nullableString c.(ProviderClaims.Email)) (marshal_object c.(ProviderClaims.Raw))
    r.(FederationAuthRequest.OAuthRequestID) r.(FederationAuthRequest.ReturnTo)
    r.(FederationAuthRequest.IPAddress) r.(FederationAuthRequest.UserAgent) time_zero (time_add wall pendingLinkTTL).

Definition stagePendingLink (existing : User.t) (p : FederationProvider.t) (c : ProviderClaims.t)
    (r : FederationAuthRequest.t) : M string :=
  guard s.(stateStore) (ErrInternal "federation state store is not configured") ;;;
  rawToken <- or_fail (GenerateRandomString 32) (ErrInternal "failed to generate pending-link token") ;;
  wall <- wall_now ;;
  or_fail (StateRepo.InsertPendingLink (pending_link (HashToken rawToken) existing.(User.ID) p c r wall))
    (ErrInternal "failed to persist pending link") ;;;
  ret rawToken.

(** The row of a link. *)
Definition link_of (userID providerID : UUID) (externalID : string) (email : option string) (metadata : string)
    : FederationLink.t :=
  FederationLink.zero <| FederationLink.UserID := userID |> <| FederationLink.ProviderID := providerID |>
    <| FederationLink.ExternalID := externalID |> <| FederationLink.Email := email |>
    <| FederationLink.Metadata := metadata |>.

Definition createLink (userID : UUID) (p : FederationProvider.t) (c : ProviderClaims.t) : M FederationLink.t :=
  or_fail (FedRepo.CreateLink (link_of userID p.(FederationProvider.ID) c.(ProviderClaims.ExternalID)
                                 (nullableString c.(ProviderClaims.Email)) (marshal_object c.(ProviderClaims.Raw))))
    (ErrInternal "failed to create federation link").

(** *** The decision *)

(** The invitation is looked at and not spent. *)
Definition checkSignupAllowed (r : FederationAuthRequest.t) : M unit :=
  invited <- match r.(FederationAuthRequest.InvitationToken) with
             | Some t =>
                 if negb (String.eqb t "") && s.(invitationService)
                 then inv <- InvitationSvc.ValidateToken t ;; ret (is_Some_b inv)
                 else ret false
             | None => ret false
             end ;;
  if invited then ret tt
  else
    enabled <- (if s.(registrationGate) then SettingsSvc.IsRegistrationEnabled else ret false) ;;
    guard enabled ErrRegistrationDisabled.

(** [GetByID] answers a user or an error, so that the branches for a user that
    is gone are not reached, here and in [FindOrProvisionUser]. *)
Definition completeAuthenticatedLink (userID : UUID) (p : FederationProvider.t) (c : ProviderClaims.t)
    : M ProvisionOutcome :=
  u <- or_fail (UserSvc.GetByID userID) (ErrInternal "failed to load user for link") ;;
  let! (existing, err) := FedRepo.FindLink p.(FederationProvider.ID) c.(ProviderClaims.ExternalID) ;;
  match err, existing with
  | Some _, _ => throw (ErrInternal "failed to look up federation link")
  | None, Some existing =>
      guard (N.eqb existing.(FederationLink.UserID) userID) ErrIdentityLinkedToOtherUser ;;;
      ret (AuthenticatedLink u existing)
  | None, None =>
      link <- createLink userID p c ;;
      ret (AuthenticatedLink u link)
  end.

(** An identity without a link: its address decides. *)
Definition provision_by_email (p : FederationProvider.t) (c : ProviderClaims.t) (r : FederationAuthRequest.t)
    : M ProvisionOutcome :=
  guard (negb (String.eqb c.(ProviderClaims.Email) ""))
    (ErrBadRequest "federation provider returned no email; cannot provision or link account") ;;;
  let normEmail := to_lower (trim_space c.(ProviderClaims.Email)) in
  let! (existing, err) := UserRepo.FindByEmail normEmail ;;
  match err, existing with
  | Some _, _ => throw (ErrInternal "failed to look up user by email")
  | None, Some existing =>
      guard (p.(FederationProvider.AllowLinkConfirmation) && is_Some_b existing.(User.PasswordHash))
        ErrAccountExistsLinkRequired ;;;
      token <- stagePendingLink existing p c r ;;
      ret (PendingLinkConfirmation token)
  | None, None =>
      checkSignupAllowed r ;;;
      token <- stagePendingSignup p c normEmail r ;;
      ret (PendingSignup token)
  end.

Definition FindOrProvisionUser (ctx : CallbackContext) : M ProvisionOutcome :=
  guard (is_Some_b s.(userService)) (ErrInternal "federation provisioning dependencies are not wired") ;;;
  let p := ctx.(cb_Provider) in
  let c := ctx.(cb_Claims) in
  let r := ctx.(cb_AuthRequest) in
  guard (negb (String.eqb c.(ProviderClaims.ExternalID) ""))
    (ErrBadRequest "federation provider returned no subject identifier") ;;;
  match r.(FederationAuthRequest.LinkUserID) with
  | Some userID => completeAuthenticatedLink userID p c
  | None =>
      let! (link, err) := FedRepo.FindLink p.(FederationProvider.ID) c.(ProviderClaims.ExternalID) ;;
      match err, link with
      | Some _, _ => throw (ErrInternal "failed to look up federation link")
      | None, Some link =>
          u <- or_fail (UserSvc.GetByID link.(FederationLink.UserID)) (ErrInternal "failed to load linked user") ;;
          ret (LoginExisting u)
      | None, None => provision_by_email p c r
      end
  end.

(** *** The second step of each *)

(** [withUsers]: the services of the accounts and the stores are wired. *)
Definition wired : M UserSvc.Service :=
  match s.(userService) with
  | Some us => guard s.(stateStore) (ErrInternal "federation dependencies are not wired") ;;; ret us
  | None => throw (ErrInternal "federation dependencies are not wired")
  end.

Definition ConfirmLink (rawToken password : string) : M ConfirmLinkResult :=
  guard (negb (String.eqb rawToken "" || String.eqb password ""))
    (ErrBadRequest "token and password are required") ;;;
  us <- wired ;;
  pending <- or_fail (StateRepo.ConsumePendingLink (HashToken rawToken)) (ErrInternal "failed to consume pending link") ;;
  match pending with
  | None => throw (ErrBadRequest "invalid or expired pending link token")
  | Some p =>
      ok <- or_fail (UserSvc.VerifyPassword us p.(FederationPendingLink.UserID) password)
              (ErrInternal "failed to verify password") ;;
      guard ok (EOther invalidPasswordSentinel) ;;;
      FedSvc.found (FedRepo.FindProviderByID p.(FederationPendingLink.ProviderID))
        (ErrInternal "pending link references unknown provider") ;;;
      or_fail (FedRepo.CreateLink (link_of p.(FederationPendingLink.UserID) p.(FederationPendingLink.ProviderID)
                 p.(FederationPendingLink.ExternalID) p.(FederationPendingLink.Email)
                 p.(FederationPendingLink.RawClaims)))
        (ErrInternal "failed to create federation link") ;;;
      u <- or_fail (UserSvc.GetByID p.(FederationPendingLink.UserID)) (ErrInternal "failed to load confirmed user") ;;
      ret (mkConfirmLinkResult u p.(FederationPendingLink.OAuthRequestID) p.(FederationPendingLink.ReturnTo))
  end.

Definition decodeRawClaims (raw : string) : option (list (string * any)) := decode_object raw.

(** The invitation a sign-up still has; without one registration must be open. *)
Definition signup_gate (p : FederationPendingSignup.t) : M (option Invitation.t) :=
  invitation <- match p.(FederationPendingSignup.InvitationToken) with
                | Some t =>
                    if negb (String.eqb t "") && s.(invitationService)
                    then InvitationSvc.ValidateToken t else ret None
                | None => ret None
                end ;;
  match invitation with
  | Some _ => ret tt
  | None =>
      enabled <- (if s.(registrationGate) then SettingsSvc.IsRegistrationEnabled else ret false) ;;
      guard enabled ErrRegistrationDisabled
  end ;;;
  ret invitation.

Definition invited_roles (invitation : option Invitation.t) : list UUID :=
  match invitation with Some i => omap uuid_parse i.(Invitation.RoleIDs) | None => [] end.

Definition provision_input (i : CompleteSignupInput) (p : FederationPendingSignup.t) : UserSvc.FederationProvisionInput :=
  UserSvc.mkFederationProvisionInput p.(FederationPendingSignup.Email) p.(FederationPendingSignup.EmailVerified)
    (if String.eqb i.(cs_DisplayName) "" then default "" p.(FederationPendingSignup.DisplayName) else i.(cs_DisplayName))
    (default "" p.(FederationPendingSignup.AvatarURL)) i.(cs_Password) i.(cs_ExtraFields).

(** The identity of a sign-up. *)
Definition signup_claims (p : FederationPendingSignup.t) : ProviderClaims.t :=
  ProviderClaims.mk p.(FederationPendingSignup.ExternalID) p.(FederationPendingSignup.Email) false "" ""
    (decodeRawClaims p.(FederationPendingSignup.RawClaims)).

(** A link or an invitation that cannot be written is logged. *)
Definition CompleteSignup (i : CompleteSignupInput) : M ConfirmLinkResult :=
  guard (negb (String.eqb i.(cs_Token) "" || String.eqb i.(cs_Password) ""))
    (ErrBadRequest "token and password are required") ;;;
  us <- wired ;;
  pending <- or_fail (StateRepo.ConsumePendingSignup (HashToken i.(cs_Token)))
               (ErrInternal "failed to consume pending signup") ;;
  match pending with
  | None => throw (ErrBadRequest "invalid or expired signup token")
  | Some p =>
      provider <- FedSvc.found (FedRepo.FindProviderByID p.(FederationPendingSignup.ProviderID))
                    (ErrInternal "pending signup references unknown provider") ;;
      invitation <- signup_gate p ;;
      newUser <- UserSvc.CreateFromFederation us (provision_input i p) (invited_roles invitation) ;;
      ignore (createLink newUser.(User.ID) provider (signup_claims p)) ;;;
      match invitation with
      | Some inv => ignore (InvitationSvc.ConsumeToken inv)
      | None => ret tt
      end ;;;
      ret (mkConfirmLinkResult newUser p.(FederationPendingSignup.OAuthRequestID) p.(FederationPendingSignup.ReturnTo))
  end.

Definition PeekPendingSignup (rawToken : string) : M PendingSignupView :=
  guard (negb (String.eqb rawToken "")) (ErrBadRequest "token is required") ;;;
  guard s.(stateStore) (ErrInternal "federation state store is not configured") ;;;
  pending <- or_fail (StateRepo.GetPendingSignup (HashToken rawToken)) (ErrInternal "failed to load pending signup") ;;
  match pending with
  | None => throw (ErrBadRequest "invalid or expired signup token")
  | Some p =>
      provider <- FedSvc.found (FedRepo.FindProviderByID p.(FederationPendingSignup.ProviderID))
                    (ErrInternal "pending signup references unknown provider") ;;
      let name := provider.(FederationProvider.Name) in
      ret (mkPendingSignupView name
             (match provider.(FederationProvider.DisplayName) with
              | Some d => if String.eqb d "" then name else d
              | None => name
              end)
             p.(FederationPendingSignup.Email) p.(FederationPendingSignup.EmailVerified)
             (default "" p.(FederationPendingSignup.DisplayName)) p.(FederationPendingSignup.ExpiresAt))
  end.

End provision.
End Provision.
