(* ===== verification/FedFlow.v ===== *)
(** * federation/: the browser's side of a sign-in through a provider

    The redirections the handlers answer with (federation/handler.go), the
    continuation of an authorization request through the OAuth service
    (federation/oauth_resumer.go), and the origins a redirection may go to
    (pkg/originallow.go).  [FedFacts] has the theorems. *)
From S2P Require Import Prelude.
From S2P Require Import Errors.
From S2P Require Import GoLib.
From S2P Require Import GoNet.
From S2P Require Import Model.
From S2P Require Import Platform.
From S2P Require Import Exec.
From S2P Require Import NetSafety.
From S2P Require Import Crypto.
From S2P Require Import ActionToken.
From S2P Require Import UserSvc.
From S2P Require Import OAuth.
From S2P Require Import Authorize.
From S2P Require Import AuthSteps.
From S2P Require Import Json.
From S2P Require Import JsonTree.
From S2P Require Import ProcMem.
From S2P Require Import Settings.
From S2P Require Import Invitation.
From S2P Require Import FedRepo.
From S2P Require Import Federation.
From Stdlib Require Import Ascii.
Local Open Scope Z_scope.

(** ** pkg/originallow.go *)
Definition same_origin `{Platform} (t : URL) (raw : string) : bool :=
  if String.eqb raw "" then false
  else match url_parse raw with
       | inl _ => false
       | inr base => equal_fold t.(Scheme) base.(Scheme) && equal_fold t.(Host) base.(Host)
       end.

Definition IsOriginAllowed `{Platform} (target : string) (allowedBases : list string) : bool :=
  if String.eqb target "" then false
  else match url_parse target with
       | inl _ => false
       | inr t => existsb (same_origin t) allowedBases
       end.

(** ** federation/oauth_resumer.go *)

(** What the flow needs of the OAuth service. *)
Record OAuthResumer := mkOAuthResumer {
  Resume : UUID -> UUID -> string -> string -> string -> M AuthorizeLoginResponse;
  Complete : UUID -> string -> string -> M string
}.

Definition OAuthResumerAdapter `{Platform} `{JwtLib} (s : OAuth.Service) : OAuthResumer :=
  mkOAuthResumer
    (fun requestID userID providerName ip ua =>
       ResumeAuthorizeAfterExternalLogin s requestID userID providerName ip ua)
    (fun requestID ip ua =>
       resp <- CompleteAuthorizeFirstParty s requestID ip ua ;;
       of_result (BuildAuthorizeRedirectURL resp)).

(** ** federation/handler.go *)
Module FedHandler.
Import FedSvc Provision.

(** What the handler knows of a request: the address and the agent. *)
Record Peer := mkPeer { ClientIP : string; UserAgent : string }.

Section handler.
Context `{Platform} `{JwtLib} `{NetLib} `{IdentityLib} (s : Federation.Service) (resumer : option OAuthResumer).

Definition redirectLoginError (code : string) : string :=
  AuthUIBaseURL s +:+ "/login?error=" +:+ query_escape code.

(** [continueAfterLogin] redirects to this URL, [computeContinuationURL] answers it. *)
Definition continuation (peer : Peer) (providerName : string) (u : User.t) (requestID : option UUID)
    (returnTo : option string) : M string :=
  let authUI := AuthUIBaseURL s in
  match requestID, resumer with
  | Some requestID, Some r =>
      status <- attempt (r.(Resume) requestID u.(User.ID) providerName peer.(ClientIP) peer.(UserAgent)) ;;
      match status with
      | Err _ => ret (redirectLoginError "authorize_resume_failed")
      | Ok st =>
          if st.(login_RequiresMFA) then ret (authUI +:+ "/mfa?request_id=" +:+ uuid_string st.(login_RequestID))
          else if st.(login_RequiresConsent)
          then ret (authUI +:+ "/consent?request_id=" +:+ uuid_string st.(login_RequestID))
          else
            completion <- attempt (r.(Complete) st.(login_RequestID) peer.(ClientIP) peer.(UserAgent)) ;;
            match completion with
            | Err _ => ret (redirectLoginError "authorize_complete_failed")
            | Ok url => ret url
            end
      end
  | _, _ =>
      ret (match returnTo with
           | Some r => if IsOriginAllowed r [authUI] then r else authUI +:+ "/"
           | None => authUI +:+ "/"
           end)
  end.

Definition has_question_mark (u : string) : bool := existsb (fun b => b =? 63) (bytes_of u).

(** The page a link flow ends on. *)
Definition redirectLinkResult (r : FederationAuthRequest.t) (providerName status : string) : string :=
  let authUI := AuthUIBaseURL s in
  let target :=
    match r.(FederationAuthRequest.ReturnTo) with
    | Some t => if IsOriginAllowed t (authUI :: s.(allowedReturnToOrigins)) then t else authUI +:+ "/linked-accounts"
    | None => authUI +:+ "/linked-accounts"
    end in
  target +:+ (if has_question_mark target then "&" else "?") +:+ "link_status=" +:+ query_escape status
  +:+ "&provider=" +:+ query_escape providerName.

(** The code compares pointers to the errors; no two of them have one text. *)
Definition is_error (e e' : error) : bool := String.eqb (error_string e) (error_string e').

Definition linkResultFromErr (e : error) : string :=
  if is_error e ErrIdentityLinkedToOtherUser then "identity_already_linked" else "link_failed".

Definition provision_failed (ctx : CallbackContext) (providerName : string) (e : error) : string :=
  if is_Some_b ctx.(cb_AuthRequest).(FederationAuthRequest.LinkUserID)
  then redirectLinkResult ctx.(cb_AuthRequest) providerName (linkResultFromErr e)
  else if is_error e ErrAccountExistsLinkRequired then redirectLoginError "account_exists_link_required"
  else if is_error e ErrRegistrationDisabled then redirectLoginError "registration_disabled"
  else redirectLoginError "provisioning_failed".

Definition provisioned (peer : Peer) (ctx : CallbackContext) (providerName : string) (o : ProvisionOutcome) : M string :=
  let r := ctx.(cb_AuthRequest) in
  match o with
  | AuthenticatedLink _ _ => ret (redirectLinkResult r providerName "linked")
  | PendingLinkConfirmation t => ret (AuthUIBaseURL s +:+ "/link-account?token=" +:+ query_escape t)
  | PendingSignup t => ret (AuthUIBaseURL s +:+ "/complete-account?token=" +:+ query_escape t)
  | LoginExisting u =>
      continuation peer providerName u r.(FederationAuthRequest.OAuthRequestID) r.(FederationAuthRequest.ReturnTo)
  end.

(** The location the browser is sent to. *)
Definition Callback (peer : Peer) (providerName code state providerErr : string) : PM Cache string :=
  if negb (String.eqb providerErr "") then retP (redirectLoginError providerErr)
  else
    ctx <~ attemptP (ProcessCallback s providerName code state) ;;
    match ctx with
    | Err _ => retP (redirectLoginError "callback_failed")
    | Ok ctx =>
        outcome <~ liftP (attempt (FindOrProvisionUser s ctx)) ;;
        match outcome with
        | Err e => retP (provision_failed ctx providerName e)
        | Ok o => liftP (provisioned peer ctx providerName o)
        end
    end.

(** The provider named in the log of the resumed request: that of the first
    link of the user, in the order the database gives. *)
Definition provider_name (userID : UUID) : M string :=
  links <- opt (FedRepo.FindLinksByUser userID) ;;
  match default [] links with
  | [] => ret "federation"
  | l :: _ =>
      let! (prov, _) := FedRepo.FindProviderByID l.(FederationLink.ProviderID) ;;
      ret (match prov with Some p => p.(FederationProvider.Name) | None => "federation" end)
  end.

Definition answer (peer : Peer) (r : ConfirmLinkResult) : M (UUID * string) :=
  providerName <- provider_name r.(confirmed_User).(User.ID) ;;
  target <- continuation peer providerName r.(confirmed_User) r.(confirmed_OAuthRequestID) r.(confirmed_ReturnTo) ;;
  ret (r.(confirmed_User).(User.ID), target).

(** [IsInvalidConfirmPassword] *)
Definition wrong_password (e : error) : bool := String.eqb (error_string e) invalidPasswordSentinel.

Definition ConfirmLink (peer : Peer) (token password : string) : M (UUID * string) :=
  r <- map_err (Provision.ConfirmLink s token password)
         (fun e => if wrong_password e then ErrUnauthorized "invalid password" else e) ;;
  answer peer r.

Definition CompleteSignup (peer : Peer) (i : CompleteSignupInput) : M (UUID * string) :=
  r <- Provision.CompleteSignup s i ;;
  answer peer r.

End handler.
End FedHandler.
