(* ===== verification/FedFacts.v ===== *)
(** * federation/: theorems

    What a callback establishes, where it may send the browser, where links
    come from, and how often a staged token is good. *)
From S2P Require Import Prelude.
From S2P Require Import Errors.
From S2P Require Import GoLib.
From S2P Require Import GoNet.
From S2P Require Import Model.
From S2P Require Import Platform.
From S2P Require Import Exec.
From S2P Require Import NetSafety.
From S2P Require Import Crypto.
From S2P Require Import ActionToken.
From S2P Require GoEnc Scopes.
From S2P Require Import UserSvc.
From S2P Require Import Authorize.
From S2P Require Import Json.
From S2P Require Import JsonTree.
From S2P Require Import ProcMem.
From S2P Require Import Settings.
From S2P Require Import Invitation.
From S2P Require Import FedRepo.
From S2P Require Import Federation.
From S2P Require Import FedFlow.
From Stdlib Require Import Ascii.
Local Open Scope Z_scope.

Module FedFacts.
Import FedSvc Provision.

(** ** Operations with the builder's cache end *)

Abbreviation ends := (keepsP (fun _ _ => True)).

Lemma ends_lift {S A} (m : M A) : ends (@liftP S A m).
Proof. intros p env st _. apply wp_liftP. unfold wp. eauto. Qed.

Lemma ends_set_memory {S} f : ends (@set_memory S f).
Proof. intros p env st _. apply wp_ret. eauto. Qed.

(** The structure of an operation, down to its parts. *)
Ltac end_step :=
  lazymatch goal with
  | |- ends (bindP _ _) => apply keepsP_bind; [|intros ?]
  | |- ends (match ?x with _ => _ end) => destruct x
  | |- ends (retP _) => apply keepsP_ret
  | |- ends (throwP _) => apply keepsP_throw
  | |- ends (guardP _ _) => apply keepsP_guard
  | |- ends (of_resultP _) => apply keepsP_of_result
  | |- ends memory => apply keepsP_memory
  | |- ends (set_memory _) => apply ends_set_memory
  | |- ends (liftP _) => apply ends_lift
  | |- ends (attemptP _) => apply keepsP_attempt
  | |- ends (let x := ?v in @?k x) => change (ends (k v)); cbv beta
  | |- ends ?m => let h := head_of m in unfold h
  end.
Ltac solve_ends := repeat end_step.

Section facts.
Context `{Platform} `{JwtLib} `{NetLib} `{IdentityLib} (s : Federation.Service).

Lemma ForProvider_ends p secret url : ends (ForProvider p secret url).
Proof. unfold ForProvider, forOIDC, oidcEntry. solve_ends. Qed.

Lemma ProcessCallback_ends name code state : ends (ProcessCallback s name code state).
Proof. unfold ProcessCallback. repeat (end_step || apply ForProvider_ends). Qed.

(** ** Lookups *)

Lemma wp_found_row {A} (zero : A) f e (Q : result A -> State -> Prop) env st :
  (forall st', st'.(st_db) = st.(st_db) -> Q (Err e) st') ->
  (forall a, f env st.(st_db) = Some a -> Q (Ok a) (bump st)) ->
  wp (found (find_row zero f) e) Q env st.
Proof.
  intros He Hok. unfold found. apply wp_bind, wp_find_row; intros _; [by apply He|]. cbv beta iota.
  destruct (f env (st_db st)) as [a|] eqn:E; [by apply Hok | by apply He].
Qed.

(** ** Where the browser is sent *)

Context (resumer : option OAuthResumer).

(** A page of the sign-in application, a page of an origin an administrator
    allowed, or the address of the client whose request was completed. *)
Definition own_page (url : string) : Prop := exists rest, url = AuthUIBaseURL s +:+ rest.
Definition allowed_page (url : string) : Prop := exists t rest, url = t +:+ rest /\
  IsOriginAllowed t (AuthUIBaseURL s :: s.(allowedReturnToOrigins)) = true.
Definition client_page (env : Env) (url : string) : Prop := exists r id ip ua st,
  resumer = Some r /\ (r.(Complete) id ip ua env st).1 = Ok url.
Definition safe_page (env : Env) (url : string) : Prop := own_page url \/ allowed_page url \/ client_page env url.

Lemma own_login_error code : own_page (FedHandler.redirectLoginError s code).
Proof. by eexists. Qed.

Lemma origin_of_first t : IsOriginAllowed t [AuthUIBaseURL s] = true ->
  IsOriginAllowed t (AuthUIBaseURL s :: s.(allowedReturnToOrigins)) = true.
Proof.
  unfold IsOriginAllowed. destruct (String.eqb t ""); [done|]. destruct (url_parse t); [done|].
  simpl. rewrite orb_false_r. by intros ->.
Qed.

Lemma wp_continuation peer name u requestID returnTo env st (Q : result string -> State -> Prop) :
  (forall url st', safe_page env url -> Q (Ok url) st') ->
  wp (FedHandler.continuation s resumer peer name u requestID returnTo) Q env st.
Proof.
  intros HQ. unfold FedHandler.continuation. cbv zeta.
  assert (Hret : forall (o : option string) st', wp (ret (match o with
     | Some r => if IsOriginAllowed r [AuthUIBaseURL s] then r else AuthUIBaseURL s +:+ "/"
     | None => AuthUIBaseURL s +:+ "/" end)) Q env st').
  { intros o st'. apply wp_ret, HQ. destruct o as [t|]; [|left; by eexists].
    destruct (IsOriginAllowed t _) eqn:E; [|left; by eexists]. right; left. exists t, "".
    split; [by rewrite Scopes.string_app_nil | by apply origin_of_first]. }
  destruct requestID as [id|]; [|apply Hret]. destruct resumer as [r|] eqn:Er; [|apply Hret].
  apply wp_bind, wp_attempt. unfold wp at 1. destruct (Resume r _ _ _ _ _ env st) as [[status|e] st1]; cbn [fst snd].
  2: { apply wp_ret, HQ. left. apply own_login_error. }
  destruct (login_RequiresMFA status); [apply wp_ret, HQ; left; by eexists|].
  destruct (login_RequiresConsent status); [apply wp_ret, HQ; left; by eexists|].
  apply wp_bind, wp_attempt. unfold wp at 1.
  destruct (Complete r _ _ _ env st1) as [[url|e] st2] eqn:Ec; cbn [fst snd]; apply wp_ret, HQ.
  - right; right. exists r. do 3 eexists. exists st1. split; [done|]. by rewrite Ec.
  - left. apply own_login_error.
Qed.

Lemma link_result_page env r name status : safe_page env (FedHandler.redirectLinkResult s r name status).
Proof.
  unfold FedHandler.redirectLinkResult. cbv zeta. destruct (FederationAuthRequest.ReturnTo r) as [t|].
  - destruct (IsOriginAllowed t _) eqn:E.
    + right; left. exists t. eexists. split; [reflexivity | exact E].
    + left. eexists. rewrite GoEnc.string_app_assoc. reflexivity.
  - left. eexists. rewrite GoEnc.string_app_assoc. reflexivity.
Qed.


(** ** What a callback establishes *)

(** The cache keeps under a provider the metadata of a client. *)
Lemma wp_oidcEntry p iss cache env st (Q : result (result builderEntry * Cache) -> State -> Prop) :
  (forall e n cache', e.(entry_clientID) = p.(FederationProvider.ClientID) -> Q (Ok (Ok e, cache')) (mkState st.(st_db) n)) ->
  (forall err n, Q (Ok (Err err, cache)) (mkState st.(st_db) n)) ->
  wp (oidcEntry p iss cache) Q env st.
Proof.
  intros Hok He. unfold oidcEntry. apply wp_bindP, wp_ret.
  assert (Hmiss : wp (bindP (liftP (discover p iss)) (fun e =>
      bindP (set_memory (insert p.(FederationProvider.ID) e)) (fun _ => retP e)) cache) Q env st).
  { apply wp_bindP, wp_liftP. unfold discover. apply wp_bind, wp_map_err, wp_ask.
    destruct (NewProvider _ _ _ _) as [pr|err]; [|apply (He _ (S (st_step st)))].
    apply wp_bind, wp_map_err, wp_of_result. destruct (userinfo_endpoint pr) as [u|err]; [|apply (He _ (S (st_step st)))].
    apply wp_ret, wp_bindP, wp_ret, wp_ret. apply (Hok _ (S (st_step st))). done. }
  destruct (cache !! _) as [e|]; [|exact Hmiss]. destruct (fresh p e) eqn:Ef; [|exact Hmiss].
  apply wp_ret. destruct st as [d n]. apply (Hok e n). unfold fresh in Ef.
  apply andb_true_iff in Ef as [_ Ef]. by apply String.eqb_eq.
Qed.

(** The client of a provider: an OpenID provider has a verifier, for its own client. *)
Definition client_for (p : FederationProvider.t) (oc : OAuthClient) : Prop :=
  if String.eqb p.(FederationProvider.Type_) ProviderTypeOIDC
  then exists pr, oc.(Verifier) = Some (pr, p.(FederationProvider.ClientID))
  else oc.(Verifier) = None.

Lemma wp_ForProvider p secret url cache env st (Q : result (result OAuthClient * Cache) -> State -> Prop) :
  (forall oc n cache', client_for p oc -> Q (Ok (Ok oc, cache')) (mkState st.(st_db) n)) ->
  (forall err n, Q (Ok (Err err, cache)) (mkState st.(st_db) n)) ->
  wp (ForProvider p secret url cache) Q env st.
Proof.
  intros Hok He. unfold ForProvider, client_for in *. destruct st as [d n]. cbn [st_db] in *.
  destruct (String.eqb (FederationProvider.Type_ p) ProviderTypeOIDC).
  - unfold forOIDC. destruct (FederationProvider.IssuerURL p) as [iss|]; [|apply wp_ret, (He _ n)].
    destruct (String.eqb iss ""); [apply wp_ret, (He _ n)|]. apply wp_bindP, wp_ret, wp_bindP, wp_oidcEntry.
    + intros e n' cache' Hc. destruct (Endpoint _) as [a t]. apply wp_ret, Hok. eexists. by rewrite <-Hc.
    + intros err n'. apply (He err n').
  - destruct (String.eqb _ ProviderTypeOAuth2); apply wp_ret; [by apply (Hok _ n) | apply (He _ n)].
Qed.

(** The identity an OpenID provider vouches for: its token is for this client
    and carries the nonce of the request. *)
Definition vouched (env : Env) (p : FederationProvider.t) (nonce rawIDToken : string) (raw : object) : Prop :=
  p.(FederationProvider.Type_) = ProviderTypeOIDC ->
  rawIDToken <> "" /\ exists pr n db c, raw = Some c /\
    Verify pr p.(FederationProvider.ClientID) rawIDToken env n db = Ok (nonce, Some c).

Definition consumed_state (state : string) (db : DB) : DB := upd federation_auth_requests (delete state) db.

(** What the context of a callback says of the database before it. *)
Definition verified (env : Env) (db : DB) (name state : string) (ctx : CallbackContext) : Prop :=
  let p := ctx.(cb_Provider) in
  let r := ctx.(cb_AuthRequest) in
  db.(federation_auth_requests) !! state = Some r /\
  env.(env_wall) <= r.(FederationAuthRequest.ExpiresAt) /\
  (exists id, db.(federation_providers) !! id = Some p) /\
  p.(FederationProvider.Name) = name /\ p.(FederationProvider.Active) = true /\
  p.(FederationProvider.ID) = r.(FederationAuthRequest.ProviderID) /\
  vouched env p r.(FederationAuthRequest.Nonce) ctx.(cb_RawIDToken) ctx.(cb_Claims).(ProviderClaims.Raw) /\
  exists c, applyAttributeMapper ctx.(cb_Claims).(ProviderClaims.Raw) p.(FederationProvider.AttributeMapper) = Ok c /\
    ctx.(cb_Claims) = c <| ProviderClaims.Raw := ctx.(cb_Claims).(ProviderClaims.Raw) |>.

Lemma wp_extractClaims p oc tok nonce env st (Q : result (object * string) -> State -> Prop) :
  client_for p oc ->
  (forall raw t n, vouched env p nonce t raw -> Q (Ok (raw, t)) (mkState st.(st_db) n)) ->
  (forall e n, Q (Err e) (mkState st.(st_db) n)) ->
  wp (extractClaims oc tok nonce) Q env st.
Proof.
  intros Hc Hok He. unfold extractClaims, client_for, vouched in *. destruct st as [d n0]. cbn [st_db] in *.
  destruct (String.eqb_spec (FederationProvider.Type_ p) ProviderTypeOIDC) as [Ht|Ht].
  - destruct Hc as [pr ->]. apply wp_bind, wp_guard; intros Hn; [|apply (He _ n0)].
    apply wp_bind, wp_map_err, wp_ask. destruct (Verify _ _ _ _ _ _) as [[n c]|e] eqn:Ev; [|apply (He _ (S n0))].
    apply wp_bind, wp_guard; intros He'; [|apply (He _ (S n0))]. apply String.eqb_eq in He'. subst n.
    destruct c as [c|]; [|apply wp_throw, (He _ (S n0))]. apply wp_ret, (Hok _ _ (S n0)). intros _.
    split; [by apply negb_true_iff, String.eqb_neq in Hn|]. do 4 eexists. split; [done|]. exact Ev.
  - rewrite Hc. apply wp_bind, wp_guard; intros _; [|apply (He _ n0)].
    apply wp_bind, wp_map_err, wp_ask. destruct (Get _ _ _ _ _ _) as [[status body]|e]; [|apply (He _ (S n0))].
    apply wp_bind, wp_guard; intros _; [|apply (He _ (S n0))].
    destruct (decode_body body) as [c|]; [|apply wp_throw, (He _ (S n0))]. apply wp_ret, (Hok _ _ (S n0)). by intros.
Qed.

(** The callback, from a database; [R] is what is refused. *)
Definition callback_outcome (env : Env) (db : DB) (name state : string)
    (r : result (result CallbackContext * Cache)) (db' : DB) : Prop :=
  match r with
  | Ok (Ok ctx, _) => verified env db name state ctx /\ db' = consumed_state state db
  | Ok (Err _, _) => db' = db \/ db' = consumed_state state db
  | Err _ => False
  end.

Lemma wp_ProcessCallback name code state cache env st :
  wp (ProcessCallback s name code state cache)
    (fun r st' => callback_outcome env st.(st_db) name state r st'.(st_db)) env st.
Proof.
  unfold ProcessCallback. destruct (stateStore s); [|apply wp_ret; by left].
  apply wp_bindP, wp_ret. destruct (negb _); [|apply wp_ret; by left]. apply wp_bindP, wp_ret.
  apply wp_bindP, wp_liftP, wp_or_fail. unfold StateRepo.ConsumeAuthRequest. apply StoreFacts.wp_consume.
  { intros e st' ->. by left. }
  { intros n _. apply wp_ret. by left. }
  intros r n Hr. destruct (time_after _ _) eqn:Hexp; [apply wp_ret; by right|]. unfold time_after in Hexp.
  change (upd federation_auth_requests (delete state) (st_db st)) with (consumed_state state st.(st_db)).
  set (db1 := consumed_state state (st_db st)).
  assert (Herr : forall e c n, callback_outcome env (st_db st) name state (Ok (Err e, c)) (st_db (mkState db1 n))) by (by right).
  apply wp_bindP, wp_liftP, wp_found_row; [intros st' ->; apply (Herr _ _ 0%nat)|]. intros p Hp.
  apply wp_bindP. destruct (N.eqb _ _) eqn:Eid; apply wp_ret; [|apply (Herr _ _ 0%nat)].
  apply wp_bindP, wp_ret. destruct (RevealSecret s p) as [secret|e]; [|apply (Herr _ _ 0%nat)].
  apply wp_bindP, wp_ForProvider; [|intros e n1; apply (Herr _ _ n1)]. intros oc n1 cache' Hoc.
  apply wp_bindP, wp_liftP, wp_map_err, wp_ask. destruct (Exchange _ _ _ _ _ _) as [tok|e]; [|apply (Herr _ _ 0%nat)].
  apply wp_bindP, wp_liftP, (wp_extractClaims p); [done| |intros e n2; apply (Herr _ _ n2)]. intros raw t n2 Hv.
  apply wp_bindP, wp_ret. cbn [fst snd]. destruct (applyAttributeMapper raw _) as [c|e] eqn:Ec; [|apply (Herr _ _ 0%nat)].
  apply wp_ret. split; [|done]. apply first_row_Some in Hp as (id & Hid & Hp). apply andb_true_iff in Hp as [Hn Ha].
  unfold verified. cbn [cb_Provider cb_AuthRequest cb_Claims cb_RawIDToken].
  split_and!; [exact Hr | | by exists id | by apply String.eqb_eq | exact Ha | by apply N.eqb_eq | exact Hv | by exists c].
  apply Z.ltb_ge in Hexp. exact Hexp.
Qed.


(** ** Where links come from *)

Context (Hassign : forall us a, s.(userService) = Some us -> us.(UserSvc.roleAssigner) = Some a -> RoleAssignerLaws a).

(** An identity is linked once. *)
Definition linked_once (db : DB) : Prop := forall k k' l l',
  db.(federation_links) !! k = Some l -> db.(federation_links) !! k' = Some l' ->
  FedRepo.identity l.(FederationLink.ProviderID) l.(FederationLink.ExternalID) l' = true -> k = k'.

(** The links after are links before, or satisfy [P]; an identity is still
    linked once. *)
Definition new_links (P : FederationLink.t -> Prop) : relation DB := fun d d' =>
  (forall k l, d'.(federation_links) !! k = Some l -> d.(federation_links) !! k = Some l \/ P l) /\
  (linked_once d -> linked_once d').

#[local] Instance new_links_preorder P : PreOrder (new_links P).
Proof.
  split; [by split; [intros k l; left|]|]. intros d1 d2 d3 [H12 U12] [H23 U23]. split; [|by auto].
  intros k l Hl. destruct (H23 k l Hl) as [Hl2|]; [by apply H12 | by right].
Qed.

Lemma same_links_new P d d' : same federation_links d d' -> new_links P d d'.
Proof. unfold new_links, linked_once. intros E. rewrite E. by split; [intros k l; left|]. Qed.

(** Statements on other tables keep the links. *)
Lemma stmt_same f : (forall env db db', f env db = Ok db' -> same federation_links db db') ->
  forall P, Preserves (new_links P) (stmt f).
Proof. intros Hf P. apply (preserves_stmt _). intros env db db' E. by eapply same_links_new, Hf. Qed.

Ltac same_stmt :=
  first [ apply stmt_same; intros ? ? ?; repeat case_match; try discriminate; intros [= <-]; exact eq_refl
        | apply (preserves_update_table _); intros ? ?; apply same_links_new; exact eq_refl ].
Ltac links_step :=
  first [ preserve_step ltac:(same_stmt)
        | lazymatch goal with |- Preserves _ ?m => let h := head_of m in unfold h end ].
Ltac solve_links := repeat links_step.

Definition link_for (u p : UUID) (e : string) (l : FederationLink.t) : Prop :=
  l.(FederationLink.UserID) = u /\ l.(FederationLink.ProviderID) = p /\ l.(FederationLink.ExternalID) = e.

Lemma identity_sym l l' :
  FedRepo.identity l.(FederationLink.ProviderID) l.(FederationLink.ExternalID) l' =
  FedRepo.identity l'.(FederationLink.ProviderID) l'.(FederationLink.ExternalID) l.
Proof. unfold FedRepo.identity. by rewrite N.eqb_sym, String.eqb_sym. Qed.

Lemma insert_new_links P db id row : P row ->
  first_row N.leb (FedRepo.identity row.(FederationLink.ProviderID) row.(FederationLink.ExternalID))
    db.(federation_links) = None ->
  new_links P db (db <| federation_links ::= insert id row |>).
Proof.
  intros HP Hfree. rewrite first_row_None in Hfree.
  unfold new_links, linked_once.
  change (federation_links (db <| federation_links ::= insert id row |>)) with (insert id row db.(federation_links)). split.
  - intros k l. rewrite lookup_insert_Some. intros [[_ <-]|[_ Hl]]; [by right | by left].
  - intros Hu k k' l l'. rewrite !lookup_insert_Some.
    intros [[<- <-]|[Hk Hl]] [[<- <-]|[Hk' Hl']] Hid; [done | | | by eapply Hu].
    + by rewrite (Hfree k' l' Hl') in Hid.
    + rewrite identity_sym in Hid. by rewrite (Hfree k l Hl) in Hid.
Qed.

Lemma repo_CreateLink_links (P : FederationLink.t -> Prop) u p e em md :
  (forall l, link_for u p e l -> P l) ->
  Preserves (new_links P) (FedRepo.CreateLink (link_of u p e em md)).
Proof.
  intros HP. unfold FedRepo.CreateLink. apply (preserves_bind _); [apply _|]. intros id.
  apply (preserves_bind _); [apply _|]. intros wall. cbv zeta. apply (preserves_bind _); [|apply _].
  apply (preserves_stmt _). intros env db db'. destruct (first_row _ _ _) eqn:Hfree; [done|]. cbn [is_Some_b orb].
  destruct (is_Some_b (_ !! id)); [done|]. destruct (_ && _); [|done].
  intros [= <-]. apply insert_new_links; [by apply HP | exact Hfree].
Qed.

#[local] Instance createLink_links (P : FederationLink.t -> Prop) u p c :
  (forall l, link_for u p.(FederationProvider.ID) c.(ProviderClaims.ExternalID) l -> P l) ->
  Preserves (new_links P) (createLink u p c).
Proof. intros HP. unfold createLink. apply preserves_or_fail. by apply repo_CreateLink_links. Qed.

#[local] Instance provision_by_email_links P p c r : Preserves (new_links P) (provision_by_email s p c r).
Proof. solve_links. Qed.

(** What a sign-in adds is the link the state was issued for. *)
Definition asked_for (ctx : CallbackContext) (l : FederationLink.t) : Prop :=
  ctx.(cb_AuthRequest).(FederationAuthRequest.LinkUserID) = Some l.(FederationLink.UserID) /\
  l.(FederationLink.ProviderID) = ctx.(cb_Provider).(FederationProvider.ID) /\
  l.(FederationLink.ExternalID) = ctx.(cb_Claims).(ProviderClaims.ExternalID).

Lemma FindOrProvision_links ctx : Preserves (new_links (asked_for ctx)) (FindOrProvisionUser s ctx).
Proof.
  unfold FindOrProvisionUser, asked_for. cbv zeta. destruct (FederationAuthRequest.LinkUserID _) as [u|] eqn:Eu.
  - unfold completeAuthenticatedLink. repeat (first [apply createLink_links; intros l (<- & <- & <-); by split_and! | links_step]).
  - repeat (first [apply provision_by_email_links | links_step]).
Qed.

(** The password is the account's. *)
Definition knows_password (us : UserSvc.Service) (db : DB) (u : UUID) (password : string) : Prop :=
  exists row hash n, db.(users) !! u = Some row /\ row.(User.PasswordHash) = Some hash /\
    us.(UserSvc.hasher).(VerifyIdentify) password hash = Ok (true, n).

Lemma VerifyPassword_links us u password : Preserves (same federation_links) (UserSvc.VerifyPassword us u password).
Proof.
  unfold UserSvc.VerifyPassword, UserRepo.FindByID, UserRepo.find_user, UserSvc.maybeRehash.
  solve_preserves ltac:(idtac). apply (preserves_update_table _). intros ? ?. exact eq_refl.
Qed.

Lemma wp_VerifyPassword us u password env st :
  wp (UserSvc.VerifyPassword us u password)
    (fun r st' => r = Ok true -> knows_password us st.(st_db) u password) env st.
Proof.
  unfold UserSvc.VerifyPassword, UserRepo.FindByID, UserRepo.find_user.
  apply wp_bind, wp_find_row; intros _; [done|]. cbv beta iota.
  destruct (users (st_db st) !! u) as [row|] eqn:Eu; [|by apply wp_ret].
  destruct (User.PasswordHash row) as [hash|] eqn:Eh; [|by apply wp_ret].
  apply wp_bind, wp_of_result. destruct (VerifyIdentify _ _ _) as [[m n]|e] eqn:Ev; [|done].
  apply wp_bind, (wp_preserves (fun _ _ => True)); [by intros ? ?|]. intros [x|e] st1 _; [|done].
  apply wp_ret. intros [= ->]. by exists row, hash, n.
Qed.

(** A live row of what was staged, under the hash of the token. *)
Definition staged {R} (t : DB -> gmap string R) (expires : R -> Z) (env : Env) (db : DB) (token : string) (p : R) : Prop :=
  t db !! HashToken token = Some p /\ env.(env_wall) <= expires p.

(** The token and the password of somebody who may confirm the link [p]. *)
Definition confirms (us : UserSvc.Service) (env : Env) (db : DB) (token password : string)
    (p : FederationPendingLink.t) : Prop :=
  staged federation_pending_links FederationPendingLink.ExpiresAt env db token p /\
  knows_password us db p.(FederationPendingLink.UserID) password.

Definition confirmed us env db token password (l : FederationLink.t) : Prop := exists p,
  confirms us env db token password p /\
  link_for p.(FederationPendingLink.UserID) p.(FederationPendingLink.ProviderID) p.(FederationPendingLink.ExternalID) l.

Lemma new_links_step P st st1 st2 :
  same federation_links st.(st_db) st1.(st_db) -> new_links P st1.(st_db) st2.(st_db) ->
  new_links P st.(st_db) st2.(st_db).
Proof. intros Hs Hn. etrans; [by apply same_links_new | exact Hn]. Qed.

Lemma wp_ConfirmLink us token password env st : s.(userService) = Some us ->
  wp (ConfirmLink s token password) (fun r st' =>
    (is_ok r = true -> exists p, confirms us env st.(st_db) token password p) /\
    new_links (confirmed us env st.(st_db) token password) st.(st_db) st'.(st_db)) env st.
Proof.
  intros Hus. set (P := confirmed us env st.(st_db) token password).
  assert (Herr : forall e st', same federation_links st.(st_db) st'.(st_db) ->
    (is_ok (@Err ConfirmLinkResult e) = true -> exists p, confirms us env st.(st_db) token password p) /\ new_links P st.(st_db) st'.(st_db)).
  { intros e st' E. split; [done|]. by apply same_links_new. }
  unfold ConfirmLink, wired. rewrite Hus. apply wp_bind, wp_guard; intros _; [|by apply Herr].
  apply wp_bind, wp_bind, wp_guard; intros _; [|by apply Herr]. apply wp_ret, wp_bind, wp_or_fail.
  unfold StateRepo.ConsumePendingLink. apply StoreFacts.wp_consume.
  { intros e st' E. apply Herr. unfold same. by rewrite E. }
  { intros n _. by apply wp_throw, Herr. }
  intros p n Hp. destruct (time_after _ _) eqn:Hexp; [by apply wp_throw, Herr|].
  apply Z.ltb_ge in Hexp. set (st1 := mkState _ n).
  assert (Hs1 : same federation_links st.(st_db) st1.(st_db)) by exact eq_refl.
  apply wp_bind, wp_or_fail. eapply wp_mono; [|apply wp_conj; [apply wp_VerifyPassword |
    apply (wp_preserves (same federation_links)); [apply VerifyPassword_links | intros r st' Hs; exact Hs]]].
  intros [ok|e] st2 [Hok Hs2]; [|apply Herr; by etrans].
  apply wp_bind, wp_guard; intros Hb; [|apply Herr; by etrans]. subst ok.
  assert (HP : confirms us env st.(st_db) token password p) by (split; [by split | by apply Hok]).
  apply (wp_preserves (new_links P)).
  - repeat (first [apply repo_CreateLink_links; intros l Hl; by exists p | links_step]).
  - intros r st3 H3. split; [by exists p|]. apply (new_links_step P st st2 st3); [by etrans | exact H3].
Qed.

(** The account a sign-up creates was not there before. *)
Lemma wp_CreateFromFederation us i roles env st :
  wp (UserSvc.CreateFromFederation us i roles)
    (fun r st' => forall u, r = Ok u -> st.(st_db).(users) !! u.(User.ID) = None) env st.
Proof.
  unfold UserSvc.CreateFromFederation. apply wp_bind, wp_guard; intros _; [|done].
  apply wp_bind, wp_read_only; [unfold UserSvc.check_new_account, UserSvc.validatePassword; solve_preserves ltac:(idtac)|].
  intros [hash|e] n1; [|done].
  apply wp_bind, wp_read_only; [unfold UserSvc.applyRegFormExtras; solve_preserves ltac:(idtac)|].
  intros [u1|e] n2; [|done]. cbn [st_db].
  assert (Hbody : forall st2, st2.(st_db) = st.(st_db) ->
    wp (u <- or_fail (UserRepo.Create u1) (ErrInternal "failed to create user") ;;
        UserSvc.assign_roles us u.(User.ID) (match roles with
          | [] => if N.eqb us.(UserSvc.defaultRoleID) uuid_nil then [] else [us.(UserSvc.defaultRoleID)]
          | _ => roles end) ;;;
        ret u) (fun r st' => forall u, r = Ok u -> st.(st_db).(users) !! u.(User.ID) = None) env st2).
  { intros st2 Hst. apply wp_bind, wp_or_fail. eapply wp_mono; [|apply UserFacts.wp_user_Create].
    intros [u|e] st3; [|done]. intros (_ & Hfree & _).
    apply wp_bind, (wp_preserves (fun _ _ => True)); [by intros ? ?|]. intros [x|e] st4 _; [|done].
    apply wp_ret. intros u' [= <-]. by rewrite <-Hst. }
  unfold UserSvc.withTx. destruct (UserSvc.withDB us).
  - apply wp_transaction; [done|]. eapply wp_mono; [|by apply Hbody]. intros [u|e] st3 Hr; [|done].
    intros _. exact Hr.
  - by apply Hbody.
Qed.

Lemma user_Create_links u : Preserves (same federation_links) (UserRepo.Create u).
Proof.
  unfold UserRepo.Create. solve_preserves ltac:(idtac). apply (preserves_stmt _). intros env db db'.
  repeat case_match; try discriminate. intros [= <-]. exact eq_refl.
Qed.

Lemma assign_links a u r : RoleAssignerLaws a -> Preserves (same federation_links) (a u r).
Proof. intros Ha. apply (preserves_mono same_but_roles); [by intros d d' [t ->] | apply Ha]. Qed.

Lemma CreateFromFederation_links us i roles : s.(userService) = Some us ->
  Preserves (same federation_links) (UserSvc.CreateFromFederation us i roles).
Proof.
  intros Hus. unfold UserSvc.CreateFromFederation, UserSvc.check_new_account, UserSvc.validatePassword,
    UserSvc.applyRegFormExtras, UserSvc.withTx, UserSvc.assign_roles, UserSvc.assign_role.
  solve_preserves ltac:(first [apply user_Create_links | by eapply assign_links, Hassign]).
Qed.

(** The identity of a sign-up that was staged, for an account that is new. *)
Definition signed_up (env : Env) (db : DB) (token : string) (l : FederationLink.t) : Prop := exists p provider,
  staged federation_pending_signups FederationPendingSignup.ExpiresAt env db token p /\
  db.(federation_providers) !! p.(FederationPendingSignup.ProviderID) = Some provider /\
  link_for l.(FederationLink.UserID) provider.(FederationProvider.ID) p.(FederationPendingSignup.ExternalID) l /\
  db.(users) !! l.(FederationLink.UserID) = None.

(** The gate reads. *)
Lemma signup_gate_reads p : ReadOnly (signup_gate s p).
Proof. repeat (first [preserve_step ltac:(idtac) | lazymatch goal with |- Preserves _ ?m => let h := head_of m in unfold h end]). Qed.

Lemma ConsumeToken_links inv : Preserves (same federation_links) (InvitationSvc.ConsumeToken inv).
Proof.
  unfold InvitationSvc.ConsumeToken, InvitationRepo.MarkUsed. solve_preserves ltac:(idtac).
  apply (preserves_update_table _). intros ? ?. exact eq_refl.
Qed.

Lemma wp_CompleteSignup i env st :
  wp (CompleteSignup s i) (fun _ st' => new_links (signed_up env st.(st_db) i.(cs_Token)) st.(st_db) st'.(st_db)) env st.
Proof.
  set (P := signed_up env st.(st_db) i.(cs_Token)).
  assert (Herr : forall st', same federation_links st.(st_db) st'.(st_db) -> new_links P st.(st_db) st'.(st_db))
    by (intros st'; apply same_links_new).
  unfold CompleteSignup, wired. apply wp_bind, wp_guard; intros _; [|by apply Herr].
  destruct (userService s) as [us|] eqn:Hus in |- *; [|by apply wp_throw, Herr].
  apply wp_bind, wp_bind, wp_guard; intros _; [|by apply Herr]. apply wp_ret, wp_bind, wp_or_fail.
  unfold StateRepo.ConsumePendingSignup. apply StoreFacts.wp_consume.
  { intros e st' E. apply Herr. unfold same. by rewrite E. }
  { intros n _. by apply wp_throw, Herr. }
  intros p n Hp. destruct (time_after _ _) eqn:Hexp; [by apply wp_throw, Herr|].
  apply Z.ltb_ge in Hexp. set (st1 := mkState _ n).
  assert (Hs1 : same federation_links st.(st_db) st1.(st_db)) by exact eq_refl.
  apply wp_bind, wp_found_row; [intros st2 E; apply Herr; unfold same; by rewrite E|]. intros provider Hprov.
  apply wp_bind, wp_read_only; [apply signup_gate_reads|]. intros [inv|e] n1; [|by apply Herr].
  apply wp_bind. eapply wp_mono; [|apply wp_conj; [apply wp_CreateFromFederation |
    eapply (wp_preserves (same federation_links)); [by apply CreateFromFederation_links | intros r st' Hs; exact Hs]]].
  cbn [st_db bump]. intros [u|e] st2 [Hnew Hs2]; [|apply Herr; by etrans].
  apply (wp_preserves (new_links P)).
  - repeat (first [ apply createLink_links; intros l Hl | preserve_step
      ltac:(apply (preserves_mono (same federation_links)); [apply same_links_new | apply ConsumeToken_links])]).
    exists p, provider. destruct Hl as (Hu & Hp' & He).
    split_and!; [by split | exact Hprov | by split_and! | rewrite Hu; by apply (Hnew u)].
  - intros r st3 H3. apply (new_links_step P st st2 st3); [by etrans | exact H3].
Qed.

(** The calls that write links: a callback with what the handler makes of it, a
    confirmation, a sign-up, an account that lets go of a link. *)
Inductive LinkCall :=
| CCallback (name code state : string) (cache : Cache)
| CConfirmLink (token password : string)
| CCompleteSignup (i : CompleteSignupInput)
| CUnlinkAccount (linkID userID : UUID).

Definition link_perform (c : LinkCall) : M unit :=
  match c with
  | CCallback name code state cache =>
      r <- ProcessCallback s name code state cache ;;
      match r.1 with
      | Ok ctx => drop (FindOrProvisionUser s ctx)
      | Err e => throw e
      end
  | CConfirmLink token password => drop (ConfirmLink s token password)
  | CCompleteSignup i => drop (CompleteSignup s i)
  | CUnlinkAccount linkID userID => UnlinkAccount linkID userID
  end.

(** Where a link that was not there before comes from. *)
Definition origin (env : Env) (db : DB) (c : LinkCall) (l : FederationLink.t) : Prop :=
  match c with
  | CCallback name _ state _ => exists ctx, verified env db name state ctx /\ asked_for ctx l
  | CConfirmLink token password => exists us, s.(userService) = Some us /\ confirmed us env db token password l
  | CCompleteSignup i => signed_up env db i.(cs_Token) l
  | CUnlinkAccount _ _ => False
  end.

Lemma new_links_mono (P P' : FederationLink.t -> Prop) d d' :
  (forall l, P l -> P' l) -> new_links P d d' -> new_links P' d d'.
Proof. intros HP [Hn Hu]. split; [|exact Hu]. intros k l Hl. destruct (Hn k l Hl); [by left | right; by apply HP]. Qed.

Lemma UnlinkAccount_links P linkID userID : Preserves (new_links P) (UnlinkAccount linkID userID).
Proof.
  unfold UnlinkAccount, FedRepo.FindLinkByID, found. solve_preserves ltac:(idtac).
  apply (preserves_update_table _). intros _ db. unfold new_links, linked_once.
  change (federation_links (upd federation_links (delete linkID) db)) with (delete linkID db.(federation_links)).
  split.
  - intros k l [_ Hl]%lookup_delete_Some. by left.
  - intros Hu k k' l l' [_ Hl]%lookup_delete_Some [_ Hl']%lookup_delete_Some. by eapply Hu.
Qed.

Lemma wp_callback_links name code state cache env st :
  wp (link_perform (CCallback name code state cache))
    (fun _ st' => new_links (origin env st.(st_db) (CCallback name code state cache)) st.(st_db) st'.(st_db)) env st.
Proof.
  simpl. apply wp_bind. eapply wp_mono; [|apply wp_ProcessCallback].
  intros [[[ctx|e] cache']|e] st1; [| |done]; cbn [fst callback_outcome].
  - intros [Hv Hst1]. apply (wp_preserves (new_links (asked_for ctx))).
    + unfold drop. apply (preserves_bind _); [apply FindOrProvision_links | apply _].
    + intros r st2 H3. apply (new_links_step _ st st1 st2); [by rewrite Hst1|].
      eapply new_links_mono; [|exact H3]. intros l Hl. by exists ctx.
  - intros Hst1. apply wp_throw, same_links_new. by destruct Hst1 as [-> | ->].
Qed.


(** ** A staged link is good for one password *)

Lemma VerifyPassword_pending us u password :
  Preserves (same federation_pending_links) (UserSvc.VerifyPassword us u password).
Proof.
  unfold UserSvc.VerifyPassword, UserRepo.FindByID, UserRepo.find_user, UserSvc.maybeRehash.
  solve_preserves ltac:(idtac). apply (preserves_update_table _). intros ? ?. exact eq_refl.
Qed.

Lemma CreateLink_pending l : Preserves (same federation_pending_links) (FedRepo.CreateLink l).
Proof.
  unfold FedRepo.CreateLink. solve_preserves ltac:(idtac). apply (preserves_stmt _). intros env db db'.
  repeat case_match; try discriminate. intros [= <-]. exact eq_refl.
Qed.

(** The answers that say the password was looked at. *)
Definition answered {A} (r : result A) : Prop := is_ok r = true \/ r = Err (EOther invalidPasswordSentinel).

Lemma wp_ConfirmLink_spent token password env st :
  wp (ConfirmLink s token password) (fun r st' => answered r ->
    st'.(st_db).(federation_pending_links) !! HashToken token = None) env st.
Proof.
  unfold answered. assert (Herr : forall e (P : Prop), e <> EOther invalidPasswordSentinel ->
    is_ok (@Err ConfirmLinkResult e) = true \/ @Err ConfirmLinkResult e = Err (EOther invalidPasswordSentinel) -> P)
    by (intros e P He [Hr|[= Hr]]; done).
  unfold ConfirmLink, wired. apply wp_bind, wp_guard; intros _; [|by apply Herr].
  destruct (userService s) as [us|]; [|by apply wp_bind, wp_throw, Herr].
  apply wp_bind, wp_bind, wp_guard; intros _; [|by apply Herr]. apply wp_ret, wp_bind, wp_or_fail.
  unfold StateRepo.ConsumePendingLink. apply StoreFacts.wp_consume.
  { intros e st' _. by apply Herr. }
  { intros n _. by apply wp_throw, Herr. }
  intros p n _. set (st1 := mkState _ n).
  assert (Hgone : federation_pending_links st1.(st_db) !! HashToken token = None) by apply lookup_delete_eq.
  destruct (time_after _ _); [by apply wp_throw|]. apply (wp_preserves (same federation_pending_links)).
  - unfold found, UserSvc.GetByID, FedRepo.FindProviderByID.
    solve_preserves ltac:(first [apply VerifyPassword_pending | apply CreateLink_pending]).
  - intros r st2 Hs2 _. by rewrite Hs2.
Qed.

(** A token to confirm a link takes one password: once an answer was given to
    it, right or wrong, every further attempt with the token is refused,
    whatever the password.  An answer is only right for the account the link
    was staged for. *)
Theorem confirm_token_once (token password : string) (env : Env) (db : DB) :
  let '(r, db') := run (ConfirmLink s token password) env db in
  (is_ok r = true -> exists us p, s.(userService) = Some us /\ confirms us env db token password p) /\
  (answered r -> forall password' env', is_ok (run (ConfirmLink s token password') env' db').1 = false).
Proof.
  assert (Hall : forall pw e d, let '(r, d') := run (ConfirmLink s token pw) e d in
    (is_ok r = true -> exists us p, s.(userService) = Some us /\ confirms us e d token pw p) /\
    (answered r -> d'.(federation_pending_links) !! HashToken token = None)).
  { intros pw e d. apply (run_wp _ (fun r d' => (is_ok r = true -> exists us p, s.(userService) = Some us /\ confirms us e d token pw p) /\
    (answered r -> d'.(federation_pending_links) !! HashToken token = None))), wp_conj; [|apply wp_ConfirmLink_spent].
    destruct (userService s) as [us|] eqn:Hus in |- *.
    - eapply wp_mono; [|by apply (wp_ConfirmLink us)]. intros r0 st1 [Hp _] Hok.
      destruct (Hp Hok) as [p Hc]. by exists us, p.
    - unfold ConfirmLink, wired. rewrite Hus. apply wp_bind, wp_guard; intros _; [by apply wp_bind, wp_throw | done]. }
  pose proof (Hall password env db) as Hfst. destruct (run (ConfirmLink s token password) env db) as [r db'].
  destruct Hfst as [Hok Hspent]. split; [exact Hok|]. intros Ha password' env'.
  pose proof (Hall password' env' db') as Hsnd. destruct (run (ConfirmLink s token password') env' db') as [r2 d2].
  destruct Hsnd as [Hok2 _]. apply not_true_iff_false. intros Hr. destruct (Hok2 Hr) as (us & p & _ & [Hst _] & _).
  by rewrite (Hspent Ha) in Hst.
Qed.
End facts.
End FedFacts.

(** ** Samples *)
Module Sample.
Import FedSvc Provision FedFacts.
#[local] Existing Instance sample_platform.
#[local] Existing Instance sample_netlib.
#[local] Instance sample_jwtlib : JwtLib := sample_jwt UserFacts.sample_claims 1000.

(** A provider that answers any code with the user [x9]. *)
#[local] Instance identities : IdentityLib := {|
  Provider := unit;
  Token := unit;
  NewProvider _ _ _ _ := Ok tt;
  Endpoint _ := ("https://idp/a", "https://idp/t");
  userinfo_endpoint _ := Ok "https://idp/u";
  AuthCodeURL _ state _ := "https://idp/a?state=" +:+ state;
  Exchange _ _ _ _ _ _ := Ok tt;
  id_token _ := "";
  Verify _ _ _ _ _ _ := Err (EOther "no token");
  Get _ _ _ _ _ _ := Ok (200, "{" +:+ q +:+ "sub" +:+ q +:+ ":" +:+ q +:+ "x9" +:+ q +:+ "," +:+
                               q +:+ "email" +:+ q +:+ ":" +:+ q +:+ "a@b" +:+ q +:+ "}")
|}.

Definition service : Federation.Service :=
  Federation.mkService true (Some InvitationFacts.quiet_users) true true "https://op/ui" ["https://app"] "https://op" (repeat 7 32).

Definition acme : FederationProvider.t :=
  FederationProvider.zero <| FederationProvider.ID := 7%N |> <| FederationProvider.Name := "acme" |>
    <| FederationProvider.Type_ := "oauth2" |> <| FederationProvider.ClientSecret := Some "s" |>
    <| FederationProvider.UserinfoURL := Some "https://idp/u" |> <| FederationProvider.Active := true |>
    <| FederationProvider.AttributeMapper := defaultAttributeMapper |>
    <| FederationProvider.AllowLinkConfirmation := true |>.

(** The account 5 asked for a link with the state [st]. *)
Definition asking : FederationAuthRequest.t :=
  FederationAuthRequest.mk "st" 7%N "v" "n" (Some "https://app/done") None None (Some 5%N) None None 0 (1000 * second).

Definition asking_db (p : FederationProvider.t) (r : FederationAuthRequest.t) : DB :=
  UserFacts.sample_users <| federation_providers := {[ 7%N := p ]} |>
    <| federation_auth_requests := {[ "st" := r ]} |>.

Definition callback : LinkCall := CCallback "acme" "code" "st" ∅.

Lemma quiet_assign us a : service.(userService) = Some us -> us.(UserSvc.roleAssigner) = Some a -> RoleAssignerLaws a.
Proof. by intros [= <-]. Qed.


(** A provider whose stored mapper is the empty object, which the checks of the
    administration let through, signs nobody in: the default mapping is used for
    an absent mapper only. *)
Example empty_mapper_finds_no_subject :
  validateAttributeMapper "{}" = Ok tt /\
  (run (link_perform service callback) UserFacts.sample_env
     (asking_db (acme <| FederationProvider.AttributeMapper := "{}" |>) asking)).1
  = Err (ErrBadRequest "federation provider returned no subject identifier").
Proof. vm_compute. by split. Qed.

(** The name of a provider that is not active is taken, and the check of the
    names does not see it. *)
Example inactive_name_is_internal_error :
  let input name := Federation.mkCreateProviderInput name None "oauth2" "c" "s" None None None None None [] "" None None in
  let db := asking_db (acme <| FederationProvider.Active := false |>) asking in
  (run (CreateProvider service (input "acme")) UserFacts.sample_env (asking_db acme asking)).1
    = Err (ErrConflict "provider name already exists") /\
  (run (CreateProvider service (input "acme")) UserFacts.sample_env db).1
    = Err (ErrInternal "failed to create provider") /\
  is_ok (run (CreateProvider service (input "other")) UserFacts.sample_env db).1 = true.
Proof. vm_compute. by split_and!. Qed.

(** After a confirmation the name of the provider is that of some link of the
    account, not of the link that was confirmed. *)
Example confirmed_provider_is_not_named :
  let other := acme <| FederationProvider.ID := 6%N |> <| FederationProvider.Name := "older" |> in
  let db := UserFacts.sample_users
    <| federation_providers := {[ 6%N := other; 7%N := acme ]} |>
    <| federation_links := {[ 2%N := (link_of 5%N 6%N "y" None "") <| FederationLink.ID := 2%N |>;
                              9%N := (link_of 5%N 7%N "x9" None "") <| FederationLink.ID := 9%N |> ]} |> in
  (run (FedHandler.provider_name 5%N) UserFacts.sample_env db).1 = Ok "older".
Proof. vm_compute. reflexivity. Qed.
End Sample.
