(* ===== verification/Cleanup.v ===== *)
(** * database/cleanup.go: the periodic sweep of dead rows

    One pass of the background job: the builtin statements, then the registered
    ones; a statement that fails is logged and skipped.  The cascades of the
    rows it deletes are those of the schema.  The timer is not modelled: a sweep
    is one operation, at any instant. *)
From S2P Require Import Prelude.
From S2P Require Import Errors.
From S2P Require Import GoLib.
From S2P Require Import Model.
From S2P Require Import Exec.
From S2P Require Import Schema.
From S2P Require Import Crypto.
From S2P Require Import SessionSvc.
From S2P Require Import ReauthSvc.
From S2P Require Import OAuth.
From S2P Require Import OAuthRepo.
From S2P Require Import Middleware.
Local Open Scope Z_scope.

Module CleanupJob.

(** A registered cleanup, which answers the number of rows it deleted. *)
Definition CleanupFn : Type := Z -> M Z.

Definition registeredCleanup : Type := string * CleanupFn.

Definition RegisterCleanup (label : string) (fn : CleanupFn) (registered : list registeredCleanup) :
    list registeredCleanup := registered ++ [(label, fn)].

(** The label of a statement and what it does. *)
Definition rawCleanup : Type := string * (DB -> DB).

(** [expires_at < now OR (flag = TRUE AND since < grace)]; a NULL [since] is not
    below. *)
Definition over (now grace expires : Z) (flag : bool) (since : option Z) : bool :=
  time_before expires now ||
  (flag && match since with Some t => time_before t grace | None => false end).

Definition expired (now expires : Z) : bool := time_before expires now.

Definition purge_due (now : Z) (u : User.t) : bool :=
  match u.(User.DeletionPurgeAfter) with Some t => time_before t now | None => false end.

Definition builtinCleanups (now : Z) : list rawCleanup :=
  let grace := time_add now (- (24 * hour)) in
  [("access_tokens", fun db => db <| access_tokens ::= rows_without (fun _ a =>
      over now grace a.(AccessToken.ExpiresAt) a.(AccessToken.Revoked) (Some a.(AccessToken.CreatedAt))) |>);
   ("refresh_tokens", delete_refresh_tokens (fun _ r =>
      over now grace r.(RefreshToken.ExpiresAt) r.(RefreshToken.Revoked) (Some r.(RefreshToken.CreatedAt))));
   ("authorization_codes", fun db => db <| authorization_codes ::= rows_without (fun _ c =>
      expired now c.(AuthorizationCode.ExpiresAt)) |>);
   ("device_codes", fun db => db <| device_codes ::= rows_without (fun _ d =>
      expired now d.(DeviceCode.ExpiresAt)) |>);
   ("sessions", delete_sessions (fun _ s =>
      over now grace s.(Session.ExpiresAt) s.(Session.Revoked) s.(Session.RevokedAt)));
   ("reauth_tokens", fun db => db <| reauth_tokens ::= rows_without (fun _ r =>
      over now grace r.(ReauthToken.ExpiresAt) r.(ReauthToken.Used) r.(ReauthToken.UsedAt)) |>);
   ("passkey_challenges", fun db => db <| passkey_challenges ::= rows_without (fun _ c =>
      expired now c.(PasskeyChallenge.ExpiresAt)) |>);
   ("federation_auth_requests", fun db => db <| federation_auth_requests ::= rows_without (fun _ r =>
      expired now r.(FederationAuthRequest.ExpiresAt)) |>);
   ("federation_pending_links", fun db => db <| federation_pending_links ::= rows_without (fun _ l =>
      expired now l.(FederationPendingLink.ExpiresAt)) |>);
   ("federation_pending_signups", fun db => db <| federation_pending_signups ::= rows_without (fun _ s =>
      expired now s.(FederationPendingSignup.ExpiresAt)) |>);
   ("revoked_jtis", fun db => db <| revoked_jtis ::= rows_without (fun _ j =>
      expired now j.(RevokedJTI.ExpiresAt)) |>);
   ("users_purged", delete_users (fun _ u => purge_due now u));
   ("outbound_emails_purged", fun db => db <| outbound_emails ::= rows_without (fun _ e =>
      mem e.(OutboundEmail.Status) ["sent"; "failed"]
      && time_before e.(OutboundEmail.CreatedAt) (time_add now (- (7 * 24 * hour)))) |>)].

(** Errors are logged. *)
Definition execCleanup (c : rawCleanup) : M unit := ignore (stmt (fun _ db => Ok (c.2 db))).

Definition runCleanup (registered : list registeredCleanup) : M unit :=
  now <- wall_now ;;
  for_each (builtinCleanups now) execCleanup ;;;
  for_each registered (fun r => ignore (r.2 now)).

End CleanupJob.

Module CleanupFacts.
Import CleanupJob.

(** ** What a sweep may do to the rows that are in use *)

(** The row without its link to a refresh token. *)
Definition core (a : AccessToken.t) : AccessToken.t := a <| AccessToken.RefreshTokenID := None |>.

Definition live_session (now : Z) (s : Session.t) : Prop :=
  s.(Session.Revoked) = false /\ now <= s.(Session.ExpiresAt).

Definition spared (now : Z) (db : DB) (u : UUID) : Prop :=
  forall row, db.(users) !! u = Some row -> purge_due now row = false.

Definition spared_session (now : Z) (db : DB) (sid : UUID) : Prop :=
  exists s, db.(sessions) !! sid = Some s /\ live_session now s /\ spared now db s.(Session.UserID).

(** Rows only disappear; a live token of a live session stays, and so does the
    session, unless the account is due. *)
Record sweeps (now : Z) (d d' : DB) : Prop := {
  users_less : d'.(users) ⊆ d.(users);
  sessions_less : d'.(sessions) ⊆ d.(sessions);
  tokens_less : forall k a', d'.(access_tokens) !! k = Some a' ->
    exists a, d.(access_tokens) !! k = Some a /\ core a = core a';
  sessions_stay : forall sid s, d.(sessions) !! sid = Some s -> live_session now s ->
    spared now d s.(Session.UserID) -> d'.(sessions) !! sid = Some s;
  tokens_stay : forall k a, d.(access_tokens) !! k = Some a -> AccessToken.IsValid now a = true ->
    (forall u, a.(AccessToken.UserID) = Some u -> spared now d u) ->
    (forall sid, a.(AccessToken.SessionID) = Some sid -> spared_session now d sid) ->
    exists a', d'.(access_tokens) !! k = Some a' /\ core a = core a'
}.

Lemma core_fields a a' : core a = core a' ->
  a.(AccessToken.UserID) = a'.(AccessToken.UserID) /\ a.(AccessToken.SessionID) = a'.(AccessToken.SessionID) /\
  (forall wall, AccessToken.IsValid wall a = AccessToken.IsValid wall a') /\
  a.(AccessToken.ID) = a'.(AccessToken.ID) /\ a.(AccessToken.ClientID) = a'.(AccessToken.ClientID) /\
  a.(AccessToken.Scopes) = a'.(AccessToken.Scopes).
Proof. destruct a, a'. unfold core. simpl. intros [= -> -> -> -> -> -> -> -> -> ->]. done. Qed.

Lemma core_drop_link gone a : core (drop_link gone a) = core a.
Proof. unfold drop_link. destruct (AccessToken.RefreshTokenID a) as [h|]; [|done]. by destruct (gone h). Qed.

Lemma spared_less now d d' u : d'.(users) ⊆ d.(users) -> spared now d u -> spared now d' u.
Proof. intros Hl Hs row Hrow. apply Hs. by eapply lookup_weaken. Qed.

Lemma spared_b now db u : doomed db.(users) (fun _ u => purge_due now u) u = false -> spared now db u.
Proof. unfold doomed, spared. intros Hd row Hrow. by rewrite Hrow in Hd. Qed.

Lemma sweeps_spared_session now d d' sid : sweeps now d d' -> spared_session now d sid -> spared_session now d' sid.
Proof.
  intros Hs (s & Hrow & Hlive & Hu). exists s. split_and!; [by apply (sessions_stay _ _ _ Hs)|done|].
  eapply spared_less; [apply Hs | exact Hu].
Qed.

#[export] Instance sweeps_preorder now : PreOrder (sweeps now).
Proof.
  split.
  - intros d. split; eauto.
  - intros d1 d2 d3 H12 H23. split.
    + by etrans; [apply H23 | apply H12].
    + by etrans; [apply H23 | apply H12].
    + intros k a3 H3. destruct (tokens_less _ _ _ H23 _ _ H3) as (a2 & H2 & E23).
      destruct (tokens_less _ _ _ H12 _ _ H2) as (a1 & H1 & E12). exists a1. split; [done | congruence].
    + intros sid s Hrow Hlive Hu. apply (sessions_stay _ _ _ H23); [by apply (sessions_stay _ _ _ H12)|done|].
      eapply spared_less; [apply H12 | exact Hu].
    + intros k a Hrow Hv Hu Hs. destruct (tokens_stay _ _ _ H12 _ _ Hrow Hv Hu Hs) as (a2 & H2 & E2).
      destruct (core_fields _ _ E2) as (Eu & Es & Ev & _).
      destruct (tokens_stay _ _ _ H23 _ _ H2) as (a3 & H3 & E3).
      * by rewrite <-Ev.
      * intros u Hau. rewrite <-Eu in Hau. eapply spared_less; [apply H12 | by apply Hu].
      * intros sid Hsid. rewrite <-Es in Hsid. eapply sweeps_spared_session; [exact H12 | by apply Hs].
      * exists a3. split; [done | congruence].
Qed.

(** ** The statements *)

Lemma rows_without_none {K V} `{Countable K} (t : gmap K V) : rows_without (fun _ _ => false) t = t.
Proof.
  apply map_eq. intros k. destruct (t !! k) as [v|] eqn:E.
  - by apply rows_without_lookup.
  - by apply rows_without_None.
Qed.

Lemma rows_without_twice {K V} `{Countable K} (P Q : K -> V -> bool) (t : gmap K V) :
  rows_without P (rows_without Q t) = rows_without (fun k v => P k v || Q k v) t.
Proof.
  apply map_eq. intros k. apply option_eq. intros v. rewrite !rows_without_lookup, orb_false_iff. tauto.
Qed.

Lemma sweeps_by now d d' Pu Ps Pa (relink : AccessToken.t -> AccessToken.t) :
  d'.(users) = rows_without Pu d.(users) -> d'.(sessions) = rows_without Ps d.(sessions) ->
  d'.(access_tokens) = relink <$> rows_without Pa d.(access_tokens) ->
  (forall a, core (relink a) = core a) ->
  (forall sid s, d.(sessions) !! sid = Some s -> live_session now s ->
     spared now d s.(Session.UserID) -> Ps sid s = false) ->
  (forall k a, AccessToken.IsValid now a = true ->
     (forall u, a.(AccessToken.UserID) = Some u -> spared now d u) ->
     (forall sid, a.(AccessToken.SessionID) = Some sid -> spared_session now d sid) -> Pa k a = false) ->
  sweeps now d d'.
Proof.
  intros Eu Es Ea Hre HPs HPa. split.
  - rewrite Eu. apply map_subseteq_spec. intros k v. rewrite rows_without_lookup. by intros [? _].
  - rewrite Es. apply map_subseteq_spec. intros k v. rewrite rows_without_lookup. by intros [? _].
  - intros k a'. rewrite Ea, lookup_fmap, fmap_Some. intros (a & [Hk _]%rows_without_lookup & ->). eauto.
  - intros sid s Hrow Hlive Hu. rewrite Es. apply rows_without_lookup. eauto.
  - intros k a Hrow Hv Hu Hs. exists (relink a). split; [|done]. rewrite Ea, lookup_fmap, fmap_Some.
    exists a. split; [apply rows_without_lookup|]; eauto.
Qed.

Lemma sweeps_other now d d' :
  d'.(users) = d.(users) -> d'.(sessions) = d.(sessions) -> d'.(access_tokens) = d.(access_tokens) -> sweeps now d d'.
Proof.
  intros Eu Es Ea. apply (sweeps_by now d d' (fun _ _ => false) (fun _ _ => false) (fun _ _ => false) id);
    rewrite ?rows_without_none, ?map_fmap_id; done.
Qed.

Lemma valid_not_over now grace a : AccessToken.IsValid now a = true ->
  over now grace a.(AccessToken.ExpiresAt) a.(AccessToken.Revoked) (Some a.(AccessToken.CreatedAt)) = false.
Proof.
  unfold AccessToken.IsValid, over, time_after, time_before. intros [Hr%negb_true_iff He%Z.ltb_lt]%andb_true_iff.
  rewrite Hr. apply orb_false_iff. split; [apply Z.ltb_ge; lia | done].
Qed.

Lemma live_not_over now grace s : live_session now s ->
  over now grace s.(Session.ExpiresAt) s.(Session.Revoked) s.(Session.RevokedAt) = false.
Proof.
  intros [Hr He]. unfold over, time_before. rewrite Hr. apply orb_false_iff. split; [apply Z.ltb_ge; lia | done].
Qed.

Lemma sweeps_access_tokens now grace d :
  sweeps now d (d <| access_tokens ::= rows_without (fun _ a =>
    over now grace a.(AccessToken.ExpiresAt) a.(AccessToken.Revoked) (Some a.(AccessToken.CreatedAt))) |>).
Proof.
  eapply (sweeps_by now d _ (fun _ _ => false) (fun _ _ => false) _ id);
    [by rewrite rows_without_none | by rewrite rows_without_none | symmetry; apply map_fmap_id | done..|].
  intros k a Hv _ _. by apply valid_not_over.
Qed.

Lemma sweeps_refresh_tokens now P d : sweeps now d (delete_refresh_tokens P d).
Proof.
  eapply (sweeps_by now d _ (fun _ _ => false) (fun _ _ => false) (fun _ _ => false));
    rewrite ?rows_without_none; try done. intros a. apply core_drop_link.
Qed.

Lemma doomed_opt_false {K V} `{Countable K} (t : gmap K V) P (k : option K) :
  (forall i v, k = Some i -> t !! i = Some v -> P i v = false) -> doomed_opt t P k = false.
Proof.
  intros Hk. destruct k as [i|]; [|done]. simpl. unfold doomed. destruct (t !! i) as [v|] eqn:E; [by apply Hk | done].
Qed.

Lemma sweeps_sessions now P d :
  (forall sid s, live_session now s -> spared now d s.(Session.UserID) -> P sid s = false) ->
  sweeps now d (delete_sessions P d).
Proof.
  intros HP. etrans; [|apply sweeps_refresh_tokens].
  apply (sweeps_by now d _ (fun _ _ => false) P (fun _ a => doomed_opt d.(sessions) P a.(AccessToken.SessionID)) id);
    [by rewrite rows_without_none | done | symmetry; apply map_fmap_id | done |..].
  - intros sid s _. apply HP.
  - intros k a _ _ Hs. apply doomed_opt_false. intros sid s Hsid Hrow.
    destruct (Hs sid Hsid) as (s0 & Hrow0 & Hlive & Hu). simplify_eq. by apply HP.
Qed.

Lemma sweeps_users now d : sweeps now d (delete_users (fun _ u => purge_due now u) d).
Proof.
  pose (P := fun (_ : UUID) (u : User.t) => purge_due now u). change (sweeps now d (delete_users P d)).
  pose (Ps := fun (_ : UUID) (s : Session.t) => doomed d.(users) P s.(Session.UserID)).
  assert (Hsp : forall u, spared now d u -> doomed d.(users) P u = false).
  { intros u Hu. unfold doomed. destruct (d.(users) !! u) as [row|] eqn:E; [by apply Hu | done]. }
  unfold delete_users. etrans; [|apply sweeps_refresh_tokens]. unfold delete_sessions.
  etrans; [|apply sweeps_refresh_tokens].
  apply (sweeps_by now d _ P Ps (fun _ a => doomed_opt d.(sessions) Ps a.(AccessToken.SessionID)
            || doomed_opt d.(users) P a.(AccessToken.UserID)) id);
    [done | done | rewrite <-rows_without_twice; symmetry; apply map_fmap_id | done |..].
  - intros sid s _ _ Hu. by apply Hsp.
  - intros k a _ Hu Hs. apply orb_false_iff. split; apply doomed_opt_false.
    + intros sid s Hsid Hrow. destruct (Hs sid Hsid) as (s0 & Hrow0 & _ & Hown). simplify_eq. by apply Hsp.
    + intros u row Hau Hrow. by apply (Hu u Hau).
Qed.

Lemma builtin_sweeps now d c : In c (builtinCleanups now) -> sweeps now d (c.2 d).
Proof.
  unfold builtinCleanups. cbn [In].
  intros Hc. repeat destruct Hc as [<-|Hc]; cbn [snd]; [..|done];
    first [ by apply sweeps_other | apply sweeps_access_tokens | apply sweeps_refresh_tokens | apply sweeps_users | idtac ].
  apply sweeps_sessions. intros sid s Hs _. by apply live_not_over.
Qed.

(** ** Bearer tokens across a sweep *)

(** What [BearerAuth] lets through, as a function of the rows. *)
Definition bearer_view (header : string) (env : Env) (db : DB) : option Context :=
  let raw := ParseBearer header in
  if String.eqb raw "" || env.(env_fail) 0%nat then None
  else match db.(access_tokens) !! HashToken raw with
  | Some t =>
      if AccessToken.IsValid env.(env_wall) t
         && match t.(AccessToken.SessionID) with
            | Some sid => negb (env.(env_fail) 1%nat) && match db.(sessions) !! sid with
                | Some s => negb s.(Session.Revoked) && time_after s.(Session.ExpiresAt) env.(env_now)
                | None => false
                end
            | None => true
            end
      then Some (mkContext t.(AccessToken.ID) t.(AccessToken.ClientID) t.(AccessToken.UserID)
                   t.(AccessToken.SessionID) t.(AccessToken.Scopes))
      else None
  | None => None
  end.

Definition passes {A} (r : result A) : option A := match r with Ok a => Some a | Err _ => None end.

Lemma bearer_view_spec header env db : passes (run (BearerAuth header) env db).1 = bearer_view header env db.
Proof.
  unfold BearerAuth, LookupToken, oauth_token_lookup, LookupActiveAccessToken, SessionIsActive, session_validator,
    SessionSvc.IsActive, OAuthRepo.FindAccessToken, SessionRepo.FindByID, bearer_view, run, bind, guard, or_fail,
    find_row, wall_now, clock_now. cbv zeta.
  destruct (String.eqb (ParseBearer header) "") eqn:Er; [done|]. cbn -[HashToken ParseBearer String.eqb].
  destruct (env_fail env 0) eqn:E0; [done|]. cbn -[HashToken ParseBearer].
  destruct (access_tokens db !! _) as [t|]; [|done]. cbn -[HashToken ParseBearer].
  destruct (AccessToken.IsValid _ t); [|done]. cbn -[HashToken ParseBearer].
  destruct (AccessToken.SessionID t) as [sid|] eqn:Es; [|done]. cbn.
  destruct (env_fail env 1) eqn:E1; [done|]. cbn. destruct (sessions db !! sid) as [s|]; [|done]. cbn.
  by destruct (negb _ && _).
Qed.

Lemma runCleanup_sweeps registered env db :
  (forall r now, In r registered -> Preserves (sweeps now) (r.2 now)) ->
  sweeps env.(env_wall) db (run (runCleanup registered) env db).2.
Proof.
  intros Hreg. set (now := env.(env_wall)).
  assert (Hp : Preserves (sweeps now) (for_each (builtinCleanups now) execCleanup ;;;
                                       for_each registered (fun r => ignore (r.2 now)))).
  { assert (Hfor : forall {A} (l : list A) (f : A -> M unit),
      (forall x, In x l -> Preserves (sweeps now) (f x)) -> Preserves (sweeps now) (for_each l f)).
    { intros A l f. induction l as [|x l IH]; intros Hf; [apply _|]. apply (preserves_bind _); [apply Hf; by left|].
      intros _. apply IH. intros y Hy. apply Hf. by right. }
    apply (preserves_bind _); [|intros _]; apply Hfor; intros x Hx; apply (preserves_ignore _).
    - apply (preserves_stmt _). intros e d d' [= <-]. by apply builtin_sweeps.
    - by apply Hreg. }
  specialize (Hp env (mkState db 0)). unfold run.
  change (runCleanup registered env (mkState db 0)) with ((for_each (builtinCleanups now) execCleanup ;;;
    for_each registered (fun r => ignore (r.2 now))) env (mkState db 0)).
  by destruct (bind _ _ env (mkState db 0)) as [r st'].
Qed.

(** The accounts of the token and of its session are not due to be purged. *)
Definition owners_spared (now : Z) (db : DB) (c : Context) : Prop :=
  (forall u, c.(ContextUserID) = Some u -> spared now db u) /\
  (forall sid s, c.(ContextSessionID) = Some sid -> db.(sessions) !! sid = Some s -> spared now db s.(Session.UserID)).

(** C21: A sweep is invisible to the bearers of tokens: whatever statements of it
    fail, a request after it passes only if it would have passed without it, with
    the same context, and a request that would have passed still does, unless the
    account of the token or of its session was due to be purged. *)
Theorem cleanup_transparent registered header env env' db c :
  (forall r now, In r registered -> Preserves (sweeps now) (r.2 now)) ->
  env.(env_wall) <= env'.(env_wall) -> env.(env_wall) <= env'.(env_now) ->
  let db' := (run (runCleanup registered) env db).2 in
  ((run (BearerAuth header) env' db').1 = Ok c -> (run (BearerAuth header) env' db).1 = Ok c) /\
  (owners_spared env.(env_wall) db c ->
   (run (BearerAuth header) env' db).1 = Ok c -> (run (BearerAuth header) env' db').1 = Ok c).
Proof.
  intros Hreg Hwall Hnow db'. pose proof (runCleanup_sweeps registered env db Hreg) as Hs. fold db' in Hs.
  assert (Hv : forall d, (run (BearerAuth header) env' d).1 = Ok c <-> bearer_view header env' d = Some c).
  { intros d. rewrite <-bearer_view_spec. by destruct (run _ _ d).1 as [a|e]; simpl; split; intros [= ->]. }
  rewrite !Hv. clear Hv. unfold bearer_view.
  destruct (_ || _); [by split; intros|]. split.
  - destruct (access_tokens db' !! _) as [a'|] eqn:Ea'; [|done].
    destruct (tokens_less _ _ _ Hs _ _ Ea') as (a & -> & E). destruct (core_fields _ _ E) as (-> & -> & -> & -> & -> & ->).
    destruct (AccessToken.IsValid _ _); [|done]. simpl. destruct (AccessToken.SessionID a') as [sid|]; [|done].
    destruct (sessions db' !! sid) as [s|] eqn:Es; [|by rewrite andb_false_r].
    by rewrite (lookup_weaken _ _ _ _ Es (sessions_less _ _ _ Hs)).
  - intros Hown. destruct (access_tokens db !! _) as [a|] eqn:Ea; [|done].
    destruct (AccessToken.IsValid _ a) eqn:Hval; [|done]. cbn [andb].
    destruct (match AccessToken.SessionID a with Some _ => _ | None => _ end) eqn:Hses; [|done].
    intros [= <-]. destruct Hown as [Hu Hsu]. cbn in Hu, Hsu.
    assert (Hlive : forall sid, a.(AccessToken.SessionID) = Some sid ->
              exists s, db.(sessions) !! sid = Some s /\ live_session env.(env_wall) s).
    { intros sid Hsid. rewrite Hsid in Hses. apply andb_true_iff in Hses as [_ Hses].
      destruct (sessions db !! sid) as [s|]; [|done]. exists s. split; [done|].
      apply andb_true_iff in Hses as [Hr%negb_true_iff He%Z.ltb_lt]. split; [done | lia]. }
    destruct (tokens_stay _ _ _ Hs _ _ Ea) as (a' & Ha' & E); [| exact Hu | |].
    + unfold AccessToken.IsValid, time_after in *. apply andb_true_iff in Hval as [-> He%Z.ltb_lt]. apply Z.ltb_lt. lia.
    + intros sid Hsid. destruct (Hlive sid Hsid) as (s & Hrow & Hl). exists s. split_and!; [done|done|by eapply Hsu].
    + rewrite Ha'. destruct (core_fields _ _ E) as (Eu & Es & Ev & Ei & Ec & Esc).
      rewrite <-Ev, <-Es, <-Eu, <-Ei, <-Ec, <-Esc, Hval. simpl.
      destruct (AccessToken.SessionID a) as [sid|] eqn:Hsid; [|done].
      destruct (Hlive sid eq_refl) as (s & Hrow & Hl). rewrite Hrow in Hses.
      by rewrite (sessions_stay _ _ _ Hs _ _ Hrow Hl (Hsu _ _ eq_refl Hrow)), Hses.
Qed.

End CleanupFacts.

(** ** A sweep of a small database *)
Module CleanupSample.
Import CleanupJob CleanupFacts.

Definition env (t : Z) : Env := mkEnv (t * second) (t * second) (fun _ => false) (fun _ _ => 0) (fun n => N.of_nat n).

Definition bearer_of (raw : string) (u : UUID) (sid : UUID) (expires : Z) : AccessToken.t :=
  AccessToken.zero <| AccessToken.ID := HashToken raw |> <| AccessToken.UserID := Some u |>
    <| AccessToken.SessionID := Some sid |> <| AccessToken.RefreshTokenID := Some "rt" |>
    <| AccessToken.ExpiresAt := expires * second |>.

Definition open_session (sid u : UUID) : Session.t :=
  Session.zero <| Session.ID := sid |> <| Session.UserID := u |> <| Session.ExpiresAt := 90000 * second |>.

(** User 2 asked for the deletion of the account long ago. *)
Definition db : DB :=
  empty_db
    <| users := {[ 1%N := User.zero <| User.ID := 1%N |>;
                   2%N := User.zero <| User.ID := 2%N |> <| User.DeletionPurgeAfter := Some 0 |> ]} |>
    <| sessions := {[ 11%N := open_session 11 1; 12%N := open_session 12 2 ]} |>
    <| access_tokens := {[ HashToken "live" := bearer_of "live" 1 11 5000;
                           HashToken "dead" := bearer_of "dead" 1 11 10;
                           HashToken "gone" := bearer_of "gone" 2 12 5000 ]} |>
    <| refresh_tokens := {[ "rt" := RefreshToken.zero <| RefreshToken.ID := "rt" |> <| RefreshToken.UserID := 1%N |>
                                      <| RefreshToken.SessionID := 11%N |> <| RefreshToken.ExpiresAt := 20 * second |> ]} |>
    <| pushed_authorization_requests := {[ "urn:old" := PushedAuthorizationRequest.zero ]} |>
    <| invitations := {[ 7%N := Invitation.zero <| Invitation.InvitedBy := 2%N |> ]} |>.

Abbreviation swept := (run (runCleanup []) (env 100) db).2.
Definition live_context : Context := mkContext (HashToken "live") 0%N (Some 1%N) (Some 11%N) [].

Lemma cleanup_transparent_witness :
  (run (BearerAuth "Bearer live") (env 200) db).1 = Ok live_context /\
  (run (BearerAuth "Bearer live") (env 200) swept).1 = Ok live_context.
Proof.
  assert (Hdb : (run (BearerAuth "Bearer live") (env 200) db).1 = Ok live_context) by (vm_compute; reflexivity).
  split; [exact Hdb|].
  refine (proj2 (cleanup_transparent [] "Bearer live" (env 100) (env 200) db live_context _ _ _) _ Hdb);
    [by intros r now [] | by vm_compute | by vm_compute |].
  split.
  - intros u [= <-]. by apply spared_b.
  - intros sid s [= <-] Hs. apply spared_b.
    assert (Hu : s.(Session.UserID) = 1%N) by (by injection Hs as <-). by rewrite Hu.
Defined.

(** What the sweep takes: the expired token, the expired refresh token with the
    link to it, the account that is due with its session, its token and the
    invitation it sent; a pushed request of any age stays. *)
Definition kept {K V} `{Countable K} (t : gmap K V) (k : K) : bool := is_Some_b (t !! k).

Example sweep_takes :
  let db' := swept in
  forallb (kept db'.(access_tokens)) [HashToken "live"] && negb (existsb (kept db'.(access_tokens)) [HashToken "dead"; HashToken "gone"])
  && negb (kept db'.(refresh_tokens) "rt") && kept db'.(sessions) 11%N && negb (kept db'.(sessions) 12%N)
  && kept db'.(users) 1%N && negb (kept db'.(users) 2%N) && negb (kept db'.(invitations) 7%N)
  && kept db'.(pushed_authorization_requests) "urn:old" = true.
Proof. vm_compute. reflexivity. Qed.

End CleanupSample.
