(* ===== verification/M2M.v ===== *)
(** * m2m/: accounts administered by services

    The operations of m2m/service.go over the narrow interfaces of
    m2m/interfaces.go, the routes with the scope each asks for (m2m/handler.go,
    main.go), and the wiring of the services of this program to the interfaces.
    The theorems are proved against laws of the interfaces, which the services
    meet. *)
From S2P Require Import Prelude.
From S2P Require Import Errors.
From S2P Require Import GoLib.
From S2P Require Import Model.
From S2P Require Import Platform.
From S2P Require Import Exec.
From S2P Require Import Schema.
From S2P Require Import Crypto.
From S2P Require Import SessionSvc.
From S2P Require Import ActionToken.
From S2P Require Import UserSvc.
From S2P Require Import GoNet.
From S2P Require Import NetSafety.
From S2P Require Import MfaSvc.
From S2P Require Import Middleware.
From S2P Require Import Rbac.
From S2P Require Import Profile.
From S2P Require Import Passkey.
From S2P Require Import Federation.
From Stdlib Require Import Ascii.
Local Open Scope Z_scope.

(** ** m2m/interfaces.go *)

Record UserStore := mkUserStore {
  GetByID : UUID -> M User.t;
  List : Z -> Z -> M (list User.t * Z);
  Delete : UUID -> M unit;
  RegisterAdmin : UserSvc.RegisterInput -> list UUID -> M User.t;
  M2MUpdate : UUID -> ProfileSvc.M2MUpdateInput -> M User.t;
  SetPassword : UUID -> string -> M unit;
  Unlock : UUID -> M unit
}.

Record RoleService := mkRoleService {
  AssignRole : UUID -> UUID -> M unit;
  RemoveRole : UUID -> UUID -> M unit;
  GetUserRoles : UUID -> M (list Role.t)
}.

Record SessionService := mkSessionService {
  ListActive : UUID -> M (list Session.t);
  Revoke : UUID -> UUID -> M unit;
  RevokeAll : UUID -> option UUID -> M Z
}.

Record PasskeyService := mkPasskeyService {
  pk_List : UUID -> M (list Passkey.t);
  pk_Delete : UUID -> UUID -> M unit
}.

Record FederationService := mkFederationService {
  GetLinkedAccounts : UUID -> M (list FederationLink.t);
  fed_UnlinkAccount : UUID -> UUID -> M unit
}.

(** ** m2m/input.go *)

Record CreateUserInput := mkCreateUserInput {
  cu_Email : string;
  cu_Password : string;
  cu_DisplayName : option string;
  cu_EmailVerified : option bool;
  cu_Active : option bool;
  cu_Phone : option string;
  cu_AvatarURL : option string;
  cu_Metadata : option ProfileMetadata.t;
  cu_RoleIDs : list UUID
}.

(** ** m2m/service.go *)

(** [ForceDisable] is the one operation of the [MFAService]. *)
Record UserService := mkUserService {
  users : UserStore;
  roles : RoleService;
  sessions : SessionService;
  ForceDisable : UUID -> M unit;
  passkeys : PasskeyService;
  federation : FederationService;
  protectedRoles : gset UUID
}.

(** Texts that are no UUID are skipped. *)
Definition SetProtectedRoles `{Platform} (roleIDs : list string) (s : UserService) : UserService :=
  mkUserService s.(users) s.(roles) s.(sessions) s.(ForceDisable) s.(passkeys) s.(federation)
    (list_to_set (omap uuid_parse roleIDs)).

Module M2MSvc.
Section service.
Context (s : UserService).

(** Operations on an account that exists. *)
Definition on_user {A} (id : UUID) (m : M A) : M A := s.(users).(GetByID) id ;;; m.

Definition has_extras (i : CreateUserInput) : bool :=
  is_Some_b i.(cu_EmailVerified) || is_Some_b i.(cu_Active) || is_Some_b i.(cu_Phone)
  || is_Some_b i.(cu_AvatarURL) || is_Some_b i.(cu_Metadata).

Definition extras (i : CreateUserInput) : ProfileSvc.M2MUpdateInput :=
  ProfileSvc.mkM2MUpdateInput None i.(cu_EmailVerified) None i.(cu_AvatarURL) i.(cu_Phone) i.(cu_Active)
    i.(cu_Metadata).

Definition register_input (i : CreateUserInput) (password : string) : UserSvc.RegisterInput :=
  UserSvc.mkRegisterInput i.(cu_Email) password i.(cu_DisplayName) [] false.

(** The account, and the password when one was made up.  What cannot be written
    after the account is created is logged. *)
Definition Create (i : CreateUserInput) : M (User.t * string) :=
  generated <- (if String.eqb i.(cu_Password) ""
                then or_fail (GenerateRandomString 24) (ErrInternal "failed to generate password")
                else ret "") ;;
  let password := if String.eqb i.(cu_Password) "" then generated else i.(cu_Password) in
  u <- s.(users).(RegisterAdmin) (register_input i password) i.(cu_RoleIDs) ;;
  if has_extras i then
    updated <- opt (s.(users).(M2MUpdate) u.(User.ID) (extras i)) ;;
    ret (default u updated, generated)
  else ret (u, generated).

Definition Delete (id : UUID) : M unit := on_user id (s.(users).(M2M.Delete) id).

(** Sessions that cannot be closed are logged. *)
Definition SetPassword (id : UUID) (newPassword : string) : M unit :=
  on_user id (s.(users).(M2M.SetPassword) id newPassword) ;;;
  ignore (s.(sessions).(RevokeAll) id None).

Definition Unlock (id : UUID) : M unit := on_user id (s.(users).(M2M.Unlock) id).
Definition ResetMFA (id : UUID) : M unit := on_user id (s.(ForceDisable) id).
Definition ListRoles (userID : UUID) : M (list Role.t) := on_user userID (s.(roles).(GetUserRoles) userID).

Definition AssignRole (userID roleID : UUID) : M unit :=
  guard (negb (bool_decide (roleID ∈ s.(protectedRoles)))) (ErrForbidden "role is protected from m2m assignment") ;;;
  on_user userID (s.(roles).(M2M.AssignRole) userID roleID).

Definition RemoveRole (userID roleID : UUID) : M unit :=
  on_user userID (s.(roles).(M2M.RemoveRole) userID roleID).
Definition ListSessions (userID : UUID) : M (list Session.t) := on_user userID (s.(sessions).(ListActive) userID).
Definition RevokeSession (sessionID userID : UUID) : M unit :=
  on_user userID (s.(sessions).(Revoke) sessionID userID).
Definition RevokeAllSessions (userID : UUID) : M Z := on_user userID (s.(sessions).(RevokeAll) userID None).
Definition ListPasskeys (userID : UUID) : M (list Passkey.t) := on_user userID (s.(passkeys).(pk_List) userID).
Definition DeletePasskey (passkeyID userID : UUID) : M unit :=
  on_user userID (s.(passkeys).(pk_Delete) passkeyID userID).
Definition ListLinkedAccounts (userID : UUID) : M (list FederationLink.t) :=
  on_user userID (s.(federation).(GetLinkedAccounts) userID).
Definition UnlinkAccount (linkID userID : UUID) : M unit :=
  on_user userID (s.(federation).(fed_UnlinkAccount) linkID userID).

End service.
End M2MSvc.

(** ** The routes: m2m/handler.go, main.go *)
Module M2MApi.

(** A request, decoded. *)
Inductive Request :=
| RList (page perPage : Z)
| RGet (id : UUID)
| RListRoles (id : UUID)
| RListSessions (id : UUID)
| RListPasskeys (id : UUID)
| RListLinkedAccounts (id : UUID)
| RCreate (i : CreateUserInput)
| RUpdate (id : UUID) (i : ProfileSvc.M2MUpdateInput)
| RDelete (id : UUID)
| RSetPassword (id : UUID) (password : string)
| RUnlock (id : UUID)
| RResetMFA (id : UUID)
| RRevokeSession (id sid : UUID)
| RRevokeAllSessions (id : UUID)
| RDeletePasskey (id pid : UUID)
| RUnlinkAccount (id linkId : UUID)
| RAssignRole (id role : UUID)
| RRemoveRole (id role : UUID).

Definition m2mAudience : string := "urn:orion:m2m".

(** The scope of the group a route is registered in. *)
Definition scope_of (r : Request) : string :=
  match r with
  | RList _ _ | RGet _ | RListRoles _ | RListSessions _ | RListPasskeys _ | RListLinkedAccounts _ => "m2m:users:read"
  | RCreate _ | RUpdate _ _ => "m2m:users:write"
  | RDelete _ => "m2m:users:delete"
  | RSetPassword _ _ | RUnlock _ | RResetMFA _ | RRevokeSession _ _ | RRevokeAllSessions _ | RDeletePasskey _ _
  | RUnlinkAccount _ _ => "m2m:users:manage_auth"
  | RAssignRole _ _ | RRemoveRole _ _ => "m2m:users:manage_roles"
  end.

Section api.
Context (s : UserService).

Definition perform (r : Request) : M unit :=
  match r with
  | RList page perPage => drop (s.(users).(List) page perPage)
  | RGet id => drop (s.(users).(GetByID) id)
  | RListRoles id => drop (M2MSvc.ListRoles s id)
  | RListSessions id => drop (M2MSvc.ListSessions s id)
  | RListPasskeys id => drop (M2MSvc.ListPasskeys s id)
  | RListLinkedAccounts id => drop (M2MSvc.ListLinkedAccounts s id)
  | RCreate i => drop (M2MSvc.Create s i)
  | RUpdate id i => drop (s.(users).(M2MUpdate) id i)
  | RDelete id => M2MSvc.Delete s id
  | RSetPassword id password => M2MSvc.SetPassword s id password
  | RUnlock id => M2MSvc.Unlock s id
  | RResetMFA id => M2MSvc.ResetMFA s id
  | RRevokeSession id sid => M2MSvc.RevokeSession s sid id
  | RRevokeAllSessions id => drop (M2MSvc.RevokeAllSessions s id)
  | RDeletePasskey id pid => M2MSvc.DeletePasskey s pid id
  | RUnlinkAccount id linkId => M2MSvc.UnlinkAccount s linkId id
  | RAssignRole id role => M2MSvc.AssignRole s id role
  | RRemoveRole id role => M2MSvc.RemoveRole s id role
  end.

(** A request with its authorization header. *)
Definition serve (c : string * Request) : M unit :=
  RequireClientScope (scope_of c.2) m2mAudience c.1 ;;; perform c.2.

End api.
End M2MApi.

(** ** The wiring: main.go *)
Section wiring.
Context `{Platform} `{JwtLib}.

Definition user_store (us : UserSvc.Service) : UserStore :=
  mkUserStore UserSvc.GetByID ProfileSvc.List UserSvc.Delete (UserSvc.RegisterAdmin us) ProfileSvc.M2MUpdate
    (UserSvc.SetPassword us) UserSvc.Unlock.

Definition role_service : RoleService := mkRoleService RbacSvc.AssignRole RbacSvc.RemoveRole RbacSvc.GetUserRoles.

Definition session_service : SessionService :=
  mkSessionService SessionSvc.ListActive SessionSvc.Revoke SessionSvc.RevokeAll.

Definition NewUserService (us : UserSvc.Service) (protected : list string) : UserService :=
  SetProtectedRoles protected
    (mkUserService (user_store us) role_service session_service MfaSvc.ForceDisable
       (mkPasskeyService PasskeySvc.List PasskeySvc.Delete)
       (mkFederationService FedSvc.GetLinkedAccounts FedSvc.UnlinkAccount) ∅).
End wiring.

(** ** Theorems *)
Module M2MFacts.
Import M2MApi.

(** Every pair of a user and a role after was there before, or satisfies [P]. *)
Definition gains (P : UUID * UUID -> Prop) : relation DB := fun d d' =>
  forall p, p ∈ d'.(user_roles) -> p ∈ d.(user_roles) \/ P p.

#[export] Instance gains_preorder P : PreOrder (gains P).
Proof.
  split; [by intros d p; left|]. intros d1 d2 d3 H12 H23 p Hp.
  destruct (H23 p Hp) as [Hp2|]; [by apply H12 | by right].
Qed.

Lemma same_gains P d d' : same user_roles d d' -> gains P d d'.
Proof. intros E p. unfold gains. rewrite E. by left. Qed.

Lemma gains_mono (P P' : UUID * UUID -> Prop) d d' : (forall p, P p -> P' p) -> gains P d d' -> gains P' d d'.
Proof. intros HP Hg p Hp. destruct (Hg p Hp); [by left | right; by apply HP]. Qed.

(** What the administration of accounts relies on: only [RegisterAdmin] and
    [AssignRole] add roles, and only those they are given. *)
Class UpstreamLaws (s : UserService) : Prop := {
  #[global] GetByID_roles :: forall id, Preserves (same user_roles) (s.(users).(GetByID) id);
  #[global] List_roles :: forall page perPage, Preserves (same user_roles) (s.(users).(List) page perPage);
  #[global] Delete_roles :: forall id, Preserves (gains (fun _ => False)) (s.(users).(M2M.Delete) id);
  #[global] Update_roles :: forall id i, Preserves (same user_roles) (s.(users).(M2MUpdate) id i);
  #[global] SetPassword_roles :: forall id p, Preserves (same user_roles) (s.(users).(M2M.SetPassword) id p);
  #[global] Unlock_roles :: forall id, Preserves (same user_roles) (s.(users).(M2M.Unlock) id);
  #[global] GetUserRoles_roles :: forall id, Preserves (same user_roles) (s.(roles).(GetUserRoles) id);
  #[global] ListActive_roles :: forall id, Preserves (same user_roles) (s.(sessions).(ListActive) id);
  #[global] Revoke_roles :: forall sid id, Preserves (same user_roles) (s.(sessions).(Revoke) sid id);
  #[global] RevokeAll_roles :: forall id c, Preserves (same user_roles) (s.(sessions).(RevokeAll) id c);
  #[global] ForceDisable_roles :: forall id, Preserves (same user_roles) (s.(ForceDisable) id);
  #[global] pk_List_roles :: forall id, Preserves (same user_roles) (s.(passkeys).(pk_List) id);
  #[global] pk_Delete_roles :: forall pid id, Preserves (same user_roles) (s.(passkeys).(pk_Delete) pid id);
  #[global] links_roles :: forall id, Preserves (same user_roles) (s.(federation).(GetLinkedAccounts) id);
  #[global] unlink_roles :: forall l id, Preserves (same user_roles) (s.(federation).(fed_UnlinkAccount) l id);
  #[global] RegisterAdmin_gains ::
    forall i l, Preserves (gains (fun p => p.2 ∈ l)) (s.(users).(RegisterAdmin) i l);
  #[global] AssignRole_gains :: forall u r, Preserves (gains (fun p => p = (u, r))) (s.(roles).(M2M.AssignRole) u r);
  #[global] RemoveRole_gains :: forall u r, Preserves (gains (fun _ => False)) (s.(roles).(M2M.RemoveRole) u r)
}.

Section facts.
Context (s : UserService) `{!UpstreamLaws s}.

Lemma keep_roles P {A} (m : M A) : Preserves (same user_roles) m -> Preserves (gains P) m.
Proof. apply preserves_mono. apply same_gains. Qed.

(** The roles a request may give: those that are not protected, and those a
    creation asks for. *)
Definition given (r : Request) (p : UUID * UUID) : Prop :=
  p.2 ∉ s.(protectedRoles) \/ match r with RCreate i => p.2 ∈ i.(cu_RoleIDs) | _ => False end.

Lemma on_user_gains P {A} id (m : M A) : Preserves (gains P) m -> Preserves (gains P) (M2MSvc.on_user s id m).
Proof. intros Hm. apply (preserves_bind _); [apply keep_roles; apply _ | by intros _]. Qed.

Lemma AssignRole_given u r : Preserves (gains (given (RAssignRole u r))) (M2MSvc.AssignRole s u r).
Proof.
  intros env st. unfold M2MSvc.AssignRole.
  destruct (bool_decide_reflect (r ∈ s.(protectedRoles))) as [Hr|Hr]; cbn [negb]; [by intros p Hp; left|].
  apply (preserves_bind _ (guard true _)); [apply _|]. intros _. apply on_user_gains.
  eapply preserves_mono; [|apply AssignRole_gains]. intros d d'. apply gains_mono. intros p ->. by left.
Qed.

Lemma Create_given i : Preserves (gains (given (RCreate i))) (M2MSvc.Create s i).
Proof.
  unfold M2MSvc.Create, GenerateRandomString. cbv zeta. solve_preserves ltac:(first
    [ apply keep_roles; apply _
    | eapply preserves_mono; [|apply RegisterAdmin_gains]; intros d d'; apply gains_mono; intros p Hp; by right ]).
Qed.

Lemma perform_given r : Preserves (gains (given r)) (perform s r).
Proof.
  destruct r; simpl;
    unfold drop, M2MSvc.ListRoles, M2MSvc.ListSessions, M2MSvc.ListPasskeys, M2MSvc.ListLinkedAccounts, M2MSvc.Delete,
      M2MSvc.SetPassword, M2MSvc.Unlock, M2MSvc.ResetMFA, M2MSvc.RevokeSession, M2MSvc.RevokeAllSessions,
      M2MSvc.DeletePasskey, M2MSvc.UnlinkAccount, M2MSvc.RemoveRole.
  all: solve_preserves ltac:(first
    [ apply AssignRole_given | apply Create_given
    | apply keep_roles; apply _
    | apply on_user_gains; first [apply keep_roles; apply _ | eapply preserves_mono; [|apply _]; intros d d'; by apply gains_mono] ]).
Qed.

End facts.

(** C30: A request changes the database, or is answered, only with a live token
    of a service: bound to no user, for the audience of the API, and with the
    scope of the route. *)
Theorem m2m_authorized (s : UserService) (header : string) (req : Request) (env : Env) (db : DB) :
  let '(r, db') := run (serve s (header, req)) env db in
  db' <> db \/ is_ok r = true ->
  exists t, db.(access_tokens) !! HashToken (ParseBearer header) = Some t /\
    t.(AccessToken.Revoked) = false /\ env.(env_wall) < t.(AccessToken.ExpiresAt) /\
    t.(AccessToken.UserID) = None /\ t.(AccessToken.Audience) = Some m2mAudience /\
    scope_of req ∈ t.(AccessToken.Scopes).
Proof.
  pose (P := exists t, db.(access_tokens) !! HashToken (ParseBearer header) = Some t /\
    t.(AccessToken.Revoked) = false /\ env.(env_wall) < t.(AccessToken.ExpiresAt) /\
    t.(AccessToken.UserID) = None /\ t.(AccessToken.Audience) = Some m2mAudience /\
    scope_of req ∈ t.(AccessToken.Scopes)).
  apply (run_wp _ (fun r db' => db' <> db \/ is_ok r = true -> P)). unfold serve. cbn [fst snd].
  apply wp_bind. eapply wp_mono; [|apply MiddlewareFacts.RequireClientScope_spec].
  intros [c|e] st' [Hdb Hr]; [|by intros []].
  assert (HP : P) by (destruct Hr as (t & H1 & H2 & H3 & H4 & H5 & H6 & _); by exists t).
  apply (wp_preserves (fun _ _ => True)); [by intros ? ?|]. by intros.
Qed.

(** *** The services of the program meet the laws *)

Lemma user_Update_roles u : Preserves (same user_roles) (UserRepo.Update u).
Proof.
  unfold UserRepo.Update. solve_preserves ltac:(idtac). apply (preserves_stmt _). intros env db db'.
  repeat case_match; try discriminate. intros [= <-]. exact eq_refl.
Qed.

Lemma user_Create_roles u : Preserves (same user_roles) (UserRepo.Create u).
Proof.
  unfold UserRepo.Create. solve_preserves ltac:(idtac). apply (preserves_stmt _). intros env db db'.
  repeat case_match; try discriminate. intros [= <-]. exact eq_refl.
Qed.

Lemma update_keeps_roles {K V} `{Countable K} (set : (gmap K V -> gmap K V) -> DB -> DB) f :
  (forall g db, (set g db).(user_roles) = db.(user_roles)) -> Preserves (same user_roles) (update_table set f).
Proof. intros Hs. apply (preserves_update_table _). intros env db. apply Hs. Qed.

Ltac roles_step :=
  first [ preserve_step ltac:(first [ apply user_Update_roles | apply user_Create_roles
                                    | apply update_keeps_roles; intros ? ?; exact eq_refl
                                    | apply (preserves_stmt _); intros ? ? ?; repeat case_match; try discriminate;
                                      intros [= <-]; exact eq_refl ])
        | lazymatch goal with |- Preserves _ ?m => let h := head_of m in unfold h end ].
Ltac solve_roles := repeat roles_step.

Lemma role_assigned_only u r : Preserves (gains (eq (u, r))) (RbacSvc.AssignRole u r).
Proof.
  unfold RbacSvc.AssignRole. apply (preserves_bind _); [apply keep_roles; solve_roles|]. intros _.
  apply preserves_or_fail. unfold RbacRepo.AssignRole, create_pair. apply (preserves_stmt _). intros env db db'.
  repeat case_match; try discriminate. intros [= <-] p.
  change (user_roles (upd user_roles (union {[(u, r)]}) db)) with ({[(u, r)]} ∪ db.(user_roles)). set_solver.
Qed.

Lemma role_removed_only u r : Preserves (gains (fun _ => False)) (RbacSvc.RemoveRole u r).
Proof.
  unfold RbacSvc.RemoveRole. apply preserves_or_fail. unfold RbacRepo.RemoveRole, delete_pairs.
  apply (preserves_stmt _). intros env db db' [= <-] p.
  change (user_roles (upd user_roles (filter ?f) db)) with (filter f db.(user_roles)).
  rewrite elem_of_filter. by intros [_ Hp]; left.
Qed.

Lemma user_deleted_only id : Preserves (gains (fun _ => False)) (UserSvc.Delete id).
Proof.
  unfold UserSvc.Delete. apply (preserves_bind _); [apply keep_roles; solve_roles|]. intros _.
  apply preserves_or_fail, (preserves_stmt _). intros env db db' [= <-] p.
  set (P := fun (k : UUID) (_ : User.t) => N.eqb k id).
  change (user_roles (delete_users P db)) with (filter (fun p => doomed db.(Exec.users) P p.1 = false) db.(user_roles)).
  rewrite elem_of_filter. by intros [_ Hp]; left.
Qed.

Section wired.
Context `{Platform} `{JwtLib} (us : UserSvc.Service) (protected : list string).
Context (Hassign : forall a u r, us.(UserSvc.roleAssigner) = Some a -> Preserves (gains (eq (u, r))) (a u r)).

Lemma RegisterAdmin_only i l : Preserves (gains (fun p => p.2 ∈ l)) (UserSvc.RegisterAdmin us i l).
Proof.
  assert (Hl : forall u, Preserves (gains (fun p => p.2 ∈ l)) (UserSvc.assign_roles us u l)).
  { intros u. unfold UserSvc.assign_roles. destruct (UserSvc.roleAssigner us) as [a|] eqn:Ea in |- *; [|apply _].
    assert (Hk : forall k, k ⊆ l -> Preserves (gains (fun p => p.2 ∈ l)) (for_each k (fun rid =>
        UserSvc.assign_role u rid ("failed to assign role " +:+ uuid_string rid +:+ ": ") a))); [|by apply Hk].
    induction k as [|r k IH]; intros Hk; [apply _|]. apply (preserves_bind _); [|intros _; apply IH; set_solver].
    apply preserves_map_err. eapply preserves_mono; [|by apply Hassign]. intros d d'. apply gains_mono. intros p <-. set_solver. }
  unfold UserSvc.RegisterAdmin, UserSvc.check_new_account, UserSvc.validatePassword, UserSvc.withTx.
  solve_preserves ltac:(first [apply Hl | apply keep_roles, user_Create_roles]).
Qed.

#[export] Instance wired_laws : UpstreamLaws (NewUserService us protected).
Proof.
  split; intros; simpl.
  16: apply RegisterAdmin_only.
  16: { eapply preserves_mono; [|apply role_assigned_only]. intros d d'. by apply gains_mono. }
  16: apply role_removed_only.
  3: apply user_deleted_only.
  all: solve_roles.
Qed.

(** What a change of password by a service does. *)
Definition password_set (env : Env) (db : DB) (id : UUID) (pw : string) (db' : DB) : Prop :=
  exists u hash n d, db.(Exec.users) !! id = Some u /\ us.(UserSvc.hasher).(Hash) pw env n d = Ok hash /\
    db'.(Exec.users) !! id = Some (UserSvc.set_password hash u <| User.UpdatedAt := env.(env_wall) |>) /\
    (no_faults env -> forall k ses, db'.(Exec.sessions) !! k = Some ses -> ses.(Session.UserID) = id ->
       ses.(Session.Revoked) = true).

(** A service sets the password of an account that exists and only to one
    the policy accepts; then, without faults, no session of the account is left
    open.  A refusal changes nothing. *)
Theorem SetPassword_spec (id : UUID) (pw : string) (env : Env) (db : DB) :
  let '(r, db') := run (M2MSvc.SetPassword (NewUserService us protected) id pw) env db in
  match r with
  | Ok _ => (exists hints n d, us.(UserSvc.passwordValidator) pw hints env n d = Ok tt) /\ password_set env db id pw db'
  | Err _ => db' = db
  end.
Proof.
  apply (run_wp _ (fun r db' => match r with
    | Ok _ => (exists hints n d, us.(UserSvc.passwordValidator) pw hints env n d = Ok tt) /\ password_set env db id pw db'
    | Err _ => db' = db end)).
  unfold M2MSvc.SetPassword, M2MSvc.on_user. simpl.
  unfold UserSvc.GetByID, UserRepo.FindByID, UserRepo.find_user.
  apply wp_bind, wp_bind, wp_bind, wp_find_row; intros _; [done|]. cbn [st_db bump].
  destruct (Exec.users db !! id) as [u|] eqn:Hu; [|done]. apply wp_ret.
  unfold UserSvc.SetPassword. apply wp_bind, wp_read_only.
  { unfold UserSvc.userHintsForID, UserRepo.FindByID, UserRepo.find_user. solve_preserves ltac:(idtac). }
  intros [hints|e] n1; [|done]. unfold UserSvc.validatePassword. apply wp_bind, wp_ask.
  destruct (UserSvc.passwordValidator _ _ _ _ _ _) as [[]|e] eqn:Hv; [|done].
  apply wp_bind, wp_or_fail, wp_ask. destruct (Hash _ _ _ _ _) as [hash|e] eqn:Hh; [|done].
  unfold UserRepo.UpdateFields. apply wp_update_table; [done|]. intros Hf1. cbn [st_db bump st_step] in *.
  apply wp_ignore. unfold SessionSvc.RevokeAll, SessionRepo.RevokeAllForUser.
  apply wp_or_fail, wp_bind, wp_get_db, wp_bind. cbn [st_db st_step].
  assert (Hset : forall db', db'.(Exec.users) = alter (fun x => UserSvc.set_password hash x <| User.UpdatedAt := env.(env_wall) |>) id db.(Exec.users) ->
    (no_faults env -> forall k ses, db'.(Exec.sessions) !! k = Some ses -> ses.(Session.UserID) = id -> ses.(Session.Revoked) = true) ->
    (exists hints n d, us.(UserSvc.passwordValidator) pw hints env n d = Ok tt) /\ password_set env db id pw db').
  { intros db' Hus Hses. split; [by eauto|]. exists u, hash. do 2 eexists. split_and!; [exact Hu | exact Hh | | exact Hses].
    rewrite Hus, lookup_alter_eq, Hu. done. }
  apply wp_update_table.
  - intros e Hfail. apply Hset; [done|]. intros Hnf. by rewrite Hnf in Hfail.
  - intros Hf2. apply wp_ret. apply Hset; [done|]. intros _ k ses Hk Hid.
    change (update_rows (SessionRepo.revocable id None) (Session.Revoke env.(env_wall)) db.(Exec.sessions) !! k = Some ses) in Hk.
    rewrite lookup_update_rows in Hk. destruct (Exec.sessions db !! k) as [s0|]; [|done]. simpl in Hk.
    injection Hk as <-. destruct (SessionRepo.revocable id None s0) eqn:Er; [done|].
    unfold SessionRepo.revocable in Er. rewrite Hid, N.eqb_refl in Er. by destruct (Session.Revoked s0).
Qed.
End wired.

(** *** Samples *)
Module Sample.
#[local] Existing Instance sample_platform.
#[local] Instance sample_jwtlib : JwtLib := sample_jwt UserFacts.sample_claims 1000.

(** The service of accounts as main.go wires it to roles. *)
Definition users_with_roles : UserSvc.Service :=
  UserSvc.mkService UserFacts.sample_hasher UserFacts.sample_cfg None (Some RbacSvc.AssignRole) 0%N None
    (fun _ _ _ _ _ => Ok tt) "" None true.

(** The administrator's role 1 is protected. *)
Definition api : UserService := NewUserService users_with_roles [uuid_string 1%N; "junk"].

Lemma assigns_only a u r : users_with_roles.(UserSvc.roleAssigner) = Some a -> Preserves (gains (eq (u, r))) (a u r).
Proof. intros [= <-]. apply role_assigned_only. Qed.

(** The token of a service that may write accounts, and not manage roles. *)
Definition writer : AccessToken.t :=
  AccessToken.zero <| AccessToken.ID := HashToken "w" |> <| AccessToken.Scopes := ["m2m:users:write"] |>
    <| AccessToken.Audience := Some m2mAudience |> <| AccessToken.ExpiresAt := 1000 * second |>.

Definition db : DB :=
  UserFacts.sample_users <| access_tokens := {[ HashToken "w" := writer ]} |>
    <| Exec.roles := {[ 1%N := Role.zero <| Role.ID := 1%N |> <| Role.Name := "admin" |> ]} |>.

Definition creation : Request := RCreate (mkCreateUserInput "c@d" "pwd" None None None None None None [1%N]).

(** The same service may not give the role to an account, and may create one
    that has it: neither the list of protected roles nor the scope for roles is
    looked at in a creation. *)
Example creation_gives_protected_role :
  let env := UserFacts.sample_env in
  let '(r1, _) := run (serve api ("Bearer w", RAssignRole 5%N 1%N)) env db in
  let '(r2, db') := run (serve api ("Bearer w", creation)) env db in
  is_ok r1 = false /\ is_ok r2 = true /\ bool_decide (1%N ∈ api.(protectedRoles)) = true /\
  map snd (elements db'.(user_roles)) = [1%N].
Proof. vm_compute. by split_and!. Qed.


Lemma m2m_authorized_witness :
  let '(r, db') := run (serve api ("Bearer w", creation)) UserFacts.sample_env db in
  is_ok r = true /\ exists t, db.(access_tokens) !! HashToken (ParseBearer "Bearer w") = Some t /\
    scope_of creation ∈ t.(AccessToken.Scopes).
Proof.
  pose proof (m2m_authorized api "Bearer w" creation UserFacts.sample_env db) as Hs.
  assert (Hok : is_ok (run (serve api ("Bearer w", creation)) UserFacts.sample_env db).1 = true)
    by (vm_compute; reflexivity).
  destruct (run _ _ _) as [r db']. split; [exact Hok|].
  destruct (Hs (or_intror Hok)) as (t & Ht & _ & _ & _ & _ & Hsc). exact (ex_intro _ t (conj Ht Hsc)).
Defined.
End Sample.
End M2MFacts.
