(* ===== verification/PolicyEngine.v ===== *)
(** * policy/: the engine of the authorization policies

    The [policies] table (policy/repository.go), the compiled policies the
    process keeps and their evaluation (policy/engine.go), the service that
    keeps the two in step (policy/service.go), the adapters to the interfaces
    of its callers (policy/adapter.go) and the gate of the admin API
    (policy/middleware.go).  OPA is a library the definitions take. *)
From S2P Require Import Prelude.
From S2P Require Import Errors.
From S2P Require Import GoLib.
From S2P Require Import GoNet.
From S2P Require Import Model.
From S2P Require Import Platform.
From S2P Require Import Exec.
From S2P Require Import GoEnc.
From S2P Require Import Policy.
From S2P Require Import Middleware.
From S2P Require Import JsonFlat.
From S2P Require Import Settings.
From S2P Require Import Rbac.
From S2P Require Import ProcMem.
Local Open Scope Z_scope.

Abbreviation doc := (list (string * any)).

(** ** [open-policy-agent/opa] *)

(** [prepare name source query] is
    [rego.New(rego.Module(name, source), rego.Query(query)).PrepareForEval];
    [eval] gives the bindings of each result. *)
Class Opa := {
  PreparedQuery : Type;
  prepare : string -> string -> string -> result PreparedQuery;
  eval : PreparedQuery -> doc -> result (list doc)
}.

(** ** [fmt.Sprintf("%v", v)] *)
Fixpoint sprint (v : any) : string :=
  match v with
  | ANil => "<nil>"
  | ABool b => bool_text b
  | ANumber d => d
  | AFloat f => Itoa f
  | AInt i => Itoa i
  | AString s => s
  | AStrings l => "[" +:+ String.concat " " l +:+ "]"
  | AList l => "[" +:+ String.concat " " (map sprint l) +:+ "]"
  | AMap m => "map[" +:+ String.concat " " (map (fun kv => kv.1 +:+ ":" +:+ sprint kv.2) m) +:+ "]"
  end.

(** ** policy/engine.go *)
Module EvalResult.
Record t := mk {
  Allow : bool;
  Deny : bool;
  DenyReason : string;
  Modify : option doc;
  PolicyName : string
}.
End EvalResult.

Module Engine.
Section engine.
Context `{Platform} `{Opa}.

Record preparedPolicy := mkPrepared {
  id : UUID;
  name : string;
  priority : Z;
  allowQuery : PreparedQuery;
  denyQuery : option PreparedQuery;
  modifyQuery : option PreparedQuery
}.

(** [prepared]: by policy type. *)
Record t := mk { prepared : gmap string (list preparedPolicy) }.

#[export] Instance eta_t : Eta t := fun e => mk e.(prepared).

Definition NewEngine : t := mk ∅.

Definition policies_of (e : t) (ty : string) : list preparedPolicy := default [] (e.(prepared) !! ty).

Definition query_of (ty field : string) : string := "x = data.orionauth." +:+ ty +:+ "." +:+ field.

Definition optional (r : result PreparedQuery) : option PreparedQuery :=
  match r with Ok q => Some q | Err _ => None end.

Definition compile (p : Policy.t) : result preparedPolicy :=
  let prepare_field f :=
    prepare ("policy_" +:+ uuid_string p.(Policy.ID) +:+ ".rego") p.(Policy.Rego) (query_of p.(Policy.Type_) f) in
  match prepare_field "allow" with
  | Err e => Err (EOther ("compilation failed for " +:+ quoted p.(Policy.Name) +:+ ": " +:+ error_string e))
  | Ok q => Ok (mkPrepared p.(Policy.ID) p.(Policy.Name) p.(Policy.Priority) q
                  (optional (prepare_field "deny")) (optional (prepare_field "modify")))
  end.

Definition higher (a b : preparedPolicy) : Prop := b.(priority) <= a.(priority).
#[export] Instance higher_dec : RelDecision higher.
Proof. intros a b. unfold higher. apply _. Defined.

Definition sortByPriority : list preparedPolicy -> list preparedPolicy := merge_sort higher.

Fixpoint group (policies : list Policy.t) (grouped : gmap string (list preparedPolicy))
    : result (gmap string (list preparedPolicy)) :=
  match policies with
  | [] => Ok grouped
  | p :: policies =>
      match compile p with
      | Err e => Err (EOther ("failed to compile policy " +:+ quoted p.(Policy.Name) +:+ ": " +:+ error_string e))
      | Ok pp => group policies (<[p.(Policy.Type_) := default [] (grouped !! p.(Policy.Type_)) ++ [pp]]> grouped)
      end
  end.

Definition LoadPolicies (policies : list Policy.t) (e : t) : result t :=
  match group policies ∅ with
  | Err e => Err e
  | Ok grouped => Ok (mk (sortByPriority <$> grouped))
  end.

(** The first policy of that id replaced, else the new one appended. *)
Fixpoint replace (l : list preparedPolicy) (pp : preparedPolicy) : list preparedPolicy :=
  match l with
  | [] => [pp]
  | existing :: l => if N.eqb existing.(id) pp.(id) then pp :: l else existing :: replace l pp
  end.

Definition LoadPolicy (p : Policy.t) (e : t) : result t :=
  match compile p with
  | Err err => Err err
  | Ok pp => Ok (e <| prepared ::= insert p.(Policy.Type_)
                       (sortByPriority (replace (policies_of e p.(Policy.Type_)) pp)) |>)
  end.

Fixpoint remove (l : list preparedPolicy) (i : UUID) : list preparedPolicy :=
  match l with
  | [] => []
  | p :: l => if N.eqb p.(id) i then l else p :: remove l i
  end.

(** The map is written only when the id was found. *)
Definition RemovePolicy (i : UUID) (ty : string) (e : t) : t :=
  if existsb (fun p => N.eqb p.(id) i) (policies_of e ty)
  then e <| prepared ::= insert ty (remove (policies_of e ty) i) |>
  else e.

Definition extractDenyReason (denyVal : any) : string :=
  match denyVal with
  | AList [] => ""
  | AList (v :: _) => sprint v
  | AMap [] => ""
  | AMap ((k, _) :: _) => k
  | v => let s := sprint v in
         if String.eqb s "[]" || String.eqb s "map[]" then "" else s
  end.

(** [rs[0].Bindings["x"]] *)
Definition binding (rs : list doc) : option any :=
  match rs with b :: _ => map_get b "x" | [] => None end.

(** The deny rule of one policy: a reason, or none. *)
Definition deny_reason (p : preparedPolicy) (input : doc) : result string :=
  match p.(denyQuery) with
  | None => Ok ""
  | Some q =>
      match eval q input with
      | Err e => Err (EOther ("policy " +:+ quoted p.(name) +:+ " deny evaluation failed: " +:+ error_string e))
      | Ok rs => Ok (match binding rs with Some v => extractDenyReason v | None => "" end)
      end
  end.

(** The modifications of one policy; an error is no modification. *)
Definition modifications (p : preparedPolicy) (input : doc) : doc :=
  match p.(modifyQuery) with
  | None => []
  | Some q =>
      match eval q input with
      | Ok rs => match binding rs with Some (AMap m) => m | _ => [] end
      | Err _ => []
      end
  end.

Fixpoint evaluate_all (policies : list preparedPolicy) (input merged : doc) : result EvalResult.t :=
  match policies with
  | [] => Ok (EvalResult.mk true false "" (match merged with [] => None | _ => Some merged end) "")
  | p :: policies =>
      match deny_reason p input with
      | Err e => Err e
      | Ok reason =>
          if String.eqb reason "" then
            evaluate_all policies input
              (foldl (fun m kv => map_set m kv.1 kv.2) merged (modifications p input))
          else Ok (EvalResult.mk false true reason None p.(name))
      end
  end.

Definition Evaluate (e : t) (policyType : string) (input : doc) : result EvalResult.t :=
  match policies_of e policyType with
  | [] => Ok (EvalResult.mk true false "" None "")
  | policies => evaluate_all policies input []
  end.

Definition ValidateRego (regoCode : string) : result unit :=
  match prepare "validation.rego" regoCode "data" with
  | Err e => Err (EOther ("invalid rego: " +:+ error_string e))
  | Ok _ => Ok tt
  end.

(** The first line that declares a package. *)
Definition extractPackagePath (regoCode : string) : string :=
  match List.find (fun line => has_prefix "package " (trim_space line)) (split_on (Ascii.ascii_of_nat 10) regoCode) with
  | Some line => "data." +:+ trim_space (str_drop 8 (trim_space line))
  | None => "data"
  end.

Definition EvaluateRaw (regoCode : string) (input : doc) : result EvalResult.t :=
  match ValidateRego regoCode with
  | Err e => Err (EOther ("compilation failed: " +:+ error_string e))
  | Ok _ =>
      let evalBinding field :=
        match prepare "test.rego" regoCode ("x = " +:+ extractPackagePath regoCode +:+ "." +:+ field) with
        | Err _ => None
        | Ok q => match eval q input with Ok rs => binding rs | Err _ => None end
        end in
      let allow := match evalBinding "allow" with Some (ABool b) => b | _ => true end in
      let reason := match evalBinding "deny" with
                    | None | Some ANil => ""
                    | Some v => extractDenyReason v
                    end in
      let denied := negb (String.eqb reason "") in
      Ok (EvalResult.mk (allow && negb denied) denied reason
            (match evalBinding "modify" with Some (AMap (kv :: m)) => Some (kv :: m) | _ => None end) "")
  end.
End engine.
End Engine.

(** ** policy/repository.go *)
Module PolicyRepo.

Definition name_taken (t : gmap UUID Policy.t) (id : UUID) (name : string) : bool :=
  is_Some_b (first_row N.leb (fun p => String.eqb p.(Policy.Name) name && negb (N.eqb p.(Policy.ID) id)) t).

Definition duplicate : error := EDriver "duplicate key value violates unique constraint".

(** gorm leaves a zero field that has a default to the database: the row is
    inserted active, and read back so. *)
Definition Create (policy : Policy.t) : M Policy.t :=
  id <- BeforeCreate policy.(Policy.ID) ;;
  wall <- wall_now ;;
  let row := policy <| Policy.ID := id |>
                    <| Policy.CreatedAt ::= auto_time wall |>
                    <| Policy.UpdatedAt ::= auto_time wall |>
                    <| Policy.Version ::= fun v => if v =? 0 then 1 else v |>
                    <| Policy.Active := true |> in
  stmt (fun _ db =>
    if name_taken db.(policies) id row.(Policy.Name) || is_Some_b (db.(policies) !! id) then Err duplicate
    else Ok (db <| policies ::= insert id row |>)) ;;;
  ret row.

Definition FindByID (id : UUID) : M (option Policy.t * option error) :=
  find_row Policy.zero (fun _ db => db.(policies) !! id).

Definition FindByName (name : string) : M (option Policy.t * option error) :=
  find_row Policy.zero (fun _ db => first_row N.leb (fun p => String.eqb p.(Policy.Name) name) db.(policies)).

(** [type ASC, priority DESC, name ASC] *)
Definition before (a b : Policy.t) : Prop :=
  String.ltb a.(Policy.Type_) b.(Policy.Type_)
  || String.eqb a.(Policy.Type_) b.(Policy.Type_)
     && ((b.(Policy.Priority) <? a.(Policy.Priority))
         || (b.(Policy.Priority) =? a.(Policy.Priority)) && String.leb a.(Policy.Name) b.(Policy.Name)) = true.
#[export] Instance before_dec : RelDecision before.
Proof. intros a b. unfold before. apply _. Defined.

Definition List : M (list Policy.t) :=
  query (fun _ db => merge_sort before (select_rows (fun _ => true) db.(policies))).

Definition ListByType (policyType : string) : M (list Policy.t) :=
  query (fun _ db => merge_sort before (select_rows (fun p => String.eqb p.(Policy.Type_) policyType) db.(policies))).

Definition ListAllActive : M (list Policy.t) :=
  query (fun _ db => merge_sort before (select_rows Policy.Active db.(policies))).

Definition Update (policy : Policy.t) : M Policy.t :=
  wall <- wall_now ;;
  let row := policy <| Policy.UpdatedAt := wall |> in
  stmt (fun _ db =>
    if name_taken db.(policies) row.(Policy.ID) row.(Policy.Name) then Err duplicate
    else Ok (db <| policies ::= insert row.(Policy.ID) row |>)) ;;;
  ret row.

Definition Delete (id : UUID) : M unit := update_table (upd policies) (fun _ => delete id).

End PolicyRepo.

(** ** policy/service.go *)
Module PolicySvc.

Record CreatePolicyInput := mkCreate {
  c_Name : string;
  c_Description : option string;
  c_Type : string;
  c_Rego : string;
  c_Priority : option Z;
  c_Active : option bool
}.

Record UpdatePolicyInput := mkUpdate {
  u_Name : option string;
  u_Description : option string;
  u_Rego : option string;
  u_Priority : option Z;
  u_Active : option bool
}.

Module TestPolicyResult.
Record t := mk {
  Allow : bool;
  Deny : bool;
  DenyReason : string;
  Modify : option doc;
  Error : string
}.
End TestPolicyResult.

Section service.
Context `{Platform} `{Opa}.
Abbreviation PE := (PM Engine.t).

(** A policy that does not compile is only logged. *)
Definition load_policy (p : Policy.t) : PE unit :=
  set_memory (fun e => match Engine.LoadPolicy p e with Ok e' => e' | Err _ => e end).

Definition checked_rego (rego : string) : PE unit :=
  of_resultP (match Engine.ValidateRego rego with
              | Ok _ => Ok tt
              | Err e => Err (ErrBadRequest (error_string e))
              end).

(** The error of the lookup is not looked at; it comes with a row. *)
Definition CreatePolicy (input : CreatePolicyInput) : PE Policy.t :=
  found <~ liftP (PolicyRepo.FindByName input.(c_Name)) ;;
  let '(existing, _) := found in
  guardP (negb (is_Some_b existing)) (ErrConflict "policy name already exists") ~;;
  checked_rego input.(c_Rego) ~;;
  p <~ liftP (or_fail (PolicyRepo.Create (Policy.zero
         <| Policy.Name := input.(c_Name) |>
         <| Policy.Description := input.(c_Description) |>
         <| Policy.Type_ := input.(c_Type) |>
         <| Policy.Rego := input.(c_Rego) |>
         <| Policy.Version := 1 |>
         <| Policy.Active := default true input.(c_Active) |>
         <| Policy.Priority := default 0 input.(c_Priority) |>))
       (ErrInternal "failed to create policy")) ;;
  (if p.(Policy.Active) then load_policy p else retP tt) ~;;
  retP p.

Definition GetPolicy (id : UUID) : M Policy.t :=
  let! (p, err) := PolicyRepo.FindByID id ;;
  match err, p with
  | Some _, _ => throw (ErrInternal "failed to find policy")
  | None, None => throw (ErrNotFound "policy not found")
  | None, Some p => ret p
  end.

Definition ListPolicies (policyType : string) : M (list Policy.t) :=
  if String.eqb policyType "" then PolicyRepo.List else PolicyRepo.ListByType policyType.

Definition updated (input : UpdatePolicyInput) (p : Policy.t) : Policy.t :=
  let p := match input.(u_Rego) with
           | Some r => p <| Policy.Rego := r |> <| Policy.Version := int64_wrap (p.(Policy.Version) + 1) |>
           | None => p end in
  let p := match input.(u_Name) with Some n => p <| Policy.Name := n |> | None => p end in
  let p := match input.(u_Description) with Some d => p <| Policy.Description := Some d |> | None => p end in
  let p := match input.(u_Priority) with Some n => p <| Policy.Priority := n |> | None => p end in
  match input.(u_Active) with Some a => p <| Policy.Active := a |> | None => p end.

Definition UpdatePolicy (id : UUID) (input : UpdatePolicyInput) : PE Policy.t :=
  p <~ liftP (GetPolicy id) ;;
  match input.(u_Rego) with Some r => checked_rego r | None => retP tt end ~;;
  p <~ liftP (or_fail (PolicyRepo.Update (updated input p)) (ErrInternal "failed to update policy")) ;;
  (if p.(Policy.Active) then load_policy p
   else set_memory (Engine.RemovePolicy p.(Policy.ID) p.(Policy.Type_))) ~;;
  retP p.

Definition DeletePolicy (id : UUID) : PE unit :=
  p <~ liftP (GetPolicy id) ;;
  liftP (or_fail (PolicyRepo.Delete id) (ErrInternal "failed to delete policy")) ~;;
  set_memory (Engine.RemovePolicy id p.(Policy.Type_)).

Definition TestPolicy (rego : string) (input : doc) : TestPolicyResult.t :=
  match Engine.EvaluateRaw rego input with
  | Err e => TestPolicyResult.mk false false "" None (error_string e)
  | Ok r => TestPolicyResult.mk r.(EvalResult.Allow) r.(EvalResult.Deny) r.(EvalResult.DenyReason)
              r.(EvalResult.Modify) ""
  end.

Definition ValidateRego (rego : string) : result unit := Engine.ValidateRego rego.

Definition Evaluate (e : Engine.t) (policyType : string) (input : doc) : result EvalResult.t :=
  Engine.Evaluate e policyType input.

Definition LoadAll : PE unit :=
  policies <~ liftP PolicyRepo.ListAllActive ;;
  match policies with
  | [] => retP tt
  | _ => e <~ memory ;; e <~ of_resultP (Engine.LoadPolicies policies e) ;; set_memory (fun _ => e)
  end.

(** ** policy/adapter.go *)

Definition OAuthAdapter (e : Engine.t) : PolicyEvaluator := fun policyType input _ _ _ =>
  match Evaluate e policyType input with
  | Err err => Err err
  | Ok r => Ok (Some (PolicyResult.mk r.(EvalResult.Allow) r.(EvalResult.Deny) r.(EvalResult.DenyReason)
                        r.(EvalResult.Modify)))
  end.

(** [AccountAdapter] and [DeciderAdapter]: the denial and its reason. *)
Definition DeciderAdapter (e : Engine.t) (policyType : string) (input : doc) : result (bool * string) :=
  match Evaluate e policyType input with
  | Err err => Err err
  | Ok r => Ok (r.(EvalResult.Deny), r.(EvalResult.DenyReason))
  end.

(** ** policy/middleware.go *)

Definition RequirePolicy (e : Engine.t) (c : Context) (method path clientIP : string) : M unit :=
  match c.(ContextUserID) with
  | None => throw (ErrUnauthorized "admin policy gate requires an authenticated user")
  | Some userID =>
      permissions <- or_fail (RbacSvc.GetUserPermissions userID) (ErrInternal "authorization check unavailable") ;;
      wall <- wall_now ;;
      result <- or_fail (of_result (Evaluate e "admin_api"
                  (Inputs.BuildAdminAPIInput wall userID permissions method path clientIP)))
                (ErrInternal "authorization policy unavailable") ;;
      guard (negb result.(EvalResult.Deny)) (ErrForbidden result.(EvalResult.DenyReason))
  end.
End service.
End PolicySvc.

(** ** Properties *)
Module PolicyFacts.
Import Engine.

Definition policy_types : list string :=
  ["token_issuance"; "login"; "client_auth"; "admin_api"; "consent"; "refresh"; "introspect";
   "device_approval"; "mfa"; "account_action"; "custom"].

(** A module that compiles compiles for the queries of the engine. *)
Class OpaLaws `{Opa} : Prop :=
  prepare_fields : forall src m ty field,
    mem ty policy_types = true -> is_ok (prepare "validation.rego" src "data") = true ->
    is_ok (prepare m src (query_of ty field)) = true.

(** ** Documents *)

(** Of several assignments of a key the last stays. *)
Lemma map_get_foldl l m k :
  map_get (foldl (fun m kv => map_set m kv.1 kv.2) m l) k
  = match map_get (rev l) k with Some v => Some v | None => map_get m k end.
Proof.
  revert m. induction l as [|[k0 v0] l IH]; intros m; simpl; [done|].
  rewrite IH, map_get_app, map_get_set. simpl. destruct (map_get (rev l) k); [done|].
  by destruct (String.eqb k0 k).
Qed.

Section facts.
Context `{Platform} `{Opa}.

(** ** Evaluation *)

Definition passes (input : doc) (p : preparedPolicy) : Prop := deny_reason p input = Ok "".

(** Every policy before [p] passes. *)
Definition first_at (input : doc) (p : preparedPolicy) (l : list preparedPolicy) : Prop :=
  exists l1 l2, l = l1 ++ p :: l2 /\ Forall (passes input) l1.

Lemma first_at_cons input p q l : passes input q -> first_at input p l -> first_at input p (q :: l).
Proof. intros Hq (l1 & l2 & -> & Hl). exists (q :: l1), l2. split; [done | by constructor]. Qed.

Definition merged_of (l : list preparedPolicy) (input : doc) : doc := concat (map (fun p => modifications p input) l).

Definition evaluation (l : list preparedPolicy) (input merged : doc) (r : result EvalResult.t) : Prop :=
  match r with
  | Err err => exists p, first_at input p l /\ deny_reason p input = Err err
  | Ok r =>
      if r.(EvalResult.Deny) then
        r.(EvalResult.Allow) = false /\ r.(EvalResult.DenyReason) <> "" /\
        exists p, first_at input p l /\ deny_reason p input = Ok r.(EvalResult.DenyReason) /\
          r.(EvalResult.PolicyName) = p.(name)
      else r.(EvalResult.Allow) = true /\ Forall (passes input) l /\
        forall k, map_get (default [] r.(EvalResult.Modify)) k
          = match map_get (rev (merged_of l input)) k with Some v => Some v | None => map_get merged k end
  end.

Lemma evaluate_all_spec l input merged : evaluation l input merged (evaluate_all l input merged).
Proof.
  revert merged. induction l as [|p l IH]; intros merged; cbn [evaluate_all].
  - split; [done|]. split; [constructor|]. intros k. by destruct merged.
  - destruct (deny_reason p input) as [reason|err] eqn:Hd.
    + destruct (String.eqb_spec reason "") as [->|Hne].
      * specialize (IH (foldl (fun m kv => map_set m kv.1 kv.2) merged (modifications p input))).
        destruct (evaluate_all l input _) as [r|err]; unfold evaluation in *.
        -- destruct (EvalResult.Deny r).
           ++ destruct IH as (Ha & Hr & q & Hq & Hd' & Hn). split; [done|]. split; [done|].
              exists q. split; [by apply first_at_cons | done].
           ++ destruct IH as (Ha & Hl & Hk). split; [done|]. split; [by constructor|].
              intros k. rewrite Hk, map_get_foldl. unfold merged_of. simpl. rewrite rev_app_distr, map_get_app.
              by destruct (map_get (rev (concat _)) k).
        -- destruct IH as (q & Hq & Hd'). exists q. split; [by apply first_at_cons | done].
      * unfold evaluation; cbn [EvalResult.Deny EvalResult.Allow EvalResult.DenyReason EvalResult.PolicyName].
        split; [done|]. split; [done|]. exists p. split; [by exists [], l | done].
    + exists p. split; [by exists [], l | done].
Qed.

(** A request is denied exactly by the first policy, in the order of
    priority, that gives a reason, with that reason; a rule that fails to
    evaluate before any denial fails the request; else it is allowed with the
    modifications of all policies, a later one overriding an earlier. *)
Theorem Evaluate_spec (e : Engine.t) (policyType : string) (input : doc) :
  evaluation (policies_of e policyType) input [] (Evaluate e policyType input).
Proof.
  unfold Evaluate. destruct (policies_of e policyType) as [|p l] eqn:E; [|apply evaluate_all_spec].
  split; [done|]. split; [constructor | done].
Qed.

(** ** The lists the engine keeps *)

Definition ids (l : list preparedPolicy) : list UUID := map id l.

Lemma elem_replace l pp x :
  NoDup (ids l) -> x ∈ replace l pp <-> x = pp \/ x ∈ l /\ x.(id) <> pp.(id).
Proof.
  induction l as [|p l IH]; simpl; intros Hnd.
  - rewrite list_elem_of_singleton. split; [by left|]. intros [->|[Hx _]]; [done | by apply not_elem_of_nil in Hx].
  - apply NoDup_cons in Hnd as [Hn Hnd]. destruct (N.eqb_spec p.(id) pp.(id)) as [He|Hne].
    + rewrite !elem_of_cons. split.
      * intros [->|Hx]; [by left|]. right. split; [by right|]. intros Hid. apply Hn. rewrite He, <-Hid.
        by apply list_elem_of_In, in_map, list_elem_of_In.
      * intros [->|[[->|Hx] Hid]]; [by left | done | by right].
    + rewrite !elem_of_cons, (IH Hnd). naive_solver.
Qed.

Lemma elem_remove l i x : NoDup (ids l) -> x ∈ remove l i <-> x ∈ l /\ x.(id) <> i.
Proof.
  induction l as [|p l IH]; simpl; intros Hnd.
  - split; [intros Hx | intros [Hx _]]; by apply not_elem_of_nil in Hx.
  - apply NoDup_cons in Hnd as [Hn Hnd]. destruct (N.eqb_spec p.(id) i) as [He|Hne].
    + rewrite elem_of_cons. split.
      * intros Hx. split; [by right|]. intros Hid. apply Hn. rewrite He, <-Hid.
        by apply list_elem_of_In, in_map, list_elem_of_In.
      * intros [[->|Hx] Hid]; done.
    + rewrite !elem_of_cons, (IH Hnd). naive_solver.
Qed.

Lemma NoDup_replace l pp : NoDup (ids l) -> NoDup (ids (replace l pp)).
Proof.
  induction l as [|p l IH]; simpl; intros Hnd; [apply NoDup_singleton|].
  pose proof Hnd as Hall. apply NoDup_cons in Hnd as [Hn Hnd].
  destruct (N.eqb_spec p.(id) pp.(id)) as [He|Hne]; simpl.
  - apply NoDup_cons. by rewrite <-He.
  - apply NoDup_cons. split; [|by apply IH]. intros Hin. apply list_elem_of_In, in_map_iff in Hin as (x & Hx & Hin).
    apply list_elem_of_In, elem_replace in Hin as [->|[Hin _]]; [congruence| |done].
    apply Hn. rewrite <-Hx. by apply list_elem_of_In, in_map, list_elem_of_In.
Qed.

Lemma NoDup_remove l i : NoDup (ids l) -> NoDup (ids (remove l i)).
Proof.
  induction l as [|p l IH]; simpl; intros Hnd; [done|].
  apply NoDup_cons in Hnd as [Hn Hnd]. destruct (N.eqb _ _); [done|]. simpl. apply NoDup_cons.
  split; [|by apply IH]. intros Hin. apply list_elem_of_In, in_map_iff in Hin as (x & Hx & Hin).
  apply list_elem_of_In, elem_remove in Hin as [Hin _]; [|done].
  apply Hn. rewrite <-Hx. by apply list_elem_of_In, in_map, list_elem_of_In.
Qed.

#[export] Instance higher_total : Total higher.
Proof. intros a b. unfold higher. lia. Qed.

Lemma sorted_sort l : Sorted higher (sortByPriority l).
Proof. apply Sorted_merge_sort, _. Qed.

Lemma sorted_remove l i : Sorted higher l -> Sorted higher (remove l i).
Proof.
  intros Hs. apply StronglySorted_Sorted. apply Sorted_StronglySorted in Hs; [|intros a b c; unfold higher; lia].
  induction Hs as [|p l Hs IH Hf]; simpl; [constructor|]. destruct (N.eqb _ _); [done|].
  constructor; [done|]. rewrite List.Forall_forall in *. intros x Hx. apply Hf. clear -Hx.
  induction l as [|q l IHl]; simpl in *; [done|]. destruct (N.eqb _ _); [by right|].
  destruct Hx as [->|Hx]; [by left | right; auto].
Qed.

Lemma ids_sort l : NoDup (ids (sortByPriority l)) <-> NoDup (ids l).
Proof.
  unfold ids. change (NoDup (id <$> sortByPriority l) <-> NoDup (id <$> l)).
  unfold sortByPriority. by rewrite merge_sort_Permutation.
Qed.

(** ** The engine and the table *)

Lemma compile_id p pp : compile p = Ok pp -> pp.(id) = p.(Policy.ID).
Proof. unfold compile. destruct (prepare _ _ _); [|done]. by intros [= <-]. Qed.

(** Each row is under its key, of a known type, and compiles. *)
Definition row_ok (k : UUID) (row : Policy.t) : Prop :=
  row.(Policy.ID) = k /\ mem row.(Policy.Type_) policy_types = true /\
  is_ok (ValidateRego row.(Policy.Rego)) = true.

Definition policies_wf (t : gmap UUID Policy.t) : Prop := forall k row, t !! k = Some row -> row_ok k row.

(** [pp] is an active row of the type, compiled. *)
Definition active_row (t : gmap UUID Policy.t) (ty : string) (pp : preparedPolicy) : Prop :=
  exists k row, t !! k = Some row /\ row.(Policy.Active) = true /\ row.(Policy.Type_) = ty /\ compile row = Ok pp.

Definition in_step (db : DB) (e : Engine.t) : Prop :=
  policies_wf db.(policies) /\
  forall ty, NoDup (ids (policies_of e ty)) /\ Sorted higher (policies_of e ty) /\
    forall pp, pp ∈ policies_of e ty <-> active_row db.(policies) ty pp.

Lemma compiles `{!OpaLaws} k row : row_ok k row -> exists pp, compile row = Ok pp /\ pp.(id) = k.
Proof.
  intros (Hk & Hty & Hv). unfold ValidateRego in Hv.
  destruct (prepare "validation.rego" row.(Policy.Rego) "data") as [q|e] eqn:E; [|done].
  pose proof (prepare_fields row.(Policy.Rego) ("policy_" +:+ uuid_string row.(Policy.ID) +:+ ".rego")
    row.(Policy.Type_) "allow" Hty) as Hp. rewrite E in Hp. specialize (Hp eq_refl).
  destruct (compile row) as [pp|e'] eqn:Hc.
  - exists pp. split; [done|]. rewrite (compile_id _ _ Hc). exact Hk.
  - exfalso. unfold compile in Hc. destruct (prepare _ _ (query_of _ "allow")); [done | done].
Qed.

Lemma active_row_insert t k row ty pp :
  active_row (<[k := row]> t) ty pp <->
  row.(Policy.Active) = true /\ row.(Policy.Type_) = ty /\ compile row = Ok pp \/
  exists k' row', k' <> k /\ t !! k' = Some row' /\ row'.(Policy.Active) = true /\
    row'.(Policy.Type_) = ty /\ compile row' = Ok pp.
Proof.
  split.
  - intros (k' & row' & [[<- <-]|[Hne Hk]]%lookup_insert_Some & Hr); [by left|].
    right. exists k', row'. split; [by intros ->|]. by split.
  - intros [Hr|(k' & row' & Hne & Hk & Hr)].
    + exists k, row. split; [apply lookup_insert_eq | done].
    + exists k', row'. split; [by rewrite lookup_insert_ne | done].
Qed.

Lemma policies_of_insert e ty l ty' :
  policies_of (e <| prepared ::= insert ty l |>) ty' = if String.eqb ty ty' then l else policies_of e ty'.
Proof.
  unfold policies_of. simpl. destruct (String.eqb_spec ty ty') as [->|Hne].
  - by rewrite lookup_insert_eq.
  - by rewrite lookup_insert_ne.
Qed.

Lemma active_row_id t ty pp :
  policies_wf t -> active_row t ty pp -> exists row, t !! pp.(id) = Some row /\ row.(Policy.Active) = true /\
    row.(Policy.Type_) = ty /\ compile row = Ok pp.
Proof.
  intros Hwf (k & row & Hk & Ha & Hty & Hc). exists row. rewrite (compile_id _ _ Hc).
  destruct (Hwf _ _ Hk) as [-> _]. by split_and!.
Qed.

Lemma active_row_insert_id t k row ty pp :
  policies_wf t -> row.(Policy.ID) = k ->
  active_row (<[k := row]> t) ty pp <->
  row.(Policy.Active) = true /\ row.(Policy.Type_) = ty /\ compile row = Ok pp \/
  active_row t ty pp /\ pp.(id) <> k.
Proof.
  intros Hwf Hid. rewrite active_row_insert. split; (intros [Hr|Hr]; [by left|right]).
  - destruct Hr as (k' & row' & Hne & Hk & Hr). split; [by exists k', row'|].
    destruct Hr as (_ & _ & Hc). rewrite (compile_id _ _ Hc). by destruct (Hwf _ _ Hk) as [-> _].
  - destruct Hr as [(k' & row' & Hk & Hr) Hne]. exists k', row'. split; [|done]. intros ->.
    apply Hne. destruct Hr as (_ & _ & Hc). rewrite (compile_id _ _ Hc). by destruct (Hwf _ _ Hk) as [-> _].
Qed.

Lemma policies_wf_insert t k row : policies_wf t -> row_ok k row -> policies_wf (<[k := row]> t).
Proof. intros Hwf Hr k' row'. intros [[<- <-]|[_ Hk]]%lookup_insert_Some; [done | by apply Hwf]. Qed.

(** Writing a row and loading it, or removing it when it is not active. *)
Lemma insert_in_step `{!OpaLaws} db e k row :
  in_step db e -> row_ok k row ->
  (forall old, db.(policies) !! k = Some old -> old.(Policy.Type_) = row.(Policy.Type_)) ->
  in_step (db <| policies ::= insert k row |>)
    (if row.(Policy.Active) then match LoadPolicy row e with Ok e' => e' | Err _ => e end
     else RemovePolicy k row.(Policy.Type_) e).
Proof.
  intros [Hwf Hsync] Hrow Hold. split.
  { by apply policies_wf_insert. }
  destruct (compiles k row Hrow) as (pp & Hc & Hpp). destruct Hrow as (Hid & Hty & Hv).
  change (policies (db <| policies ::= insert k row |>)) with (<[k := row]> db.(policies)).
  assert (Hother : forall ty x, ty <> row.(Policy.Type_) ->
    active_row (<[k := row]> db.(policies)) ty x <-> active_row db.(policies) ty x).
  { intros ty x Hne. rewrite active_row_insert_id by done. split; [intros [(_ & Ht & _)|[Hx _]]; [by destruct Hne | exact Hx]|].
    intros Hx. right. split; [done|]. intros He.
    destruct (active_row_id _ _ _ Hwf Hx) as (old & Ho & _ & Hot & _). rewrite He in Ho.
    apply Hne. by rewrite <-Hot, (Hold _ Ho). }
  intros ty. destruct (Hsync row.(Policy.Type_)) as (Hnd & Hs & Hmem), (Hsync ty) as (Hnd' & Hs' & Hmem').
  destruct (row.(Policy.Active)) eqn:Ha.
  - unfold LoadPolicy. rewrite Hc, policies_of_insert. destruct (String.eqb_spec row.(Policy.Type_) ty) as [<-|Hne].
    + split; [by apply ids_sort, NoDup_replace|]. split; [apply sorted_sort|]. intros x.
      unfold sortByPriority. rewrite merge_sort_Permutation, elem_replace, Hmem, active_row_insert_id by done.
      rewrite Hpp, Hc. split; [intros [->|Hx]; [by left | by right] | intros [(_ & _ & [= ->])|Hx]; [by left | by right]].
    + split; [done|]. split; [done|]. intros x. rewrite Hmem'. symmetry. by apply Hother.
  - assert (Hgone : forall x, active_row (<[k := row]> db.(policies)) row.(Policy.Type_) x <->
      x ∈ policies_of e row.(Policy.Type_) /\ x.(id) <> k).
    { intros x. rewrite active_row_insert_id, Ha, Hmem by done.
      split; [intros [(? & _)|Hx]; done | intros Hx; by right]. }
    unfold RemovePolicy. destruct (existsb _ _) eqn:Ex.
    + rewrite policies_of_insert. destruct (String.eqb_spec row.(Policy.Type_) ty) as [<-|Hne].
      * split; [by apply NoDup_remove|]. split; [by apply sorted_remove|]. intros x.
        by rewrite Hgone, elem_remove.
      * split; [done|]. split; [done|]. intros x. rewrite Hmem'. symmetry. by apply Hother.
    + split; [done|]. split; [done|]. intros x. destruct (decide (ty = row.(Policy.Type_))) as [->|Hne].
      * rewrite Hgone. split; [|by intros [Hx _]]. intros Hx. split; [done|]. intros He.
        assert (Hcontra : existsb (fun p => N.eqb p.(id) k) (policies_of e row.(Policy.Type_)) = true).
        { apply existsb_exists. exists x. split; [by apply list_elem_of_In | by apply N.eqb_eq]. }
        by rewrite Hcontra in Ex.
      * rewrite Hmem'. symmetry. by apply Hother.
Qed.

Lemma active_row_delete t k ty pp :
  policies_wf t -> active_row (delete k t) ty pp <-> active_row t ty pp /\ pp.(id) <> k.
Proof.
  intros Hwf. split.
  - intros (k' & row & [Hne Hk]%lookup_delete_Some & Hr). split; [by exists k', row|].
    destruct Hr as (_ & _ & Hc). rewrite (compile_id _ _ Hc). destruct (Hwf _ _ Hk) as [-> _]. by intros ->.
  - intros [Hx Hne]. destruct (active_row_id _ _ _ Hwf Hx) as (row & Hk & Hr).
    exists pp.(id), row. split; [|done]. apply lookup_delete_Some. split; [by intros ->|done].
Qed.

Lemma RemovePolicy_elem e k ty ty' x :
  NoDup (ids (policies_of e ty)) ->
  x ∈ policies_of (RemovePolicy k ty e) ty' <-> x ∈ policies_of e ty' /\ (ty = ty' -> x.(id) <> k).
Proof.
  intros Hnd. unfold RemovePolicy. destruct (existsb _ _) eqn:Ex.
  - rewrite policies_of_insert. destruct (String.eqb_spec ty ty') as [<-|Hne].
    + rewrite elem_remove by done. naive_solver.
    + naive_solver.
  - split; [|by intros [Hx _]]. intros Hx. split; [done|]. intros <- He.
    assert (Hc : existsb (fun p => N.eqb p.(id) k) (policies_of e ty) = true).
    { apply existsb_exists. exists x. split; [by apply list_elem_of_In | by apply N.eqb_eq]. }
    by rewrite Hc in Ex.
Qed.

Lemma RemovePolicy_list e k ty ty' :
  NoDup (ids (policies_of e ty')) -> Sorted higher (policies_of e ty') ->
  NoDup (ids (policies_of (RemovePolicy k ty e) ty')) /\ Sorted higher (policies_of (RemovePolicy k ty e) ty').
Proof.
  intros Hnd Hs. unfold RemovePolicy. destruct (existsb _ _); [|done].
  rewrite policies_of_insert. destruct (String.eqb_spec ty ty') as [<-|]; [|done].
  split; [by apply NoDup_remove | by apply sorted_remove].
Qed.

Lemma policies_wf_delete t k : policies_wf t -> policies_wf (delete k t).
Proof. intros Hwf k' row' [_ Hk]%lookup_delete_Some. by apply Hwf. Qed.

Lemma delete_in_step db e k row :
  in_step db e -> db.(policies) !! k = Some row ->
  in_step (db <| policies ::= delete k |>) (RemovePolicy k row.(Policy.Type_) e).
Proof.
  intros [Hwf Hsync] Hrow. split; [by apply policies_wf_delete|].
  change (policies (db <| policies ::= delete k |>)) with (delete k db.(policies)). intros ty.
  destruct (Hsync ty) as (Hnd & Hs & Hmem), (Hsync row.(Policy.Type_)) as (Hnd' & _ & _).
  destruct (RemovePolicy_list e k row.(Policy.Type_) ty Hnd Hs) as [H1 H2]. split; [done|]. split; [done|].
  intros x. rewrite RemovePolicy_elem, active_row_delete, Hmem by done.
  split; [|naive_solver]. intros [Hx Hne]. split; [done|]. intros He.
  destruct (active_row_id _ _ _ Hwf Hx) as (row' & Hk' & _ & Hty & _).
  rewrite He in Hk'. rewrite Hrow in Hk'. injection Hk' as <-. by apply Hne.
Qed.

(** ** Loading the table *)

Definition compiled (ps : list Policy.t) (ty : string) : list preparedPolicy :=
  omap (fun p => if String.eqb p.(Policy.Type_) ty
                 then match compile p with Ok pp => Some pp | Err _ => None end else None) ps.

Lemma group_compiled ps g g' :
  group ps g = Ok g' -> forall ty, default [] (g' !! ty) = default [] (g !! ty) ++ compiled ps ty.
Proof.
  revert g. induction ps as [|p ps IH]; intros g; cbn [group].
  - intros [= <-] ty. by rewrite app_nil_r.
  - destruct (compile p) as [pp|e] eqn:Hc; [|done]. intros Hg ty. rewrite (IH _ Hg). unfold compiled at 2. simpl.
    destruct (String.eqb_spec p.(Policy.Type_) ty) as [<-|Hne].
    + rewrite lookup_insert_eq, Hc. simpl. by rewrite <-app_assoc.
    + by rewrite lookup_insert_ne.
Qed.

Lemma elem_compiled ps ty pp :
  pp ∈ compiled ps ty <-> exists p, p ∈ ps /\ p.(Policy.Type_) = ty /\ compile p = Ok pp.
Proof.
  unfold compiled. rewrite list_elem_of_omap. split; intros (p & Hp & Hr); exists p; (split; [done|]).
  - destruct (String.eqb_spec p.(Policy.Type_) ty); [|done]. by destruct (compile p); simplify_eq.
  - destruct Hr as [<- ->]. by rewrite String.eqb_refl.
Qed.

Lemma NoDup_compiled ps ty : NoDup (map Policy.ID ps) -> NoDup (ids (compiled ps ty)).
Proof.
  induction ps as [|p ps IH]; simpl; intros Hnd; [constructor|].
  apply NoDup_cons in Hnd as [Hn Hnd]. unfold compiled. simpl.
  destruct (String.eqb _ _); [|by apply IH]. destruct (compile p) as [pp|e] eqn:Hc; [|by apply IH].
  simpl. apply NoDup_cons. split; [|by apply IH]. intros Hin. apply list_elem_of_In, in_map_iff in Hin as (x & Hx & Hin).
  apply list_elem_of_In in Hin. change (x ∈ compiled ps ty) in Hin. apply elem_compiled in Hin as (q & Hq & _ & Hcq).
  apply Hn. rewrite <-(compile_id _ _ Hc), <-Hx, (compile_id _ _ Hcq). by apply list_elem_of_In, in_map, list_elem_of_In.
Qed.

Lemma NoDup_rows (P : Policy.t -> bool) t : policies_wf t -> NoDup (map Policy.ID (select_rows P t)).
Proof.
  intros Hwf. unfold select_rows. apply NoDup_fmap_2_strong.
  - intros x y Hx Hy He. rewrite elem_of_List_filter, list_elem_of_fmap in Hx, Hy.
    destruct Hx as [([kx vx] & -> & Hx) _], Hy as [([ky vy] & -> & Hy) _].
    apply elem_of_map_to_list in Hx, Hy. simpl in *.
    destruct (Hwf _ _ Hx) as [Ex _], (Hwf _ _ Hy) as [Ey _]. congruence.
  - apply NoDup_ListNoDup, List.NoDup_filter, NoDup_ListNoDup. apply NoDup_fmap_2_strong; [|apply NoDup_map_to_list].
    intros [k v] [k' v'] Hx Hy He. apply elem_of_map_to_list in Hx, Hy. simpl in He. subst v'.
    f_equal. destruct (Hwf _ _ Hx) as [<- _], (Hwf _ _ Hy) as [<- _]. done.
Qed.

Lemma LoadPolicies_in_step db ps e e' :
  policies_wf db.(policies) -> ps ≡ₚ select_rows Policy.Active db.(policies) ->
  LoadPolicies ps e = Ok e' -> in_step db e'.
Proof.
  intros Hwf Hps. unfold LoadPolicies. destruct (group ps ∅) as [g|err] eqn:Hg; [|done]. intros [= <-].
  split; [done|]. intros ty.
  assert (Hl : policies_of (mk (sortByPriority <$> g)) ty = sortByPriority (compiled ps ty)).
  { unfold policies_of. simpl. rewrite lookup_fmap. pose proof (group_compiled ps ∅ g Hg ty) as Hty.
    rewrite lookup_empty in Hty. simpl in Hty. rewrite <-Hty. by destruct (g !! ty). }
  rewrite Hl. split; [|split; [apply sorted_sort|]].
  - apply ids_sort, NoDup_compiled. change (NoDup (Policy.ID <$> ps)). rewrite Hps. by apply NoDup_rows.
  - intros pp. unfold sortByPriority. rewrite merge_sort_Permutation, elem_compiled. split.
    + intros (p & Hp & Hty & Hc). rewrite Hps in Hp. apply elem_of_select_rows in Hp as (k & Hk & Ha). by exists k, p.
    + intros (k & p & Hk & Ha & Hty & Hc). exists p. split; [|done]. rewrite Hps. apply elem_of_select_rows. by exists k.
Qed.

(** ** The operations of the service *)

Section service.
Context `{!OpaLaws}.

Inductive call :=
| CCreate (input : PolicySvc.CreatePolicyInput)
| CUpdate (id : UUID) (input : PolicySvc.UpdatePolicyInput)
| CDelete (id : UUID).

Definition perform (c : call) : PM Engine.t unit :=
  match c with
  | CCreate input => PolicySvc.CreatePolicy input ~;; retP tt
  | CUpdate id input => PolicySvc.UpdatePolicy id input ~;; retP tt
  | CDelete id => PolicySvc.DeletePolicy id
  end.

(** The handler binds one of the known types. *)
Definition call_ok (c : call) : Prop :=
  match c with CCreate input => mem input.(PolicySvc.c_Type) policy_types = true | _ => True end.

Lemma checked_rego_ok rego e env st (Q : result (result unit * Engine.t) -> State -> Prop) :
  (is_ok (ValidateRego rego) = true -> Q (Ok (Ok tt, e)) st) ->
  (forall err, Q (Ok (Err err, e)) st) -> wp (PolicySvc.checked_rego rego e) Q env st.
Proof.
  intros Hok Herr. unfold PolicySvc.checked_rego, of_resultP. apply wp_ret.
  destruct (ValidateRego rego) as [[]|err]; [by apply Hok | apply Herr].
Qed.

Lemma create_keeps input : mem input.(PolicySvc.c_Type) policy_types = true ->
  keepsP in_step (PolicySvc.CreatePolicy input).
Proof.
  intros Hty e env st Hsync. unfold PolicySvc.CreatePolicy.
  apply wp_bindP, wp_liftP, wp_read_only; [apply _|]. intros [[existing err]|err] n; [|by eauto].
  apply wp_bindP. unfold guardP. destruct (negb _); apply wp_ret; [|by eauto].
  apply wp_bindP, checked_rego_ok; [|by eauto]. intros Hv.
  apply wp_bindP, wp_liftP, wp_or_fail. unfold PolicyRepo.Create.
  apply wp_bind, wp_BeforeCreate; [by eauto|]. intros id n' _. apply wp_bind, wp_wall_now. cbv zeta.
  apply wp_bind, wp_stmt; [by eauto|]. intros db' _ Hdb'.
  destruct (PolicyRepo.name_taken _ _ _); [done|]. simpl orb in Hdb'.
  destruct (is_Some_b _) eqn:Hfresh; [done|]. injection Hdb' as <-. apply wp_ret.
  match goal with |- context [upd policies (insert id ?r) _] => set (row := r) end.
  pose proof (insert_in_step st.(st_db) e id row Hsync) as Hins.
  apply wp_bindP. change (Policy.Active row) with true in *. cbv iota in *.
  unfold PolicySvc.load_policy. apply wp_ret, wp_ret. eexists _, _. split; [done|].
  apply Hins.
  - by split_and!.
  - intros old Hold. simpl in Hfresh. by rewrite Hold in Hfresh.
Qed.

Lemma wp_GetPolicy k env st (Q : result Policy.t -> State -> Prop) :
  (forall err n, Q (Err err) (mkState st.(st_db) n)) ->
  (forall row n, st.(st_db).(policies) !! k = Some row -> Q (Ok row) (mkState st.(st_db) n)) ->
  wp (PolicySvc.GetPolicy k) Q env st.
Proof.
  intros He Hok. unfold PolicySvc.GetPolicy, PolicyRepo.FindByID. apply wp_bind, wp_find_row; intros _; [apply He|].
  destruct (policies _ !! k) eqn:E; [by apply Hok | apply He].
Qed.

Lemma updated_fields input p :
  (PolicySvc.updated input p).(Policy.ID) = p.(Policy.ID) /\
  (PolicySvc.updated input p).(Policy.Type_) = p.(Policy.Type_) /\
  (PolicySvc.updated input p).(Policy.Rego) = default p.(Policy.Rego) input.(PolicySvc.u_Rego).
Proof. destruct input as [[] [] [] [] []]; done. Qed.

Lemma update_keeps k input : keepsP in_step (PolicySvc.UpdatePolicy k input).
Proof.
  intros e env st Hsync. unfold PolicySvc.UpdatePolicy.
  apply wp_bindP, wp_liftP, wp_GetPolicy; [by eauto|]. intros p n Hp.
  pose proof Hsync as [Hwf _]. destruct (Hwf _ _ Hp) as (Hid & Hty & Hv).
  destruct (updated_fields input p) as (Hid' & Hty' & Hrego').
  assert (Hrest : is_ok (ValidateRego (PolicySvc.updated input p).(Policy.Rego)) = true ->
    wp ((p0 <~ liftP (or_fail (PolicyRepo.Update (PolicySvc.updated input p)) (ErrInternal "failed to update policy")) ;;
         (if p0.(Policy.Active) then PolicySvc.load_policy p0
          else set_memory (Engine.RemovePolicy p0.(Policy.ID) p0.(Policy.Type_))) ~;;
         retP p0) e)
      (fun r st' => exists a e', r = Ok (a, e') /\ in_step st'.(st_db) e') env (mkState st.(st_db) n)).
  { intros Hv'. apply wp_bindP, wp_liftP, wp_or_fail. unfold PolicyRepo.Update. apply wp_bind, wp_wall_now. cbv zeta.
    apply wp_bind, wp_stmt; [by eauto|]. intros db' _ Hdb'. destruct (PolicyRepo.name_taken _ _ _); [done|].
    injection Hdb' as <-. apply wp_ret.
    set (row := (PolicySvc.updated input p) <| Policy.UpdatedAt := _ |>).
    assert (Hidr : row.(Policy.ID) = k) by (unfold row; simpl; by rewrite Hid').
    assert (Htyr : row.(Policy.Type_) = p.(Policy.Type_)) by (unfold row; simpl; by rewrite Hty').
    assert (Hvr : is_ok (ValidateRego row.(Policy.Rego)) = true) by exact Hv'.
    assert (Hkey : Policy.ID (PolicySvc.updated input p) = k) by congruence.
    clearbody row. rewrite Hidr. cbn [Policy.ID] in *. rewrite ?Hkey. pose proof (insert_in_step st.(st_db) e k row Hsync) as Hins.
    apply wp_bindP. destruct (Policy.Active row) eqn:Ha;
      [unfold PolicySvc.load_policy|]; apply wp_ret, wp_ret; (eexists _, _; split; [done|]); apply Hins;
      first [by split_and!; [|rewrite Htyr|] | intros old Hold; rewrite Hp in Hold; by injection Hold as <-]. }
  apply wp_bindP. destruct input.(PolicySvc.u_Rego) as [rego|] eqn:Er.
  - apply checked_rego_ok; [|by eauto]. intros Hvn. apply Hrest. by rewrite Hrego'.
  - apply wp_ret, Hrest. by rewrite Hrego'.
Qed.

Lemma delete_keeps k : keepsP in_step (PolicySvc.DeletePolicy k).
Proof.
  intros e env st Hsync. unfold PolicySvc.DeletePolicy.
  apply wp_bindP, wp_liftP, wp_GetPolicy; [by eauto|]. intros p n Hp.
  apply wp_bindP, wp_liftP, wp_or_fail. unfold PolicyRepo.Delete. apply wp_update_table; [by eauto|].
  intros _. apply wp_ret. eexists _, _. split; [done|]. by apply delete_in_step.
Qed.

Lemma perform_in_step c : call_ok c -> keepsP in_step (perform c).
Proof.
  intros Hc. destruct c as [input|k input|k]; simpl.
  - apply keepsP_bind; [by apply create_keeps | intros; apply keepsP_ret].
  - apply keepsP_bind; [apply update_keeps | intros; apply keepsP_ret].
  - apply delete_keeps.
Qed.

(** What an evaluation decides from the table alone: denied with the reason of
    an active policy of the type, or no active policy denies. *)
Definition decided (t : gmap UUID Policy.t) (ty : string) (input : doc) (r : EvalResult.t) : Prop :=
  if r.(EvalResult.Deny) then
    exists pp, active_row t ty pp /\ deny_reason pp input = Ok r.(EvalResult.DenyReason) /\
      r.(EvalResult.DenyReason) <> "" /\
      (forall pp', active_row t ty pp' -> pp.(priority) < pp'.(priority) -> passes input pp')
  else forall pp, active_row t ty pp -> passes input pp.

Lemma first_at_higher input p l p' :
  Sorted higher l -> first_at input p l -> p' ∈ l -> p.(priority) < p'.(priority) -> passes input p'.
Proof.
  intros Hs (l1 & l2 & -> & Hl) Hin Hlt. apply Sorted_StronglySorted in Hs; [|intros a b c; unfold higher; lia].
  apply elem_of_app in Hin as [Hin|Hin]; [rewrite Forall_forall in Hl; by apply Hl|]. exfalso.
  apply elem_of_cons in Hin as [->|Hin]; [lia|].
  apply StronglySorted_app_1_r in Hs. inversion Hs as [|? ? _ Hf]; subst.
  rewrite List.Forall_forall in Hf. apply list_elem_of_In in Hin. specialize (Hf _ Hin). unfold higher in Hf. lia.
Qed.

Lemma Evaluate_decided db e ty input r :
  in_step db e -> Evaluate e ty input = Ok r -> decided db.(policies) ty input r.
Proof.
  intros [_ Hsync] Hev. destruct (Hsync ty) as (_ & Hs & Hmem).
  assert (Hspec : evaluation (policies_of e ty) input [] (Evaluate e ty input)).
  { unfold Evaluate. destruct (policies_of e ty) as [|p l]; [|apply evaluate_all_spec].
    split; [done|]. split; [constructor | done]. }
  rewrite Hev in Hspec. unfold evaluation in Hspec. unfold decided. destruct (EvalResult.Deny r).
  - destruct Hspec as (_ & Hne & p & Hp & Hd & _). exists p. split_and!; try done.
    + apply Hmem. destruct Hp as (l1 & l2 & -> & _). apply elem_of_app. right. by left.
    + intros p' Hp' Hlt. apply Hmem in Hp'. by eapply first_at_higher.
  - destruct Hspec as (_ & Hall & _). rewrite Forall_forall in Hall. intros pp Hpp. by apply Hall, Hmem.
Qed.

End service.
End facts.

(** ** Samples *)

(** Modules are one word; the query's field is its last word. *)
Definition asks (field q : string) : bool :=
  String.eqb (str_drop (String.length q - String.length field) q) field.

Definition sample_opa : Opa := {|
  PreparedQuery := string * string;
  prepare _ src q := if String.eqb src "" then Err (EOther "empty module") else Ok (src, q);
  eval p _ :=
    let '(src, q) := p in
    if asks "deny" q then
      if String.eqb src "deny" then Ok [[("x", AList [AString "no"])]]
      else if String.eqb src "deny := false" then Ok [[("x", ABool false)]] else Ok []
    else if asks "allow" q then Ok [[("x", ABool (negb (String.eqb src "allow := false")))]]
    else Ok []
|}.

Lemma sample_opa_laws : @OpaLaws sample_opa.
Proof. intros src m ty field _. simpl. by destruct (String.eqb src ""). Qed.

Definition sample_row : Policy.t :=
  Policy.zero <| Policy.ID := 1%N |> <| Policy.Name := "p" |> <| Policy.Type_ := "login" |>
    <| Policy.Rego := "deny" |> <| Policy.Active := true |>.

Definition sample_policies : DB := empty_db <| policies := {[ 1%N := sample_row ]} |>.

Definition sample_env : Env :=
  mkEnv 0 0 (fun _ => false) (fun _ _ => 0) (fun n => N.of_nat (10 + n)).

Definition loaded : Engine.t :=
  @Engine.mk sample_opa
    {[ "login" := [@mkPrepared sample_opa 1%N "p" 0 ("deny", "x = data.orionauth.login.allow")
         (Some ("deny", "x = data.orionauth.login.deny")) (Some ("deny", "x = data.orionauth.login.modify"))] ]}.

Definition turn_off : call := CUpdate 1%N (PolicySvc.mkUpdate None None None None (Some false)).


(** The rule [allow] is compiled and never asked: a policy that allows nothing
    allows everything, although testing it says otherwise. *)
Example allow_not_consulted :
  let P := sample_platform in
  let O := sample_opa in
  let p := sample_row <| Policy.Rego := "allow := false" |> in
  match LoadPolicy p NewEngine with
  | Ok e => Evaluate e "login" [] = Ok (EvalResult.mk true false "" None "")
  | Err _ => False
  end /\ EvalResult.Allow <$> (match EvaluateRaw "allow := false" [] with Ok r => Some r | Err _ => None end) = Some false.
Proof. vm_compute. split; reflexivity. Qed.

(** A rule [deny := false] denies, with the reason "false". *)
Example deny_false_denies :
  let P := sample_platform in
  let O := sample_opa in
  let p := sample_row <| Policy.Rego := "deny := false" |> in
  match LoadPolicy p NewEngine with
  | Ok e => Evaluate e "login" [] = Ok (EvalResult.mk false true "false" None "p")
  | Err _ => False
  end.
Proof. vm_compute. reflexivity. Qed.

(** A policy created inactive is active at once. *)
Example created_inactive_is_active :
  let P := sample_platform in
  let O := sample_opa in
  let input := PolicySvc.mkCreate "q" None "login" "deny" None (Some false) in
  match run (PolicySvc.CreatePolicy input NewEngine) sample_env empty_db with
  | (Ok (Ok p, e), _) => p.(Policy.Active) = true /\ is_ok (Evaluate e "login" []) = true /\
      match Evaluate e "login" [] with Ok r => r.(EvalResult.Deny) = true | Err _ => False end
  | _ => False
  end.
Proof. vm_compute. split_and!; reflexivity. Qed.

(** ** The array behind a slice

    [Evaluate] takes the slice under the lock and walks it after releasing it;
    [RemovePolicy] moves the elements of the same array down. *)
Section shared_array.
Context {A : Type}.

(** [append(policies[:i], policies[i+1:]...)]: the array after it, of the same
    length, whose last place keeps its value. *)
Definition shift_out (arr : list A) (i : nat) : list A :=
  take i arr ++ skipn (S i) arr ++ skipn (length arr - 1) arr.

Lemma shift_out_length arr i : (i < length arr)%nat -> length (shift_out arr i) = length arr.
Proof.
  intros Hi. unfold shift_out. rewrite !length_app, length_firstn, !length_skipn. lia.
Qed.

(** What an evaluation reads that a removal at [i] overtakes after [k] reads. *)
Definition overtaken (arr : list A) (i k : nat) : list A := take k arr ++ skipn k (shift_out arr i).
End shared_array.

(** A policy that is there before and after the removal is not evaluated. *)
Example removal_hides_policy :
  shift_out ["first"; "second"; "third"] 0 = ["second"; "third"; "third"] /\
  overtaken ["first"; "second"; "third"] 0 1 = ["first"; "third"; "third"].
Proof. split; reflexivity. Qed.
End PolicyFacts.
