(* ===== verification/ClientSvc.v ===== *)
(** * client/service.go and client/repository.go: the registered clients

    The statements on [oauth_clients], with the defaults gorm fills in and the
    rows that go with a client, and the service: registration, update, deletion
    and the rotation of secrets. *)
From S2P Require Import Prelude.
From S2P Require Import Errors.
From S2P Require Import GoLib.
From S2P Require Import GoNet.
From S2P Require Import Model.
From S2P Require Import Platform.
From S2P Require Import Config.
From S2P Require Import Exec.
From S2P Require Import Crypto.
From S2P Require Import UserSvc.
From S2P Require Import NetSafety.
From S2P Require Import GoEnc.
From S2P Require Import Aes.
Local Open Scope Z_scope.

(** ** client/repository.go *)
Module ClientRepo.

(** A column with a default takes it when the field has its zero value, and the
    row read back fills the struct. *)
Definition with_defaults (c : OAuthClient.t) : OAuthClient.t :=
  let c := if String.eqb c.(OAuthClient.TokenAuthMethod) ""
           then c <| OAuthClient.TokenAuthMethod := "client_secret_basic" |> else c in
  let c := if String.eqb c.(OAuthClient.SubjectType) ""
           then c <| OAuthClient.SubjectType := "public" |> else c in
  let c := if c.(OAuthClient.AccessTokenTTL) =? 0
           then c <| OAuthClient.AccessTokenTTL := 3600 |> else c in
  let c := if c.(OAuthClient.RefreshTokenTTL) =? 0
           then c <| OAuthClient.RefreshTokenTTL := 86400 |> else c in
  let c := if c.(OAuthClient.IDTokenTTL) =? 0
           then c <| OAuthClient.IDTokenTTL := 3600 |> else c in
  c <| OAuthClient.RequirePKCE := true |> <| OAuthClient.Active := true |>.

Definition Create (client : OAuthClient.t) : M OAuthClient.t :=
  id <- BeforeCreate client.(OAuthClient.ID) ;;
  wall <- wall_now ;;
  let row := (with_defaults client) <| OAuthClient.ID := id |>
               <| OAuthClient.CreatedAt ::= auto_time wall |>
               <| OAuthClient.UpdatedAt ::= auto_time wall |> in
  create_in oauth_clients (upd oauth_clients) id row ;;;
  ret row.

Definition FindByID (id : UUID) : M (option OAuthClient.t * option error) :=
  find_row OAuthClient.zero (fun _ db => db.(oauth_clients) !! id).

Definition FindActiveByID (id : UUID) : M (option OAuthClient.t * option error) :=
  find_row OAuthClient.zero (fun _ db =>
    match db.(oauth_clients) !! id with
    | Some c => if c.(OAuthClient.Active) then Some c else None
    | None => None
    end).

Definition Update (client : OAuthClient.t) : M OAuthClient.t :=
  wall <- wall_now ;;
  let row := client <| OAuthClient.UpdatedAt := wall |> in
  update_table (upd oauth_clients) (fun _ => insert row.(OAuthClient.ID) row) ;;;
  ret row.

(** ON DELETE SET NULL on the link of an access token to its refresh token. *)
Definition unlink (rts : gmap string RefreshToken.t) (a : AccessToken.t) : AccessToken.t :=
  match a.(AccessToken.RefreshTokenID) with
  | Some h => if is_Some_b (rts !! h) then a else a <| AccessToken.RefreshTokenID := None |>
  | None => a
  end.

(** The foreign keys of the tables of tokens and grants cascade; a pushed
    request has no cascade and keeps its client (migrations/004-008, 013, 018,
    024). *)
Definition without_client (id : UUID) (db : DB) : DB :=
  let own c := N.eqb c id in
  let rts := filter (fun kr => own kr.2.(RefreshToken.ClientID) = false) db.(refresh_tokens) in
  db <| oauth_clients ::= delete id |>
     <| authorization_requests ::= filter (fun kr => own kr.2.(AuthorizationRequest.ClientID) = false) |>
     <| authorization_codes ::= filter (fun kr => own kr.2.(AuthorizationCode.ClientID) = false) |>
     <| access_tokens ::= fun t =>
          unlink rts <$> filter (fun kr => own kr.2.(AccessToken.ClientID) = false) t |>
     <| refresh_tokens := rts |>
     <| device_codes ::= filter (fun kr => own kr.2.(DeviceCode.ClientID) = false) |>
     <| consents ::= filter (fun kr => own kr.2.(Consent.ClientID) = false) |>
     <| client_resource_permissions ::= filter (fun p => own p.1 = false) |>.

Definition Delete (id : UUID) : M unit :=
  stmt (fun _ db =>
    if is_Some_b (first_row (fun a b => bool_decide (String.le a b))
         (fun p => N.eqb p.(PushedAuthorizationRequest.ClientID) id) db.(pushed_authorization_requests))
       && is_Some_b (db.(oauth_clients) !! id)
    then Err (EDriver "violates foreign key constraint")
    else Ok (without_client id db)).

(** A client whose consent the user holds, with the column set. *)
Definition consented (db : DB) (userID clientID : UUID) : bool :=
  is_Some_b (first_row N.leb (fun c =>
    N.eqb c.(Consent.UserID) userID && N.eqb c.(Consent.ClientID) clientID
    && negb (is_Some_b c.(Consent.RevokedAt))) db.(consents)).

Definition with_logout (uri : OAuthClient.t -> option string) (userID : UUID) : M (list OAuthClient.t) :=
  query (fun _ db =>
    select_rows (fun c => is_Some_b (uri c) && c.(OAuthClient.Active)
                          && consented db userID c.(OAuthClient.ID)) db.(oauth_clients)).

Definition FindClientsWithBackchannelLogout (userID : UUID) : M (list OAuthClient.t) :=
  with_logout OAuthClient.BackchannelLogoutURI userID.

Definition FindClientsWithFrontchannelLogout (userID : UUID) : M (list OAuthClient.t) :=
  with_logout OAuthClient.FrontchannelLogoutURI userID.

End ClientRepo.

(** ** client/service.go *)

Definition is_nil {A} (l : list A) : bool := match l with [] => true | _ => false end.

Module CreateInput.
Record t := mk {
  Name : string;
  Description : option string;
  RedirectURIs : list string;
  GrantTypes : list string;
  ResponseTypes : list string;
  Scopes : list string;
  TokenAuthMethod : option string;
  IsPublic : bool;
  IsFirstParty : bool;
  RequirePKCE : option bool;
  AccessTokenTTL : option Z;
  RefreshTokenTTL : option Z;
  IDTokenTTL : option Z;
  RequestURIs : list string;
  JWKSUri : option string;
  PostLogoutRedirectURIs : list string;
  BackchannelLogoutURI : option string;
  BackchannelLogoutSessionRequired : option bool;
  FrontchannelLogoutURI : option string;
  FrontchannelLogoutSessionRequired : option bool;
  SubjectType : option string;
  SectorIdentifierURI : option string;
  UserinfoSignedResponseAlg : option string;
  IDTokenEncryptedResponseAlg : option string;
  IDTokenEncryptedResponseEnc : option string;
  UserinfoEncryptedResponseAlg : option string;
  UserinfoEncryptedResponseEnc : option string
}.

#[global] Instance eta_t : Eta t := fun r => mk
  (r.(Name)) (r.(Description)) (r.(RedirectURIs)) (r.(GrantTypes)) (r.(ResponseTypes))
  (r.(Scopes)) (r.(TokenAuthMethod)) (r.(IsPublic)) (r.(IsFirstParty)) (r.(RequirePKCE))
  (r.(AccessTokenTTL)) (r.(RefreshTokenTTL)) (r.(IDTokenTTL)) (r.(RequestURIs))
  (r.(JWKSUri)) (r.(PostLogoutRedirectURIs)) (r.(BackchannelLogoutURI))
  (r.(BackchannelLogoutSessionRequired)) (r.(FrontchannelLogoutURI))
  (r.(FrontchannelLogoutSessionRequired)) (r.(SubjectType)) (r.(SectorIdentifierURI))
  (r.(UserinfoSignedResponseAlg)) (r.(IDTokenEncryptedResponseAlg))
  (r.(IDTokenEncryptedResponseEnc)) (r.(UserinfoEncryptedResponseAlg))
  (r.(UserinfoEncryptedResponseEnc)).
End CreateInput.

(** A slice that is nil is [None]. *)
Module UpdateInput.
Record t := mk {
  Name : option string;
  Description : option string;
  RedirectURIs : option (list string);
  GrantTypes : option (list string);
  ResponseTypes : option (list string);
  Scopes : option (list string);
  TokenAuthMethod : option string;
  IsFirstParty : option bool;
  RequirePKCE : option bool;
  AccessTokenTTL : option Z;
  RefreshTokenTTL : option Z;
  IDTokenTTL : option Z;
  Active : option bool;
  RequestURIs : option (list string);
  JWKSUri : option string;
  PostLogoutRedirectURIs : option (list string);
  BackchannelLogoutURI : option string;
  BackchannelLogoutSessionRequired : option bool;
  FrontchannelLogoutURI : option string;
  FrontchannelLogoutSessionRequired : option bool;
  SubjectType : option string;
  SectorIdentifierURI : option string;
  UserinfoSignedResponseAlg : option string;
  IDTokenEncryptedResponseAlg : option string;
  IDTokenEncryptedResponseEnc : option string;
  UserinfoEncryptedResponseAlg : option string;
  UserinfoEncryptedResponseEnc : option string
}.

#[global] Instance eta_t : Eta t := fun r => mk
  (r.(Name)) (r.(Description)) (r.(RedirectURIs)) (r.(GrantTypes)) (r.(ResponseTypes))
  (r.(Scopes)) (r.(TokenAuthMethod)) (r.(IsFirstParty)) (r.(RequirePKCE))
  (r.(AccessTokenTTL)) (r.(RefreshTokenTTL)) (r.(IDTokenTTL)) (r.(Active))
  (r.(RequestURIs)) (r.(JWKSUri)) (r.(PostLogoutRedirectURIs)) (r.(BackchannelLogoutURI))
  (r.(BackchannelLogoutSessionRequired)) (r.(FrontchannelLogoutURI))
  (r.(FrontchannelLogoutSessionRequired)) (r.(SubjectType)) (r.(SectorIdentifierURI))
  (r.(UserinfoSignedResponseAlg)) (r.(IDTokenEncryptedResponseAlg))
  (r.(IDTokenEncryptedResponseEnc)) (r.(UserinfoEncryptedResponseAlg))
  (r.(UserinfoEncryptedResponseEnc)).
End UpdateInput.

Record CreateResponse := mkCreateResponse {
  cr_Client : OAuthClient.t;
  cr_ClientSecret : string;
  cr_HMACSecret : string
}.

Module ClientSvc.

Record Service := mkService { hasher : Hasher; hmacEncryptionKey : list Z }.

Section service.
Context `{Platform} `{NetLib} (s : Service).

Fixpoint validateRedirectURIs (uris : list string) : result unit :=
  match uris with
  | [] => Ok tt
  | u :: rest =>
      match ValidateRedirectURIScheme u with
      | Err e => Err (ErrInvalidRequest ("invalid redirect_uri " +:+ u +:+ ": " +:+ error_string e))
      | Ok _ => validateRedirectURIs rest
      end
  end.

Definition check_jwks_uri (uri : option string) : M unit :=
  match uri with
  | Some u =>
      if String.eqb u "" then ret tt
      else map_err (ValidatePublicHTTPSURL u)
             (fun e => ErrInvalidRequest ("invalid jwks_uri: " +:+ error_string e))
  | None => ret tt
  end.

Definition generateAndSealHMACSecret : M (string * list Z) :=
  guard (negb (Nat.eqb (List.length s.(hmacEncryptionKey)) 0))
    (ErrBadRequest "client_secret_jwt is not enabled on this server (auth.hmac_secret_encryption_key is unset)") ;;;
  let! (raw, encoded) := or_fail GenerateHMACSecret (ErrInternal "failed to generate hmac secret") ;;
  cipher <- or_fail (EncryptHMACSecret raw s.(hmacEncryptionKey)) (ErrInternal "failed to seal hmac secret") ;;
  ret (encoded, cipher).

(** A new secret and its hash. *)
Definition newSecret : M (string * string) :=
  secret <- or_fail (GenerateRandomString 32) (ErrInternal "failed to generate client secret") ;;
  hash <- or_fail (ask (s.(hasher).(Hash) secret)) (ErrInternal "failed to hash client secret") ;;
  ret (secret, hash).

Definition auth_method (input : CreateInput.t) : string :=
  if input.(CreateInput.IsPublic) then "none"
  else default "client_secret_basic" input.(CreateInput.TokenAuthMethod).

(** The row a registration asks for, before its secrets. *)
Definition client_of (input : CreateInput.t) : OAuthClient.t :=
  let responseTypes := if is_nil input.(CreateInput.ResponseTypes) then ["code"]
                       else input.(CreateInput.ResponseTypes) in
  let c := OAuthClient.zero
    <| OAuthClient.Name := input.(CreateInput.Name) |>
    <| OAuthClient.Description := input.(CreateInput.Description) |>
    <| OAuthClient.RedirectURIs := input.(CreateInput.RedirectURIs) |>
    <| OAuthClient.GrantTypes := input.(CreateInput.GrantTypes) |>
    <| OAuthClient.ResponseTypes := responseTypes |>
    <| OAuthClient.Scopes := input.(CreateInput.Scopes) |>
    <| OAuthClient.TokenAuthMethod := auth_method input |>
    <| OAuthClient.IsPublic := input.(CreateInput.IsPublic) |>
    <| OAuthClient.IsFirstParty := input.(CreateInput.IsFirstParty) |>
    <| OAuthClient.RequirePKCE := true |> <| OAuthClient.Active := true |> in
  let c := set_some input.(CreateInput.RequirePKCE) (fun v c => c <| OAuthClient.RequirePKCE := v |>) c in
  let c := set_some input.(CreateInput.AccessTokenTTL) (fun v c => c <| OAuthClient.AccessTokenTTL := v |>) c in
  let c := set_some input.(CreateInput.RefreshTokenTTL) (fun v c => c <| OAuthClient.RefreshTokenTTL := v |>) c in
  let c := set_some input.(CreateInput.IDTokenTTL) (fun v c => c <| OAuthClient.IDTokenTTL := v |>) c in
  let c := if is_nil input.(CreateInput.RequestURIs) then c
           else c <| OAuthClient.RequestURIs := input.(CreateInput.RequestURIs) |> in
  let c := set_some input.(CreateInput.JWKSUri) (fun v c => c <| OAuthClient.JWKSUri := Some v |>) c in
  let c := set_some input.(CreateInput.IDTokenEncryptedResponseAlg) (fun v c => c <| OAuthClient.IDTokenEncryptedResponseAlg := Some v |>) c in
  let c := set_some input.(CreateInput.IDTokenEncryptedResponseEnc) (fun v c => c <| OAuthClient.IDTokenEncryptedResponseEnc := Some v |>) c in
  let c := set_some input.(CreateInput.UserinfoEncryptedResponseAlg) (fun v c => c <| OAuthClient.UserinfoEncryptedResponseAlg := Some v |>) c in
  let c := set_some input.(CreateInput.UserinfoEncryptedResponseEnc) (fun v c => c <| OAuthClient.UserinfoEncryptedResponseEnc := Some v |>) c in
  let c := c <| OAuthClient.PostLogoutRedirectURIs := input.(CreateInput.PostLogoutRedirectURIs) |> in
  let c := set_some input.(CreateInput.BackchannelLogoutURI) (fun v c => c <| OAuthClient.BackchannelLogoutURI := Some v |>) c in
  let c := set_some input.(CreateInput.BackchannelLogoutSessionRequired) (fun v c => c <| OAuthClient.BackchannelLogoutSessionReq := v |>) c in
  let c := set_some input.(CreateInput.FrontchannelLogoutURI) (fun v c => c <| OAuthClient.FrontchannelLogoutURI := Some v |>) c in
  let c := set_some input.(CreateInput.FrontchannelLogoutSessionRequired) (fun v c => c <| OAuthClient.FrontchannelLogoutSessionReq := v |>) c in
  let c := set_some input.(CreateInput.SubjectType) (fun v c => c <| OAuthClient.SubjectType := v |>) c in
  let c := set_some input.(CreateInput.SectorIdentifierURI) (fun v c => c <| OAuthClient.SectorIdentifierURI := Some v |>) c in
  let c := set_some input.(CreateInput.UserinfoSignedResponseAlg) (fun v c => c <| OAuthClient.UserinfoSignedResponseAlg := Some v |>) c in
  c.

(** A confidential client gets a secret, of which the row keeps the hash. *)
Definition add_secret (input : CreateInput.t) (client : OAuthClient.t) : M (OAuthClient.t * string) :=
  if input.(CreateInput.IsPublic) then ret (client, "")
  else
    let! (secret, hash) := newSecret ;;
    ret (client <| OAuthClient.SecretHash := Some hash |>, secret).

(** With [client_secret_jwt] it gets an HMAC key too, which the row keeps sealed. *)
Definition add_hmac_secret (input : CreateInput.t) (client : OAuthClient.t) : M (OAuthClient.t * string) :=
  if String.eqb (auth_method input) "client_secret_jwt" then
    let! (hmacB64, sealed) := generateAndSealHMACSecret ;;
    ret (client <| OAuthClient.SecretHMACKey := sealed |>, hmacB64)
  else ret (client, "").

Definition Create (input : CreateInput.t) : M CreateResponse :=
  of_result (validateRedirectURIs input.(CreateInput.RedirectURIs)) ;;;
  check_jwks_uri input.(CreateInput.JWKSUri) ;;;
  let! (client, rawSecret) := add_secret input (client_of input) ;;
  let! (client, rawHMACSecret) := add_hmac_secret input client ;;
  client <- or_fail (ClientRepo.Create client) (ErrInternal "failed to create client") ;;
  ret (mkCreateResponse client rawSecret rawHMACSecret).

Definition GetByID (id : UUID) : M OAuthClient.t :=
  let! (client, err) := ClientRepo.FindByID id ;;
  match err, client with
  | Some _, _ => throw (ErrInternal "failed to find client")
  | None, None => throw (ErrNotFound "client not found")
  | None, Some client => ret client
  end.

Definition FindActive (id : UUID) : M (option OAuthClient.t * option error) :=
  ClientRepo.FindActiveByID id.

Definition updated (input : UpdateInput.t) (client : OAuthClient.t) : OAuthClient.t :=
  let c := client in
  let c := set_some input.(UpdateInput.Name) (fun v c => c <| OAuthClient.Name := v |>) c in
  let c := set_some input.(UpdateInput.Description) (fun v c => c <| OAuthClient.Description := Some v |>) c in
  let c := set_some input.(UpdateInput.RedirectURIs) (fun v c => c <| OAuthClient.RedirectURIs := v |>) c in
  let c := set_some input.(UpdateInput.GrantTypes) (fun v c => c <| OAuthClient.GrantTypes := v |>) c in
  let c := set_some input.(UpdateInput.ResponseTypes) (fun v c => c <| OAuthClient.ResponseTypes := v |>) c in
  let c := set_some input.(UpdateInput.Scopes) (fun v c => c <| OAuthClient.Scopes := v |>) c in
  let c := set_some input.(UpdateInput.TokenAuthMethod) (fun v c => c <| OAuthClient.TokenAuthMethod := v |>) c in
  let c := set_some input.(UpdateInput.IsFirstParty) (fun v c => c <| OAuthClient.IsFirstParty := v |>) c in
  let c := set_some input.(UpdateInput.RequirePKCE) (fun v c => c <| OAuthClient.RequirePKCE := v |>) c in
  let c := set_some input.(UpdateInput.AccessTokenTTL) (fun v c => c <| OAuthClient.AccessTokenTTL := v |>) c in
  let c := set_some input.(UpdateInput.RefreshTokenTTL) (fun v c => c <| OAuthClient.RefreshTokenTTL := v |>) c in
  let c := set_some input.(UpdateInput.IDTokenTTL) (fun v c => c <| OAuthClient.IDTokenTTL := v |>) c in
  let c := set_some input.(UpdateInput.Active) (fun v c => c <| OAuthClient.Active := v |>) c in
  let c := set_some input.(UpdateInput.RequestURIs) (fun v c => c <| OAuthClient.RequestURIs := v |>) c in
  let c := set_some input.(UpdateInput.JWKSUri) (fun v c => c <| OAuthClient.JWKSUri := Some v |>) c in
  let c := set_some input.(UpdateInput.PostLogoutRedirectURIs) (fun v c => c <| OAuthClient.PostLogoutRedirectURIs := v |>) c in
  let c := set_some input.(UpdateInput.BackchannelLogoutURI) (fun v c => c <| OAuthClient.BackchannelLogoutURI := Some v |>) c in
  let c := set_some input.(UpdateInput.BackchannelLogoutSessionRequired) (fun v c => c <| OAuthClient.BackchannelLogoutSessionReq := v |>) c in
  let c := set_some input.(UpdateInput.FrontchannelLogoutURI) (fun v c => c <| OAuthClient.FrontchannelLogoutURI := Some v |>) c in
  let c := set_some input.(UpdateInput.FrontchannelLogoutSessionRequired) (fun v c => c <| OAuthClient.FrontchannelLogoutSessionReq := v |>) c in
  let c := set_some input.(UpdateInput.SubjectType) (fun v c => c <| OAuthClient.SubjectType := v |>) c in
  let c := set_some input.(UpdateInput.SectorIdentifierURI) (fun v c => c <| OAuthClient.SectorIdentifierURI := Some v |>) c in
  let c := set_some input.(UpdateInput.UserinfoSignedResponseAlg) (fun v c => c <| OAuthClient.UserinfoSignedResponseAlg := Some v |>) c in
  let c := set_some input.(UpdateInput.IDTokenEncryptedResponseAlg) (fun v c => c <| OAuthClient.IDTokenEncryptedResponseAlg := Some v |>) c in
  let c := set_some input.(UpdateInput.IDTokenEncryptedResponseEnc) (fun v c => c <| OAuthClient.IDTokenEncryptedResponseEnc := Some v |>) c in
  let c := set_some input.(UpdateInput.UserinfoEncryptedResponseAlg) (fun v c => c <| OAuthClient.UserinfoEncryptedResponseAlg := Some v |>) c in
  let c := set_some input.(UpdateInput.UserinfoEncryptedResponseEnc) (fun v c => c <| OAuthClient.UserinfoEncryptedResponseEnc := Some v |>) c in
  c.

Definition Update (id : UUID) (input : UpdateInput.t) : M OAuthClient.t :=
  of_result (match input.(UpdateInput.RedirectURIs) with
             | Some uris => validateRedirectURIs uris
             | None => Ok tt
             end) ;;;
  check_jwks_uri input.(UpdateInput.JWKSUri) ;;;
  client <- GetByID id ;;
  or_fail (ClientRepo.Update (updated input client)) (ErrInternal "failed to update client").

Definition Delete (id : UUID) : M unit :=
  GetByID id ;;;
  or_fail (ClientRepo.Delete id) (ErrInternal "failed to delete client").

Definition RotateSecret (id : UUID) : M string :=
  client <- GetByID id ;;
  guard (negb client.(OAuthClient.IsPublic)) (ErrBadRequest "cannot rotate secret for public client") ;;;
  let! (secret, hash) := newSecret ;;
  or_fail (ClientRepo.Update (client <| OAuthClient.SecretHash := Some hash |>))
    (ErrInternal "failed to update client secret") ;;;
  ret secret.

Definition RotateHMACSecret (id : UUID) : M string :=
  client <- GetByID id ;;
  guard (String.eqb client.(OAuthClient.TokenAuthMethod) "client_secret_jwt")
    (ErrBadRequest "client is not configured for client_secret_jwt") ;;;
  let! (b64, sealed) := generateAndSealHMACSecret ;;
  or_fail (ClientRepo.Update (client <| OAuthClient.SecretHMACKey := sealed |>))
    (ErrInternal "failed to update client hmac secret") ;;;
  ret b64.

End service.
End ClientSvc.
