(* ===== verification/Dcr.v ===== *)
(** * client/dcr_handler.go: dynamic client registration

    The four operations of RFC 7591 and RFC 7592 over the client service.  A
    handler gets the header, the path parameter and the decoded body; [None] is
    a body that does not decode.  It returns the response, or the error it
    answers with. *)
From S2P Require Import Prelude.
From S2P Require Import Errors.
From S2P Require Import GoLib.
From S2P Require Import Model.
From S2P Require Import Platform.
From S2P Require Import Exec.
From S2P Require Import Crypto.
From S2P Require Import NetSafety.
From S2P Require Import GoEnc.
From S2P Require Import ClientSvc.
From Stdlib Require Import Ascii.
Local Open Scope Z_scope.

Definition ratLifetime : Z := 30 * 24 * hour.

Module DCRRequest.
(** [RequestURIs] is [None] when the member is absent or null. *)
Record t := mk {
  ClientName : string;
  RedirectURIs : list string;
  GrantTypes : list string;
  ResponseTypes : list string;
  TokenEndpointAuthMethod : string;
  Scope : string;
  PostLogoutRedirectURIs : list string;
  BackchannelLogoutURI : string;
  FrontchannelLogoutURI : string;
  JWKSUri : string;
  SubjectType : string;
  RequirePKCE : option bool;
  RequestURIs : option (list string);
  IDTokenEncryptedResponseAlg : string;
  IDTokenEncryptedResponseEnc : string;
  UserinfoEncryptedResponseAlg : string;
  UserinfoEncryptedResponseEnc : string
}.

#[global] Instance eta_t : Eta t := fun r => mk
  (r.(ClientName)) (r.(RedirectURIs)) (r.(GrantTypes)) (r.(ResponseTypes))
  (r.(TokenEndpointAuthMethod)) (r.(Scope)) (r.(PostLogoutRedirectURIs))
  (r.(BackchannelLogoutURI)) (r.(FrontchannelLogoutURI)) (r.(JWKSUri)) (r.(SubjectType))
  (r.(RequirePKCE)) (r.(RequestURIs)) (r.(IDTokenEncryptedResponseAlg))
  (r.(IDTokenEncryptedResponseEnc)) (r.(UserinfoEncryptedResponseAlg))
  (r.(UserinfoEncryptedResponseEnc)).
End DCRRequest.

Module DCRResponse.
Record t := mk {
  ClientID : string;
  ClientSecret : string;
  ClientIDIssuedAt : Z;
  ClientSecretExpiresAt : Z;
  ClientName : string;
  RedirectURIs : list string;
  GrantTypes : list string;
  ResponseTypes : list string;
  TokenEndpointAuthMethod : string;
  RequirePKCE : bool;
  RequestURIs : list string;
  IDTokenEncryptedResponseAlg : string;
  IDTokenEncryptedResponseEnc : string;
  UserinfoEncryptedResponseAlg : string;
  UserinfoEncryptedResponseEnc : string;
  RegistrationAccessToken : string
}.
End DCRResponse.

Definition supportedJWEAlgs : list string :=
  ["RSA-OAEP-256"; "ECDH-ES"; "ECDH-ES+A128KW"; "ECDH-ES+A256KW"].

Definition supportedJWEEncs : list string :=
  ["A256GCM"; "A128GCM"; "A256CBC-HS512"; "A128CBC-HS256"].

Definition validateEncryptionPair (field alg enc : string) : result unit :=
  if String.eqb alg "" && String.eqb enc "" then Ok tt
  else if String.eqb alg "" || String.eqb enc ""
  then Err (ErrInvalidRequest (field +:+ "_alg and _enc must be set together"))
  else if negb (mem alg supportedJWEAlgs)
  then Err (ErrInvalidRequest ("unsupported " +:+ field +:+ "_alg: " +:+ alg))
  else if negb (mem enc supportedJWEEncs)
  then Err (ErrInvalidRequest ("unsupported " +:+ field +:+ "_enc: " +:+ enc))
  else Ok tt.

(** The loop over the bytes: [word] is [s[start:i]] reversed. *)
Fixpoint split_scopes_from (word : list ascii) (s : string) : list string :=
  let flush := match word with
               | [] => []
               | _ => [String.string_of_list_ascii (rev word)]
               end in
  match s with
  | EmptyString => flush
  | String c s' =>
      if Ascii.eqb c " " then flush ++ split_scopes_from [] s'
      else split_scopes_from (c :: word) s'
  end.

Definition splitScopes (s : string) : list string := split_scopes_from [] s.

(** [strings.HasPrefix(auth, "Bearer ")] and [strings.TrimPrefix]. *)
Definition bearer_token (auth : string) : option string := scan_lit "Bearer " auth.

Module DCRHandler.

Record t := mk { service : ClientSvc.Service; initialAccessTokenHash : string }.

Definition SetInitialAccessToken (h : t) (rawToken : string) : t :=
  mk h.(service) (if String.eqb rawToken "" then "" else HashToken rawToken).

Section handler.
Context `{Platform} `{NetLib} (h : t).

Definition checkInitialAccessToken (auth : string) : result unit :=
  if String.eqb h.(initialAccessTokenHash) "" then Ok tt
  else match bearer_token auth with
       | None => Err (ErrUnauthorized "registration requires an initial access token")
       | Some raw =>
           if String.eqb (HashToken raw) h.(initialAccessTokenHash) then Ok tt
           else Err (ErrUnauthorized "invalid initial access token")
       end.

Definition non_empty (s : string) : option string := if String.eqb s "" then None else Some s.

(** The answer, with a new registration access token when there is one. *)
Definition response (c : OAuthClient.t) (secret : string) (issued : Z) (rat : string) : DCRResponse.t :=
  DCRResponse.mk (uuid_string c.(OAuthClient.ID)) secret issued 0
    c.(OAuthClient.Name) c.(OAuthClient.RedirectURIs) c.(OAuthClient.GrantTypes)
    c.(OAuthClient.ResponseTypes) c.(OAuthClient.TokenAuthMethod) c.(OAuthClient.RequirePKCE)
    c.(OAuthClient.RequestURIs)
    (default "" c.(OAuthClient.IDTokenEncryptedResponseAlg))
    (default "" c.(OAuthClient.IDTokenEncryptedResponseEnc))
    (default "" c.(OAuthClient.UserinfoEncryptedResponseAlg))
    (default "" c.(OAuthClient.UserinfoEncryptedResponseEnc)) rat.

Definition validateEncryption (req : DCRRequest.t) : M unit :=
  of_result (validateEncryptionPair "id_token_encrypted_response"
    req.(DCRRequest.IDTokenEncryptedResponseAlg) req.(DCRRequest.IDTokenEncryptedResponseEnc)) ;;;
  of_result (validateEncryptionPair "userinfo_encrypted_response"
    req.(DCRRequest.UserinfoEncryptedResponseAlg) req.(DCRRequest.UserinfoEncryptedResponseEnc)).

(** What the registration asks of the client service. *)
Definition input_of (req : DCRRequest.t) : CreateInput.t :=
  let authMethod := if String.eqb req.(DCRRequest.TokenEndpointAuthMethod) ""
                    then "client_secret_basic" else req.(DCRRequest.TokenEndpointAuthMethod) in
  let enc_of alg enc := if String.eqb alg "" then None else Some enc in
  CreateInput.mk req.(DCRRequest.ClientName) None req.(DCRRequest.RedirectURIs)
    (if is_nil req.(DCRRequest.GrantTypes) then ["authorization_code"] else req.(DCRRequest.GrantTypes))
    (if is_nil req.(DCRRequest.ResponseTypes) then ["code"] else req.(DCRRequest.ResponseTypes))
    (if String.eqb req.(DCRRequest.Scope) "" then [] else splitScopes req.(DCRRequest.Scope))
    (Some authMethod) (String.eqb authMethod "none") false req.(DCRRequest.RequirePKCE)
    None None None (default [] req.(DCRRequest.RequestURIs)) (non_empty req.(DCRRequest.JWKSUri))
    [] None None None None None None None
    (non_empty req.(DCRRequest.IDTokenEncryptedResponseAlg))
    (enc_of req.(DCRRequest.IDTokenEncryptedResponseAlg) req.(DCRRequest.IDTokenEncryptedResponseEnc))
    (non_empty req.(DCRRequest.UserinfoEncryptedResponseAlg))
    (enc_of req.(DCRRequest.UserinfoEncryptedResponseAlg) req.(DCRRequest.UserinfoEncryptedResponseEnc)).

(** [rawRAT, ratHash, err := crypto.GenerateOpaqueToken()], and the client with
    its hash and expiry when there is one. *)
Definition issue_rat (c : OAuthClient.t) : M (string * option OAuthClient.t) :=
  rat <- opt GenerateOpaqueToken ;;
  match rat with
  | Some (raw, hash) =>
      now <- wall_now ;;
      ret (raw, Some (c <| OAuthClient.RegistrationAccessTokenHash := Some hash |>
                        <| OAuthClient.RegistrationAccessTokenExpiresAt := Some (time_add now ratLifetime) |>))
  | None => ret ("", None)
  end.

Definition Register (auth : string) (body : option DCRRequest.t) : M DCRResponse.t :=
  of_result (checkInitialAccessToken auth) ;;;
  match body with
  | None => throw (ErrInvalidRequest "invalid request body")
  | Some req =>
      guard (negb (String.eqb req.(DCRRequest.ClientName) "")) (ErrInvalidRequest "client_name is required") ;;;
      guard (negb (is_nil req.(DCRRequest.RedirectURIs))) (ErrInvalidRequest "redirect_uris is required") ;;;
      validateEncryption req ;;;
      result <- ClientSvc.Create h.(service) (input_of req) ;;
      let! (rawRAT, client) := issue_rat result.(cr_Client) ;;
      match client with
      | Some c => ignore (ClientRepo.Update c)
      | None => ret tt
      end ;;;
      now <- wall_now ;;
      ret (response (default result.(cr_Client) client) result.(cr_ClientSecret) (time_unix now) rawRAT)
  end.

Definition authenticateRAT (client_id auth : string) : M OAuthClient.t :=
  match uuid_parse client_id with
  | None => throw (ErrInvalidRequest "invalid client_id")
  | Some clientID =>
      match bearer_token auth with
      | None => throw (ErrUnauthorized "missing registration_access_token")
      | Some rawToken =>
          let! (client, err) := ClientRepo.FindByID clientID ;;
          match err, client with
          | None, Some client =>
              guard (opt_str_eqb client.(OAuthClient.RegistrationAccessTokenHash) (HashToken rawToken))
                (ErrUnauthorized "invalid registration_access_token") ;;;
              now <- wall_now ;;
              guard (match client.(OAuthClient.RegistrationAccessTokenExpiresAt) with
                     | Some exp => negb (time_before exp now)
                     | None => false
                     end)
                (ErrUnauthorized "registration_access_token expired; rotate via PUT /register") ;;;
              ret client
          | _, _ => throw (ErrNotFound "client not found")
          end
      end
  end.

Definition ReadRegistration (client_id auth : string) : M DCRResponse.t :=
  client <- authenticateRAT client_id auth ;;
  ret (response client "" (time_unix client.(OAuthClient.CreatedAt)) "").

(** The fields before the check of the encryption pairs. *)
Definition updated_metadata (req : DCRRequest.t) (c : OAuthClient.t) : OAuthClient.t :=
  let c := if is_nil req.(DCRRequest.GrantTypes) then c
           else c <| OAuthClient.GrantTypes := req.(DCRRequest.GrantTypes) |> in
  let c := if is_nil req.(DCRRequest.ResponseTypes) then c
           else c <| OAuthClient.ResponseTypes := req.(DCRRequest.ResponseTypes) |> in
  let c := set_some (non_empty req.(DCRRequest.TokenEndpointAuthMethod))
             (fun v c => c <| OAuthClient.TokenAuthMethod := v |>) c in
  let c := set_some (non_empty req.(DCRRequest.Scope))
             (fun v c => c <| OAuthClient.Scopes := splitScopes v |>) c in
  let c := set_some req.(DCRRequest.RequirePKCE) (fun v c => c <| OAuthClient.RequirePKCE := v |>) c in
  set_some req.(DCRRequest.RequestURIs) (fun v c => c <| OAuthClient.RequestURIs := v |>) c.

Definition updated_encryption (req : DCRRequest.t) (c : OAuthClient.t) : OAuthClient.t :=
  let c := set_some (non_empty req.(DCRRequest.IDTokenEncryptedResponseAlg)) (fun v c =>
             c <| OAuthClient.IDTokenEncryptedResponseAlg := Some v |>
               <| OAuthClient.IDTokenEncryptedResponseEnc := Some req.(DCRRequest.IDTokenEncryptedResponseEnc) |>) c in
  set_some (non_empty req.(DCRRequest.UserinfoEncryptedResponseAlg)) (fun v c =>
    c <| OAuthClient.UserinfoEncryptedResponseAlg := Some v |>
      <| OAuthClient.UserinfoEncryptedResponseEnc := Some req.(DCRRequest.UserinfoEncryptedResponseEnc) |>) c.

(** The URIs, checked before they are set. *)
Definition set_redirects (req : DCRRequest.t) (client : OAuthClient.t) : M OAuthClient.t :=
  if is_nil req.(DCRRequest.RedirectURIs) then ret client
  else of_result (ClientSvc.validateRedirectURIs req.(DCRRequest.RedirectURIs)) ;;;
       ret (client <| OAuthClient.RedirectURIs := req.(DCRRequest.RedirectURIs) |>).

Definition set_jwks (req : DCRRequest.t) (client : OAuthClient.t) : M OAuthClient.t :=
  match non_empty req.(DCRRequest.JWKSUri) with
  | None => ret client
  | Some uri =>
      ClientSvc.check_jwks_uri (Some uri) ;;;
      ret (client <| OAuthClient.JWKSUri := Some uri |>)
  end.

Definition UpdateRegistration (client_id auth : string) (body : option DCRRequest.t) : M DCRResponse.t :=
  client <- authenticateRAT client_id auth ;;
  match body with
  | None => throw (ErrInvalidRequest "invalid request body")
  | Some req =>
      let client := set_some (non_empty req.(DCRRequest.ClientName))
                      (fun v c => c <| OAuthClient.Name := v |>) client in
      client <- set_redirects req client ;;
      let client := updated_metadata req client in
      validateEncryption req ;;;
      let client := updated_encryption req client in
      client <- set_jwks req client ;;
      let! (newRawRAT, rotated) := issue_rat client ;;
      client <- or_fail (ClientRepo.Update (default client rotated)) (ErrInternal "failed to update client") ;;
      ret (response client "" (time_unix client.(OAuthClient.CreatedAt)) newRawRAT)
  end.

Definition DeleteRegistration (client_id auth : string) : M unit :=
  client <- authenticateRAT client_id auth ;;
  or_fail (ClientRepo.Delete client.(OAuthClient.ID)) (ErrInternal "failed to delete client").

End handler.
End DCRHandler.
