(* ===== verification/ClientFacts.v ===== *)
(** * Theorems on the client registry

    What every stored client satisfies, whatever calls the admin API and
    dynamic registration make; what deleting a client takes with it; and what a
    registration access token opens. *)
From S2P Require Import Prelude.
From S2P Require Import Errors.
From S2P Require Import GoLib.
From S2P Require Import GoNet.
From S2P Require Import Model.
From S2P Require Import Platform.
From S2P Require Import Config.
From S2P Require Import Exec.
From S2P Require Import Crypto.
From S2P Require Import Scopes.
From S2P Require Import UserSvc.
From S2P Require Import NetSafety.
From S2P Require Import GoEnc.
From S2P Require Import Aes.
From S2P Require Import ClientSvc.
From S2P Require Import Dcr.
From Stdlib Require Import Ascii.
Local Open Scope Z_scope.

Module ClientFacts.

(** The row of a client: under its ID, with a secret exactly when it is
    confidential, and every redirect URI of an allowed form. *)
Definition redirect_ok (raw : string) : Prop :=
  exists u, url_Parse raw = Some u /\ NetFacts.redirect_allowed u.

Definition client_wf (k : UUID) (c : OAuthClient.t) : Prop :=
  c.(OAuthClient.ID) = k /\
  (c.(OAuthClient.IsPublic) = true <-> c.(OAuthClient.SecretHash) = None) /\
  Forall redirect_ok c.(OAuthClient.RedirectURIs).

Definition clients_wf (db : DB) : Prop :=
  map_Forall client_wf db.(oauth_clients).

Lemma clients_wf_insert db row :
  clients_wf db -> client_wf row.(OAuthClient.ID) row ->
  clients_wf (db <| oauth_clients ::= insert row.(OAuthClient.ID) row |>).
Proof. intros Hdb Hrow. by apply map_Forall_insert_2. Qed.

Section facts.
Context `{Platform} `{NetLib} (s : ClientSvc.Service).
Import ClientSvc.

Lemma validateRedirectURIs_iff uris :
  validateRedirectURIs uris = Ok tt <-> Forall redirect_ok uris.
Proof.
  induction uris as [|u uris IH]; simpl; [done|]. rewrite Forall_cons, <-IH.
  unfold redirect_ok. rewrite <-NetFacts.redirect_scheme_iff.
  destruct (ValidateRedirectURIScheme u) as [[]|e]; naive_solver.
Qed.

#[export] Instance check_jwks_uri_read_only uri : ReadOnly (check_jwks_uri uri).
Proof.
  unfold check_jwks_uri. solve_preserves ltac:(apply NetFacts.ValidatePublicHTTPSURL_read_only).
Qed.

(** ** The steps of the service *)

Lemma wp_GetByID id env st (Q : result OAuthClient.t -> State -> Prop) :
  (forall e n, env.(env_fail) st.(st_step) = true \/ st.(st_db).(oauth_clients) !! id = None ->
     Q (Err e) (mkState st.(st_db) n)) ->
  (forall c n, st.(st_db).(oauth_clients) !! id = Some c -> Q (Ok c) (mkState st.(st_db) n)) ->
  wp (GetByID id) Q env st.
Proof.
  intros He Hok. unfold GetByID, ClientRepo.FindByID. do 2 wp_step; [by wp_steps; apply He; left|].
  wp_steps; [by apply Hok | by apply He; right].
Qed.

Lemma wp_repo_Update c env st (Q : result OAuthClient.t -> State -> Prop) :
  (forall e n, env.(env_fail) st.(st_step) = true -> Q (Err e) (mkState st.(st_db) n)) ->
  (forall n, let row := c <| OAuthClient.UpdatedAt := env.(env_wall) |> in
     Q (Ok row) (mkState (st.(st_db) <| oauth_clients ::= insert c.(OAuthClient.ID) row |>) n)) ->
  wp (ClientRepo.Update c) Q env st.
Proof. intros He Hok. unfold ClientRepo.Update. wp_steps; [by apply He | apply Hok]. Qed.

Lemma wp_newSecret env st (Q : result (string * string) -> State -> Prop) :
  (forall e n, Q (Err e) (mkState st.(st_db) n)) ->
  (forall secret hash n n', secret <> "" -> s.(hasher).(UserSvc.Hash) secret env n' st.(st_db) = Ok hash ->
     Q (Ok (secret, hash)) (mkState st.(st_db) n)) ->
  wp (newSecret s) Q env st.
Proof.
  intros He Hok. unfold newSecret. do 2 wp_step.
  apply wp_GenerateRandomString_nonempty; [intros e; apply He|]. intros raw Hraw. do 3 wp_step. wp_simpl.
  destruct (UserSvc.Hash _ raw env _ _) as [hash|e] eqn:Hh; [|apply He]. wp_steps. by eapply Hok.
Qed.

#[export] Instance generateAndSealHMACSecret_read_only : ReadOnly (generateAndSealHMACSecret s).
Proof.
  unfold generateAndSealHMACSecret, GenerateHMACSecret, EncryptHMACSecret.
  solve_preserves ltac:(apply _).
Qed.

(** An operation that keeps the clients well formed, whatever its outcome; the
    tactic goes through the reads. *)
Abbreviation safe m := (spec clients_wf m (fun _ _ _ db' => clients_wf db')).

Lemma safe_keeps {A} (m : M A) : safe m -> Preserves (keeps clients_wf) m.
Proof. intros Hm env st Hdb. exact (Hm env st Hdb). Qed.

(** Storing a well-formed row. *)
Lemma safe_repo_Update c (Q : result OAuthClient.t -> State -> Prop) env st :
  clients_wf st.(st_db) -> client_wf c.(OAuthClient.ID) c ->
  (forall r st', clients_wf st'.(st_db) -> Q r st') ->
  wp (ClientRepo.Update c) Q env st.
Proof.
  intros Hdb Hc HQ. apply wp_repo_Update; intros; apply HQ; [done|].
  exact (clients_wf_insert st.(st_db) row Hdb Hc).
Qed.

(** The row a registration asks for is well formed but for its secret. *)
Definition drafted (input : CreateInput.t) (c : OAuthClient.t) : Prop :=
  c.(OAuthClient.IsPublic) = input.(CreateInput.IsPublic) /\
  c.(OAuthClient.SecretHash) = None /\
  c.(OAuthClient.RedirectURIs) = input.(CreateInput.RedirectURIs).

Lemma client_of_drafted input : drafted input (client_of input).
Proof.
  unfold client_of. cbv zeta. set_some_chain.
  assert (Hlogout : forall v c, drafted input c -> drafted input (c <| OAuthClient.PostLogoutRedirectURIs := v |>))
    by (intros v c Hc; exact Hc).
  assert (Hreq : forall v c, drafted input c -> drafted input (c <| OAuthClient.RequestURIs := v |>))
    by (intros v c Hc; exact Hc).
  apply Hlogout. set_some_chain.
  destruct (is_nil (CreateInput.RequestURIs input)); [|apply Hreq];
    set_some_chain; (split; [reflexivity | split; reflexivity]).
Qed.

Lemma with_defaults_wf k c : client_wf k c -> client_wf k (ClientRepo.with_defaults c).
Proof. intros Hc. unfold ClientRepo.with_defaults. by repeat case_match. Qed.

Lemma updated_wf k input c :
  (forall uris, input.(UpdateInput.RedirectURIs) = Some uris -> Forall redirect_ok uris) ->
  client_wf k c -> client_wf k (updated input c).
Proof.
  intros Hu Hc. unfold updated. cbv zeta. set_some_chain.
  lazymatch goal with |- ?P (set_some ?o ?f ?r) => apply (set_some_keeps P o f r) end; [|by set_some_chain].
  intros uris c' Huris (Hk & Hs & _). split_and!; [done..|by apply Hu].
Qed.

(** ** The operations keep the clients well formed *)

Lemma safe_repo_Create c env st (Q : result OAuthClient.t -> State -> Prop) :
  clients_wf st.(st_db) -> client_wf c.(OAuthClient.ID) c ->
  (forall e st', clients_wf st'.(st_db) -> Q (Err e) st') ->
  (forall row st', clients_wf st'.(st_db) -> client_wf row.(OAuthClient.ID) row -> Q (Ok row) st') ->
  wp (ClientRepo.Create c) Q env st.
Proof.
  intros Hdb Hc He Hok. unfold ClientRepo.Create. wp_step. apply wp_BeforeCreate; [intros; by apply He|].
  intros id n _. wp_simpl. do 2 wp_step. wp_simpl. wp_step.
  set (row := (ClientRepo.with_defaults c) <| OAuthClient.ID := id |>
    <| OAuthClient.CreatedAt ::= _ |> <| OAuthClient.UpdatedAt ::= _ |>).
  assert (Hrow : client_wf row.(OAuthClient.ID) row).
  { apply with_defaults_wf in Hc. destruct Hc as (_ & Hs & Hu).
    unfold row. generalize dependent (ClientRepo.with_defaults c). clear. intros c' Hs Hu.
    split_and!; [reflexivity | exact Hs | exact Hu]. }
  wp_steps; [by apply He|]. apply Hok; [|done]. exact (clients_wf_insert st.(st_db) row Hdb Hrow).
Qed.

Lemma safe_add_secret input c env st (Q : result (OAuthClient.t * string) -> State -> Prop) :
  drafted input c -> Forall redirect_ok input.(CreateInput.RedirectURIs) ->
  (forall e n, Q (Err e) (mkState st.(st_db) n)) ->
  (forall c' secret n, client_wf c'.(OAuthClient.ID) c' -> Q (Ok (c', secret)) (mkState st.(st_db) n)) ->
  wp (add_secret s input c) Q env st.
Proof.
  intros (Hp & Hs & Hr) Hu He Hok. unfold add_secret. destruct st as [db n0].
  rewrite <-Hr in Hu. destruct (CreateInput.IsPublic input) eqn:Hi; wp_step.
  - apply Hok. unfold client_wf. by rewrite Hp, Hs.
  - apply wp_newSecret; [intros; apply He|]. intros secret hash n n' _ _. wp_step. apply Hok.
    split_and!; [done| |done]. change ((OAuthClient.IsPublic c = true) <-> (Some hash = None)). by rewrite Hp.
Qed.

Lemma safe_add_hmac_secret input c env st (Q : result (OAuthClient.t * string) -> State -> Prop) :
  client_wf c.(OAuthClient.ID) c ->
  (forall e n, Q (Err e) (mkState st.(st_db) n)) ->
  (forall c' secret n, client_wf c'.(OAuthClient.ID) c' -> Q (Ok (c', secret)) (mkState st.(st_db) n)) ->
  wp (add_hmac_secret s input c) Q env st.
Proof.
  intros Hc He Hok. unfold add_hmac_secret. destruct st as [db n0].
  destruct (String.eqb _ _); wp_step; [|by apply Hok].
  apply wp_read_only; [apply _|]. intros [[hmac sealed]|e] n'; [|by apply He]. wp_steps. by apply Hok.
Qed.

Lemma safe_Create input env st (Q : result CreateResponse -> State -> Prop) :
  clients_wf st.(st_db) ->
  (forall e st', clients_wf st'.(st_db) -> Q (Err e) st') ->
  (forall resp st', clients_wf st'.(st_db) ->
     client_wf (cr_Client resp).(OAuthClient.ID) (cr_Client resp) -> Q (Ok resp) st') ->
  wp (Create s input) Q env st.
Proof.
  intros Hdb He Hok. unfold Create. do 2 wp_step. destruct (validateRedirectURIs _) as [[]|e] eqn:Hu;
    [|by apply He]. apply validateRedirectURIs_iff in Hu. wp_simpl. wp_step.
  apply wp_read_only; [apply _|]. intros [[]|e] n; [|by apply He]. wp_step.
  apply safe_add_secret; [apply client_of_drafted|done|intros; by apply He|]. intros c secret n1 Hc.
  wp_simpl. wp_step. apply safe_add_hmac_secret; [done|intros; by apply He|]. intros c' hmac n2 Hc'.
  wp_simpl. do 2 wp_step. apply safe_repo_Create; [done|done|intros; by apply He|]. intros row st' Hst Hrow. wp_step.
  by apply Hok.
Qed.

Lemma safe_Update id input : safe (Update id input).
Proof.
  intros env st Hdb. unfold Update. do 2 wp_step.
  destruct (match UpdateInput.RedirectURIs input with Some uris => _ | None => _ end) as [[]|e] eqn:Hu; [|done].
  wp_step. apply wp_read_only; [apply _|]. intros [[]|e] n; [|done]. wp_step.
  apply wp_GetByID; [done|]. intros c n' Hc. wp_simpl. wp_step. apply safe_repo_Update; [done| |by intros []].
  specialize (Hdb id c Hc). destruct (updated_wf id input c) as (Hid & Hrest); [|done|].
  - intros uris Hi. rewrite Hi in Hu. by apply validateRedirectURIs_iff.
  - by split.
Qed.

Lemma clients_wf_without id db : clients_wf db -> clients_wf (ClientRepo.without_client id db).
Proof. apply map_Forall_delete. Qed.

Lemma safe_repo_Delete id : safe (ClientRepo.Delete id).
Proof.
  intros env st Hdb. unfold ClientRepo.Delete. apply wp_stmt; [done|]. intros db' _.
  destruct (_ && _); [done|]. intros [= <-]. by apply clients_wf_without.
Qed.

Lemma safe_Delete id : safe (Delete id).
Proof.
  intros env st Hdb. unfold Delete. wp_step. apply wp_GetByID; [done|]. intros c n Hc. wp_simpl.
  wp_step. eapply wp_mono; [|by apply (safe_repo_Delete id env)]. by intros [].
Qed.

Lemma safe_RotateSecret id : safe (RotateSecret s id).
Proof.
  intros env st Hdb. unfold RotateSecret. wp_step. apply wp_GetByID; [done|]. intros c n Hc. wp_simpl.
  wp_step. apply wp_guard; [intros Hp|done]. apply negb_true_iff in Hp. wp_simpl. wp_step.
  apply wp_newSecret; [done|]. intros secret hash n1 n2 _ _. wp_simpl. do 2 wp_step.
  destruct (Hdb id c Hc) as (Hid & Hs & Hu). apply safe_repo_Update; [done| |by intros []].
  split_and!; [done| |done]. change ((OAuthClient.IsPublic c = true) <-> (Some hash = None)). by rewrite Hp.
Qed.

Lemma safe_RotateHMACSecret id : safe (RotateHMACSecret s id).
Proof.
  intros env st Hdb. unfold RotateHMACSecret. wp_step. apply wp_GetByID; [done|]. intros c n Hc. wp_simpl.
  wp_step. apply wp_guard; [intros Hp|done]. wp_simpl. wp_step.
  apply wp_read_only; [apply _|]. intros [[b64 sealed]|e] n'; [|done]. do 2 wp_step.
  destruct (Hdb id c Hc) as (Hid & Hs & Hu). apply safe_repo_Update; [done|by split_and!|by intros []].
Qed.

End facts.

(** ** Dynamic registration *)
Section dcr.
Context `{Platform} `{NetLib} (h : DCRHandler.t).
Import DCRHandler.
Abbreviation safe m := (spec clients_wf m (fun _ _ _ db' => clients_wf db')).

#[export] Instance validateEncryption_read_only req : ReadOnly (validateEncryption req).
Proof. unfold validateEncryption. solve_preserves ltac:(apply _). Qed.

(** A caller that passes shows the token whose digest the row holds, before its
    expiry. *)
Definition holds_rat (db : DB) (now : Z) (client_id auth : string) (c : OAuthClient.t) : Prop :=
  exists id raw exp, uuid_parse client_id = Some id /\ bearer_token auth = Some raw /\
    db.(oauth_clients) !! id = Some c /\
    c.(OAuthClient.RegistrationAccessTokenHash) = Some (HashToken raw) /\
    c.(OAuthClient.RegistrationAccessTokenExpiresAt) = Some exp /\ now <= exp.

Lemma wp_authenticateRAT client_id auth env st (Q : result OAuthClient.t -> State -> Prop) :
  (forall e n, (no_faults env -> forall c, ~ holds_rat st.(st_db) env.(env_wall) client_id auth c) ->
     Q (Err e) (mkState st.(st_db) n)) ->
  (forall c n, holds_rat st.(st_db) env.(env_wall) client_id auth c -> Q (Ok c) (mkState st.(st_db) n)) ->
  wp (authenticateRAT client_id auth) Q env st.
Proof.
  intros He Hok. unfold authenticateRAT, ClientRepo.FindByID. destruct st as [db n0].
  destruct (uuid_parse client_id) as [id|] eqn:Hid; [|wp_step; apply He].
  2: { intros _ c (id & raw & exp & Hid' & _). congruence. }
  destruct (bearer_token auth) as [raw|] eqn:Hraw; [|wp_step; apply He].
  2: { intros _ c (id' & raw & exp & _ & Hraw' & _). congruence. }
  do 2 wp_step; [wp_steps; apply He; intros Hnf; exfalso; specialize (Hnf n0); simpl in *; congruence|].
  wp_simpl. destruct (oauth_clients db !! id) as [c|] eqn:Hc.
  2: { wp_steps. apply He. intros _ c (id' & raw' & exp & Hid' & _ & Hc' & _). simpl in *. congruence. }
  wp_step. apply wp_guard; intros Hh; wp_simpl.
  2: { apply He. intros _ c' (id' & raw' & exp & Hid' & Hraw' & Hc' & Hh' & _). simpl in *. simplify_eq.
       rewrite Hh' in Hh. simpl in Hh. by rewrite String.eqb_refl in Hh. }
  do 2 wp_step. wp_simpl. wp_step. apply wp_guard; intros Hx; wp_simpl.
  2: { apply He. intros _ c' (id' & raw' & exp & Hid' & Hraw' & Hc' & Hh' & Hx' & Hlt). simpl in *. simplify_eq.
       rewrite Hx' in Hx. unfold time_before in Hx. bool_simpl. lia. }
  wp_step. apply Hok. destruct (OAuthClient.RegistrationAccessTokenExpiresAt c) as [exp|] eqn:Hexp; [|done].
  unfold time_before in Hx. unfold opt_str_eqb in Hh. destruct (OAuthClient.RegistrationAccessTokenHash c) eqn:Hrh; [|done].
  bool_simpl. subst. by exists id, raw, exp.
Qed.

Lemma wp_issue_rat c env st (Q : result (string * option OAuthClient.t) -> State -> Prop) :
  (forall n, Q (Ok ("", None)) (mkState st.(st_db) n)) ->
  (forall raw n, Q (Ok (raw, Some (c <| OAuthClient.RegistrationAccessTokenHash := Some (HashToken raw) |>
       <| OAuthClient.RegistrationAccessTokenExpiresAt := Some (time_add env.(env_wall) ratLifetime) |>)))
     (mkState st.(st_db) n)) ->
  wp (issue_rat c) Q env st.
Proof.
  intros Hno Hok. unfold issue_rat. do 2 wp_step.
  apply wp_GenerateOpaqueToken; [intros e | intros raw _ _]; wp_steps; [apply Hno | apply Hok].
Qed.

Lemma safe_Register auth body : safe (Register h auth body).
Proof.
  intros env st Hdb. unfold Register. do 2 wp_step.
  destruct (checkInitialAccessToken h auth) as [[]|e]; [|done]. wp_simpl.
  destruct body as [req|]; [|done]. do 2 (wp_step; wp_step; [|done]). wp_step.
  apply wp_read_only; [apply _|]. intros [[]|e] n; [|done]. wp_step. apply safe_Create; [done|done|].
  intros resp st' Hst Hc. wp_simpl. wp_step. apply wp_issue_rat; [by intros; wp_steps|].
  intros raw n'. wp_simpl. wp_step. wp_step. apply safe_repo_Update; [done|exact Hc|].
  intros r st'' Hst''. by wp_steps.
Qed.

(** What the holder of a registration access token cannot change. *)
Definition fixed (c : OAuthClient.t) :=
  (c.(OAuthClient.ID), c.(OAuthClient.CreatedAt), c.(OAuthClient.SecretHash), c.(OAuthClient.SecretHMACKey),
   c.(OAuthClient.IsPublic), c.(OAuthClient.IsFirstParty), c.(OAuthClient.Active)).

(** An edit of the stored row [c0]. *)
Definition edit_of (c0 c : OAuthClient.t) : Prop :=
  fixed c = fixed c0 /\ Forall redirect_ok c.(OAuthClient.RedirectURIs).

Lemma edit_of_wf k c0 c : client_wf k c0 -> edit_of c0 c -> client_wf k c.
Proof. intros (Hk & Hs & _) [[= Hid _ Hsec _ Hp _ _] Hr]. unfold client_wf. by rewrite Hid, Hsec, Hp. Qed.

Lemma updated_metadata_edit c0 req c : edit_of c0 c -> edit_of c0 (updated_metadata req c).
Proof.
  intros Hc. unfold updated_metadata. cbv zeta. set_some_chain.
  destruct (is_nil (DCRRequest.GrantTypes req)), (is_nil (DCRRequest.ResponseTypes req)); exact Hc.
Qed.

Lemma updated_encryption_edit c0 req c : edit_of c0 c -> edit_of c0 (updated_encryption req c).
Proof. intros Hc. unfold updated_encryption. cbv zeta. by set_some_chain. Qed.

Lemma wp_set_redirects c0 req c env st (Q : result OAuthClient.t -> State -> Prop) :
  edit_of c0 c -> (forall e n, Q (Err e) (mkState st.(st_db) n)) ->
  (forall c' n, edit_of c0 c' -> Q (Ok c') (mkState st.(st_db) n)) ->
  wp (set_redirects req c) Q env st.
Proof.
  intros Hc He Hok. unfold set_redirects. destruct st as [db n]. simpl in *.
  destruct (is_nil _); [wp_step; by apply Hok|]. do 2 wp_step.
  destruct (ClientSvc.validateRedirectURIs _) as [[]|e] eqn:Hu; [|apply He]. wp_step.
  apply validateRedirectURIs_iff in Hu. apply Hok. destruct Hc as (Hk & _). by split.
Qed.

Lemma wp_set_jwks c0 req c env st (Q : result OAuthClient.t -> State -> Prop) :
  edit_of c0 c -> (forall e n, Q (Err e) (mkState st.(st_db) n)) ->
  (forall c' n, edit_of c0 c' -> Q (Ok c') (mkState st.(st_db) n)) ->
  wp (set_jwks req c) Q env st.
Proof.
  intros Hc He Hok. unfold set_jwks. destruct st as [db n]. simpl in *.
  destruct (non_empty _) as [uri|]; [|wp_step; by apply Hok].
  apply wp_bind, wp_read_only; [apply (check_jwks_uri_read_only (Some uri))|].
  intros [[]|e] n'; [|apply He]. wp_step. by apply Hok.
Qed.

(** The token handed out is the one the row now holds, for thirty days. *)
Definition rat_issued (now : Z) (rat : string) (c : OAuthClient.t) : Prop :=
  rat = "" \/ (c.(OAuthClient.RegistrationAccessTokenHash) = Some (HashToken rat) /\
               c.(OAuthClient.RegistrationAccessTokenExpiresAt) = Some (now + 30 * 24 * hour)).

Lemma wp_UpdateRegistration client_id auth body env st (Q : result DCRResponse.t -> State -> Prop) :
  clients_wf st.(st_db) ->
  (forall e n, Q (Err e) (mkState st.(st_db) n)) ->
  (forall c c' issued rat n, holds_rat st.(st_db) env.(env_wall) client_id auth c -> edit_of c c' ->
     rat_issued env.(env_wall) rat c' ->
     Q (Ok (response c' "" issued rat))
       (mkState (st.(st_db) <| oauth_clients ::= insert c.(OAuthClient.ID) c' |>) n)) ->
  wp (UpdateRegistration client_id auth body) Q env st.
Proof.
  intros Hdb He Hok. unfold UpdateRegistration. wp_step. apply wp_authenticateRAT; [intros; apply He|].
  intros c n Hrat. pose proof Hrat as (id & raw & exp & _ & _ & Hc & _).
  assert (Hwf : edit_of c c) by (split; [done|]; apply (Hdb id c Hc)).
  wp_simpl. destruct body as [req|]; [|apply He]. cbv zeta. wp_step.
  apply (wp_set_redirects c); [by set_some_chain|intros; apply He|]. intros c2 n2 Hc2. wp_simpl. wp_step.
  apply wp_read_only; [apply _|]. intros [[]|e] n3; [|apply He]. wp_step.
  apply (wp_set_jwks c); [by apply updated_encryption_edit, updated_metadata_edit|intros; apply He|].
  intros c4 n4 Hc4. wp_simpl. wp_step.
  assert (Hid : c4.(OAuthClient.ID) = c.(OAuthClient.ID)) by by destruct Hc4 as [[= Hid] _].
  apply wp_issue_rat; intros; wp_simpl; do 2 wp_step; (apply wp_repo_Update; [intros; apply He|]);
    intros n6 row; wp_simpl; wp_step; unfold row; clear row.
  all: match goal with |- _ (Ok (response ?c' _ ?i ?r)) (mkState _ ?n) => specialize (Hok c c' i r n Hrat) end.
  all: rewrite <-Hid in Hok; apply Hok; [exact Hc4|].
  - by left.
  - by right.
Qed.

Lemma safe_UpdateRegistration client_id auth body : safe (UpdateRegistration client_id auth body).
Proof.
  intros env st Hdb. apply wp_UpdateRegistration; [done|done|].
  intros c c' issued rat n (id & raw & exp & _ & _ & Hc & _) He _. specialize (Hdb id c Hc) as Hwf.
  assert (c.(OAuthClient.ID) = id) as -> by apply Hwf.
  apply map_Forall_insert_2; [by eapply edit_of_wf | done].
Qed.

Lemma safe_DeleteRegistration client_id auth : safe (DeleteRegistration client_id auth).
Proof.
  intros env st Hdb. unfold DeleteRegistration. wp_step. apply wp_authenticateRAT; [done|].
  intros c n _. do 2 wp_step. eapply wp_mono; [|by apply (safe_repo_Delete c.(OAuthClient.ID) env)]. by intros [].
Qed.
(** ** Theorems *)

(** A call of the admin API or of dynamic registration. *)
Inductive command :=
| CCreate (input : CreateInput.t)
| CUpdate (id : UUID) (input : UpdateInput.t)
| CDelete (id : UUID)
| CRotateSecret (id : UUID)
| CRotateHMACSecret (id : UUID)
| CRegister (auth : string) (body : option DCRRequest.t)
| CRead (client_id auth : string)
| CPut (client_id auth : string) (body : option DCRRequest.t)
| CDeregister (client_id auth : string).

Definition perform (c : command) : M unit :=
  let s := h.(service) in
  match c with
  | CCreate input => drop (ClientSvc.Create s input)
  | CUpdate id input => drop (ClientSvc.Update id input)
  | CDelete id => ClientSvc.Delete id
  | CRotateSecret id => drop (ClientSvc.RotateSecret s id)
  | CRotateHMACSecret id => drop (ClientSvc.RotateHMACSecret s id)
  | CRegister auth body => drop (Register h auth body)
  | CRead client_id auth => drop (ReadRegistration client_id auth)
  | CPut client_id auth body => drop (UpdateRegistration client_id auth body)
  | CDeregister client_id auth => DeleteRegistration client_id auth
  end.

#[export] Instance authenticateRAT_read_only client_id auth : ReadOnly (authenticateRAT client_id auth).
Proof. unfold authenticateRAT, ClientRepo.FindByID. solve_preserves ltac:(apply _). Qed.

Lemma client_step_keeps c : Preserves (keeps clients_wf) (perform c).
Proof.
  destruct c; simpl;
    try (apply preserves_bind; [apply _ | | intros; apply _]); apply safe_keeps.
  - intros env st Hdb. by apply safe_Create.
  - apply safe_Update.
  - apply safe_Delete.
  - apply safe_RotateSecret.
  - apply safe_RotateHMACSecret.
  - apply safe_Register.
  - intros env st Hdb. by apply (wp_preserves (keeps clients_wf)); [apply preserves_read_only;
      [apply _ | unfold ReadRegistration; solve_preserves ltac:(apply _)] | auto].
  - apply safe_UpdateRegistration.
  - apply safe_DeleteRegistration.
Qed.

(** C13: Whatever the admin API and dynamic registration are asked, in any order and
    with any failures, every registered client is stored under its ID, holds a
    secret exactly when it is confidential, and has only redirect URIs of an
    allowed form. *)
Theorem registered_clients_wf (l : list (Env * command)) (db : DB) (Hdb : clients_wf db) :
  clients_wf (history perform l db).
Proof. revert Hdb. apply (history_preserves perform (keeps clients_wf)), client_step_keeps. Qed.

(** A registration access token opens its own client's registration, and only
    until it expires.  An update leaves every other row, and the secrets, the
    type and the activity of its own row, as they were; the token it answers
    with is the one that opens the registration from then on, for thirty days.
    A refused update changes nothing. *)
Theorem UpdateRegistration_spec (client_id auth : string) (body : option DCRRequest.t)
    (env : Env) (db : DB) (Hdb : clients_wf db) :
  let '(r, db') := run (UpdateRegistration client_id auth body) env db in
  match r with
  | Ok resp => exists c c',
      holds_rat db env.(env_wall) client_id auth c /\
      edit_of c c' /\ rat_issued env.(env_wall) resp.(DCRResponse.RegistrationAccessToken) c' /\
      db' = db <| oauth_clients ::= insert c.(OAuthClient.ID) c' |> /\
      resp.(DCRResponse.RedirectURIs) = c'.(OAuthClient.RedirectURIs)
  | Err _ => db' = db
  end.
Proof.
  apply (run_wp (UpdateRegistration client_id auth body) (fun r db' => match r with
    | Ok resp => exists c c', holds_rat db env.(env_wall) client_id auth c /\ edit_of c c' /\
        rat_issued env.(env_wall) resp.(DCRResponse.RegistrationAccessToken) c' /\
        db' = db <| oauth_clients ::= insert c.(OAuthClient.ID) c' |> /\
        resp.(DCRResponse.RedirectURIs) = c'.(OAuthClient.RedirectURIs)
    | Err _ => db' = db end)).
  apply wp_UpdateRegistration; [done..|]. intros c c' issued rat n Hrat He Hi. by exists c, c'.
Qed.
End dcr.
(** ** Deletion *)
Section deletion.

(** A table whose rows belong to a client. *)
Definition purged {K V} `{Countable K} (owner : V -> UUID) (id : UUID) (t t' : gmap K V) : Prop :=
  forall k v, t' !! k = Some v <-> t !! k = Some v /\ owner v <> id.

Lemma purged_filter {K V} `{Countable K} (owner : V -> UUID) id (t : gmap K V) :
  purged owner id t (filter (fun kr => N.eqb (owner kr.2) id = false) t).
Proof. intros k v. by rewrite map_lookup_filter_Some, N.eqb_neq. Qed.

(** An access token of another client keeps everything but a link to a refresh
    token that went. *)
Definition unlinked (a a' : AccessToken.t) : Prop :=
  a' = a \/ a' = a <| AccessToken.RefreshTokenID := None |>.

Record client_removed (id : UUID) (db db' : DB) : Prop := {
  removed_client : db'.(oauth_clients) = delete id db.(oauth_clients);
  removed_requests : purged AuthorizationRequest.ClientID id db.(authorization_requests) db'.(authorization_requests);
  removed_codes : purged AuthorizationCode.ClientID id db.(authorization_codes) db'.(authorization_codes);
  removed_refresh : purged RefreshToken.ClientID id db.(refresh_tokens) db'.(refresh_tokens);
  removed_devices : purged DeviceCode.ClientID id db.(device_codes) db'.(device_codes);
  removed_consents : purged Consent.ClientID id db.(consents) db'.(consents);
  removed_access : forall k a', db'.(access_tokens) !! k = Some a' ->
    a'.(AccessToken.ClientID) <> id /\ exists a, db.(access_tokens) !! k = Some a /\ unlinked a a';
  kept_access : forall k a, db.(access_tokens) !! k = Some a -> a.(AccessToken.ClientID) <> id ->
    exists a', db'.(access_tokens) !! k = Some a' /\ unlinked a a';
  removed_grants : forall c p, (c, p) ∈ db'.(client_resource_permissions) <->
    (c, p) ∈ db.(client_resource_permissions) /\ c <> id;
  kept_users : db'.(users) = db.(users);
  kept_sessions : db'.(sessions) = db.(sessions)
}.

Lemma without_client_access id db k a' :
  (ClientRepo.without_client id db).(access_tokens) !! k = Some a' <->
  exists a, db.(access_tokens) !! k = Some a /\ a.(AccessToken.ClientID) <> id /\
    a' = ClientRepo.unlink (ClientRepo.without_client id db).(refresh_tokens) a.
Proof.
  change ((ClientRepo.without_client id db).(access_tokens)) with
    (ClientRepo.unlink (ClientRepo.without_client id db).(refresh_tokens) <$>
     filter (fun kr => N.eqb kr.2.(AccessToken.ClientID) id = false) db.(access_tokens)).
  rewrite lookup_fmap, fmap_Some. setoid_rewrite map_lookup_filter_Some. setoid_rewrite N.eqb_neq. naive_solver.
Qed.

Lemma unlink_unlinked rts a : unlinked a (ClientRepo.unlink rts a).
Proof. unfold ClientRepo.unlink, unlinked. repeat case_match; auto. Qed.

Lemma without_client_removed id db : client_removed id db (ClientRepo.without_client id db).
Proof.
  split; try apply purged_filter; try done.
  - intros k a' (a & Ha & Ho & ->)%without_client_access. pose proof (unlink_unlinked
      (ClientRepo.without_client id db).(refresh_tokens) a) as Hu.
    split; [by destruct Hu as [-> | ->] | by exists a].
  - intros k a Ha Ho. eexists. split; [apply without_client_access; by exists a | apply unlink_unlinked].
  - intros c p. change ((c, p) ∈ filter (fun p => N.eqb p.1 id = false) db.(client_resource_permissions) <->
      (c, p) ∈ db.(client_resource_permissions) /\ c <> id). rewrite elem_of_filter, N.eqb_neq. simpl. tauto.
Qed.

(** A pushed request of the client, which has no cascade. *)
Definition has_pushed (id : UUID) (db : DB) : Prop :=
  exists k p, db.(pushed_authorization_requests) !! k = Some p /\ p.(PushedAuthorizationRequest.ClientID) = id.

(** Deleting a client takes with it every authorization request, code, token,
    device code, consent and permission of the client and nothing of any other
    client.  A failed deletion changes nothing; without faults of the database
    it fails only for an unknown client, or because a pushed request of the
    client is left. *)
Theorem Delete_spec (id : UUID) (env : Env) (db : DB) :
  let '(r, db') := run (ClientSvc.Delete id) env db in
  match r with
  | Ok _ => client_removed id db db'
  | Err _ => db' = db /\
      (no_faults env -> db.(oauth_clients) !! id = None \/ has_pushed id db)
  end.
Proof.
  apply (run_wp (ClientSvc.Delete id) (fun r db' => match r with Ok _ => client_removed id db db' | Err _ => _ end)).
  unfold ClientSvc.Delete. wp_step. apply wp_GetByID.
  { intros e n [Hf|Hc]; (split; [done|]); intros Hnf; [by rewrite Hnf in Hf | by left]. }
  intros c n Hc. do 2 wp_step. unfold ClientRepo.Delete. apply wp_stmt.
  - intros e He. split; [done|]. intros Hnf. rewrite Hnf in He. destruct He as [[=]|He].
    destruct (_ && _) eqn:E; [|done]. bool_simpl. right. unfold is_Some_b in *.
    destruct (first_row _ _ _) as [p|] eqn:Hp; [|done]. apply first_row_Some in Hp as (k & Hk & Hp%N.eqb_eq).
    by exists k, p.
  - intros db' _. destruct (_ && _); [done|]. intros [= <-]. apply without_client_removed.
Qed.
End deletion.
(** ** Scopes *)

(** A word put before the first piece of a split. *)
Definition onto (w : string) (l : list string) : list string :=
  match l with x :: r => (w +:+ x) :: r | [] => [w] end.

Definition word_of (w : list ascii) : string := String.string_of_list_ascii (rev w).

Definition non_blank (x : string) : bool := negb (String.eqb x "").

Lemma word_of_cons c w : word_of (c :: w) = word_of w +:+ String c "".
Proof.
  unfold word_of. simpl. generalize (rev w). intros l. induction l as [|x l IH]; [done|].
  simpl. by rewrite IH, str_app_cons.
Qed.

Lemma onto_word_cons c w x l : onto (word_of w) (String c x :: l) = onto (word_of (c :: w)) (x :: l).
Proof. unfold onto. by rewrite word_of_cons, string_app_assoc. Qed.

Lemma split_on_cons sep s : exists x l, split_on sep s = x :: l.
Proof. destruct s as [|c s]; simpl; [by eexists _, _|]. repeat case_match; by eexists _, _. Qed.

Lemma flush_word w :
  match w with [] => [] | _ => [word_of w] end = List.filter non_blank [word_of w].
Proof.
  destruct w as [|c w]; [done|]. rewrite word_of_cons. simpl. unfold non_blank.
  by destruct (word_of w).
Qed.

Lemma split_scopes_from_spec w s :
  split_scopes_from w s = List.filter non_blank (onto (word_of w) (split_on " " s)).
Proof.
  revert w. induction s as [|c s IH]; intros w; cbn [split_scopes_from split_on].
  - simpl onto. rewrite string_app_nil. apply flush_word.
  - destruct (Ascii.eqb c " ").
    + rewrite IH. change (rev w) with (rev w). rewrite flush_word.
      destruct (split_on_cons " " s) as (x & l & ->). unfold onto at 2. rewrite string_app_nil.
      change (word_of []) with "". simpl. by destruct (non_blank (word_of w)).
    + rewrite IH. destruct (split_on_cons " " s) as (x & l & ->). by rewrite onto_word_cons.
Qed.

Lemma splitBySpace_is_split_scopes w s : splitBySpace_from w s = split_scopes_from w s.
Proof.
  revert w. induction s as [|c s IH]; intros w; cbn [split_scopes_from splitBySpace_from]; [by destruct w|].
  rewrite !IH. by destruct (Ascii.eqb c " "), w.
Qed.

(** The two scope parsers, of dynamic registration and of the OAuth service,
    agree on every string: the words between single spaces, the empty ones
    left out. *)
Theorem scope_parsers_agree (s : string) :
  splitScopes s = List.filter non_blank (split_on " " s) /\ parseSpaceDelimited s = splitScopes s.
Proof.
  assert (Hs : splitScopes s = List.filter non_blank (split_on " " s)).
  { unfold splitScopes. rewrite split_scopes_from_spec. by destruct (split_on_cons " " s) as (x & l & ->). }
  split; [done|]. unfold parseSpaceDelimited, splitBySpace. rewrite splitBySpace_is_split_scopes.
  destruct (String.eqb_spec s ""); [by subst|].
  fold (splitScopes s). rewrite Hs. clear. induction (split_on " " s) as [|x l IH]; [done|].
  unfold non_blank in *. simpl. destruct (negb (String.eqb x "")) eqn:E; simpl; [|done]. by rewrite E, IH.
Qed.
(** ** Runs *)
Module Sample.
#[local] Instance platform : Platform := sample_platform.
#[local] Instance netlib : NetLib := sample_netlib.

Definition handler : DCRHandler.t :=
  DCRHandler.SetInitialAccessToken
    (DCRHandler.mk (ClientSvc.mkService UserFacts.sample_hasher (repeat 7 32)) "") "operator".

Definition env (n : nat) : Env :=
  mkEnv (Z.of_nat n * second) (Z.of_nat n * second) (fun _ => false)
    (fun i j => Z.of_nat (n + 7 * i + j)) (fun i => N.of_nat (1000 * n + i)).

Definition blank : DCRRequest.t :=
  DCRRequest.mk "" [] [] [] "" "" [] "" "" "" "" None None "" "" "" "".

Definition request : DCRRequest.t :=
  blank <| DCRRequest.ClientName := "app" |> <| DCRRequest.RedirectURIs := ["https://app.example/cb"] |>.

Definition web_client : CreateInput.t :=
  CreateInput.mk "web" None ["https://web.example/cb"] ["authorization_code"] [] ["openid"] None false false
    (Some false) None None None [] None [] None None None None None None None None None None None.

(** An administrator registers a client, another registers itself, edits its
    registration with the token it got, and the first one is removed. *)
Definition calls : list (Env * command) :=
  let rat := match fst (run (DCRHandler.Register handler "Bearer operator" (Some request)) (env 2) empty_db) with
             | Ok resp => resp.(DCRResponse.RegistrationAccessToken)
             | Err _ => ""
             end in
  let id := pos_string (N.succ_pos 2002) in
  [(env 1, CCreate web_client);
   (env 2, CRegister "Bearer operator" (Some request));
   (env 3, CPut id ("Bearer " +:+ rat) (Some (request <| DCRRequest.Scope := "openid profile" |>)));
   (env 4, CPut id ("Bearer " +:+ rat) (Some (request <| DCRRequest.ClientName := "again" |>)));
   (env 5, CDelete 1002%N)].

Definition summary (db : DB) :=
  map (fun kc => (kc.1, kc.2.(OAuthClient.Name), kc.2.(OAuthClient.Scopes))) (map_to_list db.(oauth_clients)).

(** The second edit comes with the token the first one replaced, and is
    refused. *)
Lemma registered_clients_wf_witness :
  clients_wf empty_db /\ clients_wf (history (perform handler) calls empty_db).
Proof.
  assert (Hdb : clients_wf empty_db) by apply map_Forall_empty.
  split; [exact Hdb|]. exact (registered_clients_wf handler calls empty_db Hdb).
Defined.

Example calls_outcome :
  summary (history (perform handler) calls empty_db) = [(2002%N, "app", ["openid"; "profile"])].
Proof. vm_compute. reflexivity. Qed.
(** The registration before its edit, and the token it was given. *)
Definition before_edit : DB := history (perform handler) (firstn 2 calls) empty_db.

Lemma UpdateRegistration_witness :
  clients_wf before_edit /\
  match nth_error calls 2 with
  | Some (e, CPut id auth body) =>
      is_ok (fst (run (DCRHandler.UpdateRegistration id auth body) e before_edit)) = true /\
      let '(r, db') := run (DCRHandler.UpdateRegistration id auth body) e before_edit in
      match r with
      | Ok resp => exists c c',
          holds_rat before_edit e.(env_wall) id auth c /\
          edit_of c c' /\ rat_issued e.(env_wall) resp.(DCRResponse.RegistrationAccessToken) c' /\
          db' = before_edit <| oauth_clients ::= insert c.(OAuthClient.ID) c' |> /\
          resp.(DCRResponse.RedirectURIs) = c'.(OAuthClient.RedirectURIs)
      | Err _ => db' = before_edit
      end
  | _ => False
  end.
Proof.
  assert (Hdb : clients_wf before_edit).
  { apply (history_preserves (perform handler) (keeps clients_wf)); [apply client_step_keeps | apply map_Forall_empty]. }
  split; [exact Hdb|]. cbn [nth_error calls]. split; [vm_compute; reflexivity|].
  apply UpdateRegistration_spec; exact Hdb.
Defined.

(** The administrator asked for a client without PKCE; the column's default
    overrides a false value on INSERT, and the client requires PKCE. *)
Example create_ignores_require_pkce :
  match fst (run (ClientSvc.Create handler.(DCRHandler.service) web_client) (env 1) empty_db) with
  | Ok resp => web_client.(CreateInput.RequirePKCE) = Some false /\
               (cr_Client resp).(OAuthClient.RequirePKCE) = true
  | Err _ => False
  end.
Proof. vm_compute. split; reflexivity. Qed.

(** What dynamic registration reads of a request and drops: the logout URIs and
    the subject type. *)
Example registration_drops_metadata req auth post back front subject :
  DCRHandler.Register handler auth (Some (req <| DCRRequest.PostLogoutRedirectURIs := post |>
    <| DCRRequest.BackchannelLogoutURI := back |> <| DCRRequest.FrontchannelLogoutURI := front |>
    <| DCRRequest.SubjectType := subject |>))
  = DCRHandler.Register handler auth (Some req).
Proof. reflexivity. Qed.

(** A pushed request that was never used keeps its client from being deleted,
    long after it expired. *)
Example pushed_request_pins_client :
  let stale := PushedAuthorizationRequest.zero <| PushedAuthorizationRequest.ClientID := 1002%N |>
                 <| PushedAuthorizationRequest.ExpiresAt := 10 * second |> in
  let db := history (perform handler) (firstn 1 calls) empty_db
              <| pushed_authorization_requests := {[ "urn:x" := stale ]} |> in
  fst (run (ClientSvc.Delete 1002%N) (env 5000) db) = Err (ErrInternal "failed to delete client").
Proof. vm_compute. reflexivity. Qed.

(** Of two bad redirect URIs only the first is reported. *)
Example one_bad_uri_reported :
  ClientSvc.validateRedirectURIs ["http://a.example/"; "javascript:alert(1)"]
  = ClientSvc.validateRedirectURIs ["http://a.example/"].
Proof. reflexivity. Qed.
End Sample.
End ClientFacts.
