(* ===== verification/ClientAuth.v ===== *)
(** * middleware/client_auth.go, jwt_client_auth.go: client authentication

    The middleware in front of the token, introspection, revocation, pushed
    request and device endpoints: [client_secret_basic], [client_secret_post],
    the two JWT assertions and public clients.  golang-jwt and the HTTP GET of a
    key document are parameters; the cache of key documents is a state the
    middleware takes and returns. *)
From S2P Require Import Prelude.
From S2P Require Import Errors.
From S2P Require Import GoLib.
From S2P Require Import GoNet.
From S2P Require Import Model.
From S2P Require Import Platform.
From S2P Require Import Exec.
From S2P Require Import Crypto.
From S2P Require Import Policy.
From S2P Require Import NetSafety.
From S2P Require Import GoEnc.
From S2P Require Import Json.
From S2P Require Import Aes.
From S2P Require Import UserSvc.
From S2P Require Import Argon2.
From S2P Require Import ClientSvc.
From Stdlib Require Import Ascii.
Local Open Scope Z_scope.

(** ** crypto/keys.go: RSA keys of a JWK *)

Record RSAPublicKey := mkRSA { rsa_N : Z; rsa_E : Z }.

(** [new(big.Int).SetBytes(b)] *)
Definition big_of_bytes (b : list Z) : Z := fold_left (fun x y => 256 * x + y) b 0.

Definition ParseJWKToRSAPublicKey (nB64 eB64 : string) : result RSAPublicKey :=
  match DecodeString RawURLEncoding nB64 with
  | None => Err (EOther "failed to decode JWK n")
  | Some n =>
      match DecodeString RawURLEncoding eB64 with
      | None => Err (EOther "failed to decode JWK e")
      | Some e => Ok (mkRSA (big_of_bytes n) (int64_wrap (big_of_bytes e)))
      end
  end.

(** ** golang-jwt *)

Inductive method_family := SigningMethodHMAC | SigningMethodRSA | SigningMethodRSAPSS | OtherMethod.

Inductive verification_key := HMACKey (k : list Z) | RSAKey (k : RSAPublicKey).

#[export] Instance RSAPublicKey_eq_dec : EqDecision RSAPublicKey.
Proof. solve_decision. Defined.
#[export] Instance verification_key_eq_dec : EqDecision verification_key.
Proof. solve_decision. Defined.

Module JWT.
(** A parsed token: its signing method, its header and its claims. *)
Record t := mk {
  Method : method_family;
  Alg : string;
  Header : list (string * any);
  Claims : list (string * any)
}.
End JWT.

(** [jwt.Parse] under [WithExpirationRequired] takes the key function, the valid
    methods when restricted and the time; [http_get] is the status and body of
    an HTTP GET. *)
Class JwtLib := {
  ParseUnverified : string -> option JWT.t;
  GetSubject : list (string * any) -> result string;
  GetIssuer : list (string * any) -> result string;
  GetAudience : list (string * any) -> result (list string);
  GetExpirationTime : list (string * any) -> option Z;
  signed_with : string -> method_family -> verification_key -> bool;
  jwt_Parse : string -> (JWT.t -> result verification_key) -> option (list string) -> Z -> result unit;
  http_get : string -> Reader (Z * list Z)
}.

(** A token [jwt.Parse] accepts is the one [ParseUnverified] shows, of a valid
    method, signed with the key it was given and not expired. *)
Class JwtLibLaws `{JwtLib} : Prop :=
  jwt_Parse_sound : forall s keyfunc methods now,
    jwt_Parse s keyfunc methods now = Ok tt ->
    exists tok key exp, ParseUnverified s = Some tok /\ keyfunc tok = Ok key /\
      signed_with s tok.(JWT.Method) key = true /\
      (forall l, methods = Some l -> tok.(JWT.Alg) ∈ l) /\
      GetExpirationTime tok.(JWT.Claims) = Some exp /\ now < exp.

(** ** The cache of key documents *)

Definition jwksCacheTTL : Z := 5 * minute.

Module jwkKey.
Record t := mk { Kid : string; Kty : string; N : string; E : string }.
#[global] Instance eta_t : Eta t := fun r => mk (r.(Kid)) (r.(Kty)) (r.(N)) (r.(E)).
Definition zero : t := mk "" "" "" "".

(** The field a member of the document sets. *)
Definition set_member (k : string) : option (string -> t -> t) :=
  if equal_fold k "kid" then Some (fun v r => r <| Kid := v |>)
  else if equal_fold k "kty" then Some (fun v r => r <| Kty := v |>)
  else if equal_fold k "n" then Some (fun v r => r <| N := v |>)
  else if equal_fold k "e" then Some (fun v r => r <| E := v |>)
  else None.
End jwkKey.

(** A slice a document is decoded into: its elements, and those left behind them
    in the array by a longer one. *)
Definition slice : Type := list jwkKey.t * list jwkKey.t.

(** The elements of a JSON array onto the array that was there. *)
Fixpoint decode_elems (old : list jwkKey.t) (l : list any) : list jwkKey.t * bool :=
  match l with
  | [] => ([], true)
  | v :: l' =>
      let '(rest, ok') := decode_elems (tail old) l' in
      let before := default jwkKey.zero (head old) in
      match v with
      | AMap m => let '(k, ok) := unmarshal_members jwkKey.set_member m before in (k :: rest, ok && ok')
      | ANil => (before :: rest, ok')
      | _ => (before :: rest, false)
      end
  end.

(** The value of a member ["keys"]. *)
Definition decode_keys (old : slice) (v : any) : slice * bool :=
  match v with
  | AList [] | ANil => (([], []), true)
  | AList l =>
      let all := old.1 ++ old.2 in
      let '(ks, ok) := decode_elems all l in ((ks, skipn (List.length l) all), ok)
  | _ => (old, false)
  end.

Fixpoint decode_members (old : slice) (m : list (string * any)) : slice * bool :=
  match m with
  | [] => (old, true)
  | (k, v) :: m' =>
      if equal_fold k "keys" then
        let '(s, ok) := decode_keys old v in
        let '(s, ok') := decode_members s m' in (s, ok && ok')
      else decode_members old m'
  end.

(** [json.Unmarshal(body, &jwks)] *)
Definition unmarshal_jwks (body : list Z) : result (list jwkKey.t) :=
  match parse_document (string_of_bytes body) with
  | None => Err (EOther "invalid character in JSON")
  | Some ANil => Ok []
  | Some (AMap m) =>
      let '((ks, _), ok) := decode_members ([], []) m in
      if ok then Ok ks else Err (EOther "json: cannot unmarshal")
  | Some _ => Err (EOther "json: cannot unmarshal")
  end.

(** The RSA keys of a document, a later one of the same [kid] over an earlier. *)
Definition add_key (keys : gmap string RSAPublicKey) (k : jwkKey.t) : gmap string RSAPublicKey :=
  if negb (String.eqb k.(jwkKey.Kty) "RSA") || String.eqb k.(jwkKey.Kid) "" then keys
  else match ParseJWKToRSAPublicKey k.(jwkKey.N) k.(jwkKey.E) with
       | Ok pub => <[k.(jwkKey.Kid) := pub]> keys
       | Err _ => keys
       end.

Definition keys_of (jwks : list jwkKey.t) : gmap string RSAPublicKey := fold_left add_key jwks ∅.

Record jwksCacheEntry := mkEntry { keys : gmap string RSAPublicKey; fetchedAt : Z }.

Definition JWKSCache : Type := gmap string jwksCacheEntry.

(** ** Requests and configuration *)

Module Request.
Record t := mk {
  Authorization : string;
  PostForm : string -> string;
  Method : string;
  Path : string;
  ClientIP : string;
  UserAgent : string
}.
End Request.

Record Config := mkConfig {
  tokenEndpoint : string;
  hmacEncryptionKey : list Z;
  evaluator : option (string -> list (string * any) -> Reader (bool * string))
}.

Module Credentials.
Record t := mk { clientID : UUID; clientSecret : string; authMethod : string; jwtAuthenticated : bool }.
Definition none : t := mk uuid_nil "" "" false.
End Credentials.

Section middleware.
Context `{Platform} `{NetLib} `{Argon2Lib} `{JwtLib}.

Definition fetchJWKS (jwksURI : string) : M (gmap string RSAPublicKey) :=
  map_err (ValidatePublicHTTPSURL jwksURI) (wrap_error "jwks_uri rejected: ") ;;;
  let! (status, body) := ask (http_get jwksURI) ;;
  guard (status =? 200) (EOther ("JWKS endpoint returned status " +:+ dec status)) ;;;
  jwks <- of_result (unmarshal_jwks (firstn (Z.to_nat (2 ^ 20)) body)) ;;
  ret (keys_of jwks).

(** A fetched document is kept even when it lacks the key. *)
Definition GetKey (c : JWKSCache) (jwksURI kid : string) : M (JWKSCache * result RSAPublicKey) :=
  now <- wall_now ;;
  let cached := match c !! jwksURI with
                | Some entry => if time_sub now entry.(fetchedAt) <? jwksCacheTTL
                                then entry.(keys) !! kid else None
                | None => None
                end in
  match cached with
  | Some key => ret (c, Ok key)
  | None =>
      fetched <- attempt (fetchJWKS jwksURI) ;;
      match fetched with
      | Err e => ret (c, Err (wrap_error ("failed to fetch JWKS from " +:+ jwksURI +:+ ": ") e))
      | Ok ks =>
          ret (<[jwksURI := mkEntry ks now]> c,
               match ks !! kid with
               | Some key => Ok key
               | None => Err (EOther ("key " +:+ kid +:+ " not found in JWKS"))
               end)
      end
  end.

(** ** Assertions *)

Definition validateAssertionCommonClaims (assertion tokenEndpoint : string) : result (JWT.t * UUID) :=
  match ParseUnverified assertion with
  | None => Err (EOther "malformed client assertion JWT")
  | Some unverified =>
      let claims := unverified.(JWT.Claims) in
      match GetSubject claims with
      | Err _ | Ok "" => Err (EOther "missing sub claim in client assertion")
      | Ok sub =>
          match uuid_parse sub with
          | None => Err (EOther "invalid client_id in sub claim")
          | Some clientID =>
              match GetIssuer claims with
              | Ok iss =>
                  if negb (String.eqb iss sub) then Err (EOther "iss must equal sub in client assertion")
                  else match GetAudience claims with
                       | Err _ => Err (EOther "missing aud claim")
                       | Ok aud =>
                           if negb (mem tokenEndpoint aud)
                           then Err (EOther "aud must contain the token endpoint URL")
                           else if String.eqb (get_string claims "jti") ""
                           then Err (EOther "missing jti claim")
                           else Ok (unverified, clientID)
                       end
              | Err _ => Err (EOther "iss must equal sub in client assertion")
              end
          end
      end
  end.

Definition is_hmac (m : method_family) : bool :=
  match m with SigningMethodHMAC => true | _ => false end.

Definition is_rsa (m : method_family) : bool :=
  match m with SigningMethodRSA | SigningMethodRSAPSS => true | _ => false end.

(** The key function of both validations: the key, for a method of its family. *)
Definition key_for (family : method_family -> bool) (key : verification_key) (tok : JWT.t)
    : result verification_key :=
  if family tok.(JWT.Method) then Ok key else Err (EOther "unexpected signing method").

Definition verify_assertion (assertion : string) (family : method_family -> bool)
    (key : verification_key) (methods : option (list string)) : M unit :=
  now <- wall_now ;;
  map_err (of_result (jwt_Parse assertion (key_for family key) methods now))
    (wrap_error "client assertion verification failed: ").

Definition ValidateClientSecretJWT (assertion tokenEndpoint : string) (hmacKey : list Z) : M UUID :=
  guard (negb (Nat.eqb (List.length hmacKey) 0))
    (EOther "client has no hmac key configured for client_secret_jwt") ;;;
  let! (unverified, clientID) := of_result (validateAssertionCommonClaims assertion tokenEndpoint) ;;
  guard (is_hmac unverified.(JWT.Method)) (EOther "client_secret_jwt requires an HMAC signing method") ;;;
  verify_assertion assertion is_hmac (HMACKey hmacKey) (Some ["HS256"]) ;;;
  ret clientID.

(** The cache and what became of the assertion. *)
Definition ValidateClientAssertionJWT (c : JWKSCache) (assertion tokenEndpoint jwksURI : string)
    : M (JWKSCache * result UUID) :=
  match validateAssertionCommonClaims assertion tokenEndpoint with
  | Err e => ret (c, Err e)
  | Ok (unverified, clientID) =>
      let kid := get_string unverified.(JWT.Header) "kid" in
      if String.eqb kid "" then ret (c, Err (EOther "missing kid in JWT header"))
      else
        let! (c, key) := GetKey c jwksURI kid ;;
        match key with
        | Err e => ret (c, Err (wrap_error "failed to get signing key: " e))
        | Ok pubKey =>
            r <- attempt (verify_assertion assertion is_rsa (RSAKey pubKey) None) ;;
            ret (c, match r with Ok _ => Ok clientID | Err e => Err e end)
        end
  end.

(** The string member of a JSON object, as [json.Unmarshal] into a struct with
    that field reads it. *)
Definition json_field (name : string) (doc : list Z) : result string :=
  unmarshal_struct (fun k => if equal_fold k name then Some (fun v _ => v) else None)
    (string_of_bytes doc) "".

(** The segments of [strings.SplitN(s, ".", 3)] that are read. *)
Definition jwt_segments (s : string) : option (string * string) :=
  '(h, rest) ← cut "." s; '(p, _) ← cut "." rest; Some (h, p).

Record resolved := mkResolved { alg : string; subID : UUID; hmacSealed : list Z; jwksURI : string }.

Definition resolveAssertionClient (assertion : string) : M resolved :=
  match jwt_segments assertion with
  | None => throw (EOther "malformed JWT")
  | Some (head64, payload64) =>
      match DecodeString RawURLEncoding head64 with
      | None => throw (EOther "malformed JWT header")
      | Some headerBytes =>
          alg <- or_fail (of_result (json_field "alg" headerBytes)) (EOther "invalid JWT header") ;;
          match DecodeString RawURLEncoding payload64 with
          | None => throw (EOther "malformed JWT payload")
          | Some payload =>
              sub <- or_fail (of_result (json_field "sub" payload)) (EOther "invalid JWT claims") ;;
              match uuid_parse sub with
              | None => throw (EOther "invalid client_id in sub claim")
              | Some cid =>
                  let! (client, err) := ClientSvc.FindActive cid ;;
                  match err, client with
                  | None, Some client =>
                      ret (mkResolved alg cid client.(OAuthClient.SecretHMACKey)
                             (default "" client.(OAuthClient.JWKSUri)))
                  | _, _ => throw (EOther "unknown client")
                  end
              end
          end
      end
  end.

(** ** The middleware *)

(** 1. [client_secret_basic] *)
Definition basic_credentials (auth : string) : result Credentials.t :=
  match scan_lit "Basic " auth with
  | None => Ok Credentials.none
  | Some encoded =>
      match DecodeString StdEncoding encoded with
      | None => Err (ErrInvalidClient "malformed basic auth header")
      | Some decoded =>
          match cut ":" (string_of_bytes decoded) with
          | None => Err (ErrInvalidClient "malformed basic auth credentials")
          | Some (id, secret) =>
              match uuid_parse id with
              | None => Err (ErrInvalidClient "invalid client_id")
              | Some id => Ok (Credentials.mk id secret "client_secret_basic" false)
              end
          end
      end
  end.

(** 2. [client_secret_post], and public clients *)
Definition post_credentials (form : string -> string) (c : Credentials.t) : result Credentials.t :=
  if negb (N.eqb c.(Credentials.clientID) uuid_nil) || String.eqb (form "client_id") "" then Ok c
  else match uuid_parse (form "client_id") with
       | None => Err (ErrInvalidClient "invalid client_id")
       | Some id =>
           let secret := form "client_secret" in
           Ok (Credentials.mk id secret
                 (if String.eqb secret "" then "none" else "client_secret_post") false)
       end.

Definition invalid_client (e : error) : error := ErrInvalidClient (error_string e).

(** The check of an assertion once its client is known. *)
Definition validate_assertion (cfg : Config) (cache : JWKSCache) (assertion : string) (r : resolved)
    : M (JWKSCache * result (UUID * string)) :=
  if String.eqb r.(alg) "HS256" then
    checked <- attempt (
      guard (negb (Nat.eqb (List.length cfg.(hmacEncryptionKey)) 0))
        (ErrInvalidClient "client_secret_jwt is not enabled on this server") ;;;
      guard (negb (Nat.eqb (List.length r.(hmacSealed)) 0))
        (ErrInvalidClient "client has no hmac key configured for client_secret_jwt") ;;;
      hmacKey <- or_fail (of_result (DecryptHMACSecret r.(hmacSealed) cfg.(hmacEncryptionKey)))
                   (ErrInvalidClient "failed to recover client hmac key") ;;
      map_err (ValidateClientSecretJWT assertion cfg.(tokenEndpoint) hmacKey) invalid_client) ;;
    ret (cache, match checked with Ok cid => Ok (cid, "client_secret_jwt") | Err e => Err e end)
  else if String.eqb r.(jwksURI) "" then
    ret (cache, Err (ErrInvalidClient "client has no jwks_uri configured for private_key_jwt"))
  else
    let! (cache, checked) := ValidateClientAssertionJWT cache assertion cfg.(tokenEndpoint) r.(jwksURI) ;;
    ret (cache, match checked with
                | Ok cid => Ok (cid, "private_key_jwt")
                | Err e => Err (invalid_client e)
                end).

(** 3. [client_assertion] *)
Definition assertion_credentials (cfg : Config) (cache : JWKSCache) (form : string -> string)
    (c : Credentials.t) : M (JWKSCache * result Credentials.t) :=
  let assertion := form "client_assertion" in
  if negb (N.eqb c.(Credentials.clientID) uuid_nil)
     || negb (String.eqb (form "client_assertion_type") "urn:ietf:params:oauth:client-assertion-type:jwt-bearer")
     || String.eqb assertion "" then ret (cache, Ok c)
  else
    found <- attempt (resolveAssertionClient assertion) ;;
    match found with
    | Err e => ret (cache, Err (invalid_client e))
    | Ok r =>
        let! (cache, checked) := validate_assertion cfg cache assertion r ;;
        ret (cache, match checked with
                    | Err e => Err e
                    | Ok (cid, method) =>
                        if N.eqb cid r.(subID)
                        then Ok (Credentials.mk cid c.(Credentials.clientSecret) method true)
                        else Err (ErrInvalidClient "client_id mismatch")
                    end)
    end.

(** The secret of a confidential client. *)
Definition check_secret (c : Credentials.t) (client : OAuthClient.t) : M unit :=
  if c.(Credentials.jwtAuthenticated) || client.(OAuthClient.IsPublic) then ret tt
  else
    guard (negb (String.eqb c.(Credentials.clientSecret) ""))
      (ErrInvalidClient "client authentication required") ;;;
    match client.(OAuthClient.SecretHash) with
    | None => throw (ErrInvalidClient "client has no secret configured")
    | Some hash =>
        guard (match Verify c.(Credentials.clientSecret) hash with Ok ok => ok | Err _ => false end)
          (ErrInvalidClient "invalid client credentials")
    end.

(** An evaluation that fails lets the client through. *)
Definition check_policy (cfg : Config) (req : Request.t) (c : Credentials.t) (client : OAuthClient.t)
    : M unit :=
  match cfg.(evaluator) with
  | None => ret tt
  | Some eval =>
      let authMethod :=
        if String.eqb c.(Credentials.authMethod) ""
        then (if c.(Credentials.jwtAuthenticated) then "private_key_jwt" else "none")
        else c.(Credentials.authMethod) in
      wall <- wall_now ;;
      r <- attempt (ask (eval "client_auth"
             (Inputs.BuildClientAuthInput wall client authMethod req.(Request.Method) req.(Request.Path)
                req.(Request.ClientIP) req.(Request.UserAgent)))) ;;
      match r with
      | Ok (true, reason) => throw (ErrInvalidClient reason)
      | _ => ret tt
      end
  end.

(** The client the credentials name, once it is proved. *)
Definition admit_client (cfg : Config) (req : Request.t) (c : Credentials.t) : M OAuthClient.t :=
  guard (negb (N.eqb c.(Credentials.clientID) uuid_nil)) (ErrInvalidClient "missing client credentials") ;;;
  let! (client, err) := ClientSvc.FindActive c.(Credentials.clientID) ;;
  match err, client with
  | None, Some client =>
      check_secret c client ;;;
      check_policy cfg req c client ;;;
      ret client
  | _, _ => throw (ErrInvalidClient "unknown client")
  end.

Definition ClientAuth (cfg : Config) (cache : JWKSCache) (req : Request.t)
    : M (JWKSCache * result OAuthClient.t) :=
  match basic_credentials req.(Request.Authorization) with
  | Err e => ret (cache, Err e)
  | Ok c =>
      match post_credentials req.(Request.PostForm) c with
      | Err e => ret (cache, Err e)
      | Ok c =>
          let! (cache, c) := assertion_credentials cfg cache req.(Request.PostForm) c ;;
          match c with
          | Err e => ret (cache, Err e)
          | Ok c =>
              r <- attempt (admit_client cfg req c) ;;
              ret (cache, r)
          end
      end
  end.

End middleware.

(** ** Facts *)
Module ClientAuthFacts.
Section facts.
Context `{Platform} `{NetLib} `{Argon2Lib} `{JwtLibLaws} (cfg : Config).

(** ** The cache *)

(** A document is cached for a URI only when it was fetched from it, now. *)
Definition cache_grows (env : Env) (c c' : JWKSCache) (uri : string) : Prop :=
  c' = c \/ exists ks, c' = <[uri := mkEntry ks env.(env_wall)]> c.

(** The key of a fresh document of the URI. *)
Definition published (env : Env) (c : JWKSCache) (uri kid : string) (key : RSAPublicKey) : Prop :=
  exists entry, c !! uri = Some entry /\ entry.(keys) !! kid = Some key /\
    time_sub env.(env_wall) entry.(fetchedAt) < jwksCacheTTL.

#[export] Instance fetchJWKS_read_only uri : ReadOnly (fetchJWKS uri).
Proof. unfold fetchJWKS. solve_preserves ltac:(apply NetFacts.ValidatePublicHTTPSURL_read_only). Qed.

Lemma wp_GetKey c uri kid env st (Q : result (JWKSCache * result RSAPublicKey) -> State -> Prop) :
  (forall c' r n, cache_grows env c c' uri ->
     (forall key, r = Ok key -> published env c' uri kid key) -> Q (Ok (c', r)) (mkState st.(st_db) n)) ->
  wp (GetKey c uri kid) Q env st.
Proof.
  intros HQ. unfold GetKey. destruct st as [db n0]. do 2 wp_step. wp_simpl. cbv zeta.
  destruct (match c !! uri with Some entry => _ | None => None end) as [key|] eqn:Hc.
  - wp_step. apply HQ; [by left|]. intros ? [= <-].
    destruct (c !! uri) as [entry|] eqn:He; [|done]. destruct (_ <? _) eqn:Ht; [|done].
    exists entry. split_and!; [done..|]. by apply Z.ltb_lt.
  - clear Hc. do 2 wp_step. apply wp_read_only; [apply _|]. intros [ks|e] n; wp_simpl; wp_step;
      apply HQ; try done; [right; by eexists | | by left].
    intros key. destruct (ks !! kid) as [k|] eqn:Hk; [|done]. intros [= <-].
    exists (mkEntry ks env.(env_wall)). split_and!; [apply lookup_insert_eq|done|]. simpl.
    unfold time_sub. rewrite Z.sub_diag. done.
Qed.

(** ** Assertions *)

(** The claims RFC 7523 asks for, of a token signed with the key. *)
Definition asserts (env : Env) (assertion : string) (id : UUID) (key : verification_key) : Prop :=
  exists tok sub exp, ParseUnverified assertion = Some tok /\
    GetSubject tok.(JWT.Claims) = Ok sub /\ uuid_parse sub = Some id /\
    GetIssuer tok.(JWT.Claims) = Ok sub /\
    (exists aud, GetAudience tok.(JWT.Claims) = Ok aud /\ cfg.(tokenEndpoint) ∈ aud) /\
    get_string tok.(JWT.Claims) "jti" <> "" /\
    signed_with assertion tok.(JWT.Method) key = true /\
    GetExpirationTime tok.(JWT.Claims) = Some exp /\ env.(env_wall) < exp /\
    match key with
    | HMACKey _ => tok.(JWT.Method) = SigningMethodHMAC /\ tok.(JWT.Alg) = "HS256"
    | RSAKey _ => is_rsa tok.(JWT.Method) = true
    end.

Lemma common_claims_ok assertion tok id :
  validateAssertionCommonClaims assertion cfg.(tokenEndpoint) = Ok (tok, id) ->
  ParseUnverified assertion = Some tok /\ exists sub,
    GetSubject tok.(JWT.Claims) = Ok sub /\ uuid_parse sub = Some id /\
    GetIssuer tok.(JWT.Claims) = Ok sub /\
    (exists aud, GetAudience tok.(JWT.Claims) = Ok aud /\ cfg.(tokenEndpoint) ∈ aud) /\
    get_string tok.(JWT.Claims) "jti" <> "".
Proof.
  unfold validateAssertionCommonClaims. destruct (ParseUnverified assertion) as [tok'|]; [|done]. cbv zeta.
  destruct (GetSubject _) as [sub|e] eqn:Hsub; [|done]. destruct (String.eqb_spec sub ""); [by subst|].
  intros Hok. assert (Hok' : match uuid_parse sub with
    | Some clientID => match GetIssuer (JWT.Claims tok') with
        | Ok iss => if negb (String.eqb iss sub) then Err (EOther "iss must equal sub in client assertion")
            else match GetAudience (JWT.Claims tok') with
                 | Ok aud => if negb (mem (tokenEndpoint cfg) aud) then Err (EOther "aud must contain the token endpoint URL")
                     else if String.eqb (get_string (JWT.Claims tok') "jti") "" then Err (EOther "missing jti claim")
                     else Ok (tok', clientID)
                 | Err _ => Err (EOther "missing aud claim") end
        | Err _ => Err (EOther "iss must equal sub in client assertion") end
    | None => Err (EOther "invalid client_id in sub claim") end = Ok (tok, id)) by by destruct sub.
  clear Hok. destruct (uuid_parse sub) as [id'|] eqn:Hid; [|done].
  destruct (GetIssuer _) as [iss|] eqn:Hiss; [|done]. destruct (String.eqb_spec iss sub); [|done].
  destruct (GetAudience _) as [aud|] eqn:Haud; [|done]. destruct (mem _ aud) eqn:Hm; [|done].
  destruct (String.eqb_spec (get_string (JWT.Claims tok') "jti") ""); [done|]. simpl in Hok'.
  injection Hok' as <- <-. subst. apply mem_iff in Hm. split; [done|]. exists sub. split_and!; eauto.
Qed.

Lemma verify_assertion_ok assertion family key methods env st (Q : result unit -> State -> Prop) :
  (forall e, Q (Err e) st) ->
  ((exists tok exp, ParseUnverified assertion = Some tok /\ family tok.(JWT.Method) = true /\
     signed_with assertion tok.(JWT.Method) key = true /\
     (forall l, methods = Some l -> tok.(JWT.Alg) ∈ l) /\
     GetExpirationTime tok.(JWT.Claims) = Some exp /\ env.(env_wall) < exp) -> Q (Ok tt) st) ->
  wp (verify_assertion assertion family key methods) Q env st.
Proof.
  intros He Hok. unfold verify_assertion. do 2 wp_step. wp_simpl. do 2 wp_step.
  destruct (jwt_Parse _ _ _ _) as [[]|e] eqn:Hp; [|apply He]. apply Hok.
  apply jwt_Parse_sound in Hp as (tok & k & exp & Ht & Hk & Hs & Hm & He' & Hx).
  unfold key_for in Hk. destruct (family (JWT.Method tok)) eqn:Hf; [|done]. injection Hk as <-.
  by exists tok, exp.
Qed.
Lemma wp_ValidateClientSecretJWT assertion key env st (Q : result UUID -> State -> Prop) :
  (forall e, Q (Err e) st) ->
  (forall id, asserts env assertion id (HMACKey key) -> Q (Ok id) st) ->
  wp (ValidateClientSecretJWT assertion cfg.(tokenEndpoint) key) Q env st.
Proof.
  intros He Hok. unfold ValidateClientSecretJWT. wp_step. apply wp_guard; [|intros; apply He]. intros _.
  wp_simpl. do 2 wp_step. destruct (validateAssertionCommonClaims _ _) as [[tok id]|e] eqn:Hc; [|apply He].
  apply common_claims_ok in Hc as (Ht & sub & Hs & Hid & Hi & Ha & Hj).
  wp_step. apply wp_guard; [|intros; apply He]. intros Hm. wp_simpl. wp_step.
  apply verify_assertion_ok; [apply He|]. intros (tok' & exp & Ht' & _ & Hsig & Halg & Hx & Hlt).
  assert (tok' = tok) as -> by congruence. wp_simpl. wp_step. apply Hok. exists tok, sub, exp.
  assert (Hb : tok.(JWT.Method) = SigningMethodHMAC) by by destruct (JWT.Method tok).
  split_and!; try done. specialize (Halg _ eq_refl). set_solver.
Qed.

Lemma wp_ValidateClientAssertionJWT c assertion uri env st
    (Q : result (JWKSCache * result UUID) -> State -> Prop) :
  (forall c' e n, cache_grows env c c' uri -> Q (Ok (c', Err e)) (mkState st.(st_db) n)) ->
  (forall c' id kid key n, cache_grows env c c' uri -> published env c' uri kid key ->
     asserts env assertion id (RSAKey key) -> Q (Ok (c', Ok id)) (mkState st.(st_db) n)) ->
  wp (ValidateClientAssertionJWT c assertion cfg.(tokenEndpoint) uri) Q env st.
Proof.
  intros He Hok. unfold ValidateClientAssertionJWT. destruct st as [db n0].
  destruct (validateAssertionCommonClaims _ _) as [[tok id]|e] eqn:Hc; [|wp_step; apply He; by left].
  apply common_claims_ok in Hc as (Ht & sub & Hs & Hid & Hi & Ha & Hj). cbv zeta.
  destruct (String.eqb _ ""); [wp_step; apply He; by left|]. wp_step. apply wp_GetKey.
  intros c' r n Hg Hp. wp_simpl. destruct r as [key|e]; [|wp_step; by apply He]. do 2 wp_step.
  apply verify_assertion_ok; [intros e; wp_simpl; wp_step; by apply He|].
  intros (tok' & exp & Ht' & Hm & Hsig & _ & Hx & Hlt).
  assert (tok' = tok) as -> by congruence. wp_simpl. wp_step.
  eapply Hok; [done|by apply Hp|]. exists tok, sub, exp. by split_and!.
Qed.

Lemma wp_resolveAssertionClient assertion env st (Q : result resolved -> State -> Prop) :
  (forall e n, Q (Err e) (mkState st.(st_db) n)) ->
  (forall a id client n, st.(st_db).(oauth_clients) !! id = Some client ->
     Q (Ok (mkResolved a id client.(OAuthClient.SecretHMACKey) (default "" client.(OAuthClient.JWKSUri))))
       (mkState st.(st_db) n)) ->
  wp (resolveAssertionClient assertion) Q env st.
Proof.
  intros He Hok. unfold resolveAssertionClient, ClientSvc.FindActive, ClientRepo.FindActiveByID.
  destruct st as [db n0]. destruct (jwt_segments assertion) as [[h64 p64]|]; [|wp_step; apply He].
  destruct (DecodeString _ h64) as [hb|]; [|wp_step; apply He]. do 3 wp_step.
  destruct (json_field "alg" hb) as [a|e]; [|apply He]. wp_simpl.
  destruct (DecodeString _ p64) as [pb|]; [|wp_step; apply He]. do 3 wp_step.
  destruct (json_field "sub" pb) as [sub|e]; [|apply He]. wp_simpl.
  destruct (uuid_parse sub) as [id|]; [|wp_step; apply He]. do 2 wp_step; [wp_steps; apply He|].
  wp_simpl. destruct (oauth_clients db !! id) as [client|] eqn:Hc; [|wp_step; apply He].
  destruct (OAuthClient.Active client); wp_step; [by apply Hok | apply He].
Qed.

(** ** Credentials *)

(** What the request shows of a client, before anything is proved. *)
Definition presents (req : Request.t) (id : UUID) (secret : string) : Prop :=
  (exists text b name, req.(Request.Authorization) = "Basic " +:+ text /\
     DecodeString StdEncoding text = Some b /\ cut ":" (string_of_bytes b) = Some (name, secret) /\
     uuid_parse name = Some id) \/
  (uuid_parse (req.(Request.PostForm) "client_id") = Some id /\
   req.(Request.PostForm) "client_secret" = secret).

(** The proof the middleware accepts for the client of a row. *)
Inductive proved (env : Env) (req : Request.t) (cache : JWKSCache) (id : UUID) (client : OAuthClient.t) : Prop :=
| proved_public secret :
    client.(OAuthClient.IsPublic) = true -> presents req id secret -> proved env req cache id client
| proved_secret secret hash :
    presents req id secret -> secret <> "" -> client.(OAuthClient.SecretHash) = Some hash ->
    Verify secret hash = Ok true -> proved env req cache id client
| proved_hmac key :
    DecryptHMACSecret client.(OAuthClient.SecretHMACKey) cfg.(hmacEncryptionKey) = Ok key ->
    asserts env (req.(Request.PostForm) "client_assertion") id (HMACKey key) ->
    proved env req cache id client
| proved_key uri kid key :
    client.(OAuthClient.JWKSUri) = Some uri -> published env cache uri kid key ->
    asserts env (req.(Request.PostForm) "client_assertion") id (RSAKey key) ->
    proved env req cache id client.

(** The credentials as they stand after the three steps: nothing was found, or
    a client is named, and an assertion was checked when they say so. *)
Definition credentials_ok (env : Env) (db : DB) (req : Request.t) (cache : JWKSCache)
    (c : Credentials.t) : Prop :=
  if c.(Credentials.jwtAuthenticated)
  then forall client, db.(oauth_clients) !! c.(Credentials.clientID) = Some client ->
         proved env req cache c.(Credentials.clientID) client
  else c.(Credentials.clientID) = uuid_nil \/
       presents req c.(Credentials.clientID) c.(Credentials.clientSecret).

Lemma basic_credentials_ok env db req cache c :
  basic_credentials req.(Request.Authorization) = Ok c -> credentials_ok env db req cache c.
Proof.
  unfold basic_credentials. destruct (scan_lit "Basic " _) as [text|] eqn:Hp; [|intros [= <-]; by left].
  destruct (DecodeString _ text) as [b|] eqn:Hd; [|done].
  destruct (cut ":" _) as [[name secret]|] eqn:Hcut; [|done].
  destruct (uuid_parse name) as [id|] eqn:Hid; [|done]. intros [= <-]. right. left.
  exists text, b, name. split_and!; try done. by apply scan_lit_iff.
Qed.

Lemma post_credentials_ok env db req cache c c' :
  credentials_ok env db req cache c -> c.(Credentials.jwtAuthenticated) = false ->
  post_credentials req.(Request.PostForm) c = Ok c' ->
  credentials_ok env db req cache c' /\ c'.(Credentials.jwtAuthenticated) = false.
Proof.
  intros Hc Hj. unfold post_credentials. destruct (_ || _); [intros [= <-]; by split|].
  destruct (uuid_parse _) as [id|] eqn:Hid; [|done]. cbv zeta. intros [= <-]. split; [|done]. right. right.
  by split.
Qed.

Lemma wp_validate_assertion cache assertion r env st
    (Q : result (JWKSCache * result (UUID * string)) -> State -> Prop) :
  (forall c' e n, (exists uri, cache_grows env cache c' uri) -> error_code e = "invalid_client" ->
     Q (Ok (c', Err e)) (mkState st.(st_db) n)) ->
  (forall c' id m n, (exists uri, cache_grows env cache c' uri) ->
     (exists key, DecryptHMACSecret r.(hmacSealed) cfg.(hmacEncryptionKey) = Ok key /\
        asserts env assertion id (HMACKey key)) \/
     (exists kid key, r.(jwksURI) <> "" /\ published env c' r.(jwksURI) kid key /\
        asserts env assertion id (RSAKey key)) ->
     Q (Ok (c', Ok (id, m))) (mkState st.(st_db) n)) ->
  wp (validate_assertion cfg cache assertion r) Q env st.
Proof.
  intros He Hok. unfold validate_assertion. destruct st as [db n0].
  assert (Hsame : exists uri, cache_grows env cache cache uri) by (exists ""; by left).
  destruct (String.eqb _ "HS256").
  - do 3 wp_step. apply wp_guard; intros _; wp_simpl; [|wp_step; by apply He].
    wp_step. apply wp_guard; intros _; wp_simpl; [|wp_step; by apply He]. do 3 wp_step.
    destruct (DecryptHMACSecret _ _) as [key|e] eqn:Hk; wp_simpl; [|wp_step; by apply He]. wp_step.
    apply wp_ValidateClientSecretJWT; [intros e; wp_simpl; wp_step; by apply He|].
    intros id Ha. wp_simpl. wp_step. apply Hok; [done|]. left. by exists key.
  - destruct (String.eqb_spec (jwksURI r) ""); [wp_step; by apply He|]. wp_step.
    apply wp_ValidateClientAssertionJWT; intros; wp_simpl; wp_step; [apply He; eauto|].
    apply Hok; [by eexists|]. right. by exists kid, key.
Qed.

Lemma wp_assertion_credentials cache req c env st
    (Q : result (JWKSCache * result Credentials.t) -> State -> Prop) :
  credentials_ok env st.(st_db) req cache c -> c.(Credentials.jwtAuthenticated) = false ->
  (forall c' e n, (exists uri, cache_grows env cache c' uri) -> error_code e = "invalid_client" ->
     Q (Ok (c', Err e)) (mkState st.(st_db) n)) ->
  (forall c' cr n, (exists uri, cache_grows env cache c' uri) -> credentials_ok env st.(st_db) req c' cr ->
     Q (Ok (c', Ok cr)) (mkState st.(st_db) n)) ->
  wp (assertion_credentials cfg cache req.(Request.PostForm) c) Q env st.
Proof.
  intros Hc Hj He Hok. unfold assertion_credentials. cbv zeta. destruct st as [db n0].
  assert (Hsame : exists uri, cache_grows env cache cache uri) by (exists ""; by left).
  destruct (_ || _); [wp_step; by apply Hok|]. do 2 wp_step.
  apply wp_resolveAssertionClient; [intros; wp_simpl; wp_step; by apply He|].
  intros a id client n Hcl. wp_simpl. wp_step.
  apply wp_validate_assertion; simpl; [intros; wp_step; by apply He|].
  intros c' id' m n' Hg Hp. wp_step. destruct (N.eqb_spec id' id) as [->|]; [|by apply He].
  apply Hok; [done|]. unfold credentials_ok. simpl. intros client' Hcl'. simpl in Hcl.
  assert (client' = client) as -> by congruence.
  destruct Hp as [(key & Hk & Ha)|(kid & key & Hne & Hpub & Ha)]; [by eapply proved_hmac|].
  destruct (OAuthClient.JWKSUri client) as [uri|] eqn:Hu; [|done]. by eapply proved_key.
Qed.
(** The client's policy did not deny it. *)
Definition not_denied_by (eval : string -> list (string * any) -> Reader (bool * string))
    (env : Env) (db : DB) (req : Request.t) (client : OAuthClient.t) : Prop :=
  exists n m, forall reason, eval "client_auth"
    (Inputs.BuildClientAuthInput env.(env_wall) client m req.(Request.Method) req.(Request.Path)
       req.(Request.ClientIP) req.(Request.UserAgent)) env n db <> Ok (true, reason).

Lemma wp_check_secret c client env st (Q : result unit -> State -> Prop) :
  (forall e, error_code e = "invalid_client" -> Q (Err e) st) ->
  ((c.(Credentials.jwtAuthenticated) = true \/ client.(OAuthClient.IsPublic) = true \/
    (c.(Credentials.clientSecret) <> "" /\ exists hash, client.(OAuthClient.SecretHash) = Some hash /\
       Verify c.(Credentials.clientSecret) hash = Ok true)) -> Q (Ok tt) st) ->
  wp (check_secret c client) Q env st.
Proof.
  intros He Hok. unfold check_secret. destruct (_ || _) eqn:Hj.
  { wp_step. apply Hok. apply orb_true_iff in Hj. tauto. }
  wp_step. apply wp_guard; [|intros _; by apply He]. intros Hs. bool_simpl. wp_simpl.
  destruct (OAuthClient.SecretHash client) as [hash|] eqn:Hh; [|wp_step; by apply He].
  apply wp_guard; [|intros _; by apply He]. intros Hv. apply Hok. right. right. split; [done|].
  exists hash. split; [done|]. by destruct (Verify _ hash) as [[]|].
Qed.

Lemma wp_check_policy req c client env st (Q : result unit -> State -> Prop) :
  (forall e n, error_code e = "invalid_client" -> Q (Err e) (mkState st.(st_db) n)) ->
  (forall n, (forall eval, cfg.(evaluator) = Some eval -> not_denied_by eval env st.(st_db) req client) ->
     Q (Ok tt) (mkState st.(st_db) n)) ->
  wp (check_policy cfg req c client) Q env st.
Proof.
  intros He Hok. unfold check_policy. destruct st as [db n0]. simpl in *.
  destruct (evaluator cfg) as [eval|]; [|wp_step; by apply Hok]. cbv zeta.
  set (m := if String.eqb _ "" then _ else _). do 2 wp_step. wp_simpl. do 3 wp_step. wp_simpl.
  destruct (eval "client_auth" _ env n0 db) as [[[] reason]|e] eqn:Hev; wp_step; [by apply He|..];
    apply Hok; intros ? [= <-]; exists n0, m; intros r; rewrite Hev; done.
Qed.

Lemma wp_admit_client req c cache env st (Q : result OAuthClient.t -> State -> Prop) :
  credentials_ok env st.(st_db) req cache c ->
  (forall e n, error_code e = "invalid_client" -> Q (Err e) (mkState st.(st_db) n)) ->
  (forall id client n, st.(st_db).(oauth_clients) !! id = Some client ->
     client.(OAuthClient.Active) = true -> proved env req cache id client ->
     (forall eval, cfg.(evaluator) = Some eval -> not_denied_by eval env st.(st_db) req client) ->
     Q (Ok client) (mkState st.(st_db) n)) ->
  wp (admit_client cfg req c) Q env st.
Proof.
  intros Hc He Hok. unfold admit_client, ClientSvc.FindActive, ClientRepo.FindActiveByID. destruct st as [db n0].
  wp_step. apply wp_guard; [|intros _; by apply He]. intros Hnil. bool_simpl. wp_simpl.
  do 2 wp_step; [wp_steps; by apply He|]. wp_simpl.
  destruct (oauth_clients db !! Credentials.clientID c) as [client|] eqn:Hcl; [|wp_step; by apply He].
  destruct (OAuthClient.Active client) eqn:Hact; [|wp_step; by apply He].
  wp_step. apply wp_check_secret; [intros; by apply He|]. intros Hsec. wp_simpl. wp_step.
  apply wp_check_policy; [intros; by apply He|]. intros n Hpol. wp_simpl. wp_step.
  apply (Hok (Credentials.clientID c)); [done|done| |done]. unfold credentials_ok in Hc.
  destruct (Credentials.jwtAuthenticated c); [by apply Hc|]. destruct Hc as [Hc|Hc]; [done|].
  destruct Hsec as [Hj|[Hp|(Hs & hash & Hh & Hv)]]; [done|by eapply proved_public|by eapply proved_secret].
Qed.

(** What an outcome of the middleware stands for. *)
Definition admits (env : Env) (db : DB) (req : Request.t) (cache : JWKSCache)
    (outcome : result OAuthClient.t) : Prop :=
  match outcome with
  | Ok client => exists id, db.(oauth_clients) !! id = Some client /\
      client.(OAuthClient.Active) = true /\ proved env req cache id client /\
      (forall eval, cfg.(evaluator) = Some eval -> not_denied_by eval env db req client)
  | Err e => error_code e = "invalid_client"
  end.

(** C11: A request passes client authentication only as an active client of the
    database that it proved to be: a public client by its identifier; a
    confidential one by its secret, or by an assertion for this endpoint that is
    not expired and is signed with its HMAC key or with a key its key document
    published less than five minutes ago; and only if no policy denies it.
    Every refusal is [invalid_client]; nothing is written, and the cache of key
    documents changes at most by a document fetched now. *)
Theorem ClientAuth_spec (cache : JWKSCache) (req : Request.t) (env : Env) (db : DB) :
  let '(r, db') := run (ClientAuth cfg cache req) env db in
  db' = db /\ exists cache' outcome, r = Ok (cache', outcome) /\
    (exists uri, cache_grows env cache cache' uri) /\
    admits env db req cache' outcome.
Proof.
  apply (run_wp (ClientAuth cfg cache req) (fun r db' => db' = db /\ exists cache' outcome, r = Ok (cache', outcome) /\ _)).
  assert (Hsame : exists uri, cache_grows env cache cache uri) by (exists ""; by left).
  assert (Hbad : forall c' e (db' : DB), db' = db -> (exists uri, cache_grows env cache c' uri) ->
    error_code e = "invalid_client" ->
    db' = db /\ exists cache' outcome, Ok (c', @Err OAuthClient.t e) = Ok (cache', outcome) /\
      (exists uri, cache_grows env cache cache' uri) /\ admits env db req cache' outcome)
    by (intros c' e db' -> Hg Hcode; split; [done|]; by exists c', (Err e)).
  unfold ClientAuth. destruct (basic_credentials _) as [c|e] eqn:Hb.
  2: { wp_step. apply Hbad; [done..|]. revert Hb. unfold basic_credentials. repeat case_match; by intros [= <-]. }
  destruct (post_credentials _ c) as [c2|e] eqn:Hp.
  2: { wp_step. apply Hbad; [done..|]. revert Hp. unfold post_credentials. repeat case_match; by intros [= <-]. }
  assert (Hj : c.(Credentials.jwtAuthenticated) = false).
  { revert Hb. unfold basic_credentials. repeat case_match; by intros [= <-]. }
  apply (basic_credentials_ok env db req cache) in Hb. apply (post_credentials_ok env db req cache) in Hp as [Hc2 Hj2];
    [|done..]. wp_step. apply wp_assertion_credentials; [done|done|intros; wp_simpl; wp_step; by apply Hbad|].
  intros c' cr n Hg Hcr. wp_simpl. do 2 wp_step.
  apply (wp_admit_client req cr c'); [done|intros; wp_simpl; wp_step; by apply Hbad|].
  intros id client n' Hcl Hact Hpr Hpol. wp_simpl. wp_step. split; [done|]. exists c', (Ok client).
  split_and!; [done|done|]. by exists id.
Qed.
End facts.
End ClientAuthFacts.
