(* ===== verification/ClientFlow.v ===== *)
(** * From registration to authentication

    The secret a client is given opens the token endpoint, from its creation
    until the next rotation; sample libraries, and runs of the middleware. *)
From S2P Require Import Prelude.
From S2P Require Import Errors.
From S2P Require Import GoLib.
From S2P Require Import GoNet.
From S2P Require Import Model.
From S2P Require Import Platform.
From S2P Require Import Exec.
From S2P Require Import Crypto.
From S2P Require Import NetSafety.
From S2P Require Import GoEnc.
From S2P Require Import UserSvc.
From S2P Require Import Argon2.
From S2P Require Import ClientSvc.
From S2P Require Import ClientFacts.
From S2P Require Import ClientAuth.
Local Open Scope Z_scope.

Module ClientFlow.

(** The form a client posts with its secret. *)
Definition post_form `{Platform} (id : UUID) (secret : string) (k : string) : string :=
  if String.eqb k "client_id" then uuid_string id
  else if String.eqb k "client_secret" then secret else "".

Definition post_request `{Platform} (id : UUID) (secret : string) : Request.t :=
  Request.mk "" (post_form id secret) "POST" "/token" "203.0.113.9" "client".

Section flow.
Context `{PlatformLaws} `{NetLib} `{Argon2Laws} `{JwtLib}.
Context (cfg : Config) (h : Argon2Hasher.t) (key : list Z).
Hypothesis no_policy : cfg.(evaluator) = None.
Hypothesis hasher_wf : Argon2Hasher.wf h.

Definition clients : ClientSvc.Service := ClientSvc.mkService (argon2_hasher h) key.

(** An active confidential client whose row holds a hash of the secret. *)
Definition holds_secret (db : DB) (id : UUID) (secret : string) (client : OAuthClient.t) : Prop :=
  db.(oauth_clients) !! id = Some client /\ client.(OAuthClient.Active) = true /\
  client.(OAuthClient.IsPublic) = false /\
  exists hash, client.(OAuthClient.SecretHash) = Some hash /\ Verify secret hash = Ok true.

Lemma secret_authenticates db id secret client env cache :
  holds_secret db id secret client -> id <> uuid_nil -> secret <> "" -> uuid_string id <> "" ->
  no_faults env ->
  run (ClientAuth cfg cache (post_request id secret)) env db = (Ok (cache, Ok client), db).
Proof.
  intros (Hc & Hact & Hpub & hash & Hh & Hv) Hid Hs Hne Hnf.
  apply N.eqb_neq in Hid. apply String.eqb_neq in Hs, Hne.
  unfold run, ClientAuth, basic_credentials, post_credentials, post_request, post_form. simpl.
  rewrite Hne, uuid_parse_string, Hs. unfold assertion_credentials. simpl. rewrite Hid. simpl.
  unfold bind, attempt, ret, admit_client, guard, ClientSvc.FindActive, ClientRepo.FindActiveByID, find_row,
    check_secret, check_policy, throw, bind, ret, bump. simpl.
  rewrite Hid. simpl. rewrite Hnf, Hc, Hact, Hpub. simpl. rewrite Hs, Hh. simpl. rewrite Hv, no_policy. done.
Qed.
(** A row with a hash of the secret. *)
Definition armed (secret : string) (c : OAuthClient.t) : Prop :=
  c.(OAuthClient.IsPublic) = false /\
  exists hash, c.(OAuthClient.SecretHash) = Some hash /\ Verify secret hash = Ok true.

Lemma wp_newSecret_armed env st (Q : result (string * string) -> State -> Prop) :
  (forall e n, Q (Err e) (mkState st.(st_db) n)) ->
  (forall secret hash n, secret <> "" -> Verify secret hash = Ok true ->
     Q (Ok (secret, hash)) (mkState st.(st_db) n)) ->
  wp (ClientSvc.newSecret clients) Q env st.
Proof.
  intros He Hok. apply ClientFacts.wp_newSecret; [exact He|]. intros secret hash n n' Hne Hh. apply Hok; [done|].
  change (reader_of (Hash h secret) env n' st.(st_db) = Ok hash) in Hh. unfold reader_of in Hh.
  by apply Argon2Facts.Hash_verifies in Hh.
Qed.

Lemma with_defaults_armed secret c :
  armed secret c -> armed secret (ClientRepo.with_defaults c) /\
  (ClientRepo.with_defaults c).(OAuthClient.Active) = true.
Proof. intros Hc. split; [|reflexivity]. unfold ClientRepo.with_defaults. by repeat case_match. Qed.

Lemma wp_repo_Create_armed c secret env st :
  armed secret c ->
  wp (ClientRepo.Create c) (fun r st' => match r with
    | Ok row => holds_secret st'.(st_db) row.(OAuthClient.ID) secret row
    | Err _ => True
    end) env st.
Proof.
  intros Hc%with_defaults_armed. unfold ClientRepo.Create. wp_step. apply wp_BeforeCreate; [done|].
  intros id n _. wp_simpl. do 2 wp_step. wp_simpl. wp_step. revert Hc.
  generalize (ClientRepo.with_defaults c). intros c' [Hc Hact].
  set (row := c' <| OAuthClient.ID := id |> <| OAuthClient.CreatedAt ::= _ |> <| OAuthClient.UpdatedAt ::= _ |>).
  wp_steps; [done|]. split; [apply lookup_insert_eq|]. split; [exact Hact | exact Hc].
Qed.

Lemma wp_Create_armed input env st :
  input.(CreateInput.IsPublic) = false ->
  wp (ClientSvc.Create clients input) (fun r st' => match r with
    | Ok resp => cr_ClientSecret resp <> "" /\
        holds_secret st'.(st_db) (cr_Client resp).(OAuthClient.ID) (cr_ClientSecret resp) (cr_Client resp)
    | Err _ => True
    end) env st.
Proof.
  intros Hpub. unfold ClientSvc.Create. do 2 wp_step. destruct (ClientSvc.validateRedirectURIs _) as [[]|e]; [|done].
  wp_step. apply wp_read_only; [apply ClientFacts.check_jwks_uri_read_only|]. intros [[]|e] n; [|done]. wp_step.
  destruct (ClientFacts.client_of_drafted input) as (Hp & _).
  unfold ClientSvc.add_secret. rewrite Hpub. wp_step. apply wp_newSecret_armed; [done|].
  intros secret hash n1 Hne Hv. wp_simpl. do 2 wp_step.
  set (c := (ClientSvc.client_of input) <| OAuthClient.SecretHash := Some hash |>).
  assert (Hc : armed secret c) by (split; [by rewrite <-Hpub, <-Hp | by exists hash]).
  eapply (wp_mono _ _ _ (fun r _ => match r with Ok (c', _) => armed secret c' | Err _ => True end)).
  - intros [[c' hmac]|e] st' Hc'; [|done]. wp_simpl. do 2 wp_step.
    eapply wp_mono; [|by apply wp_repo_Create_armed]. intros [row|e] st'' Hrow; [|done]. by wp_step.
  - unfold ClientSvc.add_hmac_secret. destruct (String.eqb _ _); wp_step; [|exact Hc].
    apply wp_read_only; [apply ClientFacts.generateAndSealHMACSecret_read_only|]. intros [[b64 sealed]|e] n'; [|done]. wp_steps. exact Hc.
Qed.

End flow.
(** ** Samples *)
Module Sample.
#[local] Instance platform : Platform := sample_platform.
#[local] Instance platform_laws : PlatformLaws := sample_platform_laws.
#[local] Instance netlib : NetLib := sample_netlib.
#[local] Existing Instances Argon2Facts.sample_argon2 Argon2Facts.sample_argon2_laws.

Definition q : string := String dquote EmptyString.

(** An assertion of the client 5: its header, its claims and a signature. *)
Definition id5 : string := pos_string (N.succ_pos 5).
Definition assertion : string :=
  base64_raw_url (bytes_of ("{" +:+ q +:+ "alg" +:+ q +:+ ":" +:+ q +:+ "HS256" +:+ q +:+ "}")) +:+ "."
  +:+ base64_raw_url (bytes_of ("{" +:+ q +:+ "sub" +:+ q +:+ ":" +:+ q +:+ id5 +:+ q +:+ "}"))
  +:+ ".c2ln".

Definition token : JWT.t :=
  JWT.mk SigningMethodHMAC "HS256" []
    [("sub", AString id5); ("iss", AString id5); ("aud", AStrings ["https://op.example/token"]);
     ("jti", AString "1"); ("exp", AInt (2000 * second))].

(** A library that knows this token, signed with the key 1, 2, 3. *)
Definition subject (name : string) (claims : list (string * any)) : result string :=
  match map_get claims name with Some (AString s) => Ok s | _ => Err (EOther "claim") end.

Definition sample_parse (s : string) (keyfunc : JWT.t -> result verification_key)
    (methods : option (list string)) (now : Z) : result unit :=
  if negb (String.eqb s assertion) then Err (EOther "malformed")
  else match keyfunc token with
       | Err e => Err e
       | Ok key =>
           if bool_decide (key = HMACKey [1; 2; 3]) && (now <? 2000 * second)
              && match methods with Some l => mem "HS256" l | None => true end
           then Ok tt else Err (EOther "token is invalid")
       end.

#[local] Instance jwtlib : JwtLib := {|
  ParseUnverified s := if String.eqb s assertion then Some token else None;
  GetSubject := subject "sub";
  GetIssuer := subject "iss";
  GetAudience claims := match map_get claims "aud" with Some (AStrings l) => Ok l | _ => Err (EOther "aud") end;
  GetExpirationTime claims := match map_get claims "exp" with Some (AInt t) => Some t | _ => None end;
  signed_with s m key := bool_decide (key = HMACKey [1; 2; 3]);
  jwt_Parse := sample_parse;
  http_get _ _ _ _ := Ok (200, bytes_of ("{" +:+ q +:+ "keys" +:+ q +:+ ":[]}"))
|}.

#[local] Instance jwtlib_laws : JwtLibLaws.
Proof.
  intros s keyfunc methods now. simpl. unfold sample_parse.
  destruct (String.eqb s assertion); [|done]. simpl. destruct (keyfunc token) as [key|e] eqn:Hk; [|done].
  destruct (bool_decide_reflect (key = HMACKey [1; 2; 3])); [|done]. simpl.
  destruct (Z.ltb_spec now (2000 * second)); [|done]. simpl.
  destruct (match methods with Some l => _ | None => _ end) eqn:Hm; [|done]. intros _.
  exists token, key, (2000 * second). split_and!; try done; [by apply bool_decide_eq_true_2|].
  intros l ->. by apply mem_iff.
Qed.

Definition config : Config := mkConfig "https://op.example/token" (repeat 7 32) None.

Definition env (t : Z) : Env :=
  mkEnv (t * second) (t * second) (fun _ => false) (fun i j => Z.of_nat (i + j)) (fun i => N.of_nat (5 + i)).

Definition sealed : list Z :=
  match fst (run (Aes.EncryptHMACSecret [1; 2; 3] (repeat 7 32)) (env 1) empty_db) with
  | Ok l => l
  | Err _ => []
  end.

(** A confidential client of each kind: by assertion, and by secret. *)
Definition hmac_client : OAuthClient.t :=
  OAuthClient.zero <| OAuthClient.ID := 5%N |> <| OAuthClient.Active := true |>
    <| OAuthClient.TokenAuthMethod := "client_secret_jwt" |> <| OAuthClient.SecretHMACKey := sealed |>
    <| OAuthClient.SecretHash := Some "$argon2id$v=19$m=64,t=3,p=2$AAECAw$cHcAAQIDAAA" |>.

Definition db : DB := empty_db <| oauth_clients := {[ 5%N := hmac_client ]} |>.

Definition assertion_request : Request.t :=
  Request.mk "" (fun k =>
    if String.eqb k "client_assertion_type" then "urn:ietf:params:oauth:client-assertion-type:jwt-bearer"
    else if String.eqb k "client_assertion" then assertion else "") "POST" "/token" "203.0.113.9" "client".

Lemma ClientAuth_spec_witness :
  fst (run (ClientAuth config ∅ assertion_request) (env 1000) db) = Ok (∅, Ok hmac_client) /\
  let '(r, db') := run (ClientAuth config ∅ assertion_request) (env 1000) db in
  db' = db /\ exists cache' outcome, r = Ok (cache', outcome) /\
    (exists uri, ClientAuthFacts.cache_grows (env 1000) ∅ cache' uri) /\
    ClientAuthFacts.admits config (env 1000) db assertion_request cache' outcome.
Proof.
  split; [vm_compute; reflexivity|].
  pose proof (ClientAuthFacts.ClientAuth_spec config ∅ assertion_request (env 1000) db) as Hs. exact Hs.
Defined.

(** The same assertion is refused once it expired; and it is accepted twice, its
    [jti] is not recorded. *)
Example assertion_expires_and_replays :
  is_ok (match fst (run (ClientAuth config ∅ assertion_request) (env 2000) db) with
         | Ok (_, r) => r | Err e => Err e end) = false /\
  let '(r, db') := run (ClientAuth config ∅ assertion_request) (env 1000) db in
  fst (run (ClientAuth config ∅ assertion_request) (env 1001) db') = r.
Proof. vm_compute. split; reflexivity. Qed.

(** The method a client is registered for is not checked: this one, registered
    for signed assertions, gets in with its secret in the form. *)
Example registered_method_not_checked :
  hmac_client.(OAuthClient.TokenAuthMethod) = "client_secret_jwt" /\
  fst (run (ClientAuth config ∅ (post_request 5 "pw")) (env 1000) db) = Ok (∅, Ok hmac_client).
Proof. vm_compute. split; reflexivity. Qed.

Definition web : CreateInput.t := ClientFacts.Sample.web_client.

End Sample.
End ClientFlow.
