(* ===== verification/Oidc.v ===== *)
(** * oidc/: the OpenID provider

    The signing keys and their rotation (oidc/repository.go, oidc/service.go,
    crypto/keys.go), identity tokens, JWT access tokens, their validation, the
    published keys, user information, logout, and the encryption of tokens for a
    client (oidc/encryption.go).  RSA, X.509 and PEM, the JWT library
    (github.com/golang-jwt/jwt), the JOSE library (github.com/lestrrat-go/jwx)
    and HTTP are parameters. *)
From S2P Require Import Prelude.
From S2P Require Import Errors.
From S2P Require Import GoLib.
From S2P Require Import GoNet.
From S2P Require Import Model.
From S2P Require Import Platform.
From S2P Require Import Exec.
From S2P Require Import NetSafety.
From S2P Require Import Crypto.
From S2P Require Import GoEnc.
From S2P Require Import SessionSvc.
From S2P Require Import Scopes.
From S2P Require Import ActionToken.
From S2P Require Import UserSvc.
From S2P Require Import OAuth.
From S2P Require Import Rbac.
From S2P Require Import Json.
From S2P Require Import JsonTree.
From S2P Require Import Profile.
From S2P Require Import ProcMem.
From S2P Require Import ClientSvc.
From S2P Require ClientAuth.
From Stdlib Require Import Ascii.
Local Open Scope Z_scope.

Abbreviation RSAPublicKey := ClientAuth.RSAPublicKey.
Abbreviation claims_map := (list (string * any)).

(** ** The libraries *)

(** The restrictions of [jwt.Parse] the service asks for. *)
Record parse_options := mkParseOptions {
  WithIssuer : string;
  WithValidMethods : list string;
  WithExpirationRequired : bool
}.

(** [x509_*], [pem_*] and [rsa_*] are the functions of the packages of that
    name; [SignedString] takes a header and claims, with RS256; [jwt_Parse]
    answers the claims of a valid token at a time; [jwk_Parse] answers the keys
    of a document, a key has a use and an identifier that may be absent;
    [http_Get] and [http_PostForm] answer a status, the former with a body. *)
Class JoseLib := {
  RSAPrivateKey : Type;
  rsa_GenerateKey : Z -> Reader RSAPrivateKey;
  rsa_PublicKey : RSAPrivateKey -> RSAPublicKey;
  x509_MarshalPKCS1PrivateKey : RSAPrivateKey -> list Z;
  x509_ParsePKCS1PrivateKey : list Z -> result RSAPrivateKey;
  x509_MarshalPKIXPublicKey : RSAPublicKey -> result (list Z);
  x509_ParsePKIXPublicKey : list Z -> result (option RSAPublicKey);
  pem_EncodeToMemory : string -> list Z -> string;
  pem_Decode : string -> option (list Z);
  SignedString : claims_map -> claims_map -> RSAPrivateKey -> result string;
  jwt_Parse : string -> (ClientAuth.JWT.t -> result ClientAuth.verification_key) -> parse_options -> Z ->
              result claims_map;
  JWKKey : Type;
  jwk_Parse : list Z -> result (list JWKKey);
  jwk_use : JWKKey -> option string;
  jwk_kid : JWKKey -> option string;
  LookupKeyEncryptionAlgorithm : string -> bool;
  LookupContentEncryptionAlgorithm : string -> bool;
  jwe_Encrypt : string -> string -> JWKKey -> string -> option string -> Reader string;
  http_Get : string -> Reader (Z * result (list Z));
  http_PostForm : string -> list (string * string) -> Reader Z
}.

(** ** crypto/keys.go *)
Section keys.
Context `{JoseLib}.

Definition rsaKeyBits : Z := 2048.

Definition GenerateRSAKeyPair : M (string * string) :=
  privateKey <- map_err (ask (rsa_GenerateKey rsaKeyBits))
    (fun e => EOther ("failed to generate RSA key: " +:+ error_string e)) ;;
  let privatePEM := pem_EncodeToMemory "RSA PRIVATE KEY" (x509_MarshalPKCS1PrivateKey privateKey) in
  pubBytes <- map_err (of_result (x509_MarshalPKIXPublicKey (rsa_PublicKey privateKey)))
    (fun e => EOther ("failed to marshal public key: " +:+ error_string e)) ;;
  ret (privatePEM, pem_EncodeToMemory "PUBLIC KEY" pubBytes).

Definition ParseRSAPrivateKey (pemStr : string) : result RSAPrivateKey :=
  match pem_Decode pemStr with
  | None => Err (EOther "failed to decode PEM block")
  | Some bytes => x509_ParsePKCS1PrivateKey bytes
  end.

Definition ParseRSAPublicKey (pemStr : string) : result RSAPublicKey :=
  match pem_Decode pemStr with
  | None => Err (EOther "failed to decode PEM block")
  | Some bytes =>
      match x509_ParsePKIXPublicKey bytes with
      | Err e => Err e
      | Ok None => Err (EOther "not an RSA public key")
      | Ok (Some k) => Ok k
      end
  end.
End keys.

(** ** oidc/repository.go *)
Module KeyRepo.

(** [created_at DESC], and the primary key that [First] adds. *)
Definition newer (a b : SigningKey.t) : Prop :=
  (b.(SigningKey.CreatedAt) <? a.(SigningKey.CreatedAt))
  || (a.(SigningKey.CreatedAt) =? b.(SigningKey.CreatedAt)) && N.leb a.(SigningKey.ID) b.(SigningKey.ID) = true.
#[global] Instance newer_dec : RelDecision newer.
Proof. intros a b. unfold newer. apply _. Defined.

Definition FindActive : M (option SigningKey.t) :=
  let! (key, err) := find_row SigningKey.zero (fun _ db =>
    head (merge_sort newer (select_rows SigningKey.Active db.(signing_keys)))) ;;
  match err with Some e => throw e | None => ret key end.

(** A key that is active, or whose grace has not run out. *)
Definition valid_at (now : Z) (k : SigningKey.t) : bool :=
  k.(SigningKey.Active)
  || match k.(SigningKey.ExpiresAt) with Some e => now <? e | None => false end.

Definition FindAllValid (now : Z) : M (list SigningKey.t) :=
  query (fun _ db => merge_sort newer (select_rows (valid_at now) db.(signing_keys))).

Definition retire (grace : Z) (k : SigningKey.t) : SigningKey.t :=
  k <| SigningKey.Active := false |> <| SigningKey.ExpiresAt := Some grace |>.

Definition DeactivateActive (grace : Z) : M unit :=
  update_table (upd signing_keys) (fun _ => update_rows SigningKey.Active (retire grace)).

(** The columns with a default take it when the field has its zero value. *)
Definition with_defaults (k : SigningKey.t) : SigningKey.t :=
  k <| SigningKey.Algorithm ::= fun a => if String.eqb a "" then "RS256" else a |> <| SigningKey.Active := true |>.

Definition Create (k : SigningKey.t) : M SigningKey.t :=
  wall <- wall_now ;;
  let row := with_defaults k <| SigningKey.CreatedAt ::= auto_time wall |> in
  create_in signing_keys (upd signing_keys) row.(SigningKey.ID) row ;;;
  ret row.
End KeyRepo.

(** ** oidc/service.go *)

(** The wiring; the parts that are a bool may be missing. *)
Record Service := mkService {
  rbacService : bool;
  sessionRevoker : bool;
  clientFinder : bool;
  issuer : string;
  pairwiseSalt : string
}.

(** What the process keeps: the keys, and the documents of keys of the clients
    with the time they were fetched at. *)
Module Keys.
Section keys.
Context `{JoseLib}.
Record t := mk {
  activeKey : option SigningKey.t;
  privateKey : option RSAPrivateKey;
  allKeys : list SigningKey.t;
  jweJWKSCache : gmap string (list JWKKey * Z)
}.
#[global] Instance eta_t : Eta t := fun r => mk (r.(activeKey)) (r.(privateKey)) (r.(allKeys)) (r.(jweJWKSCache)).
Definition empty : t := mk None None [] ∅.
End keys.
End Keys.

Definition SupportedJWEAlgs : list string := ["RSA-OAEP-256"; "ECDH-ES"; "ECDH-ES+A128KW"; "ECDH-ES+A256KW"].
Definition SupportedJWEEncs : list string := ["A256GCM"; "A128GCM"; "A256CBC-HS512"; "A128CBC-HS256"].

Definition no_signing_key : error := EOther "no active signing key".

(** *** Claims *)

(** A value for a key of which the condition holds. *)
Definition set_if (b : bool) (k : string) (v : any) (m : claims_map) : claims_map := if b then map_set m k v else m.
Definition set_text (k v : string) (m : claims_map) : claims_map := set_if (negb (String.eqb v "")) k (AString v) m.

(** What is merged into the claims of a token, but for the names in [skip]. *)
Definition merge_claims (skip : list string) (extra m : claims_map) : claims_map :=
  fold_left (fun m kv => if mem kv.1 skip then m else map_set m kv.1 kv.2) extra m.

Definition reservedIDTokenClaims : list string :=
  ["iss"; "sub"; "aud"; "exp"; "iat"; "auth_time"; "nonce"; "at_hash"; "c_hash"; "s_hash"; "acr"; "amr"].

Definition reservedAccessTokenClaims : list string :=
  ["iss"; "sub"; "aud"; "exp"; "iat"; "jti"; "client_id"; "scope"].

Definition applyExtraClaims (m extra : claims_map) : claims_map := merge_claims reservedIDTokenClaims extra m.

(** The members of a document that is a [map[string]map[string]any]. *)
Definition unmarshal_requests (raw : string) : option (list (string * object)) :=
  m ← unmarshal_object raw;
  mapM (fun kv => o ← object_of kv.2; Some (kv.1, o)) (default [] m).

Fixpoint request_for (m : list (string * object)) (target : string) : option object :=
  match m with
  | [] => None
  | (k, o) :: m => if String.eqb k target then Some o else request_for m target
  end.

Section claims.
Context `{Platform}.

(** A requested claim is added when it has no value yet and the user has one. *)
Definition add_requested (all : claims_map) (m : claims_map) (kv : string * any) : claims_map :=
  match map_get m kv.1, map_get all kv.1 with
  | None, Some v => map_set m kv.1 v
  | _, _ => m
  end.

Definition applyRequestedClaims (requestedClaimsJSON target : string) (u : User.t) (m : claims_map) : claims_map :=
  match unmarshal_requests requestedClaimsJSON ≫= fun r => request_for r target with
  | Some (Some requested) =>
      fold_left (add_requested (OIDCClaims u ["openid"; "profile"; "email"; "phone"; "address"])) requested m
  | _ => m
  end.

(** A digest of the salt and the sector with the user. *)
Definition ComputePairwiseSub (sectorIdentifier : string) (userID : UUID) (salt : string) : string :=
  base64_raw_url (sha256 (bytes_of salt ++ bytes_of (sectorIdentifier +:+ uuid_string userID))).

Definition sector_of (sector : string) (clientID : UUID) : string :=
  if String.eqb sector "" then uuid_string clientID else sector.

Definition idTokenSubject (m : claims_map) : result UUID :=
  match map_get m "sub" with
  | Some (AString sub) =>
      match uuid_parse sub with Some u => Ok u | None => Err (EOther "invalid sub claim") end
  | _ => Err (EOther "missing sub claim")
  end.

(** The first audience that reads as an identifier; the nil one without any. *)
Definition idTokenAudience (m : claims_map) : UUID :=
  match map_get m "aud" with
  | Some (AString s) => default uuid_nil (uuid_parse s)
  | Some (AList l) =>
      default uuid_nil (head (omap (fun a => match a with AString s => uuid_parse s | _ => None end) l))
  | _ => uuid_nil
  end.
End claims.

Module OidcSvc.
Section service.
Context `{Platform} `{NetLib} `{JoseLib} (s : Service).

Abbreviation OM := (@PM Keys.t).

(** *** The signing keys *)

(** A failure is logged, and the keys stay. *)
Definition loadAllKeys : OM unit :=
  keys <~ liftP (attempt (now <- clock_now ;; KeyRepo.FindAllValid now)) ;;
  match keys with
  | Ok keys => set_memory (fun m => m <| Keys.allKeys := keys |>)
  | Err _ => retP tt
  end.

Definition install (key : SigningKey.t) (privKey : RSAPrivateKey) : OM unit :=
  set_memory (fun m => m <| Keys.activeKey := Some key |> <| Keys.privateKey := Some privKey |>).

Definition new_key (id : UUID) (privPEM pubPEM : string) : SigningKey.t :=
  SigningKey.mk id privPEM pubPEM "RS256" true None time_zero.

(** The statements of a rotation; no transaction holds them together. *)
Definition rotate_rows : M (SigningKey.t * string) :=
  let! (privPEM, pubPEM) := GenerateRSAKeyPair ;;
  id <- uuid_newV7 ;;
  now <- clock_now ;;
  KeyRepo.DeactivateActive (time_add now (24 * hour)) ;;;
  key <- KeyRepo.Create (new_key id privPEM pubPEM) ;;
  ret (key, privPEM).

Definition RotateKey : OM unit :=
  kp <~ liftP rotate_rows ;;
  privKey <~ of_resultP (ParseRSAPrivateKey kp.2) ;;
  install kp.1 privKey ~;;
  loadAllKeys.

Definition EnsureSigningKey : OM unit :=
  key <~ liftP KeyRepo.FindActive ;;
  match key with
  | None => RotateKey
  | Some key =>
      privKey <~ of_resultP (ParseRSAPrivateKey key.(SigningKey.PrivateKeyPEM)) ;;
      install key privKey ~;;
      loadAllKeys
  end.

Definition HasActiveKey (m : Keys.t) : bool := is_Some_b m.(Keys.activeKey) && is_Some_b m.(Keys.privateKey).

(** The key to sign with. *)
Definition signing_key (m : Keys.t) : result (SigningKey.t * RSAPrivateKey) :=
  match m.(Keys.activeKey), m.(Keys.privateKey) with
  | Some key, Some privKey => Ok (key, privKey)
  | _, _ => Err no_signing_key
  end.

(** [jwt.NewWithClaims(jwt.SigningMethodRS256, claims)] with the key's
    identifier in the header. *)
Definition sign (header m : claims_map) (kp : SigningKey.t * RSAPrivateKey) : result string :=
  SignedString (header ++ [("kid", AString (uuid_string kp.1.(SigningKey.ID)))]) m kp.2.

(** *** Identity tokens *)

Definition token_subject (c : IDTokenClaims.t) : string :=
  if String.eqb c.(IDTokenClaims.SubjectType) "pairwise" && negb (String.eqb s.(pairwiseSalt) "")
  then ComputePairwiseSub (sector_of c.(IDTokenClaims.SectorIdentifier) c.(IDTokenClaims.ClientID))
         c.(IDTokenClaims.UserID) s.(pairwiseSalt)
  else uuid_string c.(IDTokenClaims.UserID).

Definition base_claims (c : IDTokenClaims.t) (now : Z) : claims_map :=
  set_if (negb (Nat.eqb (length c.(IDTokenClaims.AMR)) 0)) "amr" (AStrings c.(IDTokenClaims.AMR))
  (set_text "acr" c.(IDTokenClaims.ACR) (set_text "s_hash" c.(IDTokenClaims.SHash)
  (set_text "c_hash" c.(IDTokenClaims.CHash) (set_text "at_hash" c.(IDTokenClaims.ATHash)
  (set_text "nonce" c.(IDTokenClaims.Nonce)
    [("iss", AString s.(issuer)); ("sub", AString (token_subject c));
     ("aud", AString (uuid_string c.(IDTokenClaims.ClientID)));
     ("exp", AInt (time_unix (time_add now c.(IDTokenClaims.TTL)))); ("iat", AInt (time_unix now));
     ("auth_time", AInt (time_unix c.(IDTokenClaims.AuthTime)))]))))).

(** Roles are for the scope of that name; a failure is logged. *)
Definition enrichClaimsWithRoles (userID : UUID) (scopes : list string) (m : claims_map) : M claims_map :=
  if s.(rbacService) && mem "roles" scopes then
    roles <- opt (RbacSvc.GetUserRoles userID) ;;
    ret (match roles with
         | None => m
         | Some roles =>
             let names := AStrings (map Role.Name roles) in map_set (map_set m "roles" names) "groups" names
         end)
  else ret m.

Definition add_user_claims (u : option User.t) (scopes : list string) (m : claims_map) : claims_map :=
  match u with Some u => merge_claims ["sub"] (OIDCClaims u scopes) m | None => m end.

Definition honor_requests (c : IDTokenClaims.t) (u : option User.t) (m : claims_map) : claims_map :=
  match u with
  | Some u => if String.eqb c.(IDTokenClaims.RequestedClaims) "" then m
              else applyRequestedClaims c.(IDTokenClaims.RequestedClaims) "id_token" u m
  | None => m
  end.

(** The claims of an identity token. *)
Definition id_token_claims (c : IDTokenClaims.t) : M claims_map :=
  now <- clock_now ;;
  u <- opt (UserSvc.GetByID c.(IDTokenClaims.UserID)) ;;
  m <- enrichClaimsWithRoles c.(IDTokenClaims.UserID) c.(IDTokenClaims.Scopes)
         (add_user_claims u c.(IDTokenClaims.Scopes) (base_claims c now)) ;;
  ret (honor_requests c u (applyExtraClaims m (default [] c.(IDTokenClaims.ExtraClaims)))).

(** *** Encryption for a client: oidc/encryption.go *)

Definition ValidateJWEEncryptionPair (alg enc : string) : result unit :=
  if String.eqb alg "" && String.eqb enc "" then Ok tt
  else if String.eqb alg "" || String.eqb enc "" then Err (EOther "both alg and enc must be set together")
  else if negb (LookupKeyEncryptionAlgorithm alg) then Err (EOther ("unsupported encryption alg: " +:+ alg))
  else if negb (LookupContentEncryptionAlgorithm enc) then Err (EOther ("unsupported encryption enc: " +:+ enc))
  else Ok tt.

Definition jweJWKSCacheTTL : Z := 5 * minute.

(** The cached document, unless it is too old. *)
Definition cache_get (wall : Z) (uri : string) (m : Keys.t) : option (list JWKKey) :=
  match m.(Keys.jweJWKSCache) !! uri with
  | Some (set, fetchedAt) => if jweJWKSCacheTTL <? time_sub wall fetchedAt then None else Some set
  | None => None
  end.

(** The limit on the body that is read. *)
Definition body_limit : nat := Z.to_nat (Z.shiftl 1 20).

Definition fetch_document (uri : string) : M (list JWKKey) :=
  map_err (ValidatePublicHTTPSURL uri) (fun e => EOther ("client jwks_uri rejected: " +:+ error_string e)) ;;;
  let! (status, body) := map_err (ask (http_Get uri)) (fun e => EOther ("fetch client jwks: " +:+ error_string e)) ;;
  guard (status =? 200) (EOther ("client jwks endpoint returned " +:+ dec status)) ;;;
  body <- map_err (of_result body) (fun e => EOther ("read client jwks body: " +:+ error_string e)) ;;
  map_err (of_result (jwk_Parse (firstn body_limit body)))
    (fun e => EOther ("parse client jwks: " +:+ error_string e)).

Definition fetchClientJWKS (uri : string) : OM (list JWKKey) :=
  wall <~ liftP wall_now ;;
  m <~ memory ;;
  match cache_get wall uri m with
  | Some set => retP set
  | None =>
      set <~ liftP (fetch_document uri) ;;
      wall <~ liftP wall_now ;;
      set_memory (fun m => m <| Keys.jweJWKSCache ::= insert uri (set, wall) |>) ~;;
      retP set
  end.

(** A key for encryption, or else the first that does not say what it is for. *)
Definition pickEncryptionKey (set : list JWKKey) : result JWKKey :=
  match find (fun k => opt_str_eqb (jwk_use k) "enc") set with
  | Some k => Ok k
  | None =>
      match find (fun k => String.eqb (default "" (jwk_use k)) "") set with
      | Some k => Ok k
      | None => Err (EOther "no encryption-capable key found in client JWKS")
      end
  end.

Definition EncryptForClient (payload jwksURI alg enc : string) : OM string :=
  guardP (LookupKeyEncryptionAlgorithm alg) (EOther ("unsupported encryption alg: " +:+ alg)) ~;;
  guardP (LookupContentEncryptionAlgorithm enc) (EOther ("unsupported encryption enc: " +:+ enc)) ~;;
  guardP (negb (String.eqb jwksURI "")) (EOther "client has no jwks_uri configured; cannot encrypt") ~;;
  set <~ fetchClientJWKS jwksURI ;;
  key <~ of_resultP (pickEncryptionKey set) ;;
  let kid := match jwk_kid key with Some k => if String.eqb k "" then None else Some k | None => None end in
  liftP (map_err (ask (jwe_Encrypt payload alg key enc kid)) (fun e => EOther ("jwe encrypt: " +:+ error_string e))).

Definition signed_id_token (mem : Keys.t) (c : IDTokenClaims.t) : M string :=
  kp <- of_result (signing_key mem) ;;
  m <- id_token_claims c ;;
  of_result (sign [] m kp).

Definition GenerateIDToken (c : IDTokenClaims.t) : OM string :=
  mem <~ memory ;;
  signed <~ liftP (signed_id_token mem c) ;;
  if String.eqb c.(IDTokenClaims.EncryptionAlg) "" then retP signed
  else EncryptForClient signed c.(IDTokenClaims.EncryptionJWKSURI) c.(IDTokenClaims.EncryptionAlg)
         c.(IDTokenClaims.EncryptionEnc).

(** *** Access tokens: RFC 9068 *)

Definition known_signing_alg (alg : string) : bool := mem alg [""; "RS256"; "RS384"; "RS512"; "PS256"].

Definition access_base_claims (c : AccessTokenJWTClaims.t) (now : Z) (jti : string) : claims_map :=
  [("iss", AString s.(issuer));
   ("sub", AString (uuid_string (default c.(AccessTokenJWTClaims.ClientID) c.(AccessTokenJWTClaims.UserID))));
   ("aud", AString c.(AccessTokenJWTClaims.Audience));
   ("exp", AInt (time_unix (time_add now c.(AccessTokenJWTClaims.TTL)))); ("iat", AInt (time_unix now));
   ("jti", AString jti); ("client_id", AString (uuid_string c.(AccessTokenJWTClaims.ClientID)));
   ("scope", AString (String.concat " " c.(AccessTokenJWTClaims.Scopes)))].

(** The token and its identifier; the tokens of clients carry no roles. *)
Definition GenerateAccessTokenJWT (mem : Keys.t) (c : AccessTokenJWTClaims.t) (signingAlg : string)
    : M (string * string) :=
  kp <- of_result (signing_key mem) ;;
  guard (known_signing_alg signingAlg)
    (EOther ("unsupported access token signing alg for current server key: " +:+ signingAlg)) ;;;
  now <- clock_now ;;
  jtiUUID <- uuid_newV7 ;;
  let jti := uuid_string jtiUUID in
  m <- match c.(AccessTokenJWTClaims.UserID) with
       | Some u => enrichClaimsWithRoles u c.(AccessTokenJWTClaims.Scopes) (access_base_claims c now jti)
       | None => ret (access_base_claims c now jti)
       end ;;
  let m := merge_claims reservedAccessTokenClaims (default [] c.(AccessTokenJWTClaims.ExtraClaims)) m in
  signed <- of_result (sign [("typ", AString "at+jwt")] m kp) ;;
  ret (signed, jti).

(** *** Validation *)

Definition header_kid (t : ClientAuth.JWT.t) : option string :=
  match map_get t.(ClientAuth.JWT.Header) "kid" with Some (AString kid) => Some kid | _ => None end.

Definition is_RSA (t : ClientAuth.JWT.t) : bool :=
  match t.(ClientAuth.JWT.Method) with ClientAuth.SigningMethodRSA => true | _ => false end.

(** The public key of the first of the keys with the identifier. *)
Definition key_of (keys : list SigningKey.t) (kid : string) : result ClientAuth.verification_key :=
  match find (fun k => String.eqb (uuid_string k.(SigningKey.ID)) kid) keys with
  | None => Err (EOther "unknown signing key")
  | Some k => match ParseRSAPublicKey k.(SigningKey.PublicKeyPEM) with
              | Ok pub => Ok (ClientAuth.RSAKey pub)
              | Err e => Err e
              end
  end.

Definition id_token_keyfunc (keys : list SigningKey.t) (t : ClientAuth.JWT.t) : result ClientAuth.verification_key :=
  if negb (is_RSA t) then Err (EOther "unexpected signing method")
  else match header_kid t with
       | None => Err (EOther "missing kid in token header")
       | Some kid => key_of keys kid
       end.

Definition access_token_keyfunc (keys : list SigningKey.t) (t : ClientAuth.JWT.t)
    : result ClientAuth.verification_key :=
  if negb (is_RSA t) then Err (EOther "unexpected signing method")
  else match header_kid t with
       | None => Err (EOther "missing kid")
       | Some kid => if String.eqb kid "" then Err (EOther "missing kid") else key_of keys kid
       end.

Definition id_token_options : parse_options := mkParseOptions s.(issuer) ["RS256"] false.
Definition access_token_options : parse_options := mkParseOptions s.(issuer) ["RS256"] true.

Definition validateIDTokenClaims (mem : Keys.t) (tokenString : string) : M claims_map :=
  wall <- wall_now ;;
  of_result (jwt_Parse tokenString (id_token_keyfunc mem.(Keys.allKeys)) id_token_options wall).

Definition ValidateIDToken (mem : Keys.t) (tokenString : string) : M UUID :=
  m <- validateIDTokenClaims mem tokenString ;;
  of_result (idTokenSubject m).

Definition ValidateAccessTokenJWT (mem : Keys.t) (tokenString : string) : M claims_map :=
  wall <- wall_now ;;
  of_result (jwt_Parse tokenString (access_token_keyfunc mem.(Keys.allKeys)) access_token_options wall).

(** *** The published keys *)

Record JWK := mkJWK { Kty : string; Use : string; Alg : string; Kid : string; N : string; E : string }.

(** [big.Int.Bytes]: the magnitude, big-endian, without leading zeros. *)
Fixpoint big_bytes_fuel (fuel : nat) (n : Z) (acc : list Z) : list Z :=
  match fuel with
  | O => acc
  | S fuel => if n <=? 0 then acc else big_bytes_fuel fuel (n / 256) (n mod 256 :: acc)
  end.
Definition big_bytes (n : Z) : list Z := big_bytes_fuel (S (Z.to_nat (Z.log2 (Z.abs n)))) (Z.abs n) [].

Definition jwk_of (k : SigningKey.t) (pub : RSAPublicKey) : JWK :=
  mkJWK "RSA" "sig" k.(SigningKey.Algorithm) (uuid_string k.(SigningKey.ID))
    (base64_raw_url (big_bytes pub.(ClientAuth.rsa_N))) (base64_raw_url (big_bytes pub.(ClientAuth.rsa_E))).

(** Keys that cannot be read are logged. *)
Definition GetJWKS (mem : Keys.t) : list JWK :=
  omap (fun k => match ParseRSAPublicKey k.(SigningKey.PublicKeyPEM) with
                 | Ok pub => Some (jwk_of k pub)
                 | Err _ => None
                 end) mem.(Keys.allKeys).

(** *** User information *)

Definition pairwise_sub (userID clientID : UUID) (client : OAuthClient.t) : string :=
  ComputePairwiseSub (sector_of (default "" client.(OAuthClient.SectorIdentifierURI)) clientID) userID s.(pairwiseSalt).

(** The client is used without a look at whether there is one. *)
Definition GetUserInfo (userID clientID : UUID) (scopes : list string) : M claims_map :=
  u <- UserSvc.GetByID userID ;;
  m <- enrichClaimsWithRoles userID scopes (OIDCClaims u scopes) ;;
  if s.(clientFinder) && negb (N.eqb clientID uuid_nil) then
    let! (client, err) := ClientRepo.FindActiveByID clientID ;;
    match err, client with
    | Some _, _ => ret m
    | None, None => throw nil_dereference
    | None, Some client =>
        ret (if String.eqb client.(OAuthClient.SubjectType) "pairwise"
             then map_set m "sub" (AString (pairwise_sub userID clientID client)) else m)
    end
  else ret m.

Definition GenerateUserInfoJWT (mem : Keys.t) (claims : claims_map) (clientID : UUID) : M string :=
  kp <- of_result (signing_key mem) ;;
  now <- clock_now ;;
  of_result (sign [] (merge_claims [] claims
    [("iss", AString s.(issuer)); ("aud", AString (uuid_string clientID)); ("iat", AInt (time_unix now))]) kp).

(** *** Logout *)

Record EndSessionParams := mkEndSessionParams {
  IDTokenHint : string;
  PostLogoutRedirectURI : string;
  State : string;
  es_ClientID : string
}.

(** The back-channel notifications are sent by goroutines; they are an answer here. *)
Record EndSessionResponse := mkEndSessionResponse {
  RedirectURI : string;
  FrontchannelLogoutURIs : list string;
  notified : list (string * Z)
}.

Definition logout_claims (userID clientID : UUID) (sid : option UUID) (jti : UUID) (now : Z) : claims_map :=
  [("iss", AString s.(issuer)); ("sub", AString (uuid_string userID)); ("aud", AString (uuid_string clientID));
   ("iat", AInt (time_unix now)); ("jti", AString (uuid_string jti));
   ("events", AMap [("http://schemas.openid.net/event/backchannel-logout", AMap [])])]
  ++ match sid with Some sid => [("sid", AString (uuid_string sid))] | None => [] end.

Definition GenerateLogoutToken (mem : Keys.t) (userID clientID : UUID) (sessionRequired : bool)
    (sessionID : option UUID) : M string :=
  kp <- of_result (signing_key mem) ;;
  jti <- opt uuid_newV7 ;;
  now <- clock_now ;;
  of_result (sign [] (logout_claims userID clientID (if sessionRequired then sessionID else None)
                        (default uuid_nil jti) now) kp).

(** One notification; its failures are logged. *)
Definition notify (mem : Keys.t) (userID : UUID) (c : OAuthClient.t) : M (option (string * Z)) :=
  match c.(OAuthClient.BackchannelLogoutURI) with
  | None => ret None
  | Some uri =>
      opt (token <- GenerateLogoutToken mem userID c.(OAuthClient.ID) c.(OAuthClient.BackchannelLogoutSessionReq) None ;;
           status <- ask (http_PostForm uri [("logout_token", token)]) ;;
           ret (uri, status))
  end.

Fixpoint notify_all (mem : Keys.t) (userID : UUID) (l : list OAuthClient.t) : M (list (string * Z)) :=
  match l with
  | [] => ret []
  | c :: l => r <- notify mem userID c ;; rest <- notify_all mem userID l ;; ret (option_list r ++ rest)
  end.

Definition dispatchBackchannelLogout (mem : Keys.t) (userID : UUID) : M (list (string * Z)) :=
  clients <- opt (ClientRepo.FindClientsWithBackchannelLogout userID) ;;
  notify_all mem userID (default [] clients).

(** The subject and the audience of a hint; one that is not valid is ignored. *)
Definition hinted (mem : Keys.t) (hint : string) : M (option UUID * UUID) :=
  if String.eqb hint "" then ret (None, uuid_nil)
  else
    claims <- opt (validateIDTokenClaims mem hint) ;;
    ret (match claims with
         | None => (None, uuid_nil)
         | Some m => (match idTokenSubject m with Ok u => Some u | Err _ => None end, idTokenAudience m)
         end).

(** The address after logout, when it is one of the client's. *)
Definition post_logout (p : EndSessionParams) (hintClientID : UUID) : M string :=
  if String.eqb p.(PostLogoutRedirectURI) "" then ret ""
  else
    let named := if String.eqb p.(es_ClientID) "" then uuid_nil else default uuid_nil (uuid_parse p.(es_ClientID)) in
    let resolved := if N.eqb named uuid_nil then hintClientID else named in
    if N.eqb resolved uuid_nil || negb s.(clientFinder) then ret ""
    else
      let! (client, err) := ClientRepo.FindActiveByID resolved ;;
      match err, client with
      | None, Some client =>
          ret (if OAuthClient.HasPostLogoutRedirectURI client p.(PostLogoutRedirectURI)
               then p.(PostLogoutRedirectURI) +:+ (if String.eqb p.(State) "" then "" else "?state=" +:+ p.(State))
               else "")
      | _, _ => ret ""
      end.

(** Failures are logged; a logout is always answered. *)
Definition EndSession (mem : Keys.t) (p : EndSessionParams) : M EndSessionResponse :=
  let! (userID, hintClientID) := hinted mem p.(IDTokenHint) ;;
  match userID with
  | Some u => if s.(sessionRevoker) then ignore (SessionSvc.RevokeAll u None) else ret tt
  | None => ret tt
  end ;;;
  sent <- match userID with
          | Some u => if s.(clientFinder) then dispatchBackchannelLogout mem u else ret []
          | None => ret []
          end ;;
  front <- match userID with
           | Some u => if s.(clientFinder)
                       then clients <- opt (ClientRepo.FindClientsWithFrontchannelLogout u) ;;
                            ret (omap OAuthClient.FrontchannelLogoutURI (default [] clients))
                       else ret []
           | None => ret []
           end ;;
  redirect <- post_logout p hintClientID ;;
  ret (mkEndSessionResponse redirect front sent).
End service.
End OidcSvc.

(** *** The discovery documents *)
Module OpenIDConfiguration.
Record t := mk {
  Issuer : string;
  AuthorizationEndpoint : string;
  TokenEndpoint : string;
  UserinfoEndpoint : string;
  JwksURI : string;
  IntrospectionEndpoint : string;
  RevocationEndpoint : string;
  DeviceAuthorizationEndpoint : string;
  EndSessionEndpoint : string;
  ResponseTypesSupported : list string;
  GrantTypesSupported : list string;
  SubjectTypesSupported : list string;
  IDTokenSigningAlgValuesSupported : list string;
  IDTokenEncryptionAlgValuesSupported : list string;
  IDTokenEncryptionEncValuesSupported : list string;
  UserinfoEncryptionAlgValuesSupported : list string;
  UserinfoEncryptionEncValuesSupported : list string;
  AccessTokenSigningAlgValuesSupported : list string;
  ScopesSupported : list string;
  TokenEndpointAuthMethodsSupported : list string;
  ClaimsSupported : list string;
  CodeChallengeMethodsSupported : list string;
  ResponseModesSupported : list string;
  RequestParameterSupported : bool;
  RequestURIParameterSupported : bool;
  RequestObjectSigningAlgValuesSupported : list string;
  ClaimsParameterSupported : bool;
  BackchannelLogoutSupported : bool;
  BackchannelLogoutSessionSupported : bool;
  AuthorizationResponseIssParameterSupported : bool;
  PushedAuthorizationRequestEndpoint : string;
  FrontchannelLogoutSupported : bool;
  FrontchannelLogoutSessionSupported : bool;
  CheckSessionIframe : string;
  UserinfoSigningAlgValuesSupported : list string;
  RegistrationEndpoint : string
}.
End OpenIDConfiguration.

Module OAuthAuthorizationServerMetadata.
Record t := mk {
  Issuer : string;
  AuthorizationEndpoint : string;
  TokenEndpoint : string;
  JwksURI : string;
  IntrospectionEndpoint : string;
  RevocationEndpoint : string;
  DeviceAuthorizationEndpoint : string;
  ResponseTypesSupported : list string;
  GrantTypesSupported : list string;
  ScopesSupported : list string;
  TokenEndpointAuthMethodsSupported : list string;
  CodeChallengeMethodsSupported : list string;
  ResponseModesSupported : list string;
  RequestParameterSupported : bool;
  RequestURIParameterSupported : bool;
  RequestObjectSigningAlgValuesSupported : list string;
  AuthorizationResponseIssParameterSupported : bool;
  PushedAuthorizationRequestEndpoint : string;
  RegistrationEndpoint : string;
  IntrospectionEndpointAuthMethodsSupported : list string;
  RevocationEndpointAuthMethodsSupported : list string;
  AccessTokenSigningAlgValuesSupported : list string
}.
End OAuthAuthorizationServerMetadata.

Module Discovery.
Section discovery.
Context (s : Service).

Definition GetDiscovery : OpenIDConfiguration.t :=
  {|
     OpenIDConfiguration.Issuer := s.(issuer);
     OpenIDConfiguration.AuthorizationEndpoint := s.(issuer) +:+ "/ui/authorize";
     OpenIDConfiguration.TokenEndpoint := s.(issuer) +:+ "/token";
     OpenIDConfiguration.UserinfoEndpoint := s.(issuer) +:+ "/userinfo";
     OpenIDConfiguration.JwksURI := s.(issuer) +:+ "/.well-known/jwks.json";
     OpenIDConfiguration.IntrospectionEndpoint := s.(issuer) +:+ "/introspect";
     OpenIDConfiguration.RevocationEndpoint := s.(issuer) +:+ "/revoke";
     OpenIDConfiguration.DeviceAuthorizationEndpoint := s.(issuer) +:+ "/device_authorization";
     OpenIDConfiguration.EndSessionEndpoint := s.(issuer) +:+ "/end_session";
     OpenIDConfiguration.ResponseTypesSupported := ["code"; "code id_token"; "code token";
       "code id_token token"];
     OpenIDConfiguration.GrantTypesSupported := ["authorization_code"; "client_credentials"; "refresh_token";
       "urn:ietf:params:oauth:grant-type:device_code"];
     OpenIDConfiguration.SubjectTypesSupported := ["public"; "pairwise"];
     OpenIDConfiguration.IDTokenSigningAlgValuesSupported := ["RS256"];
     OpenIDConfiguration.IDTokenEncryptionAlgValuesSupported := SupportedJWEAlgs;
     OpenIDConfiguration.IDTokenEncryptionEncValuesSupported := SupportedJWEEncs;
     OpenIDConfiguration.UserinfoEncryptionAlgValuesSupported := SupportedJWEAlgs;
     OpenIDConfiguration.UserinfoEncryptionEncValuesSupported := SupportedJWEEncs;
     OpenIDConfiguration.AccessTokenSigningAlgValuesSupported := ["RS256"];
     OpenIDConfiguration.ScopesSupported := ["openid"; "profile"; "email"; "phone"; "address"; "roles";
       "offline_access"];
     OpenIDConfiguration.TokenEndpointAuthMethodsSupported := ["client_secret_basic"; "client_secret_post";
       "private_key_jwt"; "client_secret_jwt"; "none"];
     OpenIDConfiguration.ClaimsSupported := ["sub"; "iss"; "aud"; "exp"; "iat"; "auth_time"; "nonce";
       "at_hash"; "acr"; "amr"; "name"; "given_name"; "family_name"; "middle_name"; "nickname";
       "preferred_username"; "profile"; "picture"; "website"; "gender"; "birthdate"; "zoneinfo"; "locale";
       "email"; "email_verified"; "phone_number"; "phone_number_verified"; "address"; "updated_at"; "roles";
       "groups"];
     OpenIDConfiguration.CodeChallengeMethodsSupported := ["S256"];
     OpenIDConfiguration.ResponseModesSupported := ["query"; "fragment"; "form_post"];
     OpenIDConfiguration.RequestParameterSupported := true;
     OpenIDConfiguration.RequestURIParameterSupported := true;
     OpenIDConfiguration.RequestObjectSigningAlgValuesSupported := ["RS256"; "RS384"; "RS512"; "PS256";
       "ES256"; "ES384"];
     OpenIDConfiguration.ClaimsParameterSupported := true;
     OpenIDConfiguration.BackchannelLogoutSupported := true;
     OpenIDConfiguration.BackchannelLogoutSessionSupported := true;
     OpenIDConfiguration.AuthorizationResponseIssParameterSupported := true;
     OpenIDConfiguration.PushedAuthorizationRequestEndpoint := s.(issuer) +:+ "/par";
     OpenIDConfiguration.FrontchannelLogoutSupported := true;
     OpenIDConfiguration.FrontchannelLogoutSessionSupported := true;
     OpenIDConfiguration.CheckSessionIframe := s.(issuer) +:+ "/check_session";
     OpenIDConfiguration.UserinfoSigningAlgValuesSupported := ["RS256"];
     OpenIDConfiguration.RegistrationEndpoint := s.(issuer) +:+ "/register"
  |}.

Definition authMethods : list string :=
  ["client_secret_basic"; "client_secret_post"; "private_key_jwt"; "client_secret_jwt"; "none"].

Definition GetOAuthAuthorizationServerMetadata : OAuthAuthorizationServerMetadata.t :=
  {|
     OAuthAuthorizationServerMetadata.Issuer := s.(issuer);
     OAuthAuthorizationServerMetadata.AuthorizationEndpoint := s.(issuer) +:+ "/ui/authorize";
     OAuthAuthorizationServerMetadata.TokenEndpoint := s.(issuer) +:+ "/token";
     OAuthAuthorizationServerMetadata.JwksURI := s.(issuer) +:+ "/.well-known/jwks.json";
     OAuthAuthorizationServerMetadata.IntrospectionEndpoint := s.(issuer) +:+ "/introspect";
     OAuthAuthorizationServerMetadata.RevocationEndpoint := s.(issuer) +:+ "/revoke";
     OAuthAuthorizationServerMetadata.DeviceAuthorizationEndpoint := s.(issuer) +:+ "/device_authorization";
     OAuthAuthorizationServerMetadata.ResponseTypesSupported := ["code"; "code id_token"; "code token";
       "code id_token token"];
     OAuthAuthorizationServerMetadata.GrantTypesSupported := ["authorization_code"; "client_credentials";
       "refresh_token"; "urn:ietf:params:oauth:grant-type:device_code"];
     OAuthAuthorizationServerMetadata.ScopesSupported := ["openid"; "profile"; "email"; "phone"; "address";
       "roles"; "offline_access"];
     OAuthAuthorizationServerMetadata.TokenEndpointAuthMethodsSupported := authMethods;
     OAuthAuthorizationServerMetadata.CodeChallengeMethodsSupported := ["S256"];
     OAuthAuthorizationServerMetadata.ResponseModesSupported := ["query"; "fragment"; "form_post"];
     OAuthAuthorizationServerMetadata.RequestParameterSupported := true;
     OAuthAuthorizationServerMetadata.RequestURIParameterSupported := true;
     OAuthAuthorizationServerMetadata.RequestObjectSigningAlgValuesSupported := ["RS256"; "RS384"; "RS512";
       "PS256"; "ES256"; "ES384"];
     OAuthAuthorizationServerMetadata.AuthorizationResponseIssParameterSupported := true;
     OAuthAuthorizationServerMetadata.PushedAuthorizationRequestEndpoint := s.(issuer) +:+ "/par";
     OAuthAuthorizationServerMetadata.RegistrationEndpoint := s.(issuer) +:+ "/register";
     OAuthAuthorizationServerMetadata.IntrospectionEndpointAuthMethodsSupported := authMethods;
     OAuthAuthorizationServerMetadata.RevocationEndpointAuthMethodsSupported := authMethods;
     OAuthAuthorizationServerMetadata.AccessTokenSigningAlgValuesSupported := ["RS256"]
  |}.
End discovery.
End Discovery.

(** ** oidc/adapter.go: what the authorization server is given

    The keys are those the process has when the adapter is called; a document of
    keys fetched for an encryption is not kept. *)
Section adapters.
Context `{Platform} `{NetLib} `{JoseLib} (s : Service) (mem : Keys.t).

Definition IDTokenAdapter : IDTokenGenerator := fun claims =>
  reader_of (r <- OidcSvc.GenerateIDToken s claims mem ;; of_result r.1).

Definition AccessTokenJWTSignerAdapter : AccessTokenJWTSigner :=
  mkSigner (fun claims alg => reader_of (OidcSvc.GenerateAccessTokenJWT s mem claims alg))
    (fun tokenString => reader_of (OidcSvc.ValidateAccessTokenJWT s mem tokenString)).

Definition IDTokenValidatorAdapter : IDTokenValidator := fun hint => reader_of (OidcSvc.ValidateIDToken s mem hint).
End adapters.

(** ** oidc/handler.go *)
Module OidcHandler.

(** The answer to a request for user information: JSON, or a token. *)
Inductive UserInfoAnswer := Claims (m : claims_map) | ApplicationJWT (token : string).

Definition given (o : option string) : bool := match o with Some v => negb (String.eqb v "") | None => false end.

Section handler.
Context `{Platform} `{NetLib} `{JoseLib} (s : Service).

(** Signed, and encrypted when the client asks for it. *)
Definition protect (claims : claims_map) (clientID : UUID) (c : OAuthClient.t) : @PM Keys.t UserInfoAnswer :=
  let needsSign := given c.(OAuthClient.UserinfoSignedResponseAlg) in
  let needsEnc := given c.(OAuthClient.UserinfoEncryptedResponseAlg)
                  && given c.(OAuthClient.UserinfoEncryptedResponseEnc) in
  if needsSign || needsEnc then
    mem <~ memory ;;
    jwt <~ liftP (OidcSvc.GenerateUserInfoJWT s mem claims clientID) ;;
    if needsEnc then
      guardP (given c.(OAuthClient.JWKSUri))
        (ErrInternal "client requests encrypted userinfo but has no jwks_uri") ~;;
      encrypted <~ map_errP (OidcSvc.EncryptForClient jwt (default "" c.(OAuthClient.JWKSUri))
                      (default "" c.(OAuthClient.UserinfoEncryptedResponseAlg))
                      (default "" c.(OAuthClient.UserinfoEncryptedResponseEnc)))
        (fun e => ErrInternal ("failed to encrypt userinfo: " +:+ error_string e)) ;;
      retP (ApplicationJWT encrypted)
    else retP (ApplicationJWT jwt)
  else retP (Claims claims).

(** The user, the client and the scopes are those of the access token. *)
Definition UserInfo (userID : option UUID) (clientID : UUID) (scopes : list string) : @PM Keys.t UserInfoAnswer :=
  match userID with
  | None => throwP (ErrUnauthorized "not authenticated")
  | Some userID =>
      claims <~ liftP (OidcSvc.GetUserInfo s userID clientID scopes) ;;
      client <~ liftP (if s.(clientFinder) && negb (N.eqb clientID uuid_nil)
                       then let! (client, err) := ClientRepo.FindActiveByID clientID ;;
                            ret (match err with None => client | Some _ => None end)
                       else ret None) ;;
      match client with
      | Some c => protect claims clientID c
      | None => retP (Claims claims)
      end
  end.

(** Where the browser goes after a logout. *)
Definition logout_target (r : OidcSvc.EndSessionResponse) : string :=
  let q := (if String.eqb r.(OidcSvc.RedirectURI) "" then [] else [("redirect_uri", r.(OidcSvc.RedirectURI))])
           ++ map (fun uri => ("frontchannel_logout_uris", uri)) r.(OidcSvc.FrontchannelLogoutURIs) in
  let encoded := values_encode q in
  "/ui/logout" +:+ (if String.eqb encoded "" then "" else "?" +:+ encoded).

Definition EndSession (mem : Keys.t) (p : OidcSvc.EndSessionParams) : M string :=
  r <- OidcSvc.EndSession s mem p ;;
  ret (logout_target r).

Definition RotateKey : @PM Keys.t unit :=
  map_errP (OidcSvc.RotateKey) (fun e => ErrInternal ("failed to rotate signing key: " +:+ error_string e)).
End handler.
End OidcHandler.
