(* ===== verification/OidcFacts.v ===== *)
(** * oidc/: theorems

    What an identity token says, whose keys verify it and for how long, what the
    published keys are, what a logout does, and where the service departs from
    what its comments say. *)
From S2P Require Import Prelude.
From S2P Require Import Errors.
From S2P Require Import GoLib.
From S2P Require Import GoNet.
From S2P Require Import Model.
From S2P Require Import Platform.
From S2P Require Import Exec.
From S2P Require Import NetSafety.
From S2P Require Import Crypto.
From S2P Require Import GoEnc.
From S2P Require Import SessionSvc.
From S2P Require Import Scopes.
From S2P Require Import ActionToken.
From S2P Require Import UserSvc.
From S2P Require Import OAuth.
From S2P Require Import Rbac.
From S2P Require Import Json.
From S2P Require Import JsonFlat.
From S2P Require Import JsonTree.
From S2P Require Import Profile.
From S2P Require Import ProcMem.
From S2P Require Import ClientSvc.
From S2P Require ClientAuth.
From S2P Require Import Introspect.
From S2P Require Import Oidc.
From Stdlib Require Import Ascii.
Local Open Scope Z_scope.

Module OidcFacts.
Import OidcSvc ProfileFacts.

(** ** Claims *)

Lemma merge_claims_other skip extra m k :
  k ∈ skip \/ map_get extra k = None -> map_get (merge_claims skip extra m) k = map_get m k.
Proof.
  unfold merge_claims. revert m. induction extra as [|[k0 v0] extra IH]; intros m Hk; simpl; [done|].
  assert (Hrest : k ∈ skip \/ map_get extra k = None).
  { destruct Hk as [|Hk]; [by left | right]. simpl in Hk. by destruct (String.eqb k0 k). }
  rewrite (IH _ Hrest). destruct (mem k0 skip) eqn:Em; [done|]. rewrite map_get_set.
  destruct (String.eqb_spec k0 k) as [->|]; [|done].
  destruct Hk as [Hk|Hk]; [apply mem_iff in Hk; congruence | simpl in Hk; by rewrite String.eqb_refl in Hk].
Qed.

Lemma covered_None scopes m k : all_covered scopes m -> covered scopes k = false -> map_get m k = None.
Proof.
  induction 1 as [|[k0 v0] m Hk0 Hm IH]; intros Hk; [done|]. simpl in *.
  destruct (String.eqb_spec k0 k) as [->|]; [congruence | by apply IH].
Qed.

(** The names a server answers for. *)
Definition server_claims : list string :=
  ["iss"; "aud"; "exp"; "iat"; "auth_time"; "nonce"; "at_hash"; "c_hash"; "s_hash"; "acr"; "amr"; "jti"; "client_id"; "scope"; "nbf"].

Lemma server_not_covered scopes k : k ∈ server_claims -> covered scopes k = false.
Proof.
  intros Hk. unfold covered. apply orb_false_iff. split.
  - destruct (String.eqb_spec k "sub") as [->|]; [|done]. by apply mem_iff in Hk.
  - apply not_true_iff_false. rewrite existsb_exists. intros (s & _ & Hs). revert Hs.
    apply not_true_iff_false. apply list_elem_of_In in Hk. simpl in Hk.
    repeat destruct Hk as [<-|Hk]; [..|done]; unfold claims_of; repeat case_match; reflexivity.
Qed.

Section facts.
Context `{Platform} `{NetLib} `{JoseLib} (s : Oidc.Service).

Lemma user_claims_server u scopes k : k ∈ server_claims -> map_get (OIDCClaims u scopes) k = None.
Proof. intros Hk. by apply (covered_None scopes); [apply OIDCClaims_covered | apply server_not_covered]. Qed.

Lemma add_user_claims_reserved u scopes m k : k ∈ "sub" :: server_claims ->
  map_get (add_user_claims u scopes m) k = map_get m k.
Proof.
  intros Hk. destruct u as [u|]; [|done]. apply merge_claims_other.
  apply list_elem_of_In in Hk as [<-|Hk]; [left; by apply mem_iff|]. right. by apply user_claims_server, list_elem_of_In.
Qed.

Lemma add_requested_reserved all m kv k :
  map_get all k = None \/ is_Some (map_get m k) -> map_get (add_requested all m kv) k = map_get m k.
Proof.
  intros Hk. unfold add_requested. destruct (map_get m kv.1) eqn:Em; [done|].
  destruct (map_get all kv.1) eqn:Ea; [|done]. rewrite map_get_set.
  destruct (String.eqb_spec kv.1 k) as [<-|]; [|done].
  destruct Hk as [Hk|[v Hk]]; congruence.
Qed.

Lemma requested_reserved raw target u m k :
  k ∈ server_claims \/ is_Some (map_get m k) -> map_get (applyRequestedClaims raw target u m) k = map_get m k.
Proof.
  intros Hk. unfold applyRequestedClaims. destruct (_ ≫= _) as [[l|]|]; [|done..].
  set (all := OIDCClaims u _).
  assert (Hk' : map_get all k = None \/ is_Some (map_get m k))
    by (destruct Hk; [left; by apply user_claims_server | by right]). clear Hk. revert m Hk'.
  induction l as [|kv l IH]; intros m Hk; simpl; [done|]. rewrite IH; [by apply add_requested_reserved|].
  destruct Hk as [|Hk]; [by left | right]. by rewrite add_requested_reserved; [|right].
Qed.

(** What the server says in an identity token, whoever the user is and whatever
    the policies and the request ask for. *)
Definition text (v : string) : option any := if String.eqb v "" then None else Some (AString v).

Definition server_values (c : IDTokenClaims.t) (now : Z) : list (string * option any) :=
  [("iss", Some (AString s.(issuer))); ("sub", Some (AString (token_subject s c)));
   ("aud", Some (AString (uuid_string c.(IDTokenClaims.ClientID))));
   ("exp", Some (AInt (time_unix (time_add now c.(IDTokenClaims.TTL)))));
   ("iat", Some (AInt (time_unix now))); ("auth_time", Some (AInt (time_unix c.(IDTokenClaims.AuthTime))));
   ("nonce", text c.(IDTokenClaims.Nonce)); ("at_hash", text c.(IDTokenClaims.ATHash));
   ("c_hash", text c.(IDTokenClaims.CHash)); ("s_hash", text c.(IDTokenClaims.SHash));
   ("acr", text c.(IDTokenClaims.ACR));
   ("amr", match c.(IDTokenClaims.AMR) with [] => None | amr => Some (AStrings amr) end)].

Lemma server_values_names c now : map fst (server_values c now) = reservedIDTokenClaims.
Proof. reflexivity. Qed.

Lemma map_get_set_if b k v m k' :
  map_get (set_if b k v m) k' = if b && String.eqb k k' then Some v else map_get m k'.
Proof. destruct b; [apply map_get_set | done]. Qed.

Lemma base_claims_values c now k v : (k, v) ∈ server_values c now -> map_get (base_claims s c now) k = v.
Proof.
  intros Hk. unfold base_claims, set_text. rewrite !map_get_set_if. apply list_elem_of_In in Hk.
  simpl in Hk. unfold text in Hk.
  repeat destruct Hk as [[= <- <-]|Hk]; [..|done]; simpl; rewrite ?andb_false_r, ?andb_true_r; try done;
    repeat match goal with |- context [String.eqb ?x ""] => destruct (String.eqb x "") end; try done.
  by destruct c.(IDTokenClaims.AMR).
Qed.

Lemma wp_enrich userID scopes m env st (Q : result claims_map -> Exec.State -> Prop) :
  (forall m' n, (forall k, k <> "roles" -> k <> "groups" -> map_get m' k = map_get m k) ->
     Q (Ok m') (mkState st.(st_db) n)) ->
  wp (enrichClaimsWithRoles s userID scopes m) Q env st.
Proof.
  intros HQ. unfold enrichClaimsWithRoles. destruct st as [d n0]. destruct (_ && _); [|by apply wp_ret, (HQ m n0)].
  apply wp_bind, wp_opt, wp_read_only; [unfold RbacSvc.GetUserRoles, RbacRepo.GetUserRoles; solve_preserves ltac:(idtac)|].
  intros [roles|e] n; apply wp_ret; [|by apply (HQ m n)]. apply (HQ _ n). intros k Hr Hg. rewrite !map_get_set.
  destruct (String.eqb_spec "groups" k) as [<-|]; [done|]. by destruct (String.eqb_spec "roles" k) as [<-|].
Qed.

Lemma merge_reserved extra m k : k ∈ reservedIDTokenClaims -> map_get (applyExtraClaims m extra) k = map_get m k.
Proof. intros Hk. apply merge_claims_other. by left. Qed.

Lemma reserved_server k : k ∈ reservedIDTokenClaims -> k ∈ "sub" :: server_claims /\ k <> "roles" /\ k <> "groups".
Proof.
  intros Hk. split; [|by split; intros ->; apply mem_iff in Hk].
  apply mem_iff. apply list_elem_of_In in Hk. simpl in Hk. by repeat destruct Hk as [<-|Hk].
Qed.

Lemma base_claims_nbf c now : map_get (base_claims s c now) "nbf" = None.
Proof. unfold base_claims, set_text. rewrite !map_get_set_if. simpl. by rewrite !andb_false_r. Qed.

Lemma around_nbf c u now m extra :
  (forall k, k <> "roles" -> k <> "groups" ->
     map_get m k = map_get (add_user_claims u c.(IDTokenClaims.Scopes) (base_claims s c now)) k) ->
  map_get extra "nbf" = None -> map_get (honor_requests c u (applyExtraClaims m extra)) "nbf" = None.
Proof.
  intros Hm He. assert (Hget : map_get (applyExtraClaims m extra) "nbf" = None).
  { unfold applyExtraClaims. rewrite merge_claims_other by (by right). rewrite Hm by done.
    rewrite add_user_claims_reserved by (by apply mem_iff). apply base_claims_nbf. }
  unfold honor_requests. destruct u as [u|]; [|exact Hget]. destruct (String.eqb _ _); [exact Hget|].
  rewrite requested_reserved; [exact Hget|]. left. by apply mem_iff.
Qed.

(** The claims around those of the server. *)
Lemma wp_around c u now env st (Q : result claims_map -> Exec.State -> Prop) :
  (forall m n, (forall k v, (k, v) ∈ server_values c now -> map_get m k = v) ->
     (map_get (default [] c.(IDTokenClaims.ExtraClaims)) "nbf" = None -> map_get m "nbf" = None) ->
     Q (Ok m) (mkState st.(st_db) n)) ->
  wp (m <- enrichClaimsWithRoles s c.(IDTokenClaims.UserID) c.(IDTokenClaims.Scopes)
             (add_user_claims u c.(IDTokenClaims.Scopes) (base_claims s c now)) ;;
      ret (honor_requests c u (applyExtraClaims m (default [] c.(IDTokenClaims.ExtraClaims))))) Q env st.
Proof.
  intros HQ. apply wp_bind, wp_enrich. intros m n Hm. apply wp_ret, HQ; [|intros He; by eapply around_nbf].
  intros k v Hk.
  assert (Hr : k ∈ reservedIDTokenClaims).
  { rewrite <-(server_values_names c now). apply list_elem_of_fmap. by exists (k, v). }
  destruct (reserved_server k Hr) as (Hs & Hro & Hgr).
  assert (Hget : map_get (applyExtraClaims m (default [] c.(IDTokenClaims.ExtraClaims))) k = v).
  { rewrite merge_reserved, Hm, add_user_claims_reserved by done. by apply base_claims_values. }
  unfold honor_requests. destruct u as [u|]; [|exact Hget]. destruct (String.eqb _ _); [exact Hget|].
  rewrite requested_reserved; [exact Hget|]. apply list_elem_of_In in Hs as [<-|Hs]; [right | left; by apply list_elem_of_In].
  rewrite Hget. apply list_elem_of_In in Hk. simpl in Hk. repeat destruct Hk as [Hk|Hk]; try discriminate Hk; [|done].
  injection Hk as <-. by eexists.
Qed.

Lemma wp_id_token_claims c env st (Q : result claims_map -> Exec.State -> Prop) :
  (forall m n, (forall k v, (k, v) ∈ server_values c env.(env_now) -> map_get m k = v) ->
     (map_get (default [] c.(IDTokenClaims.ExtraClaims)) "nbf" = None -> map_get m "nbf" = None) ->
     Q (Ok m) (mkState st.(st_db) n)) ->
  wp (id_token_claims s c) Q env st.
Proof.
  intros HQ. destruct st as [d n0]. unfold id_token_claims. apply wp_bind, wp_clock_now, wp_bind, wp_opt, wp_read_only.
  { unfold UserSvc.GetByID, UserRepo.FindByID, UserRepo.find_user. solve_preserves ltac:(idtac). }
  intros [u|e] n1; apply wp_around; exact HQ.
Qed.

(** C25: Every identity token carries the issuer, the subject, the audience, the
    times, the nonce, the digests and the means of authentication the server
    computed, each as it is or not at all: neither the claims of the account,
    nor its roles, nor the policies, nor the request for claims change one. *)
Theorem id_token_claims_spec (c : IDTokenClaims.t) (env : Env) (db : DB) :
  let '(r, db') := run (id_token_claims s c) env db in
  db' = db /\ exists m, r = Ok m /\
    forall k v, (k, v) ∈ server_values c env.(env_now) -> map_get m k = v.
Proof.
  apply (run_wp _ (fun r db' => db' = db /\ exists m, r = Ok m /\
    forall k v, (k, v) ∈ server_values c env.(env_now) -> map_get m k = v)).
  apply wp_id_token_claims. intros m n Hm _. split; [done|]. by exists m.
Qed.

(** ** The published keys *)

Lemma no_newline_url x : 0 <= x < 64 -> is_newline (b64_char x) = false.
Proof. intros Hx. apply negb_true_iff. revert x Hx. apply (forall_below 64). vm_compute. reflexivity. Qed.

Lemma raw_url_roundtrip l : Forall is_byte l -> DecodeString RawURLEncoding (base64_raw_url l) = Some l.
Proof.
  intros Hl. unfold DecodeString. with_strategy transparent [base64_raw_url] unfold base64_raw_url. simpl. rewrite String.list_ascii_of_string_of_list_ascii.
  rewrite filter_id; [by apply b64_decode_encode|].
  eapply Forall_impl; [exact (b64_encode_chars l Hl)|]. intros c (x & Hx & ->). by rewrite no_newline_url.
Qed.

Lemma big_bytes_value fuel n acc : 0 <= n < 256 ^ Z.of_nat fuel ->
  fold_left (fun x y => 256 * x + y) (big_bytes_fuel fuel n acc) 0
  = fold_left (fun x y => 256 * x + y) acc n.
Proof.
  revert n acc. induction fuel as [|fuel IH]; intros n acc Hn; simpl.
  - change (256 ^ Z.of_nat 0) with 1 in Hn. by replace n with 0 by lia.
  - destruct (Z.leb_spec n 0); [by replace n with 0 by lia|].
    rewrite IH. 2:{ rewrite Nat2Z.inj_succ, Z.pow_succ_r in Hn by lia. split; [by apply Z.div_pos; lia|].
      apply Z.div_lt_upper_bound; lia. }
    simpl. f_equal. pose proof (Z.div_mod n 256 ltac:(lia)). lia.
Qed.

Lemma big_bytes_bytes fuel n acc : Forall is_byte acc -> Forall is_byte (big_bytes_fuel fuel n acc).
Proof.
  revert n acc. induction fuel as [|fuel IH]; intros n acc Ha; simpl; [done|]. case_match; [done|].
  apply IH. constructor; [|done]. unfold is_byte. apply Z.mod_pos_bound. lia.
Qed.

Lemma big_roundtrip n : 0 <= n ->
  DecodeString RawURLEncoding (base64_raw_url (big_bytes n)) = Some (big_bytes n) /\
  ClientAuth.big_of_bytes (big_bytes n) = n.
Proof.
  intros Hn. split; [apply raw_url_roundtrip, big_bytes_bytes; constructor|].
  unfold ClientAuth.big_of_bytes, big_bytes. rewrite Z.abs_eq by done. rewrite big_bytes_value; [done|].
  split; [done|]. rewrite Nat2Z.inj_succ, Z2Nat.id by apply Z.log2_nonneg.
  destruct (Z.eq_dec n 0) as [->|]; [done|].
  apply Z.lt_le_trans with (2 ^ Z.succ (Z.log2 n)); [apply Z.log2_spec; lia|].
  apply Z.pow_le_mono_l. lia.
Qed.

(** A client that reads an entry of the document back has the key. *)
Definition reads_back (j : JWK) (pub : RSAPublicKey) : Prop :=
  ClientAuth.ParseJWKToRSAPublicKey j.(N) j.(E) = Ok pub.

(** C28: What the key document publishes of a key is that key: a client that reads
    the modulus and the exponent back has the public key the signatures are
    verified with.  Every key that can be read is published, in the order of
    the keys. *)
Theorem jwks_round_trip (mem : Keys.t) (k : SigningKey.t) (pub : RSAPublicKey) :
  k ∈ mem.(Keys.allKeys) -> ParseRSAPublicKey k.(SigningKey.PublicKeyPEM) = Ok pub ->
  0 <= pub.(ClientAuth.rsa_N) -> 0 <= pub.(ClientAuth.rsa_E) < 2 ^ 63 ->
  exists j, j ∈ GetJWKS mem /\ j.(Kid) = uuid_string k.(SigningKey.ID) /\ j.(Alg) = k.(SigningKey.Algorithm) /\
    reads_back j pub.
Proof.
  intros Hk Hp Hn He. exists (jwk_of k pub). split_and!; [|done..|].
  - unfold GetJWKS. apply list_elem_of_omap. exists k. by rewrite Hp.
  - unfold reads_back, ClientAuth.ParseJWKToRSAPublicKey. simpl.
    destruct (big_roundtrip pub.(ClientAuth.rsa_N) Hn) as [-> ->].
    destruct (big_roundtrip pub.(ClientAuth.rsa_E)) as [-> ->]; [lia|].
    f_equal. destruct pub as [pn pe]. simpl in *. f_equal. unfold int64_wrap.
    rewrite Z.mod_small by lia. lia.
Qed.

(** ** Keys and rotation *)

(** What the libraries promise: keys and blocks are read back, and a token of a
    signing is accepted with the public key, by its issuer and before its
    expiry, with the texts of its claims. *)
Class JoseLaws : Prop := {
  pem_read_back : forall ty b, Forall is_byte b -> pem_Decode (pem_EncodeToMemory ty b) = Some b;
  pkcs1_bytes : forall k, Forall is_byte (x509_MarshalPKCS1PrivateKey k);
  pkix_bytes : forall k b, x509_MarshalPKIXPublicKey k = Ok b -> Forall is_byte b;
  pkcs1_read_back : forall k, x509_ParsePKCS1PrivateKey (x509_MarshalPKCS1PrivateKey k) = Ok k;
  pkix_read_back : forall k b, x509_MarshalPKIXPublicKey k = Ok b -> x509_ParsePKIXPublicKey b = Ok (Some k);
  signed_accepted : forall h m k raw keyfunc o wall e,
    SignedString h m k = Ok raw ->
    (forall t, t.(ClientAuth.JWT.Method) = ClientAuth.SigningMethodRSA ->
       (forall n v, map_get h n = Some (AString v) -> plain v = true ->
          map_get t.(ClientAuth.JWT.Header) n = Some (AString v)) ->
       keyfunc t = Ok (ClientAuth.RSAKey (rsa_PublicKey k))) ->
    "RS256" ∈ o.(WithValidMethods) ->
    map_get m "iss" = Some (AString o.(WithIssuer)) -> plain o.(WithIssuer) = true ->
    map_get m "nbf" = None ->
    map_get m "exp" = Some (AInt e) -> 0 <= e < 2 ^ 53 -> wall < e * second ->
    exists m', jwt_Parse raw keyfunc o wall = Ok m' /\
      forall n v, map_get m n = Some (AString v) -> plain v = true -> map_get m' n = Some (AString v)
}.

Context `{!JoseLaws} `{!PlatformLaws} (Hplain : forall u, plain (uuid_string u) = true).

(** The two halves of a key belong together. *)
Definition pair_of (k : SigningKey.t) (p : RSAPrivateKey) : Prop :=
  ParseRSAPrivateKey k.(SigningKey.PrivateKeyPEM) = Ok p /\
  ParseRSAPublicKey k.(SigningKey.PublicKeyPEM) = Ok (rsa_PublicKey p).

Definition rows_wf (db : DB) : Prop := forall id k, db.(signing_keys) !! id = Some k ->
  k.(SigningKey.ID) = id /\ exists p, pair_of k p.

(** The keys of a process verify the tokens of a key. *)
Definition verifies (m : Keys.t) (k : SigningKey.t) (p : RSAPrivateKey) : Prop :=
  key_of m.(Keys.allKeys) (uuid_string k.(SigningKey.ID)) = Ok (ClientAuth.RSAKey (rsa_PublicKey p)).

(** A process that can sign: its key is an active row, and it verifies its tokens. *)
Definition ready (db : DB) (m : Keys.t) : Prop := exists k p,
  m.(Keys.activeKey) = Some k /\ m.(Keys.privateKey) = Some p /\ pair_of k p /\
  db.(signing_keys) !! k.(SigningKey.ID) = Some k /\ k.(SigningKey.Active) = true /\ verifies m k p.

Lemma key_of_rows db now k p :
  rows_wf db -> db.(signing_keys) !! k.(SigningKey.ID) = Some k -> KeyRepo.valid_at now k = true -> pair_of k p ->
  key_of (merge_sort KeyRepo.newer (select_rows (KeyRepo.valid_at now) db.(signing_keys)))
    (uuid_string k.(SigningKey.ID)) = Ok (ClientAuth.RSAKey (rsa_PublicKey p)).
Proof.
  intros Hwf Hk Hv [_ Hpub]. unfold key_of.
  assert (Hin : k ∈ merge_sort KeyRepo.newer (select_rows (KeyRepo.valid_at now) db.(signing_keys)))
    by (rewrite merge_sort_Permutation; apply elem_of_select_rows; by eexists).
  destruct (find _ _) as [k0|] eqn:Ef.
  - apply find_some in Ef as [Hin0 He]. apply String.eqb_eq, uuid_string_inj in He.
    apply list_elem_of_In in Hin0. rewrite merge_sort_Permutation in Hin0.
    apply elem_of_select_rows in Hin0 as (id0 & Hid0 & _). destruct (Hwf _ _ Hid0) as [Hkey _].
    rewrite He in Hkey. subst id0. rewrite Hk in Hid0. injection Hid0 as <-. by rewrite Hpub.
  - apply list_elem_of_In in Hin. apply (find_none _ _ Ef) in Hin. by rewrite String.eqb_refl in Hin.
Qed.

Lemma read_back_private p : ParseRSAPrivateKey (pem_EncodeToMemory "RSA PRIVATE KEY" (x509_MarshalPKCS1PrivateKey p)) = Ok p.
Proof. unfold ParseRSAPrivateKey. rewrite pem_read_back by apply pkcs1_bytes. apply pkcs1_read_back. Qed.

Lemma read_back_public p b : x509_MarshalPKIXPublicKey (rsa_PublicKey p) = Ok b ->
  ParseRSAPublicKey (pem_EncodeToMemory "PUBLIC KEY" b) = Ok (rsa_PublicKey p).
Proof.
  intros Hb. unfold ParseRSAPublicKey. rewrite pem_read_back by (by eapply pkix_bytes).
  by rewrite (pkix_read_back _ _ Hb).
Qed.

(** The rows after a rotation at a time. *)
Definition rotated (now : Z) (key : SigningKey.t) (db : DB) : DB :=
  db <| signing_keys := <[key.(SigningKey.ID) := key]>
          (update_rows SigningKey.Active (KeyRepo.retire (time_add now (24 * hour))) db.(signing_keys)) |>.

Lemma retire_pair g k p : pair_of k p -> pair_of (KeyRepo.retire g k) p.
Proof. done. Qed.

Lemma retired_wf g db : rows_wf db -> rows_wf (db <| signing_keys ::= update_rows SigningKey.Active (KeyRepo.retire g) |>).
Proof.
  intros Hwf id k.
  change (signing_keys (db <| signing_keys ::= ?f |>)) with (f db.(signing_keys)). rewrite lookup_update_rows.
  destruct (signing_keys db !! id) as [k0|] eqn:E; [|done]. simpl. intros [= <-].
  destruct (Hwf _ _ E) as [Hid [p Hp]]. destruct (SigningKey.Active k0); [|by split; [|exists p]].
  split; [exact Hid | by exists p].
Qed.

Lemma wp_rotate_rows env st (Q : result (SigningKey.t * string) -> Exec.State -> Prop) :
  (forall e st', (st'.(st_db) = st.(st_db) \/ st'.(st_db) = st.(st_db) <| signing_keys ::=
       update_rows SigningKey.Active (KeyRepo.retire (time_add env.(env_now) (24 * hour))) |>) -> Q (Err e) st') ->
  (forall key p privPEM n, pair_of key p -> ParseRSAPrivateKey privPEM = Ok p -> key.(SigningKey.Active) = true ->
     st.(st_db).(signing_keys) !! key.(SigningKey.ID) = None ->
     Q (Ok (key, privPEM)) (mkState (rotated env.(env_now) key st.(st_db)) n)) ->
  wp rotate_rows Q env st.
Proof.
  intros He Hok. unfold rotate_rows, GenerateRSAKeyPair.
  apply wp_bind, wp_bind, wp_map_err, wp_ask. destruct (rsa_GenerateKey _ _ _ _) as [p|e]; [|apply He; by left].
  apply wp_bind, wp_map_err, wp_of_result. destruct (x509_MarshalPKIXPublicKey _) as [pub|e] eqn:Hpub; [|apply He; by left].
  apply wp_ret, wp_bind, wp_uuid_newV7; [intros; apply He; by left|]. intros Hf1. apply wp_bind, wp_clock_now.
  apply wp_bind, wp_update_table; [intros; apply He; by left|]. intros Hf2.
  unfold KeyRepo.Create. apply wp_bind, wp_bind, wp_wall_now. cbv zeta. apply wp_bind, wp_create_in; [intros; apply He; by right|].
  intros Hf3 Hnone. apply wp_ret, wp_ret. cbn [st_db bump st_step] in *.
  set (key := KeyRepo.with_defaults _ <| SigningKey.CreatedAt ::= _ |>) in *.
  assert (Hpair : pair_of key p) by (split; [apply read_back_private | by apply read_back_public]).
  refine (Hok key p _ _ Hpair (read_back_private p) eq_refl _).
  change (update_rows SigningKey.Active (KeyRepo.retire (time_add env.(env_now) (24 * hour)))
            st.(st_db).(signing_keys) !! key.(SigningKey.ID) = None) in Hnone.
  rewrite lookup_update_rows in Hnone. by destruct (st.(st_db).(signing_keys) !! key.(SigningKey.ID)).
Qed.


(** What a rotation leaves: the new key signs, it and every key that was valid
    verify, and the rows stay in order; or, when it fails, the process has what it
    had. *)
Definition rotation (env : Env) (mem : Keys.t) (db : DB) (r : result unit) (mem' : Keys.t) (db' : DB) : Prop :=
  match r with
  | Err _ => mem' = mem
  | Ok _ => exists key p,
      mem'.(Keys.activeKey) = Some key /\ mem'.(Keys.privateKey) = Some p /\
      db.(signing_keys) !! key.(SigningKey.ID) = None /\
      db' = rotated env.(env_now) key db /\ rows_wf db' /\ ready db' mem' /\
      forall k0 p0, db.(signing_keys) !! k0.(SigningKey.ID) = Some k0 -> KeyRepo.valid_at env.(env_now) k0 = true ->
        pair_of k0 p0 -> verifies mem' k0 p0
  end.

Lemma rotated_wf now key p db : rows_wf db -> pair_of key p -> rows_wf (rotated now key db).
Proof.
  intros Hwf Hp id k. unfold rotated.
  change (signing_keys (db <| signing_keys := ?t |>)) with t.
  destruct (decide (key.(SigningKey.ID) = id)) as [<-|Hne].
  - rewrite lookup_insert_eq. intros [= <-]. split; [done | by exists p].
  - rewrite lookup_insert_ne by done. exact (retired_wf (time_add now (24 * hour)) db Hwf id k).
Qed.

(** A key that was valid at a time is a row that is valid after a rotation then. *)
Lemma valid_rotated now key db k : db.(signing_keys) !! key.(SigningKey.ID) = None ->
  db.(signing_keys) !! k.(SigningKey.ID) = Some k -> KeyRepo.valid_at now k = true ->
  exists k', (rotated now key db).(signing_keys) !! k.(SigningKey.ID) = Some k' /\
    k'.(SigningKey.ID) = k.(SigningKey.ID) /\ k'.(SigningKey.PublicKeyPEM) = k.(SigningKey.PublicKeyPEM) /\
    k'.(SigningKey.PrivateKeyPEM) = k.(SigningKey.PrivateKeyPEM) /\ KeyRepo.valid_at now k' = true /\
    (k.(SigningKey.Active) = true -> k'.(SigningKey.ExpiresAt) = Some (time_add now (24 * hour))).
Proof.
  intros Hnone Hk Hv.
  exists (if k.(SigningKey.Active) then KeyRepo.retire (time_add now (24 * hour)) k else k).
  unfold rotated. change (signing_keys (db <| signing_keys := ?t |>)) with t.
  rewrite lookup_insert_ne by congruence. rewrite lookup_update_rows, Hk. simpl.
  destruct (k.(SigningKey.Active)) eqn:Ea; split_and!; try done.
  unfold KeyRepo.valid_at. simpl. unfold time_add. apply Z.ltb_lt. unfold hour, minute, second. lia.
Qed.

Lemma rotation_result (mem : Keys.t) (env : Env) (db : DB) :
  no_faults env -> rows_wf db ->
  let '(r, db') := run (RotateKey mem) env db in
  match r with
  | Err _ => False
  | Ok (r, mem') => rotation env mem db r mem' db'
  end.
Proof.
  intros Hnf Hwf. apply (run_wp _ (fun r db' => match r with
    | Err _ => False | Ok (r, mem') => rotation env mem db r mem' db' end)).
  unfold RotateKey. apply wp_bindP, wp_liftP, wp_rotate_rows; [done|].
  intros key p privPEM n Hp Hpem Ha Hnone.
  apply wp_bindP. unfold of_resultP. cbn [fst snd]. rewrite Hpem. apply wp_ret. apply wp_bindP, wp_ret.
  unfold loadAllKeys. apply wp_bindP, wp_liftP, wp_attempt, wp_bind, wp_clock_now, wp_query_nf; [done|].
  apply wp_ret. cbn [st_db bump].
  pose proof (rotated_wf env.(env_now) key p db Hwf Hp) as Hwf'.
  assert (Hnew : (rotated env.(env_now) key db).(signing_keys) !! key.(SigningKey.ID) = Some key)
    by (unfold rotated; change (signing_keys (db <| signing_keys := ?t |>)) with t; apply lookup_insert_eq).
  exists key, p. split_and!; try done.
  - exists key, p. split_and!; try done.
    apply (key_of_rows _ _ _ _ Hwf' Hnew); [|done]. unfold KeyRepo.valid_at. by rewrite Ha.
  - intros k0 p0 Hk0 Hv Hp0.
    destruct (valid_rotated _ key _ _ Hnone Hk0 Hv) as (k' & Hk' & Hid & Hpub & Hpriv & Hv' & _).
    unfold verifies. rewrite <-Hid. apply (key_of_rows _ _ _ _ Hwf'); [by rewrite Hid | done |].
    destruct Hp0 as [Ha0 Hb0]. split; [by rewrite Hpriv | by rewrite Hpub].
Qed.

(** A rotation that succeeds leaves the new key to sign with, retires the one
    before it for a day, and the process still verifies the tokens of every key
    that was valid; one that fails leaves the keys of the process as they were. *)
Theorem RotateKey_spec (mem : Keys.t) (env : Env) (db : DB) :
  no_faults env -> rows_wf db ->
  let '(r, db') := run (RotateKey mem) env db in
  match r with
  | Err _ => False
  | Ok (r, mem') => rotation env mem db r mem' db'
  end.
Proof. apply rotation_result. Qed.

(** ** A token outlives the key that signed it *)

(** A client that reads the subject as it is, in the clear. *)
Definition plain_subject (c : IDTokenClaims.t) : Prop :=
  c.(IDTokenClaims.SubjectType) <> "pairwise" \/ s.(pairwiseSalt) = "".

Lemma plain_token_subject c : plain_subject c -> token_subject s c = uuid_string c.(IDTokenClaims.UserID).
Proof.
  unfold token_subject. intros [Hc|Hs].
  - by destruct (String.eqb_spec c.(IDTokenClaims.SubjectType) "pairwise").
  - rewrite Hs. simpl. by rewrite andb_false_r.
Qed.

(** A process that verifies the tokens of a key accepts one until it expires. *)
Lemma verified_token c mem env db raw db' :
  ready db mem -> plain s.(issuer) = true -> plain_subject c ->
  map_get (default [] c.(IDTokenClaims.ExtraClaims)) "nbf" = None ->
  0 <= time_unix (time_add env.(env_now) c.(IDTokenClaims.TTL)) < 2 ^ 53 ->
  run (signed_id_token s mem c) env db = (Ok raw, db') ->
  forall mem2 k p, mem.(Keys.activeKey) = Some k -> pair_of k p -> verifies mem2 k p ->
  forall env2 db2, env2.(env_wall) < time_unix (time_add env.(env_now) c.(IDTokenClaims.TTL)) * second ->
  (run (ValidateIDToken s mem2 raw) env2 db2) = (Ok c.(IDTokenClaims.UserID), db2).
Proof.
  intros (k0 & p0 & Hk0 & Hp0 & Hpair0 & _) Hiss Hsub Hnbf Hexp Hrun mem2 k p Hk Hpair Hver env2 db2 Hwall.
  rewrite Hk in Hk0. injection Hk0 as <-.
  assert (p0 = p) as -> by (destruct Hpair0 as [Ha _], Hpair as [Hb _]; congruence).
  assert (Hsigned : exists m, sign [] m (k, p) = Ok raw /\ map_get m "nbf" = None /\
    forall n v, (n, v) ∈ server_values c env.(env_now) -> map_get m n = v).
  { refine (_ (wp_run env _ (fun r _ => r = Ok raw -> _) db _ _ _ Hrun)); [intros [n Hq]; exact (Hq eq_refl)|].
    unfold signed_id_token, signing_key. rewrite Hk, Hp0. apply wp_bind, wp_of_result, wp_bind, wp_id_token_claims.
    intros m n Hm Hn. apply wp_of_result. intros Hs. exists m. split_and!; auto. }
  clear Hrun. destruct Hsigned as (m & Hs & Hn & Hm).
  destruct (signed_accepted _ _ _ _ (id_token_keyfunc mem2.(Keys.allKeys)) (id_token_options s) env2.(env_wall)
    (time_unix (time_add env.(env_now) c.(IDTokenClaims.TTL))) Hs) as (m' & Hparse & Hget); try done.
  - intros t Hr Hh. unfold id_token_keyfunc, is_RSA. rewrite Hr. unfold header_kid.
    rewrite (Hh "kid" (uuid_string k.(SigningKey.ID))) by done. exact Hver.
  - by apply mem_iff.
  - apply Hm. by left.
  - apply Hm. do 3 right. by left.
  - assert (Hr : run (ValidateIDToken s mem2 raw) env2 db2 = (idTokenSubject m', db2)).
    { unfold run, ValidateIDToken, validateIDTokenClaims, bind, wall_now, of_result. simpl. rewrite Hparse.
      simpl. by destruct (idTokenSubject m'). }
    rewrite Hr. unfold idTokenSubject.
    rewrite (Hget "sub" (uuid_string c.(IDTokenClaims.UserID))); [by rewrite uuid_parse_string| |done].
    rewrite <-(plain_token_subject c Hsub). apply Hm. right. by left.
Qed.

(** The process that loads the rows verifies the tokens of the valid ones. *)
Lemma loaded_verifies mem0 mem' env db k p :
  no_faults env -> rows_wf db -> (run (loadAllKeys mem0) env db).1 = Ok (Ok tt, mem') ->
  db.(signing_keys) !! k.(SigningKey.ID) = Some k -> KeyRepo.valid_at env.(env_now) k = true -> pair_of k p ->
  verifies mem' k p.
Proof.
  intros Hnf Hwf Hrun Hk Hv Hp. destruct (run (loadAllKeys mem0) env db) as [r db'] eqn:Hr. simpl in Hrun. subst r.
  refine (_ (wp_run env _ (fun r _ => forall m', r = Ok (Ok tt, m') -> verifies m' k p) db _ _ _ Hr));
    [intros [n Hq]; exact (Hq _ eq_refl)|].
  unfold loadAllKeys. apply wp_bindP, wp_liftP, wp_attempt, wp_bind, wp_clock_now, wp_query_nf; [done|].
  apply wp_ret. intros m' [= <-]. by apply (key_of_rows _ _ _ _ Hwf Hk).
Qed.


(** ** Logout *)

(** Every session of a user is over, and no other row has changed. *)
Definition signed_out (u : UUID) (wall : Z) (db : DB) : DB :=
  db <| sessions ::= update_rows (SessionRepo.revocable u None) (Session.Revoke wall) |>.

(** The user a hint that is valid names. *)
Definition hint_user (mem : Keys.t) (hint : string) (wall : Z) : option UUID :=
  if String.eqb hint "" then None
  else match jwt_Parse hint (id_token_keyfunc mem.(Keys.allKeys)) (id_token_options s) wall with
       | Ok m => match idTokenSubject m with Ok u => Some u | Err _ => None end
       | Err _ => None
       end.

Lemma wp_hinted mem hint env st (Q : result (option UUID * UUID) -> Exec.State -> Prop) :
  (forall c, Q (Ok (hint_user mem hint env.(env_wall), c)) st) -> wp (hinted s mem hint) Q env st.
Proof.
  intros HQ. unfold hinted, hint_user in *. destruct (String.eqb hint ""); [by apply wp_ret|].
  apply wp_bind, wp_opt, wp_bind, wp_wall_now, wp_of_result. destruct (jwt_Parse _ _ _ _); apply wp_ret, HQ.
Qed.

(** The address to go back to is one an active client registered, or there is none. *)
Definition registered_target (p : EndSessionParams) (db : DB) (target : string) : Prop :=
  target = "" \/ exists id c, db.(oauth_clients) !! id = Some c /\ c.(OAuthClient.Active) = true /\
    p.(PostLogoutRedirectURI) ∈ c.(OAuthClient.PostLogoutRedirectURIs) /\
    target = p.(PostLogoutRedirectURI) +:+ (if String.eqb p.(State) "" then "" else "?state=" +:+ p.(State)).

Lemma wp_post_logout p hintClient env st (Q : result string -> Exec.State -> Prop) :
  (forall target n, registered_target p st.(st_db) target -> Q (Ok target) (mkState st.(st_db) n)) ->
  wp (post_logout s p hintClient) Q env st.
Proof.
  intros HQ. destruct st as [db n0]. simpl in HQ.
  assert (Hnone : forall n, Q (Ok "") (mkState db n)) by (intros n; apply HQ; by left).
  unfold post_logout. destruct (String.eqb _ _); [apply wp_ret, Hnone|]. cbv zeta.
  set (id := if N.eqb _ uuid_nil then _ else _).
  destruct (N.eqb id uuid_nil || _); [apply wp_ret, Hnone|].
  apply wp_bind, wp_find_row; intros _; [apply wp_ret, Hnone|]. simpl.
  destruct (oauth_clients db !! id) as [c|] eqn:Hc; [|apply wp_ret, Hnone].
  destruct (OAuthClient.Active c) eqn:Ha; [|apply wp_ret, Hnone]. apply wp_ret.
  destruct (OAuthClient.HasPostLogoutRedirectURI c _) eqn:Hr; [|by apply Hnone].
  unfold OAuthClient.HasPostLogoutRedirectURI in Hr. apply HQ. right. exists id, c. split_and!; try done. by apply mem_iff.
Qed.

Lemma wp_notify_all mem u l env st (Q : result (list (string * Z)) -> Exec.State -> Prop) :
  (forall sent n, Q (Ok sent) (mkState st.(st_db) n)) -> wp (notify_all s mem u l) Q env st.
Proof.
  revert st Q. induction l as [|c l IH]; intros [db n0] Q HQ; simpl; [by apply wp_ret, (HQ [])|].
  apply wp_bind. unfold notify.
  assert (Hrest : forall r n, wp (rest <- notify_all s mem u l ;; ret (option_list r ++ rest)) Q env (mkState db n))
    by (intros r n; apply wp_bind, IH; intros rest n2; apply wp_ret, (HQ _ n2)).
  destruct (OAuthClient.BackchannelLogoutURI c) as [uri|]; [|by apply wp_ret].
  apply wp_opt, wp_read_only; [unfold GenerateLogoutToken; solve_preserves ltac:(idtac)|].
  intros [r|e] n; apply Hrest.
Qed.

Definition sent_to (mem : Keys.t) (user : option UUID) : M (list (string * Z)) :=
  match user with
  | Some u => if s.(clientFinder) then dispatchBackchannelLogout s mem u else ret []
  | None => ret []
  end.

Lemma wp_sent mem user env st (Q : result (list (string * Z)) -> Exec.State -> Prop) :
  (forall sent n, Q (Ok sent) (mkState st.(st_db) n)) -> wp (sent_to mem user) Q env st.
Proof.
  intros HQ. destruct st as [db n0]. unfold sent_to.
  destruct user as [u|]; [|by apply wp_ret, (HQ [])]. destruct s.(clientFinder); [|by apply wp_ret, (HQ [])].
  apply wp_bind, wp_opt, wp_read_only; [unfold ClientRepo.FindClientsWithBackchannelLogout, ClientRepo.with_logout; solve_preserves ltac:(idtac)|].
  intros [l|e] n; by apply wp_notify_all.
Qed.

Definition front_of (user : option UUID) : M (list string) :=
  match user with
  | Some u => if s.(clientFinder)
              then clients <- opt (ClientRepo.FindClientsWithFrontchannelLogout u) ;;
                   ret (omap OAuthClient.FrontchannelLogoutURI (default [] clients))
              else ret []
  | None => ret []
  end.

Lemma wp_front user env st (Q : result (list string) -> Exec.State -> Prop) :
  (forall front n, Q (Ok front) (mkState st.(st_db) n)) -> wp (front_of user) Q env st.
Proof.
  intros HQ. destruct st as [db n0]. unfold front_of.
  destruct user as [u|]; [|by apply wp_ret, (HQ [])]. destruct s.(clientFinder); [|by apply wp_ret, (HQ [])].
  apply wp_bind, wp_opt, wp_read_only; [unfold ClientRepo.FindClientsWithFrontchannelLogout, ClientRepo.with_logout; solve_preserves ltac:(idtac)|].
  intros [l|e] n; apply wp_ret, HQ.
Qed.

Definition sign_out (user : option UUID) : M unit :=
  match user with
  | Some u => if s.(sessionRevoker) then ignore (SessionSvc.RevokeAll u None) else ret tt
  | None => ret tt
  end.

Definition over (user : option UUID) (wall : Z) (db : DB) : DB :=
  match user with Some u => signed_out u wall db | None => db end.

Lemma wp_sign_out user env st (Q : result unit -> Exec.State -> Prop) :
  (forall db' n, (db' = st.(st_db) \/ db' = over user env.(env_wall) st.(st_db)) ->
     (no_faults env -> s.(sessionRevoker) = true -> db' = over user env.(env_wall) st.(st_db)) ->
     db'.(oauth_clients) = st.(st_db).(oauth_clients) -> Q (Ok tt) (mkState db' n)) ->
  wp (sign_out user) Q env st.
Proof.
  intros HQ. destruct st as [db n0]. unfold sign_out. simpl in HQ. destruct user as [u|]; [|apply wp_ret, HQ; auto].
  destruct s.(sessionRevoker); [|apply wp_ret, HQ; auto; done].
  apply wp_ignore, wp_or_fail, wp_bind, wp_get_db, wp_bind, wp_update_table.
  - intros e Hf. apply HQ; [by left | | done]. intros Hnf. by rewrite Hnf in Hf.
  - intros _. apply wp_ret, HQ; [by right | done..].
Qed.

(** C27: A logout is always answered, and signs out at most the user that a hint
    the server's keys verify names: every session of that user when the store
    does not fail, and no other row; the browser is sent back only to an address
    that an active client registered, as it was registered. *)
Theorem EndSession_spec (mem : Keys.t) (p : EndSessionParams) (env : Env) (db : DB) :
  let '(r, db') := run (EndSession s mem p) env db in
  let user := hint_user mem p.(IDTokenHint) env.(env_wall) in
  (db' = db \/ db' = over user env.(env_wall) db) /\
  (no_faults env -> s.(sessionRevoker) = true -> db' = over user env.(env_wall) db) /\
  exists resp, r = Ok resp /\ registered_target p db resp.(RedirectURI).
Proof.
  set (user := hint_user _ _ _).
  apply (run_wp _ (fun r db' => (db' = db \/ db' = over user env.(env_wall) db) /\
    (no_faults env -> s.(sessionRevoker) = true -> db' = over user env.(env_wall) db) /\
    exists resp, r = Ok resp /\ registered_target p db resp.(RedirectURI))).
  unfold EndSession. apply wp_bind, wp_hinted. intros hintClient. fold user. fold (sign_out user) (sent_to mem user) (front_of user).
  apply wp_bind, wp_sign_out. simpl. intros db1 n1 Hdb Hall Hclients.
  apply wp_bind, wp_sent. intros sent n2. apply wp_bind, wp_front. intros front n3.
  apply wp_bind, wp_post_logout. simpl. intros target n4 Ht. apply wp_ret. split_and!; [done..|].
  eexists. split; [done|]. unfold registered_target. by rewrite <-Hclients.
Qed.
End facts.
End OidcFacts.
