(* ===== verification/OidcSample.v ===== *)
(** * oidc/: a library, and runs of the provider

    A library that writes a token as the digits of what it says, which has the
    laws the theorems ask for; the theorems at concrete inputs; and runs that
    show where the provider departs from what its comments and its metadata say. *)
From S2P Require Import Prelude.
From S2P Require Import Errors.
From S2P Require Import GoLib.
From S2P Require Import GoNet.
From S2P Require Import Model.
From S2P Require Import Platform.
From S2P Require Import Exec.
From S2P Require Import NetSafety.
From S2P Require Import Crypto.
From S2P Require Import GoEnc.
From S2P Require Import SessionSvc.
From S2P Require Import Scopes.
From S2P Require Import UserSvc.
From S2P Require Import OAuth.
From S2P Require Import Json.
From S2P Require Import JsonFlat.
From S2P Require Import Profile.
From S2P Require Import ProcMem.
From S2P Require ClientAuth.
From S2P Require Import ActionToken.
From S2P Require Import Introspect.
From S2P Require Import Oidc.
From S2P Require Import OidcFacts.
From Stdlib Require Import Ascii.
Local Open Scope Z_scope.

Module OidcSample.
Import OidcSvc OidcFacts.

#[local] Existing Instance sample_platform.
#[local] Existing Instance sample_platform_laws.
#[local] Existing Instance sample_netlib.
#[local] Existing Instance ClientAuth.verification_key_eq_dec.

(** ** Digits *)

Fixpoint digits (p : positive) : list Z :=
  match p with xH => [] | xO p => 0 :: digits p | xI p => 1 :: digits p end.

Fixpoint of_digits (l : list Z) : positive :=
  match l with [] => xH | d :: l => if d =? 0 then xO (of_digits l) else xI (of_digits l) end.

Lemma of_digits_digits p : of_digits (digits p) = p.
Proof. induction p as [p IH|p IH|]; simpl; by rewrite ?IH. Qed.

Lemma digits_bytes p : Forall is_byte (digits p).
Proof. induction p; constructor; try done; unfold is_byte; lia. Qed.

(** Until the first point. *)
Fixpoint read_digits (t : string) : positive :=
  match t with
  | EmptyString => xH
  | String c t => if Ascii.eqb c "." then xH else if Ascii.eqb c "0" then xO (read_digits t) else xI (read_digits t)
  end.

Lemma read_pos_string p rest : read_digits (pos_string p +:+ String "." rest) = p.
Proof. induction p as [p IH|p IH|]; simpl; [..|done]; f_equal; exact IH. Qed.

Lemma pos_string_plain p : plain (pos_string p) = true.
Proof. induction p; done. Qed.

Lemma uuid_plain u : plain (uuid_string u) = true.
Proof. apply pos_string_plain. Qed.

(** ** A library *)

Definition texts (m : claims_map) : list (string * string) :=
  omap (fun kv => match kv.2 with AString v => Some (kv.1, v) | _ => None end) m.

Definition of_texts (l : list (string * string)) : claims_map := map (fun kv => (kv.1, AString kv.2)) l.

Definition number (m : claims_map) (k : string) : option Z :=
  match map_get m k with Some (AInt e) => Some e | _ => None end.

(** What a token says: its header, its texts, its expiry, whether it is for
    later, and its key. *)
Definition saying : Type := list (string * string) * list (string * string) * option Z * bool * Z.

Definition write (t : saying) : string := pos_string (encode t) +:+ "..".
Definition read (raw : string) : option saying := decode (read_digits raw).

Lemma read_write t : read (write t) = Some t.
Proof. unfold read, write. rewrite read_pos_string. apply decode_encode. Qed.

Definition public (k : Z) : RSAPublicKey := ClientAuth.mkRSA k 65537.

Definition toy_Parse (raw : string) (keyfunc : ClientAuth.JWT.t -> result ClientAuth.verification_key)
    (o : parse_options) (wall : Z) : result claims_map :=
  match read raw with
  | None => Err (EOther "token is malformed")
  | Some (h, m, exp, nbf, k) =>
      match keyfunc (ClientAuth.JWT.mk ClientAuth.SigningMethodRSA "RS256" (of_texts h) (of_texts m)) with
      | Err e => Err e
      | Ok key =>
          if bool_decide (key = ClientAuth.RSAKey (public k)) && mem "RS256" o.(WithValidMethods) && negb nbf
             && match map_get (of_texts m) "iss" with Some (AString i) => String.eqb i o.(WithIssuer) | _ => false end
             && match exp with Some e => wall <? e * second | None => negb o.(WithExpirationRequired) end
          then Ok (of_texts m ++ match exp with Some e => [("exp", AFloat e)] | None => [] end)
          else Err (EOther "token is invalid")
      end
  end.

Definition marshal {A} `{Countable A} (a : A) : list Z := digits (encode a).
Definition unmarshal {A} `{Countable A} (b : list Z) : option A := decode (of_digits b).

Lemma decode_marshalled {A} `{Countable A} (a : A) : unmarshal (marshal a) = Some a.
Proof. unfold unmarshal, marshal. rewrite of_digits_digits. apply decode_encode. Qed.

#[local] Arguments marshal : simpl never.
#[local] Arguments unmarshal : simpl never.

Definition parse_private (b : list Z) : result Z :=
  match unmarshal (A := Z) b with Some k => Ok k | None => Err (EOther "asn1") end.

Definition parse_public (b : list Z) : result (option RSAPublicKey) :=
  match unmarshal (A := Z * Z) b with
  | Some (n, e) => Ok (Some (ClientAuth.mkRSA n e))
  | None => Err (EOther "asn1")
  end.

#[local] Instance toy : JoseLib := {|
  RSAPrivateKey := Z;
  rsa_GenerateKey _ env n _ := Ok (env.(env_wall) + Z.of_nat n);
  rsa_PublicKey := public;
  x509_MarshalPKCS1PrivateKey k := marshal k;
  x509_ParsePKCS1PrivateKey := parse_private;
  x509_MarshalPKIXPublicKey k := Ok (marshal (k.(ClientAuth.rsa_N), k.(ClientAuth.rsa_E)));
  x509_ParsePKIXPublicKey := parse_public;
  pem_EncodeToMemory _ b := string_of_bytes b;
  pem_Decode t := Some (bytes_of t);
  SignedString h m k := Ok (write (texts h, texts m, number m "exp", is_Some_b (map_get m "nbf"), k));
  jwt_Parse := toy_Parse;
  JWKKey := Z;
  jwk_Parse _ := Err (EOther "no document");
  jwk_use _ := None;
  jwk_kid _ := None;
  LookupKeyEncryptionAlgorithm alg := mem alg ["RSA-OAEP"; "RSA-OAEP-256"];
  LookupContentEncryptionAlgorithm enc := String.eqb enc "A256GCM";
  jwe_Encrypt _ _ _ _ _ _ _ _ := Err (EOther "jwe");
  http_Get _ _ _ _ := Err (EOther "dial");
  http_PostForm _ _ _ _ _ := Ok 200
|}.

Lemma map_get_texts m n v : map_get m n = Some (AString v) -> map_get (of_texts (texts m)) n = Some (AString v).
Proof.
  induction m as [|[k a] m IH]; [done|]. unfold texts in *. simpl. destruct (String.eqb_spec k n) as [->|Hne].
  - intros [= ->]. simpl. by rewrite String.eqb_refl.
  - intros Hm. destruct a; simpl; try by apply IH. destruct (String.eqb_spec k n); [done|]. by apply IH.
Qed.

#[local] Instance toy_laws : JoseLaws.
Proof.
  split; simpl; try done.
  - intros _ b Hb. by rewrite bytes_of_string_of_bytes.
  - intros k. apply digits_bytes.
  - intros k b [= <-]. apply digits_bytes.
  - intros k. unfold parse_private. by rewrite decode_marshalled.
  - intros k b [= <-]. unfold parse_public. rewrite decode_marshalled. by destruct k.
  - intros h m k raw keyfunc o wall e [= <-] Hkey Hrs Hiss _ Hnbf Hexp _ Hwall. unfold toy_Parse. rewrite read_write.
    rewrite Hkey; [|done | by intros n v Hn _; apply map_get_texts].
    rewrite bool_decide_true by done. apply mem_iff in Hrs. rewrite Hrs, Hnbf. unfold number. rewrite Hexp. simpl.
    rewrite (map_get_texts _ _ _ Hiss), String.eqb_refl. simpl. apply Z.ltb_lt in Hwall. rewrite Hwall.
    eexists. split; [done|]. intros n v Hn _. rewrite map_get_app. by rewrite (map_get_texts _ _ _ Hn).
Qed.

(** ** Runs *)

Definition provider (salt : string) : Service := mkService false true true "https://op" salt.

Definition client : OAuthClient.t :=
  Sample.client <| OAuthClient.PostLogoutRedirectURIs := ["https://app/bye?x=1"] |>.

Definition session : Session.t :=
  Session.zero <| Session.ID := 31%N |> <| Session.UserID := 5%N |> <| Session.ExpiresAt := 1000 * hour |>.

Definition db : DB := Sample.db <| oauth_clients := {[ 77%N := client ]} |> <| sessions := {[ 31%N := session ]} |>.

(** Instants in seconds; the identifiers of an instant are its own. *)
Definition at_ (t : Z) : Env :=
  mkEnv (t * second) (t * second) Sample.no_fail (fun n i => t + Z.of_nat (n + i))
    (fun n => (Z.to_N t * 100 + N.of_nat n)%N).

Lemma at_no_faults t : no_faults (at_ t).
Proof. done. Qed.

(** A process with its first key, and after a rotation. *)
Definition started : result (result unit * Keys.t) * DB := run (RotateKey Keys.empty) (at_ 5) db.
Definition memory_of (r : result (result unit * Keys.t) * DB) : Keys.t :=
  match r.1 with Ok (_, m) => m | Err _ => Keys.empty end.
Abbreviation rotation_at t := (run (RotateKey (memory_of started)) (at_ t) started.2).

Definition claims : IDTokenClaims.t :=
  IDTokenClaims.mk 5%N 77%N ["openid"; "email"] "n-0S6" (9 * second) "" "" "" hour "" "1" ["pwd"] "public" "" None "" "" "".

Definition token_of (r : result string) : string := match r with Ok t => t | Err _ => "" end.
Definition id_token (s : Service) (c : IDTokenClaims.t) : string :=
  token_of (run (signed_id_token s (memory_of started) c) (at_ 10) started.2).1.

Lemma db_wf : rows_wf db.
Proof. intros id k Hk. exfalso. change (signing_keys db) with (∅ : gmap UUID SigningKey.t) in Hk. by rewrite lookup_empty in Hk. Qed.

Definition outcome (r : result (result unit * Keys.t) * DB) : result unit :=
  match r.1 with Ok (r, _) => r | Err e => Err e end.

Lemma memory_ok r : is_ok (outcome r) = true -> r.1 = Ok (Ok tt, memory_of r).
Proof. destruct r as [[[[[]|e] m]|e] d]; done. Qed.

Lemma started_ok : is_ok (outcome started) = true.
Proof. vm_compute. reflexivity. Qed.

Lemma started_wf : rows_wf started.2 /\ ready started.2 (memory_of started).
Proof.
  pose proof (rotation_result Keys.empty (at_ 5) db (at_no_faults 5) db_wf) as Hs.
  pose proof (memory_ok _ started_ok) as Hok. fold started in Hs.
  destruct started as [r db']. simpl in Hok. rewrite Hok in Hs.
  destruct Hs as (key & p & _ & _ & _ & _ & Hwf & Hready & _). done.
Qed.


Definition first_key (r : result (result unit * Keys.t) * DB) : SigningKey.t :=
  match (memory_of r).(Keys.allKeys) with k :: _ => k | [] => SigningKey.zero end.

Lemma jwks_round_trip_witness :
  let k := first_key started in
  exists pub j, pub.(ClientAuth.rsa_N) = 5000000000 /\ j ∈ GetJWKS (memory_of started) /\
    j.(Kid) = uuid_string k.(SigningKey.ID) /\ j.(Alg) = k.(SigningKey.Algorithm) /\
    ClientAuth.ParseJWKToRSAPublicKey j.(N) j.(E) = Ok pub.
Proof.
  cbv zeta. exists (public 5000000000).
  destruct (jwks_round_trip (memory_of started) (first_key started) (public 5000000000)) as (j & Hj).
  - vm_compute (memory_of started). by left.
  - vm_compute. reflexivity.
  - simpl. lia.
  - simpl. lia.
  - exists j. split; [reflexivity | exact Hj].
Defined.

Lemma RotateKey_spec_witness :
  let r := rotation_at 20 in
  is_ok (outcome r) = true /\
  rotation (at_ 20) (memory_of started) started.2 (outcome r) (memory_of r) r.2.
Proof.
  cbv zeta. pose proof started_wf as [Hwf _].
  pose proof (RotateKey_spec (memory_of started) (at_ 20) started.2 (at_no_faults 20) Hwf) as Hs.
  assert (Ho : is_ok (outcome (rotation_at 20)) = true) by (vm_compute; reflexivity).
  split; [exact Ho|]. revert Hs Ho. unfold outcome.
  generalize (rotation_at 20). intros [[[r m]|e] d]; simpl; [|done]. intros Hs _. exact Hs.
Defined.

Definition hint (s : Service) (c : IDTokenClaims.t) (uri : string) : EndSessionParams :=
  mkEndSessionParams (id_token s c) uri "st&x=2" "".

Definition logout (s : Service) (p : EndSessionParams) : result EndSessionResponse * DB :=
  run (EndSession s (memory_of started) p) (at_ 30) started.2.

Definition revoked (d : DB) : bool := match d.(sessions) !! 31%N with Some x => x.(Session.Revoked) | None => false end.

(** A logout with the identity token of the user ends the session and goes back to
    the registered address; the state follows the query of the address without an
    escape, after a second question mark. *)
Example logout_signs_out :
  let r := logout (provider "") (hint (provider "") claims "https://app/bye?x=1") in
  revoked r.2 = true /\
  match r.1 with Ok a => a.(RedirectURI) | Err _ => "" end = "https://app/bye?x=1?state=st&x=2".
Proof. vm_compute. done. Qed.

Example logout_elsewhere_refused :
  match (logout (provider "") (hint (provider "") claims "https://evil/")).1 with Ok a => a.(RedirectURI) | Err _ => "x" end = "".
Proof. vm_compute. reflexivity. Qed.

(** An identity token is an active bearer token to the introspection: nothing looks
    at the type of the token, and there is no identifier to deny. *)
Definition op : OAuth.Service :=
  let b := Sample.service in
  OAuth.mkService b.(userService) b.(sessionService) b.(cfg) b.(OAuth.issuer) b.(idTokenGen)
    (Some (AccessTokenJWTSignerAdapter (provider "") (memory_of started))) b.(mfaValidator) b.(policyEvaluator)
    b.(resourceValidator) b.(idTokenValidator) b.(roleProvider).

Example id_token_introspected_as_bearer :
  match (run (Introspect op (id_token (provider "") claims) "" "https://op" 77%N) (at_ 30) started.2).1 with
  | Ok r => r.(IntrospectResponse.Active) && String.eqb r.(IntrospectResponse.TokenType) "Bearer"
            && String.eqb r.(IntrospectResponse.Sub) (uuid_string 5%N)
  | Err _ => false
  end = true.
Proof. vm_compute. reflexivity. Qed.

(** An access token, which the resource servers see, is a hint to the logout: it
    ends the sessions of its user. *)
Definition access_token : string :=
  token_of (match (run (GenerateAccessTokenJWT (provider "") (memory_of started)
     (AccessTokenJWTClaims.mk (Some 5%N) 77%N ["read"] "https://api" hour None) "RS256") (at_ 10) started.2).1 with
     | Ok r => Ok r.1 | Err e => Err e end).

Example access_token_ends_sessions :
  let r := logout (provider "") (mkEndSessionParams access_token "" "" "") in is_ok r.1 && revoked r.2 = true.
Proof. vm_compute. reflexivity. Qed.

(** Without a salt the identity token of a pairwise client carries the identifier
    of the user, and the user information does not. *)
Definition pairwise_client : OAuthClient.t := client <| OAuthClient.SubjectType := "pairwise" |>.
Definition pairwise_db : DB := db <| oauth_clients := {[ 77%N := pairwise_client ]} |>.

Example two_subjects :
  let s := provider "" in
  token_subject s (claims <| IDTokenClaims.SubjectType := "pairwise" |>) = uuid_string 5%N /\
  match (run (GetUserInfo s 5%N 77%N ["openid"]) (at_ 10) pairwise_db).1 with
  | Ok m => match map_get m "sub" with Some (AString v) => negb (String.eqb v (uuid_string 5%N)) | _ => false end
  | Err _ => false
  end = true.
Proof. vm_compute. done. Qed.

(** The user information for a client that was deactivated since. *)
Example deactivated_client_panics :
  (run (GetUserInfo (provider "") 5%N 77%N ["openid"]) (at_ 10)
     (db <| oauth_clients := {[ 77%N := client <| OAuthClient.Active := false |> ]} |>)).1 = Err nil_dereference.
Proof. vm_compute. reflexivity. Qed.

(** A key algorithm the metadata does not list passes the check of a registration. *)
Example unlisted_algorithm_passes : ValidateJWEEncryptionPair "RSA-OAEP" "A256GCM" = Ok tt /\ "RSA-OAEP" ∉ SupportedJWEAlgs.
Proof. split; [reflexivity|]. rewrite <-mem_iff. by vm_compute. Qed.

(** The day of grace is counted when the keys are loaded: a process that rotated its
    key goes on verifying the old one after it, where one that starts does not. *)
Example grace_is_counted_at_load :
  let c := claims <| IDTokenClaims.TTL := 100 * hour |> in
  let late := at_ (20 + 25 * 3600) in
  let verify m := is_ok (run (ValidateIDToken (provider "") m (id_token (provider "") c)) late db).1 in
  verify (memory_of (rotation_at 20)) = true /\
  verify (memory_of (run (loadAllKeys Keys.empty) late (rotation_at 20).2)) = false.
Proof. vm_compute. done. Qed.

(** *** Pairwise subjects are not identifiers *)

(** [uuid.Parse] reads no text of this length. *)
Definition strict_platform : Platform := {|
  uuid_string u := pos_string (N.succ_pos u);
  uuid_parse t := if Nat.eqb (String.length t) 43 then None else Some (Pos.pred_N (pos_parse t));
  url_error t := "parse " +:+ t;
  local_offset _ := 0
|}.

Section pairwise.
#[local] Existing Instance strict_platform.

(** The subject of a pairwise client is not the identifier of a user: its hint ends
    no session, and the answer is the same. *)
Definition pairwise_hint (kind : string) : EndSessionParams :=
  let c := claims <| IDTokenClaims.SubjectType := kind |> in
  mkEndSessionParams (token_of (run (signed_id_token (provider "salt") (memory_of started) c) (at_ 10) started.2).1) "" "" "".

Definition pairwise_logout (kind : string) : result EndSessionResponse * DB :=
  run (EndSession (provider "salt") (memory_of started) (pairwise_hint kind)) (at_ 30) started.2.

Example pairwise_logout_signs_no_one_out :
  let by_public := pairwise_logout "public" in
  let by_pairwise := pairwise_logout "pairwise" in
  is_ok by_public.1 && revoked by_public.2 = true /\ is_ok by_pairwise.1 && negb (revoked by_pairwise.2) = true.
Proof. vm_compute. done. Qed.
End pairwise.
End OidcSample.
