(* ===== verification/RateLimit.v ===== *)
(** * Rate limiting

    middleware/ratelimit.go: a bucket of tokens per address, over [float64] (the
    Standard Library's specification of binary64, as in [GoFloat]; a processor
    that fuses multiplication and addition rounds once where the model rounds
    twice).  The limiter is the memory the operations thread; its goroutine,
    which calls [cleanup] every five minutes, and its mutex are left out. *)
From S2P Require Import Prelude.
From S2P Require Import Errors.
From S2P Require Import GoLib.
From S2P Require Import GoFloat.
From S2P Require Import Model.
From S2P Require Import Exec.
From S2P Require Import ProcMem.
From Stdlib Require Import SpecFloat.
Local Open Scope Z_scope.

(** ** [float64] *)

Definition float_of (n : Z) : spec_float := binary_normalize b64_prec b64_emax n 0 false.
Definition fadd : spec_float -> spec_float -> spec_float := SFadd b64_prec b64_emax.
Definition fsub : spec_float -> spec_float -> spec_float := SFsub b64_prec b64_emax.
Definition fmul : spec_float -> spec_float -> spec_float := SFmul b64_prec b64_emax.
Definition fdiv : spec_float -> spec_float -> spec_float := SFdiv b64_prec b64_emax.

#[local] Arguments float_of _ : simpl never.
#[local] Arguments fadd _ _ : simpl never.
#[local] Arguments fsub _ _ : simpl never.
#[local] Arguments SFleb _ _ : simpl never.

(** [d.Seconds()] *)
Definition Seconds (d : Z) : spec_float :=
  fadd (float_of (Z.quot d second)) (fdiv (float_of (Z.rem d second)) (float_of second)).

(** ** Buckets *)
Module tokenBucket.
Record t := mk { tokens : spec_float; maxTokens : spec_float; refillRate : spec_float; lastRefill : Z }.
#[export] Instance eta_t : Eta t := fun b => mk (b.(tokens)) (b.(maxTokens)) (b.(refillRate)) (b.(lastRefill)).

(** The decision, and the bucket after it. *)
Definition allow (now : Z) (b : t) : bool * t :=
  let elapsed := Seconds (time_sub now b.(lastRefill)) in
  let refilled := fadd b.(tokens) (fmul elapsed b.(refillRate)) in
  let capped := if SFltb b.(maxTokens) refilled then b.(maxTokens) else refilled in
  let b := b <| tokens := capped |> <| lastRefill := now |> in
  if SFleb (float_of 1) b.(tokens) then (true, b <| tokens ::= fun x => fsub x (float_of 1) |>)
  else (false, b).
End tokenBucket.

Module RateLimiter.
Record t := mk { buckets : gmap string tokenBucket.t; max : spec_float; rate : spec_float }.
#[export] Instance eta_t : Eta t := fun l => mk (l.(buckets)) (l.(max)) (l.(rate)).

Abbreviation PL := (PM t).

Definition NewRateLimiter (maxRequests perSecond : spec_float) : t := mk ∅ maxRequests perSecond.

(** Buckets nobody used for ten minutes are dropped. *)
Definition cleanup : PL unit :=
  now <~ liftP wall_now ;;
  let cutoff := time_add now (- (10 * minute)) in
  set_memory (fun l => l <| buckets ::= filter (fun kv => time_before kv.2.(tokenBucket.lastRefill) cutoff = false) |>).

Definition getBucket (ip : string) : PL tokenBucket.t :=
  l <~ memory ;;
  match l.(buckets) !! ip with
  | Some b => retP b
  | None =>
      now <~ liftP wall_now ;;
      let b := tokenBucket.mk l.(max) l.(max) l.(rate) now in
      set_memory (fun l => l <| buckets ::= insert ip b |>) ~;;
      retP b
  end.

Definition Middleware (ip : string) : PL unit :=
  bucket <~ getBucket ip ;;
  now <~ liftP wall_now ;;
  let '(allowed, bucket) := tokenBucket.allow now bucket in
  set_memory (fun l => l <| buckets ::= insert ip bucket |>) ~;;
  guardP allowed (ErrTooManyRequests "rate limit exceeded, try again later").

(** The requests of the addresses, one after the other: which pass. *)
Fixpoint requests (ips : list string) : PL (list bool) :=
  match ips with
  | [] => retP []
  | ip :: ips => r <~ attemptP (Middleware ip) ;; rs <~ requests ips ;; retP (is_ok r :: rs)
  end.

End RateLimiter.

(** The limiters of main.go. *)
Definition authRateLimiter : RateLimiter.t := RateLimiter.NewRateLimiter (float_of 20) (float_of 5).
Definition oauthRL : RateLimiter.t := RateLimiter.NewRateLimiter (float_of 10) (float_of 3).

(** ** Bursts *)
Module RateFacts.
Import RateLimiter.

Definition small (k : Z) : Prop := 0 <= k <= 64.

(** What the arithmetic does on small whole numbers. *)
Definition exact (m k : Z) : bool :=
  Bool.eqb (SFltb (float_of m) (float_of k)) (m <? k)
  && Bool.eqb (SFleb (float_of 1) (float_of k)) (1 <=? k)
  && match fsub (float_of k) (float_of 1), float_of (k - 1) with
     | S754_finite s m e, S754_finite s' m' e' => Bool.eqb s s' && Pos.eqb m m' && (e =? e')
     | S754_zero s, S754_zero s' => Bool.eqb s s'
     | _, _ => false
     end
  && match fadd (float_of k) (S754_zero false), float_of k with
     | S754_finite s m e, S754_finite s' m' e' => Bool.eqb s s' && Pos.eqb m m' && (e =? e')
     | S754_zero s, S754_zero s' => Bool.eqb s s'
     | _, _ => false
     end.

Definition range : list Z := map Z.of_nat (seq 0 65).

Lemma all_exact : forallb (fun m => forallb (exact m) range) range = true.
Proof. vm_compute. reflexivity. Qed.

Lemma in_range k : small k -> In k range.
Proof. intros Hk. apply in_map_iff. exists (Z.to_nat k). split; [unfold small in *; lia|]. apply in_seq. unfold small in *; lia. Qed.

Lemma same_float (x y : spec_float) :
  match x, y with
  | S754_finite s m e, S754_finite s' m' e' => Bool.eqb s s' && Pos.eqb m m' && (e =? e')
  | S754_zero s, S754_zero s' => Bool.eqb s s'
  | _, _ => false
  end = true -> x = y.
Proof.
  destruct x, y; try done; [by intros ->%eqb_prop|].
  intros [[->%eqb_prop ->%Pos.eqb_eq]%andb_true_iff ->%Z.eqb_eq]%andb_true_iff. done.
Qed.

Lemma exact_facts m k : small m -> small k ->
  SFltb (float_of m) (float_of k) = (m <? k) /\ SFleb (float_of 1) (float_of k) = (1 <=? k) /\
  fsub (float_of k) (float_of 1) = float_of (k - 1) /\ fadd (float_of k) (S754_zero false) = float_of k.
Proof.
  intros Hm%in_range Hk%in_range. pose proof all_exact as H. rewrite forallb_forall in H.
  specialize (H m Hm). rewrite forallb_forall in H. specialize (H k Hk). unfold exact in H.
  apply andb_true_iff in H as [[[H1%eqb_prop H2%eqb_prop]%andb_true_iff H3]%andb_true_iff H4].
  split_and!; [done | done | by apply same_float | by apply same_float].
Qed.

(** A positive finite rate. *)
Definition steady (rate : spec_float) : Prop := exists m e, rate = S754_finite false m e.

Section burst.
Context (m : Z) (rate : spec_float) (Hm : small m) (Hrate : steady rate).

(** A bucket with [k] tokens, last used now. *)
Definition holding (now k : Z) : tokenBucket.t := tokenBucket.mk (float_of k) (float_of m) rate now.

Lemma allow_at_once now k : 0 <= k <= m ->
  tokenBucket.allow now (holding now k) = (1 <=? k, holding now (if 1 <=? k then k - 1 else k)).
Proof.
  intros Hk. assert (Hsmall : small k) by (unfold small in *; lia).
  destruct (exact_facts m k Hm Hsmall) as (H1 & H2 & H3 & H4).
  assert (Hz : fmul (Seconds (Z.max int64_min (Z.min int64_max 0))) rate = S754_zero false).
  { destruct Hrate as (rm & re & E). rewrite E. reflexivity. }
  unfold tokenBucket.allow, holding. cbn [tokenBucket.lastRefill tokenBucket.tokens tokenBucket.maxTokens tokenBucket.refillRate].
  unfold time_sub. rewrite Z.sub_diag.
  rewrite Hz, H4, H1. rewrite (proj2 (Z.ltb_ge m k)) by lia. simpl. rewrite H2.
  destruct (1 <=? k); [rewrite <-H3|]; reflexivity.
Qed.

(** How often the address occurs. *)
Definition times (ip : string) (l : list string) : Z := Z.of_nat (length (List.filter (String.eqb ip) l)).

(** The bucket of every address after the requests of [seen], all made now. *)
Definition drawn (now : Z) (seen : list string) (l : t) : Prop :=
  l.(max) = float_of m /\ l.(RateLimiter.rate) = rate /\
  forall ip, l.(buckets) !! ip =
    if times ip seen =? 0 then None else Some (holding now (Z.max 0 (m - times ip seen))).

(** A request passes while its address made fewer than [m] before. *)
Fixpoint admitted (seen ips : list string) : list bool :=
  match ips with
  | [] => []
  | ip :: ips => (times ip seen <? m) :: admitted (ip :: seen) ips
  end.

Lemma times_cons ip ip' seen : times ip (ip' :: seen) = times ip seen + (if String.eqb ip ip' then 1 else 0).
Proof. unfold times. simpl. destruct (String.eqb ip ip'); simpl; lia. Qed.

Lemma drawn_insert now seen l ip k : drawn now seen l -> k = Z.max 0 (m - times ip (ip :: seen)) ->
  drawn now (ip :: seen) (l <| buckets ::= insert ip (holding now k) |>).
Proof.
  intros (Hmax & Hr & Hb) ->. split_and!; [done | done|]. intros ip'. simpl.
  assert (Hpos : 0 <= times ip' seen) by (unfold times; lia).
  rewrite lookup_insert. destruct (decide (ip = ip')) as [<-|Hne].
  - rewrite (proj2 (Z.eqb_neq _ _)); [done|]. rewrite times_cons, String.eqb_refl. lia.
  - rewrite Hb, times_cons. rewrite (proj2 (String.eqb_neq ip' ip)) by congruence. by rewrite Z.add_0_r.
Qed.

Lemma wp_Middleware ip seen l env st : drawn env.(env_wall) seen l ->
  wp (Middleware ip l) (fun r st' => st' = st /\ exists r' l', r = Ok (r', l') /\
    is_ok r' = (times ip seen <? m) /\ drawn env.(env_wall) (ip :: seen) l') env st.
Proof.
  intros Hd. pose proof Hd as (Hmax & Hr & Hb). unfold Middleware, getBucket.
  assert (Hpos : 0 <= times ip seen) by (unfold times; lia).
  set (n := times ip seen) in *.
  assert (Hfin : forall l0, drawn env.(env_wall) seen l0 \/ (exists k, l0 = l <| buckets ::= insert ip (holding env.(env_wall) k) |>) ->
    wp ((let '(allowed, bucket) := tokenBucket.allow env.(env_wall) (holding env.(env_wall) (Z.max 0 (m - n))) in
         set_memory (fun l => l <| buckets ::= insert ip bucket |>) ~;;
         guardP allowed (ErrTooManyRequests "rate limit exceeded, try again later")) l0)
      (fun r st' => st' = st /\ exists r' l', r = Ok (r', l') /\ is_ok r' = (n <? m) /\ drawn env.(env_wall) (ip :: seen) l') env st).
  { intros l0 Hl0. rewrite allow_at_once by (unfold small in *; lia).
    apply wp_bindP, wp_ret.
    assert (Hl : drawn env.(env_wall) (ip :: seen) (l0 <| buckets ::= insert ip (holding env.(env_wall)
                   (if 1 <=? Z.max 0 (m - n) then Z.max 0 (m - n) - 1 else Z.max 0 (m - n))) |>)).
    { assert (Hk : (if 1 <=? Z.max 0 (m - n) then Z.max 0 (m - n) - 1 else Z.max 0 (m - n)) = Z.max 0 (m - times ip (ip :: seen))).
      { rewrite times_cons, String.eqb_refl. fold n. destruct (1 <=? _) eqn:E; lia. }
      destruct Hl0 as [Hl0 | [k ->]]; [by apply drawn_insert|].
      replace (_ <| buckets ::= _ |> <| buckets ::= _ |>) with (l <| buckets ::= insert ip (holding env.(env_wall) (Z.max 0 (m - times ip (ip :: seen)))) |>).
      - by apply drawn_insert.
      - unfold upd. simpl. rewrite Hk. f_equal. by rewrite insert_insert_eq. }
    replace (n <? m) with (1 <=? Z.max 0 (m - n)) by lia.
    destruct (1 <=? _); apply wp_ret; split; [done | eauto | done | eauto]. }
  apply wp_bindP, wp_bindP, wp_ret. rewrite Hb. fold n. destruct (n =? 0) eqn:En.
  - apply wp_bindP, wp_liftP, wp_wall_now, wp_bindP, wp_ret, wp_ret, wp_bindP, wp_liftP, wp_wall_now.
    rewrite Hmax, Hr. apply Z.eqb_eq in En.
    replace (tokenBucket.mk (float_of m) (float_of m) rate env.(env_wall)) with (holding env.(env_wall) (Z.max 0 (m - n))).
    + apply Hfin. right. by eexists.
    + unfold holding. do 2 f_equal. unfold small in Hm. lia.
  - apply wp_ret, wp_bindP, wp_liftP, wp_wall_now. apply Hfin. by left.
Qed.

Lemma wp_requests ips seen l env st : drawn env.(env_wall) seen l ->
  wp (requests ips l) (fun r st' => st' = st /\ exists l', r = Ok (Ok (admitted seen ips), l')) env st.
Proof.
  revert seen l st. induction ips as [|ip ips IH]; intros seen l st Hd; [apply wp_ret; eauto|].
  simpl. apply wp_bindP, wp_attemptP. eapply wp_mono; [|by apply (wp_Middleware ip seen)].
  intros r st' (-> & r' & l' & -> & Hok & Hd'). apply wp_bindP. eapply wp_mono; [|by apply (IH (ip :: seen))].
  intros r st' (-> & l2 & ->). apply wp_ret. rewrite Hok. eauto.
Qed.

End burst.

(** C18: The burst of a limiter is its bound, per address: of the requests made at
    one instant, in whatever order the addresses come, exactly the first [m] of
    each address pass, on the floating-point numbers the limiter counts with. *)
Theorem burst_bounded (m : Z) (rate : spec_float) (ips : list string) env db :
  0 <= m <= 64 -> steady rate ->
  exists l, run (requests ips (NewRateLimiter (float_of m) rate)) env db = (Ok (Ok (admitted m [] ips), l), db).
Proof.
  intros Hm Hrate.
  pose proof (wp_requests m rate Hm Hrate ips [] (NewRateLimiter (float_of m) rate) env (mkState db 0)) as Hw.
  unfold run, wp in *. destruct (requests _ _ _ _) as [r st']. simpl in Hw.
  destruct Hw as [-> [l ->]]; [|by exists l]. split_and!; done.
Qed.

Lemma burst_bounded_witness :
  let ips := repeat "10.0.0.1" 11 ++ ["10.0.0.2"] in
  admitted 10 [] ips = repeat true 10 ++ [false; true] /\
  exists l, run (requests ips oauthRL) (mkEnv 0 0 (fun _ => false) (fun _ _ => 0) (fun _ => 1%N)) empty_db = (Ok (Ok (admitted 10 [] ips), l), empty_db).
Proof.
  intros ips. split; [vm_compute; reflexivity|].
  apply (burst_bounded 10 (float_of 3) ips); [lia|]. eexists _, _. vm_compute. reflexivity.
Defined.

End RateFacts.
