(* ===== verification/Importer.v ===== *)
(** * Import of users from another system

    The command [orion-auth import]: the records a source yields
    (importer/canonical.go), the reading of a Logto database
    (importer/logto/logto.go) and the engine that writes the accounts
    (importer/engine.go).  The report is the memory the operations thread
    ([ProcMem]): it keeps what was counted when an import is aborted.  The rows
    of the foreign database are given; the identities of a document come in the
    order of the document, which Go leaves open. *)
From S2P Require Import Prelude.
From S2P Require Import Errors.
From S2P Require Import GoLib.
From S2P Require Import Model.
From S2P Require Import Platform.
From S2P Require Import Exec.
From S2P Require Import ProcMem.
From S2P Require Import UserSvc.
From S2P Require Import Rbac.
From S2P Require Import Json.
From S2P Require Import JsonFlat.
From S2P Require Import JsonTree.
From S2P Require Import Profile.
From S2P Require Import FedRepo.
From S2P Require Import Middleware.
From S2P Require Import Argon2.
Local Open Scope Z_scope.

(** ** importer/canonical.go *)
Module CanonicalIdentity.
Record t := mk { Target : string; ExternalID : string; Email : option string }.
End CanonicalIdentity.

Module CanonicalUser.
Record t := mk {
  ExternalID : string;
  Email : string;
  DisplayName : option string;
  AvatarURL : option string;
  Phone : option string;
  Username : option string;
  EmailVerified : bool;
  PasswordHash : option string;
  PasswordUnsupported : bool;
  Active : bool;
  Profile : ProfileMetadata.t;
  CustomData : object;
  Identities : list CanonicalIdentity.t;
  Roles : list string
}.
End CanonicalUser.

(** ** importer/logto/logto.go *)
Module Logto.

(** A row of the query; [None] is NULL. *)
Record row := mkRow {
  id : string;
  username : option string;
  primary_email : option string;
  primary_phone : option string;
  name : option string;
  avatar : option string;
  password_encrypted : option string;
  password_encryption_method : option string;
  profile : string;
  custom_data : string;
  identities : string;
  is_suspended : bool
}.

Definition nullToPtr (ns : option string) : option string :=
  match ns with Some s => if String.eqb s "" then None else Some s | None => None end.

Definition displayName (name username : option string) : option string :=
  match nullToPtr name with Some p => Some p | None => nullToPtr username end.

(** The hash to store, and whether there was one that cannot be taken over. *)
Definition normalizePassword (method encrypted : option string) : option string * bool :=
  match nullToPtr encrypted, method with
  | Some encrypted, Some method =>
      if mem method ["Argon2i"; "Argon2id"; "Bcrypt"] then (Some encrypted, false)
      else if mem method ["SHA256"; "SHA1"; "MD5"] then
        match EncodeForeignHash (to_lower method) encrypted with
        | Ok enc => (Some enc, false)
        | Err _ => (None, true)
        end
      else (None, true)
  | _, _ => (None, false)
  end.

(** The keys of the document, and the claims they become. *)
Definition logtoProfile : list (string * (any -> ProfileMetadata.t -> ProfileMetadata.t)) :=
  [("familyName", fun v r => r <| ProfileMetadata.FamilyName ::= store_string v |>);
   ("givenName", fun v r => r <| ProfileMetadata.GivenName ::= store_string v |>);
   ("middleName", fun v r => r <| ProfileMetadata.MiddleName ::= store_string v |>);
   ("nickname", fun v r => r <| ProfileMetadata.Nickname ::= store_string v |>);
   ("preferredUsername", fun v r => r <| ProfileMetadata.PreferredUsername ::= store_string v |>);
   ("profile", fun v r => r <| ProfileMetadata.ProfileURL ::= store_string v |>);
   ("website", fun v r => r <| ProfileMetadata.Website ::= store_string v |>);
   ("gender", fun v r => r <| ProfileMetadata.Gender ::= store_string v |>);
   ("birthdate", fun v r => r <| ProfileMetadata.Birthdate ::= store_string v |>);
   ("zoneinfo", fun v r => r <| ProfileMetadata.Zoneinfo ::= store_string v |>);
   ("locale", fun v r => r <| ProfileMetadata.Locale ::= store_string v |>)].

(** The error of the decoder is dropped. *)
Definition buildProfile (raw : string) (username : option string) : ProfileMetadata.t :=
  let meta := match parse_document raw with
              | Some (AMap m) => store_fields logtoProfile m ProfileMetadata.zero
              | _ => ProfileMetadata.zero
              end in
  match meta.(ProfileMetadata.PreferredUsername), nullToPtr username with
  | None, Some u => meta <| ProfileMetadata.PreferredUsername := Some u |>
  | _, _ => meta
  end.

Definition decodeCustomData (raw : string) : object :=
  match unmarshal_object raw with
  | Some (Some ((_ :: _) as m)) => Some m
  | _ => None
  end.

(** [logtoIdentity]: the member [userId] of a document, of type string. *)
Definition identity_user (v : any) : option string :=
  match v with
  | ANil => Some ""
  | AMap m =>
      foldl (fun acc kv => if GoNet.equal_fold kv.1 "userId"
                           then match kv.2, acc with
                                | AString s, Some _ => Some s
                                | ANil, Some _ => acc
                                | _, _ => None
                                end
                           else acc) (Some "") m
  | _ => None
  end.

(** One member of another type fails the whole document; the last of several
    with the same target counts. *)
Definition decodeIdentities (raw : string) : list CanonicalIdentity.t :=
  match parse_document raw with
  | Some (AMap m) =>
      match mapM (fun kv => u ← identity_user kv.2; Some (kv.1, AString u)) m with
      | None => []
      | Some l =>
          omap (fun kv => match kv.2 with
                          | AString id => if String.eqb id "" then None else Some (CanonicalIdentity.mk kv.1 id None)
                          | _ => None
                          end) (foldl (fun acc kv => map_set acc kv.1 kv.2) [] l)
      end
  | _ => []
  end.

(** The names of the roles of each user, in the order of the query. *)
Definition rolesByUser (rows : list (string * string)) (user : string) : list string :=
  map snd (List.filter (fun r => String.eqb r.1 user) rows).

Definition user (roles : list (string * string)) (r : row) : CanonicalUser.t :=
  let '(hash, unsupported) := normalizePassword r.(password_encryption_method) r.(password_encrypted) in
  CanonicalUser.mk r.(id) (trim_space (default "" r.(primary_email))) (displayName r.(name) r.(username))
    (nullToPtr r.(avatar)) (nullToPtr r.(primary_phone)) (nullToPtr r.(username))
    (is_Some_b (nullToPtr r.(primary_email))) hash unsupported (negb r.(is_suspended))
    (buildProfile r.(profile) r.(username)) (decodeCustomData r.(custom_data))
    (decodeIdentities r.(identities)) (rolesByUser roles r.(id)).

(** Over the answers of the two queries. *)
Definition Users (roles : result (list (string * string))) (rows : result (list row)) : result (list CanonicalUser.t) :=
  match roles with
  | Err e => Err (EOther ("query logto roles: " +:+ error_string e))
  | Ok roles =>
      match rows with
      | Err e => Err (EOther ("query logto users: " +:+ error_string e))
      | Ok rows => Ok (map (user roles) rows)
      end
  end.

End Logto.

(** ** importer/engine.go *)
Module Mapping.
Record t := mk {
  Providers : gmap string string;
  Roles : gmap string string;
  AssumeVerifiedEmail : bool;
  DefaultRole : string;
  OnUnsupportedPassword : string
}.
#[global] Instance eta_t : Eta t := fun m => mk (m.(Providers)) (m.(Roles)) (m.(AssumeVerifiedEmail))
  (m.(DefaultRole)) (m.(OnUnsupportedPassword)).
End Mapping.

Module Report.
Record t := mk {
  Total : Z;
  Created : Z;
  SkippedExisting : Z;
  SkippedNoEmail : Z;
  SkippedNoPassword : Z;
  ForcedReset : Z;
  SocialOnly : Z;
  LinksCreated : Z;
  RolesAssigned : Z;
  UnmappedProviders : gmap string Z;
  UnmappedRoles : gmap string Z;
  Warnings : list string
}.
#[global] Instance eta_t : Eta t := fun r => mk (r.(Total)) (r.(Created)) (r.(SkippedExisting))
  (r.(SkippedNoEmail)) (r.(SkippedNoPassword)) (r.(ForcedReset)) (r.(SocialOnly)) (r.(LinksCreated))
  (r.(RolesAssigned)) (r.(UnmappedProviders)) (r.(UnmappedRoles)) (r.(Warnings)).

Definition newReport : t := mk 0 0 0 0 0 0 0 0 0 ∅ ∅ [].
End Report.

Module Engine.
Import Report.

Definition onUnsupportedReset : string := "reset".
Definition onUnsupportedSkip : string := "skip".
Definition onUnsupportedFail : string := "fail".

Record t := mk {
  mapping : Mapping.t;
  dryRun : bool;
  sourceName : string;
  providerIDs : gmap string UUID;
  roleIDs : gmap string UUID
}.

Definition name_le (a b : string) : Prop := String.leb a b = true.
#[export] Instance name_le_dec : RelDecision name_le.
Proof. intros a b. unfold name_le. apply _. Defined.

Definition distinctValues (m : gmap string string) : list string :=
  merge_sort name_le (remove_dups (map snd (map_to_list m))).

(** [db.Where("name = ?", name).First(&row)], the error wrapped by the caller. *)
Definition first_named {A} (zero : A) (find : DB -> option A) (what name : string) : M A :=
  let! (row, err) := find_row zero (fun _ db => find db) ;;
  let unknown e := EOther ("mapping references unknown " +:+ what +:+ " " +:+ quoted name +:+ ": " +:+ error_string e) in
  match err, row with
  | Some e, _ => throw (unknown e)
  | None, None => throw (unknown StateRepo.record_not_found)
  | None, Some row => ret row
  end.

Definition provider_id (name : string) : M UUID :=
  p <- first_named FederationProvider.zero
         (fun db => first_row N.leb (fun p => String.eqb p.(FederationProvider.Name) name) db.(federation_providers))
         "federation provider" name ;;
  ret p.(FederationProvider.ID).

Definition role_id (name : string) : M UUID :=
  r <- first_named Role.zero (fun db => first_row N.leb (fun r => String.eqb r.(Role.Name) name) db.(roles)) "role" name ;;
  ret r.(Role.ID).

Fixpoint resolve (find : string -> M UUID) (names : list string) (ids : gmap string UUID) : M (gmap string UUID) :=
  match names with
  | [] => ret ids
  | name :: names => id <- find name ;; resolve find names (<[name := id]> ids)
  end.

Definition NewEngine (mapping : Mapping.t) (sourceName : string) (dryRun : bool) : M t :=
  let policy := if String.eqb mapping.(Mapping.OnUnsupportedPassword) "" then onUnsupportedReset
                else mapping.(Mapping.OnUnsupportedPassword) in
  guard (mem policy [onUnsupportedReset; onUnsupportedSkip; onUnsupportedFail])
    (EOther ("invalid on_unsupported_password " +:+ quoted policy +:+ " (want reset|skip|fail)")) ;;;
  providers <- resolve provider_id (distinctValues mapping.(Mapping.Providers)) ∅ ;;
  let wantRoles := distinctValues mapping.(Mapping.Roles)
                   ++ (if String.eqb mapping.(Mapping.DefaultRole) "" then [] else [mapping.(Mapping.DefaultRole)]) in
  roles <- resolve role_id wantRoles ∅ ;;
  ret (mk (mapping <| Mapping.OnUnsupportedPassword := policy |>) dryRun sourceName providers roles).

Section engine.
Context (e : t).

(** The roles to assign, and the names nobody mapped. *)
Definition role_of (rn : string) : option UUID :=
  match e.(mapping).(Mapping.Roles) !! rn with Some name => e.(roleIDs) !! name | None => None end.

Definition default_role : list UUID :=
  if String.eqb e.(mapping).(Mapping.DefaultRole) "" then []
  else match e.(roleIDs) !! e.(mapping).(Mapping.DefaultRole) with Some id => [id] | None => [] end.

Definition resolveRoles (sourceRoles : list string) : list UUID * list string :=
  let ids := omap role_of sourceRoles in
  (match ids with [] => default_role | _ => ids end,
   List.filter (fun rn => negb (is_Some_b (e.(mapping).(Mapping.Roles) !! rn))) sourceRoles).

Definition link_of (i : CanonicalIdentity.t) : option FederationLink.t :=
  match e.(mapping).(Mapping.Providers) !! i.(CanonicalIdentity.Target) with
  | Some prov =>
      match e.(providerIDs) !! prov with
      | Some pid => Some (FederationLink.zero <| FederationLink.ProviderID := pid |>
                            <| FederationLink.ExternalID := i.(CanonicalIdentity.ExternalID) |>
                            <| FederationLink.Email := i.(CanonicalIdentity.Email) |>)
      | None => None
      end
  | None => None
  end.

Definition resolveLinks (identities : list CanonicalIdentity.t) : list FederationLink.t * list string :=
  (omap link_of identities,
   map CanonicalIdentity.Target (List.filter (fun i => negb (is_Some_b (link_of i))) identities)).

(** A profile is always encoded, and what it is encoded to is decoded. *)
Definition buildMetadata (u : CanonicalUser.t) : string :=
  let metaMap := match unmarshal_object (ProfileMetadata.marshal u.(CanonicalUser.Profile)) with
                 | Some (Some m) => m
                 | _ => []
                 end in
  let metaMap := match u.(CanonicalUser.CustomData) with
                 | Some ((_ :: _) as d) => map_set metaMap "custom_data" (AMap d)
                 | _ => metaMap
                 end in
  marshal_object (Some (map_set metaMap "_import"
    (AMap [("source", AString e.(sourceName)); ("external_id", AString u.(CanonicalUser.ExternalID))]))).

Definition email_of (u : CanonicalUser.t) : string := to_lower (trim_space u.(CanonicalUser.Email)).

Definition count_names (l : list string) (m : gmap string Z) : gmap string Z :=
  foldl (fun m k => <[k := default 0 (m !! k) + 1]> m) m l.

Abbreviation PMR := (PM Report.t).

(** The password flag of the account, or no account. *)
Definition password_policy (u : CanonicalUser.t) : PMR (option bool) :=
  match u.(CanonicalUser.PasswordHash) with
  | Some _ => retP (Some false)
  | None =>
      if u.(CanonicalUser.PasswordUnsupported) then
        if String.eqb e.(mapping).(Mapping.OnUnsupportedPassword) onUnsupportedFail
        then throwP (EOther ("user " +:+ email_of u +:+ " has an unsupported password hash and on_unsupported_password=fail"))
        else if String.eqb e.(mapping).(Mapping.OnUnsupportedPassword) onUnsupportedSkip
        then set_memory (fun r => r <| SkippedNoPassword ::= Z.add 1 |>) ~;; retP None
        else set_memory (fun r => r <| ForcedReset ::= Z.add 1 |>) ~;; retP (Some true)
      else set_memory (fun r => r <| SocialOnly ::= Z.add 1 |>) ~;; retP (Some true)
  end.

Definition account_of (u : CanonicalUser.t) (mustSet : bool) : User.t :=
  User.zero <| User.Email := email_of u |>
    <| User.EmailVerified := u.(CanonicalUser.EmailVerified) || e.(mapping).(Mapping.AssumeVerifiedEmail) && negb (String.eqb (email_of u) "") |>
    <| User.PasswordHash := u.(CanonicalUser.PasswordHash) |>
    <| User.MustSetPassword := mustSet |>
    <| User.DisplayName := u.(CanonicalUser.DisplayName) |>
    <| User.AvatarURL := u.(CanonicalUser.AvatarURL) |>
    <| User.Phone := u.(CanonicalUser.Phone) |>
    <| User.Active := u.(CanonicalUser.Active) |>
    <| User.Metadata := buildMetadata u |>.

(** gorm replaces the zero value of [active] by the default of the column. *)
Definition with_defaults (u : User.t) : User.t :=
  u <| User.Active ::= fun a => if a then a else true |>.

(** INSERT INTO user_roles .. ON CONFLICT DO NOTHING *)
Definition grant (userID roleID : UUID) : M unit :=
  stmt (fun _ db =>
    if bool_decide ((userID, roleID) ∈ db.(user_roles)) then Ok db
    else if is_Some_b (db.(users) !! userID) && is_Some_b (db.(roles) !! roleID)
    then Ok (db <| user_roles ::= fun s => {[(userID, roleID)]} ∪ s |>)
    else Err foreign_key).

Definition wrapped {A} (what : string) (m : M A) : M A :=
  map_err m (fun err => EOther (what +:+ ": " +:+ error_string err)).

Definition write_account (user : User.t) (roleIDs : list UUID) (links : list FederationLink.t) : M unit :=
  transaction (
    user <- wrapped "create user" (UserRepo.Create (with_defaults user)) ;;
    for_each roleIDs (fun rid => wrapped "assign role" (grant user.(User.ID) rid)) ;;;
    for_each links (fun l => wrapped "create federation link"
      (FedRepo.CreateLink (l <| FederationLink.UserID := user.(User.ID) |>)) ;;; ret tt)).

Definition created (roleIDs : list UUID) (links : list FederationLink.t) (r : Report.t) : Report.t :=
  r <| Created ::= Z.add 1 |>
    <| RolesAssigned ::= Z.add (Z.of_nat (length roleIDs)) |>
    <| LinksCreated ::= Z.add (Z.of_nat (length links)) |>.

Definition count_held (email : string) : M Z :=
  query (fun _ db => count_rows (fun u => String.eqb u.(User.Email) email) db.(users)).

(** A failed account is a warning. *)
Definition import_account (u : CanonicalUser.t) (mustSet : bool) : PMR unit :=
  let '(assignRoleIDs, unmappedRoles) := resolveRoles u.(CanonicalUser.Roles) in
  set_memory (fun r => r <| UnmappedRoles ::= count_names unmappedRoles |>) ~;;
  let '(links, unmappedProviders) := resolveLinks u.(CanonicalUser.Identities) in
  set_memory (fun r => r <| UnmappedProviders ::= count_names unmappedProviders |>) ~;;
  if e.(dryRun) then set_memory (created assignRoleIDs links)
  else
    r <~ attemptP (liftP (write_account (account_of u mustSet) assignRoleIDs links)) ;;
    match r with
    | Err err => set_memory (fun r => r <| Warnings ::= fun w => w ++ ["import " +:+ email_of u +:+ " failed: " +:+ error_string err] |>)
    | Ok _ => set_memory (created assignRoleIDs links)
    end.

Definition importOne (u : CanonicalUser.t) : PMR unit :=
  set_memory (fun r => r <| Total ::= Z.add 1 |>) ~;;
  let email := email_of u in
  if String.eqb email "" then
    set_memory (fun r => r <| SkippedNoEmail ::= Z.add 1 |>
      <| Warnings ::= fun w => w ++ ["no email for source id " +:+ u.(CanonicalUser.ExternalID) +:+ " — skipped"] |>)
  else
    count <~ map_errP (liftP (count_held email)) (fun err => EOther ("check existing " +:+ email +:+ ": " +:+ error_string err)) ;;
    if 0 <? count then set_memory (fun r => r <| SkippedExisting ::= Z.add 1 |>)
    else
      policy <~ password_policy u ;;
      match policy with
      | None => retP tt
      | Some mustSet => import_account u mustSet
      end.

(** [cancelled] is [ctx.Err()]. *)
Fixpoint Import (cancelled : Reader unit) (users : list CanonicalUser.t) : PMR unit :=
  match users with
  | [] => retP tt
  | u :: users => liftP (ask cancelled) ~;; importOne u ~;; Import cancelled users
  end.

End engine.
End Engine.

(** ** What an import does *)
Module ImportFacts.
Import Report Engine.

Section facts.
Context (e : Engine.t).

(** The account made for a record. *)
Definition account_for (u : CanonicalUser.t) (row : User.t) : Prop :=
  row.(User.Email) = email_of u /\ email_of u <> "" /\
  row.(User.PasswordHash) = u.(CanonicalUser.PasswordHash) /\
  row.(User.MustSetPassword) = negb (is_Some_b u.(CanonicalUser.PasswordHash)).

(** What the import of [us] may do: add accounts for them, with mapped roles and
    links to mapped providers.  No row that was there changes. *)
Record added (us : list CanonicalUser.t) (d d' : DB) : Prop := mkAdded {
  added_rest : d' = d <| users := d'.(users) |> <| user_roles := d'.(user_roles) |> <| federation_links := d'.(federation_links) |>;
  added_users : d.(users) ⊆ d'.(users);
  added_accounts : forall k row, d'.(users) !! k = Some row -> d.(users) !! k = None -> exists u, In u us /\ account_for u row;
  added_roles : d.(user_roles) ⊆ d'.(user_roles);
  added_grants : forall p, p ∈ d'.(user_roles) -> p ∉ d.(user_roles) ->
    d.(users) !! p.1 = None /\ exists name, e.(roleIDs) !! name = Some p.2;
  added_linked : d.(federation_links) ⊆ d'.(federation_links);
  added_links : forall k l, d'.(federation_links) !! k = Some l -> d.(federation_links) !! k = None ->
    d.(users) !! l.(FederationLink.UserID) = None /\ exists name, e.(providerIDs) !! name = Some l.(FederationLink.ProviderID)
}.

#[export] Instance added_preorder us : PreOrder (added us).
Proof.
  split.
  - intros d. split; try done; try (by destruct d); intros; exfalso; congruence || done.
  - intros d1 d2 d3 H1 H2. destruct H1 as [Hr1 Hu1 Ha1 Hro1 Hg1 Hl1 Hk1], H2 as [Hr2 Hu2 Ha2 Hro2 Hg2 Hl2 Hk2].
    assert (Hfresh : forall k, d2.(users) !! k = None -> d1.(users) !! k = None).
    { intros k H. by eapply lookup_weaken_None. }
    split; [rewrite Hr2; by rewrite Hr1 | by etrans | | by etrans | | by etrans | ].
    + intros k row H3 H1. destruct (d2.(users) !! k) as [row2|] eqn:E; [|by eapply Ha2].
      pose proof (lookup_weaken _ _ _ _ E Hu2). simplify_eq. by eapply Ha1.
    + intros p H3 H1. destruct (decide (p ∈ d2.(user_roles))) as [H2|H2]; [by apply Hg1|].
      destruct (Hg2 p H3 H2) as [? ?]. eauto.
    + intros k l H3 H1. destruct (d2.(federation_links) !! k) as [l2|] eqn:E.
      * pose proof (lookup_weaken _ _ _ _ E Hl2). simplify_eq. by eapply Hk1.
      * destruct (Hk2 k l H3 E) as [? ?]. eauto.
Qed.

Lemma resolved_roles u rid : In rid (resolveRoles e u).1 -> exists name, e.(roleIDs) !! name = Some rid.
Proof.
  unfold resolveRoles. simpl. destruct (omap (role_of e) u) as [|x l] eqn:E.
  - unfold default_role. destruct (String.eqb _ _); [done|].
    destruct (e.(roleIDs) !! _) eqn:Er; [|done]. intros [<-|[]]. eauto.
  - rewrite <-E. intros Hin. apply list_elem_of_In, list_elem_of_omap in Hin as (rn & _ & Hr).
    unfold role_of in Hr. case_match; [eauto | done].
Qed.

Lemma resolved_links u l : In l (resolveLinks e u).1 ->
  exists name, e.(providerIDs) !! name = Some l.(FederationLink.ProviderID).
Proof.
  intros Hin. apply list_elem_of_In, list_elem_of_omap in Hin as (i & _ & Hi). unfold link_of in Hi.
  destruct (e.(mapping).(Mapping.Providers) !! _); [|done].
  destruct (e.(providerIDs) !! _) eqn:E; [|done]. simplify_eq. eauto.
Qed.

(** The rows of the new account [id]. *)
Record owned (id : UUID) (d d' : DB) : Prop := mkOwned {
  owned_rest : d' = d <| user_roles := d'.(user_roles) |> <| federation_links := d'.(federation_links) |>;
  owned_roles : d.(user_roles) ⊆ d'.(user_roles);
  owned_grants : forall p, p ∈ d'.(user_roles) -> p ∉ d.(user_roles) -> p.1 = id /\ exists name, e.(roleIDs) !! name = Some p.2;
  owned_linked : d.(federation_links) ⊆ d'.(federation_links);
  owned_links : forall k l, d'.(federation_links) !! k = Some l -> d.(federation_links) !! k = None ->
    l.(FederationLink.UserID) = id /\ exists name, e.(providerIDs) !! name = Some l.(FederationLink.ProviderID)
}.

#[local] Instance owned_preorder id : PreOrder (owned id).
Proof.
  split.
  - intros d. split; try done; try (by destruct d); intros; exfalso; congruence || done.
  - intros d1 d2 d3 [Hr1 Hro1 Hg1 Hl1 Hk1] [Hr2 Hro2 Hg2 Hl2 Hk2].
    split; [rewrite Hr2; by rewrite Hr1 | by etrans | | by etrans | ].
    + intros p H3 H1. destruct (decide (p ∈ d2.(user_roles))) as [H2|H2]; [by apply Hg1 | by apply Hg2].
    + intros k l H3 H1. destruct (d2.(federation_links) !! k) as [l2|] eqn:E; [|by eapply Hk2].
      pose proof (lookup_weaken _ _ _ _ E Hl2). simplify_eq. by eapply Hk1.
Qed.

Lemma grant_owned id rid : (exists name, e.(roleIDs) !! name = Some rid) -> Preserves (owned id) (grant id rid).
Proof.
  intros Hname. apply (preserves_stmt (owned id)). intros env d d' H.
  destruct (bool_decide_reflect ((id, rid) ∈ d.(user_roles))); [by simplify_eq|].
  destruct (_ && _); [|done]. simplify_eq. split; simpl; try done; [set_solver | | by intros; simplify_eq].
  intros p [Hp%elem_of_singleton | Hp]%elem_of_union Hn; [by subst p | done].
Qed.

Lemma CreateLink_owned id l :
  (exists name, e.(providerIDs) !! name = Some l.(FederationLink.ProviderID)) ->
  Preserves (owned id) (FedRepo.CreateLink (l <| FederationLink.UserID := id |>)).
Proof.
  intros Hname. unfold FedRepo.CreateLink. solve_preserves ltac:(idtac).
  apply (preserves_stmt (owned id)). intros env d d' H.
  destruct (_ || _) eqn:Hfree; [done|]. destruct (_ && _); [|done]. simplify_eq.
  apply orb_false_iff in Hfree as [_ Hfree].
  assert (Hn : d.(federation_links) !! a = None) by (by destruct (d.(federation_links) !! a)).
  split; simpl; try done; [by apply insert_subseteq|].
  intros k l'. rewrite lookup_insert_Some. intros [[<- <-] | [_ H]]; [done | congruence].
Qed.

(** An account and its rows. *)
Lemma owned_added us u row d d' :
  In u us -> account_for u row -> d.(users) !! row.(User.ID) = None ->
  owned row.(User.ID) (d <| users ::= insert row.(User.ID) row |>) d' -> added us d d'.
Proof.
  intros Hin Hacc Hnew [Hr Hro Hg Hl Hk]. simpl in *.
  assert (Hu : d'.(users) = <[row.(User.ID) := row]> d.(users)) by (by rewrite Hr).
  split; [by rewrite Hu, Hr | rewrite Hu; by apply insert_subseteq | | done | | done | ].
  - intros k row'. rewrite Hu, lookup_insert_Some. intros [[_ <-] | [_ H]] Hd; [eauto | congruence].
  - intros p Hp Hn. destruct (Hg p Hp Hn) as [-> ?]. done.
  - intros k l Hk' Hn. destruct (Hk k l Hk' Hn) as [-> ?]. done.
Qed.

Lemma Create_new u env st :
  wp (UserRepo.Create u) (fun r st' => match r with
    | Ok row => st.(st_db).(users) !! row.(User.ID) = None /\ row.(User.Email) = u.(User.Email)
        /\ row.(User.PasswordHash) = u.(User.PasswordHash) /\ row.(User.MustSetPassword) = u.(User.MustSetPassword)
        /\ st'.(st_db) = st.(st_db) <| users ::= insert row.(User.ID) row |>
    | Err _ => True
    end) env st.
Proof.
  unfold UserRepo.Create. wp_steps; try done.
  match goal with H : (if _ then _ else _) = Ok _ |- _ => revert H end.
  destruct (UserRepo.email_taken _ _ _); [done|]. simpl.
  destruct (users _ !! _) eqn:E; [done|]. intros [= <-]. done.
Qed.

Definition must_set (u : CanonicalUser.t) : bool := negb (is_Some_b u.(CanonicalUser.PasswordHash)).

Abbreviation write_for u := (write_account (account_of e u (must_set u)) (resolveRoles e u.(CanonicalUser.Roles)).1
                               (resolveLinks e u.(CanonicalUser.Identities)).1).

Lemma owned_for_each id {A} (l : list A) f :
  (forall x, In x l -> Preserves (owned id) (f x)) -> Preserves (owned id) (for_each l f).
Proof.
  induction l as [|x l IH]; intros Hf; [apply _|]. simpl. apply preserves_bind; [apply _ | apply Hf; by left |].
  intros _. apply IH. intros y Hy. apply Hf. by right.
Qed.

Lemma write_account_outcome us u env st : In u us -> email_of u <> "" ->
  wp (write_for u) (fun r st' => added us st.(st_db) st'.(st_db) /\
    match r with
    | Ok _ => exists k row, st'.(st_db).(users) !! k = Some row /\ row.(User.Email) = email_of u
    | Err _ => st'.(st_db) = st.(st_db)
    end) env st.
Proof.
  intros Hin He. apply wp_transaction; [done|]. apply wp_bind, wp_map_err.
  eapply wp_mono; [|apply Create_new]. intros [row|err] st1; [|done]. cbn. intros (Hnew & Hem & Hp & Hm & Hdb).
  apply (wp_preserves (owned row.(User.ID))).
  - apply preserves_bind; [apply _ | |intros _]; apply owned_for_each.
    + intros rid Hrid. apply preserves_map_err, grant_owned. exact (resolved_roles _ _ Hrid).
    + intros l Hl. apply preserves_bind; [apply _ | | intros a; exact (preserves_ret (owned _) tt)].
      apply preserves_map_err, CreateLink_owned. exact (resolved_links _ _ Hl).
  - intros r st' Ho. rewrite Hdb in Ho. destruct r; [|done]. intros _. simpl. split.
    + by eapply owned_added.
    + exists row.(User.ID), row. split; [|done]. rewrite (owned_rest _ _ _ Ho). simpl. apply lookup_insert_eq.
Qed.

#[local] Instance grant_keeps id rid : Preserves UserFacts.keeps_wf (grant id rid).
Proof.
  apply (preserves_stmt UserFacts.keeps_wf). intros env d d' H Hwf.
  destruct (bool_decide _); [by simplify_eq|]. destruct (_ && _); [|done]. by simplify_eq.
Qed.

#[local] Instance CreateLink_keeps l : Preserves UserFacts.keeps_wf (FedRepo.CreateLink l).
Proof.
  unfold FedRepo.CreateLink. solve_preserves ltac:(idtac). apply (preserves_stmt UserFacts.keeps_wf).
  intros env d d' H Hwf. destruct (_ || _); [done|]. destruct (_ && _); [|done]. by simplify_eq.
Qed.

#[local] Instance write_account_keeps u rids links : Preserves UserFacts.keeps_wf (write_account u rids links).
Proof. unfold write_account, wrapped. solve_preserves ltac:(apply UserFacts.Create_keeps_wf). Qed.

(** ** One record *)

(** Nothing is left to do for the record. *)
Definition settled (d : DB) (u : CanonicalUser.t) : Prop :=
  email_of u = "" \/ (exists k row, d.(users) !! k = Some row /\ row.(User.Email) = email_of u) \/
  (u.(CanonicalUser.PasswordHash) = None /\ u.(CanonicalUser.PasswordUnsupported) = true /\
   e.(mapping).(Mapping.OnUnsupportedPassword) = onUnsupportedSkip).

(** The records that were neither imported nor skipped. *)
Definition failures (r : Report.t) : Z :=
  r.(Total) - (r.(Created) + r.(SkippedExisting) + r.(SkippedNoEmail) + r.(SkippedNoPassword)).

Lemma settled_mono us d d' u : added us d d' -> settled d u -> settled d' u.
Proof.
  intros Ha [He | [(k & row & Hk & Hrow) | Hs]]; [by left | right; left | by do 2 right].
  exists k, row. split; [|done]. by eapply lookup_weaken; [|apply (added_users _ _ _ Ha)].
Qed.

(** What a step does to the database and to the report. *)
Record stepped (us : list CanonicalUser.t) (u : CanonicalUser.t) (d d' : DB) (res : result unit) (rep rep' : Report.t) : Prop := {
  stepped_added : added us d d';
  stepped_wf : UserFacts.keeps_wf d d';
  stepped_dry : e.(dryRun) = true -> d' = d;
  stepped_idle : settled d u -> d' = d /\ rep'.(Created) = rep.(Created);
  stepped_failures : failures rep <= failures rep';
  stepped_settles : e.(dryRun) = false -> res = Ok tt -> failures rep' = failures rep -> settled d' u
}.

Lemma stepped_same us u d res rep rep' :
  rep'.(Created) = rep.(Created) -> failures rep <= failures rep' ->
  (res = Ok tt -> failures rep' = failures rep -> settled d u) -> stepped us u d d res rep rep'.
Proof. intros Hc Hf Hs. split; auto; reflexivity. Qed.

Lemma count_held_pos d email :
  (0 <? count_rows (fun u => String.eqb u.(User.Email) email) d.(users)) = true <->
  exists k row, d.(users) !! k = Some row /\ row.(User.Email) = email.
Proof.
  unfold count_rows, select_rows. rewrite Z.ltb_lt. split.
  - intros Hpos. destruct (List.filter _ _) as [|row l] eqn:E; [done|].
    assert (Hin : In row (row :: l)) by (by left). rewrite <-E in Hin. apply filter_In in Hin as [Hin He].
    apply list_elem_of_In, list_elem_of_fmap in Hin as ([k row'] & -> & Hk%elem_of_map_to_list).
    exists k, row'. split; [done|]. by apply String.eqb_eq.
  - intros (k & row & Hk & He).
    assert (Hin : In row (List.filter (fun u => String.eqb u.(User.Email) email) (map_to_list d.(users)).*2)).
    { apply filter_In. split; [|by apply String.eqb_eq]. apply list_elem_of_In, list_elem_of_fmap.
      exists (k, row). split; [done|]. by apply elem_of_map_to_list. }
    destruct (List.filter _ _); [done | simpl; lia].
Qed.

Abbreviation ends m rep u us env st := (wp (m rep) (fun r st' => exists res rep',
  r = Ok (res, rep') /\ stepped us u st.(st_db) st'.(st_db) res rep rep') env st).

Ltac counted := simpl; unfold failures; simpl; lia.

(** Before the account is written, the record is counted in the total only. *)
Lemma import_account_ends us u env st rep rep1 : In u us -> email_of u <> "" -> ~ settled st.(st_db) u ->
  rep1.(Created) = rep.(Created) -> failures rep1 = failures rep + 1 ->
  wp (import_account e u (must_set u) rep1) (fun r st' => exists res rep',
    r = Ok (res, rep') /\ stepped us u st.(st_db) st'.(st_db) res rep rep') env st.
Proof.
  intros Hin He Hnot Hc Hf. unfold import_account. destruct (resolveRoles _ _) as [rids rs] eqn:Er.
  apply wp_bindP, wp_ret. destruct (resolveLinks _ _) as [links ps] eqn:El.
  apply wp_bindP, wp_ret. cbn [fst]. destruct e.(dryRun) eqn:Edry.
  - apply wp_ret. eexists _, _. split; [done|]. split; [reflexivity | done | done | done | | congruence].
    unfold failures in *. simpl. lia.
  - apply wp_bindP, wp_attemptP, wp_liftP.
    pose proof (write_account_outcome us u env st Hin He) as Hw. rewrite Er, El in Hw.
    assert (Hk : wp (write_account (account_of e u (must_set u)) rids links)
                    (fun _ st' => UserFacts.keeps_wf st.(st_db) st'.(st_db)) env st).
    { apply (wp_preserves UserFacts.keeps_wf); [apply _ | done]. }
    eapply wp_mono; [|apply wp_conj; [exact Hw | exact Hk]]. intros [[]|err] st' [[Hadd Hout] Hwf]; apply wp_ret; eexists _, _; (split; [done|]).
    + split; [done | done | congruence | done | unfold failures in *; simpl; lia | by right; left].
    + rewrite Hout. split; [reflexivity | done | done | done | unfold failures in *; simpl; lia | ].
      intros _ _. unfold failures in *. simpl. lia.
Qed.

Lemma importOne_ends us u env st rep : In u us -> ends (importOne e u) rep u us env st.
Proof.
  intros Hin. unfold importOne. apply wp_bindP, wp_ret. cbv zeta.
  destruct (String.eqb_spec (email_of u) "") as [He|He].
  { apply wp_ret. eexists _, _. split; [done|]. apply stepped_same; [done | counted | by left]. }
  apply wp_bindP, wp_map_errP, wp_liftP. apply wp_query; intros _.
  { eexists _, _. split; [done|]. apply stepped_same; [done | counted | done]. }
  destruct (0 <? _) eqn:Hheld.
  { apply wp_ret. eexists _, _. split; [done|]. apply stepped_same; [done | counted|].
    intros _ _. right; left. by apply count_held_pos. }
  assert (Hnew : forall k row, st.(st_db).(users) !! k = Some row -> row.(User.Email) <> email_of u).
  { intros k row Hk Hrow. apply not_true_iff_false in Hheld. apply Hheld, count_held_pos. eauto. }
  apply wp_bindP. unfold password_policy, must_set in *. pose proof (import_account_ends us u env (bump st) rep) as Hacc.
  unfold must_set in Hacc. destruct u.(CanonicalUser.PasswordHash) eqn:Ehash.
  { apply wp_ret, Hacc; try done; [|counted]. intros [? | [(k & row & ? & ?) | (? & _)]]; [done | by eapply Hnew | congruence]. }
  destruct u.(CanonicalUser.PasswordUnsupported) eqn:Euns.
  - destruct (String.eqb_spec e.(mapping).(Mapping.OnUnsupportedPassword) onUnsupportedFail) as [Ep|_].
    { apply wp_ret. eexists _, _. split; [done|]. apply stepped_same; [done | counted | done]. }
    destruct (String.eqb_spec e.(mapping).(Mapping.OnUnsupportedPassword) onUnsupportedSkip) as [Ep|Ep].
    + apply wp_bindP, wp_ret, wp_ret, wp_ret. eexists _, _. split; [done|]. apply stepped_same; [done | counted|].
      intros _ _. by right; right.
    + apply wp_bindP, wp_ret, wp_ret, Hacc; try done; [|counted].
      intros [? | [(k & row & ? & ?) | (_ & _ & ?)]]; [done | by eapply Hnew | done].
  - apply wp_bindP, wp_ret, wp_ret, Hacc; try done; [|counted].
    intros [? | [(k & row & ? & ?) | (_ & ? & _)]]; [done | by eapply Hnew | congruence].
Qed.

(** ** A whole import *)

Record imported (us : list CanonicalUser.t) (l : list CanonicalUser.t) (d d' : DB) (res : result unit) (rep rep' : Report.t) : Prop := {
  imported_added : added us d d';
  imported_wf : UserFacts.keeps_wf d d';
  imported_dry : e.(dryRun) = true -> d' = d;
  imported_idle : Forall (settled d) l -> d' = d /\ rep'.(Created) = rep.(Created);
  imported_failures : failures rep <= failures rep';
  imported_settles : e.(dryRun) = false -> res = Ok tt -> failures rep' = failures rep -> Forall (settled d') l
}.

Lemma Import_ends cancelled us l env st rep : (forall u, In u l -> In u us) ->
  wp (Import e cancelled l rep) (fun r st' => exists res rep',
    r = Ok (res, rep') /\ imported us l st.(st_db) st'.(st_db) res rep rep') env st.
Proof.
  revert st rep. induction l as [|u l IH]; intros st rep Hl.
  { apply wp_ret. eexists _, _. split; [done|]. by split. }
  simpl. apply wp_bindP, wp_liftP, wp_ask. destruct (cancelled _ _ _) as [[]|err].
  2: { eexists _, _. split; [done|]. split; [reflexivity | done | done | done | lia | done]. }
  apply wp_bindP. eapply wp_mono; [|apply (importOne_ends us); apply Hl; by left].
  intros r st1 (res & rep1 & -> & [Ha Hw Hd Hi Hf Hs]). cbn [st_db bump] in *. destruct res as [[]|err].
  - eapply wp_mono; [|apply IH; intros; apply Hl; by right].
    intros r st2 (res & rep2 & -> & [Ha2 Hw2 Hd2 Hi2 Hf2 Hs2]). eexists _, _. split; [done|].
    assert (Hmono : forall v, settled st1.(st_db) v -> settled st2.(st_db) v) by (intros v; by eapply settled_mono).
    split; [by etrans | by etrans | intros E; by rewrite Hd2, Hd | | lia | ].
    + intros [Hu Hrest]%Forall_cons. destruct (Hi Hu) as [E1 E2]. rewrite E1 in *.
      destruct (Hi2 Hrest) as [E3 E4]. rewrite E3, E4. done.
    + intros E Er Ef. apply Forall_cons. split; [apply Hmono, Hs; done || lia | apply Hs2; done || lia].
  - eexists _, _. split; [done|]. split; [done | done | done | | done | done].
    intros [Hu _]%Forall_cons. by apply Hi.
Qed.

(** C19: An import, with any faults and wherever it is cancelled, only adds: no
    account, role or link that was there changes, nor any other table.  Every
    account it adds is for one of the records, under its address in lower case,
    with the hash of the record or the duty to set a password; every role it
    grants, and every link, is a new account's and is one the mapping names.
    Addresses stay unique.  A dry run changes nothing. *)
Theorem import_adds_only cancelled us env db :
  let '(r, db') := run (Import e cancelled us newReport) env db in
  added us db db' /\ (UserFacts.users_wf db.(users) -> UserFacts.users_wf db'.(users)) /\
  (e.(dryRun) = true -> db' = db).
Proof.
  pose proof (Import_ends cancelled us us env (mkState db 0) newReport (fun _ => id)) as Hw.
  unfold run, wp in *. destruct (Import _ _ _ _ _ _) as [r st']. destruct Hw as (res & rep' & _ & [Ha Hw' Hd _ _ _]). done.
Qed.

(** An import that ended with every record imported or skipped is complete:
    whatever happens to a second one, it creates no account and changes nothing. *)
Theorem import_idempotent cancelled us env db rep db' :
  e.(dryRun) = false ->
  run (Import e cancelled us newReport) env db = (Ok (Ok tt, rep), db') -> failures rep = 0 ->
  forall cancelled' env', let '(r, db'') := run (Import e cancelled' us newReport) env' db' in
  db'' = db' /\ exists res rep', r = Ok (res, rep') /\ rep'.(Created) = 0.
Proof.
  intros Hdry Hrun Hf cancelled' env'.
  pose proof (Import_ends cancelled us us env (mkState db 0) newReport (fun _ => id)) as Hw.
  pose proof (Import_ends cancelled' us us env' (mkState db' 0) newReport (fun _ => id)) as Hw'.
  unfold run, wp in *. destruct (Import _ _ _ _ env _) as [r st1]. simplify_eq/=.
  destruct Hw as (res & rep1 & [= <- <-] & [_ _ _ _ _ Hs]).
  destruct (Import _ _ _ _ env' _) as [r' st2]. simpl in *. destruct Hw' as (res & rep2 & -> & [_ _ _ Hi _ _]).
  destruct (Hi (Hs Hdry eq_refl Hf)) as [-> E]. split; [done|]. exists res, rep2. done.
Qed.

End facts.

(** ** A small import *)

Definition mapping : Mapping.t :=
  Mapping.mk {[ "google" := "google" ]} {[ "Admin" := "staff" ]} true "user" "reset".

Definition target : DB :=
  UserFacts.sample_users
    <| roles := {[ 1%N := Role.zero <| Role.ID := 1%N |> <| Role.Name := "staff" |>;
                   2%N := Role.zero <| Role.ID := 2%N |> <| Role.Name := "user" |> ]} |>
    <| federation_providers := {[ 7%N := FederationProvider.zero <| FederationProvider.ID := 7%N |> <| FederationProvider.Name := "google" |> ]} |>.

Definition row (id email : string) (suspended : bool) : Logto.row :=
  Logto.mkRow id (Some id) (Some email) None None None None None "" "" (marshal_value (AMap [("google", AMap [("userId", AString ("g-" +:+ id))])])) suspended.

Definition env : Env := mkEnv 0 0 (fun _ => false) (fun n i => Z.of_nat (n + i)) (fun n => N.of_nat (1000 + n)).
Definition never : Reader unit := fun _ _ _ => Ok tt.

(** The outcome of an import of the rows: the report, the accounts made with
    their activity, and the pairs of roles. *)
Definition import (dry : bool) (rows : list Logto.row) : option (list Z * list (string * bool) * list (UUID * UUID)) :=
  match run (NewEngine mapping "logto" dry) env target, Logto.Users (Ok [("u1", "Admin")]) (Ok rows) with
  | (Ok e, db), Ok us =>
      match run (Import e never us newReport) env db with
      | (Ok (Ok tt, rep), db') =>
          Some ([rep.(Total); rep.(Created); rep.(SkippedExisting); rep.(LinksCreated); rep.(RolesAssigned)],
                map (fun u => (u.(User.Email), u.(User.Active)))
                  (select_rows (fun u => negb (is_Some_b (db.(users) !! u.(User.ID)))) db'.(users)),
                elements db'.(user_roles))
      | _ => None
      end
  | _, _ => None
  end.

(** A suspended user comes in active, with the role its name maps to. *)
Example suspended_user_is_active :
  import false [row "u1" " Ada@Example.com" true] = Some ([1; 1; 0; 1; 1], [("ada@example.com", true)], [(1003%N, 1%N)]).
Proof. vm_compute. reflexivity. Qed.

(** The trial run counts an address that comes twice twice. *)
Example dry_run_counts_twice :
  import true [row "u1" "ada@example.com" false; row "u2" "ADA@example.com" false] = Some ([2; 2; 0; 2; 2], [], []) /\
  import false [row "u1" "ada@example.com" false; row "u2" "ADA@example.com" false]
    = Some ([2; 1; 1; 1; 1], [("ada@example.com", true)], [(1003%N, 1%N)]).
Proof. split; vm_compute; reflexivity. Qed.

Definition engine : Engine.t :=
  Engine.mk mapping false "logto" {[ "google" := 7%N ]} {[ "staff" := 1%N; "user" := 2%N ]}.
Definition records : list CanonicalUser.t := [Logto.user [("u1", "Admin")] (row "u1" "ada@example.com" false); Logto.user [] (row "u2" "bob@example.com" false)].

Definition complete (o : result (result unit * Report.t) * DB) : bool :=
  match o.1 with Ok (Ok tt, rep) => (failures rep =? 0) && (rep.(Created) =? 2) | _ => false end.

Lemma import_idempotent_witness :
  exists rep db', run (Import engine never records newReport) env target = (Ok (Ok tt, rep), db') /\ rep.(Created) = 2 /\
  forall cancelled' env', let '(r, db'') := run (Import engine cancelled' records newReport) env' db' in
  db'' = db' /\ exists res rep', r = Ok (res, rep') /\ rep'.(Created) = 0.
Proof.
  assert (Hc : complete (run (Import engine never records newReport) env target) = true) by (vm_compute; reflexivity).
  unfold complete in Hc. destruct (run _ env target) as [[[[[]|err] rep]|err] db'] eqn:E; try discriminate Hc. simpl in Hc.
  apply andb_true_iff in Hc as [Hf%Z.eqb_eq Hn%Z.eqb_eq].
  exists rep, db'. split; [done|]. split; [done|].
  exact (import_idempotent engine never records env target rep db' eq_refl E Hf).
Defined.

End ImportFacts.
