(* ===== verification/Http.v ===== *)
(** * pkg/response.go, middleware/cors.go, middleware/security.go: answers

    The status and the body an error is answered with, pages of lists, and the
    headers of every answer. *)
From S2P Require Import Prelude.
From S2P Require Import Errors.
From S2P Require Import GoLib.
From S2P Require Import Settings.
From Stdlib Require Import Ascii.
Local Open Scope Z_scope.

(** ** Errors *)

Inductive ErrorBody :=
| OAuthBody (e : OAuthError.t)
| AppBody (code message : string).

Definition HandleError (err : error) : Z * ErrorBody :=
  match err with
  | EOAuth e => (e.(OAuthError.StatusCode), OAuthBody e)
  | EApp e => (e.(AppError.StatusCode), AppBody e.(AppError.Code) e.(AppError.Message))
  | EDriver _ | EOther _ => (500, AppBody "internal_error" "an unexpected error occurred")
  end.

(** ** Pages *)

(** The digits of a text in a 64-bit integer; 0 when a character is none. *)
Fixpoint atoi_from (n : Z) (l : list ascii) : Z :=
  match l with
  | [] => n
  | c :: l =>
      let d := Z.of_nat (nat_of_ascii c) in
      if (d <? 48) || (57 <? d) then 0 else atoi_from (int64_wrap (int64_wrap (n * 10) + (d - 48))) l
  end.
Definition atoi (s : string) : Z := atoi_from 0 (String.list_ascii_of_string s).

Definition ParsePagination (Query : string -> string) : Z * Z :=
  let p := Query "page" in
  let pp := Query "per_page" in
  (if negb (String.eqb p "") && (0 <? atoi p) then atoi p else 1,
   if negb (String.eqb pp "") && (0 <? atoi pp) && (atoi pp <=? 100) then atoi pp else 20).

Module PaginatedResponse.
Record t := mk { Total : Z; Page : Z; PerPage : Z; TotalPages : Z }.
End PaginatedResponse.

Definition Paginated (total page perPage : Z) : PaginatedResponse.t :=
  PaginatedResponse.mk total page perPage
    (Z.quot total perPage + (if 0 <? Z.rem total perPage then 1 else 0)).

(** A list in one page. *)
Definition List (count : Z) : PaginatedResponse.t :=
  Paginated count 1 (if count =? 0 then 1 else count).

(** ** Cross-origin requests: middleware/cors.go *)

Record CORSConfig := mkCORSConfig {
  AllowedOrigins : list string;
  AllowedMethods : list string;
  AllowedHeaders : list string;
  MaxAge : Z
}.

(** What the middleware adds, and whether it answers by itself. *)
Inductive CORSAnswer := CORSNext (headers : list (string * string)) | CORSNoContent (headers : list (string * string)).

Definition cors_headers (cfg : CORSConfig) (origin : string) : list (string * string) :=
  [("Access-Control-Allow-Origin", origin);
   ("Access-Control-Allow-Methods", String.concat ", " cfg.(AllowedMethods));
   ("Access-Control-Allow-Headers", String.concat ", " cfg.(AllowedHeaders));
   ("Access-Control-Max-Age", Itoa cfg.(MaxAge))].

(** The star is not an origin of the list. *)
Definition allowedOrigins (cfg : CORSConfig) : list string :=
  List.filter (fun o => negb (String.eqb o "*")) cfg.(AllowedOrigins).
Definition wildcard (cfg : CORSConfig) : bool := mem "*" cfg.(AllowedOrigins).

Definition CORS (cfg : CORSConfig) (origin method : string) : CORSAnswer :=
  if String.eqb origin "" then CORSNext []
  else
    let headers :=
      if mem origin (allowedOrigins cfg)
      then cors_headers cfg origin ++ [("Access-Control-Allow-Credentials", "true")]
      else if wildcard cfg then cors_headers cfg "*" else [] in
    if String.eqb method "OPTIONS" then CORSNoContent headers else CORSNext headers.

Definition SecurityHeaders (hstsEnabled : bool) : list (string * string) :=
  [("X-Content-Type-Options", "nosniff"); ("X-Frame-Options", "DENY");
   ("Referrer-Policy", "strict-origin-when-cross-origin"); ("X-XSS-Protection", "0");
   ("Content-Security-Policy", "default-src 'none'; frame-ancestors 'none'")]
  ++ (if hstsEnabled then [("Strict-Transport-Security", "max-age=31536000; includeSubDomains")] else []).

(** The identifier of a request: the one it came with, or a new one. *)
Definition RequestID (header fresh : string) : string := if String.eqb header "" then fresh else header.

(** ** Facts *)
Module HttpFacts.

(** An error the program did not make for its clients says nothing to them. *)
Lemma internal_errors_alike e : (forall o, e <> EOAuth o) -> (forall a, e <> EApp a) ->
  HandleError e = HandleError (EOther "").
Proof. intros Ho Ha. destruct e; [by destruct (Ho e) | by destruct (Ha e) | done | done]. Qed.

Lemma int64_wrap_range x : - 2 ^ 63 <= int64_wrap x < 2 ^ 63.
Proof. unfold int64_wrap. pose proof (Z.mod_pos_bound (x + 2 ^ 63) (2 ^ 64) ltac:(lia)). lia. Qed.

Lemma atoi_from_range n l : - 2 ^ 63 <= n < 2 ^ 63 -> - 2 ^ 63 <= atoi_from n l < 2 ^ 63.
Proof.
  revert n. induction l as [|c l IH]; intros n Hn; simpl; [done|].
  destruct (_ || _); [lia|]. apply IH, int64_wrap_range.
Qed.

(** Whatever a request asks for, the page is a positive 64-bit number and a page
    holds between one and a hundred rows; the pages of a list cover its rows and
    the last one is not empty. *)
Theorem pagination_bounds (Query : string -> string) (total : Z) :
  let '(page, perPage) := ParsePagination Query in
  1 <= page < 2 ^ 63 /\ 1 <= perPage <= 100 /\
  (0 <= total < 2 ^ 63 -> let n := (Paginated total page perPage).(PaginatedResponse.TotalPages) in
     total <= n * perPage < total + perPage).
Proof.
  unfold ParsePagination.
  assert (Hpage : forall b p, 1 <= (if b && (0 <? atoi p) then atoi p else 1) < 2 ^ 63).
  { intros b p. pose proof (atoi_from_range 0 (String.list_ascii_of_string p) ltac:(lia)) as Hp. fold (atoi p) in Hp.
    destruct b; cbn [andb]; [|lia]. destruct (Z.ltb_spec 0 (atoi p)); lia. }
  assert (Hper : forall b p, 1 <= (if b && (0 <? atoi p) && (atoi p <=? 100) then atoi p else 20) <= 100).
  { intros b p. destruct b; cbn [andb]; [|lia]. destruct (Z.ltb_spec 0 (atoi p)); cbn [andb]; [|lia].
    destruct (Z.leb_spec (atoi p) 100); lia. }
  specialize (Hpage (negb (String.eqb (Query "page") "")) (Query "page")).
  specialize (Hper (negb (String.eqb (Query "per_page") "")) (Query "per_page")).
  revert Hpage Hper. generalize (if negb (String.eqb (Query "page") "") && (0 <? atoi (Query "page")) then atoi (Query "page") else 1).
  generalize (if negb (String.eqb (Query "per_page") "") && (0 <? atoi (Query "per_page")) && (atoi (Query "per_page") <=? 100)
              then atoi (Query "per_page") else 20).
  intros perPage page Hpage Hper.
  split_and!; try lia. intros Ht. simpl.
  rewrite Z.quot_div_nonneg, Z.rem_mod_nonneg by lia.
  pose proof (Z.div_mod total perPage ltac:(lia)). pose proof (Z.mod_pos_bound total perPage ltac:(lia)).
  destruct (Z.ltb_spec 0 (total mod perPage)); nia.
Qed.

(** An answer that lets a browser send credentials names the very origin of the
    request, which the configuration lists; an answer to any origin never does. *)
Lemma CORS_credentials (cfg : CORSConfig) (origin method : string) :
  let headers := match CORS cfg origin method with CORSNext h | CORSNoContent h => h end in
  ("Access-Control-Allow-Credentials", "true") ∈ headers ->
  origin <> "*" /\ origin ∈ cfg.(AllowedOrigins) /\
  forall v, ("Access-Control-Allow-Origin", v) ∈ headers -> v = origin.
Proof.
  assert (Hc : forall o, ("Access-Control-Allow-Credentials", "true") ∉ cors_headers cfg o).
  { intros o Hin. apply list_elem_of_In in Hin. simpl in Hin. by repeat destruct Hin as [[=]|Hin]. }
  unfold CORS. destruct (String.eqb origin ""); simpl; [by intros ?%elem_of_nil|].
  set (h := if mem origin _ then _ else _).
  replace (match (if String.eqb method "OPTIONS" then CORSNoContent h else CORSNext h) with CORSNext h | CORSNoContent h => h end)
    with h by (by destruct (String.eqb method "OPTIONS")).
  subst h. destruct (mem origin (allowedOrigins cfg)) eqn:Em.
  - intros _. apply mem_iff, elem_of_List_filter in Em as [Hin Hstar]. split_and!.
    + intros ->. done.
    + exact Hin.
    + intros v Hv. apply list_elem_of_In in Hv; simpl in Hv. by repeat destruct Hv as [[= <-]|Hv].
  - destruct (wildcard cfg); [by intros ?%Hc | by intros ?%elem_of_nil].
Qed.
End HttpFacts.
