(* ===== verification/Startup.v ===== *)
(** * config/validate.go, main.go: what a boot checks and seeds

    The checks on the loaded configuration, the decoding of the two keys, the
    readiness probe, and the account and the client a first boot creates.  How
    viper reads the configuration, and the files and log lines that announce the
    generated password, are left out. *)
From S2P Require Import Prelude.
From S2P Require Import Errors.
From S2P Require Import GoLib.
From S2P Require Import GoNet.
From S2P Require Import Model.
From S2P Require Import Platform.
From S2P Require Import Config.
From S2P Require Import Exec.
From S2P Require Import Crypto.
From S2P Require Import Aes.
From S2P Require Import ActionToken.
From S2P Require Import UserSvc.
From S2P Require Import Rbac.
From S2P Require Import Middleware.
From S2P Require Import ClientSvc.
From Stdlib Require Import Ascii.
From S2P Require Http.
Local Open Scope Z_scope.

(** ** The configuration, as far as it is checked *)

Module ServerConfig.
Record t := mk { Host : string; Port : Z; Mode : string; TrustedProxies : list string; TrustedPlatform : string }.
End ServerConfig.

Module DatabaseConfig.
Record t := mk { Host : string; Port : Z; User : string; Password : string; Name : string; SSLMode : string }.

(** [port] is what viper reads back, before its spaces are trimmed. *)
Definition DSN (d : t) (port : string) : string :=
  "host=" +:+ d.(Host) +:+ " port=" +:+ port +:+ " user=" +:+ d.(User) +:+ " password=" +:+ d.(Password)
    +:+ " dbname=" +:+ d.(Name) +:+ " sslmode=" +:+ d.(SSLMode).
End DatabaseConfig.

Module SMTPConfig.
Record t := mk { Host : string; Port : Z; Username : string; Password : string; From : string; FromName : string; TLS : bool }.
End SMTPConfig.

Record Config := mkConfig {
  Server : ServerConfig.t;
  Database : DatabaseConfig.t;
  Auth : AuthConfig.t;
  CORS : Http.CORSConfig;
  SMTP : SMTPConfig.t;
  Issuer : string;
  PairwiseSalt : string
}.

#[export] Instance eta_Config : Eta Config := fun c => mkConfig
  (c.(Server)) (c.(Database)) (c.(Auth)) (c.(CORS)) (c.(SMTP)) (c.(Issuer)) (c.(PairwiseSalt)).

(** ** Validate *)

Definition PairwiseSaltSentinel : string := "change-me-in-production".

Definition isLocalhost (host : string) : bool :=
  equal_fold host "localhost" || String.eqb host "127.0.0.1" || String.eqb host "::1".

(** A line of the log, or an entry of the error. *)
Inductive note := Refuse (msg : string) | Warn (msg : string).

Definition config_validation : string := "config validation: ".

(** A hard check: it refuses in release mode and warns otherwise. *)
Definition hard (isRelease failed : bool) (msg suffix : string) : list note :=
  if negb failed then []
  else if isRelease then [Refuse msg] else [Warn (config_validation +:+ msg +:+ suffix)].

Definition soft (failed : bool) (msg : string) : list note :=
  if failed then [Warn (config_validation +:+ msg)] else [].

Definition weak_salt (c : Config) : bool :=
  String.eqb c.(PairwiseSalt) "" || String.eqb c.(PairwiseSalt) PairwiseSaltSentinel.

Definition local_issuer (c : Config) : bool :=
  String.eqb c.(Issuer) "" || has_prefix "http://localhost" c.(Issuer) || has_prefix "http://127.0.0.1" c.(Issuer).

Definition isRelease (c : Config) : bool := equal_fold c.(Server).(ServerConfig.Mode) "release".

Definition notes (c : Config) : list note :=
  let rel := isRelease c in
  let mode := c.(Server).(ServerConfig.Mode) in
  hard rel (weak_salt c)
    "pairwise_salt must be overridden with a strong random value (current value is the shipped placeholder)"
    " — UNSAFE for production" ++
  hard rel (String.eqb c.(Auth).(AuthConfig.HMACSecretEncryptionKey) "")
    "auth.hmac_secret_encryption_key is empty; federation client_secrets will be stored UNENCRYPTED and client_secret_jwt is disabled"
    "" ++
  hard rel (String.eqb c.(Auth).(AuthConfig.ActionTokenSigningKey) "")
    "auth.action_token_signing_key is empty; verify-email links cannot be issued"
    " — an ephemeral random key will be generated for this process only" ++
  soft (equal_fold c.(Database).(DatabaseConfig.SSLMode) "disable")
    "database.sslmode=disable; safe only when the DB is reachable exclusively over a private network (docker-compose / pod / VPC)" ++
  hard rel (local_issuer c)
    ("issuer " +:+ quoted c.(Issuer) +:+ " is not safe for release mode; must be an https URL pointing to your public endpoint")
    "" ++
  hard rel (mem "*" c.(CORS).(Http.AllowedOrigins))
    "cors.allowed_origins contains '*' which is incompatible with Access-Control-Allow-Credentials: true"
    "" ++
  soft (negb c.(SMTP).(SMTPConfig.TLS) && negb (String.eqb c.(SMTP).(SMTPConfig.Host) "")
        && negb (isLocalhost c.(SMTP).(SMTPConfig.Host)))
    "SMTP TLS is disabled with a remote host; verification/reset emails will be sent in plaintext" ++
  soft (String.eqb c.(Database).(DatabaseConfig.Password) "orionauth")
    "database.password is the shipped development default 'orionauth'; override via ORION_DATABASE_PASSWORD" ++
  soft (negb rel && negb (equal_fold mode "test") && negb (equal_fold mode "debug"))
    "server.mode is not one of release/debug/test".

Definition refusals (l : list note) : list string :=
  omap (fun n => match n with Refuse m => Some m | Warn _ => None end) l.

Definition sep : string := String (Ascii.ascii_of_nat 10) "  - ".


(** The error [Validate] returns, if any; the warnings are those of [notes]. *)
Definition Validate (c : Config) : option string :=
  match refusals (notes c) with
  | [] => None
  | errs => Some ("config validation failed for release mode:" +:+ sep +:+ String.concat sep errs)
  end.

(** ** Keys: main.go *)

Definition loadHMACEncryptionKey (encoded : string) : option (list Z) :=
  if String.eqb encoded "" then None
  else match DecodeHMACEncryptionKey encoded with Ok key => Some key | Err _ => None end.

Definition loadActionTokenSigningKey (encoded : string) : M (option (list Z)) :=
  if String.eqb encoded "" then opt (rand_read 32)
  else ret (match DecodeHMACEncryptionKey encoded with Ok key => Some key | Err _ => None end).

(** ** Readiness: main.go *)

(** The checks in their order, and whether the answer is 200. *)
Definition readinessCheck (ping : option (M unit)) (hasActiveKey : option bool) : M (Z * list (string * string)) :=
  database <- match ping with
              | None => ret "unavailable"
              | Some ping => r <- attempt ping ;; ret (if is_ok r then "ok" else "unreachable")
              end ;;
  let jwks := match hasActiveKey with Some true => "ok" | _ => "no active signing key" end in
  ret (if String.eqb database "ok" && String.eqb jwks "ok" then 200 else 503,
       [("database", database); ("jwks", jwks)]).

(** ** The first boot: main.go, model/seed_ids.go *)

Definition AdminRoleID : UUID := 1%N.
Definition AdminClientID : UUID := 2%N.
Definition DefaultUserRoleID : UUID := 4%N.

Definition adminEmail : string := "admin@orionauth.local".

Section seed.
Context `{Platform} `{JwtLib} (us : UserSvc.Service).

(** [envPassword] is [ORION_ADMIN_PASSWORD]; each error is logged and ends the
    seeding. *)
Definition seedAdminUser (envPassword : string) : M unit :=
  ignore (
    count <- query (fun _ db => Z.of_nat (size db.(users))) ;;
    if 0 <? count then ret tt
    else
      password <- (if String.eqb envPassword "" then GenerateRandomString 16 else ret envPassword) ;;
      admin <- UserSvc.Register us (UserSvc.mkRegisterInput adminEmail password (Some "Admin") [] false) ;;
      RbacSvc.AssignRole admin.(User.ID) AdminRoleID ;;;
      UserRepo.UpdateFields admin.(User.ID) (fun u => u <| User.EmailVerified := true |>)).

Definition admin_client (issuer : string) : OAuthClient.t :=
  OAuthClient.zero
    <| OAuthClient.ID := AdminClientID |> <| OAuthClient.Name := "Admin UI" |>
    <| OAuthClient.RedirectURIs := [issuer +:+ "/admin/callback"] |>
    <| OAuthClient.PostLogoutRedirectURIs := [issuer +:+ "/admin/"] |>
    <| OAuthClient.GrantTypes := ["authorization_code"; "refresh_token"] |>
    <| OAuthClient.ResponseTypes := ["code"] |>
    <| OAuthClient.Scopes := ["openid"; "profile"; "email"] |>
    <| OAuthClient.TokenAuthMethod := "none" |>
    <| OAuthClient.IsPublic := true |> <| OAuthClient.IsFirstParty := true |>
    <| OAuthClient.AccessTokenTTL := 3600 |> <| OAuthClient.RefreshTokenTTL := 86400 |>
    <| OAuthClient.IDTokenTTL := 3600 |> <| OAuthClient.Active := true |>.

(** The row that is there gets the redirect the end of a session needs. *)
Definition seedAdminClient (issuer : string) : M unit :=
  let postLogoutURI := issuer +:+ "/admin/" in
  let! (existing, err) := ClientRepo.FindByID AdminClientID ;;
  match err, existing with
  | Some _, _ => ret tt
  | None, Some existing =>
      if OAuthClient.HasPostLogoutRedirectURI existing postLogoutURI then ret tt
      else
        let uris := existing.(OAuthClient.PostLogoutRedirectURIs) ++ [postLogoutURI] in
        ignore (update_table (upd oauth_clients) (fun env =>
          alter (fun c => c <| OAuthClient.PostLogoutRedirectURIs := uris |>
                            <| OAuthClient.UpdatedAt := env.(env_wall) |>) AdminClientID))
  | None, None => ignore (ClientRepo.Create (admin_client issuer))
  end.

Definition seedDefaults (envPassword issuer : string) : M unit :=
  seedAdminUser envPassword ;;; seedAdminClient issuer.

End seed.

(** ** Facts *)
Module StartupFacts.

(** What a release needs. *)
Record safe (c : Config) : Prop := {
  salt_chosen : c.(PairwiseSalt) <> "" /\ c.(PairwiseSalt) <> PairwiseSaltSentinel;
  hmac_key_set : c.(Auth).(AuthConfig.HMACSecretEncryptionKey) <> "";
  action_key_set : c.(Auth).(AuthConfig.ActionTokenSigningKey) <> "";
  issuer_public : c.(Issuer) <> "" /\ has_prefix "http://localhost" c.(Issuer) = false /\
                  has_prefix "http://127.0.0.1" c.(Issuer) = false;
  origins_listed : "*" ∉ c.(CORS).(Http.AllowedOrigins)
}.

Lemma refusals_app l l' : refusals (l ++ l') = refusals l ++ refusals l'.
Proof. apply omap_app. Qed.

Lemma refusals_soft b m : refusals (soft b m) = [].
Proof. by destruct b. Qed.

Lemma refusals_hard rel b m s : refusals (hard rel b m s) = if rel && b then [m] else [].
Proof. by destruct rel, b. Qed.

Lemma orb_eqb_false a b c : String.eqb a b || c = false <-> a <> b /\ c = false.
Proof. by rewrite orb_false_iff, String.eqb_neq. Qed.

(** A boot is refused exactly in release mode with an unsafe setting; otherwise
    the server starts whatever the settings are. *)
Theorem accepted_config (c : Config) : Validate c = None <-> (isRelease c = true -> safe c).
Proof.
  unfold Validate, notes. cbv zeta. rewrite !refusals_app, !refusals_soft, !refusals_hard.
  destruct (isRelease c); cbn [andb app]; [|by split].
  transitivity (weak_salt c = false /\ String.eqb c.(Auth).(AuthConfig.HMACSecretEncryptionKey) "" = false /\
    String.eqb c.(Auth).(AuthConfig.ActionTokenSigningKey) "" = false /\ local_issuer c = false /\
    mem "*" c.(CORS).(Http.AllowedOrigins) = false).
  - destruct (weak_salt c), (String.eqb _ ""), (String.eqb _ ""), (local_issuer c), (mem _ _); simpl; naive_solver.
  - unfold weak_salt, local_issuer. rewrite !orb_false_iff, !String.eqb_neq.
    split; [intros (? & ? & ? & ? & Hm) _ | intros Hs; destruct (Hs eq_refl) as [? ? ? ? Hm]].
    + split; [tauto..|]. rewrite <-mem_iff. by rewrite Hm.
    + split_and!; try tauto. rewrite <-mem_iff in Hm. by destruct (mem _ _).
Qed.

(** The origins of a configuration that boots in release are never a wildcard:
    no answer that allows credentials is for every site. *)
Theorem release_origins c : Validate c = None -> isRelease c = true -> Http.wildcard c.(CORS) = false.
Proof.
  intros Hv Hr. destruct (proj1 (accepted_config c) Hv Hr) as [_ _ _ _ Hm].
  unfold Http.wildcard. rewrite <-mem_iff in Hm. by destruct (mem _ _).
Qed.

(** A second boot leaves the accounts and their roles alone. *)
Theorem second_boot `{Platform} `{JwtLib} us password env db :
  db.(users) <> ∅ -> (run (seedAdminUser us password) env db).2 = db.
Proof.
  intros Hne. unfold run, seedAdminUser, ignore, attempt, bind, query. cbn [st_step].
  destruct (env_fail env 0); [done|]. cbn [st_db bump].
  assert (Hs : (0 <? Z.of_nat (size db.(users))) = true).
  { apply Z.ltb_lt. apply Nat2Z.inj_lt with (n := 0%nat). apply Nat.neq_0_lt_0. by rewrite map_size_empty_iff. }
  by rewrite Hs.
Qed.

End StartupFacts.

(** ** Some boots *)
Module StartupSample.

Definition release : Config := mkConfig
  (ServerConfig.mk "" 0 "release" [] "") (DatabaseConfig.mk "" 0 "" "strong" "" "require")
  (AuthConfig.mk 0 0 0 0 0 0 0 0 0 "ZGV2LWtleS1ub3QtZW1wdHk=" "ZGV2LWtleS1ub3QtZW1wdHk=" "" [])
  (Http.mkCORSConfig ["https://app.example.com"] [] [] 0) (SMTPConfig.mk "smtp.example.com" 0 "" "" "" "" true)
  "https://auth.example.com" "9d8a7b6c5e4f3a2b1c0d9e8f7a6b5c4d".

Example release_boots : Validate release = None.
Proof. vm_compute. reflexivity. Qed.

(** The issuer need not be https. *)
Example plain_http_boots : Validate (release <| Issuer := "http://auth.example.com" |>) = None.
Proof. vm_compute. reflexivity. Qed.

(** Nor need the keys be ones that can be used: this one has 17 bytes. *)
Example unusable_key_boots :
  Validate release = None /\ loadHMACEncryptionKey release.(Auth).(AuthConfig.HMACSecretEncryptionKey) = None.
Proof. split; vm_compute; reflexivity. Qed.

(** A first boot whose assignment of the role fails leaves an account that is no
    administrator, and no later boot makes one. *)
Definition boot_env (fails : nat -> bool) : Env :=
  mkEnv (100 * second) (100 * second) fails (fun n i => Z.of_nat (n + i)) (fun n => N.of_nat (1000 + n)).

Definition roles_db : DB := empty_db <| roles := {[ AdminRoleID := Role.zero <| Role.ID := AdminRoleID |> ]} |>.

#[local] Instance any_jwt : JwtLib := {| jwt_sign _ _ := Ok "token"; jwt_parse _ _ _ := Err (EOther "unused") |}.

Abbreviation boot fails db :=
  (run (@seedAdminUser sample_platform any_jwt UserFacts.sample_service "operator-password") (boot_env fails) db).2.

Definition admins (db : DB) : nat := size (filter (fun p => p.2 = AdminRoleID) db.(user_roles)).

Definition admins_and_users (db : DB) : bool * bool :=
  (Nat.eqb (admins db) 1, Nat.eqb (size db.(users)) 1).

Example first_boot : admins_and_users (boot (fun _ => false) roles_db) = (true, true).
Proof. vm_compute. reflexivity. Qed.

Example half_a_boot :
  let db := boot (Nat.eqb 12) roles_db in
  admins_and_users db = (false, true) /\ admins_and_users (boot (fun _ => false) db) = (false, true).
Proof. split; vm_compute; reflexivity. Qed.

End StartupSample.
