(* ===== verification/AuditTrail.v ===== *)
(** * audit/: the log of security events

    The service that records an event, the helper that fills an event from the
    context of a request, and the filtered pages of the log.  A failure to record
    never fails the request; [slog] is left out. *)
From S2P Require Import Prelude.
From S2P Require Import Errors.
From S2P Require Import GoLib.
From S2P Require Import Model.
From S2P Require Import Platform.
From S2P Require Import Exec.
From S2P Require Import JsonFlat.
From S2P Require Import JsonTree.
From S2P Require Import Profile.
From S2P Require Import Middleware.
From S2P Require Import Http.
Local Open Scope Z_scope.

(** ** audit/actions.go: the names of the events *)
Module Actions.

Definition user_actions : list string :=
  ["user.registered"; "user.login"; "user.login_failed"; "user.updated"; "user.deleted";
   "user.password_changed"; "user.password_reset"; "admin.password_reset_initiated";
   "user.email_verified"].

Definition session_actions : list string :=
  ["session.revoked"; "session.revoked_all"].

Definition client_actions : list string :=
  ["client.created"; "client.updated"; "client.deleted"; "client.secret_rotated"].

Definition oauth_actions : list string :=
  ["oauth.consent_granted"; "oauth.token_revoked"].

Definition role_actions : list string :=
  ["role.created"; "role.updated"; "role.deleted"; "role.permissions_updated"; "role.assigned";
   "role.removed"].

Definition mfa_actions : list string :=
  ["mfa.enrolled"; "mfa.disabled"].

Definition invitation_actions : list string :=
  ["invitation.created"; "settings.updated"].

Definition password_policy_actions : list string :=
  ["password_policy.updated"].

Definition regform_actions : list string :=
  ["regform.field_created"; "regform.field_updated"; "regform.field_deleted";
   "regform.fields_reordered"].

Definition federation_actions : list string :=
  ["federation.provider_created"; "federation.provider_updated"; "federation.provider_deleted";
   "federation.login_succeeded"; "federation.login_failed"; "federation.account_linked";
   "federation.account_unlinked"; "federation.user_provisioned"; "federation.link_confirm_failed"].

Definition resource_actions : list string :=
  ["resource.created"; "resource.updated"; "resource.deleted"; "resource.permission_added";
   "resource.permission_removed"; "resource.client_permissions_updated"].

Definition policy_actions : list string :=
  ["policy.created"; "policy.updated"; "policy.deleted"; "policy.denied"].

Definition m2m_actions : list string :=
  ["m2m.user.created"; "m2m.user.updated"; "m2m.user.deleted"; "m2m.user.password_set";
   "m2m.user.unlocked"; "m2m.user.mfa_reset"; "m2m.user.role_assigned"; "m2m.user.role_removed";
   "m2m.user.session_revoked"; "m2m.user.passkey_removed"; "m2m.user.linked_account_removed"].

Definition account_actions : list string :=
  ["account.profile_updated"; "account.email_change_requested"; "account.email_changed";
   "account.password_changed"; "account.mfa_disabled"; "account.mfa_backup_codes_regenerated";
   "account.passkey_added"; "account.passkey_renamed"; "account.passkey_removed";
   "account.linked_account_removed"; "account.deletion_requested"; "account.deletion_cancelled";
   "account.deleted"; "account.reauth_issued"; "account.reauth_failed"; "email_template.updated";
   "email_template.reset"].

Definition declared : list string :=
  user_actions ++
  session_actions ++
  client_actions ++
  oauth_actions ++
  role_actions ++
  mfa_actions ++
  invitation_actions ++
  password_policy_actions ++
  regform_actions ++
  federation_actions ++
  resource_actions ++
  policy_actions ++
  m2m_actions ++
  account_actions.

(** A filter on one action selects one kind of event. *)
Example declared_distinct : NoDup declared.
Proof. apply (bool_decide_unpack _). vm_compute. exact I. Qed.

End Actions.

Module LogEntry.
Record t := mk {
  UserID : option UUID;
  ClientID : option UUID;
  Action : string;
  IPAddress : string;
  UserAgent : string;
  Metadata : option (list (string * any))
}.
End LogEntry.

Module QueryInput.
Record t := mk {
  ID : option UUID;
  UserID : option UUID;
  Action : string;
  ActionPrefix : string;
  From : option Z;
  To : option Z;
  Page : Z;
  PerPage : Z
}.
End QueryInput.

(** ** audit/repository.go *)
Module AuditRepo.

(** The column [user_agent] is VARCHAR(512) (migrations/012). *)
Definition fits (row : AuditLog.t) : bool :=
  match row.(AuditLog.UserAgent) with Some ua => Nat.leb (String.length ua) 512 | None => true end.

Definition Create (row : AuditLog.t) : M unit :=
  wall <- wall_now ;;
  let row := row <| AuditLog.CreatedAt ::= auto_time wall |> in
  stmt (fun _ db =>
    if negb (fits row) then Err (EDriver "value too long for type character varying(512)")
    else match db.(audit_logs) !! row.(AuditLog.ID) with
         | Some _ => Err (EDriver "duplicate key value violates unique constraint")
         | None => Ok (db <| audit_logs ::= insert row.(AuditLog.ID) row |>)
         end).

Definition wanted {A} (o : option A) (test : A -> bool) : bool := match o with Some a => test a | None => true end.

Definition matches (input : QueryInput.t) (l : AuditLog.t) : bool :=
  wanted input.(QueryInput.ID) (N.eqb l.(AuditLog.ID))
  && wanted input.(QueryInput.UserID) (fun u => bool_decide (l.(AuditLog.UserID) = Some u))
  && (String.eqb input.(QueryInput.Action) "" || String.eqb l.(AuditLog.Action) input.(QueryInput.Action))
  && (String.eqb input.(QueryInput.ActionPrefix) ""
      || ProfileSvc.like (input.(QueryInput.ActionPrefix) +:+ "%") l.(AuditLog.Action))
  && wanted input.(QueryInput.From) (fun t => t <=? l.(AuditLog.CreatedAt))
  && wanted input.(QueryInput.To) (fun t => l.(AuditLog.CreatedAt) <=? t).

Definition newest (a b : AuditLog.t) : Prop := b.(AuditLog.CreatedAt) <= a.(AuditLog.CreatedAt).
#[export] Instance newest_dec : RelDecision newest.
Proof. intros a b. unfold newest. apply _. Defined.

(** The error of the count is not looked at; the total stays zero. *)
Definition Query (input : QueryInput.t) : M (list AuditLog.t * Z) :=
  let rows db := select_rows (matches input) db.(audit_logs) in
  total <- opt (query (fun _ db => Z.of_nat (length (rows db)))) ;;
  let offset := int64_wrap (int64_wrap (input.(QueryInput.Page) - 1) * input.(QueryInput.PerPage)) in
  logs <- query (fun _ db =>
    take (Z.to_nat input.(QueryInput.PerPage)) (skipn (Z.to_nat offset) (merge_sort newest (rows db)))) ;;
  ret (logs, default 0 total).

End AuditRepo.

(** ** audit/service.go, audit/helper.go *)
Module AuditSvc.

Definition non_empty (s : string) : option string := if String.eqb s "" then None else Some s.

Definition Log (entry : LogEntry.t) : M unit :=
  id <- opt uuid_newV7 ;;
  ignore (AuditRepo.Create (AuditLog.mk (default uuid_nil id) entry.(LogEntry.UserID) entry.(LogEntry.ClientID)
    entry.(LogEntry.Action) (non_empty entry.(LogEntry.IPAddress)) (non_empty entry.(LogEntry.UserAgent))
    (match entry.(LogEntry.Metadata) with Some m => marshal_value (AMap m) | None => "{}" end) time_zero)).

Definition Query (input : QueryInput.t) : M (list AuditLog.t * Z) := AuditRepo.Query input.

(** [ctx] is what the middlewares set. *)
Definition LogFromContext (ctx : Context) (ip userAgent action : string) (metadata : option (list (string * any))) : M unit :=
  Log (LogEntry.mk ctx.(ContextUserID) None action ip userAgent metadata).

End AuditSvc.

(** ** audit/handler.go *)
Module AuditHandler.

(** Filters that do not parse are dropped; [time_parse] is [time.Parse(time.RFC3339, s)]. *)
Definition query_input `{Platform} (time_parse : string -> option Z) (Query : string -> string) : QueryInput.t :=
  let '(page, perPage) := ParsePagination Query in
  let parsed {A} (parse : string -> option A) (s : string) := if String.eqb s "" then None else parse s in
  QueryInput.mk None (parsed uuid_parse (Query "user_id")) (Query "action") (Query "action_prefix")
    (parsed time_parse (Query "from")) (parsed time_parse (Query "to")) page perPage.

Definition Query `{Platform} (time_parse : string -> option Z) (query : string -> string)
    : M (list AuditLog.t * PaginatedResponse.t) :=
  let input := query_input time_parse query in
  let! (logs, total) := or_fail (AuditSvc.Query input) (ErrInternal "failed to query audit logs") ;;
  ret (logs, Paginated total input.(QueryInput.Page) input.(QueryInput.PerPage)).

End AuditHandler.

(** ** Facts *)
Module AuditFacts.
Import AuditSvc.

(** Only rows are added to the log. *)
Definition audit_grows (d d' : DB) : Prop := exists t, d.(audit_logs) ⊆ t /\ d' = d <| audit_logs := t |>.

#[export] Instance audit_grows_preorder : PreOrder audit_grows.
Proof.
  split.
  - intros d. exists d.(audit_logs). split; [done | by destruct d].
  - intros d1 d2 d3 (t & Ht & ->) (t' & Ht' & ->). exists t'. split; [by etrans|]. done.
Qed.

(** Recording never fails a request, and touches nothing else. *)
Theorem Log_total entry env st : exists st', Log entry env st = (Ok tt, st') /\ audit_grows st.(st_db) st'.(st_db).
Proof.
  unfold Log, opt, ignore, attempt, AuditRepo.Create, uuid_newV7, wall_now, stmt, bind, ret.
  destruct (env_fail env (st_step st)); simpl; destruct (env_fail env _); simpl;
    try (eexists; split; [done|]; done);
    destruct (AuditRepo.fits _); simpl; try (eexists; split; [done|]; done);
    destruct (audit_logs (st_db st) !! _) eqn:E; eexists; (split; [done|]); try done;
    (eexists; split; [|done]; by apply insert_subseteq).
Qed.

(** Without faults an event is recorded as it was given, when the user agent fits
    the column. *)
Theorem Log_recorded entry env st :
  no_faults env -> st.(st_db).(audit_logs) !! env.(env_uuid) st.(st_step) = None ->
  (String.length entry.(LogEntry.UserAgent) <= 512)%nat ->
  exists st' row, Log entry env st = (Ok tt, st') /\ st'.(st_db).(audit_logs) !! env.(env_uuid) st.(st_step) = Some row /\
    row.(AuditLog.UserID) = entry.(LogEntry.UserID) /\ row.(AuditLog.Action) = entry.(LogEntry.Action) /\
    row.(AuditLog.CreatedAt) = env.(env_wall).
Proof.
  intros Hnf Hfree Hlen. unfold Log, opt, ignore, attempt, AuditRepo.Create, uuid_newV7, wall_now, stmt, bind, ret.
  repeat (rewrite Hnf; simpl). unfold AuditRepo.fits, non_empty. simpl.
  destruct (String.eqb (LogEntry.UserAgent entry) "") eqn:Ee; simpl; [|apply Nat.leb_le in Hlen; rewrite Hlen; simpl];
    rewrite Hfree; eexists _, _; (split; [done|]); simpl; rewrite lookup_insert_eq; done.
Qed.

(** A user agent that does not fit keeps the event out of the log. *)
Theorem Log_suppressed entry env st :
  (512 < String.length entry.(LogEntry.UserAgent))%nat ->
  exists n, Log entry env st = (Ok tt, mkState st.(st_db) n).
Proof.
  intros Hlen. unfold Log, opt, ignore, attempt, AuditRepo.Create, uuid_newV7, wall_now, stmt, bind, ret.
  assert (Hn : String.eqb (LogEntry.UserAgent entry) "" = false) by (by destruct (LogEntry.UserAgent entry); [simpl in Hlen; lia|]).
  unfold AuditRepo.fits, non_empty. simpl. rewrite Hn. rewrite (proj2 (Nat.leb_gt _ _) Hlen).
  destruct (env_fail env (st_step st)); simpl; destruct (env_fail env _); by eexists.
Qed.

(** A page of the log holds events that satisfy every filter. *)
Theorem Query_sound input env db logs total db' :
  run (Query input) env db = (Ok (logs, total), db') ->
  db' = db /\ forall l, l ∈ logs -> AuditRepo.matches input l = true /\ exists id, db.(audit_logs) !! id = Some l.
Proof.
  unfold Query, AuditRepo.Query, run, opt, attempt, query, bind, ret. simpl.
  destruct (env_fail env 0); simpl; (destruct (env_fail env 1); simpl; [done|]); intros [= <- <- <-]; (split; [done|]);
    intros l Hl; apply (subseteq_take _ _ _), (subseteq_drop _ _ _) in Hl;
    rewrite merge_sort_Permutation in Hl; apply elem_of_select_rows in Hl as (id & Hid & Hm); eauto.
Qed.

End AuditFacts.
