(* ===== verification/PolicyAudit.v ===== *)
(** * Denials of policies in the audit log

    policy/service.go records the denials of the engine with their input,
    evaluates a recorded input again ([Replay]), and counts the denials of a
    window of time ([GetStats], policy/repository.go). *)
From S2P Require Import Prelude.
From S2P Require Import Errors.
From S2P Require Import GoLib.
From S2P Require Import Model.
From S2P Require Import Platform.
From S2P Require Import Exec.
From S2P Require Import Policy.
From S2P Require Import JsonTree.
From S2P Require Import PolicyEngine.
From S2P Require Import AuditTrail.
Local Open Scope Z_scope.

(** ** policy/repository.go *)
Module PolicyStats.

Module StatsBucket.
Record t := mk { Key : string; Count : Z }.
End StatsBucket.

Module Stats.
Record t := mk {
  WindowFrom : Z;
  WindowTo : Z;
  TotalDenies : Z;
  ByPolicyName : list StatsBucket.t;
  ByPolicyType : list StatsBucket.t;
  RecentDenies : list AuditLog.t
}.
End Stats.

Definition denied_in (from to : Z) (l : AuditLog.t) : bool :=
  String.eqb l.(AuditLog.Action) "policy.denied" && (from <=? l.(AuditLog.CreatedAt)) && (l.(AuditLog.CreatedAt) <? to).

Definition denials (from to : Z) (db : DB) : list AuditLog.t := select_rows (denied_in from to) db.(audit_logs).

(** [metadata->>'key'], NULL when there is none. *)
Definition text_at (key : string) (l : AuditLog.t) : option string :=
  match unmarshal_object l.(AuditLog.Metadata) with
  | Some (Some m) =>
      match map_get m key with
      | Some (AString s) => Some s
      | Some ANil | None => None
      | Some v => Some (marshal_value v)
      end
  | _ => None
  end.

Definition more (a b : StatsBucket.t) : Prop := b.(StatsBucket.Count) <= a.(StatsBucket.Count).
#[export] Instance more_dec : RelDecision more.
Proof. intros a b. unfold more. apply _. Defined.

Definition buckets (keys : list string) : list StatsBucket.t :=
  map (fun k => StatsBucket.mk k (Z.of_nat (length (List.filter (String.eqb k) keys)))) (remove_dups keys).

(** Keys with the same count come in an order the database chooses. *)
Definition aggregate (from to : Z) (key : string) (limit : Z) : M (list StatsBucket.t) :=
  query (fun _ db => take (Z.to_nat limit) (merge_sort more (buckets (omap (text_at key) (denials from to db))))).

#[local] Existing Instance AuditRepo.newest_dec.

Definition stats (from to limit : Z) : M Stats.t :=
  let limit := if limit <=? 0 then 10 else limit in
  total <- query (fun _ db => Z.of_nat (length (denials from to db))) ;;
  byName <- aggregate from to "policy_name" limit ;;
  byType <- aggregate from to "policy_type" limit ;;
  recent <- query (fun _ db => take (Z.to_nat limit) (merge_sort AuditRepo.newest (denials from to db))) ;;
  ret (Stats.mk from to total byName byType recent).

End PolicyStats.

(** ** policy/service.go *)
Module PolicyAudit.

Module ReplayResult.
Record t := mk { OriginalDeny : bool; OriginalReason : string; Type_ : string; Input : doc; Now : EvalResult.t }.
End ReplayResult.

Definition extractUUID `{Platform} (input : doc) (section field : string) : option UUID :=
  match map_get input section with
  | Some (AMap sub) =>
      match map_get sub field with Some (AString raw) => uuid_parse raw | _ => None end
  | _ => None
  end.

Definition extractString (input : doc) (key : string) : string := get_string input key.

Section service.
Context `{Platform} `{Opa} (audited : bool) (e : Engine.t).

Definition denial (policyType : string) (input : doc) (r : EvalResult.t) : LogEntry.t :=
  LogEntry.mk (extractUUID input "user" "id") (extractUUID input "client" "id") "policy.denied"
    (extractString input "ip_address") (extractString input "user_agent")
    (Some [("policy_type", AString policyType); ("policy_name", AString r.(EvalResult.PolicyName));
           ("reason", AString r.(EvalResult.DenyReason)); ("input", AMap input)]).

Definition Evaluate (policyType : string) (input : doc) : M EvalResult.t :=
  r <- of_result (Engine.Evaluate e policyType input) ;;
  (if audited && r.(EvalResult.Deny) then AuditSvc.Log (denial policyType input r) else ret tt) ;;;
  ret r.

(** What the metadata of a record holds. *)
Definition unmarshalMeta (raw : string) : result doc :=
  if String.eqb raw "" then Ok []
  else match unmarshal_object raw with
       | Some m => Ok (default [] m)
       | None => Err (ErrInternal "invalid audit metadata")
       end.

Definition replayed (m : doc) : result (string * doc) :=
  match map_get m "input" with
  | Some (AMap input) =>
      let policyType := get_string m "policy_type" in
      if String.eqb policyType "" then Err (ErrBadRequest "audit log has no policy_type") else Ok (policyType, input)
  | _ => Err (ErrBadRequest "audit log has no captured input — only denies recorded after this feature was deployed are replayable")
  end.

Definition Replay (auditLogID : UUID) : M ReplayResult.t :=
  guard audited (ErrInternal "audit service not configured") ;;;
  let! (logs, _) := or_fail (AuditSvc.Query (QueryInput.mk (Some auditLogID) None "policy.denied" "" None None 1 1))
                      (ErrNotFound "audit log not found") ;;
  match logs with
  | [] => throw (ErrNotFound "audit log not found")
  | log :: _ =>
      meta <- of_result (unmarshalMeta log.(AuditLog.Metadata)) ;;
      let! (policyType, input) := of_result (replayed meta) ;;
      now <- of_result (Engine.Evaluate e policyType input) ;;
      ret (ReplayResult.mk true (get_string meta "reason") policyType input now)
  end.

(** [-time.Duration(fromDays) * 24 * time.Hour] *)
Definition GetStats (fromDays limit : Z) : M PolicyStats.Stats.t :=
  let fromDays := if fromDays <=? 0 then 7 else fromDays in
  now <- wall_now ;;
  let window := dur_mul (dur_mul (int64_wrap (- fromDays)) 24) hour in
  PolicyStats.stats (time_add now window) now limit.

End service.
End PolicyAudit.

(** ** A denial on a small database *)
Module PolicyAuditSample.
Import PolicyFacts.

#[local] Instance platform : Platform := sample_platform.
#[local] Instance opa : Opa := sample_opa.

Definition input : doc :=
  [("user", AMap [("id", AString (uuid_string 5%N))]); ("ip_address", AString "10.0.0.1"); ("time", AMap [("hour", AInt 9)])].

Definition env : Env := mkEnv (100 * hour) (100 * hour) (fun _ => false) (fun _ _ => 0) (fun n => N.of_nat (10 + n)).

(** The database after the denial, and the record made of it. *)
Definition logged : DB := (run (PolicyAudit.Evaluate true loaded "login" input) env sample_policies).2.
Definition records : list UUID := map AuditLog.ID (select_rows (fun _ => true) logged.(audit_logs)).

Definition replay (e : Engine.t) (id : UUID) : option (string * string * bool) :=
  match (run (PolicyAudit.Replay true e id) env logged).1 with
  | Ok r => Some (r.(PolicyAudit.ReplayResult.Type_), r.(PolicyAudit.ReplayResult.OriginalReason),
                  r.(PolicyAudit.ReplayResult.Now).(EvalResult.Deny))
  | Err _ => None
  end.

(** A recorded denial is denied again while its policy is loaded, and not after
    it was removed. *)
Example denial_replayed :
  records = [10%N] /\
  replay loaded 10%N = Some ("login", "no", true) /\
  replay (Engine.RemovePolicy 1%N "login" loaded) 10%N = Some ("login", "no", false) /\
  replay loaded 11%N = None.
Proof. vm_compute. auto. Qed.

Definition denials_in (days : Z) : option (Z * list (string * Z)) :=
  match (run (PolicyAudit.GetStats days 10) (mkEnv (101 * hour) (101 * hour) (fun _ => false) (fun _ _ => 0) (fun n => N.of_nat n)) logged).1 with
  | Ok s => Some (s.(PolicyStats.Stats.TotalDenies),
                  map (fun b => (b.(PolicyStats.StatsBucket.Key), b.(PolicyStats.StatsBucket.Count))) s.(PolicyStats.Stats.ByPolicyName))
  | Err _ => None
  end.

(** A window of more than 292 years wraps around, into the future. *)
Example stats_window_wraps :
  denials_in 1 = Some (1, [("p", 1)]) /\ denials_in 106752 = Some (0, []).
Proof. vm_compute. auto. Qed.

End PolicyAuditSample.
