(* ===== verification/Gin.v ===== *)
(** * The HTTP engine, the middlewares as handlers, and route groups

    gin runs the handlers of a route one inside the other: [c.Next()] runs the
    handlers that are left inside the one that calls it, [c.Abort()] keeps them
    from being run.  [Gin] is the engine, with its documented behaviour as laws;
    on it stand the middlewares of middleware/, rbac/ and account/, the chaining
    of main.go ([chainMW]), and the groups that routes are registered with. *)
From S2P Require Import Prelude.
From S2P Require Import Errors.
From S2P Require Import GoLib.
From S2P Require Import Model.
From S2P Require Import Platform.
From S2P Require Import Exec.
From S2P Require Import ProcMem.
From S2P Require Import Middleware.
From S2P Require Import Rbac.
From S2P Require Import Http.
From S2P Require Account.
Local Open Scope Z_scope.

(** ** The context of one request *)

(** An answer that was written: an error, or what a handler replies. *)
Inductive Answer (Reply : Type) := Failed (status : Z) (body : ErrorBody) | Replied (status : Z) (body : Reply).
Arguments Failed {Reply} status body.
Arguments Replied {Reply} status body.

(** The values middlewares set, whether the request was aborted, whether the
    handlers after the current one were run, and what was written. *)
Record Conn (Reply : Type) := mkConn {
  Ctx : Context;
  ContextReauthToken : option ReauthToken.t;
  IsAborted : bool;
  Advanced : bool;
  Written : list (Answer Reply)
}.
Arguments mkConn {Reply}.
Arguments Ctx {Reply}.
Arguments ContextReauthToken {Reply}.
Arguments IsAborted {Reply}.
Arguments Advanced {Reply}.
Arguments Written {Reply}.

#[export] Instance eta_Conn Reply : Eta (Conn Reply) := fun c => mkConn
  (c.(Ctx)) (c.(ContextReauthToken)) (c.(IsAborted)) (c.(Advanced)) (c.(Written)).

Definition no_values : Context := mkContext "" 0%N None None [].
Definition fresh {Reply} : Conn Reply := mkConn no_values None false false [].

Section gin.
Context {Reply : Type}.

Definition GM (A : Type) : Type := @PM (Conn Reply) A.

(** A handler is given [c.Next()]. *)
Definition HandlerFunc : Type := GM unit -> GM unit.

Definition Abort : GM unit := set_memory (fun c => c <| IsAborted := true |>).
Definition write (a : Answer Reply) : GM unit := set_memory (fun c => c <| Written ::= fun l => l ++ [a] |>).
Definition fail_with (e : error) : GM unit := let '(status, body) := HandleError e in write (Failed status body).

(** ** The engine *)

Class Gin := serve : list HandlerFunc -> GM unit.

(** [c.Next()] before the handlers [rest]: they run once, and not after an abort. *)
Definition Next `{Gin} (rest : list HandlerFunc) : GM unit :=
  c <~ memory ;;
  if c.(IsAborted) || c.(Advanced) then retP tt
  else serve rest ~;; set_memory (fun c => c <| Advanced := true |>).

(** The handlers of a chain run in order, each handed the rest; what a handler
    did not run by itself is run when it returns. *)
Class GinLaws `{Gin} : Prop := {
  serve_nil : serve [] = retP tt;
  serve_cons : forall h rest, serve (h :: rest) =
    (set_memory (fun c => c <| Advanced := false |>) ~;; h (Next rest) ~;; Next rest)
}.

(** ** Middlewares *)

(** A check that sets values, or aborts the request with its error. *)
Definition mw (check : GM unit) : HandlerFunc := fun next =>
  r <~ attemptP check ;;
  match r with
  | Ok _ => next
  | Err e => fail_with e ~;; Abort
  end.

Definition BearerAuthMW (authHeader : string) : HandlerFunc :=
  mw (ctx <~ liftP (BearerAuth authHeader) ;; set_memory (fun c => c <| Ctx := ctx |>)).

Definition RequireClientScopeMW (scope audience authHeader : string) : HandlerFunc :=
  mw (ctx <~ liftP (RequireClientScope scope audience authHeader) ;; set_memory (fun c => c <| Ctx := ctx |>)).

Definition RequirePermissionMW (permission : string) : HandlerFunc :=
  mw (c <~ memory ;; liftP (RbacGuards.RequirePermission permission c.(Ctx))).

Definition RequireAnyPermissionMW (permissions : list string) : HandlerFunc :=
  mw (c <~ memory ;; liftP (RbacGuards.RequireAnyPermission permissions c.(Ctx))).

Definition RequireReauthMW (header : string) : HandlerFunc :=
  mw (c <~ memory ;; t <~ liftP (RequireReauth c.(Ctx) header) ;;
      set_memory (fun c => c <| ContextReauthToken := Some t |>)).

(** [limited] answers with the error of an exhausted bucket. *)
Definition RateLimitMW (limited : M unit) : HandlerFunc := mw (liftP limited).

(** main.go: middlewares in one slot, each handed the same [c.Next()]. *)
Definition chainMW (mws : list HandlerFunc) : HandlerFunc := fun next =>
  fold_right (fun h k => c <~ memory ;; if c.(IsAborted) then retP tt else h next ~;; k) (retP tt) mws.

(** [middleware.ConsumeReauth] in a handler. *)
Definition consumeReauth (action : string) : GM unit :=
  c <~ memory ;; liftP (ConsumeReauth c.(ContextReauthToken) action) ~;; retP tt.

(** A handler that answers with what an operation returns, or with its error. *)
Definition respond (m : GM (Z * Reply)) : HandlerFunc := fun _ =>
  r <~ attemptP m ;;
  match r with
  | Ok (status, body) => write (Replied status body)
  | Err e => fail_with e
  end.

End gin.
Arguments GM Reply A : clear implicits.
Arguments HandlerFunc Reply : clear implicits.
Arguments Gin Reply : clear implicits.

Definition PolicyGateMW `{Platform} {Reply} (g : Account.PolicyGate.t) (action ip userAgent : string) : HandlerFunc Reply :=
  mw (c <~ memory ;; liftP (Account.PolicyGate.Middleware g action c.(Ctx).(ContextUserID) ip userAgent)).

(** An engine that behaves as documented. *)
Fixpoint run_chain {Reply} (l : list (HandlerFunc Reply)) : GM Reply unit :=
  match l with
  | [] => retP tt
  | h :: rest =>
      let next := c <~ memory ;;
        if c.(IsAborted) || c.(Advanced) then retP tt
        else run_chain rest ~;; set_memory (fun c => c <| Advanced := true |>) in
      set_memory (fun c => c <| Advanced := false |>) ~;; h next ~;; next
  end.

Definition sample_gin Reply : Gin Reply := run_chain.
Lemma sample_gin_laws Reply : @GinLaws Reply (sample_gin Reply).
Proof. by split. Qed.
