(* ===== verification/Router.v ===== *)
(** * main.go: the routes of the server

    What [setupRouter] and the [RegisterRoutes] of the handlers register: each
    route with the middlewares in front of its handler, in their order.  A
    handler is named by its package and method.  [handlers_of] gives a route its
    meaning as a chain of the engine. *)
From S2P Require Import Prelude.
From S2P Require Import Errors.
From S2P Require Import GoLib.
From S2P Require Import GoNet.
From S2P Require Import Model.
From S2P Require Import Platform.
From S2P Require Import Exec.
From S2P Require Import ProcMem.
From S2P Require Import Middleware.
From S2P Require Import Rbac.
From S2P Require Import Http.
From S2P Require Import Gin.
From S2P Require Account.
Local Open Scope Z_scope.

(** ** Groups and routes *)

#[warnings="-automation"]
Inductive Gate :=
| Bearer
| Perm (permission : string)
| AnyPerm (permissions : list string)
| Policy (action : string)
| Chain (gates : list Gate)
| StepUp
| ClientScope (scope audience : string)
| AuthRL
| OAuthRL
| ClientAuth.

Record Route := mkRoute { Method : string; Path : string; Gates : list Gate; Handler : string }.

Record RouterGroup := mkGroup { basePath : string; gates : list Gate }.

Definition Group (g : RouterGroup) (path : string) : RouterGroup := mkGroup (g.(basePath) +:+ path) g.(gates).
Definition Use (g : RouterGroup) (m : Gate) : RouterGroup := mkGroup g.(basePath) (g.(gates) ++ [m]).

(** [if m != nil { g.Use(m) }] *)
Definition UseIf (g : RouterGroup) (m : option Gate) : RouterGroup :=
  match m with Some m => Use g m | None => g end.

Definition handle (method : string) (g : RouterGroup) (path handler : string) : Route :=
  mkRoute method (g.(basePath) +:+ path) g.(gates) handler.
Definition GET := handle "GET".
Definition POST := handle "POST".
Definition PUT := handle "PUT".
Definition PATCH := handle "PATCH".
Definition DELETE := handle "DELETE".

(** [if g != nil { .. }] *)
Definition when_group (g : option RouterGroup) (k : RouterGroup -> list Route) : list Route :=
  match g with Some g => k g | None => [] end.

Module UserRoutes.
Definition RegisterRoutes (public authenticated : option RouterGroup) (readProfilePerm updateProfilePerm : option Gate) : list Route :=
  when_group public (fun public =>
    [POST public "/auth/register" "user.Register"; POST public "/auth/login" "user.Login";
     POST public "/auth/forgot-password" "user.ForgotPassword"; POST public "/auth/reset-password" "user.ResetPassword";
     POST public "/auth/verify-email" "user.VerifyEmail"; GET public "/auth/verify-email" "user.VerifyEmailLink";
     POST public "/auth/resend-verification" "user.ResendVerification"]) ++
  when_group authenticated (fun authenticated =>
    let read := UseIf (Group authenticated "") readProfilePerm in
    let write := UseIf (Group authenticated "") updateProfilePerm in
    [GET read "/me" "user.GetProfile"; PATCH write "/me" "user.UpdateProfile";
     POST write "/me/resend-verification" "user.ResendMyVerification"]).

Definition RegisterAdminRoutes (admin : RouterGroup) : list Route :=
  [GET admin "/users" "user.AdminListUsers"; GET admin "/users/:id" "user.AdminGetUser";
   PATCH admin "/users/:id" "user.AdminUpdateUser"; DELETE admin "/users/:id" "user.AdminDeleteUser";
   POST admin "/users/:id/reset-password" "user.AdminResetPassword"].
End UserRoutes.

Definition session_RegisterRoutes (authenticated : RouterGroup) (readPerm managePerm : option Gate) : list Route :=
  let read := UseIf (Group authenticated "") readPerm in
  let manage := UseIf (Group authenticated "") managePerm in
  [GET read "/me/sessions" "session.List"; DELETE manage "/me/sessions/:id" "session.Revoke";
   DELETE manage "/me/sessions" "session.RevokeAll"].

Definition mfa_RegisterRoutes (authenticated : RouterGroup) (managePerm requireReauth : option Gate) : list Route :=
  let g := UseIf (Group authenticated "") managePerm in
  let sensitive := UseIf (Group g "") requireReauth in
  [POST g "/me/mfa/totp/enroll" "mfa.Enroll"; POST g "/me/mfa/totp/verify" "mfa.Verify";
   POST g "/me/mfa/backup-codes" "mfa.RegenerateBackupCodes"; DELETE sensitive "/me/mfa/totp" "mfa.Disable"].

Definition reauth_RegisterRoutes (authenticated : RouterGroup) : list Route :=
  [POST authenticated "/me/reauth" "reauth.Issue"].

Definition passkey_RegisterRoutes (public authenticated : option RouterGroup)
    (readPerm managePerm requireReauth : option Gate) : list Route :=
  when_group public (fun public =>
    [POST public "/me/passkeys/login/begin" "passkey.LoginBegin"; POST public "/me/passkeys/login/finish" "passkey.LoginFinish"]) ++
  when_group authenticated (fun authenticated =>
    let read := UseIf (Group authenticated "") readPerm in
    let manage := UseIf (Group authenticated "") managePerm in
    let sensitive := UseIf (Group manage "") requireReauth in
    [GET read "/me/passkeys" "passkey.List"; POST manage "/me/passkeys/register/begin" "passkey.RegisterBegin";
     POST manage "/me/passkeys/register/finish" "passkey.RegisterFinish"; PATCH manage "/me/passkeys/:id" "passkey.Rename";
     POST manage "/me/passkeys/reauth/begin" "passkey.ReauthBegin"; DELETE sensitive "/me/passkeys/:id" "passkey.Delete"]).

Definition account_RegisterRoutes (public authenticated : option RouterGroup)
    (changePasswordPerm changeEmailPerm deleteAccountPerm requireReauth : option Gate) : list Route :=
  when_group public (fun public =>
    [POST public "/me/account/cancel-deletion" "account.CancelDeletion";
     POST public "/me/account/email/confirm" "account.ConfirmEmailChange"]) ++
  when_group authenticated (fun authenticated =>
    let pwd := UseIf (UseIf (Group authenticated "") changePasswordPerm) requireReauth in
    let setPwd := UseIf (Group authenticated "") changePasswordPerm in
    let email := UseIf (UseIf (Group authenticated "") changeEmailPerm) requireReauth in
    let del := UseIf (UseIf (Group authenticated "") deleteAccountPerm) requireReauth in
    [PUT pwd "/me/password" "account.ChangePassword"; POST setPwd "/me/set-password" "account.SetInitialPassword";
     POST email "/me/account/email/change-request" "account.RequestEmailChange"; DELETE del "/me" "account.RequestDeletion"]).

Module FederationRoutes.
Definition RegisterPublicRoutes (public : RouterGroup) : list Route :=
  [GET public "/auth/federation/:provider" "federation.InitSocialLogin";
   GET public "/auth/federation/:provider/callback" "federation.Callback";
   POST public "/auth/federation/confirm-link" "federation.ConfirmLink";
   GET public "/auth/federation/pending-signup" "federation.PeekPendingSignup";
   POST public "/auth/federation/complete-signup" "federation.CompleteSignup"].

Definition RegisterAuthenticatedRoutes (authenticated : RouterGroup) (readPerm managePerm requireReauth : option Gate) : list Route :=
  let read := UseIf (Group authenticated "") readPerm in
  let manage := UseIf (UseIf (Group authenticated "") managePerm) requireReauth in
  [GET read "/me/linked-accounts" "federation.ListLinkedAccounts"; GET read "/me/linked-accounts/:id" "federation.GetLinkedAccount";
   POST manage "/me/linked-accounts/:provider/begin-link" "federation.BeginLinkAccount";
   DELETE manage "/me/linked-accounts/:id" "federation.UnlinkAccount"].

Definition RegisterAdminRoutes (admin : RouterGroup) : list Route :=
  [POST admin "/federation" "federation.CreateProvider"; GET admin "/federation" "federation.ListProviders";
   GET admin "/federation/:id" "federation.GetProvider"; PATCH admin "/federation/:id" "federation.UpdateProvider";
   DELETE admin "/federation/:id" "federation.DeleteProvider"].
End FederationRoutes.

Module InvitationRoutes.
Definition RegisterPublicRoutes (public : RouterGroup) : list Route :=
  [POST public "/auth/register/invite" "invitation.RegisterWithInvite";
   GET public "/auth/invitations/lookup" "invitation.LookupInvitation"; GET public "/auth/settings" "invitation.PublicSettings"].

Definition RegisterAdminRoutes (admin : RouterGroup) : list Route :=
  [POST admin "/invitations" "invitation.Create"; GET admin "/invitations" "invitation.List";
   DELETE admin "/invitations/:id" "invitation.Delete"; GET admin "/settings" "invitation.GetSettings";
   PATCH admin "/settings" "invitation.UpdateSettings"].
End InvitationRoutes.

Module RegformRoutes.
Definition RegisterAdminRoutes (admin : RouterGroup) : list Route :=
  [GET admin "/registration-fields" "regform.List"; GET admin "/registration-fields/:id" "regform.Get";
   POST admin "/registration-fields" "regform.Create"; PATCH admin "/registration-fields/:id" "regform.Update";
   DELETE admin "/registration-fields/:id" "regform.Delete"; PATCH admin "/registration-fields/reorder" "regform.Reorder"].

Definition RegisterPublicRoutes (public : RouterGroup) : list Route :=
  [GET public "/auth/registration-fields" "regform.PublicList"].
End RegformRoutes.

Module PasswordRoutes.
Definition RegisterPublicRoutes (public : RouterGroup) : list Route := [GET public "/password-policy" "password.GetPublic"].

Definition RegisterAdminRoutes (admin : RouterGroup) : list Route :=
  [GET admin "/password-policy" "password.GetAdmin"; PATCH admin "/password-policy" "password.Update"].
End PasswordRoutes.

Definition client_RegisterRoutes (admin : RouterGroup) : list Route :=
  [POST admin "/clients" "client.Create"; GET admin "/clients" "client.List"; GET admin "/clients/:id" "client.Get";
   PATCH admin "/clients/:id" "client.Update"; DELETE admin "/clients/:id" "client.Delete";
   POST admin "/clients/:id/rotate-secret" "client.RotateSecret";
   POST admin "/clients/:id/rotate-hmac-secret" "client.RotateHMACSecret"].

Definition rbac_RegisterRoutes (admin : RouterGroup) : list Route :=
  [POST admin "/roles" "rbac.CreateRole"; GET admin "/roles" "rbac.ListRoles"; GET admin "/roles/:id" "rbac.GetRole";
   PATCH admin "/roles/:id" "rbac.UpdateRole"; DELETE admin "/roles/:id" "rbac.DeleteRole";
   POST admin "/roles/:id/permissions" "rbac.SetPermissions"; GET admin "/permissions" "rbac.ListPermissions";
   POST admin "/users/:id/roles" "rbac.AssignRole"; DELETE admin "/users/:id/roles/:roleId" "rbac.RemoveRole";
   GET admin "/users/:id/roles" "rbac.GetUserRoles"].

Definition policy_RegisterRoutes (admin : RouterGroup) : list Route :=
  [POST admin "/policies" "policy.CreatePolicy"; GET admin "/policies" "policy.ListPolicies";
   GET admin "/policies/schemas" "policy.GetSchemas"; GET admin "/policies/stats" "policy.GetStats";
   POST admin "/policies/replay" "policy.Replay"; GET admin "/policies/:id" "policy.GetPolicy";
   PATCH admin "/policies/:id" "policy.UpdatePolicy"; DELETE admin "/policies/:id" "policy.DeletePolicy";
   POST admin "/policies/test" "policy.TestPolicy"; POST admin "/policies/validate" "policy.ValidatePolicy"].

Definition resource_RegisterRoutes (admin : RouterGroup) : list Route :=
  [POST admin "/resources" "resource.Create"; GET admin "/resources" "resource.List"; GET admin "/resources/:id" "resource.Get";
   PATCH admin "/resources/:id" "resource.Update"; DELETE admin "/resources/:id" "resource.Delete";
   POST admin "/resources/:id/permissions" "resource.AddPermission";
   DELETE admin "/resources/:id/permissions/:permId" "resource.RemovePermission";
   POST admin "/clients/:id/resource-permissions" "resource.SetClientPermissions";
   GET admin "/clients/:id/resource-permissions" "resource.GetClientPermissions";
   POST admin "/roles/:id/resource-permissions" "resource.SetRolePermissions";
   GET admin "/roles/:id/resource-permissions" "resource.GetRolePermissions"].

Definition audit_RegisterRoutes (admin : RouterGroup) : list Route := [GET admin "/audit-logs" "audit.Query"].

Definition email_RegisterAdminRoutes (admin : RouterGroup) : list Route :=
  [GET admin "/email-templates" "email.List"; GET admin "/email-templates/:name" "email.Get";
   PUT admin "/email-templates/:name" "email.Upsert"; POST admin "/email-templates/:name/preview" "email.Preview";
   DELETE admin "/email-templates/:name" "email.Delete"].

Definition m2m_RegisterRoutes (read write deleteGrp manageAuth manageRoles : RouterGroup) : list Route :=
  [GET read "/users" "m2m.List"; GET read "/users/:id" "m2m.Get"; GET read "/users/:id/roles" "m2m.ListRoles";
   GET read "/users/:id/sessions" "m2m.ListSessions"; GET read "/users/:id/passkeys" "m2m.ListPasskeys";
   GET read "/users/:id/linked-accounts" "m2m.ListLinkedAccounts";
   POST write "/users" "m2m.Create"; PATCH write "/users/:id" "m2m.Update";
   DELETE deleteGrp "/users/:id" "m2m.Delete";
   PUT manageAuth "/users/:id/password" "m2m.SetPassword"; POST manageAuth "/users/:id/unlock" "m2m.Unlock";
   POST manageAuth "/users/:id/mfa/reset" "m2m.ResetMFA"; DELETE manageAuth "/users/:id/sessions/:sid" "m2m.RevokeSession";
   DELETE manageAuth "/users/:id/sessions" "m2m.RevokeAllSessions";
   DELETE manageAuth "/users/:id/passkeys/:pid" "m2m.DeletePasskey";
   DELETE manageAuth "/users/:id/linked-accounts/:linkId" "m2m.UnlinkAccount";
   POST manageRoles "/users/:id/roles" "m2m.AssignRole"; DELETE manageRoles "/users/:id/roles/:roleId" "m2m.RemoveRole"].

(** Routes of the root, with middlewares of their own. *)
Definition with_gates (l : list Gate) (r : Route) : Route := mkRoute r.(Method) r.(Path) (r.(Gates) ++ l) r.(Handler).

Definition oauth_RegisterRoutes (router : RouterGroup) (clientAuth rateLimiter : Gate) : list Route :=
  let limited := with_gates [rateLimiter] in
  let authed := with_gates [rateLimiter; clientAuth] in
  [limited (GET router "/authorize" "oauth.Authorize"); limited (POST router "/authorize/login" "oauth.AuthorizeLogin");
   limited (POST router "/authorize/register" "oauth.AuthorizeRegister"); limited (POST router "/authorize/mfa" "oauth.AuthorizeMFA");
   limited (POST router "/authorize/consent" "oauth.AuthorizeConsent"); authed (POST router "/token" "oauth.Token");
   authed (POST router "/device_authorization" "oauth.DeviceAuthorization"); limited (POST router "/device/verify" "oauth.DeviceVerify");
   limited (POST router "/device/approve" "oauth.DeviceApprove"); authed (POST router "/par" "oauth.PushedAuthorization");
   authed (POST router "/introspect" "oauth.Introspect"); authed (POST router "/revoke" "oauth.Revoke")].

Module OidcRoutes.
Definition RegisterRoutes (router : RouterGroup) (bearerAuth rateLimiter : Gate) : list Route :=
  [GET router "/.well-known/openid-configuration" "oidc.Discovery";
   GET router "/.well-known/oauth-authorization-server" "oidc.OAuthDiscovery"; GET router "/.well-known/jwks.json" "oidc.JWKS";
   with_gates [rateLimiter; bearerAuth] (GET router "/userinfo" "oidc.UserInfo");
   with_gates [rateLimiter; bearerAuth] (POST router "/userinfo" "oidc.UserInfo");
   GET router "/end_session" "oidc.EndSession"; GET router "/check_session" "oidc.CheckSession"].

Definition RegisterAdminRoutes (admin : RouterGroup) : list Route :=
  [GET admin "/keys" "oidc.ListKeys"; POST admin "/keys/rotate" "oidc.RotateKey"].
End OidcRoutes.

(** ** setupRouter *)

Definition public_routes (router : RouterGroup) : list Route :=
  let public := Use (Group router "/api/v1") AuthRL in
  UserRoutes.RegisterRoutes (Some public) None None None ++
  InvitationRoutes.RegisterPublicRoutes public ++
  FederationRoutes.RegisterPublicRoutes public ++
  RegformRoutes.RegisterPublicRoutes public ++
  PasswordRoutes.RegisterPublicRoutes public ++
  account_RegisterRoutes (Some public) None None None None None ++
  passkey_RegisterRoutes (Some public) None None None None.

(** The permission of an action with its policy, in one slot. *)
Definition self_service (permission action : string) : option Gate :=
  Some (Chain [Perm permission; Policy action]).

Definition self_routes (router : RouterGroup) : list Route :=
  let authenticated := Use (Group router "/api/v1") Bearer in
  let readProfilePerm := Some (Perm "account:read_profile") in
  let requireReauth := Some StepUp in
  UserRoutes.RegisterRoutes None (Some authenticated) readProfilePerm (self_service "account:update_profile" "update_profile") ++
  session_RegisterRoutes authenticated readProfilePerm (Some (Perm "account:manage_sessions")) ++
  mfa_RegisterRoutes authenticated (self_service "account:manage_mfa" "manage_mfa") requireReauth ++
  FederationRoutes.RegisterAuthenticatedRoutes authenticated readProfilePerm
    (self_service "account:manage_linked_accounts" "manage_linked_accounts") requireReauth ++
  reauth_RegisterRoutes authenticated ++
  passkey_RegisterRoutes None (Some authenticated) readProfilePerm
    (self_service "account:manage_passkeys" "manage_passkeys") requireReauth ++
  account_RegisterRoutes None (Some authenticated)
    (self_service "account:change_password" "change_password")
    (self_service "account:change_email" "change_email")
    (self_service "account:delete_account" "delete_account")
    requireReauth.

Definition m2mAudience : string := "urn:orion:m2m".

Definition m2m_routes (router : RouterGroup) : list Route :=
  let m2mBase := Group router "/api/v1/m2m" in
  let scoped scope := Use (Group m2mBase "") (ClientScope scope m2mAudience) in
  m2m_RegisterRoutes (scoped "m2m:users:read") (scoped "m2m:users:write") (scoped "m2m:users:delete")
    (scoped "m2m:users:manage_auth") (scoped "m2m:users:manage_roles").

Definition admin_routes (router : RouterGroup) : list Route :=
  let adminBase := Use (Group router "/api/v1/admin") Bearer in
  let any perms := Use (Group adminBase "") (AnyPerm perms) in
  let userAdmin := any ["users:read"; "users:write"] in
  UserRoutes.RegisterAdminRoutes userAdmin ++
  InvitationRoutes.RegisterAdminRoutes userAdmin ++
  RegformRoutes.RegisterAdminRoutes userAdmin ++
  PasswordRoutes.RegisterAdminRoutes userAdmin ++
  client_RegisterRoutes (any ["clients:read"; "clients:write"]) ++
  rbac_RegisterRoutes (any ["roles:read"; "roles:write"]) ++
  OidcRoutes.RegisterAdminRoutes (any ["keys:read"; "keys:write"]) ++
  FederationRoutes.RegisterAdminRoutes (any ["federation:read"; "federation:write"]) ++
  policy_RegisterRoutes (any ["policies:read"; "policies:write"]) ++
  resource_RegisterRoutes (any ["resources:read"; "resources:write"]) ++
  audit_RegisterRoutes (Use (Group adminBase "") (Perm "audit:read")) ++
  email_RegisterAdminRoutes (any ["email_templates:read"; "email_templates:write"]).

(** [mode] is the mode of the server.  The handlers of every request, which set
    headers and recover from panics, are left out. *)
Definition setupRouter (mode : string) : list Route :=
  let router := mkGroup "" [] in
  (if String.eqb mode "debug" then [GET router "/swagger/*any" "swagger"] else []) ++
  [GET router "/" "main.root"; GET router "/health" "main.healthCheck"; GET router "/ready" "main.readinessCheck";
   GET router "/metrics" "metrics.Handler"; GET router "/email-assets/:name" "main.emailAssetHandler"] ++
  oauth_RegisterRoutes router ClientAuth OAuthRL ++
  [with_gates [OAuthRL] (POST router "/register" "dcr.Register"); GET router "/register/:client_id" "dcr.ReadRegistration";
   PUT router "/register/:client_id" "dcr.UpdateRegistration"; DELETE router "/register/:client_id" "dcr.DeleteRegistration"] ++
  OidcRoutes.RegisterRoutes router Bearer OAuthRL ++
  public_routes router ++ self_routes router ++ m2m_routes router ++ admin_routes router.

(** ** What a route does *)

Record Headers := mkHeaders {
  Authorization : string;
  XReauthToken : string;
  ClientIP : string;
  UserAgent : string
}.

Section meaning.
Context `{Platform} {Reply : Type}.
Context (policies : Account.PolicyGate.t) (authRL oauthRL : M unit) (clientAuth : HandlerFunc Reply).
Context (handler : string -> HandlerFunc Reply) (r : Headers).

Fixpoint gate (g : Gate) : HandlerFunc Reply :=
  match g with
  | Bearer => BearerAuthMW r.(Authorization)
  | Perm p => RequirePermissionMW p
  | AnyPerm ps => RequireAnyPermissionMW ps
  | Policy action => PolicyGateMW policies action r.(ClientIP) r.(UserAgent)
  | Chain gs => chainMW (map gate gs)
  | StepUp => RequireReauthMW r.(XReauthToken)
  | ClientScope scope audience => RequireClientScopeMW scope audience r.(Authorization)
  | AuthRL => RateLimitMW authRL
  | OAuthRL => RateLimitMW oauthRL
  | ClientAuth => clientAuth
  end.

Definition handlers_of (route : Route) : list (HandlerFunc Reply) :=
  map gate route.(Gates) ++ [handler route.(Handler)].

Definition dispatch `{Gin Reply} (route : Route) : GM Reply unit := serve (handlers_of route).

End meaning.
