(* ===== verification/RouterFacts.v ===== *)
(** * What the middlewares of the routes let through

    Rules for chains of the engine; every route of the administration is closed
    to a request without a live token of a user with one of its permissions; a
    policy in one slot with a permission is looked at only after the handler. *)
From S2P Require Import Prelude.
From S2P Require Import Errors.
From S2P Require Import GoLib.
From S2P Require Import GoNet.
From S2P Require Import Model.
From S2P Require Import Platform.
From S2P Require Import Exec.
From S2P Require Import ProcMem.
From S2P Require Import Crypto.
From S2P Require Import SessionSvc.
From S2P Require Import OAuth.
From S2P Require Import Middleware.
From S2P Require Import Rbac.
From S2P Require Import Http.
From S2P Require Import Gin.
From S2P Require Import Router.
From S2P Require Account.
Local Open Scope Z_scope.

Module RouterFacts.

(** ** Chains *)

Section chains.
Context {Reply : Type} {G : Gin Reply} {L : GinLaws}.

(** A request whose chain was gone through, or that was aborted. *)
Lemma Next_spent (rest : list (HandlerFunc Reply)) c :
  c.(IsAborted) || c.(Advanced) = true -> Next rest c = retP tt c.
Proof. intros Hc. unfold Next, bindP, memory. unfold bind, ret. by rewrite Hc. Qed.

Definition refused (c : Conn Reply) (e : error) : Conn Reply :=
  let '(status, body) := HandleError e in
  (c <| Written ::= fun l => l ++ [Failed status body] |>) <| IsAborted := true |>.

Lemma wp_mw (check : GM Reply unit) rest c env st Q :
  wp (check (c <| Advanced := false |>)) (fun r st' =>
    match r with
    | Ok (Ok _, c') => c'.(IsAborted) = false /\ c'.(Advanced) = false /\
        wp (serve rest c') (fun r' st'' =>
          match r' with
          | Ok (Ok _, c'') => Q (Ok (Ok tt, c'' <| Advanced := true |>)) st''
          | r' => Q r' st''
          end) env st'
    | Ok (Err e, c') => Q (Ok (Ok tt, refused c' e)) st'
    | Err e => Q (Err e) st'
    end) env st ->
  wp (serve (mw check :: rest) c) Q env st.
Proof.
  intros Hc. rewrite serve_cons. apply wp_bindP. apply wp_ret. apply wp_bindP.
  unfold mw. apply wp_bindP, wp_attemptP. eapply wp_mono; [|exact Hc].
  intros [[[[]|e] c']|e] st'; [|clear Hc|done].
  - intros (Ha & Hd & Hs). unfold Next at 1. apply wp_bindP. apply wp_ret. rewrite Ha, Hd. cbn [orb].
    apply wp_bindP. eapply wp_mono; [|exact Hs]. intros [[[[]|e'] c'']|e'] st''; [|done..].
    intros HQ. apply wp_ret. rewrite Next_spent; [by apply wp_ret|]. apply orb_true_r.
  - intros HQ. unfold refused in HQ. unfold fail_with. destruct (HandleError e) as [status body].
    apply wp_bindP, wp_ret, wp_ret. rewrite Next_spent; [by apply wp_ret|]. done.
Qed.

End chains.

(** ** Checks *)

(** The answer of a refused request. *)
Definition refusal (e : error) : Prop := (HandleError e).1 ∈ [401; 403].

Lemma wp_BearerAuth header env st :
  wp (BearerAuth header) (fun r st' => st'.(st_db) = st.(st_db) /\ match r with Ok _ => True | Err e => refusal e end) env st.
Proof.
  unfold BearerAuth, LookupToken, oauth_token_lookup, SessionIsActive, session_validator, refusal.
  do 2 wp_step; [|split; [done|]; simpl; set_solver]. do 2 wp_step.
  apply wp_LookupActiveAccessToken; [intros; split; [done|]; simpl; set_solver | |
    intros; split; [done|]; simpl; set_solver]. intros t n _ _ _ _.
  wp_step. wp_step. wp_step. 2: by wp_steps.
  do 1 wp_step. apply MiddlewareFacts.SessionIsActive_spec; [intros; split; [done|]; simpl; set_solver|].
  intros n' b _. wp_steps; (split; [done|]); try done; simpl; set_solver.
Qed.

Lemma wp_authorized (perms : list string) (m : M unit) ctx env st :
  m = RbacGuards.RequireAnyPermission perms ctx \/ (exists p, perms = [p] /\ m = RbacGuards.RequirePermission p ctx) ->
  wp m (fun r st' => st'.(st_db) = st.(st_db) /\
    match r with
    | Ok _ => exists u p, ctx.(ContextUserID) = Some u /\ p ∈ perms /\ RbacFacts.permitted st.(st_db) u p
    | Err e => refusal e
    end) env st.
Proof.
  unfold RbacGuards.RequireAnyPermission, RbacGuards.RequirePermission, RbacGuards.authenticated, refusal.
  destruct (ContextUserID ctx) as [u|].
  - intros [->|(p & -> & ->)].
    + do 2 wp_step. wp_simpl. eapply wp_mono; [|apply RbacFacts.wp_any_permission].
      intros [[]|e] st' [Hdb Hp]; (split; [exact Hdb|]).
      * destruct Hp as (p & Hin & Hp). by exists u, p.
      * destruct Hp as [-> _]. simpl. set_solver.
    + do 2 wp_step. wp_simpl. do 2 wp_step. apply RbacFacts.wp_HasPermission.
      * intros e n _. wp_simpl. wp_steps; (split; [done|]); try done; simpl; set_solver.
      * intros b n Hb. wp_simpl. destruct b; wp_steps; (split; [done|]); try done; [|simpl; set_solver].
        exists u, p. split; [done|]. split; [set_solver | by apply Hb].
  - intros [->|(p & -> & ->)]; wp_steps; (split; [done|]); simpl; set_solver.
Qed.

(** ** The routes *)

Definition route_permissions (r : Route) : option (list string) :=
  match r.(Gates) with
  | [Bearer; AnyPerm ps] => Some ps
  | [Bearer; Perm p] => Some [p]
  | _ => None
  end.

Definition is_admin (r : Route) : bool := has_prefix "/api/v1/admin" r.(Path).

Lemma admin_gates mode r : r ∈ setupRouter mode -> is_admin r = true -> is_Some (route_permissions r).
Proof.
  assert (Hf : forallb (fun r => negb (is_admin r) || is_Some_b (route_permissions r)) (setupRouter "debug") = true)
    by (vm_compute; reflexivity).
  rewrite forallb_forall in Hf. intros Hr Ha.
  assert (Hd : r ∈ setupRouter "debug").
  { revert Hr. unfold setupRouter. rewrite !(elem_of_app _ _ r). change (String.eqb "debug" "debug") with true. cbv iota.
    destruct (String.eqb mode "debug"); [tauto|]. intros [Hr%elem_of_nil|Hr]; [done|]. by right. }
  apply list_elem_of_In in Hd. specialize (Hf r Hd). rewrite Ha in Hf. simpl in Hf.
  destruct (route_permissions r); [by eexists | done].
Qed.

(** gin panics when a route is registered twice. *)
Lemma routes_distinct mode : NoDup (map (fun r => (r.(Method), r.(Path))) (setupRouter mode)).
Proof.
  assert (Hd : NoDup (map (fun r => (r.(Method), r.(Path))) (setupRouter "debug"))).
  { apply (bool_decide_eq_true_1 _). vm_compute. reflexivity. }
  revert Hd. unfold setupRouter. destruct (String.eqb mode "debug"); [done|]. change (String.eqb "debug" "debug") with true.
  cbn [app map]. by intros [_ Hd]%NoDup_cons.
Qed.

Section closed.
Context `{Platform} {Reply : Type} {G : Gin Reply} {L : GinLaws}.
Context (policies : Account.PolicyGate.t) (authRL oauthRL : M unit) (clientAuth : HandlerFunc Reply).
Context (handler : string -> HandlerFunc Reply).

(** The request carries the live token of a user with one of the permissions. *)
Definition admitted (perms : list string) (h : Headers) (env : Env) (db : DB) : Prop :=
  exists c u p, (run (BearerAuth h.(Authorization)) env db).1 = Ok c /\ c.(ContextUserID) = Some u /\
    p ∈ perms /\ RbacFacts.permitted db u p.

(** C20: Whatever the handlers of the administration do, they do it only for a
    request that carries the live token of a user who holds one of the
    permissions of the route: every other request is answered with one error, 401
    or 403, and changes nothing. *)
Theorem admin_api_closed mode (route : Route) (h : Headers) env db :
  route ∈ setupRouter mode -> has_prefix "/api/v1/admin" route.(Path) = true ->
  exists perms, route_permissions route = Some perms /\
  let '(r, db') := run (dispatch policies authRL oauthRL clientAuth handler h route fresh) env db in
  admitted perms h env db \/
  (db' = db /\ exists c status body, r = Ok (Ok tt, c) /\ c.(Written) = [Failed status body] /\ status ∈ [401; 403]).
Proof.
  intros Hin Hpath. destruct (admin_gates mode route Hin Hpath) as [perms Hperms]. exists perms. split; [done|].
  apply (run_wp (dispatch policies authRL oauthRL clientAuth handler h route fresh)
    (fun r db' => admitted perms h env db \/
       (db' = db /\ exists c status body, r = Ok (Ok tt, c) /\ c.(Written) = [Failed status body] /\ status ∈ [401; 403]))).
  assert (Hchain : exists (check : Context -> M unit),
    (forall ctx, check ctx = RbacGuards.RequireAnyPermission perms ctx \/
       (exists p, perms = [p] /\ check ctx = RbacGuards.RequirePermission p ctx)) /\
    handlers_of policies authRL oauthRL clientAuth handler h route =
      [BearerAuthMW h.(Authorization); mw (c <~ memory ;; liftP (check c.(Ctx))); handler route.(Handler)]).
  { revert Hperms. unfold route_permissions, handlers_of.
    destruct (Gates route) as [|[] [|[] [|]]]; intros [= <-]; [|].
    - exists (RbacGuards.RequirePermission permission). split; [eauto | done].
    - exists (RbacGuards.RequireAnyPermission permissions). split; [eauto | done]. }
  destruct Hchain as (check & Hcheck & Hchain). unfold dispatch. rewrite Hchain.
  apply wp_mw. apply wp_bindP, wp_liftP.
  destruct (BearerAuth (Authorization h) env (mkState db 0)) as [r st'] eqn:E.
  pose proof (wp_BearerAuth (Authorization h) env (mkState db 0)) as Hb. unfold wp in *. rewrite E in *. simpl in Hb |- *.
  destruct Hb as [Hdb Hr]. destruct r as [ctx|e].
  - split_and!; [done|done|]. apply wp_mw. apply wp_bindP, wp_ret, wp_liftP. simpl.
    eapply wp_mono; [|apply (wp_authorized perms (check ctx) ctx env st'), Hcheck].
    intros [[]|e] st'' [Hdb' Hp].
    + destruct Hp as (u & p & Hu & Hin' & Hp). split_and!; [done|done|]. unfold wp.
      assert (Ha : admitted perms h env db).
      { exists ctx, u, p. split_and!; [|done|done|by rewrite Hdb in Hp]. unfold run. by rewrite E. }
      destruct (serve _ _ _ _).1 as [[[[]|e] c'']|e]; by left.
    + right. split; [congruence|]. unfold refused, refusal in *. destruct (HandleError e) as [status body].
      by eexists _, status, body.
  - right. split; [done|]. unfold refused, refusal in *. destruct (HandleError e) as [status body].
    by eexists _, status, body.
Qed.

End closed.

(** ** A policy behind a permission *)

Section late.
Context `{Platform} {Reply : Type} {G : Gin Reply} {L : GinLaws}.
Context (policies : Account.PolicyGate.t) (permission action ip userAgent : string).

(** What is left of a policy gate when the handlers after it have run: it can
    only write one more answer. *)
Definition late_gate : GM Reply unit :=
  c <~ memory ;;
  if c.(IsAborted) then retP tt
  else
    r <~ attemptP (liftP (Account.PolicyGate.Middleware policies action c.(Ctx).(ContextUserID) ip userAgent)) ;;
    match r with
    | Ok _ => retP tt
    | Err e => fail_with e ~;; Abort
    end.

(** C22: Behind [chainMW] the policy of an action does not guard the handler: once
    the permission is held, the handlers that follow run to their end, and only
    then is the policy evaluated, to add a second answer when it denies. *)
Theorem policy_gate_runs_late (rest : list (HandlerFunc Reply)) (c : Conn Reply) env st st' :
  c.(IsAborted) = false ->
  RbacGuards.RequirePermission permission c.(Ctx) env st = (Ok tt, st') ->
  serve (chainMW [RequirePermissionMW permission; PolicyGateMW policies action ip userAgent] :: rest) c env st =
  (serve rest ~;; set_memory (fun c => c <| Advanced := true |>) ~;; late_gate) (c <| Advanced := false |>) env st'.
Proof.
  intros Ha Hperm. rewrite serve_cons. unfold chainMW, RequirePermissionMW, PolicyGateMW, mw, late_gate, fail_with, Abort, write.
  cbn [fold_right]. unfold bindP, attemptP, liftP, memory, set_memory, attempt, bind, ret, retP. cbn [Ctx IsAborted].
  simpl. rewrite Ha. simpl. rewrite Hperm. unfold Next at 1. unfold bindP, memory, set_memory, bind, ret, retP. simpl. rewrite Ha. simpl.
  destruct (serve rest _ env st') as [[[[[]|e] c'']|e] st'']; [|done|done]. simpl.
  destruct (IsAborted c'') eqn:Ea; simpl.
  - rewrite Next_spent; [done|]. simpl. by rewrite Ea.
  - destruct (Account.PolicyGate.Middleware _ _ _ _ _ _ _) as [[[]|e] st3]; simpl.
    + rewrite Next_spent; [|by apply orb_true_r]. simpl. rewrite Next_spent; [done | by apply orb_true_r].
    + destruct (HandleError e) as [status body]. simpl. by rewrite Next_spent.
Qed.

End late.
End RouterFacts.
