(* ===== verification/AdminHandlers.v ===== *)
(** * The handlers of the administration

    rbac/handler.go, resource/handler.go, client/handler.go, regform/handler.go,
    password/handler.go and the administrative part of user/handler.go, each as a
    handler of the engine: the parameters of the path, the body (as gin's binding
    delivers it), the operation, the event in the audit log, the answer.  The
    answers hold the rows; their JSON is left out. *)
From S2P Require Import Prelude.
From S2P Require Import Errors.
From S2P Require Import GoLib.
From S2P Require Import GoNet.
From S2P Require Import Model.
From S2P Require Import Platform.
From S2P Require Import Exec.
From S2P Require Import ProcMem.
From S2P Require Import NetSafety.
From S2P Require Import ActionToken.
From S2P Require Import UserSvc.
From S2P Require Import Middleware.
From S2P Require Import Rbac.
From S2P Require Import Resource.
From S2P Require Import Profile.
From S2P Require Password.
From S2P Require Regform.
From S2P Require Federation.
From S2P Require PolicyEngine.
From S2P Require PolicyAudit.
From S2P Require EmailTpl.
From S2P Require Import ClientSvc.
From S2P Require Import Http.
From S2P Require Import AuditTrail.
From S2P Require Import Gin.
From S2P Require Import Router.
Local Open Scope Z_scope.

(** ** Requests and answers *)

Module Request.
(** [Param] is [c.Param], [Query] is [c.Query]. *)
Record t := mk { Headers : Router.Headers; Param : string -> string; Query : string -> string }.
End Request.

(** What [User.PublicProfile] shows of an account. *)
Module PublicProfile.
Record t := mk {
  ID : UUID;
  Email : string;
  EmailVerified : bool;
  Active : bool;
  CreatedAt : Z;
  UpdatedAt : Z;
  DisplayName : option string;
  AvatarURL : option string;
  Phone : option string
}.

Definition view (u : User.t) : t :=
  mk u.(User.ID) u.(User.Email) u.(User.EmailVerified) u.(User.Active) u.(User.CreatedAt) u.(User.UpdatedAt)
    u.(User.DisplayName) u.(User.AvatarURL) u.(User.Phone).
End PublicProfile.

Module AdminView.
Record t := mk { Profile : PublicProfile.t; LockedUntil : option Z; FailedLoginAttempts : Z; Metadata : string }.

Definition view (u : User.t) : t :=
  mk (PublicProfile.view u) u.(User.LockedUntil) u.(User.FailedLoginAttempts) u.(User.Metadata).
End AdminView.

(** The body of an answer: a message, or rows under their key. *)
Inductive Body :=
| Message (m : string)
| RoleBody (r : Role.t)
| RolesBody (l : list Role.t) (page : PaginatedResponse.t)
| PermissionsBody (l : list Permission.t) (page : PaginatedResponse.t)
| ResourceBody (r : APIResource.t)
| ResourcesBody (l : list APIResource.t) (page : PaginatedResponse.t)
| ResourcePermissionBody (p : ResourcePermission.t)
| ResourcePermissionsBody (l : list ResourcePermission.t) (page : PaginatedResponse.t)
| ProfileBody (u : PublicProfile.t)
| ProfilesBody (l : list PublicProfile.t) (page : PaginatedResponse.t)
| UserBody (u : AdminView.t)
| ClientBody (c : OAuthClient.t)
| ClientsBody (l : list OAuthClient.t) (page : PaginatedResponse.t)
| ClientCreated (r : CreateResponse)
| SecretBody (id : UUID) (secret : string)
| FieldBody (f : RegistrationField.t)
| FieldsBody (l : list RegistrationField.t) (page : PaginatedResponse.t)
| FormBody (l : list RegistrationField.t)
| PolicyBody (p : Password.PasswordPolicy.t)
| SessionsBody (l : list (Session.t * bool)) (page : PaginatedResponse.t)
| Revoked (m : string) (count : Z)
| Enrolled (secret url : string)
| BackupCodes (m : string) (codes : list string)
| Reauthenticated (token : string) (expiresAt : Z) (method : string)
| PasskeyBody (p : Passkey.t)
| PasskeysBody (l : list Passkey.t)
| ChallengeBody (id : UUID)
| PasskeyLogin (userID : UUID) (email : string) (passkeyID : option UUID)
| Redirected (url : string)
| ProviderBody (p : FederationProvider.t)
| ProvidersBody (l : list FederationProvider.t) (page : PaginatedResponse.t)
| LinkBody (l : FederationLink.t) (providerName : string)
| LinksBody (l : list (FederationLink.t * string)) (page : PaginatedResponse.t)
| LinkStarted (url providerName : string)
| SignupBody (v : Federation.Provision.PendingSignupView)
| Continued (userID : UUID) (url : string)
| PolicyRow (p : Policy.t)
| PolicyRows (l : list Policy.t) (page : PaginatedResponse.t)
| PolicyTested (r : PolicyEngine.PolicySvc.TestPolicyResult.t)
| PolicyValid (problem : option string)
| PolicyReplayed (r : PolicyAudit.PolicyAudit.ReplayResult.t)
| PolicyStatistics (s : PolicyAudit.PolicyStats.Stats.t)
| InvitationBody (i : Invitation.t)
| InvitationsBody (l : list Invitation.t) (page : PaginatedResponse.t)
| InvitationLookup (email : string) (expiresAt : Z)
| SettingsBody (m : gmap string string)
| PublicSettingsBody (registration : bool) (redirect : string) (providers : list (string * option string * string))
| AdminViewsBody (l : list AdminView.t) (page : PaginatedResponse.t)
| UserCreated (u : AdminView.t) (generatedPassword : string)
| UserRoles (l : list Role.t)
| UserSessions (l : list Session.t)
| UserLinks (l : list FederationLink.t)
| TemplatesBody (l : list EmailTpl.TemplateHandler.templateListItem)
| TemplateBody (t : EmailTpl.TemplateHandler.templateDetail)
| TemplateSaved (name : string)
| TemplatePreview (o : EmailTpl.Override.t)
| NoContent.

Abbreviation Handler := (HandlerFunc Body).
Abbreviation WM := (GM Body).

Definition pkg_OK (b : Body) : WM (Z * Body) := retP (200, b).
Definition Created (b : Body) : WM (Z * Body) := retP (201, b).

(** [uuid.Parse(c.Param(key))] *)
Definition param `{Platform} (r : Request.t) (key : string) (message : string) : WM UUID :=
  match uuid_parse (r.(Request.Param) key) with
  | Some id => retP id
  | None => throwP (ErrBadRequest message)
  end.

(** [c.ShouldBindJSON(&input)]: the text of its error, or the input. *)
Definition bind_body {A} (prefix : string) (input : string + A) : WM A :=
  match input with
  | inr a => retP a
  | inl e => throwP (ErrBadRequest (prefix +:+ e))
  end.
Definition bind_json {A} (input : string + A) : WM A := bind_body "invalid request body: " input.

(** [h.auditService.LogFromContext(c, action, metadata)] *)
Definition audit (r : Request.t) (action : string) (metadata : option (list (string * any))) : WM unit :=
  c <~ memory ;;
  let h := r.(Request.Headers) in
  liftP (AuditSvc.LogFromContext c.(Ctx) h.(ClientIP) h.(UserAgent) action metadata).

(** ** rbac/handler.go, with the lists of rbac/service.go *)
Module RbacHandler.

Definition by_name (a b : Role.t) : Prop := String.leb a.(Role.Name) b.(Role.Name) = true.
#[export] Instance by_name_dec : RelDecision by_name.
Proof. intros a b. unfold by_name. apply _. Defined.

Definition ListRoles : M (list Role.t) :=
  query (fun _ db => map (RbacRepo.preload db) (merge_sort by_name (select_rows (fun _ => true) db.(roles)))).

Definition permission_by_name (a b : Permission.t) : Prop := String.leb a.(Permission.Name) b.(Permission.Name) = true.
#[export] Instance permission_by_name_dec : RelDecision permission_by_name.
Proof. intros a b. unfold permission_by_name. apply _. Defined.

Definition ListPermissions : M (list Permission.t) :=
  query (fun _ db => merge_sort permission_by_name (select_rows (fun _ => true) db.(permissions))).

Section handlers.
Context `{Platform} (r : Request.t).

Definition id_entry (k : string) (id : UUID) : string * any := (k, AString (uuid_string id)).

Definition HCreateRole (input : string + RbacSvc.CreateRoleInput) : Handler := respond (
  input <~ bind_json input ;;
  role <~ liftP (RbacSvc.CreateRole input) ;;
  audit r "role.created" (Some [id_entry "role_id" role.(Role.ID); ("role_name", AString role.(Role.Name))]) ~;;
  Created (RoleBody role)).

Definition HGetRole : Handler := respond (
  id <~ param r "id" "invalid role ID" ;;
  role <~ liftP (RbacSvc.GetRole id) ;;
  pkg_OK (RoleBody role)).

Definition HListRoles : Handler := respond (
  roles <~ map_errP (liftP ListRoles) (fun _ => ErrInternal "failed to list roles") ;;
  pkg_OK (RolesBody roles (Http.List (Z.of_nat (length roles))))).

Definition HUpdateRole (input : string + RbacSvc.UpdateRoleInput) : Handler := respond (
  id <~ param r "id" "invalid role ID" ;;
  input <~ bind_json input ;;
  role <~ liftP (RbacSvc.UpdateRole id input) ;;
  audit r "role.updated" (Some [id_entry "role_id" id]) ~;;
  pkg_OK (RoleBody role)).

Definition HDeleteRole : Handler := respond (
  id <~ param r "id" "invalid role ID" ;;
  liftP (RbacSvc.DeleteRole id) ~;;
  audit r "role.deleted" (Some [id_entry "role_id" id]) ~;;
  pkg_OK (Message "role deleted")).

Definition ids_entry (ids : list UUID) : string * any := ("permission_ids", AStrings (map uuid_string ids)).

Definition HSetPermissions (input : string + list UUID) : Handler := respond (
  roleID <~ param r "id" "invalid role ID" ;;
  permissionIDs <~ bind_json input ;;
  liftP (RbacSvc.SetRolePermissions roleID permissionIDs) ~;;
  audit r "role.permissions_updated" (Some [id_entry "role_id" roleID; ids_entry permissionIDs]) ~;;
  pkg_OK (Message "permissions updated")).

Definition HListPermissions : Handler := respond (
  perms <~ map_errP (liftP ListPermissions) (fun _ => ErrInternal "failed to list permissions") ;;
  pkg_OK (PermissionsBody perms (Http.List (Z.of_nat (length perms))))).

Definition HAssignRole (input : string + UUID) : Handler := respond (
  userID <~ param r "id" "invalid user ID" ;;
  roleID <~ bind_json input ;;
  liftP (RbacSvc.AssignRole userID roleID) ~;;
  audit r "role.assigned" (Some [id_entry "target_user_id" userID; id_entry "role_id" roleID]) ~;;
  pkg_OK (Message "role assigned")).

Definition HRemoveRole : Handler := respond (
  userID <~ param r "id" "invalid user ID" ;;
  roleID <~ param r "roleId" "invalid role ID" ;;
  liftP (RbacSvc.RemoveRole userID roleID) ~;;
  audit r "role.removed" (Some [id_entry "target_user_id" userID; id_entry "role_id" roleID]) ~;;
  pkg_OK (Message "role removed")).

Definition HGetUserRoles : Handler := respond (
  userID <~ param r "id" "invalid user ID" ;;
  roles <~ map_errP (liftP (RbacSvc.GetUserRoles userID)) (fun _ => ErrInternal "failed to get user roles") ;;
  pkg_OK (RolesBody roles (Http.List (Z.of_nat (length roles))))).

End handlers.
End RbacHandler.

(** ** resource/handler.go, with the list of resource/repository.go *)
Module ResourceHandler.
Import RbacHandler.

Definition newest (a b : APIResource.t) : Prop := b.(APIResource.CreatedAt) <= a.(APIResource.CreatedAt).
#[export] Instance newest_dec : RelDecision newest.
Proof. intros a b. unfold newest. apply _. Defined.

(** The error of the count is not looked at. *)
Definition List (page perPage : Z) : M (list APIResource.t * Z) :=
  total <- opt (query (fun _ db => Z.of_nat (size db.(api_resources)))) ;;
  let offset := int64_wrap (int64_wrap (page - 1) * perPage) in
  found <- query (fun _ db =>
    map (fun a => a <| APIResource.Permissions := ResourceRepo.permissions_of db a.(APIResource.ID) |>)
      (take (Z.to_nat perPage) (skipn (Z.to_nat offset)
         (merge_sort newest (select_rows (fun _ => true) db.(api_resources)))))) ;;
  ret (found, default 0 total).

Section handlers.
Context `{Platform} (r : Request.t).

Definition HCreate (input : string + ResourceSvc.CreateInput) : Handler := respond (
  input <~ bind_json input ;;
  res <~ liftP (ResourceSvc.Create input) ;;
  audit r "resource.created" (Some [("resource_name", AString input.(ResourceSvc.cr_Name));
                                    ("identifier", AString input.(ResourceSvc.cr_Identifier))]) ~;;
  Created (ResourceBody res)).

Definition HGet : Handler := respond (
  id <~ param r "id" "invalid resource ID" ;;
  res <~ liftP (ResourceSvc.GetByID id) ;;
  pkg_OK (ResourceBody res)).

Definition HList : Handler := respond (
  let '(page, perPage) := ParsePagination r.(Request.Query) in
  found <~ map_errP (liftP (List page perPage)) (fun _ => ErrInternal "failed to list resources") ;;
  pkg_OK (ResourcesBody found.1 (Paginated found.2 page perPage))).

Definition HUpdate (input : string + ResourceSvc.UpdateInput) : Handler := respond (
  id <~ param r "id" "invalid resource ID" ;;
  input <~ bind_json input ;;
  res <~ liftP (ResourceSvc.Update id input) ;;
  audit r "resource.updated" (Some [id_entry "resource_id" id]) ~;;
  pkg_OK (ResourceBody res)).

Definition HDelete : Handler := respond (
  id <~ param r "id" "invalid resource ID" ;;
  liftP (ResourceSvc.Delete id) ~;;
  audit r "resource.deleted" (Some [id_entry "resource_id" id]) ~;;
  pkg_OK (Message "resource deleted")).

Definition HAddPermission (input : string + string * option string) : Handler := respond (
  id <~ param r "id" "invalid resource ID" ;;
  input <~ bind_json input ;;
  perm <~ liftP (ResourceSvc.AddPermission id input.1 input.2) ;;
  audit r "resource.permission_added" (Some [id_entry "resource_id" id; ("permission_name", AString input.1)]) ~;;
  Created (ResourcePermissionBody perm)).

Definition HRemovePermission : Handler := respond (
  id <~ param r "id" "invalid resource ID" ;;
  permID <~ param r "permId" "invalid permission ID" ;;
  liftP (ResourceSvc.RemovePermission id permID) ~;;
  audit r "resource.permission_removed" (Some [id_entry "resource_id" id; id_entry "permission_id" permID]) ~;;
  pkg_OK (Message "permission removed")).

Definition HSetClientPermissions (input : string + list UUID) : Handler := respond (
  clientID <~ param r "id" "invalid client ID" ;;
  permissionIDs <~ bind_json input ;;
  liftP (ResourceSvc.SetClientPermissions clientID permissionIDs) ~;;
  audit r "resource.client_permissions_updated" (Some [id_entry "client_id" clientID; ids_entry permissionIDs]) ~;;
  pkg_OK (Message "client permissions updated")).

Definition HGetClientPermissions : Handler := respond (
  clientID <~ param r "id" "invalid client ID" ;;
  perms <~ liftP (ResourceSvc.GetClientPermissions clientID) ;;
  pkg_OK (ResourcePermissionsBody perms (Http.List (Z.of_nat (length perms))))).

Definition HSetRolePermissions (input : string + list UUID) : Handler := respond (
  roleID <~ param r "id" "invalid role ID" ;;
  permissionIDs <~ bind_json input ;;
  liftP (ResourceSvc.SetRolePermissions roleID permissionIDs) ~;;
  audit r "resource.client_permissions_updated" (Some [id_entry "role_id" roleID; ids_entry permissionIDs]) ~;;
  pkg_OK (Message "role resource permissions updated")).

Definition HGetRolePermissions : Handler := respond (
  roleID <~ param r "id" "invalid role ID" ;;
  perms <~ liftP (ResourceSvc.GetRolePermissions roleID) ;;
  pkg_OK (ResourcePermissionsBody perms (Http.List (Z.of_nat (length perms))))).

End handlers.
End ResourceHandler.

(** ** user/handler.go: administration *)
Module UserAdminHandler.
Import RbacHandler.
Section handlers.
Context `{Platform} `{JwtLib} (us : UserSvc.Service) (r : Request.t).

Definition AdminListUsers : Handler := respond (
  let '(page, perPage) := ParsePagination r.(Request.Query) in
  found <~ map_errP (liftP (ProfileSvc.Search (r.(Request.Query) "q") page perPage)) (fun _ => ErrInternal "failed to list users") ;;
  pkg_OK (ProfilesBody (map PublicProfile.view found.1) (Paginated found.2 page perPage))).

Definition AdminGetUser : Handler := respond (
  id <~ param r "id" "invalid user ID" ;;
  user <~ liftP (UserSvc.GetByID id) ;;
  pkg_OK (UserBody (AdminView.view user))).

Definition AdminUpdateUser (input : string + UserSvc.AdminUpdateInput) : Handler := respond (
  id <~ param r "id" "invalid user ID" ;;
  input <~ bind_json input ;;
  user <~ liftP (UserSvc.AdminUpdate id input) ;;
  audit r "user.updated" (Some [id_entry "target_user_id" id]) ~;;
  pkg_OK (UserBody (AdminView.view user))).

Definition AdminDeleteUser : Handler := respond (
  id <~ param r "id" "invalid user ID" ;;
  liftP (UserSvc.Delete id) ~;;
  audit r "user.deleted" (Some [id_entry "target_user_id" id]) ~;;
  pkg_OK (Message "user deleted")).

Definition AdminResetPassword : Handler := respond (
  id <~ param r "id" "invalid user ID" ;;
  liftP (UserSvc.AdminTriggerPasswordReset us id) ~;;
  audit r "admin.password_reset_initiated" (Some [id_entry "target_user_id" id]) ~;;
  pkg_OK (Message "password reset email sent")).

End handlers.
End UserAdminHandler.

(** ** client/handler.go, with the list of client/repository.go *)
Module ClientHandler.
Import RbacHandler.

Definition newest (a b : OAuthClient.t) : Prop := b.(OAuthClient.CreatedAt) <= a.(OAuthClient.CreatedAt).
#[export] Instance newest_dec : RelDecision newest.
Proof. intros a b. unfold newest. apply _. Defined.

Definition List (page perPage : Z) : M (list OAuthClient.t * Z) :=
  total <- opt (query (fun _ db => Z.of_nat (size db.(oauth_clients)))) ;;
  let offset := int64_wrap (int64_wrap (page - 1) * perPage) in
  found <- query (fun _ db =>
    take (Z.to_nat perPage) (skipn (Z.to_nat offset) (merge_sort newest (select_rows (fun _ => true) db.(oauth_clients))))) ;;
  ret (found, default 0 total).

Section handlers.
Context `{Platform} `{NetLib} (s : ClientSvc.Service) (r : Request.t).

Definition HCreate (input : string + CreateInput.t) : Handler := respond (
  input <~ bind_json input ;;
  resp <~ liftP (ClientSvc.Create s input) ;;
  audit r "client.created" (Some [("client_name", AString input.(CreateInput.Name))]) ~;;
  Created (ClientCreated resp)).

Definition HGet : Handler := respond (
  id <~ param r "id" "invalid client ID" ;;
  client <~ liftP (ClientSvc.GetByID id) ;;
  pkg_OK (ClientBody client)).

Definition HList : Handler := respond (
  let '(page, perPage) := ParsePagination r.(Request.Query) in
  found <~ map_errP (liftP (List page perPage)) (fun _ => ErrInternal "failed to list clients") ;;
  pkg_OK (ClientsBody found.1 (Paginated found.2 page perPage))).

Definition HUpdate (input : string + UpdateInput.t) : Handler := respond (
  id <~ param r "id" "invalid client ID" ;;
  input <~ bind_json input ;;
  client <~ liftP (ClientSvc.Update id input) ;;
  audit r "client.updated" (Some [id_entry "client_id" id]) ~;;
  pkg_OK (ClientBody client)).

Definition HDelete : Handler := respond (
  id <~ param r "id" "invalid client ID" ;;
  liftP (ClientSvc.Delete id) ~;;
  audit r "client.deleted" (Some [id_entry "client_id" id]) ~;;
  pkg_OK (Message "client deleted")).

Definition HRotateSecret : Handler := respond (
  id <~ param r "id" "invalid client ID" ;;
  secret <~ liftP (ClientSvc.RotateSecret s id) ;;
  audit r "client.secret_rotated" (Some [id_entry "client_id" id]) ~;;
  pkg_OK (SecretBody id secret)).

Definition HRotateHMACSecret : Handler := respond (
  id <~ param r "id" "invalid client ID" ;;
  secret <~ liftP (ClientSvc.RotateHMACSecret s id) ;;
  audit r "client.secret_rotated" (Some [id_entry "client_id" id; ("kind", AString "hmac")]) ~;;
  pkg_OK (SecretBody id secret)).

End handlers.
End ClientHandler.

(** ** regform/handler.go *)
Module RegformHandler.
Import RbacHandler Regform.
Section handlers.
Context `{Platform} (r : Request.t).

Definition HList : Handler := respond (
  items <~ liftP RegFormSvc.List ;;
  pkg_OK (FieldsBody items (Http.List (Z.of_nat (length items))))).

Definition HGet : Handler := respond (
  id <~ param r "id" "invalid id" ;;
  f <~ liftP (RegFormSvc.Get id) ;;
  pkg_OK (FieldBody f)).

Definition HCreate (input : string + RegFormSvc.CreateInput) : Handler := respond (
  input <~ bind_body "invalid body: " input ;;
  f <~ liftP (RegFormSvc.Create input) ;;
  audit r "regform.field_created" (Some [id_entry "field_id" f.(RegistrationField.ID);
    ("field_key", AString f.(RegistrationField.FieldKey)); ("kind", AString f.(RegistrationField.Kind));
    ("type", AString f.(RegistrationField.Type_))]) ~;;
  Created (FieldBody f)).

Definition HUpdate (input : string + RegFormSvc.UpdateInput) : Handler := respond (
  id <~ param r "id" "invalid id" ;;
  input <~ bind_body "invalid body: " input ;;
  f <~ liftP (RegFormSvc.Update id input) ;;
  audit r "regform.field_updated" (Some [id_entry "field_id" f.(RegistrationField.ID)]) ~;;
  pkg_OK (FieldBody f)).

Definition HDelete : Handler := respond (
  id <~ param r "id" "invalid id" ;;
  liftP (RegFormSvc.Delete id) ~;;
  audit r "regform.field_deleted" (Some [id_entry "field_id" id]) ~;;
  pkg_OK (Message "deleted")).

Definition HReorder (input : string + list UUID) : Handler := respond (
  ids <~ bind_body "invalid body: " input ;;
  liftP (RegFormSvc.Reorder ids) ~;;
  audit r "regform.fields_reordered" (Some [("count", AInt (Z.of_nat (length ids)))]) ~;;
  pkg_OK (Message "reordered")).

Definition PublicList : Handler := respond (
  let context := r.(Request.Query) "context" in
  items <~ liftP (RegFormSvc.ListForContext (if String.eqb context "" then "register" else context)) ;;
  pkg_OK (FormBody items)).

End handlers.
End RegformHandler.

(** ** password/handler.go *)
Module PasswordHandler.
Import Password.

Definition GetPublic : Handler := respond (
  p <~ liftP PasswordSvc.Get ;;
  pkg_OK (PolicyBody p)).

Definition GetAdmin : Handler := GetPublic.

Definition HUpdate (r : Request.t) (input : string + PasswordPolicy.t) : Handler := respond (
  input <~ bind_json input ;;
  map_errP (liftP (PasswordSvc.Update input)) (fun _ => ErrInternal "failed to persist password policy") ~;;
  saved <~ liftP PasswordSvc.Get ;;
  audit r "password_policy.updated" (Some
    [("min_length", AInt saved.(PasswordPolicy.MinLength)); ("max_length", AInt saved.(PasswordPolicy.MaxLength));
     ("require_uppercase", ABool saved.(PasswordPolicy.RequireUpper));
     ("require_lowercase", ABool saved.(PasswordPolicy.RequireLower));
     ("require_digit", ABool saved.(PasswordPolicy.RequireDigit));
     ("require_symbol", ABool saved.(PasswordPolicy.RequireSymbol)); ("min_score", AInt saved.(PasswordPolicy.MinScore))]) ~;;
  pkg_OK (PolicyBody saved)).

End PasswordHandler.
