(* ===== verification/SelfHandlers.v ===== *)
(** * The handlers of accounts over themselves

    user/handler.go, session/handler.go, mfa/handler.go, reauth/handler.go,
    account/handler.go and passkey/handler.go: the endpoints without a bearer
    token, and those of [/me], which act on the account of the token. *)
From S2P Require Import Prelude.
From S2P Require Import Errors.
From S2P Require Import GoLib.
From S2P Require Import Model.
From S2P Require Import Platform.
From S2P Require Import Config.
From S2P Require Import Exec.
From S2P Require Import ProcMem.
From S2P Require Import ActionToken.
From S2P Require Import UserSvc.
From S2P Require Import SessionSvc.
From S2P Require Import MfaSvc.
From S2P Require Import ReauthSvc.
From S2P Require Import OAuth.
From S2P Require Import Middleware.
From S2P Require Import AuthSteps.
From S2P Require Import Rbac.
From S2P Require Import Profile.
From S2P Require Import Settings.
From S2P Require Account.
From S2P Require Passkey.
From S2P Require Import Http.
From S2P Require Import AuditTrail.
From S2P Require Import Gin.
From S2P Require Import Router.
From S2P Require Import AdminHandlers.
Local Open Scope Z_scope.

(** [middleware.GetUserID(c)], [middleware.GetSessionID(c)] *)
Definition GetUserID : WM (option UUID) := c <~ memory ;; retP c.(Ctx).(ContextUserID).
Definition GetSessionID : WM (option UUID) := c <~ memory ;; retP c.(Ctx).(ContextSessionID).

Definition the {A} (m : WM (option A)) (message : string) : WM A :=
  o <~ m ;;
  match o with Some a => retP a | None => throwP (ErrUnauthorized message) end.

Definition caller : WM UUID := the GetUserID "not authenticated".

(** ** user/handler.go *)
Module UserHandler.
Section handlers.
Context `{Platform} `{JwtLib} (us : UserSvc.Service) (authUIBaseURL : string) (r : Request.t).

Definition Register (input : string + UserSvc.RegisterInput) : Handler := respond (
  enabled <~ liftP SettingsSvc.IsRegistrationEnabled ;;
  guardP enabled (ErrForbidden "public registration is disabled") ~;;
  input <~ bind_json input ;;
  user <~ liftP (UserSvc.Register us input) ;;
  audit r "user.registered" (Some [RbacHandler.id_entry "user_id" user.(User.ID); ("email", AString user.(User.Email))]) ~;;
  Created (ProfileBody (PublicProfile.view user))).

(** A failed login is logged too. *)
Definition Login (input : string + UserSvc.LoginInput) : Handler := respond (
  input <~ bind_json input ;;
  res <~ attemptP (liftP (UserSvc.Authenticate us input)) ;;
  match res with
  | Err e =>
      audit r "user.login_failed" (Some [("email", AString input.(UserSvc.login_Email))]) ~;; throwP e
  | Ok user =>
      audit r "user.login" (Some [RbacHandler.id_entry "user_id" user.(User.ID); ("email", AString user.(User.Email))]) ~;;
      pkg_OK (ProfileBody (PublicProfile.view user))
  end).

Definition GetProfile : Handler := respond (
  userID <~ caller ;;
  user <~ liftP (UserSvc.GetByID userID) ;;
  pkg_OK (ProfileBody (PublicProfile.view user))).

Definition UpdateProfile (input : string + ProfileSvc.UpdateProfileInput) : Handler := respond (
  userID <~ caller ;;
  input <~ bind_json input ;;
  user <~ liftP (ProfileSvc.UpdateProfile userID input) ;;
  pkg_OK (ProfileBody (PublicProfile.view user))).

(** The answer does not tell whether the account exists. *)
Definition ForgotPassword (input : string + string) : Handler := respond (
  email <~ bind_json input ;;
  attemptP (liftP (UserSvc.ForgotPassword us email)) ~;;
  pkg_OK (Message "if the email exists, a reset link has been sent")).

Definition ResetPassword (input : string + string * string) : Handler := respond (
  input <~ bind_json input ;;
  liftP (UserSvc.ResetPassword us input.1 input.2) ~;;
  audit r "user.password_reset" None ~;;
  pkg_OK (Message "password reset successfully")).

Definition VerifyEmail (input : string + string) : Handler := respond (
  token <~ bind_json input ;;
  liftP (UserSvc.VerifyEmail us token) ~;;
  audit r "user.email_verified" None ~;;
  pkg_OK (Message "email verified successfully")).

Definition ResendVerification (input : string + string * option string) : Handler := respond (
  input <~ bind_json input ;;
  let rid := match input.2 with
             | Some s => if String.eqb s "" then None else uuid_parse s
             | None => None
             end in
  attemptP (liftP (UserSvc.ResendVerificationEmail us input.1 rid)) ~;;
  pkg_OK (Message "if the email exists and is not yet verified, a new link has been sent")).

Definition ResendMyVerification : Handler := respond (
  userID <~ caller ;;
  liftP (UserSvc.SendVerificationEmail us userID None) ~;;
  pkg_OK (Message "verification email sent")).

Definition base : string := if String.eqb authUIBaseURL "" then "/ui" else authUIBaseURL.
Definition verifySuccessURL : string := base +:+ "/verify-email/success".
Definition redirectVerifyError (code : string) : WM (Z * Body) :=
  retP (302, Redirected (base +:+ "/verify-email?error=" +:+ query_escape code)).

(** [complete] is [h.bootstrapper], when there is one. *)
Definition VerifyEmailLink (complete : option (UUID -> UUID -> string -> string -> M string)) : Handler := respond (
  let raw := r.(Request.Query) "token" in
  if String.eqb raw "" then redirectVerifyError "missing_token"
  else
    consumed <~ attemptP (liftP (UserSvc.ConsumeVerificationToken us raw)) ;;
    match consumed with
    | Err _ => redirectVerifyError "invalid_token"
    | Ok (u, requestID) =>
        audit r "user.email_verified" (Some [RbacHandler.id_entry "user_id" u.(User.ID)]) ~;;
        match requestID, complete with
        | Some requestID, Some complete =>
            let h := r.(Request.Headers) in
            target <~ attemptP (liftP (complete requestID u.(User.ID) h.(ClientIP) h.(UserAgent))) ;;
            retP (302, Redirected (match target with Ok target => target | Err _ => verifySuccessURL end))
        | _, _ => retP (302, Redirected verifySuccessURL)
        end
    end).

End handlers.
End UserHandler.

(** ** session/handler.go *)
Module SessionHandler.
Section handlers.
Context `{Platform} (r : Request.t).

(** The session of the token is marked. *)
Definition HList : Handler := respond (
  userID <~ caller ;;
  sessions <~ liftP (SessionSvc.ListActive userID) ;;
  current <~ GetSessionID ;;
  pkg_OK (SessionsBody (map (fun s => (s, N.eqb s.(Session.ID) (default uuid_nil current))) sessions)
            (Http.List (Z.of_nat (length sessions))))).

Definition HRevoke : Handler := respond (
  userID <~ caller ;;
  sessionID <~ param r "id" "invalid session ID" ;;
  liftP (SessionSvc.Revoke sessionID userID) ~;;
  audit r "session.revoked" (Some [RbacHandler.id_entry "session_id" sessionID]) ~;;
  pkg_OK (Message "session revoked")).

Definition HRevokeAll : Handler := respond (
  userID <~ caller ;;
  current <~ GetSessionID ;;
  let exceptID := match current with
                  | Some sid => if N.eqb sid uuid_nil then None else Some sid
                  | None => None
                  end in
  count <~ liftP (SessionSvc.RevokeAll userID exceptID) ;;
  audit r "session.revoked_all" (Some [("revoked_count", AInt count)]) ~;;
  pkg_OK (Revoked "sessions revoked" count)).

End handlers.
End SessionHandler.

(** ** mfa/handler.go *)
Module MfaHandler.
Section handlers.
Context `{TotpLib} (r : Request.t).

Definition HEnroll : Handler := respond (
  userID <~ caller ;;
  u <~ liftP (UserSvc.GetByID userID) ;;
  resp <~ liftP (MfaSvc.Enroll userID u.(User.Email)) ;;
  pkg_OK (Enrolled resp.(MfaSvc.Secret) resp.(MfaSvc.URL))).

Definition HVerify (input : string + string) : Handler := respond (
  userID <~ caller ;;
  code <~ bind_json input ;;
  backupCodes <~ liftP (MfaSvc.Verify userID code) ;;
  audit r "mfa.enrolled" None ~;;
  pkg_OK (BackupCodes "TOTP activated successfully" backupCodes)).

Definition HDisable (input : string + string) : Handler := respond (
  userID <~ caller ;;
  code <~ bind_json input ;;
  liftP (MfaSvc.Disable userID code) ~;;
  audit r "mfa.disabled" None ~;;
  pkg_OK (Message "TOTP disabled")).

Definition HRegenerateBackupCodes (input : string + string) : Handler := respond (
  userID <~ caller ;;
  code <~ bind_json input ;;
  codes <~ liftP (MfaSvc.RegenerateBackupCodes userID code) ;;
  pkg_OK (BackupCodes "" codes)).

End handlers.
End MfaHandler.

(** ** reauth/handler.go *)
Module ReauthHandler.
Section handlers.
Context (s : ReauthSvc.Service) (r : Request.t).

Definition HIssue (input : string + ReauthSvc.IssueRequest) : Handler := respond (
  userID <~ caller ;;
  sessionID <~ the GetSessionID "reauth requires a session-bound token" ;;
  req <~ bind_json input ;;
  res <~ attemptP (liftP (ReauthSvc.Issue s userID sessionID req)) ;;
  match res with
  | Err e => audit r "account.reauth_failed" (Some [("method", AString req.(ReauthSvc.Method))]) ~;; throwP e
  | Ok resp =>
      audit r "account.reauth_issued" (Some [("method", AString resp.(ReauthSvc.resp_Method))]) ~;;
      pkg_OK (Reauthenticated resp.(ReauthSvc.Token) resp.(ReauthSvc.ExpiresAt) resp.(ReauthSvc.resp_Method))
  end).

End handlers.
End ReauthHandler.

(** ** account/handler.go *)
Module AccountHandler.
Import Account.
Section handlers.
Context (s : AccountSvc.Service) (r : Request.t).

Definition HChangePassword (input : string + string * string) : Handler := respond (
  userID <~ caller ;;
  input <~ bind_json input ;;
  liftP (AccountSvc.ChangePassword s userID input.1 input.2) ~;;
  consumeReauth "account.password_changed" ~;;
  audit r "account.password_changed" None ~;;
  pkg_OK (Message "password changed")).

Definition HSetInitialPassword (input : string + string) : Handler := respond (
  userID <~ caller ;;
  password <~ bind_json input ;;
  liftP (AccountSvc.SetInitialPassword s userID password) ~;;
  audit r "account.password_changed" (Some [("initial", ABool true)]) ~;;
  pkg_OK (Message "password set")).

Definition HRequestEmailChange (input : string + string) : Handler := respond (
  userID <~ caller ;;
  newEmail <~ bind_json input ;;
  liftP (AccountSvc.RequestEmailChange s userID newEmail) ~;;
  consumeReauth "account.email_change_requested" ~;;
  audit r "account.email_change_requested" (Some [("new_email", AString newEmail)]) ~;;
  pkg_OK (Message "confirmation email sent")).

(** The event is of the account the token belongs to. *)
Definition HConfirmEmailChange (input : string + string) : Handler := respond (
  token <~ bind_json input ;;
  confirmed <~ liftP (AccountSvc.ConfirmEmailChange s token) ;;
  let '(oldEmail, newEmail, userID) := confirmed in
  let h := r.(Request.Headers) in
  liftP (AuditSvc.Log (LogEntry.mk (Some userID) None "account.email_changed" h.(ClientIP) h.(UserAgent)
    (Some [("old_email", AString oldEmail); ("new_email", AString newEmail)]))) ~;;
  pkg_OK (Message "email updated")).

Definition HRequestDeletion : Handler := respond (
  userID <~ caller ;;
  liftP (AccountSvc.RequestDeletion s userID) ~;;
  consumeReauth "account.deletion_requested" ~;;
  audit r "account.deletion_requested" None ~;;
  pkg_OK (Message "account scheduled for deletion")).

Definition HCancelDeletion (input : string + string) : Handler := respond (
  token <~ bind_json input ;;
  liftP (AccountSvc.CancelDeletion token) ~;;
  audit r "account.deletion_cancelled" None ~;;
  pkg_OK (Message "deletion cancelled")).

End handlers.
End AccountHandler.

(** ** passkey/handler.go *)
Module PasskeyHandler.
Import Passkey.
Section handlers.
Context `{Platform} `{WebAuthn} (challengeTTL : Z) (r : Request.t).

Definition HRegisterBegin : Handler := respond (
  userID <~ caller ;;
  resp <~ liftP (PasskeySvc.BeginRegistration challengeTTL userID) ;;
  pkg_OK (ChallengeBody resp.1)).

Definition HRegisterFinish (input : string + PasskeySvc.FinishRegistrationInput) : Handler := respond (
  userID <~ caller ;;
  input <~ bind_json input ;;
  p <~ liftP (PasskeySvc.FinishRegistration userID input) ;;
  audit r "account.passkey_added" (Some [RbacHandler.id_entry "passkey_id" p.(Passkey.ID); ("name", AString p.(Passkey.Name))]) ~;;
  pkg_OK (PasskeyBody p)).

Definition HList : Handler := respond (
  userID <~ caller ;;
  pks <~ map_errP (liftP (PasskeySvc.List userID)) (fun _ => ErrInternal "failed to list passkeys") ;;
  pkg_OK (PasskeysBody pks)).

Definition HRename (input : string + string) : Handler := respond (
  userID <~ caller ;;
  id <~ param r "id" "invalid passkey id" ;;
  name <~ bind_json input ;;
  liftP (PasskeySvc.Rename id userID name) ~;;
  audit r "account.passkey_renamed" (Some [RbacHandler.id_entry "passkey_id" id; ("name", AString name)]) ~;;
  pkg_OK (Message "passkey renamed")).

Definition HDelete : Handler := respond (
  userID <~ caller ;;
  id <~ param r "id" "invalid passkey id" ;;
  liftP (PasskeySvc.Delete id userID) ~;;
  audit r "account.passkey_removed" (Some [RbacHandler.id_entry "passkey_id" id]) ~;;
  pkg_OK (Message "passkey removed")).

Definition HReauthBegin : Handler := respond (
  userID <~ caller ;;
  resp <~ liftP (PasskeySvc.BeginReauth challengeTTL userID) ;;
  pkg_OK (ChallengeBody resp.1)).

Definition HLoginBegin : Handler := respond (
  resp <~ liftP (PasskeySvc.BeginLogin challengeTTL) ;;
  pkg_OK (ChallengeBody resp.1)).

Definition HLoginFinish (input : string + PasskeySvc.FinishLoginInput) : Handler := respond (
  input <~ bind_json input ;;
  found <~ liftP (PasskeySvc.FinishLogin input) ;;
  pkg_OK (PasskeyLogin found.1.(User.ID) found.1.(User.Email) (Passkey.ID <$> found.2))).

End handlers.
End PasskeyHandler.
