(* ===== verification/ServiceHandlers.v ===== *)
(** * The handlers over services that keep memory, and of the M2M API

    federation/handler.go, policy/handler.go, email/handler.go,
    invitation/handler.go and m2m/handler.go.  A handler over a service with a
    cache or an engine in memory is an operation on that memory, given the
    context of the request; it answers with a status and a body, or an error. *)
From S2P Require Import Prelude.
From S2P Require Import Errors.
From S2P Require Import GoLib.
From S2P Require Import Model.
From S2P Require Import Platform.
From S2P Require Import Config.
From S2P Require Import Exec.
From S2P Require Import ProcMem.
From S2P Require Import NetSafety.
From S2P Require Import ActionToken.
From S2P Require Import UserSvc.
From S2P Require Import Middleware.
From S2P Require Import Profile.
From S2P Require Import Settings.
From S2P Require Import Invitation.
From S2P Require Import FedRepo.
From S2P Require Import Federation.
From S2P Require FedFlow.
From S2P Require M2M.
From S2P Require Import PolicyEngine.
From S2P Require Import PolicyAudit.
From S2P Require Import EmailTpl.
From S2P Require Import Http.
From S2P Require Import AuditTrail.
From S2P Require Import Gin.
From S2P Require Import Router.
From S2P Require Import AdminHandlers.
From S2P Require Import SelfHandlers.
From Stdlib Require Import Ascii.
Local Open Scope Z_scope.

(** ** Handlers over a memory *)
Section memory.
Context {S : Type} `{Platform} (ctx : Context) (r : Request.t).

Definition Answered : Type := PM S (Z * Body).

Definition ok (b : Body) : Answered := retP (200, b).
Definition made (b : Body) : Answered := retP (201, b).

Definition path_id (key message : string) : PM S UUID :=
  match uuid_parse (r.(Request.Param) key) with
  | Some id => retP id
  | None => throwP (ErrBadRequest message)
  end.

Definition body {A} (input : string + A) : PM S A :=
  match input with
  | inr a => retP a
  | inl e => throwP (ErrBadRequest ("invalid request body: " +:+ e))
  end.

Definition record (action : string) (metadata : option (list (string * any))) : PM S unit :=
  let h := r.(Request.Headers) in
  liftP (AuditSvc.LogFromContext ctx h.(ClientIP) h.(UserAgent) action metadata).

(** [middleware.GetUserID(c)], or the answer 401. *)
Definition signed_in : PM S UUID :=
  match ctx.(ContextUserID) with
  | Some id => retP id
  | None => throwP (ErrUnauthorized "not authenticated")
  end.
End memory.
Arguments Answered : clear implicits.

Abbreviation id_entry := RbacHandler.id_entry.

(** ** federation/handler.go *)
Module FederationHandler.
Import FedSvc.

Section handlers.
Context `{Platform} `{JwtLib} `{NetLib} `{IdentityLib} (s : Federation.Service) (ctx : Context) (r : Request.t).

Abbreviation Answer := (Answered Cache).

(** The location of the redirection. *)
Definition HInitSocialLogin : PM Cache string :=
  let raw := r.(Request.Query) "oauth_request_id" in
  requestID <~ (if String.eqb raw "" then retP None
                else match uuid_parse raw with
                     | Some id => retP (Some id)
                     | None => throwP (ErrBadRequest "oauth_request_id must be a UUID")
                     end) ;;
  InitSocialLogin s (r.(Request.Param) "provider")
    (mkInitOptions (r.(Request.Query) "return_to") requestID (r.(Request.Query) "invitation_token") None
       r.(Request.Headers).(ClientIP) r.(Request.Headers).(UserAgent)).

Definition HPeekPendingSignup : Answer :=
  view <~ liftP (Provision.PeekPendingSignup s (r.(Request.Query) "token")) ;;
  ok (SignupBody view).

(** The name of the provider of a link, preloaded with it. *)
Definition provider_of (db : DB) (l : FederationLink.t) : string :=
  match db.(federation_providers) !! l.(FederationLink.ProviderID) with
  | Some p => p.(FederationProvider.Name)
  | None => ""
  end.

Definition with_providers (links : list FederationLink.t) : M (list (FederationLink.t * string)) :=
  match links with
  | [] => ret []
  | _ => query (fun _ db => map (fun l => (l, provider_of db l)) links)
  end.

Definition HListLinkedAccounts : Answer :=
  userID <~ signed_in ctx ;;
  links <~ map_errP (liftP (links <- GetLinkedAccounts userID ;; with_providers links))
             (fun _ => ErrInternal "failed to list linked accounts") ;;
  ok (LinksBody links (Http.List (Z.of_nat (length links)))).

Definition HGetLinkedAccount : Answer :=
  userID <~ signed_in ctx ;;
  linkID <~ path_id r "id" "invalid link ID" ;;
  link <~ liftP (GetLinkedAccount linkID userID) ;;
  name <~ map_errP (liftP (query (fun _ db => provider_of db link))) (fun _ => ErrInternal "failed to load linked account") ;;
  ok (LinkBody link name).

(** [input] is [None] when the request has no body. *)
Definition HBeginLinkAccount (input : option (string + string)) : Answer :=
  userID <~ signed_in ctx ;;
  let providerName := r.(Request.Param) "provider" in
  guardP (negb (String.eqb providerName "")) (ErrBadRequest "provider is required") ~;;
  returnTo <~ (match input with Some i => body i | None => retP "" end) ;;
  url <~ BeginLink s userID providerName
           (mkInitOptions returnTo None "" None r.(Request.Headers).(ClientIP) r.(Request.Headers).(UserAgent)) ;;
  record ctx r "federation.login_succeeded"
    (Some [("action", AString "begin_link"); id_entry "user_id" userID; ("provider", AString providerName)]) ~;;
  ok (LinkStarted url providerName).

Definition HUnlinkAccount : Answer :=
  userID <~ signed_in ctx ;;
  linkID <~ path_id r "id" "invalid link ID" ;;
  liftP (UnlinkAccount linkID userID) ~;;
  ok (Message "account unlinked").

Definition HCreateProvider (input : string + CreateProviderInput) : Answer :=
  input <~ body input ;;
  p <~ liftP (CreateProvider s input) ;;
  record ctx r "federation.provider_created"
    (Some [id_entry "provider_id" p.(FederationProvider.ID); ("provider_name", AString p.(FederationProvider.Name))]) ~;;
  made (ProviderBody p).

Definition HGetProvider : Answer :=
  id <~ path_id r "id" "invalid provider ID" ;;
  p <~ liftP (GetProvider id) ;;
  ok (ProviderBody p).

Definition by_name (a b : FederationProvider.t) : Prop :=
  String.leb a.(FederationProvider.Name) b.(FederationProvider.Name) = true.
#[export] Instance by_name_dec : RelDecision by_name.
Proof. intros a b. unfold by_name. apply _. Defined.

(** federation/repository.go, federation/service.go *)
Definition ListProviders : M (list FederationProvider.t) :=
  query (fun _ db => merge_sort by_name (select_rows (fun _ => true) db.(federation_providers))).

Definition ListActiveProviders : M (list FederationProvider.t) :=
  providers <- ListProviders ;;
  ret (List.filter FederationProvider.Active providers).

Definition HListProviders : Answer :=
  providers <~ map_errP (liftP ListProviders) (fun _ => ErrInternal "failed to list providers") ;;
  ok (ProvidersBody providers (Http.List (Z.of_nat (length providers)))).

(** What an update touched; secrets are not logged. *)
Definition changed (id : UUID) (i : UpdateProviderInput) : list (string * any) :=
  let entry {A} (k : string) (f : A -> any) (o : option A) := match o with Some a => [(k, f a)] | None => [] end in
  id_entry "provider_id" id
  :: entry "client_id" AString i.(up_ClientID)
  ++ entry "client_secret_rotated" (fun _ => ABool true) i.(up_ClientSecret)
  ++ entry "issuer_url" AString i.(up_IssuerURL)
  ++ entry "jwks_uri" AString i.(up_JWKSUri)
  ++ entry "sync_on_login" ABool i.(up_SyncOnLogin)
  ++ entry "allow_link_confirmation" ABool i.(up_AllowLinkConfirmation)
  ++ (if String.eqb i.(up_AttributeMapper) "" then [] else [("attribute_mapper_changed", ABool true)])
  ++ entry "active" ABool i.(up_Active).

Definition HUpdateProvider (input : string + UpdateProviderInput) : Answer :=
  id <~ path_id r "id" "invalid provider ID" ;;
  input <~ body input ;;
  p <~ UpdateProvider s id input ;;
  record ctx r "federation.provider_updated" (Some (changed id input)) ~;;
  ok (ProviderBody p).

Definition HDeleteProvider : Answer :=
  id <~ path_id r "id" "invalid provider ID" ;;
  DeleteProvider id ~;;
  record ctx r "federation.provider_deleted" (Some [id_entry "provider_id" id]) ~;;
  ok (Message "provider deleted").

End handlers.
End FederationHandler.

(** ** policy/handler.go *)
Module PolicyHandler.
Section handlers.
Context `{Platform} `{Opa} (audited : bool) (ctx : Context) (r : Request.t).

Abbreviation Answer := (Answered Engine.t).

(** [n = n*10 + int(ch-'0')] over a text of digits. *)
Fixpoint read_int (n : Z) (s : string) : option Z :=
  match s with
  | EmptyString => Some n
  | String c s =>
      let b := Z.of_N (N_of_ascii c) in
      if (48 <=? b) && (b <=? 57) then read_int (int64_wrap (int64_wrap (n * 10) + (b - 48))) s else None
  end.

Definition parseIntQuery (key : string) (def : Z) : Z :=
  let raw := r.(Request.Query) key in
  if String.eqb raw "" then def
  else match read_int 0 raw with
       | Some n => if n =? 0 then def else n
       | None => def
       end.

Definition HReplay (input : string + string) : Answer :=
  raw <~ body input ;;
  match uuid_parse raw with
  | None => throwP (ErrBadRequest "invalid audit_log_id")
  | Some id =>
      e <~ memory ;;
      result <~ liftP (PolicyAudit.Replay audited e id) ;;
      ok (PolicyReplayed result)
  end.

Definition HGetStats : Answer :=
  stats <~ map_errP (liftP (PolicyAudit.GetStats (parseIntQuery "days" 7) (parseIntQuery "limit" 10)))
             (fun _ => ErrInternal "failed to compute stats") ;;
  ok (PolicyStatistics stats).

Definition HCreatePolicy (input : string + PolicySvc.CreatePolicyInput) : Answer :=
  input <~ body input ;;
  p <~ PolicySvc.CreatePolicy input ;;
  record ctx r "policy.created"
    (Some [id_entry "policy_id" p.(Policy.ID); ("policy_name", AString p.(Policy.Name)); ("policy_type", AString p.(Policy.Type_))]) ~;;
  made (PolicyRow p).

Definition HGetPolicy : Answer :=
  id <~ path_id r "id" "invalid policy ID" ;;
  p <~ liftP (PolicySvc.GetPolicy id) ;;
  ok (PolicyRow p).

Definition HListPolicies : Answer :=
  policies <~ map_errP (liftP (PolicySvc.ListPolicies (r.(Request.Query) "type")))
                (fun _ => ErrInternal "failed to list policies") ;;
  ok (PolicyRows policies (Http.List (Z.of_nat (length policies)))).

Definition HUpdatePolicy (input : string + PolicySvc.UpdatePolicyInput) : Answer :=
  id <~ path_id r "id" "invalid policy ID" ;;
  input <~ body input ;;
  p <~ PolicySvc.UpdatePolicy id input ;;
  record ctx r "policy.updated" (Some [id_entry "policy_id" id]) ~;;
  ok (PolicyRow p).

Definition HDeletePolicy : Answer :=
  id <~ path_id r "id" "invalid policy ID" ;;
  PolicySvc.DeletePolicy id ~;;
  record ctx r "policy.deleted" (Some [id_entry "policy_id" id]) ~;;
  ok (Message "policy deleted").

Definition HTestPolicy (input : string + (string * list (string * any))) : Answer :=
  input <~ body input ;;
  ok (PolicyTested (PolicySvc.TestPolicy input.1 input.2)).

Definition HValidatePolicy (input : string + string) : Answer :=
  rego <~ body input ;;
  ok (PolicyValid (match PolicySvc.ValidateRego rego with Ok _ => None | Err e => Some (error_string e) end)).

End handlers.
End PolicyHandler.

(** ** email/handler.go: what [TemplateHandler] does, with the audit log *)
Module EmailHandler.
Section handlers.
Context `{Platform} `{HtmlTemplate} (ctx : Context) (r : Request.t).

Abbreviation Answer := (Answered Process).
Abbreviation name := (r.(Request.Param) "name").

Definition HList : Answer := items <~ TemplateHandler.List ;; ok (TemplatesBody items).
Definition HGet : Answer := detail <~ TemplateHandler.Get name ;; ok (TemplateBody detail).
Definition HPreview (input : result Override.t) : Answer :=
  o <~ TemplateHandler.Preview name input ;; ok (TemplatePreview o).

Definition HUpsert (input : result Override.t) : Answer :=
  TemplateHandler.Upsert name input (default uuid_nil ctx.(ContextUserID)) ~;;
  record ctx r "email_template.updated"
    (Some [("name", AString name);
           ("body_size", AInt (match input with Ok o => Z.of_nat (String.length o.(Override.BodyHTML)) | Err _ => 0 end))]) ~;;
  ok (TemplateSaved name).

Definition HDelete : Answer :=
  TemplateHandler.Delete name ~;;
  record ctx r "email_template.reset" (Some [("name", AString name)]) ~;;
  retP (204, NoContent).

End handlers.
End EmailHandler.

(** ** invitation/handler.go *)
Module InvitationHandler.
Section handlers.
Context `{Platform} `{JwtLib} (s : InvitationSvc.Service) (settings : SettingsSvc.Service) (r : Request.t).

Definition HLookupInvitation : Handler := respond (
  let token := r.(Request.Query) "token" in
  guardP (negb (String.eqb token "")) (ErrBadRequest "missing token") ~;;
  inv <~ liftP (InvitationSvc.ValidateToken token) ;;
  match inv with
  | None => throwP (ErrNotFound "invitation not found or expired")
  | Some inv => pkg_OK (InvitationLookup inv.(Invitation.Email) inv.(Invitation.ExpiresAt))
  end).

(** federation/invitation_adapter.go *)
Definition lister : M (list (string * option string * string)) :=
  providers <- FederationHandler.ListActiveProviders ;;
  ret (map (fun p => (p.(FederationProvider.Name), p.(FederationProvider.DisplayName), p.(FederationProvider.Type_))) providers).

(** Providers that cannot be listed are none. *)
Definition HPublicSettings (federationLister : bool) : Handler := respond (
  registration <~ liftP SettingsSvc.IsRegistrationEnabled ;;
  redirect <~ liftP SettingsSvc.GetPostRegisterRedirectURL ;;
  providers <~ liftP (if federationLister then opt lister else ret None) ;;
  pkg_OK (PublicSettingsBody registration redirect (default [] providers))).

Definition HCreate (input : string + InvitationSvc.CreateInput) : Handler := respond (
  userID <~ caller ;;
  input <~ bind_json input ;;
  inv <~ liftP (InvitationSvc.Create s input userID) ;;
  audit r "invitation.created"
    (Some [id_entry "invitation_id" inv.1.(Invitation.ID); ("email", AString input.(InvitationSvc.Email))]) ~;;
  Created (InvitationBody inv.1)).

Definition HList : Handler := respond (
  let '(page, perPage) := ParsePagination r.(Request.Query) in
  found <~ map_errP (liftP (InvitationRepo.List page perPage)) (fun _ => ErrInternal "failed to list invitations") ;;
  pkg_OK (InvitationsBody found.1 (Paginated found.2 page perPage))).

Definition HDelete : Handler := respond (
  id <~ param r "id" "invalid invitation ID" ;;
  liftP (InvitationSvc.Delete id) ~;;
  pkg_OK (Message "invitation deleted")).

Definition HRegisterWithInvite (input : string + InvitationSvc.RegisterInviteInput) : Handler := respond (
  input <~ bind_json input ;;
  user <~ liftP (InvitationSvc.RegisterWithInvite s input) ;;
  Created (ProfileBody (PublicProfile.view user))).

Definition HGetSettings : Handler := respond (
  m <~ liftP SettingsSvc.GetAllSettings ;;
  pkg_OK (SettingsBody m)).

(** [changed]: the keys given, with their values. *)
Definition changed (i : SettingsHandler.UpdateSettingsInput) : list (string * any) :=
  let entry {A} (k : string) (f : A -> any) (o : option A) := match o with Some a => [(k, f a)] | None => [] end in
  entry "registration_enabled" ABool i.(SettingsHandler.RegistrationEnabled)
  ++ entry "invitations_default_role" AString i.(SettingsHandler.InvitationsDefaultRole)
  ++ entry "default_access_token_ttl" AInt i.(SettingsHandler.DefaultAccessTokenTTL)
  ++ entry "default_refresh_token_ttl" AInt i.(SettingsHandler.DefaultRefreshTokenTTL)
  ++ entry "default_id_token_ttl" AInt i.(SettingsHandler.DefaultIDTokenTTL)
  ++ entry "default_post_register_redirect_url" AString i.(SettingsHandler.DefaultPostRegisterRedirectURL)
  ++ entry "default_session_ttl" AInt i.(SettingsHandler.DefaultSessionTTL)
  ++ entry "default_session_extended_ttl" AInt i.(SettingsHandler.DefaultSessionExtendedTTL)
  ++ entry "registration_email_verification_required" ABool i.(SettingsHandler.RegistrationEmailVerificationRequired).

(** The record is written before the settings are read again. *)
Definition HUpdateSettings (input : string + SettingsHandler.UpdateSettingsInput) : Handler := respond (
  input <~ bind_json input ;;
  liftP (SettingsHandler.apply_all settings input) ~;;
  (match changed input with [] => retP tt | l => audit r "settings.updated" (Some l) end) ~;;
  m <~ liftP SettingsSvc.GetAllSettings ;;
  pkg_OK (SettingsBody m)).

End handlers.
End InvitationHandler.

(** ** m2m/handler.go *)
Module M2MHandler.
Import M2M.

Section handlers.
Context `{Platform} (s : UserService) (r : Request.t).

(** The record names the client of the token. *)
Definition audit (action : string) (targetUserID : UUID) (extra : list (string * any)) : WM unit :=
  c <~ memory ;;
  let h := r.(Request.Headers) in
  liftP (AuditSvc.Log (LogEntry.mk None (Some c.(Ctx).(ContextClientID)) action h.(ClientIP) h.(UserAgent)
    (Some (foldl (fun m kv => map_set m kv.1 kv.2) [id_entry "target_user_id" targetUserID] extra)))).

Definition parseUserID : WM UUID := param r "id" "invalid user id".
Definition parseParamUUID (name : string) : WM UUID := param r name ("invalid " +:+ name).

Definition HList : Handler := respond (
  let '(page, perPage) := ParsePagination r.(Request.Query) in
  found <~ map_errP (liftP (s.(users).(List) page perPage)) (fun _ => ErrInternal "failed to list users") ;;
  pkg_OK (AdminViewsBody (map AdminView.view found.1) (Paginated found.2 page perPage))).

Definition HGet : Handler := respond (
  id <~ parseUserID ;;
  u <~ liftP (s.(users).(GetByID) id) ;;
  pkg_OK (UserBody (AdminView.view u))).

(** A list of roles that is absent is logged as an empty one. *)
Definition HCreate (input : string + CreateUserInput) : Handler := respond (
  input <~ bind_json input ;;
  res <~ liftP (M2MSvc.Create s input) ;;
  audit "m2m.user.created" res.1.(User.ID)
    [("email", AString res.1.(User.Email)); ("role_ids", AStrings (map uuid_string input.(cu_RoleIDs)))] ~;;
  Created (UserCreated (AdminView.view res.1) res.2)).

Definition HUpdate (input : string + ProfileSvc.M2MUpdateInput) : Handler := respond (
  id <~ parseUserID ;;
  input <~ bind_json input ;;
  u <~ liftP (s.(users).(M2MUpdate) id input) ;;
  audit "m2m.user.updated" id [] ~;;
  pkg_OK (UserBody (AdminView.view u))).

Definition HDelete : Handler := respond (
  id <~ parseUserID ;;
  liftP (M2MSvc.Delete s id) ~;;
  audit "m2m.user.deleted" id [] ~;;
  pkg_OK (Message "user deleted")).

Definition HSetPassword (input : string + string) : Handler := respond (
  id <~ parseUserID ;;
  password <~ bind_json input ;;
  liftP (M2MSvc.SetPassword s id password) ~;;
  audit "m2m.user.password_set" id [] ~;;
  pkg_OK (Message "password set; all sessions revoked")).

Definition HUnlock : Handler := respond (
  id <~ parseUserID ;;
  liftP (M2MSvc.Unlock s id) ~;;
  audit "m2m.user.unlocked" id [] ~;;
  pkg_OK (Message "account unlocked")).

Definition HResetMFA : Handler := respond (
  id <~ parseUserID ;;
  liftP (M2MSvc.ResetMFA s id) ~;;
  audit "m2m.user.mfa_reset" id [] ~;;
  pkg_OK (Message "MFA reset")).

Definition HListRoles : Handler := respond (
  id <~ parseUserID ;;
  roles <~ liftP (M2MSvc.ListRoles s id) ;;
  pkg_OK (UserRoles roles)).

Definition HAssignRole (input : string + UUID) : Handler := respond (
  id <~ parseUserID ;;
  roleID <~ bind_json input ;;
  liftP (M2MSvc.AssignRole s id roleID) ~;;
  audit "m2m.user.role_assigned" id [id_entry "role_id" roleID] ~;;
  pkg_OK (Message "role assigned")).

Definition HRemoveRole : Handler := respond (
  id <~ parseUserID ;;
  roleID <~ parseParamUUID "roleId" ;;
  liftP (M2MSvc.RemoveRole s id roleID) ~;;
  audit "m2m.user.role_removed" id [id_entry "role_id" roleID] ~;;
  pkg_OK (Message "role removed")).

Definition HListSessions : Handler := respond (
  id <~ parseUserID ;;
  sessions <~ liftP (M2MSvc.ListSessions s id) ;;
  pkg_OK (UserSessions sessions)).

Definition HRevokeSession : Handler := respond (
  id <~ parseUserID ;;
  sid <~ parseParamUUID "sid" ;;
  liftP (M2MSvc.RevokeSession s sid id) ~;;
  audit "m2m.user.session_revoked" id [id_entry "session_id" sid] ~;;
  pkg_OK (Message "session revoked")).

Definition HRevokeAllSessions : Handler := respond (
  id <~ parseUserID ;;
  count <~ liftP (M2MSvc.RevokeAllSessions s id) ;;
  audit "m2m.user.session_revoked" id [("revoked_count", AInt count); ("all", ABool true)] ~;;
  pkg_OK (Revoked "all sessions revoked" count)).

Definition HListPasskeys : Handler := respond (
  id <~ parseUserID ;;
  pks <~ liftP (M2MSvc.ListPasskeys s id) ;;
  pkg_OK (PasskeysBody pks)).

Definition HDeletePasskey : Handler := respond (
  id <~ parseUserID ;;
  pid <~ parseParamUUID "pid" ;;
  liftP (M2MSvc.DeletePasskey s pid id) ~;;
  audit "m2m.user.passkey_removed" id [id_entry "passkey_id" pid] ~;;
  pkg_OK (Message "passkey removed")).

Definition HListLinkedAccounts : Handler := respond (
  id <~ parseUserID ;;
  links <~ liftP (M2MSvc.ListLinkedAccounts s id) ;;
  pkg_OK (UserLinks links)).

Definition HUnlinkAccount : Handler := respond (
  id <~ parseUserID ;;
  linkID <~ parseParamUUID "linkId" ;;
  liftP (M2MSvc.UnlinkAccount s linkID id) ~;;
  audit "m2m.user.linked_account_removed" id [id_entry "link_id" linkID] ~;;
  pkg_OK (Message "linked account removed")).

End handlers.
End M2MHandler.
