(* ===== verification/RouterSample.v ===== *)
(** * Requests through the routes, on small databases

    The theorems of [RouterFacts] at concrete requests, and what three requests
    show: a permission to read roles suffices to take one, an action its policy
    denies is done, and a long user agent keeps an event out of the log. *)
From S2P Require Import Prelude.
From S2P Require Import Errors.
From S2P Require Import GoLib.
From S2P Require Import Model.
From S2P Require Import Platform.
From S2P Require Import Config.
From S2P Require Import Exec.
From S2P Require Import ProcMem.
From S2P Require Import Crypto.
From S2P Require Import UserSvc.
From S2P Require Import OAuth.
From S2P Require Import Middleware.
From S2P Require Import Rbac.
From S2P Require Import Http.
From S2P Require Import Outbox.
From S2P Require Import AuditTrail.
From S2P Require Import Gin.
From S2P Require Import Router.
From S2P Require Import RouterFacts.
From S2P Require Import AdminHandlers.
From S2P Require Import SelfHandlers.
From S2P Require Account.
Local Open Scope Z_scope.

Module RouterSample.
Import RouterFacts.

#[local] Instance platform : Platform := sample_platform.
#[local] Instance gin : Gin Body := sample_gin Body.
#[local] Instance gin_laws : GinLaws := sample_gin_laws Body.

Definition env : Env := mkEnv (10 * second) (10 * second) (fun _ => false) (fun n i => Z.of_nat (n + i)) (fun n => N.of_nat (1000 + n)).

(** User 5 has the role 9 with the permission 3; role 1 is the administrator's. *)
Definition db_with (permission : string) : DB :=
  UserFacts.sample_users
    <| sessions := {[ 11%N := Session.zero <| Session.ID := 11%N |> <| Session.UserID := 5%N |> <| Session.ExpiresAt := 900 * second |> ]} |>
    <| access_tokens := {[ HashToken "tok" := AccessToken.zero <| AccessToken.ID := HashToken "tok" |>
         <| AccessToken.UserID := Some 5%N |> <| AccessToken.SessionID := Some 11%N |> <| AccessToken.ExpiresAt := 800 * second |> ]} |>
    <| reauth_tokens := {[ HashToken "again" := ReauthToken.zero <| ReauthToken.ID := HashToken "again" |>
         <| ReauthToken.UserID := 5%N |> <| ReauthToken.SessionID := 11%N |> <| ReauthToken.ExpiresAt := 700 * second |> ]} |>
    <| roles := {[ 1%N := Role.zero <| Role.ID := 1%N |>; 9%N := Role.zero <| Role.ID := 9%N |> ]} |>
    <| permissions := {[ 3%N := Permission.zero <| Permission.ID := 3%N |> <| Permission.Name := permission |> ]} |>
    <| role_permissions := {[ (9%N, 3%N) ]} |>
    <| user_roles := {[ (5%N, 9%N) ]} |>.

(** A policy that denies the deletion of accounts. *)
Definition policies : Account.PolicyGate.t :=
  Account.PolicyGate.mk (mkRoleProvider (fun _ _ _ _ => Ok []) (fun _ _ _ _ => Ok [])) false None
    (Some (fun _ _ _ _ _ => Ok (true, "accounts are kept"))).

Definition headers (bearer userAgent : string) : Headers := mkHeaders bearer "again" "10.0.0.1" userAgent.
Definition nop : HandlerFunc Body := fun _ => retP tt.

Definition find_route (method path : string) : option Route :=
  find (fun r => String.eqb r.(Method) method && String.eqb r.(Path) path) (setupRouter "release").

(** The request, served by the handler given for its route. *)
Definition request (h : Headers) (method path : string) (handler : HandlerFunc Body) (db : DB)
    : option (list (Answer Body) * DB) :=
  match find_route method path with
  | None => None
  | Some route =>
      match run (dispatch policies (ret tt) (ret tt) nop (fun _ => handler) h route fresh) env db with
      | (Ok (_, c), db') => Some (c.(Written), db')
      | (Err _, _) => None
      end
  end.

Definition statuses (l : list (Answer Body)) : list Z :=
  map (fun a => match a with Failed s _ => s | Replied s _ => s end) l.

Definition outcome {A} (view : DB -> A) (o : option (list (Answer Body) * DB)) : option (list Z * A) :=
  (fun p => (statuses p.1, view p.2)) <$> o.

(** *** A permission to read roles *)

Definition params (l : list (string * string)) (k : string) : string :=
  default "" (snd <$> find (fun p => String.eqb p.1 k) l).

Definition promotion (h : Headers) : HandlerFunc Body :=
  RbacHandler.HAssignRole (Request.mk h (params [("id", @uuid_string sample_platform 5%N)]) (fun _ => "")) (inr 1%N).

Definition is_admin_now (db : DB) : bool := bool_decide ((5%N, 1%N) ∈ db.(user_roles)).

Example reader_takes_the_role :
  let h := headers "Bearer tok" "curl" in
  outcome is_admin_now (request h "POST" "/api/v1/admin/users/:id/roles" (promotion h) (db_with "roles:read"))
    = Some ([200], true) /\
  outcome is_admin_now (request h "POST" "/api/v1/admin/users/:id/roles" (promotion h) (db_with "users:write"))
    = Some ([403], false).
Proof. split; vm_compute; reflexivity. Qed.

Abbreviation served h handler route db :=
  (run (dispatch policies (ret tt) (ret tt) nop (fun _ => handler) h route fresh) env db).

Lemma admin_api_closed_witness :
  let h := headers "Bearer tok" "curl" in
  exists route, find_route "POST" "/api/v1/admin/users/:id/roles" = Some route /\
  exists perms, route_permissions route = Some perms /\
  let '(r, db') := served h (promotion h) route (db_with "users:write") in
  admitted perms h env (db_with "users:write") \/
  (db' = db_with "users:write" /\ exists c status body, r = Ok (Ok tt, c) /\ c.(Written) = [Failed status body] /\ status ∈ [401; 403]).
Proof.
  intros h. destruct (find_route "POST" "/api/v1/admin/users/:id/roles") as [route|] eqn:E; [|vm_compute in E; discriminate].
  exists route. split; [done|]. apply find_some in E as [Hin Hpath].
  apply (admin_api_closed policies (ret tt) (ret tt) nop (fun _ => promotion h) "release" route h env (db_with "users:write")).
  - by apply list_elem_of_In.
  - apply andb_true_iff in Hpath as [_ Hpath%String.eqb_eq]. rewrite Hpath. reflexivity.
Defined.

(** *** A policy that denies *)

Definition deletion (h : Headers) : HandlerFunc Body :=
  AccountHandler.HRequestDeletion Account.AccountFacts.sample_account (Request.mk h (fun _ => "") (fun _ => "")).

Definition deletion_scheduled (db : DB) : bool :=
  match db.(users) !! 5%N with Some u => is_Some_b u.(User.DeletedAt) | None => false end.

Example denied_deletion_is_done :
  let h := headers "Bearer tok" "curl" in
  outcome deletion_scheduled (request h "DELETE" "/api/v1/me" (deletion h) (db_with "account:delete_account"))
    = Some ([200; 403], true).
Proof. vm_compute. reflexivity. Qed.

(** The connection once the token was checked, and the state after the check of
    the permission. *)
Definition authed : Conn Body := fresh <| Ctx := mkContext (HashToken "tok") 0%N (Some 5%N) (Some 11%N) [] |>.

Lemma policy_gate_runs_late_witness :
  let h := headers "Bearer tok" "curl" in
  let rest := [RequireReauthMW "again"; deletion h] in
  let st := mkState (db_with "account:delete_account") 2 in
  exists st', RbacGuards.RequirePermission "account:delete_account" authed.(Ctx) env st = (Ok tt, st') /\
  serve (chainMW [RequirePermissionMW "account:delete_account"; PolicyGateMW policies "delete_account" "10.0.0.1" "curl"] :: rest)
    authed env st =
  (serve rest ~;; set_memory (fun c => c <| Advanced := true |>) ~;; late_gate policies "delete_account" "10.0.0.1" "curl")
    (authed <| Advanced := false |>) env st'.
Proof.
  intros h rest st.
  assert (Hok : is_ok (RbacGuards.RequirePermission "account:delete_account" authed.(Ctx) env st).1 = true) by (vm_compute; reflexivity).
  destruct (RbacGuards.RequirePermission _ _ env st) as [[[]|e] st'] eqn:E; [|done]. exists st'. split; [done|].
  apply (policy_gate_runs_late policies "account:delete_account" "delete_account" "10.0.0.1" "curl" rest authed env st st' eq_refl E).
Defined.

(** *** A long user agent *)

Fixpoint repeated (n : nat) : string := match n with O => "" | S n => "x" +:+ repeated n end.

Definition logged (db : DB) : nat := size db.(audit_logs).

Example long_user_agent_is_not_logged :
  let h := headers "Bearer tok" "curl" in
  let h' := headers "Bearer tok" (repeated 513) in
  outcome logged (request h "POST" "/api/v1/admin/users/:id/roles" (promotion h) (db_with "roles:write")) = Some ([200], 1%nat) /\
  outcome logged (request h' "POST" "/api/v1/admin/users/:id/roles" (promotion h') (db_with "roles:write")) = Some ([200], 0%nat).
Proof. split; vm_compute; reflexivity. Qed.

End RouterSample.
