(* ===== verification/OAuthHandler.v ===== *)
(** * oauth/handler.go, oauth/request_object.go: the endpoints of the OAuth service

    Signed request objects and their fetching, and the endpoints over the
    service: the requests to authorize in their three forms, the steps of the
    flow with the cookies they set, the token endpoint with its grants, the
    device flow, introspection and revocation, behind the authentication of
    clients.  The decoding of a body into its struct (gin's binding), the audit
    log and the counters of the metrics are left out. *)
From S2P Require Import Prelude.
From S2P Require Import Errors.
From S2P Require Import GoLib.
From S2P Require Import GoNet.
From S2P Require Import Model.
From S2P Require Import Platform.
From S2P Require Import Exec.
From S2P Require Import NetSafety.
From S2P Require Import Crypto.
From S2P Require Import GoEnc.
From S2P Require Import OAuthRepo.
From S2P Require Import Scopes.
From S2P Require Import ActionToken.
From S2P Require Import UserSvc.
From S2P Require Import Argon2.
From S2P Require Import OAuth.
From S2P Require Import Middleware.
From S2P Require Import Token.
From S2P Require Import Authorize.
From S2P Require Import AuthSteps.
From S2P Require Import Device.
From S2P Require Import Introspect.
From S2P Require Import ProcMem.
From S2P Require ClientAuth.
From S2P Require Import Http.
From Stdlib Require Import Ascii.
Local Open Scope Z_scope.

(** ** The libraries *)

(** [jwt.Parse] without restrictions, which answers the claims; [malformed] is the
    text of the error of [ParseUnverified]; [http_Do] answers a status and the
    body, as far as it can be read. *)
Class JarLib := {
  jar_Parse : string -> (ClientAuth.JWT.t -> result ClientAuth.verification_key) -> Z -> result (list (string * any));
  malformed : string -> string;
  http_Do : string -> Reader (Z * result (list Z))
}.

(** A token it accepts is the one [ParseUnverified] shows, signed with the key it
    was given, and its claims are those of the token. *)
Class JarLaws `{ClientAuth.JwtLib} `{JarLib} : Prop :=
  jar_Parse_sound : forall s keyfunc now claims,
    jar_Parse s keyfunc now = Ok claims ->
    exists tok key, ClientAuth.ParseUnverified s = Some tok /\ keyfunc tok = Ok key /\
      ClientAuth.signed_with s tok.(ClientAuth.JWT.Method) key = true /\ claims = tok.(ClientAuth.JWT.Claims).

(** ** The memory of the process: the two caches *)
Record Memory := mkMemory {
  jwksCache : ClientAuth.JWKSCache;
  requestObjects : gmap string (string * Z)
}.
#[export] Instance eta_Memory : Eta Memory := fun r => mkMemory (r.(jwksCache)) (r.(requestObjects)).

Definition requestObjectMaxBytes : nat := Z.to_nat (Z.shiftl 1 20).
Definition requestObjectFetchCacheTTL : Z := 5 * minute.

(** ** Requests and answers *)

Module HttpRequest.
(** A request with the client authentication's view of it, its query and its cookie. *)
Record t := mk {
  Query : string -> string;
  SessionCookie : string;
  Req : ClientAuth.Request.t
}.
Definition PostForm (r : t) : string -> string := ClientAuth.Request.PostForm r.(Req).
Definition ClientIP (r : t) : string := ClientAuth.Request.ClientIP r.(Req).
Definition UserAgent (r : t) : string := ClientAuth.Request.UserAgent r.(Req).
End HttpRequest.

Inductive SameSite := Lax | NoneMode.

(** A cookie for the path [/], over HTTPS only. *)
Record Cookie := mkCookie { ck_Name : string; ck_Value : string; ck_MaxAge : Z; ck_HttpOnly : bool; ck_SameSite : SameSite }.

Inductive Body :=
| Started (r : InitAuthorizeResponse.t)
| Completed (r : AuthorizeConsentResponse.t)
| LoggedIn (r : AuthorizeLoginResponse)
| Registered (r : AuthorizeRegisterResponse)
| Pushed (r : PARResponse)
| Tokens (r : TokenResponse.t)
| Introspected (r : IntrospectResponse.t)
| DeviceStarted (r : DeviceAuthResponse.t)
| DeviceShown (r : DeviceVerifyResponse)
| Message (m : string)
| Empty
| Failed (e : ErrorBody).

Record Reply := mkReply { status : Z; cookies : list Cookie; body : Body }.

Definition OK (b : Body) : Reply := mkReply 200 [] b.

Definition failed (e : error) : Reply := let '(code, b) := HandleError e in mkReply code [] (Failed b).

Definition sessionCookieName : string := "orionauth_sid".

Definition setSessionStateCookie (resp : AuthorizeConsentResponse.t) : list Cookie :=
  if String.eqb resp.(AuthorizeConsentResponse.SessionState) "" then []
  else [mkCookie "orionauth_session_state" resp.(AuthorizeConsentResponse.SessionState) 0 false NoneMode].

(** A persistent cookie for a session the user wanted kept. *)
Definition setSessionCookie (resp : AuthorizeConsentResponse.t) : list Cookie :=
  if String.eqb resp.(AuthorizeConsentResponse.SessionCookie) "" then []
  else
    let maxAge := if resp.(AuthorizeConsentResponse.CookieExtended) && (0 <? resp.(AuthorizeConsentResponse.CookieMaxAge))
                  then resp.(AuthorizeConsentResponse.CookieMaxAge) else 0 in
    [mkCookie sessionCookieName resp.(AuthorizeConsentResponse.SessionCookie) maxAge true Lax].

Definition session_cookies (resp : AuthorizeConsentResponse.t) : list Cookie :=
  setSessionCookie resp ++ setSessionStateCookie resp.

Definition initiated (resp : InitAuthorizeResponse.t) : Reply :=
  mkReply 200 (match resp.(InitAuthorizeResponse.Redirect) with Some r => session_cookies r | None => [] end)
    (Started resp).

Definition completion (resp : AuthorizeConsentResponse.t) : Reply := mkReply 200 (session_cookies resp) (Completed resp).

(** ** Request objects *)

(** The claims that are strings. *)
Definition string_claims (claims : list (string * any)) : list (string * string) :=
  omap (fun kv => match kv.2 with AString s => Some (kv.1, s) | _ => None end) claims.

(** [jar[k]]; an absent name reads as the empty string. *)
Fixpoint jar_get (jar : list (string * string)) (k : string) : string :=
  match jar with
  | [] => ""
  | (k0, v) :: jar => if String.eqb k0 k then v else jar_get jar k
  end.

Section merge.
Import InitAuthorizeParams.
Definition over (jar : list (string * string)) (k old : string) : string :=
  let v := jar_get jar k in if String.eqb v "" then old else v.

Definition mergeJARParams (params : t) (jar : list (string * string)) : t :=
  params
    <| RedirectURI ::= over jar "redirect_uri" |>
    <| ResponseType ::= over jar "response_type" |>
    <| Scope ::= over jar "scope" |>
    <| State ::= over jar "state" |>
    <| Nonce ::= over jar "nonce" |>
    <| CodeChallenge ::= over jar "code_challenge" |>
    <| CodeChallengeMethod ::= over jar "code_challenge_method" |>
    <| Audience ::= over jar "audience" |>
    <| Prompt ::= over jar "prompt" |>
    <| MaxAge ::= over jar "max_age" |>
    <| Display ::= over jar "display" |>
    <| LoginHint ::= over jar "login_hint" |>
    <| Claims ::= over jar "claims" |>
    <| IDTokenHint ::= over jar "id_token_hint" |>
    <| ResponseMode ::= over jar "response_mode" |>.

(** The parameters of a query or of a form. *)
Definition params_of (get : string -> string) : t :=
  mk (get "redirect_uri") (get "response_type") (get "scope") (get "state") (get "nonce")
    (get "code_challenge") (get "code_challenge_method") (get "audience") (get "prompt") (get "max_age")
    (get "display") (get "ui_locales") (get "claims_locales") (get "acr_values") (get "login_hint")
    (get "claims") (get "id_token_hint") (get "response_mode") "".
End merge.

(** The methods a request object may be signed with. *)
Definition asymmetric (tok : ClientAuth.JWT.t) : bool :=
  match tok.(ClientAuth.JWT.Method) with
  | ClientAuth.SigningMethodRSA | ClientAuth.SigningMethodRSAPSS => true
  | _ => mem tok.(ClientAuth.JWT.Alg) ["ES256"; "ES384"; "ES512"]
  end.

Definition header_text (tok : ClientAuth.JWT.t) (k : string) : string :=
  match map_get tok.(ClientAuth.JWT.Header) k with Some (AString v) => v | _ => "" end.

Definition request_keyfunc (alg : string) (pubKey : ClientAuth.RSAPublicKey) (tok : ClientAuth.JWT.t)
    : result ClientAuth.verification_key :=
  if asymmetric tok then Ok (ClientAuth.RSAKey pubKey)
  else Err (EOther ("unsupported request object alg " +:+ quoted alg)).

Abbreviation HM := (@PM Memory).

Section objects.
Context `{Platform} `{NetLib} `{ClientAuth.JwtLib} `{JarLib}.

Definition GetKey (uri kid : string) : HM ClientAuth.RSAPublicKey :=
  fun m => let! (cache, r) := ClientAuth.GetKey m.(jwksCache) uri kid ;; ret (r, m <| jwksCache := cache |>).

Definition ParseAndVerifyRequestObject (jwtStr : string) (client : OAuthClient.t) : HM (list (string * string)) :=
  let uri := default "" client.(OAuthClient.JWKSUri) in
  guardP (negb (String.eqb uri ""))
    (EOther "client has no jwks_uri configured; signed request objects are required") ~;;
  match ClientAuth.ParseUnverified jwtStr with
  | None => throwP (EOther ("malformed request object: " +:+ malformed jwtStr))
  | Some unverified =>
      let alg := header_text unverified "alg" in
      guardP (negb (String.eqb alg "" || String.eqb alg "none"))
        (EOther "request object must be signed (alg=none rejected)") ~;;
      let kid := header_text unverified "kid" in
      guardP (negb (String.eqb kid "")) (EOther "missing kid in request object header") ~;;
      pubKey <~ map_errP (GetKey uri kid)
        (fun e => EOther ("failed to resolve request object signing key: " +:+ error_string e)) ;;
      wall <~ liftP wall_now ;;
      claims <~ map_errP (of_resultP (jar_Parse jwtStr (request_keyfunc alg pubKey) wall))
        (fun e => EOther ("request object signature verification failed: " +:+ error_string e)) ;;
      retP (string_claims claims)
  end.

Definition cached_object (wall : Z) (url : string) (m : Memory) : option string :=
  match m.(requestObjects) !! url with
  | Some (body, fetchedAt) => if requestObjectFetchCacheTTL <? time_sub wall fetchedAt then None else Some body
  | None => None
  end.

Definition fetch_object (url : string) : M string :=
  match url_parse url with
  | inl e => throw (EOther ("build request: " +:+ e))
  | inr _ =>
      let! (status, body) := map_err (ask (http_Do url)) (fun e => EOther ("fetch request_uri: " +:+ error_string e)) ;;
      guard (status =? 200) (EOther ("request_uri returned status " +:+ dec status)) ;;;
      body <- map_err (of_result body) (fun e => EOther ("read request_uri body: " +:+ error_string e)) ;;
      guard (Nat.leb (length body) requestObjectMaxBytes)
        (EOther ("request_uri body exceeds " +:+ dec (Z.of_nat requestObjectMaxBytes) +:+ " bytes")) ;;;
      ret (string_of_bytes body)
  end.

Definition FetchRequestURI (url : string) : HM string :=
  wall <~ liftP wall_now ;;
  m <~ memory ;;
  match cached_object wall url m with
  | Some body => retP body
  | None =>
      body <~ liftP (fetch_object url) ;;
      wall <~ liftP wall_now ;;
      set_memory (fun m => m <| requestObjects ::= insert url (body, wall) |>) ~;;
      retP body
  end.
End objects.

(** ** The endpoints *)

(** What a body is decoded into, or the text of the error. *)
Definition bind_json {A} (input : string + A) : HM A :=
  match input with
  | inl e => throwP (ErrInvalidRequest ("invalid request body: " +:+ e))
  | inr a => retP a
  end.

(** An error is an answer like another. *)
Definition respond (m : HM Reply) : HM Reply :=
  r <~ attemptP m ;;
  retP (match r with Ok reply => reply | Err e => failed e end).

Module DeviceApproval.
(** The body of a device's approval. *)
Record t := mk { UserCode : string; Approved : bool; Email : string; Password : string }.
End DeviceApproval.

Module OAuthHandler.
Section handler.
Context `{Platform} `{ActionToken.JwtLib} `{NetLib} `{Argon2Lib} `{ClientAuth.JwtLib} `{JarLib}.
Context (s : OAuth.Service) (cfg : ClientAuth.Config) (issuer : string).

Definition par_prefix : string := "urn:ietf:params:oauth:request_uri:".

(** A request by reference: a pushed one, or an object at a registered address. *)
Definition authorize_by_reference (r : HttpRequest.t) (requestURI : string) : HM Reply :=
  let clientID := r.(HttpRequest.Query) "client_id" in
  let sid := r.(HttpRequest.SessionCookie) in
  if has_prefix par_prefix requestURI then
    resp <~ liftP (InitAuthorizeFromPAR s requestURI clientID sid) ;;
    retP (initiated resp)
  else
    client <~ liftP (findClient clientID) ;;
    guardP (OAuthClient.HasRequestURI client requestURI)
      (ErrInvalidRequest "request_uri is not registered for this client") ~;;
    body <~ map_errP (FetchRequestURI requestURI)
      (fun e => ErrInvalidRequest ("failed to fetch request_uri: " +:+ error_string e)) ;;
    jar <~ map_errP (ParseAndVerifyRequestObject body client)
      (fun e => ErrInvalidRequest ("invalid remote request object: " +:+ error_string e)) ;;
    let params := mergeJARParams (InitAuthorizeParams.zero <| InitAuthorizeParams.SessionCookie := sid |>) jar in
    resp <~ liftP (InitAuthorize s client params) ;;
    retP (initiated resp).

(** The parameters of the query, under those of an object in it. *)
Definition inline_params (r : HttpRequest.t) (client : OAuthClient.t) : HM InitAuthorizeParams.t :=
  let params := params_of r.(HttpRequest.Query) in
  let requestJWT := r.(HttpRequest.Query) "request" in
  if String.eqb requestJWT "" then retP params
  else
    jar <~ map_errP (ParseAndVerifyRequestObject requestJWT client)
      (fun e => ErrInvalidRequest ("invalid request object: " +:+ error_string e)) ;;
    retP (mergeJARParams params jar).

Definition Authorize (r : HttpRequest.t) : HM Reply :=
  let clientID := r.(HttpRequest.Query) "client_id" in
  guardP (negb (String.eqb clientID "")) (ErrInvalidRequest "missing client_id") ~;;
  let requestURI := r.(HttpRequest.Query) "request_uri" in
  if negb (String.eqb requestURI "") then authorize_by_reference r requestURI
  else
    client <~ liftP (findClient clientID) ;;
    params <~ inline_params r client ;;
    resp <~ liftP (InitAuthorize s client
              (params <| InitAuthorizeParams.SessionCookie := r.(HttpRequest.SessionCookie) |>)) ;;
    retP (initiated resp).

Definition PushedAuthorization (client : OAuthClient.t) (r : HttpRequest.t) : HM Reply :=
  resp <~ liftP (CreatePAR client (params_of (HttpRequest.PostForm r))) ;;
  retP (mkReply 201 [] (Pushed resp)).

(** *** The steps of the flow *)

(** Without a consent to ask for, the request is completed in the same answer. *)
Definition after_factor (r : HttpRequest.t) (resp : AuthorizeLoginResponse) : HM Reply :=
  if resp.(login_RequiresConsent) then retP (OK (LoggedIn resp))
  else
    codeResp <~ liftP (CompleteAuthorizeFirstParty s resp.(login_RequestID)
                         (HttpRequest.ClientIP r) (HttpRequest.UserAgent r)) ;;
    retP (completion codeResp).

Definition AuthorizeLogin (r : HttpRequest.t) (input : string + AuthorizeLoginInput) : HM Reply :=
  input <~ bind_json input ;;
  resp <~ liftP (AuthSteps.AuthorizeLogin s input (HttpRequest.ClientIP r) (HttpRequest.UserAgent r)) ;;
  after_factor r resp.

Definition AuthorizeRegister (r : HttpRequest.t) (input : string + AuthorizeRegisterInput) : HM Reply :=
  input <~ bind_json input ;;
  resp <~ liftP (AuthSteps.AuthorizeRegister s input (HttpRequest.ClientIP r) (HttpRequest.UserAgent r)) ;;
  retP (OK (Registered resp)).

Definition AuthorizeMFA (r : HttpRequest.t) (input : string + UUID * string) : HM Reply :=
  input <~ bind_json input ;;
  resp <~ liftP (AuthSteps.AuthorizeMFA s input.1 input.2) ;;
  after_factor r resp.

Definition AuthorizeConsent (r : HttpRequest.t) (input : string + UUID * list string) : HM Reply :=
  input <~ bind_json input ;;
  resp <~ liftP (AuthSteps.AuthorizeConsent s input.1 input.2 (HttpRequest.ClientIP r) (HttpRequest.UserAgent r)) ;;
  retP (completion resp).

(** *** The token endpoint *)

Definition tokens (m : M TokenResponse.t) : HM Reply := resp <~ liftP m ;; retP (OK (Tokens resp)).

Definition handleAuthorizationCodeGrant (r : HttpRequest.t) (client : OAuthClient.t) : HM Reply :=
  let form := HttpRequest.PostForm r in
  guardP (negb (String.eqb (form "code") "")) (ErrInvalidRequest "missing code") ~;;
  guardP (negb (String.eqb (form "redirect_uri") "")) (ErrInvalidRequest "missing redirect_uri") ~;;
  tokens (ExchangeAuthorizationCode s client (form "code") (form "redirect_uri") (form "code_verifier")).

Definition handleClientCredentialsGrant (r : HttpRequest.t) (client : OAuthClient.t) : HM Reply :=
  tokens (ExchangeClientCredentials s client (HttpRequest.PostForm r "scope") (HttpRequest.PostForm r "audience")).

Definition handleRefreshTokenGrant (r : HttpRequest.t) (client : OAuthClient.t) : HM Reply :=
  let form := HttpRequest.PostForm r in
  guardP (negb (String.eqb (form "refresh_token") "")) (ErrInvalidRequest "missing refresh_token") ~;;
  tokens (ExchangeRefreshToken s client (form "refresh_token") (form "scope")).

Definition handleDeviceCodeGrant (r : HttpRequest.t) (client : OAuthClient.t) : HM Reply :=
  let form := HttpRequest.PostForm r in
  guardP (negb (String.eqb (form "device_code") "")) (ErrInvalidRequest "missing device_code") ~;;
  tokens (ExchangeDeviceCode s client (form "device_code")).

Definition Token (client : OAuthClient.t) (r : HttpRequest.t) : HM Reply :=
  let grantType := HttpRequest.PostForm r "grant_type" in
  if String.eqb grantType "authorization_code" then handleAuthorizationCodeGrant r client
  else if String.eqb grantType "client_credentials" then handleClientCredentialsGrant r client
  else if String.eqb grantType "refresh_token" then handleRefreshTokenGrant r client
  else if String.eqb grantType "urn:ietf:params:oauth:grant-type:device_code" then handleDeviceCodeGrant r client
  else throwP (ErrUnsupportedGrantType ("unsupported grant_type: " +:+ grantType)).

Definition Introspect (client : OAuthClient.t) (r : HttpRequest.t) : HM Reply :=
  let form := HttpRequest.PostForm r in
  resp <~ liftP (Introspect.Introspect s (form "token") (form "token_type_hint") issuer client.(OAuthClient.ID)) ;;
  retP (OK (Introspected resp)).

Definition Revoke (client : OAuthClient.t) (r : HttpRequest.t) : HM Reply :=
  let form := HttpRequest.PostForm r in
  liftP (Introspect.Revoke s (form "token") (form "token_type_hint") client) ~;;
  retP (OK Empty).

(** *** The device flow *)

Definition DeviceAuthorization (client : OAuthClient.t) (r : HttpRequest.t) : HM Reply :=
  resp <~ liftP (InitDeviceAuthorization s client (HttpRequest.PostForm r "scope") issuer) ;;
  retP (OK (DeviceStarted resp)).

Definition DeviceVerify (input : string + string) : HM Reply :=
  userCode <~ bind_json input ;;
  resp <~ liftP (Device.DeviceVerify userCode) ;;
  retP (OK (DeviceShown resp)).

(** The account is authenticated by its password. *)
Definition DeviceApprove (r : HttpRequest.t) (input : string + DeviceApproval.t) : HM Reply :=
  input <~ bind_json input ;;
  u <~ liftP (UserSvc.Authenticate s.(userService)
         (UserSvc.mkLoginInput input.(DeviceApproval.Email) input.(DeviceApproval.Password))) ;;
  liftP (Device.DeviceApprove s (mkDeviceApproveInput input.(DeviceApproval.UserCode) input.(DeviceApproval.Approved))
           u.(User.ID) (HttpRequest.ClientIP r) (HttpRequest.UserAgent r)) ~;;
  retP (OK (Message (if input.(DeviceApproval.Approved) then "device authorization approved"
                     else "device authorization denied"))).

(** *** The routes *)

(** The client of a request, by the middleware. *)
Definition clientAuth (r : HttpRequest.t) : HM OAuthClient.t :=
  fun m => let! (cache, c) := ClientAuth.ClientAuth cfg m.(jwksCache) r.(HttpRequest.Req) ;;
           ret (c, m <| jwksCache := cache |>).

Definition with_client (r : HttpRequest.t) (k : OAuthClient.t -> HttpRequest.t -> HM Reply) : HM Reply :=
  client <~ clientAuth r ;;
  k client r.

Inductive Route :=
| GetAuthorize
| PostLogin (input : string + AuthorizeLoginInput)
| PostRegister (input : string + AuthorizeRegisterInput)
| PostMFA (input : string + UUID * string)
| PostConsent (input : string + UUID * list string)
| PostToken
| PostDeviceAuthorization
| PostDeviceVerify (input : string + string)
| PostDeviceApprove (input : string + DeviceApproval.t)
| PostPAR
| PostIntrospect
| PostRevoke.

Definition serve (route : Route) (r : HttpRequest.t) : HM Reply :=
  respond match route with
          | GetAuthorize => Authorize r
          | PostLogin i => AuthorizeLogin r i
          | PostRegister i => AuthorizeRegister r i
          | PostMFA i => AuthorizeMFA r i
          | PostConsent i => AuthorizeConsent r i
          | PostToken => with_client r Token
          | PostDeviceAuthorization => with_client r DeviceAuthorization
          | PostDeviceVerify i => DeviceVerify i
          | PostDeviceApprove i => DeviceApprove r i
          | PostPAR => with_client r PushedAuthorization
          | PostIntrospect => with_client r Introspect
          | PostRevoke => with_client r Revoke
          end.
End handler.
End OAuthHandler.
