(* ===== verification/OAuthHandlerFacts.v ===== *)
(** * oauth/handler.go: theorems

    Request objects are taken only with a signature by the client's keys; and a
    cookie that an endpoint sets in a sign-in is the one of a session the same
    request opened. *)
From S2P Require Import Prelude.
From S2P Require Import Errors.
From S2P Require Import GoLib.
From S2P Require Import GoNet.
From S2P Require Import Model.
From S2P Require Import Platform.
From S2P Require Import Exec.
From S2P Require Import NetSafety.
From S2P Require Import Crypto.
From S2P Require Import SessionSvc.
From S2P Require Import OAuthRepo.
From S2P Require Import Scopes.
From S2P Require Import ActionToken.
From S2P Require Import UserSvc.
From S2P Require Import Argon2.
From S2P Require Import OAuth.
From S2P Require Import Token.
From S2P Require Import Authorize.
From S2P Require Import AuthSteps.
From S2P Require Import AuthFacts.
From S2P Require Import ProcMem.
From S2P Require ClientAuth.
From S2P Require Import Http.
From S2P Require Import OAuthHandler.
Local Open Scope Z_scope.

Module HandlerFacts.
Import OAuthHandler.

(** ** Rules: nothing is known of a part *)

Lemma wp_any {A} (m : M A) (Q : result A -> State -> Prop) env st : (forall r st', Q r st') -> wp m Q env st.
Proof. intros HQ. apply HQ. Qed.

Lemma wp_bind_any {A B} (m : M A) (k : A -> M B) (Q : result B -> State -> Prop) env st :
  (forall a st', wp (k a) Q env st') -> (forall e st', Q (Err e) st') -> wp (bind m k) Q env st.
Proof. intros Hk He. apply wp_bind, wp_any. intros [a|e] st'; auto. Qed.

Lemma wp_bindP_any {A B} (m : HM A) (k : A -> HM B) mem (Q : result (result B * Memory) -> State -> Prop) env st :
  (forall a mem' st', wp (k a mem') Q env st') -> (forall e mem' st', Q (Ok (Err e, mem')) st') ->
  (forall e st', Q (Err e) st') -> wp (bindP m k mem) Q env st.
Proof. intros Hk He Hf. apply wp_bindP, wp_any. intros [[[a|e] mem']|e] st'; auto. Qed.

Lemma wp_bind_same {T A B} (t : DB -> T) (m : M A) (k : A -> M B) (Q : result B -> State -> Prop) env st :
  Preserves (same t) m -> (forall a st', t st'.(st_db) = t st.(st_db) -> wp (k a) Q env st') ->
  (forall e st', Q (Err e) st') -> wp (bind m k) Q env st.
Proof.
  intros Hm Hk He. apply wp_bind. eapply wp_preserves; [exact Hm|]. intros [a|e] st' Hs; [by apply Hk | apply He].
Qed.

Section facts.
Context `{Platform} `{ActionToken.JwtLib} `{NetLib} `{Argon2Lib} `{ClientAuth.JwtLib} `{JarLib} `{!JarLaws}.
Context (s : OAuth.Service) (cfg : ClientAuth.Config) (issuer : string).

(** ** Request objects *)

(** An object the client signed: with the key of that name in a fresh copy of its
    document, by a method that is neither none nor symmetric. *)
Definition signed_by_client (env : Env) (mem : Memory) (client : OAuthClient.t) (jwt : string)
    (tok : ClientAuth.JWT.t) : Prop :=
  ClientAuth.ParseUnverified jwt = Some tok /\
  header_text tok "alg" <> "" /\ header_text tok "alg" <> "none" /\ asymmetric tok = true /\
  exists uri pub, client.(OAuthClient.JWKSUri) = Some uri /\ uri <> "" /\
    ClientAuth.ClientAuthFacts.published env mem.(jwksCache) uri (header_text tok "kid") pub /\
    ClientAuth.signed_with jwt tok.(ClientAuth.JWT.Method) (ClientAuth.RSAKey pub) = true.

Lemma wp_GetKey_mem mem uri kid env st (Q : result (result ClientAuth.RSAPublicKey * Memory) -> State -> Prop) :
  (forall cache r n, (forall key, r = Ok key -> ClientAuth.ClientAuthFacts.published env cache uri kid key) ->
     Q (Ok (r, mem <| jwksCache := cache |>)) (mkState st.(st_db) n)) ->
  wp (GetKey uri kid mem) Q env st.
Proof.
  intros HQ. apply wp_bind, ClientAuth.ClientAuthFacts.wp_GetKey. intros c' r n _ Hp. apply wp_ret. by apply HQ.
Qed.

Lemma wp_ParseAndVerify jwt client mem env st (Q : result (result (list (string * string)) * Memory) -> State -> Prop) :
  (forall e mem' n, Q (Ok (Err e, mem')) (mkState st.(st_db) n)) ->
  (forall tok mem' n, signed_by_client env mem' client jwt tok ->
     Q (Ok (Ok (string_claims tok.(ClientAuth.JWT.Claims)), mem')) (mkState st.(st_db) n)) ->
  wp (ParseAndVerifyRequestObject jwt client mem) Q env st.
Proof.
  intros He Hok. unfold ParseAndVerifyRequestObject. destruct st as [db n0]. simpl in He, Hok.
  set (uri := default "" client.(OAuthClient.JWKSUri)).
  destruct (String.eqb_spec uri "") as [|Huri]; [apply wp_bindP, wp_ret, He|]. apply wp_bindP, wp_ret.
  destruct (ClientAuth.ParseUnverified jwt) as [tok|] eqn:Ht; [|apply wp_ret, He].
  destruct (String.eqb_spec (header_text tok "alg") "") as [|Ha]; [apply wp_bindP, wp_ret, He|].
  destruct (String.eqb_spec (header_text tok "alg") "none") as [|Hn]; [apply wp_bindP, wp_ret, He|]. apply wp_bindP, wp_ret.
  destruct (String.eqb_spec (header_text tok "kid") "") as [|Hk]; [apply wp_bindP, wp_ret, He|]. apply wp_bindP, wp_ret.
  apply wp_bindP, wp_map_errP, wp_GetKey_mem. intros cache r n Hp. destruct r as [pub|e]; [|apply He].
  apply wp_bindP, wp_liftP, wp_wall_now. apply wp_bindP, wp_map_errP.
  destruct (jar_Parse jwt _ _) as [claims|e] eqn:Hparse; [|apply wp_ret, He]. apply wp_ret.
  destruct (jar_Parse_sound _ _ _ _ Hparse) as (tok' & key & Ht' & Hkey & Hsig & ->).
  assert (tok' = tok) as -> by congruence. unfold request_keyfunc in Hkey. destruct (asymmetric tok) eqn:Hm; [|done].
  injection Hkey as <-. apply wp_ret, (Hok tok). split_and!; try done.
  exists uri, pub. split_and!; [|done|by apply Hp|done]. subst uri. by destruct client.(OAuthClient.JWKSUri).
Qed.

#[export] Instance fetch_object_read_only url : ReadOnly (fetch_object url).
Proof. unfold fetch_object. solve_preserves ltac:(idtac). Qed.

Lemma wp_FetchRequestURI url mem env st (Q : result (result string * Memory) -> State -> Prop) :
  (forall r mem' n, Q (Ok (r, mem')) (mkState st.(st_db) n)) -> wp (FetchRequestURI url mem) Q env st.
Proof.
  intros HQ. destruct st as [db n0]. unfold FetchRequestURI. apply wp_bindP, wp_liftP, wp_wall_now.
  apply wp_bindP, wp_ret. destruct (cached_object _ _ _); [by apply wp_ret|].
  apply wp_bindP, wp_liftP, wp_read_only; [apply _|]. intros [b|e] n; [|by apply (HQ _ mem n)].
  apply wp_bindP, wp_liftP, wp_wall_now. apply wp_bindP, wp_ret, wp_ret, HQ.
Qed.

(** A request that comes as an object: in the query, or at a registered address. *)
Definition object_of (r : HttpRequest.t) (client : OAuthClient.t) (jwt : string) : Prop :=
  let uri := r.(HttpRequest.Query) "request_uri" in
  if String.eqb uri "" then jwt = r.(HttpRequest.Query) "request" else uri ∈ client.(OAuthClient.RequestURIs).

(** The answer is that of the service to the parameters the object overrides. *)
Definition started_from (env : Env) (db : DB) (r : HttpRequest.t) (mem' : Memory) (reply : Reply) (db' : DB) : Prop :=
  exists client jwt tok params st st' resp,
    (exists id, db.(oauth_clients) !! id = Some client) /\ client.(OAuthClient.Active) = true /\
    object_of r client jwt /\ signed_by_client env mem' client jwt tok /\
    InitAuthorize s client
      ((mergeJARParams params (string_claims tok.(ClientAuth.JWT.Claims)))
         <| InitAuthorizeParams.SessionCookie := r.(HttpRequest.SessionCookie) |>) env st = (Ok resp, st') /\
    st.(st_db) = db /\ st'.(st_db) = db' /\ reply = initiated resp.

Definition by_object (r : HttpRequest.t) : Prop :=
  let uri := r.(HttpRequest.Query) "request_uri" in
  (uri <> "" /\ has_prefix par_prefix uri = false) \/ (uri = "" /\ r.(HttpRequest.Query) "request" <> "").

Lemma wp_findClient_active id env st (Q : result OAuthClient.t -> State -> Prop) :
  (forall e n, Q (Err e) (mkState st.(st_db) n)) ->
  (forall u client n, st.(st_db).(oauth_clients) !! u = Some client -> client.(OAuthClient.Active) = true ->
     Q (Ok client) (mkState st.(st_db) n)) ->
  wp (findClient id) Q env st.
Proof.
  intros He Hok. destruct st as [db n0]. unfold findClient. destruct (uuid_parse id) as [u|]; [|apply wp_throw, He].
  apply wp_bind, wp_find_row; intros _; [apply wp_throw, He|]. cbn [st_db].
  destruct (_ ≫= _) as [c|] eqn:Hc; [|apply wp_throw, He].
  apply bind_Some in Hc as (c' & Hc & Ha). destruct (OAuthClient.Active c') eqn:Hact; [|done]. injection Ha as ->.
  apply wp_ret. by eapply Hok.
Qed.

Lemma merge_keeps_cookie params jar sid :
  mergeJARParams (params <| InitAuthorizeParams.SessionCookie := sid |>) jar
  = (mergeJARParams params jar) <| InitAuthorizeParams.SessionCookie := sid |>.
Proof. by destruct params. Qed.

Lemma wp_initiate env db n mem client params (Q : result (result Reply * Memory) -> State -> Prop) :
  (forall e st', Q (Ok (Err e, mem)) st') ->
  (forall resp st', InitAuthorize s client params env (mkState db n) = (Ok resp, st') ->
     Q (Ok (Ok (initiated resp), mem)) st') ->
  wp (bindP (liftP (InitAuthorize s client params)) (fun resp => retP (initiated resp)) mem) Q env (mkState db n).
Proof.
  intros He Hok. apply wp_bindP, wp_liftP. unfold wp at 1.
  destruct (InitAuthorize s client params env (mkState db n)) as [[resp|e] st'] eqn:E; [|apply He].
  apply wp_ret. by apply Hok.
Qed.


(** ** The cookie of a sign-in *)

(** The session a cookie opens: live, made now, and known by the digest of the cookie. *)
Definition opens (env : Env) (db : DB) (cookie : string) : Prop := exists id row,
  db.(sessions) !! id = Some row /\ row.(Session.CookieTokenHash) = HashToken cookie /\
  row.(Session.CookieToken) = "" /\ row.(Session.Revoked) = false /\
  row.(Session.AuthenticatedAt) = env.(env_now) /\
  exists extended, row.(Session.ExpiresAt) = env.(env_now) + SessionSvc.resolveTTL s.(sessionService) extended.

(** A part of the answer that keeps the cookie, and the sessions. *)
Definition cookie_kept (resp : AuthorizeConsentResponse.t) (t : gmap UUID Session.t)
    (r : result AuthorizeConsentResponse.t) (st' : State) : Prop :=
  match r with
  | Ok resp' => st'.(st_db).(sessions) = t /\
      resp'.(AuthorizeConsentResponse.SessionCookie) = resp.(AuthorizeConsentResponse.SessionCookie)
  | Err _ => True
  end.

#[local] Ltac keeps_sessions :=
  unfold CreateAccessToken, CreateAuthCode, DeleteAuthRequest, GenerateOpaqueToken;
  solve_preserves ltac:(first
    [apply preserves_read_only; side; solve [apply _]
    | apply (preserves_create_in (same sessions)); side; done
    | apply (preserves_update_table (same sessions)); side; done]).
#[local] Ltac same_sessions := apply (wp_bind_same sessions); [solve [keeps_sessions] | | by intros].

Lemma wp_hybridAccessToken_cookie req sess resp env st :
  wp (hybridAccessToken req sess resp) (cookie_kept resp st.(st_db).(sessions)) env st.
Proof.
  unfold hybridAccessToken. destruct (responseTypeIncludes _ _); [|by apply wp_ret].
  same_sessions. intros client st1 E1. same_sessions. intros [rawAT atHash] st2 E2. same_sessions. intros now st3 E3.
  same_sessions. intros ? st4 E4. apply wp_ret. split; [congruence | done].
Qed.

Lemma wp_hybridIDToken_cookie req uid raw resp env st :
  wp (hybridIDToken s req uid raw resp) (cookie_kept resp st.(st_db).(sessions)) env st.
Proof.
  unfold hybridIDToken. destruct (idTokenGen s) as [gen|]; [|by apply wp_ret].
  destruct (responseTypeIncludes _ _); [|by apply wp_ret].
  same_sessions. intros client st1 E1. same_sessions. intros now st2 E2.
  destruct (computeACR _) as [acr amr]. cbv zeta. same_sessions. intros t st3 E3. apply wp_ret.
  split; [congruence | by destruct t].
Qed.

Lemma wp_completeAuthorize_cookie req ip ua env st (Huuid : forall n, env.(env_uuid) n <> uuid_nil) :
  wp (completeAuthorize s req ip ua) (fun r st' => forall resp, r = Ok resp ->
    opens env st'.(st_db) resp.(AuthorizeConsentResponse.SessionCookie)) env st.
Proof.
  unfold completeAuthorize. apply wp_bind_any; [|by intros]. intros uid st0. apply wp_bind, wp_or_fail.
  eapply wp_mono; [|apply (SessionFacts.Create_spec s.(sessionService) _ env st0 Huuid)].
  intros [sess|e] st1; [|done]. intros (row & Hdb & _ & _ & Hct & Hhash & Hrev & Hexp & Hauth).
  assert (Hopen : opens env st1.(st_db) sess.(Session.CookieToken)).
  { exists sess.(Session.ID), row. split_and!; try done; [|by eexists].
    rewrite Hdb. apply lookup_insert_eq. }
  assert (Hk : forall db', db'.(sessions) = st1.(st_db).(sessions) -> opens env db' sess.(Session.CookieToken))
    by (intros db' He; unfold opens; rewrite He; exact Hopen).
  same_sessions. intros _ st2 E2. same_sessions. intros [rawCode codeHash] st3 E3. same_sessions. intros now st4 E4.
  same_sessions. intros _ st5 E5. same_sessions. intros sessionState st6 E6. cbv zeta.
  assert (E : st6.(st_db).(sessions) = st1.(st_db).(sessions)) by congruence.
  destruct (isHybridResponseType _).
  - apply wp_bind. eapply wp_mono; [|apply wp_hybridAccessToken_cookie]. intros [resp|e] st7; [|done].
    intros [E7 Hc]. eapply wp_mono; [|apply wp_hybridIDToken_cookie]. intros [resp2|e] st8; [|done].
    intros [E8 Hc2] ? [= <-]. rewrite Hc2, Hc. destruct (String.eqb _ _); apply Hk; congruence.
  - apply wp_ret. intros ? [= <-]. apply Hk. exact E.
Qed.

Context (env : Env) (Huuid : forall n, env.(env_uuid) n <> uuid_nil).

Definition redirect_opens (r : result InitAuthorizeResponse.t) (st' : State) : Prop :=
  forall resp c, r = Ok resp -> resp.(InitAuthorizeResponse.Redirect) = Some c ->
    opens env st'.(st_db) c.(AuthorizeConsentResponse.SessionCookie).

Lemma wp_completed client id scopes req ip ua st :
  wp (redirect <- completeAuthorize s req ip ua ;; ret (completed client id scopes redirect)) redirect_opens env st.
Proof.
  apply wp_bind. eapply wp_mono; [|by apply wp_completeAuthorize_cookie]. intros [c|e] st1 Hc; [|by intros].
  apply wp_ret. intros ? ? [= <-] [= <-]. by apply Hc.
Qed.

#[local] Ltac any := repeat first [apply wp_completed | by apply wp_completeAuthorize_cookie | apply wp_bind_any; [intros ? ?|by intros]].

Lemma wp_silentSSO_cookie client params scopes audience resource maxAge st :
  wp (silentSSO s client params scopes audience resource maxAge) redirect_opens env st.
Proof.
  unfold silentSSO. apply wp_bind_any; [|by intros]. intros [sess|] st1; [|by intros]. any.
  destruct (if String.eqb _ _ then true else _); [|apply wp_completed]. apply wp_ret. by intros ? ? [= <-].
Qed.

Lemma wp_InitAuthorize_cookie client params st : wp (InitAuthorize s client params) redirect_opens env st.
Proof.
  unfold InitAuthorize. apply wp_bind_any; [|by intros]. intros [p maxAge] st1.
  apply wp_bind_any; [|by intros]. intros [[scopes audience] resource] st2.
  destruct (String.eqb _ "none").
  { unfold handlePromptNone. destruct (idTokenValidator s); [|by intros]. any. }
  assert (Hstart : forall st3, wp (startInteractive client p scopes audience resource maxAge) redirect_opens env st3).
  { intros st3. unfold startInteractive. any. apply wp_ret. by intros ? ? [= <-]. }
  destruct (_ && _).
  - apply wp_bind. unfold trySilentSSO. apply wp_opt. eapply wp_mono; [|apply wp_silentSSO_cookie].
    intros [resp|e] st3 Hr; [|apply Hstart]. apply wp_ret. exact Hr.
  - apply wp_bind, wp_ret, Hstart.
Qed.

Lemma wp_InitAuthorizeFromPAR_cookie uri id sid st : wp (InitAuthorizeFromPAR s uri id sid) redirect_opens env st.
Proof.
  unfold InitAuthorizeFromPAR. apply wp_bind_any; [|by intros]. intros [[par|] [e|]] st1; try by intros.
  do 2 (apply wp_bind_any; [intros ? ?|by intros]). destruct (InitAuthorizeParams.unmarshal _); [|by intros].
  apply wp_bind_any; [intros ? ?|by intros]. apply wp_InitAuthorize_cookie.
Qed.

(** *** In the answers *)

Lemma in_session_cookies resp c : c ∈ session_cookies resp -> c.(ck_Name) = sessionCookieName ->
  c.(ck_Value) = resp.(AuthorizeConsentResponse.SessionCookie) /\ c.(ck_HttpOnly) = true.
Proof.
  unfold session_cookies, setSessionCookie, setSessionStateCookie. intros Hc Hn.
  apply elem_of_app in Hc as [Hc|Hc]; destruct (String.eqb _ ""); try by apply elem_of_nil in Hc.
  - apply list_elem_of_singleton in Hc as ->. done.
  - apply list_elem_of_singleton in Hc as ->. discriminate Hn.
Qed.

(** An answer whose cookie of a sign-in opens a session. *)
Definition sign_in_opens (r : result (result Reply * Memory)) (st' : State) : Prop :=
  forall reply mem c, r = Ok (Ok reply, mem) -> c ∈ reply.(cookies) -> c.(ck_Name) = sessionCookieName ->
    opens env st'.(st_db) c.(ck_Value) /\ c.(ck_HttpOnly) = true.

Definition no_cookie (r : Reply) : Prop := r.(cookies) = [].

Lemma plain_reply_opens reply mem st : no_cookie reply -> sign_in_opens (Ok (Ok reply, mem)) st.
Proof. intros Hn reply' mem' c [= <- <-] Hc. rewrite Hn in Hc. by apply elem_of_nil in Hc. Qed.

Lemma wp_completion m mem st :
  (forall st1, wp m (fun r st' => forall resp, r = Ok resp ->
     opens env st'.(st_db) resp.(AuthorizeConsentResponse.SessionCookie)) env st1) ->
  wp (bindP (liftP m) (fun resp => retP (completion resp)) mem) sign_in_opens env st.
Proof.
  intros Hm. apply wp_bindP, wp_liftP. eapply wp_mono; [|apply Hm]. intros [resp|e] st1 Hr; [|by intros].
  apply wp_ret. intros reply mem' c [= <- <-] Hc Hn. destruct (in_session_cookies resp c Hc Hn) as [-> ->].
  split; [by apply Hr | done].
Qed.

Lemma wp_initiation m mem st :
  (forall st1, wp m redirect_opens env st1) ->
  wp (bindP (liftP m) (fun resp => retP (initiated resp)) mem) sign_in_opens env st.
Proof.
  intros Hm. apply wp_bindP, wp_liftP. eapply wp_mono; [|apply Hm]. intros [resp|e] st1 Hr; [|by intros].
  apply wp_ret. intros reply mem' c [= <- <-] Hc Hn. simpl in Hc.
  destruct (InitAuthorizeResponse.Redirect resp) as [redirect|] eqn:Er; [|by apply elem_of_nil in Hc].
  destruct (in_session_cookies redirect c Hc Hn) as [-> ->]. split; [by eapply Hr | done].
Qed.

Lemma wp_FirstParty_cookie id ip ua st :
  wp (CompleteAuthorizeFirstParty s id ip ua) (fun r st' => forall resp, r = Ok resp ->
    opens env st'.(st_db) resp.(AuthorizeConsentResponse.SessionCookie)) env st.
Proof.
  unfold CompleteAuthorizeFirstParty. apply wp_bind_any; [|by intros]. intros [[req|] [e|]] st1; try by intros.
  any.
Qed.

Lemma wp_Consent_cookie id scopes ip ua st :
  wp (AuthSteps.AuthorizeConsent s id scopes ip ua) (fun r st' => forall resp, r = Ok resp ->
    opens env st'.(st_db) resp.(AuthorizeConsentResponse.SessionCookie)) env st.
Proof.
  unfold AuthSteps.AuthorizeConsent. any. destruct (AuthorizationRequest.UserID _); [|by intros]. any.
Qed.

Lemma wp_respond m mem st : wp (m mem) sign_in_opens env st -> wp (respond m mem) sign_in_opens env st.
Proof.
  intros Hm. apply wp_bindP, wp_attemptP. eapply wp_mono; [|exact Hm]. intros [[[reply|e] mem']|e] st' Hr; [| |done].
  - apply wp_ret. intros reply' mem2 c [= <- <-]. by eapply Hr.
  - apply wp_ret, plain_reply_opens. unfold no_cookie, failed. by destruct (HandleError e).
Qed.

#[local] Ltac steps := repeat first
  [ apply wp_initiation; intros ?; first [apply wp_InitAuthorize_cookie | apply wp_InitAuthorizeFromPAR_cookie]
  | apply wp_completion; intros ?; first [apply wp_FirstParty_cookie | apply wp_Consent_cookie]
  | apply wp_ret, plain_reply_opens; reflexivity
  | apply wp_bindP_any; [intros ? ? ? | by intros | by intros] ].

Lemma wp_Authorize_cookie r mem st : wp (Authorize s r mem) sign_in_opens env st.
Proof.
  unfold Authorize. apply wp_bindP_any; [intros _ mem1 st1 | by intros | by intros].
  destruct (negb _); [|steps]. unfold authorize_by_reference. destruct (has_prefix _ _); steps.
Qed.

Lemma wp_after_factor r resp mem st : wp (after_factor s r resp mem) sign_in_opens env st.
Proof. unfold after_factor. destruct (login_RequiresConsent resp); steps. Qed.

Lemma wp_Token_cookie client r mem st : wp (OAuthHandler.Token s client r mem) sign_in_opens env st.
Proof.
  unfold OAuthHandler.Token, handleAuthorizationCodeGrant, handleClientCredentialsGrant, handleRefreshTokenGrant,
    handleDeviceCodeGrant, tokens. repeat (destruct (String.eqb _ _)); try by intros. all: steps.
Qed.

(** C24: Whatever a browser asks of whichever endpoint: a cookie of a sign-in that is
    set is hidden from scripts and opens a session that is there, live, made at
    that moment and known only by the digest of the cookie. *)
Theorem sign_in_cookies_open_sessions (route : Route) (r : HttpRequest.t) (mem : Memory) (db : DB) :
  let '(res, db') := run (serve s cfg issuer route r mem) env db in
  forall reply mem' c, res = Ok (Ok reply, mem') -> c ∈ reply.(cookies) -> c.(ck_Name) = sessionCookieName ->
    opens env db' c.(ck_Value) /\ c.(ck_HttpOnly) = true.
Proof.
  apply (run_wp _ (fun res db' => forall reply mem' c, res = Ok (Ok reply, mem') -> c ∈ reply.(cookies) ->
    c.(ck_Name) = sessionCookieName -> opens env db' c.(ck_Value) /\ c.(ck_HttpOnly) = true)).
  unfold serve. apply (wp_respond _ mem (mkState db 0)). destruct route.
  - apply wp_Authorize_cookie.
  - unfold OAuthHandler.AuthorizeLogin. do 2 (apply wp_bindP_any; [intros ? ? ? | by intros | by intros]). apply wp_after_factor.
  - unfold OAuthHandler.AuthorizeRegister. steps.
  - unfold OAuthHandler.AuthorizeMFA. do 2 (apply wp_bindP_any; [intros ? ? ? | by intros | by intros]). apply wp_after_factor.
  - unfold OAuthHandler.AuthorizeConsent. steps.
  - apply wp_bindP_any; [intros ? ? ? | by intros | by intros]. apply wp_Token_cookie.
  - unfold with_client, DeviceAuthorization. steps.
  - unfold DeviceVerify. steps.
  - unfold DeviceApprove. steps.
  - unfold with_client, PushedAuthorization. steps.
  - unfold with_client, OAuthHandler.Introspect. steps.
  - unfold with_client, OAuthHandler.Revoke. steps.
Qed.
End facts.
End HandlerFacts.
