(* ===== verification/OAuthHandlerSample.v ===== *)
(** * oauth/handler.go: runs of the endpoints

    Libraries that know one request object, the theorems at concrete requests, and
    runs that show what the endpoints do beside what they mean to. *)
From S2P Require Import Prelude.
From S2P Require Import Errors.
From S2P Require Import GoLib.
From S2P Require Import GoNet.
From S2P Require Import Model.
From S2P Require Import Platform.
From S2P Require Import Exec.
From S2P Require Import NetSafety.
From S2P Require Import Crypto.
From S2P Require Import SessionSvc.
From S2P Require Import OAuthRepo.
From S2P Require Import ActionToken.
From S2P Require Import UserSvc.
From S2P Require Import Argon2.
From S2P Require Import MfaSvc.
From S2P Require Import OAuth.
From S2P Require Import Authorize.
From S2P Require Import AuthSteps.
From S2P Require Import Device.
From S2P Require Import AuthFacts.
From S2P Require Import StepFacts.
From S2P Require Import ProcMem.
From S2P Require ClientAuth.
From S2P Require Oidc.
From S2P Require OidcSample.
From S2P Require Import Http.
From S2P Require Import OAuthHandler.
From S2P Require Import OAuthHandlerFacts.
From Stdlib Require Import Ascii.
Local Open Scope Z_scope.

Module HandlerSample.
Import OAuthHandler HandlerFacts.

#[local] Existing Instance sample_platform.
#[local] Existing Instance sample_netlib.
#[local] Existing Instance Argon2Facts.sample_argon2.
#[local] Existing Instance ClientAuth.verification_key_eq_dec.
#[local] Instance action_tokens : ActionToken.JwtLib := sample_jwt UserFacts.sample_claims 1000.
#[local] Instance totp : TotpLib := MfaFacts.sample_totp.

(** ** A request object *)

Definition pub : ClientAuth.RSAPublicKey := ClientAuth.mkRSA 3233 17.

Definition object : ClientAuth.JWT.t :=
  ClientAuth.JWT.mk ClientAuth.SigningMethodRSA "RS256" [("alg", AString "RS256"); ("kid", AString "k1")]
    [("redirect_uri", AString "https://app/cb"); ("response_type", AString "code"); ("scope", AString "openid read");
     ("acr_values", AString "urn:mfa"); ("code_challenge", AString "E9Melhoa2OwvFrEMTJguCHaoeK1t8URWbuGJSstw-cM");
     ("code_challenge_method", AString "S256")].

(** Libraries that know the object, signed with the key. *)
#[local] Instance jwtlib : ClientAuth.JwtLib := {|
  ClientAuth.ParseUnverified t := if String.eqb t "object" then Some object else None;
  ClientAuth.GetSubject _ := Err (EOther "sub");
  ClientAuth.GetIssuer _ := Err (EOther "iss");
  ClientAuth.GetAudience _ := Err (EOther "aud");
  ClientAuth.GetExpirationTime _ := None;
  ClientAuth.signed_with t m key := bool_decide (key = ClientAuth.RSAKey pub);
  ClientAuth.jwt_Parse _ _ _ _ := Err (EOther "token is invalid");
  ClientAuth.http_get _ _ _ _ := Err (EOther "dial")
|}.

#[local] Instance jarlib : JarLib := {|
  jar_Parse t keyfunc _ :=
    if String.eqb t "object" then
      match keyfunc object with
      | Ok key => if bool_decide (key = ClientAuth.RSAKey pub) then Ok object.(ClientAuth.JWT.Claims)
                  else Err (EOther "token is invalid")
      | Err e => Err e
      end
    else Err (EOther "token is malformed");
  malformed _ := "token is malformed";
  http_Do url _ _ _ := Ok (200, Ok (bytes_of "object"))
|}.

#[local] Instance jarlib_laws : JarLaws.
Proof.
  intros t keyfunc now claims. simpl. destruct (String.eqb t "object"); [|done].
  destruct (keyfunc object) as [key|e] eqn:Hk; [|done].
  destruct (bool_decide_reflect (key = ClientAuth.RSAKey pub)) as [Hkey|]; [|done]. intros [= <-].
  exists object, key. split_and!; try done. by apply bool_decide_eq_true_2.
Qed.

(** ** A client with its document in the cache *)

Definition client : OAuthClient.t :=
  Sample.client <| OAuthClient.JWKSUri := Some "https://app/jwks" |>
    <| OAuthClient.RequestURIs := ["http://127.0.0.1/object"] |>.

Definition db : DB := Sample.db <| oauth_clients := {[ 77%N := client ]} |>.

Definition memory_at (t : Z) : Memory :=
  mkMemory {[ "https://app/jwks" := ClientAuth.mkEntry {[ "k1" := pub ]} (t * second) ]} ∅.

Definition query (l : list (string * string)) : HttpRequest.t :=
  HttpRequest.mk (jar_get l) "" (ClientAuth.Request.mk "" (fun _ => "") "GET" "/authorize" "203.0.113.9" "browser").

Definition started_scopes (r : result (result Reply * Memory)) : list string :=
  match r with
  | Ok (Ok (mkReply 200 _ (Started resp)), _) => resp.(InitAuthorizeResponse.ScopesRequested)
  | _ => []
  end.

Definition by_value : HttpRequest.t :=
  query [("client_id", uuid_string 77%N); ("request", "object"); ("nonce", "n")].

Definition asked : result (result Reply * Memory) * DB :=
  run (Authorize Sample.service by_value (memory_at 9)) (Sample.env 10) db.


(** ** A consent, and its cookie *)

Definition config : ClientAuth.Config := ClientAuth.mkConfig "https://op/token" [] None.
Definition no_memory : Memory := mkMemory ∅ ∅.
Definition browser : HttpRequest.t := query [].

Definition consented : result (result Reply * Memory) * DB :=
  run (serve Sample.service config "https://op" (PostConsent (inr (9%N, ["read"]))) browser no_memory)
    (Sample.env 20) ready_db.

Lemma sign_in_cookies_open_sessions_witness :
  exists reply mem' c, consented.1 = Ok (Ok reply, mem') /\ c ∈ reply.(cookies) /\
    c.(ck_Name) = sessionCookieName /\ opens Sample.service (Sample.env 20) consented.2 c.(ck_Value).
Proof.
  assert (Huuid : forall n, (Sample.env 20).(env_uuid) n <> uuid_nil)
    by (intros n; change (N.of_nat (1000 + n) <> 0%N); lia).
  pose proof (sign_in_cookies_open_sessions Sample.service config "https://op" (Sample.env 20) Huuid
    (PostConsent (inr (9%N, ["read"]))) browser no_memory ready_db) as Ht. fold consented in Ht.
  assert (Hc : match consented.1 with
               | Ok (Ok reply, _) => match reply.(cookies) with
                                     | c :: _ => String.eqb c.(ck_Name) sessionCookieName
                                     | [] => false
                                     end
               | _ => false
               end = true) by (vm_compute; reflexivity).
  revert Ht Hc. destruct consented as [[[[reply|e] mem']|e] db']; try discriminate. simpl. intros Ht Hc.
  destruct (cookies reply) as [|c l] eqn:Hl; [discriminate Hc|]. apply String.eqb_eq in Hc.
  assert (Hin : c ∈ cookies reply) by (rewrite Hl; left).
  exists reply, mem', c. split; [reflexivity|]. split; [exact Hin|]. split; [exact Hc|].
  exact (proj1 (Ht reply mem' c eq_refl Hin Hc)).
Defined.

(** ** What the endpoints do beside that *)

(** An account with a second factor cannot sign in to a client of the first party:
    the password is accepted and the factor asked for, but the endpoint completes
    the request, as there is no consent to ask, and answers that it is not ready;
    that a factor is needed is not said. *)
Definition first_party_db : DB :=
  enrolled_db <| oauth_clients := {[ 77%N := Sample.client <| OAuthClient.IsFirstParty := true |> ]} |>.

Definition answer (r : result (result Reply * Memory)) : Reply :=
  match r with Ok (Ok reply, _) => reply | _ => mkReply 0 [] Empty end.

Example second_factor_never_asked :
  let s := mfa_sample mfa_service in
  let login := run (AuthSteps.AuthorizeLogin s sample_login "" "") (Sample.env 10) first_party_db in
  match login.1 with Ok resp => resp.(login_RequiresMFA) | Err _ => false end = true /\
  answer (run (serve s config "https://op" (PostLogin (inr sample_login)) browser no_memory) (Sample.env 10) first_party_db).1
  = failed (ErrInvalidRequest "authorization request is not ready").
Proof. vm_compute. done. Qed.

(** The password alone approves a device for an account with a second factor. *)
Definition device_db : DB :=
  enrolled_db <| device_codes := {[ "h" := DeviceFacts.sample_device ]} |>.

Example device_approved_without_second_factor :
  let s := mfa_sample mfa_service in
  let approval := DeviceApproval.mk "BCDF-GHJK" true "a@b" "secret" in
  (answer (run (serve s config "https://op" (PostDeviceApprove (inr approval)) browser no_memory) (Sample.env 10) device_db).1).(body)
  = Message "device authorization approved".
Proof. vm_compute. reflexivity. Qed.

(** The authentication context a signed object asks for is dropped; and what the
    object does not name is taken from the query, unsigned. *)
Example object_acr_values_dropped :
  (mergeJARParams InitAuthorizeParams.zero (string_claims object.(ClientAuth.JWT.Claims))).(InitAuthorizeParams.ACRValues) = "".
Proof. reflexivity. Qed.

Example unsigned_parameters_kept :
  (mergeJARParams (params_of (jar_get [("state", "forged"); ("scope", "admin")]))
     (string_claims object.(ClientAuth.JWT.Claims))).(InitAuthorizeParams.State) = "forged".
Proof. reflexivity. Qed.

(** A registered address of request objects is fetched wherever it points to. *)
Example loopback_fetched :
  match (run (FetchRequestURI "http://127.0.0.1/object" no_memory) (Sample.env 10) db).1 with
  | Ok (Ok body, _) => body
  | _ => ""
  end = "object" /\
  is_ok (run (ValidatePublicHTTPSURL "http://127.0.0.1/object") (Sample.env 10) db).1 = false.
Proof. vm_compute. done. Qed.

(** A resource server signs in as the user of an access token it was sent: the token
    is taken as the hint of a request that may not prompt, and the answer sets the
    cookie of a sign-in. *)
Definition op : Service :=
  let b := Sample.service in
  OAuth.mkService b.(userService) b.(sessionService) b.(OAuth.cfg) b.(OAuth.issuer) b.(idTokenGen) b.(jwtSigner)
    b.(mfaValidator) b.(policyEvaluator) b.(resourceValidator)
    (Some (@Oidc.IDTokenValidatorAdapter _ OidcSample.OidcSample.toy (OidcSample.OidcSample.provider "")
             (OidcSample.OidcSample.memory_of OidcSample.OidcSample.started)))
    b.(roleProvider).

Definition silent (hint : string) : HttpRequest.t :=
  query [("client_id", uuid_string 77%N); ("redirect_uri", "https://app/cb"); ("response_type", "code");
         ("scope", "openid"); ("code_challenge", "E9Melhoa2OwvFrEMTJguCHaoeK1t8URWbuGJSstw-cM");
         ("code_challenge_method", "S256"); ("prompt", "none"); ("id_token_hint", hint)].

Definition signed_in (r : Reply) : bool :=
  existsb (fun c => String.eqb c.(ck_Name) sessionCookieName && negb (String.eqb c.(ck_Value) "")) r.(cookies).

Example access_token_signs_in :
  signed_in (answer (run (Authorize op (silent OidcSample.OidcSample.access_token) no_memory) (Sample.env 20)
    first_party_db).1) = true.
Proof. vm_compute. reflexivity. Qed.
End HandlerSample.
